(* ===== verification/_CoqProject ===== *)
-Q . S2P
Prelude.v
CMem.v
Pb.v
PbEncode.v
PbDecode.v
PbExample.v
PbIter.v
PbWire.v
PbVarint32.v
PbRoundtrip.v
PbEncodeSafe.v
PbEncodeSize.v
PbDecodeStream.v
PbDecodeStops.v
PbMessage.v
PbMessageEncode.v
PbMessageDecode.v
PbMessageRead.v
PbMessageRoundtrip.v
PosixTime.v
PosixTimeSpec.v
Fallible.v
Cbs.v
Cbb.v
CbsSpec.v
CbbSpec.v
Asn1Int.v
CbbRoundtrip.v
CbbSafe.v
CbbSetOf.v
CbbOps.v
Ber.v
BerSpec.v
BerConvert.v
BerToDer.v
Unicode.v
UnicodeSpec.v
ConstTime.v
Base64.v
Base64Spec.v
Base64Stream.v
Partial.v
Lhash.v
LhashSpec.v
LhashMap.v
LhashOps.v
LhashVisit.v
BioPair.v
BioRing.v
BioPairSpec.v
BioPairOps.v
BioPairLife.v
BioPairFifo.v
Stack.v
StackSpec.v
StackSort.v
StackFind.v
StackOps.v
StackCopy.v
Md32.v
Md32Spec.v
Sha256.v
Sha256Spec.v
Bn.v
BnArith.v
BnBytes.v
BnWords.v
BnSpec.v
BnAdd.v
BnShift.v
BnWordOps.v
BnDivWord.v
BnBits.v
BnQuery.v
BnBytesSpec.v
BnOps.v
BnConvert.v
BnAsn1.v
BnHex.v
BnDec.v
