(* ===== verification/Prelude.v ===== *)
(** * CartX: the native C layer

    CartX is a Flutter application. Its own code is Dart (src/lib) and some generated
    runner code; the C it ships is in the CocoaPods it builds for iOS
    (src/ios/Pods), which carry the data of the application's sign-in, its database
    requests and its TLS connections. This library models the parts of that C code
    whose behaviour is a matter of data alone, function by function, and proves what
    makes them correct:

    - nanopb (Pods/nanopb), the Protocol Buffers codec of the Firebase SDKs, in the
      configuration of the Pods project (PB_FIELD_32BIT, PB_NO_PACKED_STRUCTS,
      PB_ENABLE_MALLOC);
    - the byte-string layer of BoringSSL (Pods/BoringSSL-GRPC/src/crypto): the DER
      parser CBS and the builder CBB of crypto/bytestring, its code points and its
      BER conversion, the time arithmetic of crypto/asn1 and the constant-time
      base64 of crypto/base64. These parse and write the certificates of every TLS
      connection gRPC makes;
    - three of its stateful structures: the chained hash table of crypto/lhash, the
      stacks of crypto/stack, which hold its lists of certificates and names, and the
      BIO pairs of crypto/bio, over which a TLS connection exchanges its bytes;
    - SHA-256, and the collector of input it shares with the other hashes on 32-bit
      words, of crypto/fipsmodule;
    - the big numbers of crypto/fipsmodule/bn that RSA and the curves compute with:
      their storage, addition, subtraction, comparison, shifts, bits, the operations
      with one word, and their bytes; and of crypto/bn_extra their ASN.1, decimal,
      hexadecimal and MPI forms. Below them, the constant-time words of
      crypto/internal.h, which base64 uses too.

    nanopb and BoringSSL do not call each other. Within BoringSSL, the hash table, the
    stacks, BIO pairs, hashes and time stand alone; base64 and the big numbers call the
    constant-time words; the parser calls the time arithmetic for RFC 5280 times; the
    builder calls the parser for object identifiers and sets; and the conversions of big
    numbers call both.

    ** Files

    - Prelude: integers of a given width, bit operations as arithmetic, bytes in
      either order; shared by all.
    - CMem: the machine nanopb runs on, a byte-addressed memory with an allocator,
      in which an access to an unmapped address is undefined behaviour, and the
      monad of the translated functions. Pb (pb.h, pb_common.c), PbEncode
      (pb_encode.c) and PbDecode (pb_decode.c) are the program. A pointer to code
      (a stream or field callback) is looked up in an environment [pb_env], a
      parameter of the model, as are the descriptors the generated code provides.
      PbExample holds a concrete message.
    - PbIter: the field iterator. PbWire, PbRoundtrip, PbVarint32: the scalar
      encodings. PbEncodeSafe, PbEncodeSize: properties of the whole encoder.
      PbDecodeStream, PbDecodeStops: a judgement on functions that read from a memory
      stream, and the whole decoder in it. PbMessage: the value of a message, read from a
      structure in memory, and its encoding on the wire. PbMessageEncode: the encoder
      against it. PbMessageDecode (values and fields), PbMessageRead (messages): the
      decoder against it. PbMessageRoundtrip: the two together.
    - PosixTime (crypto/asn1/posix_time.c) and PosixTimeSpec.
    - Fallible: functions that return 1 or 0 and change an object. Cbs (cbs.c),
      Cbb (cbb.c, and the printing of object identifiers of cbs.c), Unicode
      (unicode.c), Ber (ber.c) are the program. A CBS is the list of
      the bytes it spans; a CBB is a buffer and the chain of its open children.
    - CbsSpec: the reference encodings of DER and the parser against them. CbbSpec:
      the contract [Writes] of a writer, and how writers compose through children.
      Asn1Int, CbbRoundtrip, UnicodeSpec: the readers and writers of values.
      CbbSafe, CbbSetOf, CbbOps: the builder under any sequence of calls.
    - BerSpec: BER elements as trees, their encodings and the DER they stand for.
      BerConvert, BerToDer: the conversion against them.
    - ConstTime (the inline functions of crypto/internal.h on words): masks, comparisons,
      selections, additions with a carry. Base64 (crypto/base64/base64.c), Base64Spec,
      Base64Stream.
    - Partial: stateful functions that can go wrong, and the addresses of objects.
      Lhash (crypto/lhash/lhash.c) is the program: an array of pointers to chains of
      items in a heap, an item read only while it is allocated. LhashSpec: chains and
      well-formed tables, and moving every item to a new array; LhashMap: each
      operation on the map the table holds; LhashOps, LhashVisit: sequences and visits.
    - BioPair (crypto/bio/pair.c, and the calls of bio.c that reach it): two heaps of
      BIOs and of their states. BioRing: the ring buffer and its copying loops;
      BioPairSpec: two pipes, and the relation to a pair; BioPairOps, BioPairLife: the
      operations, making and freeing; BioPairFifo: from beginning to end, and the delivery of
      messages.
    - Stack (crypto/stack/stack.c): a heap of stacks, each with an array of cells, a
      cell being indeterminate until it is written. StackSpec: the operations on the
      list of elements; StackSort, StackFind: the heap sort and the searches; StackOps:
      sequences of operations; StackCopy: making, copying and freeing.
    - Md32 (crypto/fipsmodule/digest/md32_common.h): the collector, and the class
      [BlockFunc] of what it asks of a block function. Md32Spec: the hash of a padded
      message, and the collector against it, for any block function of the class.
      Sha256 (crypto/fipsmodule/sha/sha256.c.inc) and Sha256Spec: the hash, and the
      standard it implements.

    - Bn (bn.c.inc, and the loops of generic.c.inc for 64-bit words), BnArith (add.c.inc,
      cmp.c.inc, shift.c.inc, and the functions on one word of mul.c.inc and div.c.inc),
      BnBytes (bytes.c.inc) and BnConvert (convert.c, bn_asn1.c) are the program: a heap
      of BIGNUMs, each with its array of words, and the answers of the allocator. Results
      and operands are addresses, so they may be the same object. BnWords: the number a
      list of words stands for, and the loops over words. BnSpec: well-formed BIGNUMs, and
      the outcome of an operation (the result, or 0 when there is no room). BnAdd, BnShift,
      BnWordOps, BnDivWord, BnBits, BnQuery, BnBytesSpec: the operations one by one;
      BnOps: programs of them. BnAsn1, BnHex, BnDec: the conversions.

    ** What the theorems show

    - Whole messages survive nanopb: [pb_encode] writes the Protocol Buffers encoding of
      the message a structure holds, [pb_decode] of that encoding gives a structure that
      holds the same message. The descriptors are the plain ones ([PbMessage.plain]):
      static fields of every type but extensions, required, optional with a has_ flag or
      repeated with a counter, nested to a finite depth, laid out without overlap.
    - The nanopb decoder, on any bytes, stays inside them and terminates, for every
      descriptor whose messages nest to a finite depth: the fuel that is enough is
      stated ([PbDecodeStops.enough]). The field iterator visits every field of a
      descriptor, each with the pointers of its position.
    - The nanopb encoder never writes outside its buffer, whatever the message and the
      descriptors hold, and its sizing pass is exact. The scalar encodings are
      inverse, and the 32-bit varint decoder answers what it should on every encoding
      of a 64-bit value (the lemmas at the end of PbVarint32 show two encodings that
      no encoder writes and that it reads wrongly).
    - The DER parser accepts exactly DER. The builder writes exactly DER, or records
      an error when there is no room; it stays inside its buffer under any sequence of
      calls, and an error stays. Integers, booleans, strings and code points survive
      builder and parser; the parsers of integers and of UTF-8 accept exactly the
      canonical encodings; sets are put in the one order that X.690 allows.
    - The BER conversion accepts exactly well-formed BER, converts it to the DER of
      the same trees, and leaves DER alone.
    - Time conversion is the Gregorian calendar, both ways.
    - The hash table is a finite map under any sequence of operations, with growth and
      shrinking unseen, whatever the keys hash to; a visit sees every element once, even
      when the callback deletes what it sees; freeing frees every item once.
    - A BIO pair is two bounded queues of bytes: nothing is lost, doubled or reordered,
      no assertion fails, and either end may be freed first. A writer that tries again
      and a reader, in turns of any order, get the whole message through.
    - A stack is a list under any sequence of operations, whatever allocations fail; it
      keeps within the bounds its interface promises; its sort leaves a sorted
      permutation and its binary search finds the first match, while the mark of being
      sorted is true, which only sk_set can make false; a deep copy that fails frees what
      it made.
    - SHA-256 of a message in pieces is that of FIPS 180-4 on the whole.
    - Programs of operations on BIGNUMs, with any aliasing, compute on the integers the
      BIGNUMs hold, keep every BIGNUM well formed, and stop only where there is no room.
      A number survives being written in ASN.1, hexadecimal and decimal and read back;
      what is written is the canonical form, and the decimal writer frees all that it
      allocates but the text. The queries (bits, comparison, divisibility
      by a power of two) and the bytes in either order are lemmas of BnQuery, BnBits and
      BnBytesSpec.
    - The constant-time comparisons and selections, on words, bytes and ints, are
      comparisons and selections.
    - Base64 is inverse, and its streaming forms do not depend on how their input is
      cut.

    ** Bounds and fuel

    [size_t] and [crypto_word_t] have 64 bits, as on the iOS targets; wrap-around is
    written out with [u8], [u16], [u32], [u64]. Loops that consume a list recurse on
    it, or have its length as fuel. nanopb's loops over a stream have the bytes left as
    fuel, those over a descriptor the entries of the descriptor; the nesting of
    messages is a parameter, and running out of it is an outcome of its own
    ([NoFuel]), which no theorem counts as a success. The BER
    conversion recurses over a number of levels taken from the code's own kMaxDepth,
    and its loops over the bytes of the level, so it needs no other fuel. A walk along a
    chain of the hash table has the number of items as fuel, and the copying loops of a
    ring buffer two iterations; the sort and the binary search of a stack have the number
    of its elements. The loops over the words of a
    BIGNUM have the width as fuel, decimal output the bits of the number. Running out
    would have no result, and the theorems say there is one. A visit, whose callback could go on adding items, has a fuel of its own.

    ** Not modelled

    The Dart application and the Objective-C, Swift and C++ pods (Firebase, Firestore,
    gRPC, Abseil, LevelDB); BoringSSL's ciphers, public-key and X.509 code, its other
    hashes and its assembly; of the big numbers, BN_CTX and what needs one or is built on
    long multiplication (Karatsuba's, BN_div, Montgomery reduction, exponentiation,
    inversion, primes, random numbers, the shift by a secret amount), and printing to a
    BIO; the generated descriptors and upb code. Where a CBS stands
    after a failed BER conversion is left open: its callers give up. Words are wiped
    before they are freed, which no later state shows, and timing is no part of the model.
    The error queue, the
    extra data of a BIO and the races on its reference count are left out. *)
From stdpp Require Export base numbers list gmap strings.
From Stdlib Require Export ZArith Lia.
#[global] Open Scope Z_scope.

(** ** Fixed-width integers

    A C unsigned integer of width [w] is a [Z] in [0, 2^w); [uN] is the
    reduction C performs on conversion to that type, [sN] the conversion to
    the two's complement signed type of the same width. *)
Definition u8 (z : Z) : Z := z mod 2 ^ 8.
Definition u16 (z : Z) : Z := z mod 2 ^ 16.
Definition u32 (z : Z) : Z := z mod 2 ^ 32.
Definition u64 (z : Z) : Z := z mod 2 ^ 64.

Definition to_signed (w z : Z) : Z :=
  let r := z mod 2 ^ w in if r <? 2 ^ (w - 1) then r else r - 2 ^ w.
Definition s8 (z : Z) : Z := to_signed 8 z.
Definition s16 (z : Z) : Z := to_signed 16 z.
Definition s32 (z : Z) : Z := to_signed 32 z.
Definition s64 (z : Z) : Z := to_signed 64 z.

Definition is_byte (b : Z) : Prop := 0 <= b < 256.
#[global] Instance is_byte_dec b : Decision (is_byte b).
Proof. unfold is_byte. apply _. Defined.

(** A decidable fact about every byte, by trying them. *)
Lemma byte_cases (P : Z -> bool) :
  forallb (fun n => P (Z.of_nat n)) (seq 0 256) = true -> forall b, is_byte b -> P b = true.
Proof.
  intros H b Hb. unfold is_byte in Hb. rewrite forallb_forall in H.
  specialize (H (Z.to_nat b)). rewrite Z2Nat.id in H by lia. apply H, in_seq. lia.
Qed.

(** Linear arithmetic with the quotients and remainders of the goal made
    explicit. *)
Ltac div_lia := Z.div_mod_to_equations; lia.

(** Split the boolean tests of the goal (or of a hypothesis) that [lia] can
    read back. *)
Ltac case_bool :=
  match goal with
  | |- context [?a <? ?b] => destruct (Z.ltb_spec a b)
  | |- context [?a <=? ?b] => destruct (Z.leb_spec a b)
  | |- context [?a =? ?b] => destruct (Z.eqb_spec a b)
  | H : context [?a <? ?b] |- _ => destruct (Z.ltb_spec a b)
  | H : context [?a <=? ?b] |- _ => destruct (Z.leb_spec a b)
  | H : context [?a =? ?b] |- _ => destruct (Z.eqb_spec a b)
  end.

Create HintDb cint.

Lemma u8_range z : 0 <= u8 z < 2 ^ 8.
Proof. apply Z.mod_pos_bound. lia. Qed.
Lemma u16_range z : 0 <= u16 z < 2 ^ 16.
Proof. apply Z.mod_pos_bound. lia. Qed.
Lemma u32_range z : 0 <= u32 z < 2 ^ 32.
Proof. apply Z.mod_pos_bound. lia. Qed.
Lemma u64_range z : 0 <= u64 z < 2 ^ 64.
Proof. apply Z.mod_pos_bound. lia. Qed.
#[export] Hint Resolve u8_range u16_range u32_range u64_range : cint.

Lemma u8_small z : 0 <= z < 2 ^ 8 -> u8 z = z.
Proof. intros. by apply Z.mod_small. Qed.
Lemma u16_small z : 0 <= z < 2 ^ 16 -> u16 z = z.
Proof. intros. by apply Z.mod_small. Qed.
Lemma u32_small z : 0 <= z < 2 ^ 32 -> u32 z = z.
Proof. intros. by apply Z.mod_small. Qed.
Lemma u64_small z : 0 <= z < 2 ^ 64 -> u64 z = z.
Proof. intros. by apply Z.mod_small. Qed.

Lemma is_byte_u8 z : is_byte (u8 z).
Proof. apply u8_range. Qed.
#[export] Hint Resolve is_byte_u8 : cint.

Lemma pow2_half w : 0 < w -> 2 ^ w = 2 * 2 ^ (w - 1).
Proof.
  intros Hw. replace w with (Z.succ (w - 1)) at 1 by lia.
  by rewrite Z.pow_succ_r by lia.
Qed.

Lemma to_signed_range w z : 0 < w -> - 2 ^ (w - 1) <= to_signed w z < 2 ^ (w - 1).
Proof.
  intros Hw. unfold to_signed.
  pose proof (pow2_half w Hw) as H2.
  assert (0 < 2 ^ (w - 1)) by (apply Z.pow_pos_nonneg; lia).
  pose proof (Z.mod_pos_bound z (2 ^ w)).
  case_bool; lia.
Qed.

Lemma to_signed_mod w z : 0 < w -> to_signed w z mod 2 ^ w = z mod 2 ^ w.
Proof.
  intros Hw. unfold to_signed. case_bool.
  - by apply Zmod_mod.
  - replace (z mod 2 ^ w - 2 ^ w) with (z mod 2 ^ w + (-1) * 2 ^ w) by lia.
    rewrite Z_mod_plus_full. apply Zmod_mod.
Qed.

Lemma to_signed_small w z :
  0 < w -> - 2 ^ (w - 1) <= z < 2 ^ (w - 1) -> to_signed w z = z.
Proof.
  intros Hw Hz. unfold to_signed.
  pose proof (pow2_half w Hw) as H2.
  destruct (Z.lt_ge_cases z 0).
  - replace (z mod 2 ^ w) with (z + 2 ^ w).
    + case_bool; lia.
    + rewrite <-(Z_mod_plus_full z 1), Z.mod_small; lia.
  - rewrite Z.mod_small by lia. case_bool; lia.
Qed.

(** ** Bit operations as arithmetic *)

Lemma land_ones_mod z n m : 0 <= n -> m = Z.ones n -> Z.land z m = z mod 2 ^ n.
Proof. intros ? ->. by apply Z.land_ones. Qed.

Lemma land_7F z : Z.land z 0x7F = z mod 128.
Proof. by apply (land_ones_mod z 7). Qed.
Lemma land_FF z : Z.land z 0xFF = z mod 256.
Proof. by apply (land_ones_mod z 8). Qed.
Lemma land_7 z : Z.land z 7 = z mod 8.
Proof. by apply (land_ones_mod z 3). Qed.
Lemma land_1 z : Z.land z 1 = z mod 2.
Proof. by apply (land_ones_mod z 1). Qed.

Lemma add_128_mod z : (z + 128) mod 128 = z mod 128.
Proof. rewrite <-(Z.mul_1_l 128) at 1. apply Z_mod_plus_full. Qed.

Lemma testbit_small a n i : 0 <= a < 2 ^ n -> n <= i -> Z.testbit a i = false.
Proof.
  intros Ha Hi. destruct (Z.le_gt_cases 0 n) as [Hn|Hn].
  - rewrite <-(Z.mod_small a (2 ^ n)) by done. by apply Z.mod_pow2_bits_high.
  - rewrite Z.pow_neg_r in Ha; lia.
Qed.

(** Disjoint operands: an or is a sum. *)
Lemma lor_add a b n :
  0 <= n -> 0 <= a < 2 ^ n -> b mod 2 ^ n = 0 -> Z.lor a b = a + b.
Proof.
  intros Hn Ha Hb. rewrite <-Z.lxor_lor; [symmetry; apply Z.add_nocarry_lxor|];
    apply Z.bits_inj'; intros i Hi; rewrite Z.land_spec, Z.bits_0;
    (destruct (Z.lt_ge_cases i n);
     [ rewrite <-(Z.mod_pow2_bits_low b n i), Hb, Z.bits_0 by lia; apply andb_false_r
     | rewrite (testbit_small a n i) by lia; done ]).
Qed.

Lemma lor_range n a b : 0 <= n -> 0 <= a < 2 ^ n -> 0 <= b < 2 ^ n -> 0 <= Z.lor a b < 2 ^ n.
Proof.
  intros Hn Ha Hb.
  destruct (Z.eq_dec a 0) as [->|]; [exact Hb|].
  destruct (Z.eq_dec b 0) as [->|]; [by rewrite Z.lor_0_r|].
  assert (0 <= Z.lor a b) by (apply Z.lor_nonneg; lia). split; [done|].
  destruct (Z.eq_dec (Z.lor a b) 0) as [->|]; [lia|]. apply Z.log2_lt_pow2; [lia|].
  rewrite Z.log2_lor by lia. apply Z.max_lub_lt; apply Z.log2_lt_pow2; lia.
Qed.

Lemma lor_shiftl_add a b n :
  0 <= n -> 0 <= a < 2 ^ n -> Z.lor a (Z.shiftl b n) = a + b * 2 ^ n.
Proof.
  intros Hn Ha. rewrite Z.shiftl_mul_pow2 by done.
  apply (lor_add _ _ n); [done|done|]. apply Z_mod_mult.
Qed.

Lemma land_shiftl_disjoint a b n :
  0 <= n -> 0 <= a < 2 ^ n -> Z.land a (Z.shiftl b n) = 0.
Proof.
  intros Hn Ha. apply Z.bits_inj'; intros i Hi. rewrite Z.land_spec, Z.bits_0.
  destruct (Z.lt_ge_cases i n).
  - rewrite (Z.shiftl_spec_low b n i) by lia. apply andb_false_r.
  - rewrite (testbit_small a n i) by lia. done.
Qed.

(** ** Little-endian byte sequences *)

Fixpoint le_combine (l : list Z) : Z :=
  match l with [] => 0 | b :: l => b + 256 * le_combine l end.

Fixpoint le_split (n : nat) (z : Z) : list Z :=
  match n with O => [] | S n => z mod 256 :: le_split n (z / 256) end.

Definition bytes (l : list Z) : Prop := Forall is_byte l.

Lemma bytes_app l1 l2 : bytes (l1 ++ l2) <-> bytes l1 /\ bytes l2.
Proof. apply Forall_app. Qed.

Lemma bytes_cons b l : bytes (b :: l) <-> is_byte b /\ bytes l.
Proof. apply Forall_cons. Qed.

Lemma length_le_split n z : length (le_split n z) = n.
Proof. revert z. induction n; intros; simpl; auto. Qed.

Lemma le_split_bytes n z : bytes (le_split n z).
Proof.
  revert z. induction n as [|n IH]; intros z; constructor; [|apply IH].
  apply Z.mod_pos_bound. lia.
Qed.
#[export] Hint Resolve le_split_bytes : cint.

Lemma le_combine_split n z : le_combine (le_split n z) = z mod 2 ^ (8 * Z.of_nat n).
Proof.
  revert z. induction n as [|n IH]; intros z.
  - simpl. by rewrite Z.mod_1_r.
  - cbn [le_split le_combine]. rewrite IH.
    replace (8 * Z.of_nat (S n)) with (8 + 8 * Z.of_nat n) by lia.
    rewrite Z.pow_add_r by lia. change (2 ^ 8) with 256.
    rewrite Z.rem_mul_r by (try apply Z.pow_pos_nonneg; lia). done.
Qed.

Lemma le_combine_range l : bytes l -> 0 <= le_combine l < 2 ^ (8 * Z.of_nat (length l)).
Proof.
  induction 1 as [|b l Hb Hl IH]; [simpl; lia|].
  cbn [le_combine length]. unfold is_byte in Hb.
  replace (8 * Z.of_nat (S (length l))) with (8 + 8 * Z.of_nat (length l)) by lia.
  rewrite Z.pow_add_r by lia. change (2 ^ 8) with 256. lia.
Qed.

Lemma le_split_combine l : bytes l -> le_split (length l) (le_combine l) = l.
Proof.
  induction 1 as [|b l Hb Hl IH]; [done|]. cbn [le_combine length le_split].
  unfold is_byte in Hb.
  rewrite Z.mul_comm, Z_mod_plus_full, Z.mod_small by lia.
  rewrite Z.div_add, Z.div_small by lia. by rewrite Z.add_0_l, IH.
Qed.

Lemma le_combine_app l1 l2 :
  le_combine (l1 ++ l2) = le_combine l1 + 2 ^ (8 * Z.of_nat (length l1)) * le_combine l2.
Proof.
  induction l1 as [|b l IH]; [simpl; lia|].
  cbn [le_combine app length]. rewrite IH.
  replace (8 * Z.of_nat (S (length l))) with (8 + 8 * Z.of_nat (length l)) by lia.
  rewrite Z.pow_add_r by lia. change (2 ^ 8) with 256. ring.
Qed.
