(* ===== verification/CMem.v ===== *)
(** * The C abstract machine the nanopb model runs on

    A byte-addressed memory with undefined behaviour on any access to an
    unmapped address, a [realloc]/[free] pair with an oracle for allocation
    failure, and the state monad in which the translated functions live.
    Pointers are 64-bit addresses ([0] is [NULL]); objects are laid out as the
    LP64 ABI of the iOS targets lays them out, least significant byte first. *)
From S2P Require Export Prelude.

(** A computation returns, or hits undefined behaviour, or has exhausted the
    fuel of one of its loops. *)
Inductive outcome (A : Type) : Type :=
| Ret (a : A)
| Undef
| NoFuel.
Arguments Ret {_} _.
Arguments Undef {_}.
Arguments NoFuel {_}.

(** [blocks] holds the live heap allocations with their sizes, [brk] the next
    address to hand out, [oom] the allocator's future answers ([true]: fail;
    the empty list: succeed), [junk] the byte found in fresh storage. *)
Record cstate := CState {
  heap : gmap Z Z;
  blocks : gmap Z Z;
  brk : Z;
  oom : list bool;
  junk : Z;
}.

Definition set_heap (c : cstate) (h : gmap Z Z) : cstate :=
  CState h (blocks c) (brk c) (oom c) (junk c).

(** Stateful computations: [S] is the object a function receives by reference
    (a stream), [cstate] the machine. *)
Definition M (S A : Type) : Type := S -> cstate -> outcome (A * S * cstate).

#[global] Instance M_ret S : MRet (M S) := fun A a s c => Ret (a, s, c).
#[global] Instance M_bind S : MBind (M S) := fun A B k m s c =>
  match m s c with
  | Ret (a, s', c') => k a s' c'
  | Undef => Undef
  | NoFuel => NoFuel
  end.

Definition undef {S A} : M S A := fun _ _ => Undef.
Definition nofuel {S A} : M S A := fun _ _ => NoFuel.
Definition get {S} : M S S := fun s c => Ret (s, s, c).
Definition put {S} (s' : S) : M S unit := fun _ c => Ret (tt, s', c).
Definition of_option {S A} (o : option A) : M S A :=
  match o with Some a => mret a | None => undef end.

(** Run a computation over an object of its own and return that object: a call
    that is handed the address of a local structure. *)
Definition run_with {S S' A} (s' : S') (m : M S' A) : M S (A * S') := fun s c =>
  match m s' c with
  | Ret (a, s'', c') => Ret ((a, s''), s, c')
  | Undef => Undef
  | NoFuel => NoFuel
  end.

(** [if (!m) return false; k] *)
Notation "'check!' m ; k" := (mbind (fun ok : bool => if ok then k else mret false) m)
  (at level 20, m at level 100, k at level 200, right associativity, only parsing).

(** ** Loads and stores *)

Fixpoint read_bytes (h : gmap Z Z) (a : Z) (n : nat) : option (list Z) :=
  match n with
  | O => Some []
  | S n => match h !! a, read_bytes h (a + 1) n with
           | Some b, Some l => Some (b :: l)
           | _, _ => None
           end
  end.

Fixpoint write_bytes (h : gmap Z Z) (a : Z) (l : list Z) : option (gmap Z Z) :=
  match l with
  | [] => Some h
  | b :: l => match h !! a with
              | Some _ => write_bytes (<[a := b]> h) (a + 1) l
              | None => None
              end
  end.

Definition read_mem {S} (a : Z) (n : nat) : M S (list Z) := fun s c =>
  match read_bytes (heap c) a n with
  | Some l => Ret (l, s, c)
  | None => Undef
  end.

Definition write_mem {S} (a : Z) (l : list Z) : M S unit := fun s c =>
  match write_bytes (heap c) a l with
  | Some h => Ret (tt, s, set_heap c h)
  | None => Undef
  end.

(** [n]-byte little-endian unsigned load and store. *)
Definition load {S} (n : nat) (a : Z) : M S Z :=
  l ← read_mem a n; mret (le_combine l).
Definition store {S} (n : nat) (a v : Z) : M S unit :=
  write_mem a (le_split n v).

Definition load_ptr {S} (a : Z) : M S Z := load 8 a.
Definition store_ptr {S} (a v : Z) : M S unit := store 8 a v.

Definition memset {S} (a b : Z) (n : nat) : M S unit :=
  write_mem a (replicate n b).

Definition memcpy {S} (dst src : Z) (n : nat) : M S unit :=
  l ← read_mem src n; write_mem dst l.

(** ** Allocation *)

Fixpoint map_range (h : gmap Z Z) (a : Z) (n : nat) (b : Z) : gmap Z Z :=
  match n with O => h | S n => map_range (<[a := b]> h) (a + 1) n b end.

Fixpoint unmap_range (h : gmap Z Z) (a : Z) (n : nat) : gmap Z Z :=
  match n with O => h | S n => unmap_range (delete a h) (a + 1) n end.

(** The next allocation address: 16-byte aligned, with a gap after the block. *)
Definition next_brk (a n : Z) : Z := (a + n + 31) / 16 * 16.

Definition pb_free {S} (p : Z) : M S unit := fun s c =>
  if p =? 0 then Ret (tt, s, c)
  else match blocks c !! p with
       | None => Undef
       | Some n => Ret (tt, s, CState (unmap_range (heap c) p (Z.to_nat n))
                                 (delete p (blocks c)) (brk c) (oom c) (junk c))
       end.

(** [realloc(p, n)]: fails when the oracle says so or the address space is
    exhausted, leaving the old block alone; otherwise moves the block. *)
Definition pb_realloc {S} (p n : Z) : M S Z := fun s c =>
  let fail := match oom c with b :: _ => b | [] => false end in
  let c1 := CState (heap c) (blocks c) (brk c) (tail (oom c)) (junk c) in
  if fail || (2 ^ 64 <=? next_brk (brk c) n) then Ret (0, s, c1)
  else
    let q := brk c in
    let h1 := map_range (heap c) q (Z.to_nat n) (junk c) in
    let c2 := CState h1 (<[q := n]> (blocks c)) (next_brk q n) (tail (oom c)) (junk c) in
    if p =? 0 then Ret (q, s, c2)
    else match blocks c !! p with
         | None => Undef
         | Some old =>
           (_ ← memcpy q p (Z.to_nat (Z.min old n)); _ ← pb_free p; mret q) s c2
         end.

(** Storage for a local variable whose address is taken. *)
Definition stack_alloc {S} (n : Z) : M S Z := fun s c =>
  let a := brk c in
  Ret (a, s, CState (map_range (heap c) a (Z.to_nat n) (junk c))
               (blocks c) (next_brk a n) (oom c) (junk c)).
Definition stack_free {S} (a n : Z) : M S unit := fun s c =>
  Ret (tt, s, CState (unmap_range (heap c) a (Z.to_nat n))
                (blocks c) (brk c) (oom c) (junk c)).

(** ** Reasoning about computations *)

(** Partial correctness: whenever [m] returns, [Q] holds of what it returns. *)
Definition wp {S A} (m : M S A) (Q : A -> S -> cstate -> Prop) (s : S) (c : cstate) : Prop :=
  forall a s' c', m s c = Ret (a, s', c') -> Q a s' c'.

Lemma wp_ret {S A} (a : A) (Q : A -> S -> cstate -> Prop) s c :
  Q a s c -> wp (mret a) Q s c.
Proof. intros H ? ? ? [= <- <- <-]. done. Qed.

Lemma wp_bind {S A B} (m : M S A) (k : A -> M S B) Q s c :
  wp m (fun a s' c' => wp (k a) Q s' c') s c -> wp (m ≫= k) Q s c.
Proof.
  intros H b s2 c2. unfold mbind, M_bind.
  destruct (m s c) as [[[a s1] c1]| |] eqn:E; try discriminate.
  intros Hk. exact (H _ _ _ E _ _ _ Hk).
Qed.

Lemma wp_mono {S A} (m : M S A) (P Q : A -> S -> cstate -> Prop) s c :
  (forall a s' c', P a s' c' -> Q a s' c') -> wp m P s c -> wp m Q s c.
Proof. intros HPQ H a s' c' E. exact (HPQ _ _ _ (H _ _ _ E)). Qed.

Lemma wp_undef {S A} (Q : A -> S -> cstate -> Prop) s c : wp undef Q s c.
Proof. intros ? ? ? [=]. Qed.
Lemma wp_nofuel {S A} (Q : A -> S -> cstate -> Prop) s c : wp nofuel Q s c.
Proof. intros ? ? ? [=]. Qed.
Lemma wp_get {S} (Q : S -> S -> cstate -> Prop) s c : Q s s c -> wp get Q s c.
Proof. intros H ? ? ? [= <- <- <-]. done. Qed.
Lemma wp_put {S} (s' : S) (Q : unit -> S -> cstate -> Prop) s c :
  Q tt s' c -> wp (put s') Q s c.
Proof. intros H ? ? ? [= <- <- <-]. done. Qed.
Lemma wp_of_option {S A} (o : option A) (Q : A -> S -> cstate -> Prop) s c :
  (forall a, o = Some a -> Q a s c) -> wp (of_option o) Q s c.
Proof. destruct o; intros H; [by apply wp_ret, H|apply wp_undef]. Qed.

Lemma wp_run_with {S S' A} (s0 : S') (m : M S' A) (Q : A * S' -> S -> cstate -> Prop) s c :
  wp m (fun a s1 c1 => Q (a, s1) s c1) s0 c -> wp (run_with s0 m) Q s c.
Proof.
  intros H [a s1] s2 c1. unfold run_with.
  destruct (m s0 c) as [[[a' s1'] c1']| |] eqn:E; try discriminate.
  intros [= <- <- <- <-]. exact (H _ _ _ E).
Qed.

Lemma wp_read_mem {S} a n (Q : list Z -> S -> cstate -> Prop) s c :
  (forall l, read_bytes (heap c) a n = Some l -> Q l s c) -> wp (read_mem a n) Q s c.
Proof.
  intros H l s' c'. unfold read_mem.
  destruct (read_bytes _ _ _); [intros [= <- <- <-]; auto|discriminate].
Qed.

Lemma wp_write_mem {S} a l (Q : unit -> S -> cstate -> Prop) s c :
  (forall h, write_bytes (heap c) a l = Some h -> Q tt s (set_heap c h)) ->
  wp (write_mem a l) Q s c.
Proof.
  intros H u s' c'. unfold write_mem.
  destruct (write_bytes _ _ _); [intros [= <- <- <-]; auto|discriminate].
Qed.

Lemma wp_load {S} n a (Q : Z -> S -> cstate -> Prop) s c :
  (forall l, read_bytes (heap c) a n = Some l -> Q (le_combine l) s c) ->
  wp (load n a) Q s c.
Proof.
  intros H. apply wp_bind, wp_read_mem. intros l Hl. apply wp_ret. auto.
Qed.

(** ** Facts about byte ranges *)

Lemma read_bytes_length h a n l : read_bytes h a n = Some l -> length l = n.
Proof.
  revert a l. induction n as [|n IH]; intros a l; simpl; [by intros [= <-]|].
  destruct (h !! a); [|done].
  destruct (read_bytes h (a + 1) n) eqn:E; [|done].
  intros [= <-]. simpl. f_equal. eauto.
Qed.

Lemma read_bytes_agree h1 h2 a n :
  (forall b, a <= b < a + Z.of_nat n -> h1 !! b = h2 !! b) ->
  read_bytes h1 a n = read_bytes h2 a n.
Proof.
  revert a. induction n as [|n IH]; intros a H; [done|]. simpl.
  rewrite (H a) by lia. rewrite (IH (a + 1)); [done|].
  intros b Hb. apply H. lia.
Qed.

Lemma read_bytes_subseteq h1 h2 a n l :
  h1 ⊆ h2 -> read_bytes h1 a n = Some l -> read_bytes h2 a n = Some l.
Proof.
  intros Hsub. revert a l. induction n as [|n IH]; intros a l; simpl; [done|].
  destruct (h1 !! a) eqn:Ea; [|done].
  destruct (read_bytes h1 (a + 1) n) eqn:E; [|done]. intros [= <-].
  rewrite (lookup_weaken _ _ _ _ Ea Hsub). by rewrite (IH _ _ E).
Qed.

Lemma write_bytes_outside h a l h' b :
  write_bytes h a l = Some h' -> ~ (a <= b < a + Z.of_nat (length l)) ->
  h' !! b = h !! b.
Proof.
  revert h a. induction l as [|x l IH]; intros h a; simpl; [by intros [= <-]|].
  destruct (h !! a) eqn:Ea; [|done]. intros Hw Hb.
  rewrite (IH _ _ Hw) by lia. apply lookup_insert_ne. lia.
Qed.

Lemma write_bytes_dom h a l h' b :
  write_bytes h a l = Some h' -> is_Some (h' !! b) <-> is_Some (h !! b).
Proof.
  revert h a. induction l as [|x l IH]; intros h a; simpl; [by intros [= <-]|].
  destruct (h !! a) eqn:Ea; [|done]. intros Hw.
  rewrite (IH _ _ Hw), lookup_insert. case_decide; [subst|done].
  rewrite Ea. split; eauto.
Qed.

Lemma read_write_bytes h a l h' :
  write_bytes h a l = Some h' -> read_bytes h' a (length l) = Some l.
Proof.
  revert h a. induction l as [|x l IH]; intros h a; simpl; [done|].
  destruct (h !! a) eqn:Ea; [|done]. intros Hw.
  rewrite (write_bytes_outside _ _ _ _ a Hw) by lia.
  rewrite lookup_insert_eq, (IH _ _ Hw). done.
Qed.

(** A store succeeds exactly when the whole range is mapped. *)
Lemma write_bytes_mapped h a l :
  (forall b, a <= b < a + Z.of_nat (length l) -> is_Some (h !! b)) ->
  exists h', write_bytes h a l = Some h'.
Proof.
  revert h a. induction l as [|x l IH]; intros h a H; simpl; [eauto|].
  destruct (H a) as [y Hy]; [simpl; lia|]. rewrite Hy. apply IH.
  intros b Hb. rewrite lookup_insert. case_decide; [eauto|].
  apply H. simpl length. lia.
Qed.
