(* ===== verification/Pb.v ===== *)
(** * nanopb: field descriptors, streams and the field iterator

    The data of [pb.h], [pb_encode.h], [pb_decode.h] and the field iterator of
    [pb_common.c], configured as the Pods project builds it: [PB_FIELD_32BIT],
    [PB_NO_PACKED_STRUCTS], [PB_ENABLE_MALLOC]; error messages and stream
    callbacks enabled, 64-bit integers available. *)
From S2P Require Export CMem.

(** ** Constants of pb.h *)
Definition PB_MAX_REQUIRED_FIELDS : Z := 64.
Definition PB_LTYPE_BOOL : Z := 0x00.
Definition PB_LTYPE_VARINT : Z := 0x01.
Definition PB_LTYPE_UVARINT : Z := 0x02.
Definition PB_LTYPE_SVARINT : Z := 0x03.
Definition PB_LTYPE_FIXED32 : Z := 0x04.
Definition PB_LTYPE_FIXED64 : Z := 0x05.
Definition PB_LTYPE_LAST_PACKABLE : Z := 0x05.
Definition PB_LTYPE_BYTES : Z := 0x06.
Definition PB_LTYPE_STRING : Z := 0x07.
Definition PB_LTYPE_SUBMESSAGE : Z := 0x08.
Definition PB_LTYPE_EXTENSION : Z := 0x09.
Definition PB_LTYPE_FIXED_LENGTH_BYTES : Z := 0x0A.
Definition PB_LTYPE_MASK : Z := 0x0F.
Definition PB_HTYPE_REQUIRED : Z := 0x00.
Definition PB_HTYPE_OPTIONAL : Z := 0x10.
Definition PB_HTYPE_REPEATED : Z := 0x20.
Definition PB_HTYPE_ONEOF : Z := 0x30.
Definition PB_HTYPE_MASK : Z := 0x30.
Definition PB_ATYPE_STATIC : Z := 0x00.
Definition PB_ATYPE_POINTER : Z := 0x80.
Definition PB_ATYPE_CALLBACK : Z := 0x40.
Definition PB_ATYPE_MASK : Z := 0xC0.

Definition PB_ATYPE (x : Z) : Z := Z.land x PB_ATYPE_MASK.
Definition PB_HTYPE (x : Z) : Z := Z.land x PB_HTYPE_MASK.
Definition PB_LTYPE (x : Z) : Z := Z.land x PB_LTYPE_MASK.

(** [pb_size_t] is [uint32_t]. *)
Definition sizeof_pb_size_t : nat := 4.
Definition PB_SIZE_MAX : Z := 2 ^ 32 - 1.
Definition sizeof_ptr : Z := 8.

(** [pb_bytes_array_t]: a [pb_size_t] and the bytes right after it. *)
Definition offsetof_bytes : Z := 4.
Definition PB_BYTES_ARRAY_T_ALLOCSIZE (n : Z) : Z := u64 (n + offsetof_bytes).

(** [pb_callback_t], [pb_extension_type_t] and [pb_extension_t] in memory. *)
Definition offsetof_cb_funcs : Z := 0.
Definition offsetof_cb_arg : Z := 8.
Definition offsetof_exttype_decode : Z := 0.
Definition offsetof_exttype_encode : Z := 8.
Definition offsetof_exttype_arg : Z := 16.
Definition offsetof_ext_type : Z := 0.
Definition offsetof_ext_dest : Z := 8.
Definition offsetof_ext_next : Z := 16.
Definition offsetof_ext_found : Z := 24.

(** One entry of a descriptor array. *)
Record pb_field_t := mk_field {
  tag : Z;
  type : Z;
  data_offset : Z;
  size_offset : Z;
  data_size : Z;
  array_size : Z;
  ptr : Z;
}.

Inductive pb_wire_type_t := PB_WT_VARINT | PB_WT_64BIT | PB_WT_STRING | PB_WT_32BIT.
#[global] Instance pb_wire_type_eq_dec : EqDecision pb_wire_type_t.
Proof. solve_decision. Defined.

(** The enumerators' values; a decoded wire type is any 3-bit value. *)
Definition wt_val (w : pb_wire_type_t) : Z :=
  match w with
  | PB_WT_VARINT => 0 | PB_WT_64BIT => 1 | PB_WT_STRING => 2 | PB_WT_32BIT => 5
  end.

(** ** Streams *)

Inductive ocallback := OC_NULL | OC_buf_write | OC_user (fn : Z).
#[global] Instance ocallback_eq_dec : EqDecision ocallback.
Proof. solve_decision. Defined.

Record pb_ostream_t := mk_ostream {
  os_callback : ocallback;
  os_state : Z;
  os_max_size : Z;
  os_bytes_written : Z;
  os_errmsg : option string;
}.

Definition PB_OSTREAM_SIZING : pb_ostream_t := mk_ostream OC_NULL 0 0 0 None.

Inductive icallback := IC_buf_read | IC_user (fn : Z).
#[global] Instance icallback_eq_dec : EqDecision icallback.
Proof. solve_decision. Defined.

Record pb_istream_t := mk_istream {
  is_callback : icallback;
  is_state : Z;
  is_bytes_left : Z;
  is_errmsg : option string;
}.

(** What [pb_write] is given to copy from: a local array of the caller, or a
    pointer into memory. *)
Inductive cbuf := Local (l : list Z) | Mem (p : Z).

(** Where [pb_read] is told to put the data: nowhere ([NULL]), into a local
    array of the caller, whose contents are then returned, or into memory. *)
Inductive rbuf := RNull | RLocal | RMem (p : Z).
Definition rbuf_of_ptr (p : Z) : rbuf := if p =? 0 then RNull else RMem p.

(** ** What the library is linked with

    The descriptor arrays the generated code declares, by address, and the
    functions the application registers: stream callbacks, field callbacks and
    extension handlers, by function pointer. *)
Record pb_env := mk_env {
  env_fields : gmap Z (list pb_field_t);
  env_stream_write : Z -> cbuf -> Z -> M pb_ostream_t bool;
  env_stream_read : Z -> rbuf -> Z -> M pb_istream_t (bool * list Z);
  env_field_encode : Z -> pb_field_t -> Z -> M pb_ostream_t bool;
  env_field_decode : Z -> pb_field_t -> Z -> M pb_istream_t bool;
  env_ext_encode : Z -> Z -> M pb_ostream_t bool;
  env_ext_decode : Z -> Z -> Z -> Z -> M pb_istream_t bool;
}.

(** ** pb_common.c: the field iterator

    [it_start] is the address of the descriptor array and [it_pos] the index of
    the current entry in it. *)
Record pb_field_iter_t := mk_iter {
  it_start : Z;
  it_pos : nat;
  it_required_field_index : Z;
  it_dest_struct : Z;
  it_pData : Z;
  it_pSize : Z;
}.

Definition iter_set_pSize (it : pb_field_iter_t) (p : Z) : pb_field_iter_t :=
  mk_iter (it_start it) (it_pos it) (it_required_field_index it) (it_dest_struct it)
    (it_pData it) p.
Definition iter_set_pData (it : pb_field_iter_t) (p : Z) : pb_field_iter_t :=
  mk_iter (it_start it) (it_pos it) (it_required_field_index it) (it_dest_struct it)
    p (it_pSize it).

Section Iter.
Context (E : pb_env).

(** [iter->pos], dereferenced. *)
Definition field_at (start : Z) (pos : nat) : option pb_field_t :=
  fs ← env_fields E !! start; fs !! pos.

Definition it_field (it : pb_field_iter_t) : option pb_field_t :=
  field_at (it_start it) (it_pos it).

Definition pb_field_iter_begin (fields dest_struct : Z) : option (bool * pb_field_iter_t) :=
  f ← field_at fields 0;
  let pData := if dest_struct =? 0 then 0 else dest_struct + data_offset f in
  let pSize := if dest_struct =? 0 then 0 else pData + size_offset f in
  Some (negb (tag f =? 0), mk_iter fields 0 0 dest_struct pData pSize).

(** The distance the data pointer moves over the previous field, before the
    offset of the new one is added. *)
Definition iter_prev_size (prev : pb_field_t) : Z :=
  if (PB_ATYPE (type prev) =? PB_ATYPE_STATIC)
     && (PB_HTYPE (type prev) =? PB_HTYPE_REPEATED)
  then u64 (data_size prev * array_size prev)
  else if PB_ATYPE (type prev) =? PB_ATYPE_POINTER then sizeof_ptr
  else data_size prev.

Definition pb_field_iter_next (it : pb_field_iter_t) : option (bool * pb_field_iter_t) :=
  prev_field ← it_field it;
  if tag prev_field =? 0 then Some (false, it)
  else
    cur ← field_at (it_start it) (S (it_pos it));
    if tag cur =? 0 then
      '(_, it') ← pb_field_iter_begin (it_start it) (it_dest_struct it);
      Some (false, it')
    else if (PB_HTYPE (type prev_field) =? PB_HTYPE_ONEOF)
            && (PB_HTYPE (type cur) =? PB_HTYPE_ONEOF)
            && (data_offset cur =? PB_SIZE_MAX)
    then Some (true, mk_iter (it_start it) (S (it_pos it)) (it_required_field_index it)
                       (it_dest_struct it) (it_pData it) (it_pSize it))
    else
      let req := if PB_HTYPE (type prev_field) =? PB_HTYPE_REQUIRED
                 then u32 (it_required_field_index it + 1)
                 else it_required_field_index it in
      let pData := it_pData it + iter_prev_size prev_field + data_offset cur in
      Some (true, mk_iter (it_start it) (S (it_pos it)) req (it_dest_struct it)
                    pData (pData + size_offset cur)).

(** The [do ... while (iter->pos != start)] loop of [pb_field_iter_find] and of
    [find_extension_field] (pb_decode.c), over the test of the loop body. The fuel of
    [iter_fuel] is not used up on the entries of a descriptor ([PbIter.search_round]). *)
Fixpoint iter_search (fuel : nat) (hit : pb_field_t -> bool) (start : nat)
    (it : pb_field_iter_t) : option (bool * pb_field_iter_t) :=
  match fuel with
  | O => None
  | S fuel =>
    f ← it_field it;
    if hit f then Some (true, it)
    else
      '(_, it') ← pb_field_iter_next it;
      if Nat.eqb (it_pos it') start then Some (false, it')
      else iter_search fuel hit start it'
  end.

(** One full turn of the iterator visits every entry of the array. *)
Definition iter_fuel (start : Z) : nat :=
  match env_fields E !! start with Some fs => S (length fs) | None => 1 end.

Definition pb_field_iter_find (it : pb_field_iter_t) (tag0 : Z)
    : option (bool * pb_field_iter_t) :=
  iter_search (iter_fuel (it_start it))
    (fun f => (tag f =? tag0) && negb (PB_LTYPE (type f) =? PB_LTYPE_EXTENSION))
    (it_pos it) it.

(** The [do { body } while (pb_field_iter_next(&iter))] loops of the library;
    [body] answers [false] to return early. *)
Fixpoint iter_do_while {St} (fuel : nat) (body : pb_field_iter_t -> M St bool)
    (it : pb_field_iter_t) : M St bool :=
  match fuel with
  | O => nofuel
  | S fuel =>
    check! body it;
    r ← of_option (pb_field_iter_next it);
    if r.1 : bool then iter_do_while fuel body r.2 else mret true
  end.
End Iter.
