(* ===== verification/PbEncode.v ===== *)
(** * nanopb: pb_encode.c

    Every function of the encoder, over the abstract machine of [CMem]. An
    encoder receives its stream by reference: it is a computation of
    [M pb_ostream_t bool]. The mutual recursion
    [pb_encode -> encode_field -> pb_enc_submessage -> pb_encode] is open: the
    functions below [pb_encode] take it as the argument [rec], and [pb_encode]
    ties the knot with a fuel that bounds the nesting of messages. *)
From S2P Require Export Pb.

(** ** Output streams *)

(** [PB_SET_ERROR]: the first message is kept. *)
Definition os_set_error (s : pb_ostream_t) (msg : string) : pb_ostream_t :=
  mk_ostream (os_callback s) (os_state s) (os_max_size s) (os_bytes_written s)
    (match os_errmsg s with Some m => Some m | None => Some msg end).

(** [PB_RETURN_ERROR] *)
Definition os_return_error (msg : string) : M pb_ostream_t bool :=
  s ← get; _ ← put (os_set_error s msg); mret false.

Definition os_advance (s : pb_ostream_t) (n : Z) : pb_ostream_t :=
  mk_ostream (os_callback s) (os_state s) (os_max_size s)
    (u64 (os_bytes_written s + n)) (os_errmsg s).

Definition cbuf_get {St} (buf : cbuf) (i : nat) : M St Z :=
  match buf with
  | Local l => of_option (l !! i)
  | Mem p => load 1 (p + Z.of_nat i)
  end.

(** [for (i = 0; i < count; i++) dest[i] = buf[i];] from index [i] on. *)
Fixpoint copy_loop {St} (dest : Z) (buf : cbuf) (i n : nat) : M St unit :=
  match n with
  | O => mret tt
  | S n =>
    b ← cbuf_get buf i;
    _ ← store 1 (dest + Z.of_nat i) b;
    copy_loop dest buf (S i) n
  end.

Definition buf_write (buf : cbuf) (count : Z) : M pb_ostream_t bool :=
  s ← get;
  let dest := os_state s in
  _ ← put (mk_ostream (os_callback s) (dest + count) (os_max_size s)
             (os_bytes_written s) (os_errmsg s));
  _ ← copy_loop dest buf 0 (Z.to_nat count);
  mret true.

Definition pb_ostream_from_buffer (buf bufsize : Z) : pb_ostream_t :=
  mk_ostream OC_buf_write buf bufsize 0 None.

(** Read a bool that may hold any byte; [sizeof(bool)] is 1. *)
Definition safe_read_bool {St} (pSize : Z) : M St bool :=
  b ← load 1 pSize; mret (negb (b =? 0)).

(** A [while (size < max_size && *p != 0)] scan; each step reads another mapped
    byte, so the number of mapped bytes bounds it. *)
Fixpoint strnlen_loop {St} (fuel : nat) (p size max_size : Z) : M St Z :=
  if size <? max_size then
    match fuel with
    | O => undef
    | S fuel =>
      b ← load 1 p;
      if b =? 0 then mret size else strnlen_loop fuel (p + 1) (size + 1) max_size
    end
  else mret size.

Definition strnlen {St} (p max_size : Z) : M St Z := fun s c =>
  strnlen_loop (size (heap c)) p 0 max_size s c.

(** Is every byte of [p[0..n)] zero? *)
Fixpoint all_zero_loop {St} (n : nat) (p : Z) : M St bool :=
  match n with
  | O => mret true
  | S n => b ← load 1 p; if b =? 0 then all_zero_loop n (p + 1) else mret false
  end.

Section Encode.
Context (E : pb_env).

Definition ocallback_call (cb : ocallback) (buf : cbuf) (count : Z)
    : M pb_ostream_t bool :=
  match cb with
  | OC_NULL => undef
  | OC_buf_write => buf_write buf count
  | OC_user fn => env_stream_write E fn buf count
  end.

Definition pb_write (buf : cbuf) (count : Z) : M pb_ostream_t bool :=
  s ← get;
  if (0 <? count) && negb (bool_decide (os_callback s = OC_NULL)) then
    if (u64 (os_bytes_written s + count) <? os_bytes_written s)
       || (os_max_size s <? u64 (os_bytes_written s + count))
    then os_return_error "stream full"
    else
      ok ← ocallback_call (os_callback s) buf count;
      if negb ok then os_return_error "io error"
      else s' ← get; _ ← put (os_advance s' count); mret true
  else _ ← put (os_advance s count); mret true.

(** ** Helper functions *)

(** The [while (value)] loop of [pb_encode_varint], storing into
    [buffer[i]], [buffer[i+1]], ... of which [room] entries are left. *)
Fixpoint varint_loop {St} (room : nat) (value : Z) : M St (list Z) :=
  if value =? 0 then mret []
  else match room with
       | O => undef
       | S room =>
         l ← varint_loop room (Z.shiftr value 7);
         mret (u8 (Z.lor (Z.land value 0x7F) 0x80) :: l)
       end.

(** [buffer[i-1] &= 0x7F]: unset the top bit of the last byte. *)
Fixpoint clear_last (l : list Z) : list Z :=
  match l with
  | [] => []
  | [b] => [Z.land b 0x7F]
  | b :: l => b :: clear_last l
  end.

Definition pb_encode_varint (value : Z) : M pb_ostream_t bool :=
  if value <=? 0x7F then pb_write (Local [u8 value]) 1
  else
    buffer ← varint_loop 10 value;
    pb_write (Local (clear_last buffer)) (Z.of_nat (length buffer)).

Definition pb_encode_svarint (value : Z) : M pb_ostream_t bool :=
  let zigzagged :=
    if value <? 0 then u64 (Z.lnot (u64 (Z.shiftl (u64 value) 1)))
    else u64 (Z.shiftl (u64 value) 1) in
  pb_encode_varint zigzagged.

Definition pb_encode_fixed32 (value : Z) : M pb_ostream_t bool :=
  val ← load 4 value;
  pb_write (Local [u8 (Z.land val 0xFF);
                   u8 (Z.land (Z.shiftr val 8) 0xFF);
                   u8 (Z.land (Z.shiftr val 16) 0xFF);
                   u8 (Z.land (Z.shiftr val 24) 0xFF)]) 4.

Definition pb_encode_fixed64 (value : Z) : M pb_ostream_t bool :=
  val ← load 8 value;
  pb_write (Local [u8 (Z.land val 0xFF);
                   u8 (Z.land (Z.shiftr val 8) 0xFF);
                   u8 (Z.land (Z.shiftr val 16) 0xFF);
                   u8 (Z.land (Z.shiftr val 24) 0xFF);
                   u8 (Z.land (Z.shiftr val 32) 0xFF);
                   u8 (Z.land (Z.shiftr val 40) 0xFF);
                   u8 (Z.land (Z.shiftr val 48) 0xFF);
                   u8 (Z.land (Z.shiftr val 56) 0xFF)]) 8.

Definition pb_encode_tag (wiretype : pb_wire_type_t) (field_number : Z)
    : M pb_ostream_t bool :=
  pb_encode_varint (Z.lor (u64 (Z.shiftl field_number 3)) (wt_val wiretype)).

(** The [switch] of [pb_encode_tag_for_field]; [None] is its default. *)
Definition wiretype_of_ltype (ltype : Z) : option pb_wire_type_t :=
  if (ltype =? PB_LTYPE_BOOL) || (ltype =? PB_LTYPE_VARINT)
     || (ltype =? PB_LTYPE_UVARINT) || (ltype =? PB_LTYPE_SVARINT)
  then Some PB_WT_VARINT
  else if ltype =? PB_LTYPE_FIXED32 then Some PB_WT_32BIT
  else if ltype =? PB_LTYPE_FIXED64 then Some PB_WT_64BIT
  else if (ltype =? PB_LTYPE_BYTES) || (ltype =? PB_LTYPE_STRING)
          || (ltype =? PB_LTYPE_SUBMESSAGE) || (ltype =? PB_LTYPE_FIXED_LENGTH_BYTES)
  then Some PB_WT_STRING
  else None.

Definition pb_encode_tag_for_field (field : pb_field_t) : M pb_ostream_t bool :=
  match wiretype_of_ltype (PB_LTYPE (type field)) with
  | None => os_return_error "invalid field type"
  | Some wiretype => pb_encode_tag wiretype (tag field)
  end.

Definition pb_encode_string (buffer : cbuf) (size : Z) : M pb_ostream_t bool :=
  check! pb_encode_varint size;
  pb_write buffer size.

(** ** Field encoders *)

Definition pb_encoder_t : Type := pb_field_t -> Z -> M pb_ostream_t bool.

Definition pb_enc_bool : pb_encoder_t := fun _ src =>
  b ← safe_read_bool src;
  pb_encode_varint (if b : bool then 1 else 0).

Definition pb_enc_varint : pb_encoder_t := fun field src =>
  if data_size field =? 1 then v ← load 1 src; pb_encode_varint (u64 (s8 v))
  else if data_size field =? 2 then v ← load 2 src; pb_encode_varint (u64 (s16 v))
  else if data_size field =? 4 then v ← load 4 src; pb_encode_varint (u64 (s32 v))
  else if data_size field =? 8 then v ← load 8 src; pb_encode_varint (u64 (s64 v))
  else os_return_error "invalid data_size".

Definition pb_enc_uvarint : pb_encoder_t := fun field src =>
  if data_size field =? 1 then v ← load 1 src; pb_encode_varint v
  else if data_size field =? 2 then v ← load 2 src; pb_encode_varint v
  else if data_size field =? 4 then v ← load 4 src; pb_encode_varint v
  else if data_size field =? 8 then v ← load 8 src; pb_encode_varint v
  else os_return_error "invalid data_size".

Definition pb_enc_svarint : pb_encoder_t := fun field src =>
  if data_size field =? 1 then v ← load 1 src; pb_encode_svarint (s8 v)
  else if data_size field =? 2 then v ← load 2 src; pb_encode_svarint (s16 v)
  else if data_size field =? 4 then v ← load 4 src; pb_encode_svarint (s32 v)
  else if data_size field =? 8 then v ← load 8 src; pb_encode_svarint (s64 v)
  else os_return_error "invalid data_size".

Definition pb_enc_fixed32 : pb_encoder_t := fun _ src => pb_encode_fixed32 src.
Definition pb_enc_fixed64 : pb_encoder_t := fun _ src => pb_encode_fixed64 src.

Definition pb_enc_bytes : pb_encoder_t := fun field src =>
  if src =? 0 then pb_encode_string (Local []) 0
  else
    size ← load sizeof_pb_size_t src;
    if (PB_ATYPE (type field) =? PB_ATYPE_STATIC)
       && (u64 (data_size field - offsetof_bytes) <? size)
    then os_return_error "bytes size exceeded"
    else pb_encode_string (Mem (src + offsetof_bytes)) size.

Definition pb_enc_string : pb_encoder_t := fun field src =>
  let max_size := if PB_ATYPE (type field) =? PB_ATYPE_POINTER then 2 ^ 64 - 1
                  else data_size field in
  size ← if src =? 0 then mret 0 else strnlen src max_size;
  pb_encode_string (Mem src) size.

Definition pb_enc_fixed_length_bytes : pb_encoder_t := fun field src =>
  pb_encode_string (Mem src) (data_size field).

(** [pb_check_proto3_default_value]; the fuel bounds the nesting of the
    submessages it looks into. *)
Fixpoint pb_check_proto3_default_value {St} (fuel : nat) (field : pb_field_t) (pData : Z)
    : M St bool :=
  match fuel with
  | O => nofuel
  | S fuel =>
    let type := type field in
    let pSize := pData + size_offset field in
    let singular : M St bool :=
      (* Rest is proto3 singular fields *)
      if (PB_ATYPE type =? PB_ATYPE_STATIC) && (PB_LTYPE type =? PB_LTYPE_BYTES) then
        n ← load sizeof_pb_size_t pData; mret (n =? 0)
      else if (PB_ATYPE type =? PB_ATYPE_STATIC) && (PB_LTYPE type =? PB_LTYPE_STRING) then
        b ← load 1 pData; mret (b =? 0)
      else if (PB_ATYPE type =? PB_ATYPE_STATIC)
              && (PB_LTYPE type =? PB_LTYPE_FIXED_LENGTH_BYTES) then
        mret (data_size field =? 0)
      else if (PB_ATYPE type =? PB_ATYPE_STATIC)
              && (PB_LTYPE type =? PB_LTYPE_SUBMESSAGE) then
        r ← of_option (pb_field_iter_begin E (ptr field) pData);
        if r.1 : bool then
          iter_do_while E (iter_fuel E (ptr field))
            (fun it => f ← of_option (it_field E it);
                       pb_check_proto3_default_value fuel f (it_pData it)) r.2
        else mret true
      else if (PB_ATYPE type =? PB_ATYPE_POINTER)
              && (PB_LTYPE_LAST_PACKABLE <? PB_LTYPE type) then
        p ← load_ptr pData; mret (p =? 0)
      else all_zero_loop (Z.to_nat (data_size field)) pData in
    if PB_HTYPE type =? PB_HTYPE_REQUIRED then mret false
    else if PB_HTYPE type =? PB_HTYPE_REPEATED then
      if negb (size_offset field =? 0) then
        n ← load sizeof_pb_size_t pSize; mret (n =? 0)
      else if PB_ATYPE type =? PB_ATYPE_STATIC then mret false
      else singular
    else if PB_HTYPE type =? PB_HTYPE_ONEOF then
      n ← load sizeof_pb_size_t pSize; mret (n =? 0)
    else if (PB_HTYPE type =? PB_HTYPE_OPTIONAL) && negb (size_offset field =? 0) then
      b ← safe_read_bool pSize; mret (negb b)
    else singular
  end.

(** Call through an entry of [PB_ENCODERS]. *)
Definition call_encoder (func : option pb_encoder_t) : pb_encoder_t := fun field src =>
  match func with Some f => f field src | None => undef end.

(** ** Encode a single field *)

(** [for (i = 0; i < count; i++) { body(p); p += data_size; }] *)
Fixpoint array_loop {St} (n : nat) (body : Z -> M St bool) (p step : Z) : M St bool :=
  match n with
  | O => mret true
  | S n => check! body p; array_loop n body (p + step) step
  end.

Definition encode_array (field : pb_field_t) (pData count : Z)
    (func : option pb_encoder_t) : M pb_ostream_t bool :=
  if count =? 0 then mret true
  else if negb (PB_ATYPE (type field) =? PB_ATYPE_POINTER) && (array_size field <? count)
  then os_return_error "array max size exceeded"
  else if PB_LTYPE (type field) <=? PB_LTYPE_LAST_PACKABLE then
    check! pb_encode_tag PB_WT_STRING (tag field);
    (* the size of the packed array, or None when sizing an element failed *)
    size ← (if PB_LTYPE (type field) =? PB_LTYPE_FIXED32 then mret (Some (u64 (4 * count)))
            else if PB_LTYPE (type field) =? PB_LTYPE_FIXED64 then mret (Some (u64 (8 * count)))
            else
              r ← run_with PB_OSTREAM_SIZING
                    (array_loop (Z.to_nat count) (call_encoder func field) pData
                       (data_size field));
              mret (if r.1 : bool then Some (os_bytes_written r.2) else None));
    match size with
    | None => mret false
    | Some size =>
      check! pb_encode_varint size;
      s ← get;
      if bool_decide (os_callback s = OC_NULL) then pb_write (Mem 0) size
      else array_loop (Z.to_nat count) (call_encoder func field) pData (data_size field)
    end
  else
    array_loop (Z.to_nat count)
      (fun p =>
         check! pb_encode_tag_for_field field;
         if (PB_ATYPE (type field) =? PB_ATYPE_POINTER)
            && ((PB_LTYPE (type field) =? PB_LTYPE_STRING)
                || (PB_LTYPE (type field) =? PB_LTYPE_BYTES))
         then q ← load_ptr p; call_encoder func field q
         else call_encoder func field p) pData (data_size field).

Section Rec.
(** [pb_encode] for the messages nested in this one, and the fuel it has. *)
Context (fuel : nat) (rec : Z -> Z -> M pb_ostream_t bool).

Definition pb_encode_submessage (fields src_struct : Z) : M pb_ostream_t bool :=
  r ← run_with PB_OSTREAM_SIZING (rec fields src_struct);
  if negb r.1 then
    s ← get;
    _ ← put (mk_ostream (os_callback s) (os_state s) (os_max_size s)
               (os_bytes_written s) (os_errmsg r.2));
    mret false
  else
    let size := os_bytes_written r.2 in
    check! pb_encode_varint size;
    s ← get;
    if bool_decide (os_callback s = OC_NULL) then pb_write (Mem 0) size
    else if os_max_size s <? u64 (os_bytes_written s + size)
    then os_return_error "stream full"
    else
      q ← run_with (mk_ostream (os_callback s) (os_state s) size 0 None)
            (rec fields src_struct);
      let substream := q.2 in
      _ ← put (mk_ostream (os_callback s) (os_state substream) (os_max_size s)
                 (u64 (os_bytes_written s + os_bytes_written substream))
                 (os_errmsg substream));
      if negb (os_bytes_written substream =? size)
      then os_return_error "submsg size changed"
      else mret q.1.

Definition pb_enc_submessage : pb_encoder_t := fun field src =>
  if ptr field =? 0 then os_return_error "invalid field descriptor"
  else pb_encode_submessage (ptr field) src.

Definition PB_ENCODERS : list (option pb_encoder_t) :=
  [ Some pb_enc_bool; Some pb_enc_varint; Some pb_enc_uvarint; Some pb_enc_svarint;
    Some pb_enc_fixed32; Some pb_enc_fixed64; Some pb_enc_bytes; Some pb_enc_string;
    Some pb_enc_submessage; None; Some pb_enc_fixed_length_bytes ].

Definition encode_basic_field (field : pb_field_t) (pData : Z) : M pb_ostream_t bool :=
  func ← of_option (PB_ENCODERS !! Z.to_nat (PB_LTYPE (type field)));
  (* pSize: a pointer into the message, or None for &implicit_has *)
  let pSize := if size_offset field =? 0 then None
               else Some (pData + size_offset field) in
  implicit_has ←
    (if negb (size_offset field =? 0) then mret true
     else if PB_HTYPE (type field) =? PB_HTYPE_OPTIONAL then
       d ← pb_check_proto3_default_value fuel field pData; mret (negb d)
     else mret true);
  pq ← (if PB_ATYPE (type field) =? PB_ATYPE_POINTER then
          q ← load_ptr pData; mret (q, negb (q =? 0))
        else mret (pData, implicit_has));
  let pData := pq.1 in
  let implicit_has := pq.2 in
  let htype := PB_HTYPE (type field) in
  if htype =? PB_HTYPE_REQUIRED then
    if pData =? 0 then os_return_error "missing required field"
    else
      check! pb_encode_tag_for_field field;
      call_encoder func field pData
  else if htype =? PB_HTYPE_OPTIONAL then
    has ← (match pSize with Some p => safe_read_bool p | None => mret implicit_has end);
    if has : bool then
      check! pb_encode_tag_for_field field;
      call_encoder func field pData
    else mret true
  else if htype =? PB_HTYPE_REPEATED then
    count ← (match pSize with
             | Some p => load sizeof_pb_size_t p
             | None => mret (array_size field)
             end);
    encode_array field pData count func
  else if htype =? PB_HTYPE_ONEOF then
    which ← (match pSize with Some p => load sizeof_pb_size_t p | None => undef end);
    if which =? tag field then
      check! pb_encode_tag_for_field field;
      call_encoder func field pData
    else mret true
  else os_return_error "invalid field type".

Definition encode_callback_field (field : pb_field_t) (pData : Z) : M pb_ostream_t bool :=
  fn ← load_ptr (pData + offsetof_cb_funcs);
  if negb (fn =? 0) then
    ok ← env_field_encode E fn field (pData + offsetof_cb_arg);
    if negb ok then os_return_error "callback error" else mret true
  else mret true.

Definition encode_field (field : pb_field_t) (pData : Z) : M pb_ostream_t bool :=
  let atype := PB_ATYPE (type field) in
  if (atype =? PB_ATYPE_STATIC) || (atype =? PB_ATYPE_POINTER)
  then encode_basic_field field pData
  else if atype =? PB_ATYPE_CALLBACK then encode_callback_field field pData
  else os_return_error "invalid field type".

Definition default_extension_encoder (extension : Z) : M pb_ostream_t bool :=
  exttype ← load_ptr (extension + offsetof_ext_type);
  arg ← load_ptr (exttype + offsetof_exttype_arg);
  field ← of_option (field_at E arg 0);
  if PB_ATYPE (type field) =? PB_ATYPE_POINTER
  then encode_field field (extension + offsetof_ext_dest)
  else dest ← load_ptr (extension + offsetof_ext_dest); encode_field field dest.

(** [while (extension)]: down the linked list of extensions. *)
Fixpoint extension_loop (n : nat) (extension : Z) : M pb_ostream_t bool :=
  if extension =? 0 then mret true
  else match n with
       | O => nofuel
       | S n =>
         exttype ← load_ptr (extension + offsetof_ext_type);
         encode ← load_ptr (exttype + offsetof_exttype_encode);
         check! (if negb (encode =? 0) then env_ext_encode E encode extension
                 else default_extension_encoder extension);
         next ← load_ptr (extension + offsetof_ext_next);
         extension_loop n next
       end.

Definition encode_extension_field (field : pb_field_t) (pData : Z) : M pb_ostream_t bool :=
  extension ← load_ptr pData;
  extension_loop fuel extension.

(** The body of the loop of [pb_encode]. *)
Definition encode_one (it : pb_field_iter_t) : M pb_ostream_t bool :=
  f ← of_option (it_field E it);
  if PB_LTYPE (type f) =? PB_LTYPE_EXTENSION
  then encode_extension_field f (it_pData it)
  else encode_field f (it_pData it).
End Rec.

(** ** Encode all fields *)

Fixpoint pb_encode (fuel : nat) (fields src_struct : Z) : M pb_ostream_t bool :=
  match fuel with
  | O => nofuel
  | S fuel =>
    r ← of_option (pb_field_iter_begin E fields src_struct);
    if negb r.1 then mret true (* Empty message type *)
    else iter_do_while E (iter_fuel E fields)
           (encode_one fuel (pb_encode fuel)) r.2
  end.

Definition pb_encode_delimited (fuel : nat) (fields src_struct : Z) : M pb_ostream_t bool :=
  pb_encode_submessage (pb_encode fuel) fields src_struct.

Definition pb_encode_nullterminated (fuel : nat) (fields src_struct : Z)
    : M pb_ostream_t bool :=
  check! pb_encode fuel fields src_struct;
  pb_write (Local [0]) 1.

(** [None] is the result [false]; [*size] is assigned on success only. *)
Definition pb_get_encoded_size {St} (fuel : nat) (fields src_struct : Z) : M St (option Z) :=
  r ← run_with PB_OSTREAM_SIZING (pb_encode fuel fields src_struct);
  mret (if r.1 : bool then Some (os_bytes_written r.2) else None).
End Encode.
