(* ===== verification/PbDecode.v ===== *)
(** * nanopb: pb_decode.c

    Every function of the decoder, over the abstract machine of [CMem]. A
    decoder receives its stream by reference: it is a computation of [M
    pb_istream_t]. A function that stores an integer through a pointer on
    success only returns an [option] instead of the pair of a status and an
    out-parameter. The recursion through submessages is open, as in [PbEncode]. *)
From S2P Require Export PbEncode.

(** ** Input streams *)

Definition is_set_error (s : pb_istream_t) (msg : string) : pb_istream_t :=
  mk_istream (is_callback s) (is_state s) (is_bytes_left s)
    (match is_errmsg s with Some m => Some m | None => Some msg end).

(** [PB_RETURN_ERROR], in a function that answers [r] on failure. *)
Definition is_fail {A} (r : A) (msg : string) : M pb_istream_t A :=
  s ← get; _ ← put (is_set_error s msg); mret r.
Definition is_return_error (msg : string) : M pb_istream_t bool := is_fail false msg.

Definition is_set_bytes_left (s : pb_istream_t) (n : Z) : pb_istream_t :=
  mk_istream (is_callback s) (is_state s) n (is_errmsg s).

(** [for (i = 0; i < count; i++) buf[i] = source[i];], returning the bytes when
    [buf] is a local array of the caller. *)
Fixpoint read_loop {St} (buf : rbuf) (source : Z) (i n : nat) : M St (list Z) :=
  match n with
  | O => mret []
  | S n =>
    b ← load 1 (source + Z.of_nat i);
    match buf with
    | RMem p => _ ← store 1 (p + Z.of_nat i) b; read_loop buf source (S i) n
    | _ => l ← read_loop buf source (S i) n; mret (b :: l)
    end
  end.

Definition buf_read (buf : rbuf) (count : Z) : M pb_istream_t (bool * list Z) :=
  s ← get;
  let source := is_state s in
  _ ← put (mk_istream (is_callback s) (source + count) (is_bytes_left s) (is_errmsg s));
  l ← (match buf with
       | RNull => mret []
       | _ => read_loop buf source 0 (Z.to_nat count)
       end);
  mret (true, l).

Definition pb_istream_from_buffer (buf bufsize : Z) : pb_istream_t :=
  mk_istream IC_buf_read buf bufsize None.

(** An [if (!f(..., &x)) return false;] on a function with an out-parameter. *)
Notation "'check?' x ← m ; k" :=
  (mbind (fun o => match o with Some x => k | None => mret false end) m)
  (at level 20, x name, m at level 100, k at level 200, right associativity, only parsing).
Notation "'checko?' x ← m ; k" :=
  (mbind (fun o => match o with Some x => k | None => mret None end) m)
  (at level 20, x name, m at level 100, k at level 200, right associativity, only parsing).

Notation "'checko!' m ; k" := (mbind (fun ok : bool => if ok then k else mret None) m)
  (at level 20, m at level 100, k at level 200, right associativity, only parsing).

Section Decode.
Context (E : pb_env).

Definition icallback_call (cb : icallback) (buf : rbuf) (count : Z)
    : M pb_istream_t (bool * list Z) :=
  match cb with
  | IC_buf_read => buf_read buf count
  | IC_user fn => env_stream_read E fn buf count
  end.

(** [pb_read] below its skip branch: a non-null [buf], or a memory stream. *)
Definition pb_read_data (buf : rbuf) (count : Z) : M pb_istream_t (bool * list Z) :=
  if count =? 0 then mret (true, [])
  else
    s ← get;
    if is_bytes_left s <? count then is_fail (false, []) "end-of-stream"
    else
      r ← icallback_call (is_callback s) buf count;
      if negb r.1 then is_fail (false, []) "io error"
      else
        s' ← get;
        _ ← put (is_set_bytes_left s' (u64 (is_bytes_left s' - count)));
        mret r.

(** [while (count > 16) pb_read(stream, tmp, 16)], then the rest; [n] is
    the number of full turns left. *)
Fixpoint skip_loop (n : nat) (count : Z) : M pb_istream_t bool :=
  match n with
  | O => r ← pb_read_data RLocal count; mret r.1
  | S n =>
    r ← pb_read_data RLocal 16;
    if r.1 : bool then skip_loop n (count - 16) else mret false
  end.

Definition pb_read (buf : rbuf) (count : Z) : M pb_istream_t (bool * list Z) :=
  if count =? 0 then mret (true, [])
  else
    s ← get;
    match buf with
    | RNull =>
      if negb (bool_decide (is_callback s = IC_buf_read))
      then ok ← skip_loop (Z.to_nat ((count - 1) / 16)) count; mret (ok, [])
      else pb_read_data buf count
    | _ => pb_read_data buf count
    end.

Definition pb_read_ok (buf : rbuf) (count : Z) : M pb_istream_t bool :=
  r ← pb_read buf count; mret r.1.

(** The byte read, or [None] on failure. *)
Definition pb_readbyte : M pb_istream_t (option Z) :=
  s ← get;
  if is_bytes_left s =? 0 then is_fail None "end-of-stream"
  else
    r ← icallback_call (is_callback s) RLocal 1;
    if negb r.1 then is_fail None "io error"
    else
      s' ← get;
      _ ← put (is_set_bytes_left s' (u64 (is_bytes_left s' - 1)));
      b ← of_option (r.2 !! 0%nat);
      mret (Some b).

(** ** Helper functions *)

(** The [do ... while (byte & 0x80)] loop of the 32-bit varint decoder.
    [bitpos] is a [uint_fast8_t]; the bytes read bound the number of turns. *)
Fixpoint varint32_loop (fuel : nat) (bitpos result : Z) : M pb_istream_t (option Z) :=
  match fuel with
  | O => nofuel
  | S fuel =>
    checko? byte ← pb_readbyte;
    let sign_extension := if bitpos <? 63 then 0xFF else 0x01 in
    if (32 <=? bitpos)
       && negb (Z.land byte 0x7F =? 0)
       && ((Z.shiftr result 31 =? 0) || negb (byte =? sign_extension))
    then is_fail None "varint overflow"
    else
      let result := if 32 <=? bitpos then result
                    else Z.lor result (u32 (Z.shiftl (Z.land byte 0x7F) bitpos)) in
      let bitpos := u8 (bitpos + 7) in
      if negb (Z.land byte 0x80 =? 0) then varint32_loop fuel bitpos result
      else if (bitpos =? 35) && negb (Z.land byte 0x70 =? 0)
      then is_fail None "varint overflow"
      else mret (Some result)
  end.

(** The value, and whether [*eof] was set. *)
Definition pb_decode_varint32_eof : M pb_istream_t (option Z * bool) :=
  s0 ← get;
  o ← pb_readbyte;
  match o with
  | None => s ← get; mret (None, is_bytes_left s =? 0)
  | Some byte =>
    if Z.land byte 0x80 =? 0 then mret (Some byte, false)
    else
      r ← varint32_loop (S (Z.to_nat (is_bytes_left s0))) 7 (Z.land byte 0x7F);
      mret (r, false)
  end.

Definition pb_decode_varint32 : M pb_istream_t (option Z) :=
  r ← pb_decode_varint32_eof; mret r.1.

(** [bitpos] takes the values 0, 7, ..., 63 before the loop gives up. *)
Fixpoint varint64_loop (fuel : nat) (bitpos result : Z) : M pb_istream_t (option Z) :=
  match fuel with
  | O => nofuel
  | S fuel =>
    if 64 <=? bitpos then is_fail None "varint overflow"
    else
      checko? byte ← pb_readbyte;
      let result := Z.lor result (u64 (Z.shiftl (Z.land byte 0x7F) bitpos)) in
      let bitpos := u8 (bitpos + 7) in
      if negb (Z.land byte 0x80 =? 0) then varint64_loop fuel bitpos result
      else mret (Some result)
  end.

Definition pb_decode_varint : M pb_istream_t (option Z) := varint64_loop 11 0 0.

Fixpoint skip_varint_loop (fuel : nat) : M pb_istream_t bool :=
  match fuel with
  | O => nofuel
  | S fuel =>
    r ← pb_read RLocal 1;
    if r.1 : bool then
      byte ← of_option (r.2 !! 0%nat);
      if negb (Z.land byte 0x80 =? 0) then skip_varint_loop fuel else mret true
    else mret false
  end.

Definition pb_skip_varint : M pb_istream_t bool :=
  s ← get; skip_varint_loop (S (Z.to_nat (is_bytes_left s))).

Definition pb_skip_string : M pb_istream_t bool :=
  check? length ← pb_decode_varint32;
  pb_read_ok RNull length.

(** The four results of [pb_decode_tag]: the status, [*wire_type], [*tag] and
    [*eof]. *)
Record tag_result := mk_tag_result {
  tr_ok : bool; tr_wire_type : Z; tr_tag : Z; tr_eof : bool
}.

Definition pb_decode_tag : M pb_istream_t tag_result :=
  r ← pb_decode_varint32_eof;
  match r.1 with
  | None => mret (mk_tag_result false 0 0 r.2)
  | Some temp =>
    if temp =? 0 then mret (mk_tag_result false 0 0 true)
    else mret (mk_tag_result true (Z.land temp 7) (Z.shiftr temp 3) r.2)
  end.

Definition pb_skip_field (wire_type : Z) : M pb_istream_t bool :=
  if wire_type =? wt_val PB_WT_VARINT then pb_skip_varint
  else if wire_type =? wt_val PB_WT_64BIT then pb_read_ok RNull 8
  else if wire_type =? wt_val PB_WT_STRING then pb_skip_string
  else if wire_type =? wt_val PB_WT_32BIT then pb_read_ok RNull 4
  else is_return_error "invalid wire_type".

(** The [PB_WT_VARINT] case of [read_raw_value]: [room] is
    [max_size - *size] before the turn. *)
Fixpoint raw_varint_loop (room : nat) (buf size : Z) : M pb_istream_t (option Z) :=
  match room with
  | O => mret None
  | S room =>
    ok ← pb_read_ok (RMem buf) 1;
    if negb ok then mret None
    else
      byte ← load 1 buf;
      if negb (Z.land byte 0x80 =? 0) then raw_varint_loop room (buf + 1) (size + 1)
      else mret (Some (size + 1))
  end.

(** [read_raw_value], returning the final [*size] on success. *)
Definition read_raw_value (wire_type buf max_size : Z) : M pb_istream_t (option Z) :=
  if wire_type =? wt_val PB_WT_VARINT then raw_varint_loop (Z.to_nat max_size) buf 0
  else if wire_type =? wt_val PB_WT_64BIT then
    ok ← pb_read_ok (rbuf_of_ptr buf) 8; mret (if ok : bool then Some 8 else None)
  else if wire_type =? wt_val PB_WT_32BIT then
    ok ← pb_read_ok (rbuf_of_ptr buf) 4; mret (if ok : bool then Some 4 else None)
  else is_fail None "invalid wire_type".

(** The substream, or [None] on failure. *)
Definition pb_make_string_substream : M pb_istream_t (option pb_istream_t) :=
  checko? size ← pb_decode_varint32;
  s ← get;
  if is_bytes_left s <? size then is_fail None "parent stream too short"
  else
    _ ← put (is_set_bytes_left s (u64 (is_bytes_left s - size)));
    mret (Some (is_set_bytes_left s size)).

Definition pb_close_string_substream (substream : pb_istream_t) : M pb_istream_t bool :=
  r ← (if negb (is_bytes_left substream =? 0)
       then run_with substream (pb_read_ok RNull (is_bytes_left substream))
       else mret (true, substream));
  if negb r.1 then mret false
  else
    s ← get;
    _ ← put (mk_istream (is_callback s) (is_state r.2) (is_bytes_left s) (is_errmsg r.2));
    mret true.

(** ** Allocation of pointer fields *)

Definition allocate_field (pData data_size array_size : Z) : M pb_istream_t bool :=
  ptr ← load_ptr pData;
  if (data_size =? 0) || (array_size =? 0) then is_return_error "invalid size"
  else
    let check_limit := 2 ^ 32 in
    let size_max := 2 ^ 64 - 1 in
    if ((check_limit <=? data_size) || (check_limit <=? array_size))
       && (size_max / array_size <? data_size)
    then is_return_error "size too large"
    else
      ptr ← pb_realloc ptr (u64 (array_size * data_size));
      if ptr =? 0 then is_return_error "realloc failed"
      else _ ← store_ptr pData ptr; mret true.

(** ** Default values *)

(** [iter_from_extension]: a fake iterator for an extension field. *)
Definition iter_from_extension {St} (extension : Z) : M St pb_field_iter_t :=
  exttype ← load_ptr (extension + offsetof_ext_type);
  arg ← load_ptr (exttype + offsetof_exttype_arg);
  dest ← load_ptr (extension + offsetof_ext_dest);
  field ← of_option (field_at E arg 0);
  r ← of_option (pb_field_iter_begin E arg dest);
  let it := iter_set_pSize (iter_set_pData r.2 dest) (extension + offsetof_ext_found) in
  mret (if PB_ATYPE (type field) =? PB_ATYPE_POINTER
        then iter_set_pData it (extension + offsetof_ext_dest) else it).

(** The loops down a linked list of extensions, over the body run on each. *)
Fixpoint ext_list_loop {St} (n : nat) (body : Z -> M St unit) (ext : Z) : M St unit :=
  if ext =? 0 then mret tt
  else match n with
       | O => nofuel
       | S n =>
         _ ← body ext;
         next ← load_ptr (ext + offsetof_ext_next);
         ext_list_loop n body next
       end.

(** [pb_message_set_to_defaults], over the function that initialises one field. *)
Definition message_set_to_defaults {St} (set_field : pb_field_iter_t -> M St unit)
    (fields dest_struct : Z) : M St unit :=
  r ← of_option (pb_field_iter_begin E fields dest_struct);
  if negb r.1 then mret tt
  else
    _ ← iter_do_while E (iter_fuel E fields) (fun it => _ ← set_field it; mret true) r.2;
    mret tt.

Fixpoint pb_field_set_to_default {St} (fuel : nat) (it : pb_field_iter_t) : M St unit :=
  match fuel with
  | O => nofuel
  | S fuel =>
    f ← of_option (it_field E it);
    let type := type f in
    if PB_LTYPE type =? PB_LTYPE_EXTENSION then
      ext ← load_ptr (it_pData it);
      ext_list_loop fuel
        (fun ext =>
           _ ← store 1 (ext + offsetof_ext_found) 0;
           ext_iter ← iter_from_extension ext;
           pb_field_set_to_default fuel ext_iter) ext
    else if PB_ATYPE type =? PB_ATYPE_STATIC then
      init_data ←
        (if (PB_HTYPE type =? PB_HTYPE_OPTIONAL) && negb (it_pSize it =? it_pData it) then
           _ ← store 1 (it_pSize it) 0; mret true
         else if (PB_HTYPE type =? PB_HTYPE_REPEATED) || (PB_HTYPE type =? PB_HTYPE_ONEOF) then
           _ ← store sizeof_pb_size_t (it_pSize it) 0; mret false
         else mret true);
      if init_data : bool then
        if PB_LTYPE type =? PB_LTYPE_SUBMESSAGE then
          message_set_to_defaults (pb_field_set_to_default fuel) (ptr f) (it_pData it)
        else if negb (ptr f =? 0) then
          memcpy (it_pData it) (ptr f) (Z.to_nat (data_size f))
        else memset (it_pData it) 0 (Z.to_nat (data_size f))
      else mret tt
    else if PB_ATYPE type =? PB_ATYPE_POINTER then
      _ ← store_ptr (it_pData it) 0;
      if (PB_HTYPE type =? PB_HTYPE_REPEATED) || (PB_HTYPE type =? PB_HTYPE_ONEOF)
      then store sizeof_pb_size_t (it_pSize it) 0
      else mret tt
    else mret tt (* PB_ATYPE_CALLBACK: don't overwrite callback *)
  end.

Definition pb_message_set_to_defaults {St} (fuel : nat) (fields dest_struct : Z) : M St unit :=
  message_set_to_defaults (pb_field_set_to_default fuel) fields dest_struct.

(** [initialize_pointer_field], for the field the iterator is at. *)
Definition initialize_pointer_field {St} (fuel : nat) (pItem : Z) (f : pb_field_t)
    : M St unit :=
  if (PB_LTYPE (type f) =? PB_LTYPE_STRING) || (PB_LTYPE (type f) =? PB_LTYPE_BYTES)
  then store_ptr pItem 0
  else if PB_LTYPE (type f) =? PB_LTYPE_SUBMESSAGE then
    _ ← memset pItem 0 (Z.to_nat (data_size f));
    pb_message_set_to_defaults fuel (ptr f) pItem
  else mret tt.

(** ** Releasing *)

(** [for (; count > 0; count--) { body(pItem); pItem += step; }] *)
Fixpoint release_loop {St} (count : nat) (body : Z -> M St unit) (pItem step : Z)
    : M St unit :=
  match count with
  | O => mret tt
  | S count => _ ← body pItem; release_loop count body (pItem + step) step
  end.

(** [pb_release], over the function that releases one field. *)
Definition message_release {St} (release_field : pb_field_iter_t -> M St unit)
    (fields dest_struct : Z) : M St unit :=
  if dest_struct =? 0 then mret tt
  else
    r ← of_option (pb_field_iter_begin E fields dest_struct);
    if negb r.1 then mret tt
    else
      _ ← iter_do_while E (iter_fuel E fields)
            (fun it => _ ← release_field it; mret true) r.2;
      mret tt.

(** The last part of [pb_release_single_field]: a pointer field's own storage. *)
Definition release_pointer {St} (f : pb_field_t) (it : pb_field_iter_t) : M St unit :=
  if PB_ATYPE (type f) =? PB_ATYPE_POINTER then
    _ ← (if (PB_HTYPE (type f) =? PB_HTYPE_REPEATED)
            && ((PB_LTYPE (type f) =? PB_LTYPE_STRING) || (PB_LTYPE (type f) =? PB_LTYPE_BYTES))
         then
           pItem ← load_ptr (it_pData it);
           count ← load sizeof_pb_size_t (it_pSize it);
           release_loop (Z.to_nat count)
             (fun p => q ← load_ptr p; _ ← pb_free q; store_ptr p 0) pItem sizeof_ptr
         else mret tt);
    _ ← (if PB_HTYPE (type f) =? PB_HTYPE_REPEATED
         then store sizeof_pb_size_t (it_pSize it) 0 else mret tt);
    q ← load_ptr (it_pData it);
    _ ← pb_free q;
    store_ptr (it_pData it) 0
  else mret tt.

(** The number of submessages a field holds. *)
Definition release_count {St} (f : pb_field_t) (it : pb_field_iter_t) : M St Z :=
  if PB_HTYPE (type f) =? PB_HTYPE_REPEATED then
    count ← (if (PB_ATYPE (type f) =? PB_ATYPE_STATIC) && (it_pSize it =? it_pData it)
             then mret (array_size f)
             else load sizeof_pb_size_t (it_pSize it));
    mret (if (PB_ATYPE (type f) =? PB_ATYPE_STATIC) && (array_size f <? count)
          then array_size f else count)
  else mret 1.

Fixpoint pb_release_single_field {St} (fuel : nat) (it : pb_field_iter_t) : M St unit :=
  match fuel with
  | O => nofuel
  | S fuel =>
    f ← of_option (it_field E it);
    let type := type f in
    current ← (if PB_HTYPE type =? PB_HTYPE_ONEOF then
                 which ← load sizeof_pb_size_t (it_pSize it); mret (which =? tag f)
               else mret true);
    if negb current then mret tt
    else
      _ ← (if PB_LTYPE type =? PB_LTYPE_EXTENSION then
             ext ← load_ptr (it_pData it);
             ext_list_loop fuel
               (fun ext => ext_iter ← iter_from_extension ext;
                           pb_release_single_field fuel ext_iter) ext
           else if (PB_LTYPE type =? PB_LTYPE_SUBMESSAGE)
                   && negb (PB_ATYPE type =? PB_ATYPE_CALLBACK) then
             pItem ← (if PB_ATYPE type =? PB_ATYPE_POINTER
                      then load_ptr (it_pData it) else mret (it_pData it));
             count ← release_count f it;
             if negb (pItem =? 0) then
               release_loop (Z.to_nat count)
                 (message_release (pb_release_single_field fuel) (ptr f)) pItem (data_size f)
             else mret tt
           else mret tt);
      release_pointer f it
  end.

Definition pb_release {St} (fuel : nat) (fields dest_struct : Z) : M St unit :=
  message_release (pb_release_single_field fuel) fields dest_struct.

(** [pb_release_union_field]: the status and the iterator it leaves. *)
Definition pb_release_union_field (fuel : nat) (it : pb_field_iter_t)
    : M pb_istream_t (bool * pb_field_iter_t) :=
  f ← of_option (it_field E it);
  old_tag ← load sizeof_pb_size_t (it_pSize it);
  let new_tag := tag f in
  if old_tag =? 0 then mret (true, it)
  else if old_tag =? new_tag then mret (true, it)
  else
    r1 ← of_option (pb_field_iter_find E it old_tag);
    if negb r1.1 then is_fail (false, r1.2) "invalid union tag"
    else
      _ ← pb_release_single_field fuel r1.2;
      r2 ← of_option (pb_field_iter_find E r1.2 new_tag);
      if negb r2.1 then is_fail (false, r2.2) "iterator error"
      else
        f2 ← of_option (it_field E r2.2);
        _ ← (if PB_ATYPE (type f2) =? PB_ATYPE_POINTER
             then store_ptr (it_pData r2.2) 0 else mret tt);
        mret (true, r2.2).

(** ** Field decoders *)

Definition pb_decoder_t : Type := pb_field_t -> Z -> M pb_istream_t bool.

(** The value left in [*dest], a signed 64-bit integer. *)
Definition pb_decode_svarint : M pb_istream_t (option Z) :=
  checko? value ← pb_decode_varint;
  mret (Some (if negb (Z.land value 1 =? 0)
              then s64 (Z.lnot (Z.shiftr value 1))
              else s64 (Z.shiftr value 1))).

Definition pb_decode_fixed32 (dest : Z) : M pb_istream_t bool :=
  r ← pb_read RLocal 4;
  if negb r.1 then mret false
  else
    match r.2 with
    | [b0; b1; b2; b3] =>
      _ ← store 4 dest
            (Z.lor (Z.lor (Z.lor b0 (Z.shiftl b1 8)) (Z.shiftl b2 16)) (Z.shiftl b3 24));
      mret true
    | _ => undef
    end.

Definition pb_decode_fixed64 (dest : Z) : M pb_istream_t bool :=
  r ← pb_read RLocal 8;
  if negb r.1 then mret false
  else
    match r.2 with
    | [b0; b1; b2; b3; b4; b5; b6; b7] =>
      _ ← store 8 dest
            (Z.lor (Z.lor (Z.lor (Z.lor (Z.lor (Z.lor (Z.lor b0 (Z.shiftl b1 8))
               (Z.shiftl b2 16)) (Z.shiftl b3 24)) (Z.shiftl b4 32)) (Z.shiftl b5 40))
               (Z.shiftl b6 48)) (Z.shiftl b7 56));
      mret true
    | _ => undef
    end.

Definition pb_dec_bool : pb_decoder_t := fun _ dest =>
  check? value ← pb_decode_varint32;
  _ ← store 1 dest (if negb (value =? 0) then 1 else 0);
  mret true.

(** [pb_decode_bool]: [pb_dec_bool] without a field. *)
Definition pb_decode_bool (dest : Z) : M pb_istream_t bool :=
  pb_dec_bool (mk_field 0 0 0 0 0 0 0) dest.

(** Store [v] into the [data_size]-byte integer at [dest]; [clamp] reads the
    stored value back. [None]: no integer has this size. *)
Definition store_clamped {St} (clamp : Z -> Z -> Z) (data_size dest v : Z)
    : M St (option Z) :=
  if data_size =? 8 then _ ← store 8 dest v; mret (Some (clamp 64 v))
  else if data_size =? 4 then _ ← store 4 dest v; mret (Some (clamp 32 v))
  else if data_size =? 2 then _ ← store 2 dest v; mret (Some (clamp 16 v))
  else if data_size =? 1 then _ ← store 1 dest v; mret (Some (clamp 8 v))
  else mret None.

Definition clamp_unsigned (w v : Z) : Z := v mod 2 ^ w.

Definition check_clamped (clamped : option Z) (value : Z) : M pb_istream_t bool :=
  match clamped with
  | None => is_return_error "invalid data_size"
  | Some c => if negb (c =? value) then is_return_error "integer too large" else mret true
  end.

Definition pb_dec_varint : pb_decoder_t := fun field dest =>
  check? value ← pb_decode_varint;
  let svalue := if data_size field =? 8 then s64 value else s32 value in
  clamped ← store_clamped to_signed (data_size field) dest svalue;
  check_clamped clamped svalue.

Definition pb_dec_uvarint : pb_decoder_t := fun field dest =>
  check? value ← pb_decode_varint;
  clamped ← store_clamped clamp_unsigned (data_size field) dest value;
  check_clamped clamped value.

Definition pb_dec_svarint : pb_decoder_t := fun field dest =>
  check? value ← pb_decode_svarint;
  clamped ← store_clamped to_signed (data_size field) dest value;
  check_clamped clamped value.

Definition pb_dec_fixed32 : pb_decoder_t := fun _ dest => pb_decode_fixed32 dest.
Definition pb_dec_fixed64 : pb_decoder_t := fun _ dest => pb_decode_fixed64 dest.

Definition pb_dec_bytes : pb_decoder_t := fun field dest =>
  check? size ← pb_decode_varint32;
  if PB_SIZE_MAX <? size then is_return_error "bytes overflow"
  else
    let alloc_size := PB_BYTES_ARRAY_T_ALLOCSIZE size in
    if alloc_size <? size then is_return_error "size too large"
    else
      bdest ←
        (if PB_ATYPE (type field) =? PB_ATYPE_POINTER then
           s ← get;
           if is_bytes_left s <? size then is_fail None "end-of-stream"
           else
             checko! allocate_field dest alloc_size 1;
             p ← load_ptr dest; mret (Some p)
         else if data_size field <? alloc_size then is_fail None "bytes overflow"
         else mret (Some dest));
      match bdest with
      | None => mret false
      | Some bdest =>
        _ ← store sizeof_pb_size_t bdest size;
        pb_read_ok (rbuf_of_ptr (bdest + offsetof_bytes)) size
      end.

Definition pb_dec_string : pb_decoder_t := fun field dest =>
  check? size ← pb_decode_varint32;
  let alloc_size := u32 (size + 1) in
  if alloc_size <? size then is_return_error "size too large"
  else
    dest' ←
      (if PB_ATYPE (type field) =? PB_ATYPE_POINTER then
         s ← get;
         if is_bytes_left s <? size then is_fail None "end-of-stream"
         else
           checko! allocate_field dest alloc_size 1;
           p ← load_ptr dest; mret (Some p)
       else if data_size field <? alloc_size then is_fail None "string overflow"
       else mret (Some dest));
    match dest' with
    | None => mret false
    | Some dest =>
      status ← pb_read_ok (rbuf_of_ptr dest) size;
      _ ← store 1 (dest + size) 0;
      mret status
    end.

Definition pb_dec_fixed_length_bytes : pb_decoder_t := fun field dest =>
  check? size ← pb_decode_varint32;
  if PB_SIZE_MAX <? size then is_return_error "bytes overflow"
  else if size =? 0 then
    _ ← memset dest 0 (Z.to_nat (data_size field)); mret true
  else if negb (size =? data_size field)
  then is_return_error "incorrect fixed length bytes size"
  else pb_read_ok (rbuf_of_ptr dest) (data_size field).

Definition call_decoder (func : option pb_decoder_t) : pb_decoder_t := fun field dest =>
  match func with Some f => f field dest | None => undef end.

Section Rec.
(** The fuel, and [pb_decode_noinit] for the messages nested in this one. *)
Context (fuel : nat) (rec_noinit : Z -> Z -> M pb_istream_t bool).

(** [pb_decode], over [pb_decode_noinit]. *)
Definition pb_decode_with (fields dest_struct : Z) : M pb_istream_t bool :=
  _ ← pb_message_set_to_defaults fuel fields dest_struct;
  status ← rec_noinit fields dest_struct;
  _ ← (if negb status then pb_release fuel fields dest_struct else mret tt);
  mret status.

Definition pb_dec_submessage : pb_decoder_t := fun field dest =>
  check? substream ← pb_make_string_substream;
  if ptr field =? 0 then is_return_error "invalid field descriptor"
  else
    r ← run_with substream
          (if PB_HTYPE (type field) =? PB_HTYPE_REPEATED
           then pb_decode_with (ptr field) dest
           else rec_noinit (ptr field) dest);
    check! pb_close_string_substream r.2;
    mret r.1.

Definition PB_DECODERS : list (option pb_decoder_t) :=
  [ Some pb_dec_bool; Some pb_dec_varint; Some pb_dec_uvarint; Some pb_dec_svarint;
    Some pb_dec_fixed32; Some pb_dec_fixed64; Some pb_dec_bytes; Some pb_dec_string;
    Some pb_dec_submessage; None; Some pb_dec_fixed_length_bytes ].

(** ** Decode a single field *)

(** The loop over a packed array in a static field; every entry takes at least
    one byte of the substream. *)
Fixpoint packed_static_loop (n : nat) (func : option pb_decoder_t) (f : pb_field_t)
    (it : pb_field_iter_t) : M pb_istream_t bool :=
  substream ← get;
  size ← load sizeof_pb_size_t (it_pSize it);
  if (0 <? is_bytes_left substream) && (size <? array_size f) then
    match n with
    | O => nofuel
    | S n =>
      check! call_decoder func f (it_pData it + u32 (data_size f * size));
      size ← load sizeof_pb_size_t (it_pSize it);
      _ ← store sizeof_pb_size_t (it_pSize it) (u32 (size + 1));
      packed_static_loop n func f it
    end
  else mret true.

Definition decode_static_field (wire_type : Z) (it : pb_field_iter_t)
    : M pb_istream_t bool :=
  f ← of_option (it_field E it);
  let type := type f in
  func ← of_option (PB_DECODERS !! Z.to_nat (PB_LTYPE type));
  let htype := PB_HTYPE type in
  if htype =? PB_HTYPE_REQUIRED then call_decoder func f (it_pData it)
  else if htype =? PB_HTYPE_OPTIONAL then
    _ ← (if negb (it_pSize it =? it_pData it) then store 1 (it_pSize it) 1 else mret tt);
    call_decoder func f (it_pData it)
  else if htype =? PB_HTYPE_REPEATED then
    if (wire_type =? wt_val PB_WT_STRING) && (PB_LTYPE type <=? PB_LTYPE_LAST_PACKABLE) then
      check? substream ← pb_make_string_substream;
      r ← run_with substream
            (packed_static_loop (Z.to_nat (is_bytes_left substream)) func f it);
      if negb (is_bytes_left r.2 =? 0) then is_return_error "array overflow"
      else
        check! pb_close_string_substream r.2;
        mret r.1
    else
      size ← load sizeof_pb_size_t (it_pSize it);
      let pItem := it_pData it + u32 (data_size f * size) in
      _ ← store sizeof_pb_size_t (it_pSize it) (u32 (size + 1));
      if array_size f <=? size then is_return_error "array overflow"
      else call_decoder func f pItem
  else if htype =? PB_HTYPE_ONEOF then
    which ← (if PB_LTYPE type =? PB_LTYPE_SUBMESSAGE
             then load sizeof_pb_size_t (it_pSize it) else mret (tag f));
    _ ← (if negb (which =? tag f) then
           _ ← memset (it_pData it) 0 (Z.to_nat (data_size f));
           pb_message_set_to_defaults fuel (ptr f) (it_pData it)
         else mret tt);
    _ ← store sizeof_pb_size_t (it_pSize it) (tag f);
    call_decoder func f (it_pData it)
  else is_return_error "invalid field type".

(** The loop over a packed array in a pointer field. The result is the
    status, and whether the array had [PB_SIZE_MAX] entries. *)
Fixpoint packed_pointer_loop (n : nat) (func : option pb_decoder_t) (f : pb_field_t)
    (it : pb_field_iter_t) (allocated_size : Z) : M pb_istream_t (bool * bool) :=
  substream ← get;
  if is_bytes_left substream =? 0 then mret (true, false)
  else
    size ← load sizeof_pb_size_t (it_pSize it);
    if size =? PB_SIZE_MAX then mret (false, true)
    else
      alloc ←
        (if allocated_size <? size + 1 then
           if data_size f =? 0 then undef (* division by zero *)
           else
             let remain := (is_bytes_left substream - 1) / data_size f + 1 in
             let allocated_size :=
               u64 (allocated_size
                    + (if remain <? u64 (PB_SIZE_MAX - allocated_size) then remain else 1)) in
             ok ← allocate_field (it_pData it) (data_size f) allocated_size;
             mret (ok, allocated_size)
         else mret (true, allocated_size));
      if negb alloc.1 then mret (false, false)
      else
        base ← load_ptr (it_pData it);
        let pItem := base + u32 (data_size f * size) in
        if pItem =? 0 then mret (false, false)
        else
          _ ← initialize_pointer_field fuel pItem f;
          ok ← call_decoder func f pItem;
          if negb ok then mret (false, false)
          else
            size ← load sizeof_pb_size_t (it_pSize it);
            _ ← store sizeof_pb_size_t (it_pSize it) (u32 (size + 1));
            match n with
            | O => nofuel
            | S n => packed_pointer_loop n func f it alloc.2
            end.

Definition decode_pointer_field (wire_type : Z) (it : pb_field_iter_t)
    : M pb_istream_t bool :=
  f ← of_option (it_field E it);
  let type := type f in
  func ← of_option (PB_DECODERS !! Z.to_nat (PB_LTYPE type));
  let htype := PB_HTYPE type in
  if (htype =? PB_HTYPE_REQUIRED) || (htype =? PB_HTYPE_OPTIONAL)
     || (htype =? PB_HTYPE_ONEOF) then
    old ← (if PB_LTYPE type =? PB_LTYPE_SUBMESSAGE
           then load_ptr (it_pData it) else mret 0);
    (* Duplicate field, have to release the old allocation first. *)
    _ ← (if negb (old =? 0) then pb_release_single_field fuel it else mret tt);
    _ ← (if htype =? PB_HTYPE_ONEOF
         then store sizeof_pb_size_t (it_pSize it) (tag f) else mret tt);
    if (PB_LTYPE type =? PB_LTYPE_STRING) || (PB_LTYPE type =? PB_LTYPE_BYTES)
    then call_decoder func f (it_pData it)
    else
      check! allocate_field (it_pData it) (data_size f) 1;
      p ← load_ptr (it_pData it);
      _ ← initialize_pointer_field fuel p f;
      p ← load_ptr (it_pData it);
      call_decoder func f p
  else if htype =? PB_HTYPE_REPEATED then
    if (wire_type =? wt_val PB_WT_STRING) && (PB_LTYPE type <=? PB_LTYPE_LAST_PACKABLE) then
      allocated_size ← load sizeof_pb_size_t (it_pSize it);
      check? substream ← pb_make_string_substream;
      r ← run_with substream
            (packed_pointer_loop (Z.to_nat (is_bytes_left substream)) func f it
               allocated_size);
      _ ← (if r.1.2 : bool then
             s ← get;
             put (mk_istream (is_callback s) (is_state s) (is_bytes_left s)
                    (Some "too many array entries"))
           else mret tt);
      check! pb_close_string_substream r.2;
      mret r.1.1
    else
      size ← load sizeof_pb_size_t (it_pSize it);
      if size =? PB_SIZE_MAX then is_return_error "too many array entries"
      else
        check! allocate_field (it_pData it) (data_size f) (u32 (size + 1));
        base ← load_ptr (it_pData it);
        let pItem := base + u32 (data_size f * size) in
        _ ← store sizeof_pb_size_t (it_pSize it) (u32 (size + 1));
        _ ← initialize_pointer_field fuel pItem f;
        call_decoder func f pItem
  else is_return_error "invalid field type".

(** [do { decode } while (substream.bytes_left)]: an application callback may
    be called many times without consuming anything, so the fuel is the
    caller's. *)
Fixpoint callback_loop (n : nat) (fn : Z) (f : pb_field_t) (arg : Z)
    : M pb_istream_t bool :=
  match n with
  | O => nofuel
  | S n =>
    check! env_field_decode E fn f arg;
    s ← get;
    if negb (is_bytes_left s =? 0) then callback_loop n fn f arg else mret true
  end.

Definition decode_callback_field (wire_type : Z) (it : pb_field_iter_t)
    : M pb_istream_t bool :=
  f ← of_option (it_field E it);
  let pCallback := it_pData it in
  fn ← (if pCallback =? 0 then mret 0 else load_ptr (pCallback + offsetof_cb_funcs));
  if fn =? 0 then pb_skip_field wire_type
  else
    let arg := pCallback + offsetof_cb_arg in
    if wire_type =? wt_val PB_WT_STRING then
      check? substream ← pb_make_string_substream;
      r ← run_with substream (callback_loop fuel fn f arg);
      if negb r.1 then is_return_error "callback failed"
      else
        check! pb_close_string_substream r.2;
        mret true
    else
      buffer ← stack_alloc 10;
      size ← read_raw_value wire_type buffer 10;
      ok ← (match size with
            | None => mret false
            | Some size =>
              r ← run_with (pb_istream_from_buffer buffer size)
                    (env_field_decode E fn f arg);
              mret r.1
            end);
      _ ← stack_free buffer 10;
      mret ok.

(** [decode_field]: the status and the iterator it leaves. *)
Definition decode_field (wire_type : Z) (it : pb_field_iter_t)
    : M pb_istream_t (bool * pb_field_iter_t) :=
  f ← of_option (it_field E it);
  u ← (if PB_HTYPE (type f) =? PB_HTYPE_ONEOF
       then pb_release_union_field fuel it else mret (true, it));
  if negb u.1 then mret (false, u.2)
  else
    let it := u.2 in
    f ← of_option (it_field E it);
    let atype := PB_ATYPE (type f) in
    ok ← (if atype =? PB_ATYPE_STATIC then decode_static_field wire_type it
          else if atype =? PB_ATYPE_POINTER then decode_pointer_field wire_type it
          else if atype =? PB_ATYPE_CALLBACK then decode_callback_field wire_type it
          else is_return_error "invalid field type");
    mret (ok, it).

(** ** Extensions *)

Definition default_extension_decoder (extension tag0 wire_type : Z)
    : M pb_istream_t bool :=
  exttype ← load_ptr (extension + offsetof_ext_type);
  arg ← load_ptr (exttype + offsetof_exttype_arg);
  field ← of_option (field_at E arg 0);
  if negb (tag field =? tag0) then mret true
  else
    it ← iter_from_extension extension;
    _ ← store 1 (extension + offsetof_ext_found) 1;
    r ← decode_field wire_type it;
    mret r.1.

(** [while (extension != NULL && pos == stream->bytes_left)] *)
Fixpoint decode_extension_loop (n : nat) (pos extension tag0 wire_type : Z)
    : M pb_istream_t bool :=
  s ← get;
  if negb (extension =? 0) && (pos =? is_bytes_left s) then
    match n with
    | O => nofuel
    | S n =>
      exttype ← load_ptr (extension + offsetof_ext_type);
      decode ← load_ptr (exttype + offsetof_exttype_decode);
      check! (if negb (decode =? 0)
              then env_ext_decode E decode extension tag0 wire_type
              else default_extension_decoder extension tag0 wire_type);
      next ← load_ptr (extension + offsetof_ext_next);
      decode_extension_loop n pos next tag0 wire_type
    end
  else mret true.

Definition decode_extension (tag0 wire_type : Z) (it : pb_field_iter_t)
    : M pb_istream_t bool :=
  extension ← load_ptr (it_pData it);
  s ← get;
  decode_extension_loop fuel (is_bytes_left s) extension tag0 wire_type.

Definition find_extension_field (it : pb_field_iter_t) : option (bool * pb_field_iter_t) :=
  iter_search E (iter_fuel E (it_start it))
    (fun f => PB_LTYPE (type f) =? PB_LTYPE_EXTENSION) (it_pos it) it.

(** ** Decode all fields *)

(** The local variables of [pb_decode_noinit] that its loop updates.
    [ls_fixed_count_field] is the position of the entry in the array. *)
Record loop_state := mk_loop_state {
  ls_iter : pb_field_iter_t;
  ls_fields_seen : list Z;
  ls_extension_range_start : Z;
  ls_fixed_count_field : option nat;
}.


(** [fixed_count_field != NULL && fixed_count_size != its array_size] *)
Definition fixed_count_incomplete {St} (start : Z) (fixed : option nat)
    (fixed_count_size : Z) : M St bool :=
  match fixed with
  | None => mret false
  | Some pos =>
    f ← of_option (field_at E start pos);
    n ← load sizeof_pb_size_t fixed_count_size;
    mret (negb (n =? array_size f))
  end.

(** A tag no field of the message has: try the extensions, else skip it.
    [None] is [return false]. *)
Definition decode_unknown (tag0 wire_type : Z) (it : pb_field_iter_t) (st : loop_state)
    : M pb_istream_t (option loop_state) :=
  r ← (if ls_extension_range_start st <=? tag0 then
         x ← of_option (find_extension_field it);
         range_start ← (if negb x.1 then mret (2 ^ 32 - 1)
                        else f ← of_option (it_field E x.2); mret (tag f));
         let st := mk_loop_state x.2 (ls_fields_seen st) range_start
                     (ls_fixed_count_field st) in
         if range_start <=? tag0 then
           s ← get;
           ok ← decode_extension tag0 wire_type x.2;
           s' ← get;
           mret (ok, negb (is_bytes_left s =? is_bytes_left s'), st)
         else mret (true, false, st)
       else mret (true, false, mk_loop_state it (ls_fields_seen st)
                                 (ls_extension_range_start st) (ls_fixed_count_field st)));
  let '(ok, handled, st) := r in
  if negb ok then mret None
  else if handled : bool then mret (Some st)
  else
    checko! pb_skip_field wire_type;
    mret (Some st).

(** A field of the message. *)
Definition decode_known (wire_type : Z) (fixed_count_size : Z)
    (it : pb_field_iter_t) (st : loop_state) : M pb_istream_t (option loop_state) :=
  f ← of_option (it_field E it);
  fixed ←
    (if (PB_HTYPE (type f) =? PB_HTYPE_REPEATED) && (it_pSize it =? it_pData it) then
       if negb (bool_decide (ls_fixed_count_field st = Some (it_pos it))) then
         bad ← fixed_count_incomplete (it_start it) (ls_fixed_count_field st)
                 fixed_count_size;
         if bad : bool then is_fail None "wrong size for fixed count field"
         else
           _ ← store sizeof_pb_size_t fixed_count_size 0;
           mret (Some (Some (it_pos it), iter_set_pSize it fixed_count_size))
       else mret (Some (ls_fixed_count_field st, iter_set_pSize it fixed_count_size))
     else mret (Some (ls_fixed_count_field st, it)));
  match fixed with
  | None => mret None
  | Some (fixed_count_field, it) =>
    let i := it_required_field_index it in
    let fields_seen :=
      if (PB_HTYPE (type f) =? PB_HTYPE_REQUIRED) && (i <? PB_MAX_REQUIRED_FIELDS)
      then alter (fun w => Z.lor w (Z.shiftl 1 (Z.land i 31)))
             (Z.to_nat (Z.shiftr i 5)) (ls_fields_seen st)
      else ls_fields_seen st in
    r ← decode_field wire_type it;
    if r.1 : bool
    then mret (Some (mk_loop_state r.2 fields_seen (ls_extension_range_start st)
                       fixed_count_field))
    else mret None
  end.

(** The [while (stream->bytes_left)] loop of [pb_decode_noinit]; every turn
    reads at least the byte of a tag. [None] is [return false]. *)
Fixpoint decode_loop (n : nat) (fixed_count_size : Z) (st : loop_state)
    : M pb_istream_t (option loop_state) :=
  s ← get;
  if is_bytes_left s =? 0 then mret (Some st)
  else match n with
  | O => nofuel
  | S n =>
    t ← pb_decode_tag;
    if negb (tr_ok t) then (if tr_eof t then mret (Some st) else mret None)
    else
      r ← of_option (pb_field_iter_find E (ls_iter st) (tr_tag t));
      o ← (if negb r.1 then decode_unknown (tr_tag t) (tr_wire_type t) r.2 st
           else decode_known (tr_wire_type t) fixed_count_size r.2 st);
      match o with
      | None => mret None
      | Some st => decode_loop n fixed_count_size st
      end
  end.

(** The [do ... while (pb_field_iter_next(&iter))] loop that seeks to the end
    of the array: the required fields counted, the last type, the iterator. *)
Fixpoint seek_last (n : nat) (it : pb_field_iter_t) : option (Z * Z * pb_field_iter_t) :=
  match n with
  | O => None
  | S n =>
    f ← it_field E it;
    r ← pb_field_iter_next E it;
    if r.1 : bool then seek_last n r.2
    else Some (it_required_field_index it, type f, r.2)
  end.

(** The words of [fields_seen] against the number of required fields. *)
Definition required_missing (req_field_count : Z) (fields_seen : list Z) : bool :=
  let allbits := 2 ^ 32 - 1 in
  (0 <? req_field_count)
  && (existsb (fun w => negb (w =? allbits))
        (take (Z.to_nat (Z.shiftr req_field_count 5)) fields_seen)
      || (negb (Z.land req_field_count 31 =? 0)
          && negb (nth (Z.to_nat (Z.shiftr req_field_count 5)) fields_seen 0
                   =? Z.shiftr allbits (32 - Z.land req_field_count 31)))).

(** The checks after the loop of [pb_decode_noinit]. *)
Definition decode_finish (fixed_count_size : Z) (st : loop_state)
    : M pb_istream_t bool :=
  bad ← fixed_count_incomplete (it_start (ls_iter st)) (ls_fixed_count_field st)
          fixed_count_size;
  if bad : bool then is_return_error "wrong size for fixed count field"
  else
    e ← of_option (seek_last (iter_fuel E (it_start (ls_iter st))) (ls_iter st));
    let '(count, last_type, it) := e in
    f ← of_option (it_field E it);
    let count := if (PB_HTYPE last_type =? PB_HTYPE_REQUIRED) && negb (tag f =? 0)
                 then u32 (count + 1) else count in
    let count := if PB_MAX_REQUIRED_FIELDS <? count then PB_MAX_REQUIRED_FIELDS
                 else count in
    if required_missing count (ls_fields_seen st)
    then is_return_error "missing required field"
    else mret true.

Definition decode_noinit_body (fields dest_struct : Z) : M pb_istream_t bool :=
  fixed_count_size ← stack_alloc 4;
  _ ← store sizeof_pb_size_t fixed_count_size 0;
  r ← of_option (pb_field_iter_begin E fields dest_struct);
  s ← get;
  o ← decode_loop (Z.to_nat (is_bytes_left s)) fixed_count_size
        (mk_loop_state r.2 [0; 0] 0 None);
  ok ← (match o with
        | None => mret false
        | Some st => decode_finish fixed_count_size st
        end);
  _ ← stack_free fixed_count_size 4;
  mret ok.
End Rec.

Fixpoint pb_decode_noinit (fuel : nat) (fields dest_struct : Z) : M pb_istream_t bool :=
  match fuel with
  | O => nofuel
  | S fuel => decode_noinit_body fuel (pb_decode_noinit fuel) fields dest_struct
  end.

Definition pb_decode (fuel : nat) (fields dest_struct : Z) : M pb_istream_t bool :=
  pb_decode_with fuel (pb_decode_noinit fuel) fields dest_struct.

Definition pb_decode_delimited_noinit (fuel : nat) (fields dest_struct : Z)
    : M pb_istream_t bool :=
  check? substream ← pb_make_string_substream;
  r ← run_with substream (pb_decode_noinit fuel fields dest_struct);
  check! pb_close_string_substream r.2;
  mret r.1.

Definition pb_decode_delimited (fuel : nat) (fields dest_struct : Z)
    : M pb_istream_t bool :=
  check? substream ← pb_make_string_substream;
  r ← run_with substream (pb_decode fuel fields dest_struct);
  check! pb_close_string_substream r.2;
  mret r.1.

Definition pb_decode_nullterminated (fuel : nat) (fields dest_struct : Z)
    : M pb_istream_t bool :=
  pb_decode fuel fields dest_struct.
End Decode.
