(* ===== verification/PbExample.v ===== *)
(** * nanopb: a concrete message

    The descriptors, the memory and the callbacks the examples of this library
    are evaluated on: a message with a required [fixed32] (tag 1), an optional
    [sint32] with its [has_] flag (tag 2), a packed array of at most three
    [uint32] (tag 3), a [string] of at most seven characters (tag 4), and a
    message with a required [fixed32] and a string left to a callback. *)
From S2P Require Export PbDecode.

(** An environment without application code: calling an unregistered function
    pointer is undefined behaviour. *)
Definition no_callbacks (fields : gmap Z (list pb_field_t)) : pb_env :=
  mk_env fields (fun _ _ _ => undef) (fun _ _ _ => undef) (fun _ _ _ => undef)
    (fun _ _ _ => undef) (fun _ _ => undef) (fun _ _ _ _ => undef).

Definition end_field : pb_field_t := mk_field 0 0 0 0 0 0 0.

Definition point_fields : list pb_field_t :=
  [ mk_field 1 (PB_HTYPE_REQUIRED + PB_LTYPE_FIXED32) 0 0 4 0 0;
    mk_field 2 (PB_HTYPE_OPTIONAL + PB_LTYPE_SVARINT) 4 (-4) 4 0 0;
    mk_field 3 (PB_HTYPE_REPEATED + PB_LTYPE_UVARINT) 4 (-4) 4 3 0;
    mk_field 4 (PB_HTYPE_REQUIRED + PB_LTYPE_STRING) 0 0 8 0 0;
    end_field ].

Definition note_fields : list pb_field_t :=
  [ mk_field 1 (PB_HTYPE_REQUIRED + PB_LTYPE_FIXED32) 0 0 4 0 0;
    mk_field 2 (PB_HTYPE_OPTIONAL + PB_ATYPE_CALLBACK + PB_LTYPE_STRING) 4 0 16 0 0;
    end_field ].

Definition point_desc : Z := 1000.
Definition note_desc : Z := 2000.

Definition bare_env : pb_env :=
  no_callbacks {[ point_desc := point_fields; note_desc := note_fields ]}.

(** The one registered field callback writes the string [a]; the stream
    callback reads nothing. *)
Definition ex_env : pb_env :=
  mk_env (env_fields bare_env) (env_stream_write bare_env) (env_stream_read bare_env)
    (fun _ _ _ => pb_write bare_env (Local [18; 1; 97]) 3)
    (env_field_decode bare_env) (fun _ _ => mret true) (env_ext_decode bare_env).

(** The message structure at 100, an output buffer at 200, a structure to decode
    into at 300. *)
Definition ex_src : Z := 100.
Definition ex_buf : Z := 200.
Definition ex_dest : Z := 300.
Definition ex_blank : cstate :=
  CState (map_range (map_range (map_range ∅ ex_src 64 0) ex_buf 64 0) ex_dest 64 7) ∅ 4096 [] 0.

Definition fill_point : M unit unit :=
  _ ← store 4 ex_src 300; _ ← store 1 (ex_src + 4) 1; _ ← store 4 (ex_src + 8) (-5);
  _ ← store 4 (ex_src + 12) 2; _ ← store 4 (ex_src + 16) 7; _ ← store 4 (ex_src + 20) 70000;
  write_mem (ex_src + 28) [104; 105; 0].

(** The machine an outcome leaves. *)
Definition state_of {St A} (o : outcome (A * St * cstate)) (d : cstate) : cstate :=
  match o with Ret (_, _, c) => c | _ => d end.

Definition ex_mem : cstate := state_of (fill_point tt ex_blank) ex_blank.

Lemma ex_mem_bytes : map_Forall (fun _ b => is_byte b) (heap ex_mem).
Proof. apply (bool_decide_unpack _). by vm_compute. Qed.
