(* ===== verification/PbIter.v ===== *)
(** * nanopb: the field iterator visits every field

    A descriptor array is a run of entries closed by one whose tag is 0. The
    iterator's data pointer, size pointer and count of required fields are
    functions of its position alone ([iter_at]), whatever path it took there;
    the search of [pb_field_iter_find] and of the decoder's
    [find_extension_field] goes once round the array from where the iterator
    stands and stops at the first entry that fits. *)
From S2P Require Export PbExample.

(** ** Descriptor arrays *)

(** The entries before the terminator, which the array ends with. *)
Fixpoint terminated (fs : list pb_field_t) : bool :=
  match fs with
  | [] => false
  | [e] => tag e =? 0
  | f :: fs => negb (tag f =? 0) && terminated fs
  end.

Lemma terminated_inv fs :
  terminated fs = true ->
  exists l e, fs = l ++ [e] /\ tag e = 0 /\ Forall (fun f => tag f <> 0) l.
Proof.
  induction fs as [|f fs IH]; [done|]. destruct fs as [|g fs].
  - cbn [terminated]. intros H%Z.eqb_eq. by exists [], f.
  - intros [Hf H]%andb_true_iff. destruct (IH H) as (l & e & -> & He & Hl).
    exists (f :: l), e. split_and!; [done..|]. constructor; [|done].
    by destruct (Z.eqb_spec (tag f) 0).
Qed.

(** ** The layout of a message structure *)

Section Layout.
Context (fs : list pb_field_t).

Definition nth_field (i : nat) : pb_field_t := nth i fs (mk_field 0 0 0 0 0 0 0).

(** Entries of a union after its first one share its storage. *)
Definition shares (prev cur : pb_field_t) : bool :=
  (PB_HTYPE (type prev) =? PB_HTYPE_ONEOF) && (PB_HTYPE (type cur) =? PB_HTYPE_ONEOF)
  && (data_offset cur =? PB_SIZE_MAX).

(** The distance from the pointer to entry 0 to the data of entry [i]. *)
Fixpoint data_disp (i : nat) : Z :=
  match i with
  | O => 0
  | S i =>
    if shares (nth_field i) (nth_field (S i)) then data_disp i
    else data_disp i + iter_prev_size (nth_field i) + data_offset (nth_field (S i))
  end.

(** The entry whose size pointer entry [i] has: the first of its union. *)
Fixpoint size_owner (i : nat) : nat :=
  match i with
  | O => O
  | S i => if shares (nth_field i) (nth_field (S i)) then size_owner i else S i
  end.

(** How many of the first [i] entries are required. *)
Definition required_before (i : nat) : Z :=
  Z.of_nat (length (filter (fun f => PB_HTYPE (type f) = PB_HTYPE_REQUIRED) (take i fs))).

(** The iterator at entry [i] of the array at [a], over the structure at [d]. *)
Definition iter_at (a d : Z) (i : nat) : pb_field_iter_t :=
  let base := if d =? 0 then 0 else d + data_offset (nth_field 0) in
  let size := if (d =? 0) && (size_owner i =? 0)%nat then 0
              else base + data_disp (size_owner i) + size_offset (nth_field (size_owner i)) in
  mk_iter a i (u32 (required_before i)) d (base + data_disp i) size.
End Layout.

(** ** Stepping *)

Section Steps.
Context (E : pb_env) (a : Z) (fs : list pb_field_t).
Hypothesis Ha : env_fields E !! a = Some fs.
Hypothesis Hterm : terminated fs = true.

(** The number of entries before the terminator. *)
Definition entries : nat := pred (length fs).
Hypothesis Hne : entries <> 0%nat.

Lemma entries_length : length fs = S entries.
Proof. unfold entries. pose proof (terminated_inv _ Hterm) as (l & e & -> & _). rewrite length_app. simpl. lia. Qed.

Lemma field_at_entry i : (i <= entries)%nat -> field_at E a i = Some (nth_field fs i).
Proof.
  intros Hi. unfold field_at. rewrite Ha. simpl. pose proof entries_length.
  destruct (nth_lookup_or_length fs i (mk_field 0 0 0 0 0 0 0)) as [->|]; [done|lia].
Qed.

Lemma entry_tag i : (i < entries)%nat -> tag (nth_field fs i) <> 0.
Proof.
  unfold nth_field, entries. destruct (terminated_inv _ Hterm) as (l & e & -> & _ & Hl).
  rewrite length_app. simpl. intros Hi. rewrite app_nth1 by lia.
  rewrite Forall_forall in Hl. apply Hl, list_elem_of_In, nth_In. lia.
Qed.

Lemma end_tag : tag (nth_field fs entries) = 0.
Proof.
  unfold nth_field, entries. destruct (terminated_inv _ Hterm) as (l & e & -> & He & _).
  rewrite length_app. simpl. replace (pred (length l + 1)) with (length l) by lia.
  by rewrite nth_middle.
Qed.

Lemma required_before_S i :
  (i <= entries)%nat ->
  required_before fs (S i)
  = required_before fs i + (if PB_HTYPE (type (nth_field fs i)) =? PB_HTYPE_REQUIRED then 1 else 0).
Proof.
  intros Hi. unfold required_before. pose proof (field_at_entry i Hi) as Hf.
  unfold field_at in Hf. rewrite Ha in Hf. simpl in Hf.
  rewrite (take_S_r _ _ _ Hf), filter_app, length_app, Nat2Z.inj_add. f_equal.
  rewrite filter_cons, filter_nil. case_bool; case_decide; simpl; lia.
Qed.

Lemma begin_at d :
  pb_field_iter_begin E a d = Some (true, iter_at fs a d 0).
Proof.
  unfold pb_field_iter_begin. rewrite field_at_entry by lia. simpl.
  pose proof (entry_tag 0 ltac:(lia)) as Ht. apply Z.eqb_neq in Ht. rewrite Ht.
  unfold iter_at, required_before. simpl.
  case_bool; simpl; rewrite ?Z.add_0_r; done.
Qed.

(** The position after [i], going round. *)
Definition succ_pos (i : nat) : nat := if decide (S i < entries)%nat then S i else 0.

Lemma next_at d i :
  (i < entries)%nat ->
  pb_field_iter_next E (iter_at fs a d i)
  = Some (bool_decide (S i < entries)%nat, iter_at fs a d (succ_pos i)).
Proof.
  intros Hi. unfold pb_field_iter_next, it_field. simpl it_start. simpl it_pos.
  rewrite !field_at_entry by lia. simpl. rewrite (proj2 (Z.eqb_neq _ _)) by by apply entry_tag.
  unfold succ_pos. destruct (decide (S i < entries)%nat) as [Hlt|Hge].
  - rewrite (proj2 (Z.eqb_neq _ _)) by by apply entry_tag. rewrite bool_decide_true by done.
    unfold iter_at. cbn [data_disp size_owner]. rewrite required_before_S by lia.
    fold (shares (nth_field fs i) (nth_field fs (S i))).
    destruct (shares _ _) eqn:Es.
    + unfold shares in Es. apply andb_true_iff in Es as [[Hp%Z.eqb_eq _]%andb_true_iff _].
      rewrite Hp. simpl. by rewrite Z.add_0_r.
    + simpl. rewrite andb_false_r. f_equal. f_equal.
      assert (Hr : (if PB_HTYPE (type (nth_field fs i)) =? PB_HTYPE_REQUIRED
                    then u32 (u32 (required_before fs i) + 1) else u32 (required_before fs i))
                   = u32 (required_before fs i
                          + (if PB_HTYPE (type (nth_field fs i)) =? PB_HTYPE_REQUIRED then 1 else 0))).
      { case_bool; [|by rewrite Z.add_0_r]. unfold u32. by rewrite Zplus_mod_idemp_l. }
      rewrite Hr, Es. f_equal; lia.
  - replace (S i) with entries by lia. rewrite end_tag. simpl. rewrite begin_at. simpl.
    by rewrite bool_decide_false by lia.
Qed.

(** ** Searching *)

(** The [m] positions from [i] on. *)
Fixpoint turn (m i : nat) : list nat :=
  match m with O => [] | S m => i :: turn m (succ_pos i) end.

Lemma turn_up m i : (i + m <= entries)%nat -> turn m i = seq i m.
Proof.
  revert i. induction m as [|m IH]; intros i Hm; [done|]. simpl. f_equal.
  destruct m; [done|]. unfold succ_pos. rewrite decide_True by lia. apply IH. lia.
Qed.

Lemma turn_app m m' i :
  (i + m = entries)%nat -> (0 < m)%nat -> (m' <= entries)%nat ->
  turn (m + m') i = seq i m ++ seq 0 m'.
Proof.
  revert i. induction m as [|m IH]; intros i Hm Hpos Hm'; [lia|]. simpl. f_equal.
  unfold succ_pos. destruct (decide _).
  - apply IH; lia.
  - replace m with 0%nat by lia. simpl. apply turn_up. lia.
Qed.

(** Once round the array, from [i]. *)
Definition round (i : nat) : list nat := seq i (entries - i) ++ seq 0 i.

Lemma turn_round i : (i < entries)%nat -> turn entries i = round i.
Proof.
  intros Hi. unfold round. rewrite <-turn_app by lia. f_equal. lia.
Qed.

Definition found (d : Z) (start : nat) (o : option nat) : bool * pb_field_iter_t :=
  match o with
  | Some j => (true, iter_at fs a d j)
  | None => (false, iter_at fs a d start)
  end.

Lemma search_at hit d start fuel : forall m i,
  (start < entries)%nat -> (i < entries)%nat ->
  m = (if decide (i < start)%nat then start - i else entries - (i - start))%nat ->
  (m <= fuel)%nat ->
  iter_search E fuel hit start (iter_at fs a d i)
  = Some (found d start (find (fun j => hit (nth_field fs j)) (turn m i))).
Proof.
  induction fuel as [|fuel IH]; intros m i Hs Hi Hm Hf.
  { destruct (decide _); lia. }
  destruct m as [|m]; [destruct (decide _); lia|]. cbn [iter_search turn find].
  unfold it_field. simpl it_start. simpl it_pos. rewrite field_at_entry by lia. cbn [mbind option_bind].
  destruct (hit _); [done|]. rewrite next_at by done. cbn [mbind option_bind].
  simpl it_pos. destruct (Nat.eqb_spec (succ_pos i) start) as [Heq|Hneq].
  - assert (m = 0%nat) as ->; [|by rewrite Heq].
    unfold succ_pos in Heq. destruct (decide (i < start)%nat), (decide (S i < entries)%nat); lia.
  - apply IH; [done| |  |lia]; unfold succ_pos in *;
      repeat case_decide; lia.
Qed.

Lemma iter_fuel_entries : iter_fuel E a = S (S entries).
Proof. unfold iter_fuel. by rewrite Ha, entries_length. Qed.

Lemma search_round hit d i :
  (i < entries)%nat ->
  iter_search E (iter_fuel E a) hit i (iter_at fs a d i)
  = Some (found d i (find (fun j => hit (nth_field fs j)) (round i))).
Proof.
  intros Hi. rewrite <-turn_round by done. apply search_at; [done..| |].
  - rewrite decide_False by lia. lia.
  - rewrite iter_fuel_entries. lia.
Qed.

(** The test of [pb_field_iter_find]. *)
Definition is_field (tag0 : Z) (f : pb_field_t) : bool :=
  (tag f =? tag0) && negb (PB_LTYPE (type f) =? PB_LTYPE_EXTENSION).

(** C26. The field iterator on a terminated descriptor array: [pb_field_iter_begin] is at
    entry 0, [pb_field_iter_next] moves to the next entry and, from the last one, reports the
    end and starts over; the search of [pb_field_iter_find] looks at every entry exactly once,
    going round from where it stands, and stops at the first with the tag, or where it
    started. Wherever it is, the pointers to the data and to the size of the field and the
    number of required fields before it are those of its position in the structure. *)
Theorem iterator_visits_every_field d :
  pb_field_iter_begin E a d = Some (true, iter_at fs a d 0)
  /\ (forall i, (i < entries)%nat ->
      pb_field_iter_next E (iter_at fs a d i)
      = Some (bool_decide (S i < entries)%nat,
              iter_at fs a d (if decide (S i < entries)%nat then S i else 0)))
  /\ (forall i tag0, (i < entries)%nat ->
      pb_field_iter_find E (iter_at fs a d i) tag0
      = Some (match find (fun j => is_field tag0 (nth_field fs j))
                      (seq i (entries - i) ++ seq 0 i) with
              | Some j => (true, iter_at fs a d j)
              | None => (false, iter_at fs a d i)
              end)).
Proof.
  split_and!.
  - apply begin_at.
  - apply next_at.
  - intros i tag0 Hi. by apply (search_round (is_field tag0)).
Qed.
End Steps.

Lemma iterator_visits_every_field_witness :
  pb_field_iter_find bare_env (iter_at point_fields point_desc ex_dest 2) 2
  = Some (true, iter_at point_fields point_desc ex_dest 1)
  /\ it_pData (iter_at point_fields point_desc ex_dest 1) = ex_dest + 8.
Proof.
  split; [|reflexivity].
  apply (iterator_visits_every_field bare_env point_desc point_fields) with (d := ex_dest) (i := 2%nat);
    [reflexivity|reflexivity|discriminate|]. unfold entries. simpl. lia.
Defined.
