(* ===== verification/PbWire.v ===== *)
(** * nanopb: the wire format

    A reference definition of base-128 varints, what the encoder's and the
    decoder's primitives do on memory streams, and the round trips of the scalar
    encodings. *)
From S2P Require Export PbExample.

(** ** Computing with the monad *)

Lemma bind_ret {St A B} (m : M St A) (k : A -> M St B) s c a s1 c1 :
  m s c = Ret (a, s1, c1) -> (m ≫= k) s c = k a s1 c1.
Proof. intros H. unfold mbind, M_bind. by rewrite H. Qed.

Lemma run_with_ret {St St' A} (m : M St' A) s0 (s : St) c a s1 c1 :
  m s0 c = Ret (a, s1, c1) -> run_with s0 m s c = Ret ((a, s1), s, c1).
Proof. intros H. unfold run_with. by rewrite H. Qed.

(** Step over a first computation whose result is known. *)
Ltac mstep H := erewrite bind_ret by (exact H || apply H).

(** ** Memory contents *)

Definition mem_at (h : gmap Z Z) (a : Z) (l : list Z) : Prop :=
  read_bytes h a (length l) = Some l.

Definition mapped (h : gmap Z Z) (a n : Z) : Prop :=
  forall b, a <= b < a + n -> is_Some (h !! b).

#[global] Instance mapped_dec h a n : Decision (mapped h a n).
Proof.
  refine (cast_if (decide (Forall (fun i => is_Some (h !! (a + Z.of_nat i))) (seq 0 (Z.to_nat n)))));
    rewrite Forall_seq in *.
  - intros b Hb. replace b with (a + Z.of_nat (Z.to_nat (b - a))) by lia. apply f. lia.
  - intros Hm. apply n0. intros i Hi. apply Hm. lia.
Defined.

Lemma mem_at_cons h a b l : mem_at h a (b :: l) <-> h !! a = Some b /\ mem_at h (a + 1) l.
Proof.
  unfold mem_at. simpl.
  destruct (h !! a); [destruct (read_bytes h (a + 1) (length l))|]; naive_solver.
Qed.

Lemma mem_at_lookup h a l i b :
  mem_at h a l -> l !! i = Some b -> h !! (a + Z.of_nat i) = Some b.
Proof.
  revert a i. induction l as [|x l IH]; intros a i; [done|].
  rewrite mem_at_cons. intros [Hx Hl] Hi. destruct i as [|i]; simpl in Hi.
  - simplify_eq. by rewrite Z.add_0_r.
  - replace (a + Z.of_nat (S i)) with (a + 1 + Z.of_nat i) by lia. eauto.
Qed.

Lemma mem_at_app h a l1 l2 :
  mem_at h a (l1 ++ l2) <-> mem_at h a l1 /\ mem_at h (a + Z.of_nat (length l1)) l2.
Proof.
  revert a. induction l1 as [|x l1 IH]; intros a; simpl.
  - rewrite Z.add_0_r. unfold mem_at at 2. simpl. tauto.
  - rewrite !mem_at_cons, IH.
    replace (a + 1 + Z.of_nat (length l1)) with (a + Z.of_nat (S (length l1))) by lia.
    tauto.
Qed.

Lemma mem_at_agree h1 h2 a l :
  (forall b, a <= b < a + Z.of_nat (length l) -> h1 !! b = h2 !! b) ->
  mem_at h1 a l -> mem_at h2 a l.
Proof. unfold mem_at. intros H. by rewrite (read_bytes_agree h1 h2). Qed.

Lemma load1_spec {St} h a b (s : St) c :
  heap c = h -> h !! a = Some b -> load 1 a s c = Ret (b, s, c).
Proof.
  intros <- H. unfold load, read_mem, mbind, M_bind. simpl. rewrite H. simpl.
  unfold mret, M_ret. repeat f_equal. lia.
Qed.

Lemma read_mem_at {St} a l (s : St) c :
  mem_at (heap c) a l -> read_mem a (length l) s c = Ret (l, s, c).
Proof. unfold mem_at, read_mem. by intros ->. Qed.

Lemma store1_spec {St} a b (s : St) c :
  is_byte b -> is_Some (heap c !! a) ->
  store 1 a b s c = Ret (tt, s, set_heap c (<[a := b]> (heap c))).
Proof.
  intros Hb [x Hx]. unfold store, write_mem. simpl. rewrite Hx.
  unfold is_byte in Hb. by rewrite Z.mod_small by lia.
Qed.

(** ** Varints *)

(** The reference encoding: least significant group first, the top bit of every
    byte but the last set. *)
Fixpoint varint_enc (fuel : nat) (v : Z) : list Z :=
  match fuel with
  | O => [v]
  | S fuel => if v <? 128 then [v] else (v mod 128 + 128) :: varint_enc fuel (v / 128)
  end.
Definition varint (v : Z) : list Z := varint_enc 9 v.

(** The value of a sequence of 7-bit groups. *)
Fixpoint varint_val (l : list Z) : Z :=
  match l with [] => 0 | b :: l => b mod 128 + 128 * varint_val l end.

Lemma lor_80 x : 0 <= x < 128 -> u8 (Z.lor x 0x80) = x + 128.
Proof.
  intros Hx. rewrite (lor_add x 128 7) by (done || lia). apply u8_small. lia.
Qed.

Lemma land_80 b : is_byte b -> (Z.land b 0x80 =? 0) = (b <? 128).
Proof.
  intros Hb. unfold is_byte in Hb.
  assert (E : forallb (fun n => Bool.eqb (Z.land (Z.of_nat n) 0x80 =? 0) (Z.of_nat n <? 128))
                (seq 0 256) = true) by reflexivity.
  rewrite forallb_forall in E. specialize (E (Z.to_nat b)).
  rewrite Z2Nat.id in E by lia. apply Bool.eqb_prop, E, in_seq. lia.
Qed.

Lemma varint_enc_bytes n v : 0 <= v < 128 * 128 ^ Z.of_nat n -> bytes (varint_enc n v).
Proof.
  revert v. induction n as [|n IH]; intros v Hv; simpl.
  - repeat constructor; lia.
  - case_bool; [repeat constructor; lia|].
    constructor; [unfold is_byte; pose proof (Z.mod_pos_bound v 128); lia|].
    apply IH. rewrite Nat2Z.inj_succ, Z.pow_succ_r in Hv by lia.
    split; [apply Z.div_pos; lia|]. apply Z.div_lt_upper_bound; lia.
Qed.

Lemma varint_enc_length n v : (1 <= length (varint_enc n v) <= S n)%nat.
Proof.
  revert v. induction n as [|n IH]; intros v; simpl; [lia|].
  case_bool; simpl; [lia|]. specialize (IH (v / 128)). lia.
Qed.

Lemma varint_length v : (1 <= length (varint v) <= 10)%nat.
Proof. apply varint_enc_length. Qed.

Lemma varint_bytes v : 0 <= v < 2 ^ 64 -> bytes (varint v).
Proof. intros. apply varint_enc_bytes. simpl. lia. Qed.

Lemma varint_enc_val n v :
  0 <= v < 128 * 128 ^ Z.of_nat n -> varint_val (varint_enc n v) = v.
Proof.
  revert v. induction n as [|n IH]; intros v Hv; simpl.
  - rewrite Z.mod_small; lia.
  - case_bool; simpl; [rewrite Z.mod_small; lia|].
    rewrite IH; [div_lia|].
    rewrite Nat2Z.inj_succ, Z.pow_succ_r in Hv by lia.
    split; [apply Z.div_pos; lia|]. apply Z.div_lt_upper_bound; lia.
Qed.

(** The loop of [pb_encode_varint] with its final mask writes the reference
    encoding: with [room] bytes left for a value that fits them. *)
Lemma varint_loop_spec {St} n v (s : St) c :
  0 < v < 128 * 128 ^ Z.of_nat n ->
  exists l, varint_loop (S n) v s c = Ret (l, s, c) /\ clear_last l = varint_enc n v
            /\ length l = length (varint_enc n v) /\ l <> [].
Proof.
  revert v. induction n as [|n IH]; intros v Hv.
  - simpl in Hv. exists [v + 128]. cbn [varint_loop].
    rewrite Z.shiftr_div_pow2, land_7F by lia.
    change (2 ^ 7) with 128. rewrite (Z.div_small v), (Z.mod_small v) by lia.
    destruct (Z.eqb_spec v 0); [lia|]. simpl.
    unfold mbind, M_bind, mret, M_ret. simpl. rewrite lor_80 by lia.
    split_and!; [done| |done|done]. rewrite land_7F. f_equal.
    rewrite <-(Z.mul_1_l 128) at 1. rewrite Z_mod_plus_full. apply Z.mod_small. lia.
  - cbn [varint_loop varint_enc]. destruct (Z.eqb_spec v 0); [lia|].
    rewrite Z.shiftr_div_pow2, land_7F by lia. change (2 ^ 7) with 128.
    rewrite lor_80 by (apply Z.mod_pos_bound; lia).
    case_bool.
    + rewrite Z.div_small by lia. cbn [varint_loop].
      exists [v mod 128 + 128]. split; [done|]. simpl. rewrite land_7F.
      split_and!; [|done|done]. f_equal. rewrite (Z.mod_small v) by lia.
      rewrite <-(Z.mul_1_l 128) at 1. rewrite Z_mod_plus_full. apply Z.mod_small. lia.
    + destruct (IH (v / 128)) as (l & Hl & Hc & Hlen & Hne).
      { rewrite Nat2Z.inj_succ, Z.pow_succ_r in Hv by lia.
        split; [apply Z.div_str_pos; lia|]. apply Z.div_lt_upper_bound; lia. }
      exists (v mod 128 + 128 :: l). rewrite (bind_ret _ _ _ _ _ _ _ Hl).
      split_and!; [done| |simpl; lia|done].
      destruct l as [|y l]; [done|]. by rewrite <-Hc.
Qed.

Section Wire.
Context (E : pb_env).

(** The encoder hands [pb_write] the reference encoding of the value. *)
Lemma pb_encode_varint_spec v s c :
  0 <= v < 2 ^ 64 ->
  pb_encode_varint E v s c
  = pb_write E (Local (varint v)) (Z.of_nat (length (varint v))) s c.
Proof.
  intros Hv. unfold pb_encode_varint.
  destruct (Z.leb_spec v 0x7F).
  - rewrite u8_small by lia. unfold varint. simpl.
    by destruct (Z.ltb_spec v 128); [|lia].
  - destruct (varint_loop_spec 9 v s c) as (l & Hl & Hc & Hlen & _); [simpl; lia|].
    rewrite (bind_ret _ _ _ _ _ _ _ Hl). by rewrite Hc, Hlen.
Qed.

(** ** Memory streams *)

Definition os_room (s : pb_ostream_t) (c : cstate) (n : Z) : Prop :=
  os_callback s = OC_buf_write /\ 0 <= os_bytes_written s
  /\ os_bytes_written s + n <= os_max_size s < 2 ^ 64
  /\ mapped (heap c) (os_state s) n.

(** The stream after [n] bytes have gone to the buffer. *)
Definition os_wrote (s : pb_ostream_t) (n : Z) : pb_ostream_t :=
  mk_ostream (os_callback s) (os_state s + n) (os_max_size s)
    (os_bytes_written s + n) (os_errmsg s).

Lemma set_heap_twice c h1 h2 : set_heap (set_heap c h1) h2 = set_heap c h2.
Proof. done. Qed.

Lemma copy_loop_local {St} dest l1 l2 (s : St) c h :
  bytes l2 -> write_bytes (heap c) (dest + Z.of_nat (length l1)) l2 = Some h ->
  copy_loop dest (Local (l1 ++ l2)) (length l1) (length l2) s c = Ret (tt, s, set_heap c h).
Proof.
  revert l1 c. induction l2 as [|b l2 IH]; intros l1 c Hb Hw; simpl in *.
  - injection Hw as <-. by destruct c.
  - apply bytes_cons in Hb as [Hb Hl].
    destruct (heap c !! (dest + Z.of_nat (length l1))) eqn:Ea; [|done].
    erewrite bind_ret.
    2:{ unfold of_option. rewrite list_lookup_middle by done. done. }
    erewrite bind_ret by (apply store1_spec; eauto).
    replace (l1 ++ b :: l2) with ((l1 ++ [b]) ++ l2) by by rewrite <-app_assoc.
    replace (S (length l1)) with (length (l1 ++ [b])) by (rewrite length_app; simpl; lia).
    rewrite IH; [done|done|]. simpl. rewrite length_app. simpl.
    rewrite <-Hw. f_equal. lia.
Qed.

Lemma pb_write_local l s c :
  bytes l -> (0 < length l)%nat -> os_room s c (Z.of_nat (length l)) ->
  exists h, write_bytes (heap c) (os_state s) l = Some h
    /\ pb_write E (Local l) (Z.of_nat (length l)) s c
       = Ret (true, os_wrote s (Z.of_nat (length l)), set_heap c h).
Proof.
  intros Hl Hne (Hcb & Hbw & Hmax & Hmap).
  destruct (write_bytes_mapped (heap c) (os_state s) l Hmap) as [h Hh].
  exists h. split; [done|]. unfold pb_write.
  erewrite bind_ret by done. rewrite Hcb, bool_decide_eq_false_2 by done.
  rewrite u64_small by lia.
  destruct (Z.ltb_spec 0 (Z.of_nat (length l))); [|lia].
  repeat case_bool; try lia. simpl.
  erewrite bind_ret.
  2:{ unfold buf_write. erewrite bind_ret by done. erewrite bind_ret by done.
      erewrite bind_ret.
      2:{ rewrite Nat2Z.id. apply (copy_loop_local _ [] l _ _ h Hl). simpl. by rewrite Z.add_0_r. }
      done. }
  simpl. unfold mbind, M_bind, get, put, mret, M_ret. simpl. unfold os_advance, os_wrote. simpl.
  rewrite Hcb, u64_small by lia. done.
Qed.

Definition is_ready (s : pb_istream_t) (c : cstate) (l : list Z) : Prop :=
  is_callback s = IC_buf_read /\ Z.of_nat (length l) <= is_bytes_left s < 2 ^ 64
  /\ mem_at (heap c) (is_state s) l.

(** The stream after [n] bytes have been taken from the buffer. *)
Definition is_took (s : pb_istream_t) (n : Z) : pb_istream_t :=
  mk_istream (is_callback s) (is_state s + n) (is_bytes_left s - n) (is_errmsg s).

Lemma is_took_took s m n : is_took (is_took s m) n = is_took s (m + n).
Proof. unfold is_took. simpl. f_equal; lia. Qed.

Lemma is_ready_app s c l1 l2 :
  is_ready s c (l1 ++ l2) ->
  is_ready s c l1 /\ is_ready (is_took s (Z.of_nat (length l1))) c l2.
Proof.
  intros (Hcb & Hlen & Hm). rewrite length_app in Hlen. apply mem_at_app in Hm as [H1 H2].
  repeat split; simpl; try done; lia.
Qed.

Lemma is_ready_cons s c b l :
  is_ready s c (b :: l) ->
  heap c !! is_state s = Some b /\ is_ready (is_took s 1) c l.
Proof.
  intros H. change (b :: l) with ([b] ++ l) in H. apply is_ready_app in H as [H1 H2].
  split; [|done]. destruct H1 as (_ & _ & H1). by apply mem_at_cons in H1 as [? _].
Qed.

Lemma buf_read_local l s c :
  mem_at (heap c) (is_state s) l ->
  buf_read RLocal (Z.of_nat (length l)) s c
  = Ret ((true, l), mk_istream (is_callback s) (is_state s + Z.of_nat (length l))
                      (is_bytes_left s) (is_errmsg s), c).
Proof.
  intros Hm. unfold buf_read. erewrite bind_ret by done. erewrite bind_ret by done.
  rewrite Nat2Z.id.
  assert (Hloop : forall {St} (st : St) i n, (i + n = length l)%nat ->
            read_loop RLocal (is_state s) i n st c = Ret (drop i l, st, c)).
  { intros St st i n. revert i. induction n as [|n IH]; intros i Hi; simpl.
    - rewrite drop_ge by lia. done.
    - destruct (lookup_lt_is_Some_2 l i) as [b Hb]; [lia|].
      erewrite bind_ret by (eapply load1_spec; [done|eapply mem_at_lookup; eauto]).
      erewrite bind_ret by (apply IH; lia).
      by rewrite (drop_S l b i). }
  erewrite bind_ret by (apply (Hloop _ _ 0%nat (length l)); lia). done.
Qed.

Lemma pb_readbyte_spec s c b l :
  is_ready s c (b :: l) -> pb_readbyte E s c = Ret (Some b, is_took s 1, c).
Proof.
  intros (Hcb & Hlen & Hm). apply mem_at_cons in Hm as [Hb _]. simpl in Hlen.
  unfold pb_readbyte. erewrite bind_ret by done.
  destruct (Z.eqb_spec (is_bytes_left s) 0); [lia|].
  rewrite Hcb. simpl.
  erewrite bind_ret by (apply (buf_read_local [b]), mem_at_cons; split; done).
  simpl. unfold mbind, M_bind, get, put, mret, M_ret. simpl. unfold is_took, is_set_bytes_left.
  simpl. rewrite Hcb, u64_small by lia. done.
Qed.

(** [pb_read] into a local array. *)
Lemma pb_read_local l l' s c :
  is_ready s c (l ++ l') -> (0 < length l)%nat ->
  pb_read E RLocal (Z.of_nat (length l)) s c
  = Ret ((true, l), is_took s (Z.of_nat (length l)), c).
Proof.
  intros H Hne. apply is_ready_app in H as [(Hcb & Hlen & Hm) _].
  unfold pb_read, pb_read_data.
  destruct (Z.eqb_spec (Z.of_nat (length l)) 0); [lia|].
  erewrite bind_ret by done. erewrite bind_ret by done.
  destruct (Z.ltb_spec (is_bytes_left s) (Z.of_nat (length l))); [lia|].
  rewrite Hcb. simpl. erewrite bind_ret by (by apply buf_read_local).
  simpl. unfold mbind, M_bind, get, put, mret, M_ret. simpl. unfold is_took, is_set_bytes_left.
  simpl. rewrite Hcb, u64_small by lia. done.
Qed.

(** ** Decoding varints *)

(** A well-formed varint: every byte but the last has its top bit set. *)
Fixpoint is_varint (l : list Z) : Prop :=
  match l with
  | [] => False
  | [b] => 0 <= b < 128
  | b :: l => 128 <= b < 256 /\ is_varint l
  end.

Lemma is_varint_cons b l :
  is_varint (b :: l) <-> (0 <= b < 128 /\ l = []) \/ (128 <= b < 256 /\ is_varint l).
Proof. destruct l; simpl; naive_solver. Qed.

Lemma is_varint_bytes l : is_varint l -> bytes l.
Proof.
  induction l as [|b l IH]; [done|]. rewrite is_varint_cons.
  unfold is_byte in *. intros [[H ->]|[H1 H2]]; apply bytes_cons; unfold is_byte.
  - split; [lia|constructor].
  - split; [lia|auto].
Qed.

Lemma varint_enc_is_varint n v :
  0 <= v < 128 * 128 ^ Z.of_nat n -> is_varint (varint_enc n v).
Proof.
  revert v. induction n as [|n IH]; intros v Hv; simpl in *; [lia|].
  case_bool; [simpl; lia|]. apply is_varint_cons. right.
  split; [pose proof (Z.mod_pos_bound v 128); lia|]. apply IH.
  rewrite Nat2Z.inj_succ, Z.pow_succ_r in Hv by lia.
  split; [apply Z.div_pos; lia|]. apply Z.div_lt_upper_bound; lia.
Qed.

Lemma varint_is_varint v : 0 <= v < 2 ^ 64 -> is_varint (varint v).
Proof. intros. apply varint_enc_is_varint. simpl. lia. Qed.

Lemma varint_val_varint v : 0 <= v < 2 ^ 64 -> varint_val (varint v) = v.
Proof. intros. apply varint_enc_val. simpl. lia. Qed.

Lemma varint_val_nonneg l : 0 <= varint_val l.
Proof. induction l as [|b l IH]; simpl; [lia|]. pose proof (Z.mod_pos_bound b 128). lia. Qed.

Lemma varint_val_range l : varint_val l < 2 ^ (7 * Z.of_nat (length l)).
Proof.
  induction l as [|b l IH]; simpl varint_val; [simpl; lia|].
  replace (7 * Z.of_nat (length (b :: l))) with (7 + 7 * Z.of_nat (length l)) by (simpl; lia).
  rewrite Z.pow_add_r by lia. change (2 ^ 7) with 128.
  pose proof (Z.mod_pos_bound b 128). lia.
Qed.

(** One turn's contribution: the group of the byte, cut to 64 bits. *)
Lemma varint_group b p :
  0 <= p -> u64 (Z.shiftl (Z.land b 0x7F) p) = (b mod 128 * 2 ^ p) mod 2 ^ 64.
Proof. intros. unfold u64. by rewrite land_7F, Z.shiftl_mul_pow2. Qed.

Lemma lor_group r x p :
  0 <= p <= 64 -> 0 <= r < 2 ^ p ->
  Z.lor r ((x * 2 ^ p) mod 2 ^ 64) = r + (x * 2 ^ p) mod 2 ^ 64.
Proof.
  intros Hp Hr. apply (lor_add _ _ p); [lia|done|].
  replace (2 ^ 64) with (2 ^ (64 - p) * 2 ^ p) by (rewrite <-Z.pow_add_r by lia; f_equal; lia).
  rewrite Zmult_mod_distr_r. apply Z_mod_mult.
Qed.

Lemma group_step r x p :
  0 <= p <= 64 -> 0 <= r < 2 ^ p ->
  r + (x * 2 ^ p) mod 2 ^ 64 = (r + x * 2 ^ p) mod 2 ^ 64.
Proof.
  intros Hp Hr.
  assert (Hsplit : 2 ^ 64 = 2 ^ p * 2 ^ (64 - p)).
  { rewrite <-Z.pow_add_r by lia. f_equal. lia. }
  assert (0 < 2 ^ (64 - p)) by (apply Z.pow_pos_nonneg; lia).
  assert (Hx : x = 2 ^ (64 - p) * (x / 2 ^ (64 - p)) + x mod 2 ^ (64 - p))
    by (apply Z.div_mod; lia).
  pose proof (Z.mod_pos_bound x (2 ^ (64 - p)) ltac:(lia)) as Hy.
  rewrite Hsplit at 1. rewrite (Z.mul_comm (2 ^ p) (2 ^ (64 - p))), Zmult_mod_distr_r.
  apply Z.mod_unique_pos with (q := x / 2 ^ (64 - p)); rewrite Hsplit; nia.
Qed.

Lemma land_80_varint b : 0 <= b < 256 -> negb (Z.land b 0x80 =? 0) = negb (b <? 128).
Proof. intros. by rewrite land_80. Qed.

(** What the 64-bit decoder computes on any well-formed varint of at most ten
    bytes: its value modulo 2^64. *)
Lemma varint64_loop_spec l : forall k r fuel s c,
  is_varint l -> (k + length l <= 10)%nat -> (length l < fuel)%nat ->
  0 <= r < 2 ^ (7 * Z.of_nat k) -> is_ready s c l ->
  varint64_loop E fuel (7 * Z.of_nat k) r s c
  = Ret (Some ((r + varint_val l * 2 ^ (7 * Z.of_nat k)) mod 2 ^ 64),
         is_took s (Z.of_nat (length l)), c).
Proof.
  induction l as [|b l IH]; intros k r fuel s c Hv Hk Hfuel Hr Hs; [done|].
  apply is_varint_cons in Hv. cbn [length varint_val] in *.
  assert (Hb : 0 <= b < 256) by lia.
  destruct fuel as [|fuel]; [lia|]. cbn [varint64_loop].
  destruct (Z.leb_spec 64 (7 * Z.of_nat k)); [lia|].
  erewrite bind_ret by (by eapply pb_readbyte_spec).
  apply is_ready_cons in Hs as [_ Hs].
  rewrite varint_group by lia. rewrite lor_group by (done || lia).
  rewrite group_step by (done || lia). rewrite (land_80_varint b) by lia.
  rewrite u8_small by lia.
  destruct Hv as [[Hlt ->]|[Hge Hv]].
  - destruct (Z.ltb_spec b 128); [|lia]. simpl.
    rewrite Z.mul_0_r, Z.add_0_r. done.
  - destruct (Z.ltb_spec b 128); [lia|]. cbn [negb].
    replace (7 * Z.of_nat k + 7) with (7 * Z.of_nat (S k)) by lia.
    assert (Hp : 2 ^ (7 * Z.of_nat (S k)) = 128 * 2 ^ (7 * Z.of_nat k)).
    { replace (7 * Z.of_nat (S k)) with (7 + 7 * Z.of_nat k) by lia.
      by rewrite Z.pow_add_r by lia. }
    pose proof (Z.mod_pos_bound b 128).
    assert (Hstep : 0 <= r + b mod 128 * 2 ^ (7 * Z.of_nat k) < 2 ^ (7 * Z.of_nat (S k))) by nia.
    rewrite IH; [|done|lia|lia| |done].
    + rewrite is_took_took, Zplus_mod_idemp_l, Hp.
      replace (1 + Z.of_nat (length l)) with (Z.of_nat (S (length l))) by lia.
      replace (r + b mod 128 * 2 ^ (7 * Z.of_nat k)
               + varint_val l * (128 * 2 ^ (7 * Z.of_nat k)))
        with (r + (b mod 128 + 128 * varint_val l) * 2 ^ (7 * Z.of_nat k)) by ring.
      done.
    + split; [apply Z.mod_pos_bound; lia|].
      eapply Z.le_lt_trans; [apply Z.mod_le; lia|lia].
Qed.

Lemma pb_decode_varint_spec l l' s c :
  is_varint l -> (length l <= 10)%nat -> is_ready s c (l ++ l') ->
  pb_decode_varint E s c
  = Ret (Some (varint_val l mod 2 ^ 64), is_took s (Z.of_nat (length l)), c).
Proof.
  intros Hv Hlen Hs. apply is_ready_app in Hs as [Hs _]. unfold pb_decode_varint.
  change 0 with (7 * Z.of_nat 0) at 1.
  rewrite (varint64_loop_spec l) by (done || simpl; lia).
  change (2 ^ (7 * Z.of_nat 0)) with 1. by rewrite Z.mul_1_r, Z.add_0_l.
Qed.
End Wire.
