(* ===== verification/PbVarint32.v ===== *)
(** * nanopb: the 32-bit varint decoder

    [pb_decode_varint32] against the reference encoding: which 64-bit values it
    accepts and what it returns for them. *)
From S2P Require Export PbWire.

(** The decoder's loop on a byte list, from bit position [p] with [r] so far. *)
Fixpoint dec32 (p r : Z) (l : list Z) : option Z :=
  match l with
  | [] => None
  | b :: l =>
    if (32 <=? p) && negb (Z.land b 0x7F =? 0)
       && ((Z.shiftr r 31 =? 0) || negb (b =? (if p <? 63 then 0xFF else 0x01)))
    then None
    else
      let r' := if 32 <=? p then r else Z.lor r (u32 (Z.shiftl (Z.land b 0x7F) p)) in
      if negb (Z.land b 0x80 =? 0) then dec32 (u8 (p + 7)) r' l
      else if (u8 (p + 7) =? 35) && negb (Z.land b 0x70 =? 0) then None
      else Some r'
  end.

Lemma group_lor32 r x k :
  0 <= k <= 4 -> 0 <= r < 2 ^ (7 * k) -> 0 <= x < 128 ->
  Z.lor r (u32 (Z.shiftl x (7 * k))) = r + (x * 2 ^ (7 * k)) mod 2 ^ 32.
Proof.
  intros Hk Hr Hx. unfold u32. rewrite Z.shiftl_mul_pow2 by lia.
  apply (lor_add _ _ (7 * k)); [lia|done|].
  assert (H : 2 ^ 32 = 2 ^ (32 - 7 * k) * 2 ^ (7 * k))
    by (rewrite <-Z.pow_add_r by lia; f_equal; lia).
  rewrite H, Zmult_mod_distr_r. apply Z_mod_mult.
Qed.

(** One turn below bit 32 that does not end the varint. *)
Lemma dec32_step n k r w :
  1 <= k <= 4 -> 0 <= r < 2 ^ (7 * k) -> 128 <= w ->
  dec32 (7 * k) r (varint_enc (S n) w)
  = dec32 (7 * (k + 1)) (r + (w mod 128 * 2 ^ (7 * k)) mod 2 ^ 32) (varint_enc n (w / 128)).
Proof.
  intros Hk Hr Hw. cbn [varint_enc]. destruct (Z.ltb_spec w 128); [lia|].
  cbn [dec32]. destruct (Z.leb_spec 32 (7 * k)); [lia|]. cbn [andb].
  pose proof (Z.mod_pos_bound w 128 ltac:(lia)).
  rewrite land_80 by (unfold is_byte; lia).
  destruct (Z.ltb_spec (w mod 128 + 128) 128); [lia|]. cbn [negb].
  rewrite u8_small by lia. rewrite land_7F.
  rewrite add_128_mod, Zmod_mod.
  rewrite group_lor32 by lia. f_equal. lia.
Qed.

(** The last turn, when the whole value fits 32 bits. *)
Lemma dec32_last k r w :
  1 <= k <= 4 -> 0 <= r < 2 ^ (7 * k) -> 0 <= w < 128 -> w * 2 ^ (7 * k) < 2 ^ 32 ->
  dec32 (7 * k) r [w] = Some (r + w * 2 ^ (7 * k)).
Proof.
  intros Hk Hr Hw Hfit. cbn [dec32]. destruct (Z.leb_spec 32 (7 * k)); [lia|]. cbn [andb].
  rewrite land_80 by (unfold is_byte; lia).
  destruct (Z.ltb_spec w 128); [|lia]. cbn [negb].
  rewrite u8_small by lia. rewrite land_7F, (Z.mod_small w) by lia.
  rewrite group_lor32, (Z.mod_small (w * _)) by (try apply Z.mul_nonneg_nonneg; lia).
  destruct (Z.eqb_spec (7 * k + 7) 35); [|done]. cbn [andb].
  assert (k = 4) as -> by lia. change (2 ^ (7 * 4)) with (2 ^ 28) in *.
  assert (Hw16 : 0 <= w < 16) by lia.
  assert (Z.land w 0x70 = 0) as ->; [|done].
  apply (land_shiftl_disjoint w 7 4); lia.
Qed.

Lemma pow7_succ k : 0 <= k -> 2 ^ (7 * (k + 1)) = 128 * 2 ^ (7 * k).
Proof.
  intros. replace (7 * (k + 1)) with (7 + 7 * k) by lia. by rewrite Z.pow_add_r by lia.
Qed.

Lemma dec32_fits n : forall k r w,
  1 <= k <= 4 -> 4 - k <= Z.of_nat n -> 0 <= r < 2 ^ (7 * k) -> 0 <= w ->
  r + w * 2 ^ (7 * k) < 2 ^ 32 ->
  dec32 (7 * k) r (varint_enc n w) = Some (r + w * 2 ^ (7 * k)).
Proof.
  induction n as [|n IH]; intros k r w Hk Hn Hr Hw Hfit.
  - assert (k = 4) as -> by lia. simpl. change (2 ^ (7 * 4)) with (2 ^ 28) in *.
    apply (dec32_last 4); lia.
  - destruct (Z.lt_ge_cases w 128).
    + cbn [varint_enc]. destruct (Z.ltb_spec w 128); [|lia]. apply dec32_last; lia.
    + rewrite dec32_step by lia.
      pose proof (pow7_succ k ltac:(lia)) as Hp.
      pose proof (Z.div_mod w 128 ltac:(lia)). pose proof (Z.mod_pos_bound w 128 ltac:(lia)).
      assert (0 < 2 ^ (7 * k)) by (apply Z.pow_pos_nonneg; lia).
      assert (k <> 4).
      { intros ->. change (2 ^ (7 * 4)) with (2 ^ 28) in *. lia. }
      rewrite (Z.mod_small (w mod 128 * _)) by nia.
      rewrite IH; [|lia|lia|nia|apply Z.div_pos; lia|nia]. f_equal. nia.
Qed.

(** Past bit 32, with the sign bit clear, any remaining bit is an overflow. *)
Lemma dec32_overflow n : forall p r w,
  32 <= p -> p + 7 * Z.of_nat n < 249 -> 0 <= r < 2 ^ 31 -> 0 < w < 128 * 128 ^ Z.of_nat n ->
  dec32 p r (varint_enc n w) = None.
Proof.
  assert (Hr31 : forall r, 0 <= r < 2 ^ 31 -> Z.shiftr r 31 =? 0 = true).
  { intros. rewrite Z.shiftr_div_pow2, Z.div_small by lia. done. }
  induction n as [|n IH]; intros p r w Hp Hn Hr Hw; cbn [varint_enc].
  - simpl in Hw. cbn [dec32]. rewrite land_7F, (Z.mod_small w), Hr31 by lia.
    destruct (Z.leb_spec 32 p); [|lia]. destruct (Z.eqb_spec w 0); [lia|]. done.
  - destruct (Z.ltb_spec w 128); cbn [dec32].
    + rewrite land_7F, (Z.mod_small w), Hr31 by lia.
      destruct (Z.leb_spec 32 p); [|lia]. destruct (Z.eqb_spec w 0); [lia|]. done.
    + pose proof (Z.mod_pos_bound w 128 ltac:(lia)).
      rewrite land_7F, add_128_mod, Zmod_mod, Hr31 by lia.
      destruct (Z.leb_spec 32 p); [|lia]. cbn [andb orb].
      destruct (Z.eqb_spec (w mod 128) 0); [|done]. cbn [negb].
      rewrite land_80 by (unfold is_byte; lia).
      destruct (Z.ltb_spec (w mod 128 + 128) 128); [lia|]. cbn [negb].
      rewrite u8_small by lia. apply IH; [lia|lia|done|].
      rewrite Nat2Z.inj_succ, Z.pow_succ_r in Hw by lia.
      split; [apply Z.div_str_pos; lia|]. apply Z.div_lt_upper_bound; lia.
Qed.

(** Past bit 32, a set sign bit continued by ones to bit 63 is a negative
    number. *)
Lemma dec32_ones p r l :
  32 <= p < 63 -> dec32 p r (255 :: l) = dec32 (p + 7) r l \/ r < 2 ^ 31.
Proof.
  intros Hp. destruct (Z.lt_ge_cases r (2 ^ 31)) as [|Hr]; [by right|left].
  cbn [dec32]. destruct (Z.leb_spec 32 p); [|lia]. destruct (Z.ltb_spec p 63); [|lia].
  rewrite Z.shiftr_div_pow2 by lia. destruct (Z.eqb_spec (r / 2 ^ 31) 0); [div_lia|].
  simpl. by rewrite u8_small by lia.
Qed.

Lemma dec32_negative r :
  2 ^ 31 <= r < 2 ^ 32 -> dec32 35 r (varint_enc 4 (2 ^ 29 - 1)) = Some r.
Proof.
  intros Hr. change (varint_enc 4 (2 ^ 29 - 1)) with [255; 255; 255; 255; 1].
  do 4 (match goal with |- dec32 ?p r (255 :: ?l) = _ =>
          destruct (dec32_ones p r l) as [->|]; [lia| |lia] end; simpl Z.add).
  cbn [dec32]. rewrite Z.shiftr_div_pow2 by lia.
  destruct (Z.eqb_spec (r / 2 ^ 31) 0); [div_lia|]. done.
Qed.

(** From the first continuation byte to bit 35. *)
Lemma dec32_to_35 n v :
  2 ^ 35 <= v ->
  dec32 7 (v mod 128) (varint_enc (4 + n) (v / 128))
  = dec32 35 (v mod 2 ^ 32) (varint_enc n (v / 2 ^ 35)).
Proof.
  intros Hv. change 7 with (7 * 1) at 1. simpl Nat.add.
  rewrite (dec32_step (S (S (S n))) 1) by div_lia.
  rewrite Z.div_div by lia. rewrite (dec32_step (S (S n)) 2) by div_lia.
  rewrite Z.div_div by lia. rewrite (dec32_step (S n) 3) by div_lia.
  rewrite Z.div_div by lia. rewrite (dec32_step n 4) by div_lia.
  rewrite Z.div_div by lia.
  change (7 * (4 + 1)) with 35. f_equal. div_lia.
Qed.

Section Varint32.
Context (E : pb_env).

(** What a decoder answers on the byte list [l] at the head of its stream: the
    value and the stream after [l], or an overflow somewhere in [l]. *)
Definition varint32_outcome (o : option Z) (l : list Z) (s : pb_istream_t) (c : cstate)
    (r : outcome (option Z * pb_istream_t * cstate)) : Prop :=
  match o with
  | Some v => r = Ret (Some v, is_took s (Z.of_nat (length l)), c)
  | None => exists m, r = Ret (None, is_set_error (is_took s m) "varint overflow", c)
  end.

Lemma varint32_loop_dec32 l : forall fuel p r s c,
  is_varint l -> (length l < fuel)%nat -> is_ready s c l ->
  varint32_outcome (dec32 p r l) l s c (varint32_loop E fuel p r s c).
Proof.
  induction l as [|b l IH]; intros fuel p r s c Hv Hfuel Hs; [done|].
  destruct fuel as [|fuel]; [simpl in Hfuel; lia|].
  cbn [varint32_loop dec32].
  erewrite bind_ret by (by eapply pb_readbyte_spec).
  apply is_ready_cons in Hs as [_ Hs]. apply is_varint_cons in Hv.
  destruct ((32 <=? p) && _ && _); [by exists 1|].
  rewrite land_80 by (unfold is_byte; lia). destruct Hv as [[Hb ->]|[Hb Hv]].
  - destruct (Z.ltb_spec b 128); [|lia]. cbn [negb].
    destruct ((_ =? 35) && _); [by exists 1|done].
  - destruct (Z.ltb_spec b 128); [lia|]. cbn [negb].
    simpl in Hfuel. specialize (IH fuel (u8 (p + 7))
      (if 32 <=? p then r else Z.lor r (u32 (Z.shiftl (Z.land b 0x7F) p)))
      (is_took s 1) c Hv ltac:(lia) Hs).
    destruct (dec32 _ _ _) as [v|]; simpl in IH |- *.
    + rewrite IH, is_took_took. repeat f_equal. lia.
    + destruct IH as [m ->]. exists (1 + m). by rewrite is_took_took.
Qed.

(** [pb_decode_varint32] on a stream that starts with the encoding of [v]. *)
Lemma pb_decode_varint32_enc v l' s c :
  0 <= v < 2 ^ 64 -> is_ready s c (varint v ++ l') ->
  varint32_outcome
    (if v <? 128 then Some v else dec32 7 (v mod 128) (varint_enc 8 (v / 128)))
    (varint v) s c (pb_decode_varint32 E s c).
Proof.
  intros Hv Hs. pose proof (varint_is_varint v Hv) as Hl.
  apply is_ready_app in Hs as [Hs _].
  unfold pb_decode_varint32, pb_decode_varint32_eof.
  unfold varint in *. cbn [varint_enc] in *.
  destruct (Z.ltb_spec v 128).
  - unfold mbind at 1, M_bind at 1. erewrite bind_ret by done.
    erewrite bind_ret by (by eapply pb_readbyte_spec). cbv beta iota.
    rewrite land_80 by (unfold is_byte; lia).
    destruct (Z.ltb_spec v 128); [done|lia].
  - unfold mbind at 1, M_bind at 1. erewrite bind_ret by done.
    erewrite bind_ret by (by eapply pb_readbyte_spec). cbv beta iota.
    pose proof (Z.mod_pos_bound v 128 ltac:(lia)).
    rewrite land_80 by (unfold is_byte; lia).
    destruct (Z.ltb_spec (v mod 128 + 128) 128); [lia|].
    rewrite land_7F, add_128_mod, Zmod_mod.
    apply is_varint_cons in Hl as [[? _]|[_ Hl]]; [lia|].
    destruct Hs as (Hcb & Hlen & Hm). cbn [length] in Hlen.
    assert (Hs : is_ready s c ((v mod 128 + 128) :: varint_enc 8 (v / 128))) by done.
    apply is_ready_cons in Hs as [_ Hs].
    pose proof (varint32_loop_dec32 _ (S (Z.to_nat (is_bytes_left s))) 7 (v mod 128)
                  _ _ Hl ltac:(lia) Hs) as Hd.
    destruct (dec32 _ _ _) as [x|]; unfold varint32_outcome in *.
    + unfold mbind, M_bind. rewrite Hd. simpl. unfold mret, M_ret.
      rewrite is_took_took. repeat f_equal. lia.
    + destruct Hd as [m Hd]. unfold mbind, M_bind. rewrite Hd. exists (1 + m).
      by rewrite is_took_took.
Qed.

Lemma pb_decode_varint32_eof_no_eof s c v e s' c' :
  pb_decode_varint32_eof E s c = Ret ((Some v, e), s', c') -> e = false.
Proof.
  unfold pb_decode_varint32_eof, mbind, M_bind, mret, M_ret. simpl.
  destruct (pb_readbyte E s c) as [[[[b|] s1] c1]| |]; simpl; try done.
  destruct (Z.land b 0x80 =? 0); [by intros [= _ <-]|].
  match goal with |- context [match ?m with Ret _ => _ | _ => _ end] => destruct m as [[[o s2] c2]| |] end;
    try done.
  by intros [= _ <-].
Qed.

Lemma dec32_value v :
  0 <= v < 2 ^ 32 ->
  (if v <? 128 then Some v else dec32 7 (v mod 128) (varint_enc 8 (v / 128))) = Some v.
Proof.
  intros Hv. destruct (Z.ltb_spec v 128); [done|].
  change 7 with (7 * 1). rewrite dec32_fits; [f_equal; div_lia|lia|lia| |div_lia|div_lia].
  apply Z.mod_pos_bound. lia.
Qed.

(** The canonical case, used by every decoder of a length or a tag. *)
Lemma pb_decode_varint32_value v l' s c :
  0 <= v < 2 ^ 32 -> is_ready s c (varint v ++ l') ->
  pb_decode_varint32 E s c = Ret (Some v, is_took s (Z.of_nat (length (varint v))), c).
Proof.
  intros Hv Hs. pose proof (pb_decode_varint32_enc v l' s c ltac:(lia) Hs) as H.
  by rewrite dec32_value in H.
Qed.

(** What [pb_decode_varint32] answers for the encoding of any 64-bit value:
    a value that fits 32 bits, or a sign-extended negative [int32_t], is decoded
    to its low 32 bits and consumed entirely; a larger value whose bit 31 is
    clear is refused with "varint overflow". *)
Lemma pb_decode_varint32_correct v l' s c :
  0 <= v < 2 ^ 64 -> is_ready s c (varint v ++ l') ->
  (v < 2 ^ 32 \/ 2 ^ 64 - 2 ^ 31 <= v ->
   pb_decode_varint32 E s c
   = Ret (Some (v mod 2 ^ 32), is_took s (Z.of_nat (length (varint v))), c))
  /\ (2 ^ 32 <= v -> v mod 2 ^ 32 < 2 ^ 31 ->
      exists m, pb_decode_varint32 E s c
                = Ret (None, is_set_error (is_took s m) "varint overflow", c)).
Proof.
  intros Hv Hs. pose proof (pb_decode_varint32_enc v l' s c Hv Hs) as H. split.
  - intros [Hlt|Hge].
    + rewrite dec32_value in H by lia. by rewrite Z.mod_small by lia.
    + destruct (Z.ltb_spec v 128); [lia|].
      change 8%nat with (4 + 4)%nat in H. rewrite (dec32_to_35 4 v) in H by lia.
      assert (v / 2 ^ 35 = 2 ^ 29 - 1) as E35 by div_lia.
      rewrite E35, dec32_negative in H; [done|div_lia].
  - intros Hge Hsign. destruct (Z.ltb_spec v 128); [lia|].
    destruct (Z.lt_ge_cases v (2 ^ 35)).
    + enough (dec32 7 (v mod 128) (varint_enc 8 (v / 128)) = None) as Hn by by rewrite Hn in H.
      change 7 with (7 * 1).
      rewrite (dec32_step 7 1) by div_lia. rewrite Z.div_div by lia.
      rewrite (dec32_step 6 2) by div_lia. rewrite Z.div_div by lia.
      rewrite (dec32_step 5 3) by div_lia. rewrite Z.div_div by lia.
      change (7 * (3 + 1)) with 28.
      set (w := v / (128 * 128 * 128 * 128)).
      assert (Hw : 16 <= w < 128) by (unfold w; div_lia). clearbody w.
      cbn [varint_enc]. destruct (Z.ltb_spec w 128); [|lia]. cbn [dec32].
      rewrite land_80 by (unfold is_byte; lia). destruct (Z.ltb_spec w 128); [|lia].
      assert (Hb : forallb (fun n => negb (Z.land (Z.of_nat n) 0x70 =? 0)) (seq 16 112) = true)
        by reflexivity.
      rewrite forallb_forall in Hb. specialize (Hb (Z.to_nat w)).
      rewrite Z2Nat.id in Hb by lia. simpl. rewrite Hb; [done|]. apply in_seq. lia.
    + change 8%nat with (4 + 4)%nat in H. rewrite (dec32_to_35 4 v) in H by lia.
      rewrite dec32_overflow in H; [done|lia|lia|div_lia|]. simpl. div_lia.
Qed.
End Varint32.

(** Varints the decoder reads as other values than theirs. [decode_bytes l] decodes
    [l] from a memory stream that holds nothing else. *)
Definition decode_bytes (l : list Z) : option Z :=
  let c := CState (map_range ∅ 50 64 0) ∅ 4096 [] 0 in
  let h := default ∅ (write_bytes (heap c) 50 l) in
  match pb_decode_varint32 ex_env (pb_istream_from_buffer 50 (Z.of_nat (length l))) (set_heap c h) with
  | Ret (o, _, _) => o
  | _ => None
  end.

(** The fifth byte carries bits 28 to 34: with another byte behind it, bits 32 to 34
    are dropped without an error. The value here is 7 * 2^32. *)
Lemma varint32_drops_high_bits : decode_bytes [0x80; 0x80; 0x80; 0x80; 0xF0; 0x00] = Some 0.
Proof. vm_compute. reflexivity. Qed.

(** The bit position wraps around: the 38th byte is read at position 3. *)
Lemma varint32_position_wraps : decode_bytes (replicate 37 0x80 ++ [0x01]) = Some 8.
Proof. vm_compute. reflexivity. Qed.
