(* ===== verification/PbRoundtrip.v ===== *)
(** * nanopb: round trips of the scalar encodings

    What a [pb_encode_*] function writes to a memory stream is what the matching
    [pb_decode_*] function reads back, for every value of the C type. *)
From S2P Require Export PbVarint32.

Section Roundtrip.
Context (E : pb_env).

Lemma os_room_buffer buf bufsize c n :
  0 <= n <= bufsize -> bufsize < 2 ^ 64 -> mapped (heap c) buf bufsize ->
  os_room (pb_ostream_from_buffer buf bufsize) c n.
Proof.
  intros Hn Hsz Hm. repeat split; simpl; try lia. intros b Hb. apply Hm. lia.
Qed.

(** After a successful write, an input stream over the buffer reads it back. *)
Lemma write_then_ready l buf bufsize c :
  bytes l -> (0 < length l)%nat -> Z.of_nat (length l) <= bufsize < 2 ^ 64 ->
  mapped (heap c) buf bufsize ->
  exists c1,
    pb_write E (Local l) (Z.of_nat (length l)) (pb_ostream_from_buffer buf bufsize) c
    = Ret (true, os_wrote (pb_ostream_from_buffer buf bufsize) (Z.of_nat (length l)), c1)
    /\ is_ready (pb_istream_from_buffer buf (Z.of_nat (length l))) c1 (l ++ []).
Proof.
  intros Hl Hne Hsz Hm.
  destruct (pb_write_local E l (pb_ostream_from_buffer buf bufsize) c Hl Hne) as (h & Hw & Heq).
  { apply os_room_buffer; [lia|lia|done]. }
  eexists. split; [exact Heq|]. rewrite app_nil_r. repeat split; simpl; try lia.
  by apply read_write_bytes in Hw.
Qed.

(** Any value the library encodes as a varint is decoded to itself, in at most
    ten bytes. *)
Lemma varint_roundtrip_aux v buf bufsize c :
  0 <= v < 2 ^ 64 -> 10 <= bufsize < 2 ^ 64 -> mapped (heap c) buf bufsize ->
  exists os c1 si,
    pb_encode_varint E v (pb_ostream_from_buffer buf bufsize) c = Ret (true, os, c1)
    /\ os_bytes_written os = Z.of_nat (length (varint v))
    /\ is_ready (pb_istream_from_buffer buf (os_bytes_written os)) c1 (varint v ++ [])
    /\ pb_decode_varint E (pb_istream_from_buffer buf (os_bytes_written os)) c1
       = Ret (Some v, si, c1)
    /\ is_bytes_left si = 0.
Proof.
  intros Hv Hsz Hm. pose proof (varint_length v) as Hlen.
  destruct (write_then_ready (varint v) buf bufsize c) as (c1 & Hw & Hr);
    [by apply varint_bytes|lia|lia|done|].
  do 3 eexists. rewrite pb_encode_varint_spec by done. rewrite Hw.
  split_and!; [done|done|exact Hr| |].
  - etransitivity.
    { apply (pb_decode_varint_spec E (varint v) []);
        [by apply varint_is_varint|lia|exact Hr]. }
    rewrite varint_val_varint, Z.mod_small by done. done.
  - simpl. lia.
Qed.

(** C22. Every 64-bit value survives [pb_encode_varint] followed by
    [pb_decode_varint] over the bytes written: 1 to 10 of them, all consumed. *)
Theorem varint_roundtrip v buf bufsize c :
  0 <= v < 2 ^ 64 -> 10 <= bufsize < 2 ^ 64 -> mapped (heap c) buf bufsize ->
  exists os c1 si,
    pb_encode_varint E v (pb_ostream_from_buffer buf bufsize) c = Ret (true, os, c1)
    /\ 1 <= os_bytes_written os <= 10
    /\ pb_decode_varint E (pb_istream_from_buffer buf (os_bytes_written os)) c1
       = Ret (Some v, si, c1)
    /\ is_bytes_left si = 0.
Proof.
  intros Hv Hsz Hm.
  destruct (varint_roundtrip_aux v buf bufsize c Hv Hsz Hm)
    as (os & c1 & si & H1 & H2 & _ & H3 & H4).
  exists os, c1, si. pose proof (varint_length v). split_and!; [done|lia|lia|done|done].
Qed.

(** ** Zigzag *)

(** The 64-bit zigzag code of a signed value. *)
Definition zigzag (v : Z) : Z := if v <? 0 then - 2 * v - 1 else 2 * v.

Lemma zigzag_range v : - 2 ^ 63 <= v < 2 ^ 63 -> 0 <= zigzag v < 2 ^ 64.
Proof. unfold zigzag. case_bool; lia. Qed.

Lemma pb_encode_svarint_zigzag v s c :
  - 2 ^ 63 <= v < 2 ^ 63 -> pb_encode_svarint E v s c = pb_encode_varint E (zigzag v) s c.
Proof.
  intros Hv. unfold pb_encode_svarint, zigzag. f_equal; f_equal.
  unfold u64. rewrite Z.shiftl_mul_pow2 by lia. change (2 ^ 1) with 2.
  destruct (Z.ltb_spec v 0).
  - assert (Hm : v mod 2 ^ 64 = v + 2 ^ 64).
    { symmetry. apply Z.mod_unique_pos with (q := -1); lia. }
    rewrite Hm. unfold Z.lnot. div_lia.
  - rewrite (Z.mod_small v) by lia. rewrite Z.mod_small; lia.
Qed.

Lemma unzigzag v :
  - 2 ^ 63 <= v < 2 ^ 63 ->
  (if negb (Z.land (zigzag v) 1 =? 0) then s64 (Z.lnot (Z.shiftr (zigzag v) 1))
   else s64 (Z.shiftr (zigzag v) 1)) = v.
Proof.
  intros Hv. rewrite land_1, Z.shiftr_div_pow2 by lia. change (2 ^ 1) with 2.
  unfold zigzag, s64. destruct (Z.ltb_spec v 0).
  - destruct (Z.eqb_spec ((-2 * v - 1) mod 2) 0); [div_lia|]. simpl.
    replace (Z.lnot ((-2 * v - 1) / 2)) with v by (unfold Z.lnot; div_lia).
    by apply to_signed_small.
  - destruct (Z.eqb_spec ((2 * v) mod 2) 0); [|div_lia]. simpl.
    replace (2 * v / 2) with v by div_lia. by apply to_signed_small.
Qed.

(** Every [int64_t] survives the zigzag encoding of [pb_encode_svarint]
    and its decoding by [pb_decode_svarint]. *)
Lemma svarint_roundtrip v buf bufsize c :
  - 2 ^ 63 <= v < 2 ^ 63 -> 10 <= bufsize < 2 ^ 64 -> mapped (heap c) buf bufsize ->
  exists os c1 si,
    pb_encode_svarint E v (pb_ostream_from_buffer buf bufsize) c = Ret (true, os, c1)
    /\ 1 <= os_bytes_written os <= 10
    /\ pb_decode_svarint E (pb_istream_from_buffer buf (os_bytes_written os)) c1
       = Ret (Some v, si, c1)
    /\ is_bytes_left si = 0.
Proof.
  intros Hv Hsz Hm.
  destruct (varint_roundtrip_aux (zigzag v) buf bufsize c (zigzag_range v Hv) Hsz Hm)
    as (os & c1 & si & H1 & H2 & _ & H3 & H4).
  exists os, c1, si. pose proof (varint_length (zigzag v)).
  rewrite pb_encode_svarint_zigzag by done. split_and!; [done|lia|lia| |done].
  unfold pb_decode_svarint. erewrite bind_ret by exact H3. cbv beta iota.
  by rewrite unzigzag.
Qed.

(** ** Tags *)

Lemma wt_val_range w : 0 <= wt_val w < 8.
Proof. destruct w; simpl; lia. Qed.

Lemma tag_value w n :
  0 <= n < 2 ^ 29 ->
  Z.lor (u64 (Z.shiftl n 3)) (wt_val w) = wt_val w + n * 8.
Proof.
  intros Hn. pose proof (wt_val_range w).
  rewrite u64_small by (rewrite Z.shiftl_mul_pow2; lia).
  rewrite Z.lor_comm. by apply (lor_shiftl_add _ _ 3).
Qed.

(** The decoder of a tag, on the encoding of a tag. *)
Lemma pb_decode_tag_spec w n l' s c :
  0 < n < 2 ^ 29 -> is_ready s c (varint (wt_val w + n * 8) ++ l') ->
  pb_decode_tag E s c
  = Ret (mk_tag_result true (wt_val w) n false,
         is_took s (Z.of_nat (length (varint (wt_val w + n * 8)))), c).
Proof.
  intros Hn Hs. pose proof (wt_val_range w).
  assert (Hv : 0 <= wt_val w + n * 8 < 2 ^ 32) by lia.
  pose proof (pb_decode_varint32_value E _ _ _ _ Hv Hs) as Hd.
  unfold pb_decode_varint32 in Hd. unfold mbind, M_bind in Hd.
  unfold pb_decode_tag, mbind, M_bind.
  destruct (pb_decode_varint32_eof E _ _) as [[[[o e] s1] c2]| |] eqn:Ee; [|done|done].
  simpl in Hd. injection Hd as -> -> ->. simpl.
  pose proof (pb_decode_varint32_eof_no_eof E _ _ _ _ _ _ Ee) as ->.
  destruct (Z.eqb_spec (wt_val w + n * 8) 0); [lia|].
  unfold mret, M_ret. repeat f_equal.
  - rewrite land_7. div_lia.
  - rewrite Z.shiftr_div_pow2 by lia. div_lia.
Qed.

(** A field's wire type and number survive [pb_encode_tag] and
    [pb_decode_tag], which takes the tag for no end of stream. *)
Lemma tag_roundtrip w n buf bufsize c :
  0 < n < 2 ^ 29 -> 10 <= bufsize < 2 ^ 64 -> mapped (heap c) buf bufsize ->
  exists os c1 si,
    pb_encode_tag E w n (pb_ostream_from_buffer buf bufsize) c = Ret (true, os, c1)
    /\ 1 <= os_bytes_written os <= 10
    /\ pb_decode_tag E (pb_istream_from_buffer buf (os_bytes_written os)) c1
       = Ret (mk_tag_result true (wt_val w) n false, si, c1)
    /\ is_bytes_left si = 0.
Proof.
  intros Hn Hsz Hm. pose proof (wt_val_range w).
  assert (Hv : 0 <= wt_val w + n * 8 < 2 ^ 32) by lia.
  destruct (varint_roundtrip_aux (wt_val w + n * 8) buf bufsize c ltac:(lia) Hsz Hm)
    as (os & c1 & si & H1 & H2 & H3 & _ & _).
  pose proof (varint_length (wt_val w + n * 8)).
  exists os, c1, (is_took (pb_istream_from_buffer buf (os_bytes_written os)) (os_bytes_written os)).
  unfold pb_encode_tag. rewrite tag_value by lia. split_and!; [done|lia|lia| |simpl; lia].
  rewrite H2 in *. by apply (pb_decode_tag_spec w n []).
Qed.

(** ** Fixed-width integers *)

Lemma fixed32_bytes v :
  [u8 (Z.land v 0xFF); u8 (Z.land (Z.shiftr v 8) 0xFF); u8 (Z.land (Z.shiftr v 16) 0xFF);
   u8 (Z.land (Z.shiftr v 24) 0xFF)] = le_split 4 v.
Proof.
  cbn [le_split]. rewrite !land_FF, !Z.shiftr_div_pow2 by lia.
  rewrite !Z.div_div by lia. unfold u8. by rewrite !Zmod_mod.
Qed.

Lemma fixed64_bytes v :
  [u8 (Z.land v 0xFF); u8 (Z.land (Z.shiftr v 8) 0xFF); u8 (Z.land (Z.shiftr v 16) 0xFF);
   u8 (Z.land (Z.shiftr v 24) 0xFF); u8 (Z.land (Z.shiftr v 32) 0xFF);
   u8 (Z.land (Z.shiftr v 40) 0xFF); u8 (Z.land (Z.shiftr v 48) 0xFF);
   u8 (Z.land (Z.shiftr v 56) 0xFF)] = le_split 8 v.
Proof.
  cbn [le_split]. rewrite !land_FF, !Z.shiftr_div_pow2 by lia.
  rewrite !Z.div_div by lia. unfold u8. by rewrite !Zmod_mod.
Qed.

Ltac solve_bytes :=
  solve [done | unfold bytes; rewrite ?Forall_cons, ?Forall_nil; tauto].

(** Assembling little-endian bytes with shifts and ors. *)
Lemma lor_le_snoc l b n :
  bytes l -> n = 8 * Z.of_nat (length l) ->
  Z.lor (le_combine l) (Z.shiftl b n) = le_combine (l ++ [b]).
Proof.
  intros Hl ->. rewrite lor_shiftl_add; [|lia|by apply le_combine_range].
  rewrite le_combine_app. cbn [le_combine]. lia.
Qed.

Lemma fixed32_assemble b0 b1 b2 b3 :
  bytes [b0; b1; b2; b3] ->
  Z.lor (Z.lor (Z.lor b0 (Z.shiftl b1 8)) (Z.shiftl b2 16)) (Z.shiftl b3 24)
  = le_combine [b0; b1; b2; b3].
Proof.
  unfold bytes. rewrite !Forall_cons. intros (H0 & H1 & H2 & H3 & _).
  replace b0 with (le_combine [b0]) at 1 by (simpl; lia).
  rewrite (lor_le_snoc [b0] b1 8) by solve_bytes.
  cbn [app]. rewrite (lor_le_snoc [b0; b1] b2 16) by solve_bytes.
  cbn [app]. by rewrite (lor_le_snoc [b0; b1; b2] b3 24) by solve_bytes.
Qed.

Lemma fixed64_assemble b0 b1 b2 b3 b4 b5 b6 b7 :
  bytes [b0; b1; b2; b3; b4; b5; b6; b7] ->
  Z.lor (Z.lor (Z.lor (Z.lor (Z.lor (Z.lor (Z.lor b0 (Z.shiftl b1 8))
    (Z.shiftl b2 16)) (Z.shiftl b3 24)) (Z.shiftl b4 32)) (Z.shiftl b5 40))
    (Z.shiftl b6 48)) (Z.shiftl b7 56)
  = le_combine [b0; b1; b2; b3; b4; b5; b6; b7].
Proof.
  intros H. assert (H4 : bytes [b0; b1; b2; b3]).
  { unfold bytes in *. rewrite !Forall_cons in *. tauto. }
  rewrite (fixed32_assemble _ _ _ _ H4).
  unfold bytes in H. rewrite !Forall_cons in H.
  destruct H as (? & ? & ? & ? & ? & ? & ? & ? & _).
  rewrite (lor_le_snoc [b0; b1; b2; b3] b4 32) by solve_bytes.
  cbn [app]. rewrite (lor_le_snoc [b0; b1; b2; b3; b4] b5 40) by solve_bytes.
  cbn [app]. rewrite (lor_le_snoc [b0; b1; b2; b3; b4; b5] b6 48) by solve_bytes.
  cbn [app].
  by rewrite (lor_le_snoc [b0; b1; b2; b3; b4; b5; b6] b7 56) by solve_bytes.
Qed.

Lemma load_bytes {St} n a l (s : St) c :
  read_bytes (heap c) a n = Some l -> load n a s c = Ret (le_combine l, s, c).
Proof. intros H. unfold load, read_mem, mbind, M_bind. by rewrite H. Qed.

Lemma store_bytes {St} a l (s : St) c :
  bytes l -> mapped (heap c) a (Z.of_nat (length l)) ->
  exists h, store (length l) a (le_combine l) s c = Ret (tt, s, set_heap c h)
            /\ read_bytes h a (length l) = Some l.
Proof.
  intros Hl Hm. destruct (write_bytes_mapped (heap c) a l Hm) as [h Hh]. exists h.
  unfold store, write_mem. rewrite le_split_combine by done. rewrite Hh.
  split; [done|]. by apply (read_write_bytes (heap c)).
Qed.

Lemma mapped_write h a l h' b n :
  write_bytes h a l = Some h' -> mapped h b n -> mapped h' b n.
Proof. intros Hw Hm x Hx. apply (write_bytes_dom _ _ _ _ x Hw). by apply Hm. Qed.

(** A 4- or 8-byte block written and read back through the streams. *)
Lemma write_then_read l buf bufsize dest c :
  bytes l -> (0 < length l)%nat -> Z.of_nat (length l) <= bufsize < 2 ^ 64 ->
  mapped (heap c) buf bufsize -> mapped (heap c) dest (Z.of_nat (length l)) ->
  exists c1 si,
    pb_write E (Local l) (Z.of_nat (length l)) (pb_ostream_from_buffer buf bufsize) c
    = Ret (true, os_wrote (pb_ostream_from_buffer buf bufsize) (Z.of_nat (length l)), c1)
    /\ mapped (heap c1) dest (Z.of_nat (length l))
    /\ pb_read E RLocal (Z.of_nat (length l)) (pb_istream_from_buffer buf (Z.of_nat (length l))) c1
       = Ret ((true, l), si, c1)
    /\ is_bytes_left si = 0.
Proof.
  intros Hl Hne Hsz Hm Hd.
  destruct (pb_write_local E l (pb_ostream_from_buffer buf bufsize) c Hl Hne) as (h & Hw & Heq).
  { apply os_room_buffer; [lia|lia|done]. }
  eexists (set_heap c h), _. split_and!; [exact Heq|by eapply mapped_write| |].
  - apply (pb_read_local E l []); [|done]. rewrite app_nil_r. repeat split; simpl; try lia.
    by apply read_write_bytes in Hw.
  - simpl. lia.
Qed.

(** [pb_encode_fixed32] and [pb_decode_fixed32] carry any 4-byte object
    through a buffer unchanged: the bytes at [dest] after decoding are those at
    [src] before encoding, and the encoding takes 4 bytes, all consumed. *)
Lemma fixed32_roundtrip src dest l buf bufsize c :
  read_bytes (heap c) src 4 = Some l -> bytes l -> 4 <= bufsize < 2 ^ 64 ->
  mapped (heap c) buf bufsize -> mapped (heap c) dest 4 ->
  exists os c1 si c2,
    pb_encode_fixed32 E src (pb_ostream_from_buffer buf bufsize) c = Ret (true, os, c1)
    /\ os_bytes_written os = 4
    /\ pb_decode_fixed32 E dest (pb_istream_from_buffer buf 4) c1 = Ret (true, si, c2)
    /\ is_bytes_left si = 0 /\ read_bytes (heap c2) dest 4 = Some l.
Proof.
  intros Hsrc Hl Hsz Hm Hd. pose proof (read_bytes_length _ _ _ _ Hsrc) as Hlen.
  destruct (write_then_read l buf bufsize dest c) as (c1 & si & Hw & Hd1 & Hr & Hleft);
    rewrite ?Hlen; try (done || lia).
  rewrite Hlen in *. change (Z.of_nat 4) with 4 in *.
  destruct (store_bytes dest l si c1 Hl) as (h & Hst & Hread); [by rewrite Hlen|].
  rewrite Hlen in *.
  exists (os_wrote (pb_ostream_from_buffer buf bufsize) 4), c1, si, (set_heap c1 h). split_and!; [|reflexivity| |done|done].
  - unfold pb_encode_fixed32. erewrite bind_ret by (by apply load_bytes). cbv beta.
    rewrite fixed32_bytes, <-Hlen, le_split_combine by done. exact Hw.
  - unfold pb_decode_fixed32. erewrite bind_ret by exact Hr. cbn [negb fst snd].
    destruct l as [|b0 [|b1 [|b2 [|b3 [|]]]]]; try done.
    rewrite fixed32_assemble by done. by erewrite bind_ret by exact Hst.
Qed.

(** The same for 8-byte objects, [pb_encode_fixed64] and
    [pb_decode_fixed64]. *)
Lemma fixed64_roundtrip src dest l buf bufsize c :
  read_bytes (heap c) src 8 = Some l -> bytes l -> 8 <= bufsize < 2 ^ 64 ->
  mapped (heap c) buf bufsize -> mapped (heap c) dest 8 ->
  exists os c1 si c2,
    pb_encode_fixed64 E src (pb_ostream_from_buffer buf bufsize) c = Ret (true, os, c1)
    /\ os_bytes_written os = 8
    /\ pb_decode_fixed64 E dest (pb_istream_from_buffer buf 8) c1 = Ret (true, si, c2)
    /\ is_bytes_left si = 0 /\ read_bytes (heap c2) dest 8 = Some l.
Proof.
  intros Hsrc Hl Hsz Hm Hd. pose proof (read_bytes_length _ _ _ _ Hsrc) as Hlen.
  destruct (write_then_read l buf bufsize dest c) as (c1 & si & Hw & Hd1 & Hr & Hleft);
    rewrite ?Hlen; try (done || lia).
  rewrite Hlen in *. change (Z.of_nat 8) with 8 in *.
  destruct (store_bytes dest l si c1 Hl) as (h & Hst & Hread); [by rewrite Hlen|].
  rewrite Hlen in *.
  exists (os_wrote (pb_ostream_from_buffer buf bufsize) 8), c1, si, (set_heap c1 h). split_and!; [|reflexivity| |done|done].
  - unfold pb_encode_fixed64. erewrite bind_ret by (by apply load_bytes). cbv beta.
    rewrite fixed64_bytes, <-Hlen, le_split_combine by done. exact Hw.
  - unfold pb_decode_fixed64. erewrite bind_ret by exact Hr. cbn [negb fst snd].
    destruct l as [|b0 [|b1 [|b2 [|b3 [|b4 [|b5 [|b6 [|b7 [|]]]]]]]]]; try done.
    rewrite fixed64_assemble by done. by erewrite bind_ret by exact Hst.
Qed.
End Roundtrip.

(** ** The round trips at concrete values *)

Lemma ex_buf_mapped : mapped (heap ex_mem) ex_buf 64.
Proof. apply (bool_decide_unpack _). by vm_compute. Qed.

Lemma varint_roundtrip_witness :
  exists os c1 si,
    pb_encode_varint ex_env (2 ^ 64 - 1) (pb_ostream_from_buffer ex_buf 64) ex_mem
    = Ret (true, os, c1)
    /\ 1 <= os_bytes_written os <= 10
    /\ pb_decode_varint ex_env (pb_istream_from_buffer ex_buf (os_bytes_written os)) c1
       = Ret (Some (2 ^ 64 - 1), si, c1)
    /\ is_bytes_left si = 0.
Proof. apply (varint_roundtrip ex_env (2 ^ 64 - 1) ex_buf 64 ex_mem); [lia|lia|exact ex_buf_mapped]. Defined.

