(* ===== verification/PbEncodeSafe.v ===== *)
(** * nanopb: the encoder stays inside its output buffer

    Whatever the message, the descriptors and the memory hold, an encoder that
    returns has advanced its stream by the bytes it wrote, no further than
    [max_size], and has changed no memory but those bytes; on a sizing stream it
    changes no memory at all.

    The only assumption on sizes is that no message in memory takes 2^63 bytes:
    [pb_encode_submessage] adds the size of the submessage to [bytes_written]
    without the overflow test that [pb_write] makes. *)
From S2P Require Export PbWire.

(** ** Computations that read *)

(** [m] leaves the object and the machine alone. *)
Definition Pure {St A} (m : M St A) : Prop :=
  forall s c, wp m (fun _ s' c' => s' = s /\ c' = c) s c.

Create HintDb enc_safe.

Lemma Pure_ret {St A} (a : A) : @Pure St A (mret a).
Proof. intros s c. by apply wp_ret. Qed.
Lemma Pure_undef {St A} : @Pure St A undef.
Proof. intros s c. apply wp_undef. Qed.
Lemma Pure_nofuel {St A} : @Pure St A nofuel.
Proof. intros s c. apply wp_nofuel. Qed.
Lemma Pure_of_option {St A} (o : option A) : @Pure St A (of_option o).
Proof. destruct o; [apply Pure_ret|apply Pure_undef]. Qed.
Lemma Pure_bind {St A B} (m : M St A) (k : A -> M St B) :
  Pure m -> (forall a, Pure (k a)) -> Pure (m ≫= k).
Proof.
  intros Hm Hk s c. apply wp_bind. eapply wp_mono; [|apply Hm].
  intros a s' c' [-> ->]. apply Hk.
Qed.
Lemma Pure_read_mem {St} a n : @Pure St _ (read_mem a n).
Proof. intros s c. by apply wp_read_mem. Qed.
Lemma Pure_load {St} n a : @Pure St _ (load n a).
Proof. intros s c. by apply wp_load. Qed.
Lemma Pure_load_ptr {St} a : @Pure St _ (load_ptr a).
Proof. apply Pure_load. Qed.
#[export] Hint Resolve Pure_ret Pure_undef Pure_nofuel Pure_of_option Pure_load Pure_load_ptr
  Pure_read_mem : enc_safe.

Ltac pure :=
  repeat first
    [ match goal with |- forall _, _ => intro end
    | solve [auto with enc_safe nocore]
    | lazymatch goal with |- Pure (_ ≫= _) => apply Pure_bind end
    | progress cbv beta zeta
    | case_match ].

Lemma Pure_cbuf_get {St} buf i : @Pure St _ (cbuf_get buf i).
Proof. unfold cbuf_get. pure. Qed.
Lemma Pure_safe_read_bool {St} p : @Pure St _ (safe_read_bool p).
Proof. unfold safe_read_bool. pure. Qed.
Lemma Pure_strnlen_loop {St} n p sz mx : @Pure St _ (strnlen_loop n p sz mx).
Proof. revert p sz. induction n; simpl; pure. Qed.
Lemma Pure_strnlen {St} p mx : @Pure St _ (strnlen p mx).
Proof. intros s c. apply (Pure_strnlen_loop (size (heap c))). Qed.
Lemma Pure_all_zero_loop {St} n p : @Pure St _ (all_zero_loop n p).
Proof. revert p. induction n; simpl; pure. Qed.
Lemma Pure_varint_loop {St} n v : @Pure St _ (varint_loop n v).
Proof. revert v. induction n; simpl; pure. Qed.
#[export] Hint Resolve Pure_cbuf_get Pure_safe_read_bool Pure_strnlen Pure_all_zero_loop
  Pure_varint_loop : enc_safe.

Lemma Pure_iter_do_while {St} E n (body : pb_field_iter_t -> M St bool) it :
  (forall it, Pure (body it)) -> Pure (iter_do_while E n body it).
Proof. intros Hb. revert it. induction n; simpl; pure. Qed.

Lemma Pure_check_proto3 {St} E n f p : @Pure St _ (pb_check_proto3_default_value E n f p).
Proof.
  revert f p. induction n as [|n IH]; intros f p; cbn [pb_check_proto3_default_value]; pure.
  all: apply Pure_iter_do_while; pure.
Qed.
#[export] Hint Resolve Pure_check_proto3 : enc_safe.

(** ** Ranges of what is read *)

(** Memory holds bytes. *)
Definition bytes_heap (c : cstate) : Prop := forall a b, heap c !! a = Some b -> is_byte b.

Lemma read_bytes_bytes c a n l : bytes_heap c -> read_bytes (heap c) a n = Some l -> bytes l.
Proof.
  intros Hc. revert a l. induction n as [|n IH]; intros a l; simpl; [by intros [= <-]; constructor|].
  destruct (heap c !! a) eqn:Ea; [|done].
  destruct (read_bytes _ _ _) eqn:Er; [|done]. intros [= <-].
  constructor; [by eapply Hc|by eapply IH].
Qed.

Lemma load_range {St} n a (s : St) c :
  bytes_heap c -> wp (load n a) (fun v _ _ => 0 <= v < 2 ^ (8 * Z.of_nat n)) s c.
Proof.
  intros Hc. apply wp_load. intros l Hl. rewrite <-(read_bytes_length _ _ _ _ Hl).
  by apply le_combine_range, (read_bytes_bytes c a n).
Qed.

Lemma bytes_heap_write c a l h :
  bytes_heap c -> bytes l -> write_bytes (heap c) a l = Some h -> bytes_heap (set_heap c h).
Proof.
  intros Hc Hl. revert c a Hc. induction Hl as [|b l Hb Hl IH]; intros c a Hc; simpl.
  - by intros [= <-].
  - destruct (heap c !! a) eqn:Ea; [|done].
    intros Hw. apply (IH (set_heap c (<[a := b]> (heap c))) (a + 1)); [|done].
    intros a' b'. simpl. rewrite lookup_insert. case_decide; [by intros [= <-]|apply Hc].
Qed.

Lemma strnlen_range {St} p mx (s : St) c :
  0 <= mx -> wp (strnlen p mx) (fun n _ _ => 0 <= n <= mx) s c.
Proof.
  intros Hmx. unfold strnlen.
  assert (H : forall fuel q sz, 0 <= sz <= mx ->
            wp (strnlen_loop fuel q sz mx) (fun n _ _ => 0 <= n <= mx) s c).
  { induction fuel as [|fuel IH]; intros q sz Hsz; cbn [strnlen_loop];
      destruct (Z.ltb_spec sz mx); try (apply wp_ret; lia); [apply wp_undef|].
    apply wp_bind. eapply wp_mono; [|apply (Pure_load 1 q)]. intros b s' c' [-> ->].
    destruct (b =? 0); [apply wp_ret; lia|apply IH; lia]. }
  intros n s' c' Hn. exact (H (size (heap c)) p 0 ltac:(lia) n s' c' Hn).
Qed.

Lemma varint_loop_length {St} n : forall v (s : St) c,
  wp (varint_loop n v) (fun l _ _ => (length l <= n)%nat) s c.
Proof.
  induction n as [|n IH]; intros v s c; cbn [varint_loop];
    (destruct (v =? 0); [apply wp_ret; simpl; lia|]); [apply wp_undef|].
  apply wp_bind. eapply wp_mono; [|apply IH]. intros l s' c' Hl. apply wp_ret.
  cbv beta in Hl. simpl. lia.
Qed.

(** The members of a descriptor are values of their C types. *)
Record field_typed (f : pb_field_t) : Prop := {
  ft_tag : 0 <= tag f < 2 ^ 32;
  ft_type : 0 <= type f < 2 ^ 8;
  ft_data_offset : 0 <= data_offset f < 2 ^ 32;
  ft_size_offset : - 2 ^ 31 <= size_offset f < 2 ^ 31;
  ft_data_size : 0 <= data_size f < 2 ^ 32;
  ft_array_size : 0 <= array_size f < 2 ^ 32;
}.

#[global] Instance field_typed_dec f : Decision (field_typed f).
Proof.
  refine (cast_if (decide (0 <= tag f < 2 ^ 32 /\ 0 <= type f < 2 ^ 8
    /\ 0 <= data_offset f < 2 ^ 32 /\ - 2 ^ 31 <= size_offset f < 2 ^ 31
    /\ 0 <= data_size f < 2 ^ 32 /\ 0 <= array_size f < 2 ^ 32)));
    [abstract (split; tauto)|abstract (intros []; tauto)].
Defined.

Definition env_typed (E : pb_env) : Prop :=
  forall a fs f, env_fields E !! a = Some fs -> f ∈ fs -> field_typed f.

Lemma field_at_typed E a i f : env_typed E -> field_at E a i = Some f -> field_typed f.
Proof.
  unfold field_at. intros HE H. apply bind_Some in H as (fs & Hfs & Hf).
  eapply HE; [done|]. by eapply list_elem_of_lookup_2.
Qed.

(** ** Memory that changes in one range only *)

Record mem_step (lo hi : Z) (c c' : cstate) : Prop := {
  ms_bytes : bytes_heap c -> bytes_heap c';
  ms_rest : c' = set_heap c (heap c');
  ms_frame : forall a, ~ (lo <= a < hi) -> heap c' !! a = heap c !! a;
  ms_dom : forall a, is_Some (heap c' !! a) <-> is_Some (heap c !! a);
}.

Lemma mem_step_refl lo hi c : mem_step lo hi c c.
Proof. split; [done|by destruct c|done|done]. Qed.

Lemma mem_step_trans lo1 hi1 lo2 hi2 lo hi c1 c2 c3 :
  lo <= lo1 -> hi1 <= hi -> lo <= lo2 -> hi2 <= hi ->
  mem_step lo1 hi1 c1 c2 -> mem_step lo2 hi2 c2 c3 -> mem_step lo hi c1 c3.
Proof.
  intros ???? [B1 R1 F1 D1] [B2 R2 F2 D2]. split.
  - auto.
  - rewrite R2, R1. done.
  - intros a Ha. rewrite F2, F1; [done|lia|lia].
  - intros a. by rewrite D2, D1.
Qed.

Lemma mem_step_store lo hi a l c h :
  write_bytes (heap c) a l = Some h -> bytes l ->
  lo <= a -> a + Z.of_nat (length l) <= hi ->
  mem_step lo hi c (set_heap c h).
Proof.
  intros Hw Hl ??. split; [intros; by eapply bytes_heap_write|done| |]; simpl.
  - intros b Hb. apply (write_bytes_outside _ _ _ _ b Hw). lia.
  - intros b. by apply (write_bytes_dom _ _ _ _ b Hw).
Qed.

Lemma copy_loop_step dest buf n : forall {St} i (s : St) c,
  wp (copy_loop dest buf i n)
     (fun _ s' c' => s' = s /\ mem_step dest (dest + Z.of_nat (i + n)) c c') s c.
Proof.
  induction n as [|n IH]; intros St i s c; cbn [copy_loop].
  - apply wp_ret. split; [done|apply mem_step_refl].
  - apply wp_bind. eapply wp_mono; [|apply Pure_cbuf_get]. intros b s' c' [-> ->].
    apply wp_bind. unfold store. apply wp_write_mem. intros h Hh.
    eapply wp_mono; [|apply IH]. intros u s' c' [-> Hstep]. split; [done|].
    pose proof (mem_step_store dest (dest + Z.of_nat (i + S n)) _ _ _ _ Hh) as H1.
    rewrite length_le_split in H1.
    eapply mem_step_trans; [| | | |apply H1|exact Hstep]; auto with cint; lia.
Qed.

(** ** Encoding steps

    [c0] is the memory when encoding begins and [lo, hi) the output buffer. *)
Section Safety.
Context (E : pb_env) (c0 : cstate) (lo hi : Z).

(** A stream that writes into the rest of the buffer, or a sizing stream. *)
Definition enc_ok (s : pb_ostream_t) : Prop :=
  match os_callback s with
  | OC_NULL => 0 <= os_bytes_written s < 2 ^ 64
  | OC_buf_write =>
    0 <= os_bytes_written s <= os_max_size s /\ os_max_size s <= 2 ^ 63
    /\ lo <= os_state s /\ os_state s + (os_max_size s - os_bytes_written s) <= hi
  | OC_user _ => False
  end.

(** One stretch of encoding. *)
Definition estep (s : pb_ostream_t) (c : cstate) (s' : pb_ostream_t) (c' : cstate) : Prop :=
  os_callback s' = os_callback s /\ os_max_size s' = os_max_size s
  /\ match os_callback s with
     | OC_NULL => c' = c /\ 0 <= os_bytes_written s' < 2 ^ 64
     | _ =>
       exists d, 0 <= d /\ os_bytes_written s' = os_bytes_written s + d
         /\ os_bytes_written s' <= os_max_size s
         /\ os_state s' = os_state s + d
         /\ mem_step (os_state s) (os_state s + d) c c'
     end.

Lemma estep_refl s c : enc_ok s -> estep s c s c.
Proof.
  intros Hs. split_and!; [done|done|]. unfold enc_ok in Hs.
  destruct (os_callback s); [done| |done].
  exists 0. split_and!; [lia|lia|lia|lia|apply mem_step_refl].
Qed.

Lemma estep_ok s c s' c' : enc_ok s -> estep s c s' c' -> enc_ok s'.
Proof.
  unfold enc_ok, estep. intros Hs (-> & -> & H).
  destruct (os_callback s); [tauto| |done]. destruct H as (d & H). lia.
Qed.

Lemma estep_trans s1 c1 s2 c2 s3 c3 :
  estep s1 c1 s2 c2 -> estep s2 c2 s3 c3 -> estep s1 c1 s3 c3.
Proof.
  unfold estep. intros (Hc1 & Hm1 & H1) (Hc2 & Hm2 & H2).
  split_and!; [congruence|congruence|].
  rewrite Hc1 in H2. destruct (os_callback s1); [destruct H1 as [-> _]; tauto| |].
  all: destruct H1 as (d1 & ? & ? & ? & ? & M1), H2 as (d2 & ? & ? & ? & ? & M2);
    exists (d1 + d2); split_and!; [lia|lia|lia|lia|];
    (eapply mem_step_trans; [| | | |exact M1|exact M2]; lia).
Qed.

(** The memory a stretch of encoding may find. *)
Definition reach (c : cstate) : Prop := mem_step lo hi c0 c /\ bytes_heap c.

Lemma estep_reach s c s' c' : enc_ok s -> reach c -> estep s c s' c' -> reach c'.
Proof.
  unfold enc_ok, estep, reach. intros Hs [Hc Hb] (_ & _ & H).
  destruct (os_callback s); [by destruct H as [-> _]| |done].
  destruct H as (d & ? & ? & ? & ? & M). split; [|by apply (ms_bytes _ _ _ _ M)].
  eapply mem_step_trans; [| | | |exact Hc|exact M]; lia.
Qed.

(** [m] only takes encoding steps. *)
Definition Safe {A} (m : M pb_ostream_t A) : Prop :=
  forall s c, enc_ok s -> reach c -> wp m (fun _ s' c' => estep s c s' c') s c.

Lemma Safe_Pure {A} (m : M pb_ostream_t A) : Pure m -> Safe m.
Proof.
  intros Hm s c Hs Hc. eapply wp_mono; [|apply Hm].
  intros a s' c' [-> ->]. by apply estep_refl.
Qed.

Lemma Safe_bind {A B} (m : M pb_ostream_t A) (k : A -> M pb_ostream_t B) :
  Safe m -> (forall a, Safe (k a)) -> Safe (m ≫= k).
Proof.
  intros Hm Hk s c Hs Hc. apply wp_bind. eapply wp_mono; [|by apply Hm].
  intros a s' c' H1. pose proof (estep_ok _ _ _ _ Hs H1) as Hs'.
  pose proof (estep_reach _ _ _ _ Hs Hc H1) as Hc'.
  eapply wp_mono; [|by apply Hk]. intros b s'' c'' H2.
  exact (estep_trans _ _ _ _ _ _ H1 H2).
Qed.

Lemma Safe_error msg : Safe (os_return_error msg).
Proof.
  intros s c Hs Hc. unfold os_return_error. apply wp_bind, wp_get, wp_bind, wp_put, wp_ret.
  exact (estep_refl s c Hs).
Qed.

(** A value known to be in range may be used with that knowledge. *)
Lemma Safe_bind_pure {A B} (m : M pb_ostream_t A) (k : A -> M pb_ostream_t B) (P : A -> Prop) :
  Pure m -> (forall s c, bytes_heap c -> wp m (fun a _ _ => P a) s c) ->
  (forall a, P a -> Safe (k a)) -> Safe (m ≫= k).
Proof.
  intros Hm HP Hk s c Hs Hc. apply wp_bind. intros a s' c' Ha.
  pose proof (HP _ _ (proj2 Hc) _ _ _ Ha) as Hpa. destruct (Hm _ _ _ _ _ Ha) as [-> ->].
  by apply Hk.
Qed.

Lemma Safe_bind_load {B} n a (k : Z -> M pb_ostream_t B) :
  (forall v, 0 <= v < 2 ^ (8 * Z.of_nat n) -> Safe (k v)) -> Safe (load n a ≫= k).
Proof.
  apply Safe_bind_pure; [apply Pure_load|]. intros s c Hc. by apply load_range.
Qed.

Lemma enc_ok_sizing : enc_ok PB_OSTREAM_SIZING.
Proof. unfold enc_ok. simpl. lia. Qed.

(** A nested sizing run changes nothing; its count is a [size_t]. *)
Lemma Safe_bind_sizing {A B} (m : M pb_ostream_t A) (k : A * pb_ostream_t -> M pb_ostream_t B) :
  Safe m -> (forall r, 0 <= os_bytes_written r.2 < 2 ^ 64 -> Safe (k r)) ->
  Safe (run_with PB_OSTREAM_SIZING m ≫= k).
Proof.
  intros Hm Hk s c Hs Hc. apply wp_bind, wp_run_with.
  eapply wp_mono; [|apply (Hm _ _ enc_ok_sizing Hc)].
  intros a s' c' (_ & _ & H). simpl in H. destruct H as [-> H]. by apply Hk.
Qed.

Lemma Safe_bind_same {A B} (m : M pb_ostream_t A) (k : A -> M pb_ostream_t B) (P : A -> Prop) :
  (forall s c, enc_ok s -> reach c -> wp m (fun a s' c' => s' = s /\ c' = c /\ P a) s c) ->
  (forall a, P a -> Safe (k a)) -> Safe (m ≫= k).
Proof.
  intros Hm Hk s c Hs Hc. apply wp_bind. eapply wp_mono; [|by apply Hm].
  intros a s' c' (-> & -> & Hp). by apply Hk.
Qed.

Lemma Safe_of_option {A B} (o : option A) (k : A -> M pb_ostream_t B) :
  (forall a, o = Some a -> Safe (k a)) -> Safe (of_option o ≫= k).
Proof.
  intros Hk s c Hs Hc. apply wp_bind, wp_of_option. intros a Ha. by apply Hk.
Qed.

Ltac safe :=
  repeat first
    [ match goal with |- forall _, _ => intro end
    | solve [auto with enc_safe nocore]
    | lazymatch goal with |- Safe (_ ≫= _) => apply Safe_bind end
    | progress cbv beta zeta
    | case_match
    | solve [apply Safe_Pure; pure] ].

#[local] Hint Resolve Safe_Pure Safe_error : enc_safe.

Lemma Safe_pb_write buf n : 0 <= n < 2 ^ 64 -> Safe (pb_write E buf n).
Proof.
  intros Hn s c Hs Hc. unfold pb_write. apply wp_bind, wp_get.
  pose proof (estep_refl s c Hs) as Hrefl. unfold enc_ok in Hs.
  destruct (os_callback s) eqn:Hcb; [| |done].
  - rewrite bool_decide_eq_true_2, andb_false_r by done.
    apply wp_bind, wp_put, wp_ret. unfold estep. rewrite Hcb.
    do 3 (split; [done|]). apply u64_range.
  - rewrite bool_decide_eq_false_2, andb_true_r by done.
    destruct (Z.ltb_spec 0 n) as [Hpos|].
    2:{ apply wp_bind, wp_put, wp_ret. assert (n = 0) as -> by lia.
        unfold estep, os_advance in *. simpl. rewrite Z.add_0_r, u64_small by lia.
        exact Hrefl. }
    destruct ((_ <? _) || _) eqn:Hfull.
    { apply wp_bind, wp_get, wp_bind, wp_put, wp_ret. exact Hrefl. }
    apply orb_false_iff in Hfull as [H1 H2].
    apply Z.ltb_ge in H1. apply Z.ltb_ge in H2.
    assert (Hfit : os_bytes_written s + n < 2 ^ 64) by (unfold u64 in H1; div_lia).
    rewrite u64_small in H2 by lia.
    cbn [ocallback_call]. apply wp_bind. unfold buf_write.
    apply wp_bind, wp_get, wp_bind, wp_put, wp_bind.
    eapply wp_mono; [|apply copy_loop_step]. intros u s1 c1 [-> Hstep].
    apply wp_ret. simpl. apply wp_bind, wp_get, wp_bind, wp_put, wp_ret.
    unfold estep, os_advance. simpl. rewrite Hcb, u64_small by lia.
    split_and!; [done|done|]. exists n. split_and!; [lia|lia|lia|lia|].
    rewrite Nat.add_0_l, Z2Nat.id in Hstep by lia. done.
Qed.

Lemma Safe_pb_encode_varint v : Safe (pb_encode_varint E v).
Proof.
  unfold pb_encode_varint. destruct (v <=? 0x7F); [apply Safe_pb_write; lia|].
  intros s c Hs Hc. apply wp_bind.
  intros l s' c' Hl.
  pose proof (varint_loop_length 10 v s c l s' c' Hl) as Hlen.
  destruct (Pure_varint_loop 10 v s c l s' c' Hl) as [-> ->].
  apply Safe_pb_write; [lia|done|done].
Qed.
#[local] Hint Resolve Safe_pb_encode_varint : enc_safe.

Lemma Safe_svarint v : Safe (pb_encode_svarint E v).
Proof. unfold pb_encode_svarint. safe. Qed.
Lemma Safe_fixed32 p : Safe (pb_encode_fixed32 E p).
Proof. unfold pb_encode_fixed32. safe. apply Safe_pb_write. lia. Qed.
Lemma Safe_fixed64 p : Safe (pb_encode_fixed64 E p).
Proof. unfold pb_encode_fixed64. safe. apply Safe_pb_write. lia. Qed.
Lemma Safe_tag w n : Safe (pb_encode_tag E w n).
Proof. unfold pb_encode_tag. safe. Qed.
#[local] Hint Resolve Safe_svarint Safe_fixed32 Safe_fixed64 Safe_tag : enc_safe.
Lemma Safe_tag_for_field f : Safe (pb_encode_tag_for_field E f).
Proof. unfold pb_encode_tag_for_field. safe. Qed.
Lemma Safe_string buf n : 0 <= n < 2 ^ 64 -> Safe (pb_encode_string E buf n).
Proof. intros. unfold pb_encode_string. safe. by apply Safe_pb_write. Qed.
#[local] Hint Resolve Safe_tag_for_field : enc_safe.

Lemma Safe_enc_bool f p : Safe (pb_enc_bool E f p).
Proof. unfold pb_enc_bool. safe. Qed.
Lemma Safe_enc_varint f p : Safe (pb_enc_varint E f p).
Proof. unfold pb_enc_varint. safe. Qed.
Lemma Safe_enc_uvarint f p : Safe (pb_enc_uvarint E f p).
Proof. unfold pb_enc_uvarint. safe. Qed.
Lemma Safe_enc_svarint f p : Safe (pb_enc_svarint E f p).
Proof. unfold pb_enc_svarint. safe. Qed.

Lemma Safe_enc_fixed32 f p : Safe (pb_enc_fixed32 E f p).
Proof. apply Safe_fixed32. Qed.
Lemma Safe_enc_fixed64 f p : Safe (pb_enc_fixed64 E f p).
Proof. apply Safe_fixed64. Qed.

Lemma Safe_enc_bytes f p : Safe (pb_enc_bytes E f p).
Proof.
  unfold pb_enc_bytes. destruct (p =? 0); [apply Safe_string; lia|].
  apply Safe_bind_load. intros v Hv. case_match; [safe|apply Safe_string].
  unfold sizeof_pb_size_t in Hv. lia.
Qed.

Lemma Safe_enc_string f p : field_typed f -> Safe (pb_enc_string E f p).
Proof.
  intros Hf. unfold pb_enc_string. pose proof (ft_data_size _ Hf).
  eapply Safe_bind_pure with (P := fun n => 0 <= n < 2 ^ 64).
  - pure.
  - intros s c _. case_match; [apply wp_ret; lia|].
    eapply wp_mono; [|apply strnlen_range].
    + intros n s' c'. cbv beta. case_match; lia.
    + case_match; lia.
  - intros n Hn. by apply Safe_string.
Qed.

Lemma Safe_enc_fixed_length_bytes f p : field_typed f -> Safe (pb_enc_fixed_length_bytes E f p).
Proof. intros Hf. apply Safe_string. pose proof (ft_data_size _ Hf). lia. Qed.

Lemma Safe_array_loop n body p step :
  (forall q, Safe (body q)) -> Safe (array_loop n body p step).
Proof. intros Hb. revert p. induction n; simpl; safe. Qed.

Lemma Safe_call_encoder func f p :
  (forall g, func = Some g -> Safe (g f p)) -> Safe (call_encoder func f p).
Proof. intros Hg. unfold call_encoder. destruct func; [auto|safe]. Qed.

Lemma Safe_encode_array f p count func :
  (forall q, Safe (call_encoder func f q)) -> Safe (encode_array E f p count func).
Proof.
  intros Hf. unfold encode_array.
  destruct (count =? 0); [safe|]. destruct (negb _ && _); [safe|].
  destruct (_ <=? _); [|apply Safe_array_loop; safe].
  apply Safe_bind; [safe|]. intros ok. destruct ok; [|safe].
  eapply Safe_bind_same with
    (P := fun o => match o with Some z => 0 <= z < 2 ^ 64 | None => True end).
  - intros s c Hs Hc. case_match; [apply wp_ret; auto with cint|].
    case_match; [apply wp_ret; auto with cint|].
    apply wp_bind, wp_run_with.
    eapply wp_mono; [|apply (Safe_array_loop _ _ _ _ Hf _ _ enc_ok_sizing Hc)].
    intros b s' c' (_ & _ & Hz). simpl in Hz. destruct Hz as [-> Hz]. apply wp_ret.
    do 2 (split; [done|]). by destruct b.
  - intros [z|] Hz; [|safe]. apply Safe_bind; [safe|]. intros ok. destruct ok; [|safe].
    apply Safe_bind; [apply Safe_Pure; intros s c; by apply wp_get|]. intros s.
    case_match; [by apply Safe_pb_write|by apply Safe_array_loop].
Qed.

Section Rec.
Context (fuel : nat) (rec : Z -> Z -> M pb_ostream_t bool).
Context (HE : env_typed E).
Context (Hrec : forall fields src, Safe (rec fields src)).
Context (Hsize : forall fields src c b s' c',
  reach c -> rec fields src PB_OSTREAM_SIZING c = Ret (b, s', c') ->
  os_bytes_written s' < 2 ^ 63).
Context (Hfield : forall fn f p, Safe (env_field_encode E fn f p)).
Context (Hext : forall fn p, Safe (env_ext_encode E fn p)).

(** The stream of the writing pass over a submessage of [size] bytes. *)
Lemma Safe_substream fields src s c size :
  enc_ok s -> reach c -> os_callback s = OC_buf_write -> 0 <= size ->
  os_bytes_written s + size <= os_max_size s ->
  wp (q ← run_with (mk_ostream (os_callback s) (os_state s) size 0 None) (rec fields src);
      _ ← put (mk_ostream (os_callback s) (os_state q.2) (os_max_size s)
                 (u64 (os_bytes_written s + os_bytes_written q.2)) (os_errmsg q.2));
      if negb (os_bytes_written q.2 =? size)
      then os_return_error "submsg size changed"
      else mret q.1) (fun _ s' c' => estep s c s' c') s c.
Proof.
  intros Hs Hc Hcb Hsz Hfit. unfold enc_ok in Hs. rewrite Hcb in Hs.
  apply wp_bind, wp_run_with. eapply wp_mono; [|apply Hrec; [|done]].
  2:{ unfold enc_ok. simpl. rewrite Hcb. lia. }
  intros b s' c' (H1 & H2 & H3). simpl in H1, H2, H3. rewrite Hcb in H3.
  destruct H3 as (d & ? & Hbw & ? & Hst & Hm).
  assert (Hstep : estep s c (mk_ostream (os_callback s) (os_state s') (os_max_size s)
             (u64 (os_bytes_written s + os_bytes_written s')) (os_errmsg s')) c').
  { unfold estep. simpl. rewrite Hcb, u64_small by lia. split_and!; [done|done|].
    exists d. split_and!; [lia|lia|lia|lia|done]. }
  simpl. apply wp_bind, wp_put. case_match; [|by apply wp_ret].
  eapply wp_mono; [|apply Safe_error].
  - intros x s2 c2 H4. exact (estep_trans _ _ _ _ _ _ Hstep H4).
  - eapply estep_ok; [|exact Hstep]. unfold enc_ok. by rewrite Hcb.
  - eapply estep_reach; [|done|exact Hstep]. unfold enc_ok. by rewrite Hcb.
Qed.

Lemma Safe_submessage fields src : Safe (pb_encode_submessage E rec fields src).
Proof.
  unfold pb_encode_submessage.
  eapply Safe_bind_same with (P := fun r => 0 <= os_bytes_written r.2 < 2 ^ 63).
  { intros s c Hs Hc. apply wp_run_with. intros b s' c' Hr.
    pose proof (Hsize _ _ _ _ _ _ Hc Hr) as Hlt.
    destruct (Hrec _ _ _ _ enc_ok_sizing Hc _ _ _ Hr) as (_ & _ & Hs'). simpl in Hs'.
    destruct Hs' as [-> ?]. split_and!; [done|done|simpl; lia|simpl; lia]. }
  intros r Hr. destruct (negb r.1).
  { intros s c Hs Hc. apply wp_bind, wp_get, wp_bind, wp_put, wp_ret.
    exact (estep_refl s c Hs). }
  apply Safe_bind; [safe|]. intros ok. destruct ok; [|safe].
  intros s c Hs Hc. apply wp_bind, wp_get. case_bool_decide as Hcb.
  { apply Safe_pb_write; [lia|done|done]. }
  destruct (os_callback s) eqn:Es; [done| |unfold enc_ok in Hs; by rewrite Es in Hs].
  case_bool; [by apply Safe_error|]. rewrite <-Es.
  apply Safe_substream; [done|done|done|lia|].
  unfold enc_ok in Hs. rewrite Es in Hs. by rewrite u64_small in * by lia.
Qed.

Lemma Safe_enc_submessage f p : Safe (pb_enc_submessage E rec f p).
Proof. unfold pb_enc_submessage. case_match; [safe|apply Safe_submessage]. Qed.

Lemma Safe_encoders i func f p :
  field_typed f -> PB_ENCODERS E rec !! i = Some func -> Safe (call_encoder func f p).
Proof.
  intros Hf Hi. apply Safe_call_encoder. intros g ->.
  do 11 (destruct i as [|i]; [simpl in Hi; simplify_eq;
    auto using Safe_enc_bool, Safe_enc_varint, Safe_enc_uvarint, Safe_enc_svarint,
      Safe_enc_fixed32, Safe_enc_fixed64, Safe_enc_bytes, Safe_enc_string, Safe_enc_submessage,
      Safe_enc_fixed_length_bytes|]).
  done.
Qed.

Lemma Safe_encode_basic_field f p :
  field_typed f -> Safe (encode_basic_field E fuel rec f p).
Proof.
  intros Hf. unfold encode_basic_field.
  apply Safe_of_option. intros func Hfunc.
  assert (Hcall : forall q, Safe (call_encoder func f q))
    by (intros q; by eapply Safe_encoders).
  assert (Harr : forall q n, Safe (encode_array E f q n func))
    by (intros; by apply Safe_encode_array).
  safe.
Qed.

Lemma Safe_encode_callback_field f p : Safe (encode_callback_field E f p).
Proof. unfold encode_callback_field. safe. Qed.

Lemma Safe_encode_field f p : field_typed f -> Safe (encode_field E fuel rec f p).
Proof.
  intros Hf. unfold encode_field. case_match; [by apply Safe_encode_basic_field|].
  case_match; [apply Safe_encode_callback_field|safe].
Qed.

Lemma Safe_default_extension ext : Safe (default_extension_encoder E fuel rec ext).
Proof.
  unfold default_extension_encoder.
  apply Safe_bind; [safe|]. intros t. apply Safe_bind; [safe|]. intros arg.
  apply Safe_of_option. intros f Hf. pose proof (field_at_typed _ _ _ _ HE Hf).
  case_match; [by apply Safe_encode_field|].
  apply Safe_bind; [safe|]. intros dest. by apply Safe_encode_field.
Qed.
#[local] Hint Resolve Safe_default_extension : enc_safe.

Lemma Safe_extension_loop n ext : Safe (extension_loop E fuel rec n ext).
Proof. revert ext. induction n; intros ext; cbn [extension_loop]; safe. Qed.

Lemma Safe_encode_extension_field f p : Safe (encode_extension_field E fuel rec f p).
Proof.
  unfold encode_extension_field. apply Safe_bind; [safe|]. intros. apply Safe_extension_loop.
Qed.

Lemma Safe_encode_one it : Safe (encode_one E fuel rec it).
Proof.
  unfold encode_one. apply Safe_of_option. intros f Hf.
  pose proof (field_at_typed _ _ _ _ HE Hf).
  case_match; [apply Safe_encode_extension_field|by apply Safe_encode_field].
Qed.
End Rec.

Lemma Safe_iter_do_while n body it :
  (forall it, Safe (body it)) -> Safe (iter_do_while E n body it).
Proof. intros Hb. revert it. induction n; intros it; cbn [iter_do_while]; safe. Qed.

Section Encode.
Context (HE : env_typed E).
Context (Hsize : forall fuel fields src c b s' c',
  reach c -> pb_encode E fuel fields src PB_OSTREAM_SIZING c = Ret (b, s', c') ->
  os_bytes_written s' < 2 ^ 63).
Context (Hfield : forall fn f p, Safe (env_field_encode E fn f p)).
Context (Hext : forall fn p, Safe (env_ext_encode E fn p)).

Lemma Safe_pb_encode fuel : forall fields src, Safe (pb_encode E fuel fields src).
Proof.
  induction fuel as [|fuel IH]; intros fields src; cbn [pb_encode]; [safe|].
  apply Safe_bind; [safe|]. intros r. case_match; [safe|].
  apply Safe_iter_do_while. intros it. apply Safe_encode_one; eauto.
Qed.
End Encode.
End Safety.

(** ** The encoder *)

(** A user callback that only encodes, and a bound on what is ever sized. *)
Record enc_env_ok (E : pb_env) (c0 : cstate) (lo hi : Z) : Prop := {
  eo_typed : env_typed E;
  eo_size : forall fuel fields src c b s' c',
    reach c0 lo hi c -> pb_encode E fuel fields src PB_OSTREAM_SIZING c = Ret (b, s', c') ->
    os_bytes_written s' < 2 ^ 63;
  eo_field : forall fn f p, Safe c0 lo hi (env_field_encode E fn f p);
  eo_ext : forall fn p, Safe c0 lo hi (env_ext_encode E fn p);
}.

(** C4. [pb_encode] on a memory stream never leaves its buffer, whatever the
    message, the descriptors and the result: [bytes_written] is at most the
    size of the buffer, the stream has advanced by exactly that, and no byte
    of memory outside those written has changed, nor the allocator's state. *)
Theorem pb_encode_bounded E fuel fields src buf bufsize c b s' c' :
  enc_env_ok E c buf (buf + bufsize) -> bytes_heap c -> 0 <= bufsize <= 2 ^ 63 ->
  pb_encode E fuel fields src (pb_ostream_from_buffer buf bufsize) c = Ret (b, s', c') ->
  0 <= os_bytes_written s' <= bufsize
  /\ os_state s' = buf + os_bytes_written s'
  /\ (forall a, ~ (buf <= a < buf + os_bytes_written s') -> heap c' !! a = heap c !! a)
  /\ c' = set_heap c (heap c').
Proof.
  intros [HT Hsize Hfield Hext] Hc Hsz Hrun.
  assert (Hs : enc_ok buf (buf + bufsize) (pb_ostream_from_buffer buf bufsize)).
  { unfold enc_ok. simpl. lia. }
  destruct (Safe_pb_encode E c buf (buf + bufsize) HT Hsize Hfield Hext fuel fields src
              _ _ Hs (conj (mem_step_refl _ _ _) Hc) _ _ _ Hrun) as (_ & _ & H).
  simpl in H. destruct H as (d & Hd & Hbw & Hmax & Hst & [_ Hrest Hframe _]).
  replace (os_bytes_written s') with d by lia.
  split; [lia|]. split; [done|]. split; [exact Hframe|exact Hrest].
Qed.

(** The same for [pb_encode_delimited], whose size prefix and submessage
    check ([stream full], [submsg size changed]) keep it in the buffer. *)
Lemma pb_encode_delimited_bounded E fuel fields src buf bufsize c b s' c' :
  enc_env_ok E c buf (buf + bufsize) -> bytes_heap c -> 0 <= bufsize <= 2 ^ 63 ->
  pb_encode_delimited E fuel fields src (pb_ostream_from_buffer buf bufsize) c
  = Ret (b, s', c') ->
  0 <= os_bytes_written s' <= bufsize
  /\ (forall a, ~ (buf <= a < buf + os_bytes_written s') -> heap c' !! a = heap c !! a).
Proof.
  intros [HT Hsize Hfield Hext] Hc Hsz Hrun.
  assert (Hs : enc_ok buf (buf + bufsize) (pb_ostream_from_buffer buf bufsize)).
  { unfold enc_ok. simpl. lia. }
  pose proof (Safe_submessage E c buf (buf + bufsize) (pb_encode E fuel)) as Hsub.
  destruct (Hsub (Safe_pb_encode E c buf _ HT Hsize Hfield Hext fuel) (Hsize fuel) fields src
              _ _ Hs (conj (mem_step_refl _ _ _) Hc) _ _ _ Hrun) as (_ & _ & H).
  simpl in H. destruct H as (d & Hd & Hbw & Hmax & Hst & [_ Hrest Hframe _]).
  replace (os_bytes_written s') with d by lia. split; [lia|exact Hframe].
Qed.

(** ** The hypotheses at the example *)

Lemma ex_mem_ok : bytes_heap ex_mem.
Proof. exact ex_mem_bytes. Qed.

Definition note_env : pb_env :=
  mk_env {[ note_desc := note_fields ]} (env_stream_write ex_env) (env_stream_read ex_env)
    (env_field_encode ex_env) (env_field_decode ex_env) (env_ext_encode ex_env)
    (env_ext_decode ex_env).

Lemma fields_typed_env fields :
  map_Forall (fun _ fs => Forall field_typed fs) fields ->
  forall E, env_fields E = fields -> env_typed E.
Proof.
  intros H E <- a fs f Ha Hf. specialize (H a fs Ha). rewrite Forall_forall in H. auto.
Qed.

(** [m] counts at most [d] bytes on a sizing stream. *)
Definition Counts {A} (d : Z) (m : M pb_ostream_t A) : Prop :=
  forall s c, os_callback s = OC_NULL -> 0 <= os_bytes_written s ->
    wp m (fun _ s' _ => os_callback s' = OC_NULL
                        /\ 0 <= os_bytes_written s' <= os_bytes_written s + d) s c.

Lemma Counts_Pure {A} (m : M pb_ostream_t A) d : 0 <= d -> Pure m -> Counts d m.
Proof.
  intros Hd Hm s c Hcb Hbw. eapply wp_mono; [|apply Hm]. intros a s' c' [-> ->].
  split; [done|lia].
Qed.

Lemma Counts_bind {A B} (m : M pb_ostream_t A) (k : A -> M pb_ostream_t B) d1 d2 :
  Counts d1 m -> (forall a, Counts d2 (k a)) -> Counts (d1 + d2) (m ≫= k).
Proof.
  intros Hm Hk s c Hcb Hbw. apply wp_bind. eapply wp_mono; [|by apply Hm].
  intros a s1 c1 (Hcb1 & Hbw1). eapply wp_mono; [|apply Hk; [done|lia]].
  intros b s2 c2 (? & ?). split; [done|lia].
Qed.

Lemma Counts_mono {A} (m : M pb_ostream_t A) d1 d2 : d1 <= d2 -> Counts d1 m -> Counts d2 m.
Proof.
  intros Hd Hm s c Hcb Hbw. eapply wp_mono; [|by apply Hm]. intros a s' c' [? ?].
  split; [done|lia].
Qed.

Lemma Counts_check m k d1 d2 :
  0 <= d2 -> Counts d1 m -> Counts d2 k -> Counts (d1 + d2) (check! m; k).
Proof.
  intros Hd Hm Hk. apply Counts_bind; [done|]. intros []; [done|].
  apply Counts_Pure; [done|apply Pure_ret].
Qed.

Lemma Counts_write E buf n : 0 <= n -> Counts n (pb_write E buf n).
Proof.
  intros Hn s c Hcb Hbw. unfold pb_write. apply wp_bind, wp_get.
  rewrite bool_decide_eq_true_2, andb_false_r by done.
  apply wp_bind, wp_put, wp_ret. simpl. split; [done|].
  pose proof (u64_range (os_bytes_written s + n)).
  pose proof (Z.mod_le (os_bytes_written s + n) (2 ^ 64)). unfold u64 in *. lia.
Qed.

Lemma Counts_varint E v : Counts 10 (pb_encode_varint E v).
Proof.
  unfold pb_encode_varint. case_match.
  { eapply Counts_mono; [|by apply Counts_write]. lia. }
  intros s c Hcb Hbw. apply wp_bind. intros l s' c' Hl.
  pose proof (varint_loop_length 10 v s c l s' c' Hl) as Hlen.
  destruct (Pure_varint_loop 10 v s c l s' c' Hl) as [-> ->]. cbv beta in Hlen.
  eapply wp_mono; [|apply Counts_write; [lia|done|done]]. intros a s1 c1 [? ?].
  split; [done|lia].
Qed.

Lemma Counts_iter_do_while E body n it d :
  0 <= d -> (forall it, Counts d (body it)) ->
  Counts (d * Z.of_nat n) (iter_do_while E n body it).
Proof.
  intros Hd Hb. revert it. induction n as [|n IH]; intros it; cbn [iter_do_while].
  - intros s c _ _. apply wp_nofuel.
  - eapply Counts_mono; [|apply (Counts_check _ _ d (0 + d * Z.of_nat n));
                          [lia|apply Hb|apply Counts_bind]]; [lia| |].
    + apply Counts_Pure; [lia|apply Pure_of_option].
    + intros [b it']. destruct b; [apply IH|]. apply Counts_Pure; [lia|apply Pure_ret].
Qed.

Lemma note_field_cases it f :
  it_field note_env it = Some f -> f ∈ note_fields.
Proof.
  unfold it_field, field_at. intros H. apply bind_Some in H as (fs & Hfs & Hf).
  unfold note_env in Hfs. cbn [env_fields] in Hfs.
  apply lookup_singleton_Some in Hfs as [_ <-]. by eapply list_elem_of_lookup_2.
Qed.

Lemma Counts_if {A} (b : bool) (m1 m2 : M pb_ostream_t A) d :
  Counts d m1 -> Counts d m2 -> Counts d (if b then m1 else m2).
Proof. by destruct b. Qed.

Lemma Counts_error msg d : 0 <= d -> Counts d (os_return_error msg).
Proof.
  intros Hd s c Hcb Hbw. unfold os_return_error. apply wp_bind, wp_get, wp_bind, wp_put, wp_ret.
  simpl. split; [done|lia].
Qed.

Lemma Counts_note_field fuel rec f p :
  f ∈ note_fields -> Counts 20 (encode_field note_env fuel rec f p).
Proof.
  unfold note_fields, end_field. rewrite !elem_of_cons.
  intros [->|[->|[->|Hf]]]; [| | |by apply elem_of_nil in Hf].
  - change (encode_field _ _ _ _ p) with
      (if p =? 0 then os_return_error "missing required field"
       else check! pb_encode_tag note_env PB_WT_32BIT 1; pb_encode_fixed32 note_env p).
    apply Counts_if; [apply Counts_error; lia|].
    apply (Counts_check _ _ 10 10); [lia|apply Counts_varint|].
    eapply Counts_mono; [|apply (Counts_bind _ _ 0 4)]; [lia| |].
    + apply Counts_Pure; [lia|apply Pure_load].
    + intros v. by apply Counts_write.
  - change (encode_field _ _ _ _ p) with
      (fn ← load_ptr (p + offsetof_cb_funcs);
       if negb (fn =? 0) then
         ok ← pb_write bare_env (Local [18; 1; 97]) 3;
         if negb ok then os_return_error "callback error" else mret true
       else mret true : M pb_ostream_t bool).
    eapply Counts_mono; [|apply (Counts_bind _ _ 0 3)]; [lia|apply Counts_Pure; [lia|apply Pure_load]|].
    intros fn. apply Counts_if; [|apply Counts_Pure; [lia|apply Pure_ret]].
    apply (Counts_bind _ _ 3 0); [by apply Counts_write|]. intros ok.
    apply Counts_if; [by apply Counts_error|apply Counts_Pure; [lia|apply Pure_ret]].
  - change (encode_field _ _ _ _ p) with
      (if p =? 0 then os_return_error "missing required field"
       else check! pb_encode_tag note_env PB_WT_VARINT 0; pb_enc_bool note_env end_field p).
    apply Counts_if; [apply Counts_error; lia|].
    apply (Counts_check _ _ 10 10); [lia|apply Counts_varint|].
    apply (Counts_bind _ _ 0 10); [|intros; apply Counts_varint].
    apply Counts_Pure; [lia|apply Pure_safe_read_bool].
Qed.

Lemma note_env_ok c0 lo hi : enc_env_ok note_env c0 lo hi.
Proof.
  split.
  - eapply fields_typed_env; [|done]. apply (bool_decide_unpack _). by vm_compute.
  - intros fuel fields src c b s' c' _ Hrun. revert Hrun.
    destruct fuel as [|fuel]; [done|]. cbn [pb_encode]. intros Hrun.
    enough (H : wp (pb_encode note_env (S fuel) fields src)
      (fun _ s _ => os_callback s = OC_NULL /\ 0 <= os_bytes_written s <= 100)
      PB_OSTREAM_SIZING c).
    { destruct (H _ _ _ Hrun). lia. }
    cbn [pb_encode]. apply wp_bind, wp_of_option. intros [ok it] Hbegin.
    destruct (negb _); [by apply wp_ret|].
    assert (Hfuel : (iter_fuel note_env fields <= 4)%nat).
    { unfold iter_fuel. destruct (env_fields note_env !! fields) as [fs|] eqn:Hfs; [|lia].
      unfold note_env in Hfs. cbn [env_fields] in Hfs.
      apply lookup_singleton_Some in Hfs as [_ <-]. done. }
    pose proof (Counts_iter_do_while note_env
                  (encode_one note_env fuel (pb_encode note_env fuel))
                  (iter_fuel note_env fields) it 20 ltac:(lia)) as Hloop.
    eapply wp_mono; [|apply Hloop; [|done|done]].
    + intros a s1 c1 [? Hb]. simpl in Hb. split; [done|lia].
    + intros it2 s2 c2 Hcb Hbw. unfold encode_one. apply wp_bind, wp_of_option.
      intros f Hf. apply note_field_cases in Hf.
      replace (PB_LTYPE (type f) =? PB_LTYPE_EXTENSION) with false; [by apply Counts_note_field|].
      unfold note_fields, end_field in Hf. rewrite !elem_of_cons in Hf.
      by destruct Hf as [->|[->|[->|Hf]]]; [| | |apply elem_of_nil in Hf].
  - intros. by apply Safe_pb_write.
  - intros. apply Safe_Pure, Pure_ret.
Qed.

Lemma pb_encode_bounded_witness :
  exists b s' c',
    pb_encode note_env 2 note_desc ex_src (pb_ostream_from_buffer ex_buf 20) ex_mem
    = Ret (b, s', c')
    /\ 0 <= os_bytes_written s' <= 20
    /\ os_state s' = ex_buf + os_bytes_written s'
    /\ (forall a, ~ (ex_buf <= a < ex_buf + os_bytes_written s') ->
          heap c' !! a = heap ex_mem !! a)
    /\ c' = set_heap ex_mem (heap c').
Proof.
  destruct (pb_encode note_env 2 note_desc ex_src (pb_ostream_from_buffer ex_buf 20) ex_mem)
    as [[[b s'] c']| |] eqn:Hrun; [|by vm_compute in Hrun|by vm_compute in Hrun].
  exists b, s', c'. split; [done|].
  apply (pb_encode_bounded note_env 2 note_desc ex_src ex_buf 20 ex_mem b s' c');
    [apply note_env_ok|exact ex_mem_ok|lia|exact Hrun].
Defined.
