(* ===== verification/PbEncodeSize.v ===== *)
(** * nanopb: the sizing pass agrees with the writing pass

    [pb_get_encoded_size] and the first pass of [pb_encode_submessage] run the
    encoder on a stream that only counts. Whenever that run succeeds, the same
    encoder on a memory stream writes exactly the counted bytes if they fit and
    fails if they do not. *)
From S2P Require Export PbEncodeSafe.

(** What an outcome says when it may be undefined behaviour (a read of unmapped
    memory that the counting pass had no need for), but not lack of fuel. *)
Definition okr {A} (o : outcome A) (P : A -> Prop) : Prop :=
  match o with Ret a => P a | Undef => True | NoFuel => False end.

Lemma okr_bind {St A B} (m : M St A) (k : A -> M St B) s c P :
  okr (m s c) (fun '(a, s', c') => okr (k a s' c') P) -> okr ((m ≫= k) s c) P.
Proof. unfold mbind, M_bind. by destruct (m s c) as [[[a s'] c']| |]. Qed.

Lemma okr_mono {A} (o : outcome A) (P Q : A -> Prop) :
  (forall a, P a -> Q a) -> okr o P -> okr o Q.
Proof. destruct o; simpl; auto. Qed.

Lemma okr_run_with {St St' A} (m : M St' A) s0 (s : St) c P :
  okr (m s0 c) (fun '(a, s1, c1) => P ((a, s1), s, c1)) -> okr (run_with s0 m s c) P.
Proof. unfold run_with. by destruct (m s0 c) as [[[a s'] c']| |]. Qed.

(** ** Reads *)

(** What [m] returns depends on the memory it is shown and on nothing else, and
    showing it more memory does not change it. *)
Definition Reads {A} (m : M pb_ostream_t A) : Prop :=
  forall s c a s' c', m s c = Ret (a, s', c') ->
    s' = s /\ c' = c
    /\ forall s2 c2, heap c ⊆ heap c2 -> m s2 c2 = Ret (a, s2, c2).

Create HintDb enc_size.

Lemma Reads_ret {A} (a : A) : Reads (mret a).
Proof. intros s c b s' c' [= <- <- <-]. done. Qed.
Lemma Reads_undef {A} : Reads (@undef _ A).
Proof. intros s c b s' c' [=]. Qed.
Lemma Reads_nofuel {A} : Reads (@nofuel _ A).
Proof. intros s c b s' c' [=]. Qed.
Lemma Reads_of_option {A} (o : option A) : Reads (of_option o).
Proof. destruct o; [apply Reads_ret|apply Reads_undef]. Qed.

Lemma Reads_bind {A B} (m : M pb_ostream_t A) (k : A -> M pb_ostream_t B) :
  Reads m -> (forall a, Reads (k a)) -> Reads (m ≫= k).
Proof.
  intros Hm Hk s c b s' c'. unfold mbind, M_bind.
  destruct (m s c) as [[[a s1] c1]| |] eqn:E; try done.
  destruct (Hm _ _ _ _ _ E) as (-> & -> & Hm'). intros Ek.
  destruct (Hk _ _ _ _ _ _ Ek) as (-> & -> & Hk'). split_and!; [done|done|].
  intros s2 c2 Hsub. rewrite (Hm' s2 c2 Hsub). by apply Hk'.
Qed.

Lemma Reads_load n a : Reads (load n a).
Proof.
  apply Reads_bind; [|intros; apply Reads_ret].
  intros s c l s' c'. unfold read_mem.
  destruct (read_bytes (heap c) a n) eqn:E; [|done]. intros [= <- <- <-].
  split_and!; [done|done|]. intros s2 c2 Hsub. by rewrite (read_bytes_subseteq _ _ _ _ _ Hsub E).
Qed.
Lemma Reads_load_ptr a : Reads (load_ptr a).
Proof. apply Reads_load. Qed.
#[export] Hint Resolve Reads_ret Reads_undef Reads_nofuel Reads_of_option Reads_load
  Reads_load_ptr : enc_size.

Ltac reads :=
  repeat first
    [ match goal with |- forall _, _ => intro end
    | solve [auto with enc_size nocore]
    | lazymatch goal with |- Reads (_ ≫= _) => apply Reads_bind end
    | progress cbv beta zeta
    | case_match ].

Lemma Reads_safe_read_bool p : Reads (safe_read_bool p).
Proof. unfold safe_read_bool. reads. Qed.
Lemma Reads_all_zero_loop n p : Reads (all_zero_loop n p).
Proof. revert p. induction n; simpl; reads. Qed.
Lemma Reads_varint_loop n v : Reads (varint_loop n v).
Proof. revert v. induction n; simpl; reads. Qed.
Lemma Reads_iter_do_while E n (body : pb_field_iter_t -> M pb_ostream_t bool) it :
  (forall it, Reads (body it)) -> Reads (iter_do_while E n body it).
Proof. intros Hb. revert it. induction n; simpl; reads. Qed.
#[export] Hint Resolve Reads_safe_read_bool Reads_all_zero_loop Reads_varint_loop : enc_size.

Lemma Reads_check_proto3 E n f p :
  Reads (pb_check_proto3_default_value E n f p).
Proof.
  revert f p. induction n as [|n IH]; intros f p; cbn [pb_check_proto3_default_value]; reads.
  all: apply Reads_iter_do_while; reads.
Qed.

(** More fuel does not change a scan that ended. *)
Lemma strnlen_loop_fuel n m p sz mx (s : pb_ostream_t) c r s' c' :
  (n <= m)%nat -> strnlen_loop n p sz mx s c = Ret (r, s', c') ->
  strnlen_loop m p sz mx s c = Ret (r, s', c').
Proof.
  revert m p sz. induction n as [|n IH]; intros m p sz Hm; destruct m as [|m]; try lia;
    cbn [strnlen_loop]; destruct (sz <? mx); try done.
  unfold mbind, M_bind. destruct (load 1 p s c) as [[[b s1] c1]| |] eqn:E; try done.
  destruct (Pure_load 1 p s c _ _ _ E) as [-> ->].
  destruct (b =? 0); [done|]. apply IH. lia.
Qed.

Lemma Reads_strnlen_loop n p sz mx : Reads (strnlen_loop n p sz mx).
Proof. revert p sz. induction n; simpl; reads. Qed.

Lemma Reads_strnlen p mx : Reads (strnlen p mx).
Proof.
  intros s c r s' c' E. unfold strnlen in *.
  destruct (Reads_strnlen_loop _ _ _ _ _ _ _ _ _ E) as (-> & -> & H).
  split_and!; [done|done|]. intros s2 c2 Hsub.
  eapply strnlen_loop_fuel; [|by apply H]. by apply map_subseteq_size.
Qed.
#[export] Hint Resolve Reads_check_proto3 Reads_strnlen : enc_size.

(** ** The relation between the two passes *)

(** [s2] is a memory stream over [c2], and its buffer is no part of the memory
    [c1] in which the message was sized. *)
Definition compat (c1 : cstate) (s2 : pb_ostream_t) (c2 : cstate) : Prop :=
  os_callback s2 = OC_buf_write
  /\ 0 <= os_bytes_written s2 <= os_max_size s2
  /\ heap c1 ⊆ heap c2
  /\ forall a, os_state s2 <= a < os_state s2 + (os_max_size s2 - os_bytes_written s2) ->
       heap c1 !! a = None.

(** [s'] is [s] after [d] more bytes, up to the error message. *)
Definition wrote (d : Z) (s : pb_ostream_t) (c : cstate) (s' : pb_ostream_t) (c' : cstate)
    : Prop :=
  os_callback s' = os_callback s /\ os_max_size s' = os_max_size s
  /\ os_state s' = os_state s + d /\ os_bytes_written s' = os_bytes_written s + d
  /\ mem_step (os_state s) (os_state s + d) c c'.

(** A writing pass of [d] bytes: all of them, or a failure. *)
Definition writes_or_fails (d : Z) (s : pb_ostream_t) (c : cstate)
    (r : outcome (bool * pb_ostream_t * cstate)) : Prop :=
  okr r (fun '(b, s', c') =>
    if os_bytes_written s + d <=? os_max_size s then b = true /\ wrote d s c s' c'
    else b = false).

Lemma wrote_refl s c : wrote 0 s c s c.
Proof.
  unfold wrote. do 2 (split; [done|]). split; [lia|]. split; [lia|apply mem_step_refl].
Qed.

Lemma wrote_trans d1 d2 s1 c1 s2 c2 s3 c3 :
  0 <= d1 -> 0 <= d2 -> wrote d1 s1 c1 s2 c2 -> wrote d2 s2 c2 s3 c3 ->
  wrote (d1 + d2) s1 c1 s3 c3.
Proof.
  unfold wrote. intros ?? (A1 & A2 & A3 & A4 & A5) (B1 & B2 & B3 & B4 & B5).
  split_and!; [congruence|congruence|lia|lia|].
  eapply mem_step_trans; [| | | |exact A5|exact B5]; lia.
Qed.

Lemma compat_wrote c1 d s2 c2 s3 c3 :
  compat c1 s2 c2 -> 0 <= d -> os_bytes_written s2 + d <= os_max_size s2 ->
  wrote d s2 c2 s3 c3 -> compat c1 s3 c3.
Proof.
  unfold compat, wrote. intros (C1 & C2 & C3 & C4) ?? (W1 & W2 & W3 & W4 & [_ _ F _]).
  split_and!; [congruence|lia|lia| |].
  - apply map_subseteq_spec. intros a v Ha. rewrite F.
    + by eapply lookup_weaken.
    + intros Hin. rewrite C4 in Ha; [done|lia].
  - intros a Ha. apply C4. lia.
Qed.

(** [m] counts as it writes: whenever it succeeds on a sizing stream, having
    counted [d] bytes (modulo 2^64), it does not depend on the memory around what
    it was shown, and it is a writing pass of [d] bytes. *)
Definition Sized (m : M pb_ostream_t bool) : Prop :=
  forall s c s' c',
    os_callback s = OC_NULL -> 0 <= os_bytes_written s < 2 ^ 64 -> bytes_heap c ->
    m s c = Ret (true, s', c') ->
    exists d, 0 <= d
      /\ s' = mk_ostream OC_NULL (os_state s) (os_max_size s) (u64 (os_bytes_written s + d))
                (os_errmsg s)
      /\ c' = c
      /\ (forall c2, heap c ⊆ heap c2 -> m s c2 = Ret (true, s', c2))
      /\ (forall s2 c2, compat c s2 c2 -> os_max_size s2 + d < 2 ^ 64 ->
            writes_or_fails d s2 c2 (m s2 c2)).

(** [m] does not succeed. *)
Definition Fails (m : M pb_ostream_t bool) : Prop :=
  forall s c, okr (m s c) (fun '(b, _, _) => b = false).

Lemma Fails_ret : Fails (mret false).
Proof. intros s c. done. Qed.
Lemma Fails_error msg : Fails (os_return_error msg).
Proof. intros s c. done. Qed.
#[export] Hint Resolve Fails_ret Fails_error : enc_size.

Lemma Fails_not_true m s c s' c' : Fails m -> m s c <> Ret (true, s', c').
Proof. intros Hm E. specialize (Hm s c). rewrite E in Hm. done. Qed.

Lemma Sized_fails m : Fails m -> Sized m.
Proof. intros Hm s c s' c' _ _ _ E. by apply Fails_not_true in E. Qed.

Lemma Sized_undef : Sized undef.
Proof. intros s c s' c' _ _ _ [=]. Qed.
Lemma Sized_nofuel : Sized nofuel.
Proof. intros s c s' c' _ _ _ [=]. Qed.

Lemma sizing_eta s d :
  os_callback s = OC_NULL -> u64 (os_bytes_written s + d) = os_bytes_written s ->
  mk_ostream OC_NULL (os_state s) (os_max_size s) (u64 (os_bytes_written s + d)) (os_errmsg s) = s.
Proof. destruct s. simpl. by intros -> ->. Qed.

Lemma Sized_ret b : Sized (mret b).
Proof.
  intros s c s' c' Hcb Hbw Hc [= -> <- <-]. exists 0. split; [lia|]. split_and!.
  - rewrite sizing_eta; [done|done|]. rewrite Z.add_0_r. by apply u64_small.
  - done.
  - done.
  - intros s2 c2 (_ & Hw & _) _. unfold writes_or_fails. simpl.
    destruct (Z.leb_spec (os_bytes_written s2 + 0) (os_max_size s2)); [|lia].
    split; [done|apply wrote_refl].
Qed.

Lemma Sized_bind m (k : bool -> M pb_ostream_t bool) :
  Sized m -> Sized (k true) -> Fails (k false) -> Sized (m ≫= k).
Proof.
  intros Hm Hk Hf s c s' c' Hcb Hbw Hc. unfold mbind at 1, M_bind at 1.
  destruct (m s c) as [[[b s1] c1]| |] eqn:E; try done.
  destruct b; [|intros Ek; by apply Fails_not_true in Ek].
  destruct (Hm _ _ _ _ Hcb Hbw Hc E) as (d1 & Hd1 & -> & -> & Hmono1 & Hw1). intros Ek.
  destruct (Hk _ _ _ _ (eq_refl : os_callback (mk_ostream OC_NULL _ _ _ _) = _)
              (u64_range _) Hc Ek) as (d2 & Hd2 & -> & -> & Hmono2 & Hw2).
  exists (d1 + d2). split; [lia|]. split_and!.
  - simpl. f_equal. unfold u64. rewrite Zplus_mod_idemp_l. f_equal. lia.
  - done.
  - intros c2 Hsub. erewrite bind_ret by (by apply Hmono1). by apply Hmono2.
  - intros s2 c2 Hcompat Hmax. apply okr_bind. eapply okr_mono; [|apply Hw1; [done|lia]].
    intros [[b s3] c3]. case_bool.
    + intros [-> Hwrote]. pose proof (compat_wrote _ _ _ _ _ _ Hcompat Hd1 H Hwrote) as Hc3.
      pose proof Hwrote as (_ & Hmax3 & _ & Hbw3 & _).
      eapply okr_mono; [|apply Hw2; [done|rewrite Hmax3; lia]].
      intros [[b' s4] c4]. rewrite Hmax3, Hbw3.
      replace (os_bytes_written s2 + d1 + d2) with (os_bytes_written s2 + (d1 + d2)) by lia.
      case_bool; [|done]. intros [-> Hwrote2]. split; [done|]. by eapply wrote_trans.
    + intros ->. destruct (Z.leb_spec (os_bytes_written s2 + (d1 + d2)) (os_max_size s2)); [lia|].
      eapply okr_mono; [|apply Hf]. by intros [[b' s4] c4].
Qed.

Lemma Sized_reads_range {A} (m : M pb_ostream_t A) (k : A -> M pb_ostream_t bool) (P : A -> Prop) :
  Reads m -> (forall s c, bytes_heap c -> wp m (fun a _ _ => P a) s c) ->
  (forall a, P a -> Sized (k a)) -> Sized (m ≫= k).
Proof.
  intros Hm HP Hk s c s' c' Hcb Hbw Hc. unfold mbind at 1, M_bind at 1.
  destruct (m s c) as [[[a s1] c1]| |] eqn:E; try done.
  pose proof (HP s c Hc _ _ _ E) as Ha. cbv beta in Ha.
  destruct (Hm _ _ _ _ _ E) as (-> & -> & Hread). intros Ek.
  destruct (Hk a Ha _ _ _ _ Hcb Hbw Hc Ek) as (d & Hd & -> & -> & Hmono & Hw).
  exists d. split; [lia|]. split_and!; [done|done| |].
  - intros c2 Hsub. erewrite bind_ret by (by apply Hread). by apply Hmono.
  - intros s2 c2 Hcompat Hmax. unfold writes_or_fails.
    erewrite bind_ret by (apply Hread, Hcompat). by apply Hw.
Qed.

Lemma Sized_reads {A} (m : M pb_ostream_t A) (k : A -> M pb_ostream_t bool) :
  Reads m -> (forall a, Sized (k a)) -> Sized (m ≫= k).
Proof.
  intros Hm Hk. apply (Sized_reads_range _ _ (fun _ => True)); [done|done|auto].
Qed.

Lemma Sized_load n a (k : Z -> M pb_ostream_t bool) :
  (forall v, 0 <= v < 2 ^ (8 * Z.of_nat n) -> Sized (k v)) -> Sized (load n a ≫= k).
Proof.
  apply Sized_reads_range; [apply Reads_load|]. intros. by apply load_range.
Qed.

Lemma Sized_of_option {A} (o : option A) (k : A -> M pb_ostream_t bool) :
  (forall a, o = Some a -> Sized (k a)) -> Sized (of_option o ≫= k).
Proof.
  intros Hk. destruct o as [a|].
  - intros s c s' c'. apply (Hk a eq_refl).
  - intros s c s' c' _ _ _ [=].
Qed.

(** The copy itself, in the memory where it happens. *)
Lemma copy_loop_okr dest buf n : forall {St} i (s : St) c,
  okr (copy_loop dest buf i n s c)
      (fun '(_, s', c') => s' = s /\ mem_step dest (dest + Z.of_nat (i + n)) c c').
Proof.
  intros St i s c. pose proof (copy_loop_step dest buf n i s c) as H.
  assert (Hn : copy_loop dest buf i n s c <> NoFuel).
  { clear H. revert i c. induction n as [|n IH]; intros i c; cbn [copy_loop]; [done|].
    unfold mbind, M_bind.
    assert (Hg : cbuf_get buf i s c <> NoFuel).
    { destruct buf as [l|p]; simpl; [by destruct (l !! i)|].
      unfold load, read_mem, mbind, M_bind. by destruct (read_bytes _ _ _). }
    destruct (cbuf_get buf i s c) as [[[b s1] c1]| |] eqn:E; try done.
    destruct (Pure_cbuf_get buf i s c _ _ _ E) as [-> ->].
    unfold store, write_mem. destruct (write_bytes _ _ _); [apply IH|done]. }
  destruct (copy_loop _ _ _ _ _ _) as [[[u s'] c']| |] eqn:E; [|done|done].
  exact (H _ _ _ E).
Qed.

Section Size.
Context (E : pb_env).

(** [pb_write] on a memory stream: all the bytes, or "stream full". *)
Lemma pb_write_writes buf n s c :
  0 <= n -> os_callback s = OC_buf_write -> 0 <= os_bytes_written s <= os_max_size s ->
  os_max_size s + n < 2 ^ 64 -> writes_or_fails n s c (pb_write E buf n s c).
Proof.
  intros Hn Hcb Hbw Hmax. unfold writes_or_fails, pb_write.
  erewrite bind_ret by done. rewrite Hcb, bool_decide_eq_false_2, andb_true_r by done.
  destruct (Z.ltb_spec 0 n).
  2:{ assert (n = 0) as -> by lia. rewrite Z.add_0_r.
      destruct (Z.leb_spec (os_bytes_written s) (os_max_size s)); [|lia].
      simpl. split; [done|]. unfold wrote, os_advance. simpl.
      do 2 (split; [done|]). rewrite Z.add_0_r, u64_small by lia.
      split; [lia|]. split; [done|]. apply mem_step_refl. }
  rewrite u64_small by lia. destruct (Z.ltb_spec (os_bytes_written s + n) (os_bytes_written s));
    [lia|]. cbn [orb].
  destruct (Z.leb_spec (os_bytes_written s + n) (os_max_size s)) as [Hfit|];
    [|by destruct (Z.ltb_spec (os_max_size s) (os_bytes_written s + n)); [|lia]].
  destruct (Z.ltb_spec (os_max_size s) (os_bytes_written s + n)); [lia|].
  cbn [ocallback_call]. apply okr_bind. unfold buf_write.
  erewrite bind_ret by done. erewrite bind_ret by done.
  apply okr_bind. eapply okr_mono; [|apply copy_loop_okr].
  intros [[u s1] c1] [-> Hstep]. simpl. split; [done|].
  unfold wrote, os_advance. simpl. rewrite u64_small by lia.
  do 4 (split; [done|]). by rewrite Nat.add_0_l, Z2Nat.id in Hstep by lia.
Qed.

Lemma Sized_pb_write buf n : 0 <= n < 2 ^ 64 -> Sized (pb_write E buf n).
Proof.
  intros Hn s c s' c' Hcb Hbw Hc.
  assert (Heq : forall c, pb_write E buf n s c = Ret (true, os_advance s n, c)).
  { intros c2. unfold pb_write. erewrite bind_ret by done.
    rewrite bool_decide_eq_true_2, andb_false_r by done. done. }
  rewrite Heq. intros [= <- <-]. exists n. split; [lia|]. split_and!.
  - unfold os_advance. by rewrite Hcb.
  - done.
  - intros c2 _. apply Heq.
  - intros s2 c2 (H1 & H2 & _) Hmax. apply pb_write_writes; (done || lia).
Qed.

Lemma varint_loop_Sized_length v (k : list Z -> M pb_ostream_t bool) :
  (forall l, (length l <= 10)%nat -> Sized (k l)) -> Sized (varint_loop 10 v ≫= k).
Proof.
  apply Sized_reads_range; [auto with enc_size|]. intros s c _. apply varint_loop_length.
Qed.

Lemma Sized_pb_encode_varint v : Sized (pb_encode_varint E v).
Proof.
  unfold pb_encode_varint. destruct (v <=? 0x7F); [apply Sized_pb_write; lia|].
  apply varint_loop_Sized_length. intros l Hl. apply Sized_pb_write. lia.
Qed.
#[local] Hint Resolve Sized_ret Sized_undef Sized_nofuel Sized_fails Sized_pb_encode_varint : enc_size.

Ltac sized :=
  repeat first
    [ match goal with |- forall _, _ => intro end
    | solve [auto with enc_size nocore]
    | lazymatch goal with
      | |- Sized (of_option _ ≫= _) => apply Sized_of_option
      | |- Sized (_ ≫= _) => first [apply Sized_bind | apply Sized_reads]
      end
    | progress cbv beta zeta
    | case_match
    | solve [reads] ].

Lemma Sized_svarint v : Sized (pb_encode_svarint E v).
Proof. unfold pb_encode_svarint. sized. Qed.
Lemma Sized_fixed32 p : Sized (pb_encode_fixed32 E p).
Proof. apply Sized_load. intros v Hv. apply Sized_pb_write. lia. Qed.
Lemma Sized_fixed64 p : Sized (pb_encode_fixed64 E p).
Proof. apply Sized_load. intros v Hv. apply Sized_pb_write. lia. Qed.
Lemma Sized_tag w n : Sized (pb_encode_tag E w n).
Proof. unfold pb_encode_tag. sized. Qed.
#[local] Hint Resolve Sized_svarint Sized_fixed32 Sized_fixed64 Sized_tag : enc_size.
Lemma Sized_tag_for_field f : Sized (pb_encode_tag_for_field E f).
Proof. unfold pb_encode_tag_for_field. sized. Qed.
Lemma Sized_string buf n : 0 <= n < 2 ^ 64 -> Sized (pb_encode_string E buf n).
Proof. intros. unfold pb_encode_string. sized. by apply Sized_pb_write. Qed.
#[local] Hint Resolve Sized_tag_for_field : enc_size.

Lemma Sized_enc_bool f p : Sized (pb_enc_bool E f p).
Proof. unfold pb_enc_bool. apply Sized_reads; sized. Qed.
Lemma Sized_enc_varint f p : Sized (pb_enc_varint E f p).
Proof. unfold pb_enc_varint. sized. Qed.
Lemma Sized_enc_uvarint f p : Sized (pb_enc_uvarint E f p).
Proof. unfold pb_enc_uvarint. sized. Qed.
Lemma Sized_enc_svarint f p : Sized (pb_enc_svarint E f p).
Proof. unfold pb_enc_svarint. sized. Qed.
Lemma Sized_enc_fixed32 f p : Sized (pb_enc_fixed32 E f p).
Proof. apply Sized_fixed32. Qed.
Lemma Sized_enc_fixed64 f p : Sized (pb_enc_fixed64 E f p).
Proof. apply Sized_fixed64. Qed.

Lemma Sized_enc_bytes f p : Sized (pb_enc_bytes E f p).
Proof.
  unfold pb_enc_bytes. destruct (p =? 0); [apply Sized_string; lia|].
  apply Sized_load. intros v Hv. case_match; [sized|apply Sized_string].
  unfold sizeof_pb_size_t in Hv. lia.
Qed.

Lemma Sized_enc_string f p : field_typed f -> Sized (pb_enc_string E f p).
Proof.
  intros Hf. unfold pb_enc_string. pose proof (ft_data_size _ Hf).
  eapply Sized_reads_range with (P := fun n => 0 <= n < 2 ^ 64).
  - reads.
  - intros s c _. case_match; [apply wp_ret; lia|].
    eapply wp_mono; [|apply strnlen_range].
    + intros n s' c'. cbv beta. case_match; lia.
    + case_match; lia.
  - intros n Hn. by apply Sized_string.
Qed.

Lemma Sized_enc_fixed_length_bytes f p :
  field_typed f -> Sized (pb_enc_fixed_length_bytes E f p).
Proof. intros Hf. apply Sized_string. pose proof (ft_data_size _ Hf). lia. Qed.

Lemma Sized_array_loop n body p step :
  (forall q, Sized (body q)) -> Sized (array_loop n body p step).
Proof. intros Hb. revert p. induction n; intros p; cbn [array_loop]; sized. Qed.

(** ** Arrays *)

(** A writing pass, whatever was sized before. *)
Definition Writes (d : Z) (m : M pb_ostream_t bool) : Prop :=
  forall s c, os_callback s = OC_buf_write -> 0 <= os_bytes_written s <= os_max_size s ->
    os_max_size s + d < 2 ^ 64 -> writes_or_fails d s c (m s c).

Lemma Writes_array_loop w n body p step :
  0 <= w -> (forall q, Writes w (body q)) -> Writes (w * Z.of_nat n) (array_loop n body p step).
Proof.
  intros Hw Hb. revert p. induction n as [|n IH]; intros p s c Hcb Hbw Hmax; cbn [array_loop].
  - unfold writes_or_fails. rewrite Z.mul_0_r, Z.add_0_r. simpl.
    destruct (Z.leb_spec (os_bytes_written s) (os_max_size s)); [|lia].
    split; [done|apply wrote_refl].
  - rewrite Nat2Z.inj_succ, Z.mul_succ_r in *.
    apply okr_bind. eapply okr_mono; [|apply Hb; (done || lia)].
    intros [[b s1] c1]. case_bool.
    + intros [-> Hw1]. pose proof Hw1 as (A1 & A2 & _ & A4 & _).
      eapply okr_mono; [|apply IH; [congruence|lia|lia]]. intros [[b2 s2] c2].
      rewrite A2, A4.
      replace (os_bytes_written s + w + w * Z.of_nat n)
        with (os_bytes_written s + (w * Z.of_nat n + w)) by lia.
      case_bool; [|done]. intros [-> Hw2]. split; [done|].
      rewrite Z.add_comm. eapply wrote_trans; eauto; lia.
    + intros ->. destruct (Z.leb_spec (os_bytes_written s + (w * Z.of_nat n + w)) (os_max_size s));
        [lia|done].
Qed.

Lemma Writes_bind_load n a d (k : Z -> M pb_ostream_t bool) :
  (forall v, Writes d (k v)) -> Writes d (load n a ≫= k).
Proof.
  intros Hk s c Hcb Hbw Hmax. apply okr_bind.
  unfold load, read_mem, mbind, M_bind. destruct (read_bytes _ _ _); simpl; [|done].
  by apply Hk.
Qed.

Lemma Writes_fixed32 p : Writes 4 (pb_encode_fixed32 E p).
Proof. apply Writes_bind_load. intros v s c ???. apply pb_write_writes; (done || lia). Qed.
Lemma Writes_fixed64 p : Writes 8 (pb_encode_fixed64 E p).
Proof. apply Writes_bind_load. intros v s c ???. apply pb_write_writes; (done || lia). Qed.

(** ** Sizing, then writing *)

(** [Sized] for the memory [c] of the counting pass. *)
Definition SizedAt (c : cstate) (m : M pb_ostream_t bool) : Prop :=
  forall s s' c',
    os_callback s = OC_NULL -> 0 <= os_bytes_written s < 2 ^ 64 -> bytes_heap c ->
    m s c = Ret (true, s', c') ->
    exists d, 0 <= d
      /\ s' = mk_ostream OC_NULL (os_state s) (os_max_size s) (u64 (os_bytes_written s + d))
                (os_errmsg s)
      /\ c' = c
      /\ (forall c2, heap c ⊆ heap c2 -> m s c2 = Ret (true, s', c2))
      /\ (forall s2 c2, compat c s2 c2 -> os_max_size s2 + d < 2 ^ 64 ->
            writes_or_fails d s2 c2 (m s2 c2)).

Lemma Sized_at m : (forall c, SizedAt c m) -> Sized m.
Proof. intros H s c. apply H. Qed.

Lemma SizedAt_ext c m1 m2 : (forall s c, m1 s c = m2 s c) -> SizedAt c m1 -> SizedAt c m2.
Proof.
  intros Heq H s s' c' Hcb Hbw Hc. rewrite <-Heq. intros E1.
  destruct (H s s' c' Hcb Hbw Hc E1) as (d & ? & ? & ? & Hmono & Hw).
  exists d. split_and!; [done|done|done| |].
  - intros c2 Hsub. rewrite <-Heq. auto.
  - intros s2 c2 Hcompat Hmax. unfold writes_or_fails. rewrite <-Heq. by apply Hw.
Qed.

Lemma SizedAt_check c m k : Sized m -> SizedAt c k -> SizedAt c (check! m; k).
Proof.
  intros Hm Hk.
  (* the continuation is used in the memory [c] only *)
  intros s s' c' Hcb Hbw Hc. unfold mbind at 1, M_bind at 1.
  destruct (m s c) as [[[b s1] c1]| |] eqn:E1; try done.
  destruct b; [|done].
  destruct (Hm _ _ _ _ Hcb Hbw Hc E1) as (d1 & Hd1 & -> & -> & Hmono1 & Hw1). intros Ek.
  destruct (Hk _ _ _ (eq_refl : os_callback (mk_ostream OC_NULL _ _ _ _) = _)
              (u64_range _) Hc Ek) as (d2 & Hd2 & -> & -> & Hmono2 & Hw2).
  exists (d1 + d2). split; [lia|]. split_and!.
  - simpl. f_equal. unfold u64. rewrite Zplus_mod_idemp_l. f_equal. lia.
  - done.
  - intros c2 Hsub. erewrite bind_ret by (by apply Hmono1). by apply Hmono2.
  - intros s2 c2 Hcompat Hmax. apply okr_bind. eapply okr_mono; [|apply Hw1; [done|lia]].
    intros [[b s3] c3]. case_bool.
    + intros [-> Hwrote]. pose proof (compat_wrote _ _ _ _ _ _ Hcompat Hd1 H Hwrote) as Hc3.
      pose proof Hwrote as (_ & Hmax3 & _ & Hbw3 & _).
      eapply okr_mono; [|apply Hw2; [done|rewrite Hmax3; lia]].
      intros [[b' s4] c4]. rewrite Hmax3, Hbw3.
      replace (os_bytes_written s2 + d1 + d2) with (os_bytes_written s2 + (d1 + d2)) by lia.
      case_bool; [|done]. intros [-> Hwrote2]. split; [done|]. by eapply wrote_trans.
    + intros ->. simpl.
      by destruct (Z.leb_spec (os_bytes_written s2 + (d1 + d2)) (os_max_size s2)); [lia|].
Qed.

(** After the size has been written: count it, or write the contents. *)
Lemma SizedAt_contents c d size (body : pb_ostream_t -> M pb_ostream_t bool) :
  0 <= d -> size = u64 d ->
  (forall s2 c2, compat c s2 c2 -> os_max_size s2 + d < 2 ^ 64 ->
     writes_or_fails d s2 c2 (body s2 s2 c2)) ->
  SizedAt c (s ← get; if bool_decide (os_callback s = OC_NULL) then pb_write E (Mem 0) size
                      else body s).
Proof.
  intros Hd -> Hbody s s' c' Hcb Hbw Hc.
  assert (Heq : forall c2, (s0 ← get; if bool_decide (os_callback s0 = OC_NULL)
                     then pb_write E (Mem 0) (u64 d) else body s0) s c2
                   = Ret (true, os_advance s (u64 d), c2)).
  { intros c2. erewrite bind_ret by done. rewrite bool_decide_eq_true_2 by done.
    unfold pb_write. erewrite bind_ret by done.
    rewrite bool_decide_eq_true_2, andb_false_r by done. done. }
  rewrite Heq. intros [= <- <-]. exists d. split; [done|]. split_and!.
  - unfold os_advance. rewrite Hcb. f_equal. unfold u64. by rewrite Zplus_mod_idemp_r.
  - done.
  - intros c2 _. apply Heq.
  - intros s2 c2 Hcompat Hmax. unfold writes_or_fails. erewrite bind_ret by done.
    rewrite bool_decide_eq_false_2 by (destruct Hcompat as [-> _]; done). by apply Hbody.
Qed.

Lemma SizedAt_run_sizing c (m1 : M pb_ostream_t bool) (k : bool * pb_ostream_t -> M pb_ostream_t bool) :
  Sized m1 -> (forall s1, Fails (k (false, s1))) ->
  (forall s1 d, 0 <= d -> os_bytes_written s1 = u64 d ->
     (forall s2 c2, compat c s2 c2 -> os_max_size s2 + d < 2 ^ 64 ->
        writes_or_fails d s2 c2 (m1 s2 c2)) ->
     SizedAt c (k (true, s1))) ->
  SizedAt c (run_with PB_OSTREAM_SIZING m1 ≫= k).
Proof.
  intros Hm Hf Hk s s' c' Hcb Hbw Hc. unfold mbind at 1, M_bind at 1, run_with at 1.
  destruct (m1 PB_OSTREAM_SIZING c) as [[[b s1] c1]| |] eqn:E1; try done.
  destruct b; [|intros Ek; by apply Fails_not_true in Ek].
  assert (Hz : 0 <= os_bytes_written PB_OSTREAM_SIZING < 2 ^ 64) by (simpl; lia).
  destruct (Hm PB_OSTREAM_SIZING c _ _ eq_refl Hz Hc E1)
    as (d & Hd & -> & -> & Hmono & Hw). intros Ek.
  destruct ((fun e => Hk _ d Hd e Hw _ _ _ Hcb Hbw Hc Ek) eq_refl)
    as (d2 & Hd2 & -> & -> & Hmono2 & Hw2).
  exists d2. split; [done|]. split_and!; [done|done| |].
  - intros c2 Hsub. erewrite bind_ret by (by apply run_with_ret, Hmono). by apply Hmono2.
  - intros s2 c2 Hcompat Hmax. unfold writes_or_fails.
    erewrite bind_ret by (apply run_with_ret, Hmono, Hcompat). by apply Hw2.
Qed.

Lemma Sized_encode_array f p count func :
  0 <= count ->
  (forall q, Sized (call_encoder func f q)) ->
  (PB_LTYPE (type f) = PB_LTYPE_FIXED32 -> forall q, Writes 4 (call_encoder func f q)) ->
  (PB_LTYPE (type f) = PB_LTYPE_FIXED64 -> forall q, Writes 8 (call_encoder func f q)) ->
  Sized (encode_array E f p count func).
Proof.
  intros Hcount Hf H4 H8. unfold encode_array.
  destruct (count =? 0); [sized|]. destruct (negb _ && _); [sized|].
  destruct (_ <=? _); [|apply Sized_array_loop; sized].
  apply Sized_at. intros c. apply SizedAt_check; [sized|].
  assert (Hfixed : forall w, 0 <= w -> (forall q, Writes w (call_encoder func f q)) ->
    SizedAt c (check! pb_encode_varint E (u64 (w * count));
      s ← get; if bool_decide (os_callback s = OC_NULL)
               then pb_write E (Mem 0) (u64 (w * count))
               else array_loop (Z.to_nat count) (call_encoder func f) p (data_size f))).
  { intros w Hw Hq. apply SizedAt_check; [sized|].
    apply (SizedAt_contents c (w * count)); [lia|done|].
    intros s2 c2 (A1 & A2 & _) Hmax.
    pose proof (Writes_array_loop w (Z.to_nat count) (call_encoder func f) p (data_size f)
                  Hw Hq s2 c2 A1 A2) as Hwr.
    rewrite Z2Nat.id in Hwr by lia. by apply Hwr. }
  destruct (Z.eqb_spec (PB_LTYPE (type f)) PB_LTYPE_FIXED32) as [E4|].
  { exact (Hfixed 4 ltac:(lia) (H4 E4)). }
  destruct (Z.eqb_spec (PB_LTYPE (type f)) PB_LTYPE_FIXED64) as [E8|].
  { exact (Hfixed 8 ltac:(lia) (H8 E8)). }
  eapply SizedAt_ext; [|apply (SizedAt_run_sizing c
    (array_loop (Z.to_nat count) (call_encoder func f) p (data_size f))
    (fun r => match (if r.1 : bool then Some (os_bytes_written r.2) else None) with
              | None => mret false
              | Some size =>
                check! pb_encode_varint E size;
                s ← get;
                if bool_decide (os_callback s = OC_NULL) then pb_write E (Mem 0) size
                else array_loop (Z.to_nat count) (call_encoder func f) p (data_size f)
              end))].
  - intros s c2. unfold mbind, M_bind.
    by destruct (run_with _ _ s c2) as [[[[[] x] s1] c1]| |].
  - by apply Sized_array_loop.
  - intros s1. apply Fails_ret.
  - intros s1 d Hd Hbw Hw. simpl. apply SizedAt_check; [sized|].
    by apply (SizedAt_contents c d).
Qed.

Section Rec.
Context (fuel : nat) (rec : Z -> Z -> M pb_ostream_t bool).
Context (HE : env_typed E).
Context (Hrec : forall fields src, Sized (rec fields src)).
Context (Hfield : forall fn f p, Sized (env_field_encode E fn f p)).
Context (Hext : forall fn p, Sized (env_ext_encode E fn p)).

Lemma Fails_put_false s1 : Fails (_ ← put s1; mret false).
Proof. intros s c. done. Qed.

(** The writing pass of a submessage that was sized at [d] bytes. *)
Lemma submessage_writes c d fields src s2 c2 :
  0 <= d ->
  (forall s2 c2, compat c s2 c2 -> os_max_size s2 + d < 2 ^ 64 ->
      writes_or_fails d s2 c2 (rec fields src s2 c2)) ->
  compat c s2 c2 -> os_max_size s2 + d < 2 ^ 64 ->
  writes_or_fails d s2 c2
    ((if os_max_size s2 <? u64 (os_bytes_written s2 + d)
      then os_return_error "stream full"
      else
        q ← run_with (mk_ostream (os_callback s2) (os_state s2) d 0 None) (rec fields src);
        let substream := q.2 in
        _ ← put (mk_ostream (os_callback s2) (os_state substream) (os_max_size s2)
                   (u64 (os_bytes_written s2 + os_bytes_written substream))
                   (os_errmsg substream));
        if negb (os_bytes_written substream =? d)
        then os_return_error "submsg size changed"
        else mret q.1) s2 c2).
Proof.
  intros Hd Hw (C1 & C2 & C3 & C4) Hmax. rewrite u64_small by lia.
  unfold writes_or_fails.
  destruct (Z.leb_spec (os_bytes_written s2 + d) (os_max_size s2)).
  2:{ destruct (Z.ltb_spec (os_max_size s2) (os_bytes_written s2 + d)); [done|lia]. }
  destruct (Z.ltb_spec (os_max_size s2) (os_bytes_written s2 + d)); [lia|].
  apply okr_bind, okr_run_with. eapply okr_mono; [|apply Hw].
  - intros [[b s3] c3]. simpl os_bytes_written. simpl os_max_size. rewrite Z.add_0_l, Z.leb_refl.
    intros [-> (W1 & W2 & W3 & W4 & W5)]. simpl in W1, W2, W3, W4, W5.
    rewrite W4. unfold mbind, M_bind, put. simpl. rewrite Z.eqb_refl. simpl.
    split; [done|]. unfold wrote. simpl. rewrite u64_small by lia.
    split_and!; [done|done|done|done|done].
  - split; [done|]. split; [simpl; lia|]. split; [done|]. simpl. intros a Ha. apply C4. lia.
  - simpl. lia.
Qed.

Lemma Sized_submessage fields src : Sized (pb_encode_submessage E rec fields src).
Proof.
  apply Sized_at. intros c. unfold pb_encode_submessage.
  apply SizedAt_run_sizing; [apply Hrec| |].
  - intros s1 s c2. done.
  - intros s1 d Hd Hbw Hw. cbn [negb fst snd]. rewrite Hbw.
    apply SizedAt_check; [sized|].
    apply (SizedAt_contents c d _ (fun s =>
      if os_max_size s <? u64 (os_bytes_written s + u64 d)
      then os_return_error "stream full" else _)); [done|done|].
    intros s2 c2 Hcompat Hmax. destruct Hcompat as (C1 & C2 & C3).
    rewrite (u64_small d) by lia. by apply (submessage_writes c).
Qed.

Lemma Sized_enc_submessage f p : Sized (pb_enc_submessage E rec f p).
Proof. unfold pb_enc_submessage. case_match; [sized|apply Sized_submessage]. Qed.

Lemma Sized_call_encoder func f p :
  (forall g, func = Some g -> Sized (g f p)) -> Sized (call_encoder func f p).
Proof. intros Hg. unfold call_encoder. destruct func; [auto|sized]. Qed.

Lemma Sized_encoders i func f p :
  field_typed f -> PB_ENCODERS E rec !! i = Some func -> Sized (call_encoder func f p).
Proof.
  intros Hf Hi. apply Sized_call_encoder. intros g ->.
  do 11 (destruct i as [|i]; [simpl in Hi; simplify_eq;
    auto using Sized_enc_bool, Sized_enc_varint, Sized_enc_uvarint, Sized_enc_svarint,
      Sized_enc_fixed32, Sized_enc_fixed64, Sized_enc_bytes, Sized_enc_string,
      Sized_enc_submessage, Sized_enc_fixed_length_bytes|]).
  done.
Qed.

(** The element encoders of packed fixed-width arrays write fixed widths. *)
Lemma Writes_encoders_4 func f :
  PB_ENCODERS E rec !! Z.to_nat (PB_LTYPE (type f)) = Some func ->
  PB_LTYPE (type f) = PB_LTYPE_FIXED32 -> forall q, Writes 4 (call_encoder func f q).
Proof. intros Hi Ht q. rewrite Ht in Hi. simpl in Hi. simplify_eq. apply Writes_fixed32. Qed.
Lemma Writes_encoders_8 func f :
  PB_ENCODERS E rec !! Z.to_nat (PB_LTYPE (type f)) = Some func ->
  PB_LTYPE (type f) = PB_LTYPE_FIXED64 -> forall q, Writes 8 (call_encoder func f q).
Proof. intros Hi Ht q. rewrite Ht in Hi. simpl in Hi. simplify_eq. apply Writes_fixed64. Qed.

Lemma Sized_encode_basic_field f p :
  field_typed f -> Sized (encode_basic_field E fuel rec f p).
Proof.
  intros Hf. unfold encode_basic_field.
  apply Sized_of_option. intros func Hfunc.
  assert (Hcall : forall q, Sized (call_encoder func f q))
    by (intros q; by eapply Sized_encoders).
  pose proof (Writes_encoders_4 func f Hfunc) as H4.
  pose proof (Writes_encoders_8 func f Hfunc) as H8.
  cbv zeta.
  apply Sized_reads; [reads|]. intros implicit_has.
  apply Sized_reads; [reads|]. intros [q has].
  destruct (_ =? PB_HTYPE_REQUIRED); [sized|].
  destruct (_ =? PB_HTYPE_OPTIONAL).
  { apply Sized_reads; [reads|]. intros []; sized. }
  destruct (_ =? PB_HTYPE_REPEATED).
  { apply Sized_reads_range with (P := fun n => 0 <= n); [reads| |].
    - intros s c Hc. destruct (_ =? 0); [apply wp_ret; apply (ft_array_size _ Hf)|].
      eapply wp_mono; [|by apply load_range]. simpl. lia.
    - intros n Hn. by apply Sized_encode_array. }
  destruct (_ =? PB_HTYPE_ONEOF); [|sized].
  apply Sized_reads; [reads|]. intros n. sized.
Qed.

Lemma Sized_encode_callback_field f p : Sized (encode_callback_field E f p).
Proof.
  unfold encode_callback_field. apply Sized_reads; [reads|]. intros fn.
  destruct (negb _); [|sized]. apply Sized_bind; cbn [negb]; sized.
Qed.

Lemma Sized_encode_field f p : field_typed f -> Sized (encode_field E fuel rec f p).
Proof.
  intros Hf. unfold encode_field. case_match; [by apply Sized_encode_basic_field|].
  case_match; [apply Sized_encode_callback_field|sized].
Qed.

Lemma Sized_default_extension ext : Sized (default_extension_encoder E fuel rec ext).
Proof.
  unfold default_extension_encoder.
  apply Sized_reads; [reads|]. intros t. apply Sized_reads; [reads|]. intros arg.
  apply Sized_of_option. intros f Hf. pose proof (field_at_typed _ _ _ _ HE Hf).
  case_match; [by apply Sized_encode_field|].
  apply Sized_reads; [reads|]. intros dest. by apply Sized_encode_field.
Qed.
#[local] Hint Resolve Sized_default_extension : enc_size.

Lemma Sized_extension_loop n ext : Sized (extension_loop E fuel rec n ext).
Proof.
  revert ext. induction n as [|n IH]; intros ext; cbn [extension_loop]; [sized|].
  destruct (ext =? 0); [sized|].
  apply Sized_reads; [reads|]. intros t. apply Sized_reads; [reads|]. intros g.
  apply Sized_bind; [destruct (negb _); [apply Hext|sized]| |sized].
  apply Sized_reads; [reads|]. intros next. apply IH.
Qed.

Lemma Sized_encode_one it : Sized (encode_one E fuel rec it).
Proof.
  unfold encode_one. apply Sized_of_option. intros f Hf.
  pose proof (field_at_typed _ _ _ _ HE Hf).
  case_match; [|by apply Sized_encode_field].
  unfold encode_extension_field. apply Sized_reads; [reads|]. intros.
  apply Sized_extension_loop.
Qed.
End Rec.

Lemma Sized_iter_do_while n body it :
  (forall it, Sized (body it)) -> Sized (iter_do_while E n body it).
Proof.
  intros Hb. revert it. induction n as [|n IH]; intros it; cbn [iter_do_while]; [sized|].
  apply Sized_bind; [apply Hb| |sized]. apply Sized_of_option. intros [b it'] _.
  destruct b; [apply IH|sized].
Qed.

Section Encode.
Context (HE : env_typed E).
Context (Hfield : forall fn f p, Sized (env_field_encode E fn f p)).
Context (Hext : forall fn p, Sized (env_ext_encode E fn p)).

Lemma Sized_pb_encode n : forall fields src, Sized (pb_encode E n fields src).
Proof.
  induction n as [|n IH]; intros fields src; cbn [pb_encode]; [sized|].
  apply Sized_of_option. intros r _. case_match; [sized|].
  apply Sized_iter_do_while. intros it. by apply Sized_encode_one.
Qed.
End Encode.
End Size.

(** ** The two passes of the encoder *)

(** User callbacks count as they write. *)
Record size_env_ok (E : pb_env) : Prop := {
  so_typed : env_typed E;
  so_field : forall fn f p, Sized (env_field_encode E fn f p);
  so_ext : forall fn p, Sized (env_ext_encode E fn p);
}.

(** C5. [pb_get_encoded_size] is exact. When it answers [n] for a message, the
    machine is unchanged and [n] is the length [d] of the encoding (as a
    [size_t]); and [pb_encode] of the same message into any buffer that is no
    part of the memory sized returns [true] with [bytes_written = d] when the
    buffer has room for [d] bytes, and [false] when it has not. It never fails
    to terminate; it may only meet undefined behaviour in reading contents whose
    bytes the sizing pass had no need to read. *)
Theorem pb_get_encoded_size_exact E fuel fields src (st st' : unit) c c' n :
  size_env_ok E -> bytes_heap c ->
  pb_get_encoded_size E fuel fields src st c = Ret (Some n, st', c') ->
  exists d, 0 <= d /\ n = u64 d /\ c' = c
    /\ forall buf bufsize c2,
         heap c ⊆ heap c2 -> (forall a, buf <= a < buf + bufsize -> heap c !! a = None) ->
         0 <= bufsize -> bufsize + d < 2 ^ 64 ->
         match pb_encode E fuel fields src (pb_ostream_from_buffer buf bufsize) c2 with
         | Ret (b, s', _) =>
             if d <=? bufsize then b = true /\ os_bytes_written s' = d else b = false
         | Undef => True
         | NoFuel => False
         end.
Proof.
  intros [HT Hfield Hext] Hc. unfold pb_get_encoded_size, run_with, mbind, M_bind.
  destruct (pb_encode E fuel fields src PB_OSTREAM_SIZING c) as [[[b s1] c1]| |] eqn:Hrun;
    [|done|done].
  destruct b; [|done]. intros [= <- <- <-].
  destruct (Sized_pb_encode E HT Hfield Hext fuel fields src PB_OSTREAM_SIZING c s1 c1
              eq_refl ltac:(simpl; lia) Hc Hrun) as (d & Hd & -> & -> & _ & Hw).
  exists d. split_and!; [done|done|done|]. intros buf bufsize c2 Hsub Hbuf Hsz Hfit.
  specialize (Hw (pb_ostream_from_buffer buf bufsize) c2).
  unfold writes_or_fails in Hw. simpl in Hw. unfold okr in Hw.
  assert (Hcompat : compat c (pb_ostream_from_buffer buf bufsize) c2).
  { unfold compat. simpl. rewrite Z.sub_0_r. split_and!; [done|lia|lia|done|done]. }
  specialize (Hw Hcompat Hfit).
  destruct (pb_encode _ _ _ _ _ c2) as [[[b s'] c']| |]; [|done|done].
  rewrite Z.add_0_l in Hw. destruct (d <=? bufsize); [|done]. destruct Hw as [-> Hwr]. split; [done|].
  destruct Hwr as (_ & _ & _ & Hbw & _). simpl in Hbw. lia.
Qed.

(** The example, sized in the memory without the output buffer. *)
Definition ex_small : cstate :=
  set_heap ex_mem (unmap_range (heap ex_mem) ex_buf 64).

Lemma size_env_bare : size_env_ok bare_env.
Proof.
  split.
  - eapply fields_typed_env; [|done]. apply (bool_decide_unpack _). by vm_compute.
  - intros. apply Sized_undef.
  - intros. apply Sized_undef.
Qed.

Lemma pb_get_encoded_size_exact_witness :
  pb_get_encoded_size bare_env 2 point_desc ex_src tt ex_small = Ret (Some 17, tt, ex_small)
  /\ exists d, 0 <= d /\ 17 = u64 d /\ ex_small = ex_small
    /\ forall buf bufsize c2,
         heap ex_small ⊆ heap c2 ->
         (forall a, buf <= a < buf + bufsize -> heap ex_small !! a = None) ->
         0 <= bufsize -> bufsize + d < 2 ^ 64 ->
         match pb_encode bare_env 2 point_desc ex_src (pb_ostream_from_buffer buf bufsize) c2 with
         | Ret (b, s', _) =>
             if d <=? bufsize then b = true /\ os_bytes_written s' = d else b = false
         | Undef => True
         | NoFuel => False
         end.
Proof.
  assert (Hrun : pb_get_encoded_size bare_env 2 point_desc ex_src tt ex_small
                 = Ret (Some 17, tt, ex_small)) by (vm_compute; reflexivity).
  split; [exact Hrun|].
  apply (pb_get_encoded_size_exact bare_env 2 point_desc ex_src tt tt ex_small ex_small 17);
    [exact size_env_bare| |exact Hrun].
  intros a b Ha. revert a b Ha. change (map_Forall (fun _ b => is_byte b) (heap ex_small)).
  apply (bool_decide_unpack _). by vm_compute.
Defined.
