(* ===== verification/PbDecodeStream.v ===== *)
(** * nanopb: the decoders of values keep to their input, and stop

    The judgement for the theorems of [PbDecodeStops]: whatever the bytes and the memory, a
    decoder that returns has moved its memory stream forward, within the bytes it was handed;
    with [strict] it does not run out of fuel either. This file has its rules, and the
    decoders below those of a message: the reads, varints, tags, skipping, substreams and the
    decoders of scalars, strings and byte arrays. *)
From S2P Require Export PbEncodeSafe PbIter.

(** ** The judgement *)

(** Memory, and what the allocator puts in fresh memory, is bytes. *)
Definition machine_ok (c : cstate) : Prop := bytes_heap c /\ is_byte (junk c).

Definition tw (strict : bool) {St A} (m : M St A) (Q : A -> St -> Prop) (s : St) (c : cstate)
    : Prop :=
  match m s c with
  | Ret (a, s', c') => machine_ok c' /\ Q a s'
  | Undef => True
  | NoFuel => strict = false
  end.

Section Rules.
Context (strict : bool).

Lemma tw_ret {St A} (a : A) (Q : A -> St -> Prop) s c :
  machine_ok c -> Q a s -> tw strict (mret a) Q s c.
Proof. done. Qed.

Lemma tw_bind {St A B} (m : M St A) (k : A -> M St B) (P : A -> St -> Prop) Q s c :
  tw strict m P s c ->
  (forall a s' c', machine_ok c' -> P a s' -> tw strict (k a) Q s' c') ->
  tw strict (m ≫= k) Q s c.
Proof.
  unfold tw, mbind, M_bind. intros H Hk.
  destruct (m s c) as [[[a s'] c']| |]; [|done..]. destruct H. by apply Hk.
Qed.

Lemma tw_mono {St A} (m : M St A) (P Q : A -> St -> Prop) s c :
  tw strict m P s c -> (forall a s', P a s' -> Q a s') -> tw strict m Q s c.
Proof.
  unfold tw. intros H HPQ. destruct (m s c) as [[[a s'] c']| |]; [|done..].
  destruct H. auto.
Qed.

Lemma tw_run_with {St St' A} (s0 : St') (m : M St' A) (Q : A * St' -> St -> Prop) s c :
  tw strict m (fun a s1 => Q (a, s1) s) s0 c -> tw strict (run_with s0 m) Q s c.
Proof.
  unfold tw, run_with. by destruct (m s0 c) as [[[a s1] c1]| |].
Qed.

(** ** Computations that leave the object alone *)

Definition Quiet {St A} (m : M St A) (P : A -> Prop) : Prop :=
  forall s c, machine_ok c -> tw strict m (fun a s' => s' = s /\ P a) s c.

Lemma Quiet_tw {St A} (m : M St A) P (Q : A -> St -> Prop) s c :
  Quiet m P -> machine_ok c -> (forall a, P a -> Q a s) -> tw strict m Q s c.
Proof. intros Hm Hc H. eapply tw_mono; [by apply Hm|]. intros a s' [-> HP]. auto. Qed.

Lemma Quiet_bind {St A B} (m : M St A) (k : A -> M St B) P Q :
  Quiet m P -> (forall a, P a -> Quiet (k a) Q) -> Quiet (m ≫= k) Q.
Proof.
  intros Hm Hk s c Hc. eapply tw_bind; [by apply Hm|]. intros a s' c' Hc' [-> HP].
  by apply Hk.
Qed.

Lemma Quiet_mono {St A} (m : M St A) (P Q : A -> Prop) :
  Quiet m P -> (forall a, P a -> Q a) -> Quiet m Q.
Proof. intros Hm H s c Hc. eapply tw_mono; [by apply Hm|]. intros a s' [-> HP]. auto. Qed.

Lemma Quiet_ret {St A} (a : A) (P : A -> Prop) : P a -> @Quiet St A (mret a) P.
Proof. by intros HP s c Hc. Qed.
Lemma Quiet_undef {St A} P : @Quiet St A undef P.
Proof. by intros s c Hc. Qed.
Lemma Quiet_nofuel {St A} P : strict = false -> @Quiet St A nofuel P.
Proof. by intros H s c Hc. Qed.
Lemma Quiet_of_option {St A} (o : option A) : @Quiet St A (of_option o) (fun a => o = Some a).
Proof. destruct o; [by apply Quiet_ret|apply Quiet_undef]. Qed.

Lemma Quiet_read_mem {St} a n : @Quiet St _ (read_mem a n) bytes.
Proof.
  intros s c Hc. unfold tw, read_mem. destruct (read_bytes _ _ _) eqn:E; [|done].
  split_and!; [done..|]. by eapply read_bytes_bytes; [apply Hc|].
Qed.

Lemma Quiet_write_mem {St} a l : bytes l -> @Quiet St _ (write_mem a l) (fun _ => True).
Proof.
  intros Hl s c [Hh Hj]. unfold tw, write_mem. destruct (write_bytes _ _ _) eqn:E; [|done].
  split; [|done]. split; [|done]. by eapply bytes_heap_write.
Qed.

Lemma Quiet_load {St} n a : @Quiet St _ (load n a) (fun v => 0 <= v < 2 ^ (8 * Z.of_nat n)).
Proof.
  intros s c Hc. unfold load, tw, mbind, M_bind, read_mem.
  destruct (read_bytes _ _ _) eqn:E; [|done]. simpl. do 2 (split; [done|]).
  rewrite <-(read_bytes_length _ _ _ _ E).
  apply le_combine_range. by eapply read_bytes_bytes; [apply Hc|].
Qed.
Lemma Quiet_load_ptr {St} a : @Quiet St _ (load_ptr a) (fun _ => True).
Proof. by eapply Quiet_mono; [apply Quiet_load|]. Qed.
Lemma Quiet_store {St} n a v : @Quiet St _ (store n a v) (fun _ => True).
Proof. apply Quiet_write_mem, le_split_bytes. Qed.
Lemma Quiet_store_ptr {St} a v : @Quiet St _ (store_ptr a v) (fun _ => True).
Proof. apply Quiet_store. Qed.
Lemma Quiet_memset {St} a n : @Quiet St _ (memset a 0 n) (fun _ => True).
Proof. apply Quiet_write_mem. apply Forall_replicate. unfold is_byte. lia. Qed.
Lemma Quiet_memcpy {St} d p n : @Quiet St _ (memcpy d p n) (fun _ => True).
Proof. eapply Quiet_bind; [apply Quiet_read_mem|]. intros l Hl. by apply Quiet_write_mem. Qed.

(** *** The allocator *)

Lemma map_range_bytes h a n b :
  is_byte b -> map_Forall (fun _ => is_byte) h -> map_Forall (fun _ => is_byte) (map_range h a n b).
Proof.
  intros Hb. revert h a. induction n as [|n IH]; intros h a Hh; [done|]. simpl.
  by apply IH, map_Forall_insert_2.
Qed.

Lemma unmap_range_bytes h a n :
  map_Forall (fun _ => is_byte) h -> map_Forall (fun _ => is_byte) (unmap_range h a n).
Proof.
  revert h a. induction n as [|n IH]; intros h a Hh; [done|]. simpl.
  by apply IH, map_Forall_delete.
Qed.

Lemma Quiet_pb_free {St} p : @Quiet St _ (pb_free p) (fun _ => True).
Proof.
  intros s c [Hh Hj]. unfold tw, pb_free. destruct (p =? 0); [done|].
  destruct (blocks c !! p); [|done]. do 2 (split; [|done]). by apply unmap_range_bytes.
Qed.

Lemma Quiet_pb_realloc {St} p n : @Quiet St _ (pb_realloc p n) (fun _ => True).
Proof.
  intros s c [Hh Hj]. unfold pb_realloc, tw.
  destruct (_ || _); [done|]. set (c2 := CState _ _ _ _ _).
  assert (Hc2 : machine_ok c2) by (split; [by apply map_range_bytes|done]).
  destruct (p =? 0); [done|]. destruct (blocks c !! p) as [old|]; [|done].
  apply (Quiet_bind (St := St) _ _ (fun _ => True) (fun _ => True)); [apply Quiet_memcpy| |done].
  intros _ _. eapply Quiet_bind; [apply Quiet_pb_free|]. intros _ _. by apply Quiet_ret.
Qed.

Lemma Quiet_stack_alloc {St} n : @Quiet St _ (stack_alloc n) (fun _ => True).
Proof. intros s c [Hh Hj]. do 2 (split; [|done]). by apply map_range_bytes. Qed.
Lemma Quiet_stack_free {St} a n : @Quiet St _ (stack_free a n) (fun _ => True).
Proof. intros s c [Hh Hj]. do 2 (split; [|done]). by apply unmap_range_bytes. Qed.
End Rules.

Create HintDb dec_quiet.
#[export] Hint Resolve Quiet_undef Quiet_of_option Quiet_load Quiet_load_ptr Quiet_store
  Quiet_store_ptr Quiet_memset Quiet_memcpy Quiet_pb_free Quiet_pb_realloc Quiet_stack_alloc
  Quiet_stack_free : dec_quiet.

(** Walks down a computation that leaves the object alone; the calls it knows are in
    [dec_quiet], the answers of the others do not matter. *)
Ltac quiet :=
  repeat first
    [ progress intros
    | solve [eauto with dec_quiet nocore]
    | solve [eapply Quiet_mono; [eauto with dec_quiet nocore|done]]
    | apply Quiet_ret; done
    | lazymatch goal with
      | |- Quiet _ (_ ≫= _) _ => eapply Quiet_bind
      end
    | progress cbv beta zeta
    | case_match ].

(** ** Streams *)

(** A memory stream. *)
Definition good (s : pb_istream_t) : Prop :=
  is_callback s = IC_buf_read /\ 0 <= is_bytes_left s < 2 ^ 64.

(** [s'] is [s] moved forward within its bytes. *)
Definition adv (s s' : pb_istream_t) : Prop :=
  is_callback s' = is_callback s
  /\ 0 <= is_bytes_left s' <= is_bytes_left s
  /\ is_state s <= is_state s'
  /\ is_state s' + is_bytes_left s' <= is_state s + is_bytes_left s.

Lemma adv_refl s : good s -> adv s s.
Proof. intros []. split_and!; (done || lia). Qed.
Lemma adv_trans s1 s2 s3 : adv s1 s2 -> adv s2 s3 -> adv s1 s3.
Proof. intros (E1 & ? & ? & ?) (E2 & ? & ? & ?). split_and!; (congruence || lia). Qed.
Lemma adv_good s s' : good s -> adv s s' -> good s'.
Proof. intros [Hcb ?] (E & ? & ? & ?). split; [congruence|lia]. Qed.

Section Decoders.
Context (strict : bool) (E : pb_env).

(** From a memory stream [s]: forward only, and [Q] of the answer and the stream left. *)
Definition At {A} (s : pb_istream_t) (m : M pb_istream_t A) (Q : A -> pb_istream_t -> Prop)
    : Prop :=
  good s -> forall c, machine_ok c -> tw strict m (fun a s' => adv s s' /\ Q a s') s c.

Lemma At_ret {A} (a : A) s (Q : A -> pb_istream_t -> Prop) : Q a s -> At s (mret a) Q.
Proof. intros HQ Hs c Hc. by apply tw_ret; [|split; [apply adv_refl|]]. Qed.

Lemma At_undef {A} s (Q : A -> pb_istream_t -> Prop) : At s undef Q.
Proof. by intros Hs c Hc. Qed.
Lemma At_nofuel {A} s (Q : A -> pb_istream_t -> Prop) : strict = false -> At s nofuel Q.
Proof. by intros H Hs c Hc. Qed.

Lemma At_bind {A B} (m : M pb_istream_t A) (k : A -> M pb_istream_t B) P Q s :
  At s m P -> (forall a s', good s' -> adv s s' -> P a s' -> At s' (k a) Q) ->
  At s (m ≫= k) Q.
Proof.
  intros Hm Hk Hs c Hc. eapply tw_bind; [by apply Hm|]. intros a s' c' Hc' [Ha HP].
  assert (Hs' := adv_good _ _ Hs Ha).
  eapply tw_mono; [by apply Hk|]. intros b s'' [Hb HQ]. split; [by eapply adv_trans|done].
Qed.

Lemma At_mono {A} (m : M pb_istream_t A) (P Q : A -> pb_istream_t -> Prop) s :
  At s m P -> (forall a s', good s' -> adv s s' -> P a s' -> Q a s') -> At s m Q.
Proof.
  intros Hm H Hs c Hc. eapply tw_mono; [by apply Hm|]. intros a s' [Ha HP].
  split; [done|]. apply H; [by eapply adv_good|done..].
Qed.

Lemma At_quiet {A} (m : M pb_istream_t A) P Q s :
  Quiet strict m P -> (forall a, P a -> Q a s) -> At s m Q.
Proof.
  intros Hm HQ Hs c Hc. eapply Quiet_tw; [done..|]. intros a HP.
  split; [by apply adv_refl|auto].
Qed.

Lemma At_quiet_bind {A B} (m : M pb_istream_t A) (k : A -> M pb_istream_t B) P Q s :
  Quiet strict m P -> (forall a, P a -> At s (k a) Q) -> At s (m ≫= k) Q.
Proof.
  intros Hm Hk Hs c Hc. eapply tw_bind; [by apply Hm|]. intros a s' c' Hc' [-> HP]. by apply Hk.
Qed.

Lemma At_get {B} (k : pb_istream_t -> M pb_istream_t B) Q s :
  At s (k s) Q -> At s (get ≫= k) Q.
Proof. intros H Hs c Hc. exact (H Hs c Hc). Qed.

Lemma At_put s' (Q : unit -> pb_istream_t -> Prop) s : adv s s' -> Q tt s' -> At s (put s') Q.
Proof. by intros Ha HQ Hs c Hc. Qed.

Lemma At_put_bind {B} s' (k : M pb_istream_t B) Q s :
  adv s s' -> At s' k Q -> At s (_ ← put s'; k) Q.
Proof.
  intros Ha Hk. eapply At_bind; [by apply (At_put s' (fun _ s1 => s1 = s'))|].
  by intros _ ? _ _ ->.
Qed.

Lemma At_weaken {A} (m : M pb_istream_t A) (Q : A -> pb_istream_t -> Prop) s :
  (good s -> At s m Q) -> At s m Q.
Proof. intros H Hs. exact (H Hs Hs). Qed.

Lemma At_exhausted {A} s (Q : A -> pb_istream_t -> Prop) :
  (strict = true -> is_bytes_left s < 0) -> At s nofuel Q.
Proof.
  intros H. apply At_weaken. intros [_ ?]. apply At_nofuel.
  destruct strict; [|done]. specialize (H eq_refl). lia.
Qed.

Lemma At_fail {A} (r : A) msg Q s :
  (forall s', is_bytes_left s' = is_bytes_left s -> Q r s') -> At s (is_fail r msg) Q.
Proof.
  intros HQ. apply At_get, At_weaken. intros Hs. apply At_put_bind; [exact (adv_refl s Hs)|].
  apply At_ret, HQ. done.
Qed.

Lemma At_run_with {A B} s0 (m : M pb_istream_t A) P (k : A * pb_istream_t -> M pb_istream_t B) Q s :
  good s0 -> At s0 m P ->
  (forall a s1, good s1 -> adv s0 s1 -> P a s1 -> At s (k (a, s1)) Q) ->
  At s (run_with s0 m ≫= k) Q.
Proof.
  intros Hs0 Hm Hk Hs c Hc. eapply tw_bind.
  - apply tw_run_with with (Q := fun r s' => s' = s /\ adv s0 r.2 /\ P r.1 r.2).
    eapply tw_mono; [by apply Hm|]. intros a s' [Ha HP]. split; [done|]. by split.
  - intros [a s1] s' c' Hc' (-> & Ha & HP). apply Hk; [exact (adv_good _ _ Hs0 Ha)|done..].
Qed.

(** ** Reading *)

Lemma read_loop_quiet {St} buf source i n :
  @Quiet strict St _ (read_loop buf source i n)
    (fun l => bytes l /\ (buf = RLocal -> length l = n)).
Proof.
  revert i. induction n as [|n IH]; intros i; cbn [read_loop].
  { apply Quiet_ret. by split; [constructor|]. }
  eapply Quiet_bind; [apply Quiet_load|]. intros b Hb.
  change (is_byte b) in Hb. destruct buf as [| |p].
  1,2: eapply Quiet_bind; [apply IH|]; intros l [Hl Hn]; apply Quiet_ret; split;
    [by constructor
    |intros Hb0; simpl; auto].
  eapply Quiet_bind; [apply Quiet_store|]. intros _ _. eapply Quiet_mono; [apply IH|]. by intros l [].
Qed.

Definition got (buf : rbuf) (count : Z) (s : pb_istream_t) (r : bool * list Z)
    (s' : pb_istream_t) : Prop :=
  r.1 = true ->
  is_bytes_left s' = is_bytes_left s - count
  /\ (buf = RLocal -> bytes r.2 /\ length r.2 = Z.to_nat count).

Lemma buf_read_left buf count s c (Q : bool * list Z -> pb_istream_t -> Prop) :
  machine_ok c ->
  (forall l, bytes l -> (buf = RLocal -> length l = Z.to_nat count) ->
     Q (true, l) (mk_istream (is_callback s) (is_state s + count) (is_bytes_left s) (is_errmsg s))) ->
  tw strict (buf_read buf count) Q s c.
Proof.
  intros Hc HQ. unfold buf_read.
  set (s1 := mk_istream _ (_ + _) _ _) in *.
  apply (tw_bind strict get _ (fun a s' => a = s /\ s' = s)); [done|]. intros ? ? c1 Hc1 [-> ->].
  apply (tw_bind strict (put s1) _ (fun _ s' => s' = s1)); [done|]. intros _ ? c2 Hc2 ->.
  eapply tw_bind.
  - assert (HL : Quiet strict (match buf with RNull => mret [] | _ => read_loop buf (is_state s) 0 (Z.to_nat count) end : M pb_istream_t (list Z))
       (fun l => bytes l /\ (buf = RLocal -> length l = Z.to_nat count))).
    { destruct buf; [apply Quiet_ret; by split; [constructor|]|apply read_loop_quiet..]. }
    by apply HL.
  - intros l ? c3 Hc3 [-> [Hl Hn]]. apply tw_ret; auto.
Qed.

Lemma pb_read_data_at buf count s :
  0 <= count -> At s (pb_read_data E buf count) (got buf count s).
Proof.
  intros Hn. unfold pb_read_data. destruct (Z.eqb_spec count 0) as [->|].
  { apply At_ret. intros _. split; [simpl; lia|]. simpl. by split; [constructor|]. }
  apply At_get. destruct (Z.ltb_spec (is_bytes_left s) count).
  { apply At_fail. by intros s' _ [=]. }
  intros [Hcb Hlt] c Hc. rewrite Hcb. cbn [icallback_call].
  eapply tw_bind; [apply buf_read_left with (Q := fun r s' => r.1 = true /\ bytes r.2
     /\ (buf = RLocal -> length r.2 = Z.to_nat count)
     /\ s' = mk_istream (is_callback s) (is_state s + count) (is_bytes_left s) (is_errmsg s)); auto|].
  intros r ? c1 Hc1 (Hr & Hb & Hlen & ->). rewrite Hr. cbn [negb].
  split; [done|]. rewrite u64_small by (simpl; lia). simpl.
  split; [split_and!; simpl; (done || lia)|]. intros _. by split; [|split; [|auto]].
Qed.

Lemma pb_read_at buf count s :
  0 <= count -> At s (pb_read E buf count) (got buf count s).
Proof.
  intros Hn. unfold pb_read. destruct (Z.eqb_spec count 0) as [->|].
  { apply At_ret. intros _. split; [simpl; lia|]. simpl. by split; [constructor|]. }
  apply At_get. destruct buf; [|by apply pb_read_data_at..].
  apply At_weaken. intros [Hcb _]. rewrite bool_decide_true by done. by apply pb_read_data_at.
Qed.

Lemma pb_read_ok_at buf count s :
  0 <= count ->
  At s (pb_read_ok E buf count)
    (fun ok s' => ok = true -> is_bytes_left s' = is_bytes_left s - count).
Proof.
  intros Hn. eapply At_bind; [by apply pb_read_at|]. intros r s' _ _ Hr. apply At_ret.
  intros Hok. by apply Hr.
Qed.

Lemma pb_readbyte_at s :
  At s (pb_readbyte E) (fun o s' =>
    match o with
    | Some b => is_byte b /\ is_bytes_left s' = is_bytes_left s - 1
    | None => True
    end).
Proof.
  apply At_get. destruct (Z.eqb_spec (is_bytes_left s) 0).
  { by apply At_fail. }
  intros [Hcb Hlt] c Hc. rewrite Hcb. cbn [icallback_call].
  eapply tw_bind; [apply buf_read_left with (Q := fun r s' => r.1 = true /\ bytes r.2
     /\ length r.2 = 1%nat
     /\ s' = mk_istream (is_callback s) (is_state s + 1) (is_bytes_left s) (is_errmsg s)); auto|].
  intros [ok l] ? c1 Hc1 (Hr & Hb & Hlen & ->). simpl in *. subst ok. cbn [negb].
  destruct l as [|b [|]]; try done. split; [done|]. rewrite u64_small by (simpl; lia). simpl.
  split; [split_and!; simpl; (done || lia)|]. by split; [apply (Forall_inv Hb)|].
Qed.

(** ** Varints and tags *)

(** The answer of a decoder that reads at least a byte when it succeeds. *)
Definition ate {A} (P : A -> Prop) (s : pb_istream_t) (o : option A) (s' : pb_istream_t) : Prop :=
  match o with
  | Some v => P v /\ is_bytes_left s' < is_bytes_left s
  | None => True
  end.

Definition is_u32 (v : Z) : Prop := 0 <= v < 2 ^ 32.

Lemma varint32_loop_at fuel : forall bitpos result s,
  is_u32 result -> (strict = true -> is_bytes_left s < Z.of_nat fuel) ->
  At s (varint32_loop E fuel bitpos result) (ate is_u32 s).
Proof.
  induction fuel as [|fuel IH]; intros bitpos result s Hr Hf.
  { by apply At_exhausted. }
  cbn [varint32_loop]. eapply At_bind; [apply pb_readbyte_at|]. intros [byte|] s1 Hs1 Ha; [|by intros; apply At_ret].
  intros [Hb Hleft]. cbv zeta. destruct (_ && _); [by apply At_fail|].
  set (r := if 32 <=? bitpos then _ else _).
  assert (Hr' : is_u32 r).
  { unfold r. case_bool; [done|]. apply lor_range; [lia|done|]. apply u32_range. }
  destruct (negb _).
  - eapply At_mono; [apply IH; [done|]|].
    + intros H. specialize (Hf H). lia.
    + intros [v|] s' _ _; [|done]. intros [? ?]. split; [done|lia].
  - destruct (_ && _); [by apply At_fail|]. apply At_ret. split; [done|lia].
Qed.

Lemma pb_decode_varint32_eof_at s :
  At s (pb_decode_varint32_eof E) (fun r => ate is_u32 s r.1).
Proof.
  apply At_get. eapply At_bind; [apply pb_readbyte_at|]. intros [byte|] s1 Hs1 Ha.
  - intros [Hb Hleft]. unfold is_byte in Hb. case_bool.
    + apply At_ret. unfold ate, is_u32. simpl. lia.
    + eapply At_bind; [apply varint32_loop_at|].
      * rewrite land_7F. unfold is_u32. pose proof (Z.mod_pos_bound byte 128). lia.
      * destruct Hs1. lia.
      * intros r s2 _ _ Hr. apply At_ret. destruct r as [v|]; [|done]. destruct Hr as [? ?].
        split; [done|lia].
  - intros _. by apply At_get, At_ret.
Qed.

Lemma pb_decode_varint32_at s : At s (pb_decode_varint32 E) (ate is_u32 s).
Proof.
  eapply At_bind; [apply pb_decode_varint32_eof_at|]. intros r s1 _ _ Hr. by apply At_ret.
Qed.

Lemma varint64_loop_at k : forall i result s,
  (i <= 10)%nat -> (i + k = 11)%nat ->
  At s (varint64_loop E k (7 * Z.of_nat i) result) (ate (fun _ => True) s).
Proof.
  induction k as [|k IH]; intros i result s Hi Hk; cbn [varint64_loop]; [lia|].
  destruct (Z.leb_spec 64 (7 * Z.of_nat i)); [by apply At_fail|].
  eapply At_bind; [apply pb_readbyte_at|]. intros [byte|] s1 _ _; [|by intros; apply At_ret].
  intros [_ Hleft]. cbv zeta. destruct (negb _); [|by apply At_ret; split; [|lia]].
  rewrite u8_small by lia. replace (7 * Z.of_nat i + 7) with (7 * Z.of_nat (S i)) by lia.
  eapply At_mono; [apply IH; lia|]. intros [v|] s2 _ _; [|done]. intros [_ ?]. split; [done|lia].
Qed.

Lemma pb_decode_varint_at s : At s (pb_decode_varint E) (ate (fun _ => True) s).
Proof. apply (varint64_loop_at 11 0); lia. Qed.

Lemma pb_decode_svarint_at s : At s (pb_decode_svarint E) (ate (fun _ => True) s).
Proof.
  eapply At_bind; [apply pb_decode_varint_at|]. intros [v|] s1 _ _; [|by intros; apply At_ret].
  intros [_ ?]. by apply At_ret.
Qed.

Definition ate_if (s : pb_istream_t) (ok : bool) (s' : pb_istream_t) : Prop :=
  ok = true -> is_bytes_left s' < is_bytes_left s.

Lemma skip_varint_loop_at fuel : forall s,
  (strict = true -> is_bytes_left s < Z.of_nat fuel) ->
  At s (skip_varint_loop E fuel) (fun _ _ => True).
Proof.
  induction fuel as [|fuel IH]; intros s Hf; cbn [skip_varint_loop].
  { by apply At_exhausted. }
  eapply At_bind; [by apply pb_read_at|]. intros [[|] l] s1 _ _ Hr; [|by apply At_ret].
  destruct (Hr eq_refl) as [Hleft Hl]. destruct Hl as [_ Hl]; [done|]. simpl in Hl.
  destruct l as [|b l]; [done|]. simpl. eapply At_quiet_bind; [by apply Quiet_ret with (P := fun a => True)|].
  intros byte _. destruct (negb _); [|by apply At_ret]. apply IH. intros H. specialize (Hf H). lia.
Qed.

Lemma pb_skip_varint_at s : At s (pb_skip_varint E) (fun _ _ => True).
Proof.
  apply At_get, At_weaken. intros [_ ?]. apply skip_varint_loop_at. lia.
Qed.

Lemma At_true {A} (m : M pb_istream_t A) P s : At s m P -> At s m (fun _ _ => True).
Proof. intros H. by eapply At_mono; [apply H|]. Qed.

Lemma pb_skip_string_at s : At s (pb_skip_string E) (fun _ _ => True).
Proof.
  eapply At_bind; [apply pb_decode_varint32_at|]. intros [n|] s1 _ _; [|by intros; apply At_ret].
  intros [[? _] _]. by eapply At_true, pb_read_ok_at.
Qed.

Lemma pb_decode_tag_at s :
  At s (pb_decode_tag E) (fun t s' =>
    tr_ok t = true -> is_bytes_left s' < is_bytes_left s /\ 0 <= tr_tag t < 2 ^ 29).
Proof.
  eapply At_bind; [apply pb_decode_varint32_eof_at|]. intros [[v|] eof] s1 _ _ Hr; simpl in *.
  - destruct Hr as [Hv ?]. destruct (v =? 0); apply At_ret; [done|]. intros _. split; [done|].
    simpl. rewrite Z.shiftr_div_pow2 by lia. unfold is_u32 in Hv. change (2 ^ 3) with 8. div_lia.
  - by apply At_ret.
Qed.

Lemma pb_skip_field_at w s : At s (pb_skip_field E w) (fun _ _ => True).
Proof.
  unfold pb_skip_field. repeat case_bool.
  - apply pb_skip_varint_at.
  - by eapply At_true, pb_read_ok_at.
  - apply pb_skip_string_at.
  - by eapply At_true, pb_read_ok_at.
  - by apply At_fail.
Qed.

Lemma raw_varint_loop_at n : forall buf size s,
  0 <= size ->
  At s (raw_varint_loop E n buf size)
    (fun o _ => forall v, o = Some v -> 0 <= v <= size + Z.of_nat n).
Proof.
  induction n as [|n IH]; intros buf size s Hsz; cbn [raw_varint_loop]; [by apply At_ret|].
  eapply At_bind; [by apply pb_read_ok_at|]. intros [|] s1 _ _ _; [|by apply At_ret].
  eapply At_quiet_bind; [apply Quiet_load|]. intros b _. destruct (negb _).
  - eapply At_mono; [apply IH; lia|]. intros o s' _ _ H v Hv. specialize (H v Hv). lia.
  - apply At_ret. intros v [= <-]. lia.
Qed.

Lemma read_raw_value_at w buf mx s :
  8 <= mx ->
  At s (read_raw_value E w buf mx) (fun o _ => forall v, o = Some v -> 0 <= v <= mx).
Proof.
  intros Hmx. unfold read_raw_value. repeat case_bool.
  - eapply At_mono; [by apply raw_varint_loop_at|]. intros o s' _ _ H v Hv.
    specialize (H v Hv). lia.
  - eapply At_bind; [by apply pb_read_ok_at|]. intros [|] s1 _ _ _; apply At_ret; [|done].
    intros v [= <-]. lia.
  - eapply At_bind; [by apply pb_read_ok_at|]. intros [|] s1 _ _ _; apply At_ret; [|done].
    intros v [= <-]. lia.
  - by apply At_fail.
Qed.

(** ** Substreams *)

(** While a substream of [s0] is open its parent [s] has given its bytes away but has
    not moved: the distance is measured from [s0]. *)
Definition opened (s0 s sub : pb_istream_t) : Prop :=
  adv s0 s /\ good sub
  /\ is_state s0 <= is_state sub
  /\ is_state sub + is_bytes_left sub + is_bytes_left s <= is_state s0 + is_bytes_left s0
  /\ is_bytes_left s < is_bytes_left s0 /\ is_bytes_left sub < is_bytes_left s0.

Lemma opened_adv s0 s sub sub' : opened s0 s sub -> adv sub sub' -> opened s0 s sub'.
Proof.
  intros (Ha & Hs & ? & ? & ? & ?) Hv. split_and!; [done|by eapply adv_good| | | |];
    destruct Hv as (_ & ? & ? & ?); try done; lia.
Qed.

Definition From {A} (s0 s : pb_istream_t) (m : M pb_istream_t A)
    (Q : A -> pb_istream_t -> Prop) : Prop :=
  forall c, machine_ok c -> tw strict m (fun a s' => adv s0 s' /\ Q a s') s c.

Lemma From_At {A} s0 s (m : M pb_istream_t A) Q :
  good s0 -> adv s0 s -> At s m Q -> From s0 s m Q.
Proof.
  intros H0 Ha Hm c Hc. eapply tw_mono; [apply Hm; [by eapply adv_good|done]|].
  intros a s' [? ?]. split; [by eapply adv_trans|done].
Qed.

Lemma From_quiet_bind {A B} (m : M pb_istream_t A) (k : A -> M pb_istream_t B) P Q s0 s :
  Quiet strict m P -> (forall a, P a -> From s0 s (k a) Q) -> From s0 s (m ≫= k) Q.
Proof.
  intros Hm Hk c Hc. eapply tw_bind; [by apply Hm|]. intros a s' c' Hc' [-> HP]. by apply Hk.
Qed.

Lemma From_run_with {A B} sub (m : M pb_istream_t A) P
    (k : A * pb_istream_t -> M pb_istream_t B) Q s0 s :
  opened s0 s sub -> At sub m P ->
  (forall a sub', opened s0 s sub' -> P a sub' -> From s0 s (k (a, sub')) Q) ->
  From s0 s (run_with sub m ≫= k) Q.
Proof.
  intros Ho Hm Hk c Hc. eapply tw_bind.
  - apply tw_run_with with (Q := fun r s' => s' = s /\ adv sub r.2 /\ P r.1 r.2).
    eapply tw_mono; [apply Hm; [apply Ho|done]|]. intros a s' [Ha HP]. split; [done|]. by split.
  - intros [a s1] s' c' Hc' (-> & Ha & HP). apply Hk; [by eapply opened_adv|done..].
Qed.

Lemma From_close {B} sub (k : bool -> M pb_istream_t B) Q s0 s :
  good s0 -> opened s0 s sub ->
  (forall ok s', adv s0 s' -> is_bytes_left s' < is_bytes_left s0 -> At s' (k ok) Q) ->
  From s0 s (pb_close_string_substream E sub ≫= k) Q.
Proof.
  intros H0 Ho Hk c Hc.
  assert (Hread : tw strict (pb_close_string_substream E sub)
            (fun _ s' => adv s0 s' /\ is_bytes_left s' < is_bytes_left s0) s c).
  { unfold pb_close_string_substream.
    eapply tw_bind with (P := fun r s' => s' = s /\ opened s0 s r.2).
    - destruct (negb _); [|by apply tw_ret].
      apply tw_run_with. eapply tw_mono; [apply pb_read_ok_at; [apply Ho|apply Ho|done]|].
      intros a s' [Ha _]. split; [done|]. by eapply opened_adv.
    - intros [ok sub'] s' c' Hc' [-> Ho']. simpl in *. destruct Ho' as (Ha & Hs & ? & ? & ? & ?).
      destruct ok; [|by split]. split; [done|]. split; [|done].
      destruct Ha as (? & ? & ? & ?), Hs. split_and!; simpl; (done || lia). }
  eapply tw_bind; [exact Hread|]. intros ok s' c' Hc' [Ha Hl].
  apply (From_At s0 s'); auto.
Qed.

Lemma At_substream {B} (k : option pb_istream_t -> M pb_istream_t B) Q s0 :
  (forall s, At s (k None) Q) ->
  (forall s sub, good s0 -> opened s0 s sub -> From s0 s (k (Some sub)) Q) ->
  At s0 (pb_make_string_substream E ≫= k) Q.
Proof.
  intros Hnone Hsome H0 c Hc.
  eapply tw_bind with (P := fun o s => adv s0 s /\
    match o with Some sub => opened s0 s sub | None => True end).
  - eapply tw_bind; [by apply pb_decode_varint32_at|]. intros [n|] s c' Hc' [Ha Hn]; [|by apply tw_ret].
    assert (Hs := adv_good _ _ H0 Ha). destruct Hn as [Hn Hleft]. unfold is_u32 in Hn.
    assert (HA : At s (s ← get; if is_bytes_left s <? n then is_fail None "parent stream too short"
        else _ ← put (is_set_bytes_left s (u64 (is_bytes_left s - n)));
             mret (Some (is_set_bytes_left s n)))
      (fun o s' => match o with Some sub => opened s0 s' sub | None => True end)).
    { apply At_get. destruct (Z.ltb_spec (is_bytes_left s) n); [by apply At_fail|].
      destruct Hs as [Hcb Hlt]. rewrite u64_small by lia.
      apply At_put_bind; [split_and!; simpl; (done || lia)|]. apply At_ret.
      destruct H0, Ha as (? & ? & ? & ?).
      split_and!; simpl; try (done || lia). all: split_and!; simpl; (done || lia). }
    eapply tw_mono; [by apply HA|]. intros o s' [Ha' Ho]. split; [by eapply adv_trans|done].
  - intros [sub|] s c' Hc' [Ha Ho].
    + by apply Hsome.
    + by apply (From_At s0 s).
Qed.

(** ** Field decoders *)

Definition Decodes (m : M pb_istream_t bool) : Prop := forall s, At s m (fun _ _ => True).

Lemma allocate_field_at p n k s : At s (allocate_field p n k) (fun _ _ => True).
Proof.
  unfold allocate_field. eapply At_quiet_bind; [apply Quiet_load_ptr|]. intros q _.
  case_match; [by apply At_fail|]. cbv zeta. case_match; [by apply At_fail|].
  eapply At_quiet_bind; [apply Quiet_pb_realloc|]. intros q' _.
  case_match; [by apply At_fail|]. eapply At_quiet_bind; [apply Quiet_store_ptr|].
  intros _ _. by apply At_ret.
Qed.

(** [if (!m) return false; k] and its two relatives. *)
Lemma At_check {A} (m : M pb_istream_t bool) (k : M pb_istream_t A) (r : A) P Q s :
  At s m P -> (forall s', Q r s') ->
  (forall s', good s' -> adv s s' -> P true s' -> At s' k Q) ->
  At s (ok ← m; if ok : bool then k else mret r) Q.
Proof.
  intros Hm Hr Hk. eapply At_bind; [exact Hm|]. intros [|] s' Hs' Ha HP; [auto|by apply At_ret].
Qed.

Lemma store_clamped_quiet {St} cl n d v : @Quiet strict St _ (store_clamped cl n d v) (fun _ => True).
Proof. unfold store_clamped. quiet. Qed.

Lemma check_clamped_at o v : Decodes (check_clamped o v).
Proof.
  intros s. unfold check_clamped. destruct o; [|by apply At_fail].
  case_match; [by apply At_fail|by apply At_ret].
Qed.

Lemma clamped_at cl n d v : Decodes (c ← store_clamped cl n d v; check_clamped c v).
Proof.
  intros s. eapply At_quiet_bind; [apply store_clamped_quiet|]. intros c _. apply check_clamped_at.
Qed.

(** A scalar decoder reads at least a byte when it succeeds. *)
Definition Eats (d : pb_decoder_t) : Prop := forall f p s, At s (d f p) (ate_if s).

Lemma Eats_value {A} (m : M pb_istream_t (option A)) P (k : A -> M pb_istream_t bool) s :
  At s m (ate P s) -> (forall a, Decodes (k a)) ->
  At s (o ← m; match o with Some x => k x | None => mret false end) (ate_if s).
Proof.
  intros Hm Hk. eapply At_bind; [exact Hm|]. intros [a|] s' _ _ Ha; [|by apply At_ret].
  destruct Ha as [_ Ha]. eapply At_mono; [apply Hk|]. intros b s'' _ (_ & ? & _) _ _. lia.
Qed.

Lemma Eats_bool : Eats (pb_dec_bool E).
Proof.
  intros f p s. eapply Eats_value; [apply pb_decode_varint32_at|]. intros v s'.
  eapply At_quiet_bind; [apply Quiet_store|]. intros _ _. by apply At_ret.
Qed.
Lemma Eats_varint : Eats (pb_dec_varint E).
Proof.
  intros f p s. eapply Eats_value; [apply pb_decode_varint_at|]. intros v. apply clamped_at.
Qed.
Lemma Eats_uvarint : Eats (pb_dec_uvarint E).
Proof.
  intros f p s. eapply Eats_value; [apply pb_decode_varint_at|]. intros v. apply clamped_at.
Qed.
Lemma Eats_svarint : Eats (pb_dec_svarint E).
Proof.
  intros f p s. eapply Eats_value; [apply pb_decode_svarint_at|]. intros v. apply clamped_at.
Qed.

Lemma Eats_fixed32 : Eats (pb_dec_fixed32 E).
Proof.
  intros f p s. eapply At_bind; [by apply pb_read_at|]. intros [[|] l] s1 _ _ Hr; [|by apply At_ret].
  destruct (Hr eq_refl) as [Hleft _]. simpl. do 5 (destruct l as [|? l]; try apply At_undef).
  eapply At_quiet_bind; [apply Quiet_store|]. intros _ _. apply At_ret. intros _. lia.
Qed.
Lemma Eats_fixed64 : Eats (pb_dec_fixed64 E).
Proof.
  intros f p s. eapply At_bind; [by apply pb_read_at|]. intros [[|] l] s1 _ _ Hr; [|by apply At_ret].
  destruct (Hr eq_refl) as [Hleft _]. simpl. do 9 (destruct l as [|? l]; try apply At_undef).
  eapply At_quiet_bind; [apply Quiet_store|]. intros _ _. apply At_ret. intros _. lia.
Qed.

(** The destination of a variable-length value: allocated, or checked for room. *)
Lemma sized_dest_at (is_ptr too_long : bool) msg1 msg2 p n size s :
  At s (if is_ptr then
          s ← get;
          if is_bytes_left s <? size then is_fail None msg1
          else checko! allocate_field p n 1; q ← load_ptr p; mret (Some q)
        else if too_long then is_fail None msg2
        else mret (Some p)) (fun _ _ => True).
Proof.
  destruct is_ptr; [|destruct too_long].
  - apply At_get. case_match; [by apply At_fail|].
    eapply At_check; [apply allocate_field_at|done|]. intros s' _ _ _.
    eapply At_quiet_bind; [apply Quiet_load_ptr|]. intros q _. by apply At_ret.
  - by apply At_fail.
  - by apply At_ret.
Qed.

Lemma pb_dec_bytes_at f p : Decodes (pb_dec_bytes E f p).
Proof.
  intros s. eapply At_bind; [apply pb_decode_varint32_at|]. intros [n|] s1 _ _; [|by intros; apply At_ret].
  intros [[Hn _] _]. case_bool; [by apply At_fail|]. cbv zeta. case_bool; [by apply At_fail|].
  eapply At_bind; [apply sized_dest_at|]. intros [q|] s2 _ _ _; [|by apply At_ret].
  eapply At_quiet_bind; [apply Quiet_store|]. intros _ _. by eapply At_true, pb_read_ok_at.
Qed.

Lemma pb_dec_string_at f p : Decodes (pb_dec_string E f p).
Proof.
  intros s. eapply At_bind; [apply pb_decode_varint32_at|]. intros [n|] s1 _ _; [|by intros; apply At_ret].
  intros [[Hn _] _]. cbv zeta. case_bool; [by apply At_fail|].
  eapply At_bind; [apply sized_dest_at|]. intros [q|] s2 _ _ _; [|by apply At_ret].
  eapply At_bind; [by apply pb_read_ok_at|]. intros ok s3 _ _ _.
  eapply At_quiet_bind; [apply Quiet_store|]. intros _ _. by apply At_ret.
Qed.

Lemma pb_dec_fixed_length_bytes_at f p : Decodes (pb_dec_fixed_length_bytes E f p).
Proof.
  intros s. eapply At_bind; [apply pb_decode_varint32_at|]. intros [n|] s1 _ _; [|by intros; apply At_ret].
  intros [[Hn _] _]. case_bool; [by apply At_fail|]. case_bool.
  - eapply At_quiet_bind; [apply Quiet_memset|]. intros _ _. by apply At_ret.
  - destruct (Z.eqb_spec n (data_size f)) as [<-|]; [|by apply At_fail]. simpl.
    by eapply At_true, pb_read_ok_at.
Qed.
End Decoders.
