(* ===== verification/PbDecodeStops.v ===== *)
(** * nanopb: a decoder keeps to its input, and stops

    The decoder of a message, over the judgement of [PbDecodeStream]: [pb_decode] and
    [pb_decode_noinit] move a memory stream forward within its bytes, and when the messages
    nest finitely deep they return, or the C program is undefined: a fuel above the depth of
    nesting plus the bytes of input is never what stops them. *)
From S2P Require Export PbDecodeStream.

Section Message.
Context (strict : bool) (E : pb_env).
Local Notation At := (At strict).
Local Notation From := (From strict).

(** ** Nested messages *)

(** The messages of the descriptor array at [a] nest at most [k] deep, and have no
    extensions: those are linked lists in memory, which can be circular. A submessage that is
    left to a callback does not count. *)
Fixpoint nested (k : nat) (a : Z) : bool :=
  match env_fields E !! a with
  | None => true
  | Some fs =>
    forallb (fun f =>
      negb (PB_LTYPE (type f) =? PB_LTYPE_EXTENSION)
      && (negb (PB_LTYPE (type f) =? PB_LTYPE_SUBMESSAGE)
          || (PB_ATYPE (type f) =? PB_ATYPE_CALLBACK)
          || match k with O => false | S k => nested k (ptr f) end)) fs
  end.

Definition fits (k : nat) (a : Z) : Prop := strict = true -> nested k a = true.

Lemma nested_unfold k a i f :
  nested k a = true -> field_at E a i = Some f ->
  PB_LTYPE (type f) <> PB_LTYPE_EXTENSION
  /\ (PB_LTYPE (type f) = PB_LTYPE_SUBMESSAGE -> PB_ATYPE (type f) <> PB_ATYPE_CALLBACK ->
      exists k', k = S k' /\ nested k' (ptr f) = true).
Proof.
  unfold field_at. destruct (env_fields E !! a) as [fs|] eqn:Ea; [|done]. cbn [mbind option_bind].
  intros Hn Hf.
  assert (Hin : In f fs) by (by eapply list_elem_of_In, list_elem_of_lookup_2).
  assert (Hn' : forallb (fun f =>
      negb (PB_LTYPE (type f) =? PB_LTYPE_EXTENSION)
      && (negb (PB_LTYPE (type f) =? PB_LTYPE_SUBMESSAGE)
          || (PB_ATYPE (type f) =? PB_ATYPE_CALLBACK)
          || match k with O => false | S k => nested k (ptr f) end)) fs = true)
    by (destruct k; cbn [nested] in Hn; by rewrite Ea in Hn).
  rewrite forallb_forall in Hn'. specialize (Hn' f Hin).
  apply andb_true_iff in Hn' as [Hx%negb_true_iff%Z.eqb_neq Hs]. split; [done|].
  intros Hsub Hcb. rewrite (proj2 (Z.eqb_eq _ _) Hsub), (proj2 (Z.eqb_neq _ _) Hcb) in Hs.
  simpl in Hs. destruct k as [|k]; [done|]. by exists k.
Qed.

Lemma fits_sub k a i f :
  fits k a -> field_at E a i = Some f ->
  PB_LTYPE (type f) = PB_LTYPE_SUBMESSAGE -> PB_ATYPE (type f) <> PB_ATYPE_CALLBACK ->
  fits (pred k) (ptr f) /\ (strict = true -> (0 < k)%nat).
Proof.
  intros Hk Hf Hs Ha. split; intros Hst; destruct (nested_unfold _ _ _ _ (Hk Hst) Hf) as [_ H];
    destruct (H Hs Ha) as (k' & -> & ?); [done|lia].
Qed.

Lemma fits_ext k a i f :
  fits k a -> field_at E a i = Some f ->
  PB_LTYPE (type f) = PB_LTYPE_EXTENSION -> strict = false.
Proof.
  intros Hk Hf He. destruct strict eqn:Es; [|done].
  by destruct (nested_unfold _ _ _ _ (Hk Es) Hf).
Qed.

(** *** Loops over the fields *)

Lemma begin_start a d r :
  pb_field_iter_begin E a d = Some r -> it_start r.2 = a /\ it_pos r.2 = 0%nat
  /\ is_Some (field_at E a 0).
Proof.
  unfold pb_field_iter_begin. destruct (field_at E a 0) eqn:E0; [|done].
  intros [= <-]. simpl. eauto.
Qed.

Lemma next_start it r :
  pb_field_iter_next E it = Some r ->
  it_start r.2 = it_start it
  /\ (r.1 = true -> it_pos r.2 = S (it_pos it) /\ is_Some (field_at E (it_start it) (S (it_pos it)))).
Proof.
  unfold pb_field_iter_next. destruct (it_field E it) as [prev|]; [|done]. cbn [mbind option_bind].
  case_match; [by intros [= <-]|]. destruct (field_at E _ _) as [cur|] eqn:Ec; [|done].
  cbn [mbind option_bind]. case_match.
  - destruct (pb_field_iter_begin _ _ _) as [[b it']|] eqn:Eb; [|done]. intros [= <-].
    by apply begin_start in Eb as [? _].
  - case_match; intros [= <-]; simpl; eauto.
Qed.

Lemma search_start fuel hit start : forall it r,
  iter_search E fuel hit start it = Some r ->
  it_start r.2 = it_start it
  /\ (r.1 = true -> exists f, it_field E r.2 = Some f /\ hit f = true).
Proof.
  induction fuel as [|fuel IH]; intros it r; cbn [iter_search]; [done|].
  destruct (it_field E it) as [f|] eqn:Ef; [|done]. cbn [mbind option_bind].
  destruct (hit f) eqn:Eh; [intros [= <-]; simpl; eauto|].
  destruct (pb_field_iter_next E it) as [[b it']|] eqn:En; [|done].
  apply next_start in En as [Hn _]. simpl in Hn. cbn [mbind option_bind].
  destruct (Nat.eqb _ _).
  - intros [= <-]. by split.
  - intros Hr. apply IH in Hr. by rewrite Hn in Hr.
Qed.

Lemma Quiet_do_while {St} n : forall (body : pb_field_iter_t -> M St bool) it,
  (forall it', it_start it' = it_start it -> Quiet strict (body it') (fun _ => True)) ->
  (forall fs, env_fields E !! it_start it = Some fs ->
     (it_pos it < length fs /\ length fs < it_pos it + n)%nat) ->
  is_Some (env_fields E !! it_start it) ->
  Quiet strict (iter_do_while E n body it) (fun _ => True).
Proof.
  induction n as [|n IH]; intros body it Hb Hn [fs Hfs]; cbn [iter_do_while].
  { destruct (Hn _ Hfs). lia. }
  eapply Quiet_bind; [by apply Hb|]. intros [|] _; [|by apply Quiet_ret].
  eapply Quiet_bind; [apply Quiet_of_option|]. intros [more it'] Hit.
  apply next_start in Hit as [Hs Hp]. simpl in *. destruct more; [|by apply Quiet_ret].
  destruct (Hp eq_refl) as [Hpos [f Hf]]. apply IH.
  - intros it'' H. apply Hb. congruence.
  - intros fs' Hfs'. rewrite Hs in Hfs'. unfold field_at in Hf. rewrite Hfs' in Hf.
    cbn [mbind option_bind] in Hf. apply lookup_lt_Some in Hf. destruct (Hn _ Hfs'). lia.
  - rewrite Hs. eauto.
Qed.

(** The loops [pb_message_set_to_defaults] and [pb_release] share. *)
Lemma Quiet_each_field {St} (body : pb_field_iter_t -> M St unit) a d :
  (forall it, it_start it = a -> Quiet strict (body it) (fun _ => True)) ->
  Quiet strict (r ← of_option (pb_field_iter_begin E a d);
     if negb r.1 then mret tt
     else _ ← iter_do_while E (iter_fuel E a) (fun it => _ ← body it; mret true) r.2; mret tt)
    (fun _ => True).
Proof.
  intros Hb. eapply Quiet_bind; [apply Quiet_of_option|]. intros r Hr.
  apply begin_start in Hr as (Hs & Hp & [f Hf]). destruct (negb r.1); [by apply Quiet_ret|].
  unfold field_at in Hf. destruct (env_fields E !! a) as [fs|] eqn:Ea; [|done].
  cbn [mbind option_bind] in Hf. apply lookup_lt_Some in Hf.
  eapply Quiet_bind; [apply Quiet_do_while|intros _ _; by apply Quiet_ret].
  - intros it Hit. eapply Quiet_bind; [apply Hb; congruence|]. intros _ _. by apply Quiet_ret.
  - intros fs'. rewrite Hs, Ea. intros [= <-]. unfold iter_fuel. rewrite Ea, Hp. lia.
  - rewrite Hs. eauto.
Qed.

Lemma Quiet_ext_list {St} n : forall (body : Z -> M St unit) ext,
  strict = false -> (forall x, Quiet strict (body x) (fun _ => True)) ->
  Quiet strict (ext_list_loop n body ext) (fun _ => True).
Proof.
  induction n as [|n IH]; intros body ext Hst Hb; cbn [ext_list_loop];
    (case_match; [by apply Quiet_ret|]); [by apply Quiet_nofuel|].
  eapply Quiet_bind; [apply Hb|]. intros _ _.
  eapply Quiet_bind; [apply Quiet_load_ptr|]. intros next _. by apply IH.
Qed.

Lemma Quiet_iter_from_extension {St} ext :
  @Quiet strict St _ (iter_from_extension E ext) (fun _ => True).
Proof. unfold iter_from_extension. quiet. Qed.

(** ** Defaults and release *)

Definition enough (k fuel : nat) : Prop := strict = true -> (k < fuel)%nat.

Lemma enough_pred k fuel : enough k (S fuel) -> (strict = true -> (0 < k)%nat) -> enough (pred k) fuel.
Proof. intros H Hk Hs. specialize (H Hs). specialize (Hk Hs). lia. Qed.

Lemma Quiet_set_to_defaults {St} (set_field : pb_field_iter_t -> M St unit) a d :
  (forall it, it_start it = a -> Quiet strict (set_field it) (fun _ => True)) ->
  Quiet strict (message_set_to_defaults E set_field a d) (fun _ => True).
Proof. apply Quiet_each_field. Qed.

Lemma Quiet_field_set_to_default {St} fuel : forall k it,
  fits k (it_start it) -> enough k fuel ->
  @Quiet strict St _ (pb_field_set_to_default E fuel it) (fun _ => True).
Proof.
  induction fuel as [|fuel IH]; intros k it Hk Hf; cbn [pb_field_set_to_default].
  { apply Quiet_nofuel. destruct strict eqn:Es; [|done]. specialize (Hf Es). lia. }
  eapply Quiet_bind; [apply Quiet_of_option|]. intros f Hif. cbv zeta.
  destruct (Z.eqb_spec (PB_LTYPE (type f)) PB_LTYPE_EXTENSION) as [He|_].
  { assert (Hst := fits_ext _ _ _ _ Hk Hif He).
    eapply Quiet_bind; [apply Quiet_load_ptr|]. intros ext _. apply Quiet_ext_list; [done|].
    intros x. eapply Quiet_bind; [apply Quiet_store|]. intros _ _.
    eapply Quiet_bind; [apply Quiet_iter_from_extension|]. intros it' _.
    apply (IH 0%nat); intros H; congruence. }
  destruct (Z.eqb_spec (PB_ATYPE (type f)) PB_ATYPE_STATIC) as [Hst|_].
  - eapply Quiet_bind with (P := fun _ => True); [quiet|]. intros [|] _; [|by apply Quiet_ret].
    destruct (Z.eqb_spec (PB_LTYPE (type f)) PB_LTYPE_SUBMESSAGE) as [Hs|_]; [|quiet].
    destruct (fits_sub _ _ _ _ Hk Hif Hs) as [Hsub Hpos]; [by rewrite Hst|].
    apply Quiet_set_to_defaults. intros it' Hit. apply (IH (pred k)); [by rewrite Hit|]. by apply enough_pred.
  - quiet.
Qed.

Lemma Quiet_message_defaults {St} fuel k a d :
  fits k a -> enough k fuel ->
  @Quiet strict St _ (pb_message_set_to_defaults E fuel a d) (fun _ => True).
Proof.
  intros Hk Hf. apply Quiet_set_to_defaults. intros it Hit. apply (Quiet_field_set_to_default _ k); [by rewrite Hit|done].
Qed.

Lemma Quiet_initialize {St} fuel k a i f p :
  fits k a -> enough k fuel -> field_at E a i = Some f -> PB_ATYPE (type f) <> PB_ATYPE_CALLBACK ->
  @Quiet strict St _ (initialize_pointer_field E fuel p f) (fun _ => True).
Proof.
  intros Hk Hf Hif Ha. unfold initialize_pointer_field. case_match; [apply Quiet_store_ptr|].
  destruct (Z.eqb_spec (PB_LTYPE (type f)) PB_LTYPE_SUBMESSAGE) as [Hs|_]; [|by apply Quiet_ret].
  destruct (fits_sub _ _ _ _ Hk Hif Hs Ha) as [Hsub Hpos].
  eapply Quiet_bind; [apply Quiet_memset|]. intros _ _.
  apply (Quiet_message_defaults _ (pred k)); [done|].
  intros Hst. specialize (Hf Hst). specialize (Hpos Hst). lia.
Qed.

Lemma Quiet_release_loop {St} n (body : Z -> M St unit) p step :
  (forall q, Quiet strict (body q) (fun _ => True)) ->
  Quiet strict (release_loop n body p step) (fun _ => True).
Proof.
  intros Hb. revert p. induction n as [|n IH]; intros p; cbn [release_loop]; [by apply Quiet_ret|].
  eapply Quiet_bind; [apply Hb|]. intros _ _. apply IH.
Qed.

Lemma Quiet_release_pointer {St} f it : @Quiet strict St _ (release_pointer f it) (fun _ => True).
Proof.
  unfold release_pointer. case_match; [|by apply Quiet_ret].
  eapply Quiet_bind with (P := fun _ => True).
  { case_match; [|by apply Quiet_ret]. eapply Quiet_bind; [apply Quiet_load_ptr|]. intros p _.
    eapply Quiet_bind; [apply Quiet_load|]. intros n _. apply Quiet_release_loop. quiet. }
  quiet.
Qed.

Lemma Quiet_message_release {St} (release_field : pb_field_iter_t -> M St unit) a d :
  (forall it, it_start it = a -> Quiet strict (release_field it) (fun _ => True)) ->
  Quiet strict (message_release E release_field a d) (fun _ => True).
Proof.
  intros H. unfold message_release. case_match; [by apply Quiet_ret|]. by apply Quiet_each_field.
Qed.

Lemma Quiet_release_count {St} f it : @Quiet strict St _ (release_count f it) (fun _ => True).
Proof.
  unfold release_count. case_match; [|by apply Quiet_ret].
  eapply Quiet_bind with (P := fun _ => True); [|intros n _; by apply Quiet_ret].
  case_match; [by apply Quiet_ret|quiet].
Qed.

Lemma Quiet_release_single_field {St} fuel : forall k it,
  fits k (it_start it) -> enough k fuel ->
  @Quiet strict St _ (pb_release_single_field E fuel it) (fun _ => True).
Proof.
  induction fuel as [|fuel IH]; intros k it Hk Hf; cbn [pb_release_single_field].
  { apply Quiet_nofuel. destruct strict eqn:Es; [|done]. specialize (Hf Es). lia. }
  eapply Quiet_bind; [apply Quiet_of_option|]. intros f Hif. cbv zeta.
  eapply Quiet_bind with (P := fun _ => True); [quiet|]. intros current _.
  destruct (negb current); [by apply Quiet_ret|].
  eapply Quiet_bind with (P := fun _ => True); [|intros _ _; apply Quiet_release_pointer].
  destruct (Z.eqb_spec (PB_LTYPE (type f)) PB_LTYPE_EXTENSION) as [He|_].
  { assert (Hst := fits_ext _ _ _ _ Hk Hif He).
    eapply Quiet_bind; [apply Quiet_load_ptr|]. intros ext _. apply Quiet_ext_list; [done|].
    intros x. eapply Quiet_bind; [apply Quiet_iter_from_extension|]. intros it' _.
    apply (IH 0%nat); intros H; congruence. }
  destruct (Z.eqb_spec (PB_LTYPE (type f)) PB_LTYPE_SUBMESSAGE) as [Hs|_];
    [|simpl; by apply Quiet_ret].
  destruct (Z.eqb_spec (PB_ATYPE (type f)) PB_ATYPE_CALLBACK) as [_|Ha]; [by apply Quiet_ret|].
  cbn [andb negb]. destruct (fits_sub _ _ _ _ Hk Hif Hs Ha) as [Hsub Hpos].
  eapply Quiet_bind with (P := fun _ => True); [quiet|]. intros pItem _.
  eapply Quiet_bind with (P := fun _ => True); [apply Quiet_release_count|]. intros n _.
  case_match; [|by apply Quiet_ret]. apply Quiet_release_loop. intros q.
  apply Quiet_message_release. intros it' Hit. apply (IH (pred k)); [by rewrite Hit|]. by apply enough_pred.
Qed.

Lemma Quiet_pb_release {St} fuel k a d :
  fits k a -> enough k fuel -> @Quiet strict St _ (pb_release E fuel a d) (fun _ => True).
Proof.
  intros Hk Hf. apply Quiet_message_release. intros it Hit. apply (Quiet_release_single_field _ k); [by rewrite Hit|done].
Qed.

(** ** Fields *)

(** What is assumed of the application's field callbacks and extension decoders, which read
    through [pb_read]: they keep to the stream, and a field callback that succeeds on a stream
    with bytes left has read some of them. *)
Definition callbacks_ok : Prop :=
  (forall fn f arg s, At s (env_field_decode E fn f arg)
     (fun ok s' => ok = true -> is_bytes_left s <> 0 -> is_bytes_left s' < is_bytes_left s))
  /\ (forall fn ext t w s, At s (env_ext_decode E fn ext t w) (fun _ _ => True)).

Section Rec.
(** Inside a message whose stream had [N] bytes. *)
Context (fuel k : nat) (N : Z) (rec_noinit : Z -> Z -> M pb_istream_t bool).
Hypothesis Hcallbacks : callbacks_ok.
Hypothesis Hfuel : strict = true -> Z.of_nat k + N <= Z.of_nat fuel.
Hypothesis Hrec : forall a d s,
  fits (pred k) a -> (strict = true -> (0 < k)%nat) ->
  (strict = true -> is_bytes_left s < N) -> At s (rec_noinit a d) (fun _ _ => True).

Definition inside (s : pb_istream_t) : Prop := strict = true -> is_bytes_left s < N.

Lemma inside_adv s s' : inside s -> adv s s' -> inside s'.
Proof. intros Hs (_ & ? & _) Hst. specialize (Hs Hst). lia. Qed.

Lemma inside_opened s0 s sub : inside s0 -> opened s0 s sub -> inside sub.
Proof. intros Hs (_ & _ & _ & _ & _ & ?) Hst. specialize (Hs Hst). lia. Qed.

Lemma inside_enough s : good s -> inside s -> enough k fuel.
Proof. intros [_ ?] Hs Hst. specialize (Hs Hst). specialize (Hfuel Hst). lia. Qed.

Lemma pb_decode_with_at a d s :
  fits (pred k) a -> (strict = true -> (0 < k)%nat) -> inside s ->
  At s (pb_decode_with E fuel rec_noinit a d) (fun _ _ => True).
Proof.
  intros Hk Hpos Hs. apply At_weaken. intros Hg.
  assert (Hen : enough (pred k) fuel).
  { intros Hst. pose proof (inside_enough s Hg Hs Hst). lia. }
  eapply At_quiet_bind; [by apply (Quiet_message_defaults _ (pred k))|]. intros _ _.
  eapply At_bind; [by apply Hrec|]. intros ok s' _ _ _.
  eapply At_quiet_bind with (P := fun _ => True).
  { destruct (negb ok); [by apply (Quiet_pb_release _ (pred k))|by apply Quiet_ret]. }
  intros _ _. by apply At_ret.
Qed.

Lemma pb_dec_submessage_at a i f p s :
  fits k a -> field_at E a i = Some f ->
  PB_LTYPE (type f) = PB_LTYPE_SUBMESSAGE -> PB_ATYPE (type f) <> PB_ATYPE_CALLBACK ->
  inside s -> At s (pb_dec_submessage E fuel rec_noinit f p) (fun _ _ => True).
Proof.
  intros Hk Hf Hl Ha Hs. destruct (fits_sub _ _ _ _ Hk Hf Hl Ha) as [Hsub Hpos].
  apply At_substream; [intros; by apply At_ret|]. intros s1 sub H0 Ho.
  case_match; [apply From_At; [done|apply Ho|by apply At_fail]|].
  eapply From_run_with; [exact Ho| |].
  - assert (inside sub) by by eapply inside_opened.
    case_match; [by apply pb_decode_with_at|by apply Hrec].
  - intros ok sub' Ho' _. apply From_close; [done..|]. intros [|] s' _ _; by apply At_ret.
Qed.

Lemma decoder_at a i f p func s :
  fits k a -> field_at E a i = Some f -> PB_ATYPE (type f) <> PB_ATYPE_CALLBACK ->
  PB_DECODERS E fuel rec_noinit !! Z.to_nat (PB_LTYPE (type f)) = Some func ->
  inside s -> At s (call_decoder func f p) (fun _ _ => True).
Proof.
  intros Hk Hf Ha Hfn Hs. assert (0 <= PB_LTYPE (type f)) by (by apply Z.land_nonneg; right).
  destruct (Z.to_nat (PB_LTYPE (type f))) as [|[|[|[|[|[|[|[|[|[|[|n]]]]]]]]]]] eqn:El;
    try discriminate Hfn; injection Hfn as <-; cbn [call_decoder].
  - eapply At_true, Eats_bool.
  - eapply At_true, Eats_varint.
  - eapply At_true, Eats_uvarint.
  - eapply At_true, Eats_svarint.
  - eapply At_true, Eats_fixed32.
  - eapply At_true, Eats_fixed64.
  - apply pb_dec_bytes_at.
  - apply pb_dec_string_at.
  - eapply pb_dec_submessage_at; [done..| | |done]; [change PB_LTYPE_SUBMESSAGE with 8; lia|done].
  - apply At_undef.
  - apply pb_dec_fixed_length_bytes_at.
Qed.

Lemma packable_eats f func :
  PB_LTYPE (type f) <= PB_LTYPE_LAST_PACKABLE ->
  PB_DECODERS E fuel rec_noinit !! Z.to_nat (PB_LTYPE (type f)) = Some func ->
  Eats strict (call_decoder func).
Proof.
  intros Hl Hfn. assert (0 <= PB_LTYPE (type f)) by (by apply Z.land_nonneg; right).
  change PB_LTYPE_LAST_PACKABLE with 5 in Hl.
  destruct (Z.to_nat (PB_LTYPE (type f))) as [|[|[|[|[|[|n]]]]]] eqn:El; [..|lia];
    injection Hfn as <-; cbn [call_decoder].
  - apply Eats_bool.
  - apply Eats_varint.
  - apply Eats_uvarint.
  - apply Eats_svarint.
  - apply Eats_fixed32.
  - apply Eats_fixed64.
Qed.

Lemma packed_static_at n : forall func f it s,
  Eats strict (call_decoder func) -> (strict = true -> is_bytes_left s <= Z.of_nat n) ->
  At s (packed_static_loop n func f it) (fun _ _ => True).
Proof.
  induction n as [|n IH]; intros func f it s Hfn Hn; cbn [packed_static_loop];
    apply At_get; (eapply At_quiet_bind; [apply Quiet_load|]; intros size _);
    destruct (Z.ltb_spec 0 (is_bytes_left s)); try by apply At_ret.
  - destruct (_ <? _); [|by apply At_ret]. apply At_nofuel. destruct strict; [|done].
    specialize (Hn eq_refl). lia.
  - destruct (_ <? _); [|by apply At_ret].
    eapply At_check; [apply Hfn|done|]. intros s' _ _ Hle. specialize (Hle eq_refl).
    eapply At_quiet_bind; [apply Quiet_load|]. intros size' _.
    eapply At_quiet_bind; [apply Quiet_store|]. intros _ _. apply IH; [done|].
    intros Hst. specialize (Hn Hst). lia.
Qed.

Lemma decode_static_field_at w it s :
  fits k (it_start it) ->
  (forall f, it_field E it = Some f -> PB_ATYPE (type f) <> PB_ATYPE_CALLBACK) ->
  inside s -> At s (decode_static_field E fuel rec_noinit w it) (fun _ _ => True).
Proof.
  intros Hk Hat Hs. apply At_weaken. intros Hg. assert (Hen := inside_enough s Hg Hs).
  eapply At_quiet_bind; [apply Quiet_of_option|]. intros f Hf. cbv beta in Hf.
  eapply At_quiet_bind; [apply Quiet_of_option|]. intros func Hfn. cbv beta in Hfn. cbv zeta.
  specialize (Hat f Hf).
  assert (Hcall : forall p s', inside s' -> At s' (call_decoder func f p) (fun _ _ => True))
    by (intros; by eapply decoder_at).
  case_match; [by apply Hcall|]. case_match.
  { eapply At_quiet_bind with (P := fun _ => True); [quiet|]. intros _ _. by apply Hcall. }
  case_match.
  - destruct (_ && _) eqn:Hp.
    + apply andb_true_iff in Hp as [_ Hp%Z.leb_le].
      apply At_substream; [intros; by apply At_ret|]. intros s1 sub H0' Ho.
      eapply From_run_with; [exact Ho| |].
      { apply packed_static_at; [by apply (packable_eats f)|]. destruct Ho as (_ & [_ ?] & _). lia. }
      intros ok sub' Ho' _. case_match; [apply From_At; [done|apply Ho'|by apply At_fail]|].
      apply From_close; [done..|]. intros [|] s' _ _; by apply At_ret.
    + eapply At_quiet_bind; [apply Quiet_load|]. intros size _. cbv zeta.
      eapply At_quiet_bind; [apply Quiet_store|]. intros _ _.
      case_match; [by apply At_fail|by apply Hcall].
  - case_match; [|by apply At_fail].
    eapply At_quiet_bind with (P := fun w0 => PB_LTYPE (type f) <> PB_LTYPE_SUBMESSAGE -> w0 = tag f).
    { destruct (Z.eqb_spec (PB_LTYPE (type f)) PB_LTYPE_SUBMESSAGE); [quiet|by apply Quiet_ret]. }
    intros which Hw.
    eapply At_quiet_bind with (P := fun _ => True).
    { destruct (Z.eqb_spec which (tag f)); [by apply Quiet_ret|]. cbn [negb].
      destruct (Z.eq_dec (PB_LTYPE (type f)) PB_LTYPE_SUBMESSAGE) as [Hl|]; [|by destruct (n (Hw n0))].
      destruct (fits_sub _ _ _ _ Hk Hf Hl Hat) as [Hsub Hpos].
      eapply Quiet_bind; [apply Quiet_memset|]. intros _ _.
      apply (Quiet_message_defaults _ (pred k)); [done|]. intros Hst. specialize (Hen Hst). lia. }
    intros _ _. eapply At_quiet_bind; [apply Quiet_store|]. intros _ _. by apply Hcall.
Qed.

Lemma packed_pointer_at n : forall func f it allocated s,
  Eats strict (call_decoder func) -> (strict = true -> is_bytes_left s <= Z.of_nat n) ->
  (forall p, Quiet strict (initialize_pointer_field E fuel p f : M pb_istream_t unit) (fun _ => True)) ->
  At s (packed_pointer_loop E fuel n func f it allocated) (fun _ _ => True).
Proof.
  induction n as [|n IH]; intros func f it allocated s Hfn Hn Hinit; cbn [packed_pointer_loop];
    apply At_get; destruct (Z.eqb_spec (is_bytes_left s) 0) as [|Hne]; try by apply At_ret.
  all: eapply At_quiet_bind; [apply Quiet_load|]; intros size _; case_match; [by apply At_ret|].
  all: eapply At_bind with (P := fun _ _ => True).
  1,3: case_match; [|by apply At_ret]; case_match; [by apply At_undef|]; cbv zeta;
    eapply At_bind; [apply allocate_field_at|]; intros; by apply At_ret.
  all: intros [ok allocated'] s1 _ Ha1 _; destruct ok; [|by apply At_ret]; cbn [negb fst snd].
  all: eapply At_quiet_bind; [apply Quiet_load_ptr|]; intros base _; cbv zeta;
    case_match; [by apply At_ret|].
  all: eapply At_quiet_bind; [apply Hinit|]; intros _ _.
  all: eapply At_bind; [apply Hfn|]; intros [|] s2 Hg2 Ha2 Hle; [|by apply At_ret];
    specialize (Hle eq_refl); destruct Ha1 as (_ & ? & _), Hg2 as [_ ?]; cbn [negb].
  all: eapply At_quiet_bind; [apply Quiet_load|]; intros size' _;
    (eapply At_quiet_bind; [apply Quiet_store|]); intros _ _.
  - apply At_nofuel. destruct strict; [|done]. specialize (Hn eq_refl). lia.
  - apply IH; [done| |done]. intros Hst. specialize (Hn Hst). lia.
Qed.

Lemma release_old_quiet it :
  fits k (it_start it) -> enough k fuel -> forall old,
  Quiet strict (if negb (old =? 0) then pb_release_single_field E fuel it else mret tt : M pb_istream_t unit)
    (fun _ => True).
Proof.
  intros Hk Hen old. destruct (negb _); [by apply (Quiet_release_single_field _ k)|by apply Quiet_ret].
Qed.

(** The error message of the parent stream. *)
Definition with_error (s : pb_istream_t) (e : option string) : pb_istream_t :=
  mk_istream (is_callback s) (is_state s) (is_bytes_left s) e.

Lemma opened_set_error s0 s sub e : opened s0 s sub -> opened s0 (with_error s e) sub.
Proof. intros (Ha & Ho). split; [exact Ha|exact Ho]. Qed.

Lemma From_set_error {B} (full : bool) msg (c : unit -> M pb_istream_t B) Q s0 s :
  (forall e, From s0 (with_error s e) (c tt) Q) ->
  From s0 s ((if full then s ← get; put (with_error s (Some msg)) else mret tt) ≫= c) Q.
Proof.
  intros Hk m Hm. destruct full; [exact (Hk _ m Hm)|].
  assert (s = with_error s (is_errmsg s)) as Es by by destruct s.
  rewrite Es. exact (Hk _ m Hm).
Qed.

Lemma decode_pointer_field_at w it s :
  fits k (it_start it) ->
  (forall f, it_field E it = Some f -> PB_ATYPE (type f) <> PB_ATYPE_CALLBACK) ->
  inside s -> At s (decode_pointer_field E fuel rec_noinit w it) (fun _ _ => True).
Proof.
  intros Hk Hat Hs. apply At_weaken. intros Hg. assert (Hen := inside_enough s Hg Hs).
  eapply At_quiet_bind; [apply Quiet_of_option|]. intros f Hf. cbv beta in Hf.
  eapply At_quiet_bind; [apply Quiet_of_option|]. intros func Hfn. cbv beta in Hfn. cbv zeta.
  specialize (Hat f Hf).
  assert (Hcall : forall p s', inside s' -> At s' (call_decoder func f p) (fun _ _ => True))
    by (intros; by eapply decoder_at).
  assert (Hinit : forall p, Quiet strict (initialize_pointer_field E fuel p f : M pb_istream_t unit) (fun _ => True))
    by (intros p; by eapply (Quiet_initialize fuel k)).
  case_match.
  - eapply At_quiet_bind with (P := fun _ => True); [quiet|]. intros old _.
    eapply At_quiet_bind; [by apply release_old_quiet|]. intros _ _.
    eapply At_quiet_bind with (P := fun _ => True); [quiet|]. intros _ _.
    case_match; [by apply Hcall|].
    eapply At_check; [apply allocate_field_at|done|]. intros s1 _ Ha1 _.
    eapply At_quiet_bind; [apply Quiet_load_ptr|]. intros p _.
    eapply At_quiet_bind; [apply Hinit|]. intros _ _.
    eapply At_quiet_bind; [apply Quiet_load_ptr|]. intros p' _.
    by eapply Hcall, inside_adv.
  - case_match; [|by apply At_fail]. destruct (_ && _) eqn:Hp.
    + apply andb_true_iff in Hp as [_ Hp%Z.leb_le].
      eapply At_quiet_bind; [apply Quiet_load|]. intros allocated _.
      apply At_substream; [intros; by apply At_ret|]. intros s1 sub H0' Ho.
      eapply From_run_with; [exact Ho| |].
      { apply packed_pointer_at; [by apply (packable_eats f)| |done].
        destruct Ho as (_ & [_ ?] & _). lia. }
      intros [ok full] sub' Ho' _. cbn [fst snd]. apply From_set_error. intros e.
      apply From_close; [done|by apply opened_set_error|]. intros [|] s' _ _; by apply At_ret.
    + eapply At_quiet_bind; [apply Quiet_load|]. intros size _.
      case_match; [by apply At_fail|].
      eapply At_check; [apply allocate_field_at|done|]. intros s1 _ Ha1 _.
      eapply At_quiet_bind; [apply Quiet_load_ptr|]. intros base _. cbv zeta.
      eapply At_quiet_bind; [apply Quiet_store|]. intros _ _.
      eapply At_quiet_bind; [apply Hinit|]. intros _ _.
      by eapply Hcall, inside_adv.
Qed.

Lemma callback_loop_at n : forall fn f arg s,
  (strict = true -> Z.max 1 (is_bytes_left s) <= Z.of_nat n) ->
  At s (callback_loop E n fn f arg) (fun _ _ => True).
Proof.
  induction n as [|n IH]; intros fn f arg s Hn; cbn [callback_loop].
  { apply At_nofuel. destruct strict; [|done]. specialize (Hn eq_refl). lia. }
  eapply At_check; [apply Hcallbacks|done|]. intros s' Hg' Ha Hle. apply At_get.
  destruct (Z.eqb_spec (is_bytes_left s') 0); [by apply At_ret|]. cbn [negb]. apply IH.
  intros Hst. specialize (Hn Hst). specialize (Hle eq_refl).
  destruct Ha as (_ & ? & _), Hg'. lia.
Qed.

Lemma decode_callback_field_at w it s :
  inside s -> At s (decode_callback_field E fuel w it) (fun _ _ => True).
Proof.
  intros Hs. apply At_weaken. intros Hg. assert (Hen := inside_enough s Hg Hs).
  eapply At_quiet_bind; [apply Quiet_of_option|]. intros f Hf. cbv zeta.
  eapply At_quiet_bind with (P := fun _ => True); [quiet|]. intros fn _.
  case_match; [apply pb_skip_field_at|]. case_match.
  - apply At_substream; [intros; by apply At_ret|]. intros s1 sub H0' Ho.
    eapply From_run_with; [exact Ho| |].
    { apply callback_loop_at. intros Hst. specialize (Hs Hst). specialize (Hfuel Hst).
      destruct Ho as (_ & [_ ?] & _ & _ & _ & ?). lia. }
    intros ok sub' Ho' _. destruct ok; cbn [negb];
      [|apply From_At; [done|apply Ho'|by apply At_fail]].
    apply From_close; [done..|]. intros [|] s' _ _; by apply At_ret.
  - eapply At_quiet_bind; [apply Quiet_stack_alloc|]. intros buf _.
    eapply At_bind; [by apply read_raw_value_at|]. intros o s1 _ _ Ho.
    eapply At_bind with (P := fun _ _ => True).
    { destruct o as [n|]; [|by apply At_ret]. specialize (Ho n eq_refl).
      eapply At_run_with; [split; [done|simpl; lia]|apply Hcallbacks|].
      intros; by apply At_ret. }
    intros ok s2 _ _ _. eapply At_quiet_bind; [apply Quiet_stack_free|]. intros _ _.
    by apply At_ret.
Qed.

Lemma find_start it t r :
  pb_field_iter_find E it t = Some r ->
  it_start r.2 = it_start it /\ (r.1 = true -> exists f, it_field E r.2 = Some f).
Proof.
  intros H. apply search_start in H as [Hs Hf]. split; [done|].
  intros Hr. destruct (Hf Hr) as (f & ? & _). eauto.
Qed.

Lemma release_union_at it s :
  fits k (it_start it) -> inside s ->
  At s (pb_release_union_field E fuel it) (fun r _ => it_start r.2 = it_start it).
Proof.
  intros Hk Hs. apply At_weaken. intros Hg. assert (Hen := inside_enough s Hg Hs).
  eapply At_quiet_bind; [apply Quiet_of_option|]. intros f _.
  eapply At_quiet_bind; [apply Quiet_load|]. intros old _. cbv zeta.
  do 2 (case_match; [by apply At_ret|]).
  eapply At_quiet_bind; [apply Quiet_of_option|]. intros r1 [Hr1 _]%find_start.
  case_match; [by apply At_fail|].
  eapply At_quiet_bind; [apply (Quiet_release_single_field _ k); [by rewrite Hr1|done]|]. intros _ _.
  eapply At_quiet_bind; [apply Quiet_of_option|]. intros r2 [Hr2 _]%find_start.
  rewrite Hr1 in Hr2. case_match; [by apply At_fail|].
  eapply At_quiet_bind; [apply Quiet_of_option|]. intros f2 _.
  eapply At_quiet_bind with (P := fun _ => True); [quiet|]. intros _ _. by apply At_ret.
Qed.

Lemma decode_field_at w it s :
  fits k (it_start it) -> inside s ->
  At s (decode_field E fuel rec_noinit w it) (fun r _ => it_start r.2 = it_start it).
Proof.
  intros Hk Hs. eapply At_quiet_bind; [apply Quiet_of_option|]. intros f _.
  eapply At_bind with (P := fun r _ => it_start r.2 = it_start it).
  { case_match; [by apply release_union_at|by apply At_ret]. }
  intros [ok it'] s1 _ Ha1 Hit. simpl in Hit. destruct ok; cbn [negb fst snd]; [|by apply At_ret].
  assert (Hk' : fits k (it_start it')) by by rewrite Hit.
  assert (Hs1 : inside s1) by by eapply inside_adv.
  eapply At_quiet_bind; [apply Quiet_of_option|]. intros f' Hf'. cbv beta in Hf'. cbv zeta.
  assert (Hat : forall A0, PB_ATYPE (type f') = A0 -> A0 <> PB_ATYPE_CALLBACK ->
     forall f, it_field E it' = Some f -> PB_ATYPE (type f) <> PB_ATYPE_CALLBACK) by naive_solver.
  eapply At_bind with (P := fun _ _ => True); [|by intros; apply At_ret].
  destruct (Z.eqb_spec (PB_ATYPE (type f')) PB_ATYPE_STATIC) as [H1|_].
  { apply decode_static_field_at; [done|by eapply Hat|done]. }
  destruct (Z.eqb_spec (PB_ATYPE (type f')) PB_ATYPE_POINTER) as [H1|_].
  { apply decode_pointer_field_at; [done|by eapply Hat|done]. }
  case_match; [by apply decode_callback_field_at|by apply At_fail].
Qed.

(** ** Extensions and unknown fields *)

Lemma default_extension_at ext t w s :
  strict = false -> At s (default_extension_decoder E fuel rec_noinit ext t w) (fun _ _ => True).
Proof.
  intros Hst. unfold default_extension_decoder.
  eapply At_quiet_bind; [apply Quiet_load_ptr|]. intros ty _.
  eapply At_quiet_bind; [apply Quiet_load_ptr|]. intros arg _.
  eapply At_quiet_bind; [apply Quiet_of_option|]. intros f _. case_match; [by apply At_ret|].
  eapply At_quiet_bind; [apply Quiet_iter_from_extension|]. intros it _.
  eapply At_quiet_bind; [apply Quiet_store|]. intros _ _.
  eapply At_bind; [apply decode_field_at; intros ?; congruence|]. intros; by apply At_ret.
Qed.

Lemma decode_extension_loop_at n : forall pos ext t w s,
  strict = false ->
  At s (decode_extension_loop E fuel rec_noinit n pos ext t w) (fun _ _ => True).
Proof.
  induction n as [|n IH]; intros pos ext t w s Hst; cbn [decode_extension_loop];
    apply At_get; (case_match; [|by apply At_ret]); [by apply At_nofuel|].
  eapply At_quiet_bind; [apply Quiet_load_ptr|]. intros ty _.
  eapply At_quiet_bind; [apply Quiet_load_ptr|]. intros dec _.
  eapply At_check with (P := fun _ _ => True); [|done|].
  { case_match; [apply Hcallbacks|by apply default_extension_at]. }
  intros s' _ _ _. eapply At_quiet_bind; [apply Quiet_load_ptr|]. intros next _. by apply IH.
Qed.

Lemma decode_extension_at t w it s :
  strict = false -> At s (decode_extension E fuel rec_noinit t w it) (fun _ _ => True).
Proof.
  intros Hst. eapply At_quiet_bind; [apply Quiet_load_ptr|]. intros ext _. apply At_get.
  by apply decode_extension_loop_at.
Qed.

(** The iterator the loop goes on with is in the same array. *)
Definition in_array (a : Z) (o : option loop_state) : Prop :=
  match o with Some st => it_start (ls_iter st) = a | None => True end.

Lemma decode_unknown_at t w it st s :
  fits k (it_start it) -> 0 <= t < 2 ^ 29 ->
  At s (decode_unknown E fuel rec_noinit t w it st) (fun o _ => in_array (it_start it) o).
Proof.
  intros Hk Ht.
  eapply At_bind with (P := fun r _ => it_start (ls_iter r.2) = it_start it).
  - case_match; [|by apply At_ret].
    eapply At_quiet_bind; [apply Quiet_of_option|]. intros [hit it'] Hx. cbv beta in Hx.
    apply search_start in Hx as [Hit Hf]. simpl in Hit, Hf.
    eapply At_quiet_bind with (P := fun start => hit = false -> start = 2 ^ 32 - 1).
    { destruct hit; cbn [negb fst]; [|by apply Quiet_ret].
      eapply Quiet_bind; [apply Quiet_of_option|]. intros f _. by apply Quiet_ret. }
    intros start Hstart. cbn [fst snd]. case_match; [|by apply At_ret].
    assert (Hst : strict = false).
    { destruct hit; [|specialize (Hstart eq_refl); lia].
      destruct (Hf eq_refl) as (f & Hf1 & Hf2%Z.eqb_eq).
      eapply fits_ext; [|exact Hf1|done]. by rewrite Hit. }
    apply At_get. eapply At_bind; [by apply decode_extension_at|]. intros ok s1 _ _ _.
    by apply At_get, At_ret.
  - intros [[ok handled] st'] s1 _ _ Hst. simpl in Hst. destruct ok; cbn [negb]; [|by apply At_ret].
    destruct handled; [by apply At_ret|].
    eapply At_check; [apply pb_skip_field_at|done|]. intros s2 _ _ _. by apply At_ret.
Qed.

Lemma fixed_count_quiet {St} start fixed p :
  @Quiet strict St _ (fixed_count_incomplete E start fixed p) (fun _ => True).
Proof. unfold fixed_count_incomplete. destruct fixed; quiet. Qed.

Lemma decode_known_at w p it st s :
  fits k (it_start it) -> inside s ->
  At s (decode_known E fuel rec_noinit w p it st) (fun o _ => in_array (it_start it) o).
Proof.
  intros Hk Hs. eapply At_quiet_bind; [apply Quiet_of_option|]. intros f _.
  eapply At_bind with (P := fun o _ =>
    match o with Some r => it_start r.2 = it_start it | None => True end).
  - case_match; [|by apply At_ret]. case_match; [|by apply At_ret].
    eapply At_quiet_bind; [apply fixed_count_quiet|]. intros bad _.
    destruct bad; [by apply At_fail|].
    eapply At_quiet_bind; [apply Quiet_store|]. intros _ _. by apply At_ret.
  - intros [[fixed it']|] s1 _ Ha1 Hit; [|by apply At_ret]. simpl in Hit. cbv zeta.
    eapply At_bind; [apply decode_field_at; [by rewrite Hit|by eapply inside_adv]|].
    intros [ok it''] s2 _ _ Hit2. simpl in *. destruct ok; apply At_ret; [|done].
    simpl. by rewrite Hit2.
Qed.

(** ** The message *)

Lemma decode_loop_at n : forall p st s,
  fits k (it_start (ls_iter st)) ->
  (strict = true -> is_bytes_left s <= N) -> (strict = true -> is_bytes_left s <= Z.of_nat n) ->
  At s (decode_loop E fuel rec_noinit n p st) (fun _ _ => True).
Proof.
  induction n as [|n IH]; intros p st s Hk HN Hn; cbn [decode_loop];
    apply At_get; (destruct (Z.eqb_spec (is_bytes_left s) 0) as [|Hne]; [by apply At_ret|]).
  { apply At_weaken. intros [_ ?]. apply At_nofuel. destruct strict; [|done].
    specialize (Hn eq_refl). lia. }
  eapply At_bind; [apply pb_decode_tag_at|]. intros t s1 Hg1 Ha1 Ht.
  cbv beta in Ht. destruct (tr_ok t); cbn [negb]; [|case_match; by apply At_ret].
  destruct (Ht eq_refl) as [Hlt Htag]. assert (Hin : inside s1).
  { intros Hst. specialize (HN Hst). lia. }
  eapply At_quiet_bind; [apply Quiet_of_option|]. intros [hit it] Hfind. cbv beta in Hfind.
  apply find_start in Hfind as [Hit _]. simpl in Hit. cbn [fst snd].
  assert (Hk' : fits k (it_start it)) by by rewrite Hit.
  eapply At_bind with (P := fun o _ => in_array (it_start it) o).
  { destruct (negb hit); [by apply decode_unknown_at|by apply decode_known_at]. }
  intros [st'|] s2 _ Ha2 Hst'; [|by apply At_ret]. simpl in Hst'.
  destruct Ha2 as (_ & ? & _). apply IH; [by rewrite Hst'| |];
    intros Hst; specialize (HN Hst); specialize (Hn Hst); lia.
Qed.

Lemma decode_finish_at p st s : At s (decode_finish E p st) (fun _ _ => True).
Proof.
  eapply At_quiet_bind; [apply fixed_count_quiet|]. intros bad _. destruct bad; [by apply At_fail|].
  eapply At_quiet_bind; [apply Quiet_of_option|]. intros [[count last] it] _.
  eapply At_quiet_bind; [apply Quiet_of_option|]. intros f _. cbv zeta.
  case_match; [by apply At_fail|by apply At_ret].
Qed.

Lemma decode_noinit_body_at a d s :
  fits k a -> (strict = true -> is_bytes_left s <= N) ->
  At s (decode_noinit_body E fuel rec_noinit a d) (fun _ _ => True).
Proof.
  intros Hk HN. eapply At_quiet_bind; [apply Quiet_stack_alloc|]. intros p _.
  eapply At_quiet_bind; [apply Quiet_store|]. intros _ _.
  eapply At_quiet_bind; [apply Quiet_of_option|]. intros r Hr. cbv beta in Hr.
  apply begin_start in Hr as (Hr & _). apply At_get.
  eapply At_bind; [apply decode_loop_at; [simpl; by rewrite Hr|done|lia]|]. intros o s1 _ _ _.
  eapply At_bind with (P := fun _ _ => True).
  { destruct o; [apply decode_finish_at|by apply At_ret]. }
  intros ok s2 _ _ _. eapply At_quiet_bind; [apply Quiet_stack_free|]. intros _ _. by apply At_ret.
Qed.
End Rec.

Lemma pb_decode_noinit_at fuel : callbacks_ok -> forall k a d s,
  fits k a -> (strict = true -> Z.of_nat k + is_bytes_left s < Z.of_nat fuel) ->
  At s (pb_decode_noinit E fuel a d) (fun _ _ => True).
Proof.
  intros Hcb. induction fuel as [|fuel IH]; intros k a d s Hk Hf; cbn [pb_decode_noinit].
  { apply At_exhausted. intros Hst. specialize (Hf Hst). lia. }
  apply (decode_noinit_body_at fuel k (is_bytes_left s)); [done| | |done|done].
  - intros Hst. specialize (Hf Hst). lia.
  - intros a' d' s' Hk' Hpos Hlt. apply (IH (pred k)); [done|].
    intros Hst. specialize (Hf Hst). specialize (Hpos Hst). specialize (Hlt Hst). lia.
Qed.

Lemma pb_decode_at fuel k a d s :
  callbacks_ok -> fits k a -> (strict = true -> Z.of_nat k + is_bytes_left s < Z.of_nat fuel) ->
  At s (pb_decode E fuel a d) (fun _ _ => True).
Proof.
  intros Hcb Hk Hf. apply At_weaken. intros [_ ?].
  assert (Hen : enough k fuel) by (intros Hst; specialize (Hf Hst); lia).
  eapply At_quiet_bind; [by apply (Quiet_message_defaults _ k)|]. intros _ _.
  eapply At_bind; [by apply (pb_decode_noinit_at fuel Hcb k)|]. intros ok s' _ _ _.
  eapply At_quiet_bind with (P := fun _ => True).
  { destruct (negb ok); [by apply (Quiet_pb_release _ k)|by apply Quiet_ret]. }
  intros _ _. by apply At_ret.
Qed.
End Message.

(** ** The theorems *)

(** C6. Decoding a message from a memory stream reads inside the buffer: whatever bytes come
    in, and whatever the structure, the descriptors and the heap hold, when [pb_decode]
    returns, with success or not, the stream has moved forward, its position and the bytes
    it has left are within the bytes it was given, and [bytes_left] has not grown. The
    application's callbacks are assumed to keep to their streams too. *)
Theorem pb_decode_stays_inside E fuel fields dest s c ok s' c' :
  callbacks_ok false E -> good s -> machine_ok c ->
  pb_decode E fuel fields dest s c = Ret (ok, s', c') ->
  is_callback s' = IC_buf_read
  /\ 0 <= is_bytes_left s' <= is_bytes_left s
  /\ is_state s <= is_state s'
  /\ is_state s' + is_bytes_left s' <= is_state s + is_bytes_left s
  /\ machine_ok c'.
Proof.
  intros Hcb Hg Hm E0.
  assert (Hd : At false s (pb_decode E fuel fields dest) (fun _ _ => True)) by
    (apply (pb_decode_at false E fuel 0); [done|intros [=]..]).
  specialize (Hd Hg c Hm). unfold tw in Hd. rewrite E0 in Hd.
  destruct Hd as (Hm' & (Hcb' & ? & ? & ?) & _). destruct Hg as [Hg _].
  split; [congruence|]. by do 2 (split; [done|]).
Qed.

(** C7. Decoding terminates on every input: for a descriptor whose messages nest at most [k]
    deep and have no extensions, [pb_decode] on a memory stream returns or meets undefined
    behaviour, never running out of a fuel above [k] plus the length of the input. The
    application's field callbacks are assumed to consume bytes when they succeed and there
    are bytes left. *)
Theorem pb_decode_terminates E fuel k fields dest s c :
  callbacks_ok true E -> nested E k fields = true -> good s -> machine_ok c ->
  Z.of_nat k + is_bytes_left s < Z.of_nat fuel ->
  pb_decode E fuel fields dest s c <> NoFuel.
Proof.
  intros Hcb Hk Hg Hm Hf E0.
  assert (Hd : At true s (pb_decode E fuel fields dest) (fun _ _ => True)) by
    (apply (pb_decode_at true E fuel k); [done|intros _; exact Hk|done]).
  specialize (Hd Hg c Hm). unfold tw in Hd. by rewrite E0 in Hd.
Qed.

(** *** A message whose string goes to a callback that reads it all *)

Definition reading_env : pb_env :=
  mk_env (env_fields bare_env) (env_stream_write bare_env) (env_stream_read bare_env)
    (env_field_encode bare_env)
    (fun _ _ _ => s ← get; pb_read_ok bare_env RNull (is_bytes_left s))
    (env_ext_encode bare_env) (env_ext_decode bare_env).

Lemma reading_callbacks_ok strict : callbacks_ok strict reading_env.
Proof.
  split; [|intros; apply At_undef]. intros fn f arg s. simpl. apply At_get, At_weaken.
  intros [_ [? _]]. eapply At_mono; [by apply pb_read_ok_at|].
  intros ok s' _ _ Hr Hok. specialize (Hr Hok). lia.
Qed.

(** The bytes of a note in the buffer: a [fixed32] and the string "a". *)
Definition note_mem : cstate :=
  state_of ((write_mem ex_buf [13; 44; 1; 0; 0; 18; 1; 97] : M unit unit) tt ex_blank) ex_blank.

Lemma note_mem_bytes : map_Forall (fun _ b => is_byte b) (heap note_mem).
Proof. apply (bool_decide_unpack _). by vm_compute. Qed.
Lemma note_mem_junk : junk note_mem = 0.
Proof. by vm_compute. Qed.
Lemma note_mem_ok : machine_ok note_mem.
Proof.
  split; [exact note_mem_bytes|]. rewrite note_mem_junk. unfold is_byte. lia.
Qed.

Lemma note_stream_good : good (pb_istream_from_buffer ex_buf 8).
Proof. split; [done|simpl; lia]. Qed.

Lemma pb_decode_stays_inside_witness :
  exists s' c',
    pb_decode reading_env 20 note_desc ex_dest (pb_istream_from_buffer ex_buf 8) note_mem
    = Ret (true, s', c')
    /\ is_state s' + is_bytes_left s' <= ex_buf + 8.
Proof.
  destruct (pb_decode reading_env 20 note_desc ex_dest (pb_istream_from_buffer ex_buf 8) note_mem)
    as [[[ok s'] c']| |] eqn:Ed; [|exfalso; vm_compute in Ed; discriminate..].
  assert (ok = true) as -> by (vm_compute in Ed; congruence).
  exists s', c'. split; [done|].
  by destruct (pb_decode_stays_inside reading_env 20 note_desc ex_dest
    (pb_istream_from_buffer ex_buf 8) note_mem true s' c' (reading_callbacks_ok _)
    note_stream_good note_mem_ok Ed) as (_ & _ & _ & H & _).
Defined.

Lemma pb_decode_terminates_witness :
  pb_decode reading_env 20 note_desc ex_dest (pb_istream_from_buffer ex_buf 8) note_mem <> NoFuel.
Proof.
  apply (pb_decode_terminates reading_env 20 0);
    [apply reading_callbacks_ok|reflexivity|apply note_stream_good|apply note_mem_ok|simpl; lia].
Defined.
