(* ===== verification/PbMessage.v ===== *)
(** * nanopb: messages in memory and on the wire

    The value of a message is the list, field by field, of the values it holds: one for a
    required field, one or none for an optional one, as many as its count says for a repeated
    one. [message_at] reads that value from a structure in memory, as the descriptor lays it
    out; [message_wire] is its encoding in the Protocol Buffers format. [plain] describes the
    descriptors this is about: static fields with explicit presence, of every type but
    extensions. *)
From S2P Require Export PbIter PbRoundtrip.

(** ** Values *)

Inductive value := Num (z : Z) | Str (l : list Z) | Msg (fields : list (list value)).
Definition message : Type := list (list value).

Definition is_required (f : pb_field_t) : bool := PB_HTYPE (type f) =? PB_HTYPE_REQUIRED.
Definition is_optional (f : pb_field_t) : bool := PB_HTYPE (type f) =? PB_HTYPE_OPTIONAL.
Definition is_repeated (f : pb_field_t) : bool := PB_HTYPE (type f) =? PB_HTYPE_REPEATED.
Definition is_packable (f : pb_field_t) : bool := PB_LTYPE (type f) <=? PB_LTYPE_LAST_PACKABLE.
Definition has_ltype (f : pb_field_t) (t : Z) : bool := PB_LTYPE (type f) =? t.

(** ** Reading a structure *)

(** The number whose object representation is [l]. *)
Definition num_of (f : pb_field_t) (l : list Z) : Z :=
  if has_ltype f PB_LTYPE_BOOL then if le_combine l =? 0 then 0 else 1
  else if has_ltype f PB_LTYPE_VARINT || has_ltype f PB_LTYPE_SVARINT
  then to_signed (8 * data_size f) (le_combine l)
  else le_combine l.

Fixpoint until_zero (l : list Z) : option (list Z) :=
  match l with
  | [] => None
  | b :: l => if b =? 0 then Some [] else cons b <$> until_zero l
  end.

Section Read.
(** The memory, and how the messages nested in this one are read. *)
Context (h : gmap Z Z) (sub : Z -> Z -> option message).

(** One value of the field [f], from its storage at [p]. *)
Definition value_at (f : pb_field_t) (p : Z) : option value :=
  if is_packable f then
    (fun l => Num (num_of f l)) <$> read_bytes h p (Z.to_nat (data_size f))
  else if has_ltype f PB_LTYPE_BYTES then
    n ← le_combine <$> read_bytes h p sizeof_pb_size_t;
    if n + offsetof_bytes <=? data_size f
    then Str <$> read_bytes h (p + offsetof_bytes) (Z.to_nat n) else None
  else if has_ltype f PB_LTYPE_STRING then
    l ← read_bytes h p (Z.to_nat (data_size f)); Str <$> until_zero l
  else if has_ltype f PB_LTYPE_FIXED_LENGTH_BYTES then
    Str <$> read_bytes h p (Z.to_nat (data_size f))
  else if has_ltype f PB_LTYPE_SUBMESSAGE then Msg <$> sub (ptr f) p
  else None.

(** The [k]-th element of an array at [p]. *)
Definition element_at (f : pb_field_t) (p : Z) (k : nat) : option value :=
  value_at f (p + data_size f * Z.of_nat k).

(** The values of the field [f], whose data is at [p]. *)
Definition values_at (f : pb_field_t) (p : Z) : option (list value) :=
  if is_required f then (fun v => [v]) <$> value_at f p
  else if is_optional f then
    has ← h !! (p + size_offset f);
    if has =? 0 then Some [] else (fun v => [v]) <$> value_at f p
  else if is_repeated f then
    n ← le_combine <$> read_bytes h (p + size_offset f) sizeof_pb_size_t;
    if n <=? array_size f then mapM (element_at f p) (seq 0 (Z.to_nat n)) else None
  else None.
End Read.

(** The address of the data of field [i], in a structure at [d]. *)
Definition data_ptr (fs : list pb_field_t) (d : Z) (i : nat) : Z :=
  d + data_offset (nth_field fs 0) + data_disp fs i.

Section Messages.
Context (E : pb_env).

Definition fields_of (a : Z) : list pb_field_t := default [] (env_fields E !! a).

(** The value of the structure at [d], whose descriptor is at [a], when its submessages nest
    less than [n] deep. *)
Fixpoint message_at (n : nat) (h : gmap Z Z) (a d : Z) : option message :=
  match n with
  | O => None
  | S n =>
    let fs := fields_of a in
    mapM (fun i => values_at h (message_at n h) (nth_field fs i) (data_ptr fs d i))
         (seq 0 (entries fs))
  end.

(** ** The wire format *)

Definition delimited (w : list Z) : list Z := varint (Z.of_nat (length w)) ++ w.
Definition key (wt : pb_wire_type_t) (f : pb_field_t) : list Z := varint (wt_val wt + tag f * 8).

Definition num_wire (f : pb_field_t) (z : Z) : list Z :=
  if has_ltype f PB_LTYPE_FIXED32 then le_split 4 z
  else if has_ltype f PB_LTYPE_FIXED64 then le_split 8 z
  else if has_ltype f PB_LTYPE_SVARINT then varint (zigzag z)
  else varint (u64 z).

Definition wire_type (f : pb_field_t) : pb_wire_type_t :=
  default PB_WT_STRING (wiretype_of_ltype (PB_LTYPE (type f))).

(** A field, given the payloads of its values: each behind a key of its own, but those of a
    packable array all behind one. *)
Definition field_wire (f : pb_field_t) (ps : list (list Z)) : list Z :=
  if is_repeated f && is_packable f
  then match ps with [] => [] | _ => key PB_WT_STRING f ++ delimited (concat ps) end
  else concat (map (app (key (wire_type f) f)) ps).

Fixpoint payload (f : pb_field_t) (v : value) {struct v} : list Z :=
  match v with
  | Num z => num_wire f z
  | Str l => delimited l
  | Msg m =>
    delimited ((fix go (fs : list pb_field_t) (m : list (list value)) {struct m} : list Z :=
      match m, fs with
      | vs :: m, g :: fs => field_wire g (map (payload g) vs) ++ go fs m
      | _, _ => []
      end) (fields_of (ptr f)) m)
  end.

Fixpoint message_wire (fs : list pb_field_t) (m : message) : list Z :=
  match m, fs with
  | vs :: m, g :: fs => field_wire g (map (payload g) vs) ++ message_wire fs m
  | _, _ => []
  end.

Lemma payload_Msg f m : payload f (Msg m) = delimited (message_wire (fields_of (ptr f)) m).
Proof.
  cbn [payload]. f_equal. generalize (fields_of (ptr f)).
  induction m as [|vs m IH]; intros [|g fs]; cbn; [done..|]. by rewrite IH.
Qed.

Lemma field_wire_one f v :
  is_repeated f = false -> field_wire f [payload f v] = key (wire_type f) f ++ payload f v.
Proof. unfold field_wire. intros ->. simpl. by rewrite app_nil_r. Qed.

(** ** Descriptors *)

Definition one_of (z : Z) (l : list Z) : bool := existsb (Z.eqb z) l.

(** The type of [f] and the size of one value agree. *)
Definition size_ok (f : pb_field_t) : bool :=
  let n := data_size f in
  if has_ltype f PB_LTYPE_BOOL then n =? 1
  else if has_ltype f PB_LTYPE_FIXED32 then n =? 4
  else if has_ltype f PB_LTYPE_FIXED64 then n =? 8
  else if is_packable f then (0 <=? PB_LTYPE (type f)) && one_of n [1; 2; 4; 8]
  else if has_ltype f PB_LTYPE_BYTES then (offsetof_bytes <=? n) && (n <? 2 ^ 32)
  else (has_ltype f PB_LTYPE_STRING || has_ltype f PB_LTYPE_FIXED_LENGTH_BYTES
        || has_ltype f PB_LTYPE_SUBMESSAGE) && (0 <? n) && (n <? 2 ^ 32).

(** A flag or a counter of its own, next to the data. *)
Definition presence_ok (f : pb_field_t) : bool :=
  is_required f
  || (is_optional f && negb (size_offset f =? 0))
  || (is_repeated f && negb (size_offset f =? 0) && (0 <=? array_size f)
      && (array_size f <? 2 ^ 32) && (data_size f * array_size f <? 2 ^ 32)).

Definition plain_field (sub : Z -> Z -> bool) (f : pb_field_t) : bool :=
  (PB_ATYPE (type f) =? PB_ATYPE_STATIC) && (0 <? tag f) && (tag f <? 2 ^ 29)
  && size_ok f && presence_ok f
  && (if has_ltype f PB_LTYPE_SUBMESSAGE
      then negb (ptr f =? 0) && sub (ptr f) (data_size f) else ptr f =? 0).

(** The bytes a field occupies: from, and how many. *)
Definition width (f : pb_field_t) : Z :=
  if is_repeated f then data_size f * array_size f else data_size f.
Definition flag_width (f : pb_field_t) : Z :=
  if is_optional f then 1 else if is_repeated f then 4 else 0.
Definition spans (f : pb_field_t) (p : Z) : list (Z * Z) :=
  [(p, width f); (p + size_offset f, flag_width f)].

Definition apart (s t : Z * Z) : bool :=
  (s.2 =? 0) || (t.2 =? 0) || (s.1 + s.2 <=? t.1) || (t.1 + t.2 <=? s.1).
Definition all_apart (l1 l2 : list (Z * Z)) : bool :=
  forallb (fun s => forallb (apart s) l2) l1.

(** The fields lie inside a structure of [size] bytes and do not overlap. *)
Definition layout_ok (fs : list pb_field_t) (size : Z) : bool :=
  let field_spans i := spans (nth_field fs i) (data_ptr fs 0 i) in
  let idx := seq 0 (entries fs) in
  forallb (fun i =>
    forallb (fun s => (0 <=? s.1) && (0 <=? s.2) && (s.1 + s.2 <=? size)) (field_spans i)
    && all_apart (take 1 (field_spans i)) (drop 1 (field_spans i))
    && forallb (fun j => (i =? j)%nat || all_apart (field_spans i) (field_spans j)) idx) idx.

(** The descriptor at [a] is plain, its structure has [size] bytes, and its submessages,
    which are plain too, nest less than [n] deep. *)
Fixpoint plain (n : nat) (a size : Z) : bool :=
  match n with
  | O => false
  | S n =>
    let fs := fields_of a in
    terminated fs && (1 <? length fs)%nat && (Z.of_nat (length fs) <? 2 ^ 32)
    && bool_decide (NoDup (map tag fs))
    && forallb (plain_field (plain n)) (take (entries fs) fs)
    && layout_ok fs size
  end.

(** ** Typed values *)

Definition num_ok (f : pb_field_t) (z : Z) : bool :=
  if has_ltype f PB_LTYPE_BOOL then one_of z [0; 1]
  else if has_ltype f PB_LTYPE_VARINT || has_ltype f PB_LTYPE_SVARINT
  then (- 2 ^ (8 * data_size f - 1) <=? z) && (z <? 2 ^ (8 * data_size f - 1))
  else (0 <=? z) && (z <? 2 ^ (8 * data_size f)).

Definition str_ok (f : pb_field_t) (l : list Z) : bool :=
  forallb (fun b => (0 <=? b) && (b <? 256)) l
  && (if has_ltype f PB_LTYPE_BYTES then Z.of_nat (length l) + offsetof_bytes <=? data_size f
      else if has_ltype f PB_LTYPE_STRING
      then (Z.of_nat (length l) <? data_size f) && forallb (fun b => negb (b =? 0)) l
      else has_ltype f PB_LTYPE_FIXED_LENGTH_BYTES && (Z.of_nat (length l) =? data_size f)).

Definition count_ok (f : pb_field_t) (k : nat) : bool :=
  if is_required f then (k =? 1)%nat
  else if is_optional f then (k <=? 1)%nat
  else Z.of_nat k <=? array_size f.

(** [v] is a value of the field [f]. *)
Definition typed (sub : Z -> message -> bool) (f : pb_field_t) (v : value) : bool :=
  match v with
  | Num z => is_packable f && num_ok f z
  | Str l => negb (is_packable f) && str_ok f l
  | Msg m => has_ltype f PB_LTYPE_SUBMESSAGE && sub (ptr f) m
  end.

(** [m] is a value of the message at [a]. *)
Fixpoint typed_message (n : nat) (a : Z) (m : message) : bool :=
  match n with
  | O => false
  | S n =>
    let fs := fields_of a in
    (length m =? entries fs)%nat
    && forallb (fun '(g, vs) =>
         count_ok g (length vs) && forallb (typed (typed_message n) g) vs) (zip fs m)
  end.

(** ** Facts about descriptors *)

Lemma apart_spec s t x :
  apart s t = true -> s.1 <= x < s.1 + s.2 -> t.1 <= x < t.1 + t.2 -> False.
Proof.
  unfold apart. rewrite !orb_true_iff, !Z.eqb_eq, !Z.leb_le. lia.
Qed.

Lemma all_apart_spec l1 l2 s t x :
  all_apart l1 l2 = true -> In s l1 -> In t l2 ->
  s.1 <= x < s.1 + s.2 -> t.1 <= x < t.1 + t.2 -> False.
Proof.
  unfold all_apart. rewrite forallb_forall. intros H Hs Ht.
  specialize (H s Hs). rewrite forallb_forall in H. by apply apart_spec, H.
Qed.

Lemma data_ptr_shift fs d i : data_ptr fs d i = d + data_ptr fs 0 i.
Proof. unfold data_ptr. lia. Qed.

(** [x] is a byte of field [i] of the structure at [d]: of its data, or of its flag. *)
Definition in_data (fs : list pb_field_t) (d : Z) (i : nat) (x : Z) : Prop :=
  data_ptr fs d i <= x < data_ptr fs d i + width (nth_field fs i).
Definition in_flag (fs : list pb_field_t) (d : Z) (i : nat) (x : Z) : Prop :=
  let p := data_ptr fs d i + size_offset (nth_field fs i) in
  p <= x < p + flag_width (nth_field fs i).
Definition owns (fs : list pb_field_t) (d : Z) (i : nat) (x : Z) : Prop :=
  in_data fs d i x \/ in_flag fs d i x.

Lemma owns_span fs d i x :
  owns fs d i x -> exists s, In s (spans (nth_field fs i) (data_ptr fs 0 i))
                            /\ s.1 <= x - d < s.1 + s.2.
Proof.
  unfold owns, in_data, in_flag, spans. cbv zeta. rewrite (data_ptr_shift fs d i).
  intros [H|H]; eexists; split; [by left|simpl; lia|right; by left|simpl; lia].
Qed.

Section Layout.
Context (fs : list pb_field_t) (size : Z) (Hl : layout_ok fs size = true).

Lemma layout_field i :
  (i < entries fs)%nat ->
  (forall s, In s (spans (nth_field fs i) (data_ptr fs 0 i)) ->
     0 <= s.1 /\ 0 <= s.2 /\ s.1 + s.2 <= size)
  /\ apart (data_ptr fs 0 i, width (nth_field fs i))
       (data_ptr fs 0 i + size_offset (nth_field fs i), flag_width (nth_field fs i)) = true
  /\ forall j, (j < entries fs)%nat -> i <> j ->
     all_apart (spans (nth_field fs i) (data_ptr fs 0 i))
       (spans (nth_field fs j) (data_ptr fs 0 j)) = true.
Proof.
  intros Hi. unfold layout_ok in Hl. rewrite forallb_forall in Hl.
  specialize (Hl i ltac:(apply in_seq; lia)). rewrite !andb_true_iff in Hl.
  destruct Hl as [[H1 H2] H3]. rewrite forallb_forall in H1. split_and!.
  - intros s Hs. specialize (H1 s Hs). rewrite !andb_true_iff, !Z.leb_le in H1. tauto.
  - cbn in H2. by rewrite !andb_true_r in H2.
  - intros j Hj Hij. rewrite forallb_forall in H3. specialize (H3 j ltac:(apply in_seq; lia)).
    apply orb_true_iff in H3 as [->%Nat.eqb_eq|]; done.
Qed.

Lemma owns_inside d i x : (i < entries fs)%nat -> owns fs d i x -> d <= x < d + size.
Proof.
  intros Hi (s & Hs & Hx)%owns_span. destruct (layout_field i Hi) as (H & _ & _).
  specialize (H s Hs). lia.
Qed.

Lemma owns_disjoint d i j x :
  (i < entries fs)%nat -> (j < entries fs)%nat -> i <> j -> owns fs d i x -> owns fs d j x -> False.
Proof.
  intros Hi Hj Hij (s & Hs & Hx)%owns_span (t & Ht & Hy)%owns_span.
  destruct (layout_field i Hi) as (_ & _ & H).
  exact (all_apart_spec _ _ s t (x - d) (H j Hj Hij) Hs Ht Hx Hy).
Qed.

Lemma flag_not_data d i x : (i < entries fs)%nat -> in_flag fs d i x -> in_data fs d i x -> False.
Proof.
  unfold in_data, in_flag. cbv zeta. rewrite (data_ptr_shift fs d i). intros Hi Hf Hd.
  destruct (layout_field i Hi) as (_ & Ha & _). apply (apart_spec _ _ (x - d) Ha); simpl; lia.
Qed.

Lemma data_ptr_low d i : (i < entries fs)%nat -> d <= data_ptr fs d i.
Proof.
  intros Hi. rewrite data_ptr_shift. destruct (layout_field i Hi) as (H & _).
  specialize (H _ (or_introl eq_refl)). simpl in H. lia.
Qed.
End Layout.

Lemma plain_inv n a size :
  plain n a size = true ->
  let fs := fields_of a in
  exists k, n = S k /\ env_fields E !! a = Some fs /\ terminated fs = true
    /\ entries fs <> 0%nat /\ Z.of_nat (length fs) < 2 ^ 32 /\ NoDup (map tag fs)
    /\ (forall i, (i < entries fs)%nat -> plain_field (plain k) (nth_field fs i) = true)
    /\ layout_ok fs size = true.
Proof.
  destruct n as [|k]; [done|]. cbn [plain]. unfold fields_of.
  destruct (env_fields E !! a) as [fs|]; [|done]. simpl default.
  rewrite !andb_true_iff, Nat.ltb_lt, Z.ltb_lt, bool_decide_eq_true, forallb_forall.
  intros (((((Ht & Hlen) & Hmax) & Hnd) & Hf) & Hl). exists k. unfold entries in *.
  split_and!; [done..| |done|done| |done]; [lia|].
  intros i Hi. apply Hf. unfold nth_field.
  rewrite <-(firstn_skipn (pred (length fs)) fs) at 1.
  rewrite app_nth1 by (rewrite length_firstn; lia). apply nth_In. rewrite length_firstn. lia.
Qed.

Lemma plain_field_inv sub f :
  plain_field sub f = true ->
  PB_ATYPE (type f) = PB_ATYPE_STATIC /\ 0 < tag f < 2 ^ 29 /\ size_ok f = true
  /\ presence_ok f = true
  /\ (PB_LTYPE (type f) = PB_LTYPE_SUBMESSAGE -> ptr f <> 0 /\ sub (ptr f) (data_size f) = true)
  /\ (PB_LTYPE (type f) <> PB_LTYPE_SUBMESSAGE -> ptr f = 0).
Proof.
  unfold plain_field, has_ltype. rewrite !andb_true_iff, Z.eqb_eq, !Z.ltb_lt.
  intros [[[[[Ha H1] H2] Hs] Hp] H]. split_and!; [done..| |]; case_bool; try done.
  apply andb_true_iff in H as [H%negb_true_iff%Z.eqb_neq Hs']. done.
  intros _. by apply Z.eqb_eq.
Qed.

Lemma one_of_sizes n : one_of n [1; 2; 4; 8] = true -> n = 1 \/ n = 2 \/ n = 4 \/ n = 8.
Proof. simpl. rewrite !orb_true_iff, !Z.eqb_eq. intuition congruence. Qed.

(** The types a plain field can have, and the sizes of their values. *)
Lemma ltype_cases f :
  size_ok f = true ->
  let t := PB_LTYPE (type f) in
  let n := data_size f in
  (t = PB_LTYPE_BOOL /\ n = 1)
  \/ (t = PB_LTYPE_VARINT /\ (n = 1 \/ n = 2 \/ n = 4 \/ n = 8))
  \/ (t = PB_LTYPE_UVARINT /\ (n = 1 \/ n = 2 \/ n = 4 \/ n = 8))
  \/ (t = PB_LTYPE_SVARINT /\ (n = 1 \/ n = 2 \/ n = 4 \/ n = 8))
  \/ (t = PB_LTYPE_FIXED32 /\ n = 4)
  \/ (t = PB_LTYPE_FIXED64 /\ n = 8)
  \/ (t = PB_LTYPE_BYTES /\ 4 <= n < 2 ^ 32)
  \/ (t = PB_LTYPE_STRING /\ 0 < n < 2 ^ 32)
  \/ (t = PB_LTYPE_SUBMESSAGE /\ 0 < n < 2 ^ 32)
  \/ (t = PB_LTYPE_FIXED_LENGTH_BYTES /\ 0 < n < 2 ^ 32).
Proof.
  unfold size_ok, has_ltype, is_packable, PB_LTYPE_BOOL, PB_LTYPE_VARINT, PB_LTYPE_UVARINT,
    PB_LTYPE_SVARINT, PB_LTYPE_FIXED32, PB_LTYPE_FIXED64, PB_LTYPE_BYTES, PB_LTYPE_STRING,
    PB_LTYPE_SUBMESSAGE, PB_LTYPE_FIXED_LENGTH_BYTES, PB_LTYPE_LAST_PACKABLE, offsetof_bytes.
  cbv zeta. generalize (PB_LTYPE (type f)) (data_size f). intros t n.
  destruct (Z.eqb_spec t 0); [rewrite Z.eqb_eq; lia|].
  destruct (Z.eqb_spec t 4); [rewrite Z.eqb_eq; lia|].
  destruct (Z.eqb_spec t 5); [rewrite Z.eqb_eq; lia|].
  destruct (Z.leb_spec t 5).
  { rewrite andb_true_iff, Z.leb_le. intros [? ?%one_of_sizes]. lia. }
  destruct (Z.eqb_spec t 6); rewrite !andb_true_iff, ?orb_true_iff, ?Z.eqb_eq, Z.ltb_lt,
    ?Z.leb_le, ?Z.ltb_lt; lia.
Qed.

Lemma data_size_pos f : size_ok f = true -> 0 < data_size f < 2 ^ 32.
Proof. intros H%ltype_cases. cbv zeta in H. lia. Qed.

Lemma bytes_size f :
  size_ok f = true -> has_ltype f PB_LTYPE_BYTES = true -> offsetof_bytes <= data_size f < 2 ^ 32.
Proof.
  unfold size_ok, has_ltype, is_packable. rewrite (Z.eqb_eq _ PB_LTYPE_BYTES). intros Hs Ht.
  rewrite Ht in Hs. simpl in Hs. by apply andb_true_iff in Hs as [?%Z.leb_le ?%Z.ltb_lt].
Qed.

Lemma presence_cases f :
  presence_ok f = true ->
  (is_required f = true /\ is_optional f = false /\ is_repeated f = false)
  \/ (is_required f = false /\ is_optional f = true /\ is_repeated f = false /\ size_offset f <> 0)
  \/ (is_required f = false /\ is_optional f = false /\ is_repeated f = true /\ size_offset f <> 0
      /\ 0 <= array_size f < 2 ^ 32 /\ data_size f * array_size f < 2 ^ 32).
Proof.
  unfold presence_ok, is_required, is_optional, is_repeated.
  destruct (Z.eqb_spec (PB_HTYPE (type f)) PB_HTYPE_REQUIRED) as [->|]; [tauto|].
  destruct (Z.eqb_spec (PB_HTYPE (type f)) PB_HTYPE_OPTIONAL) as [->|].
  - rewrite orb_false_r. simpl. rewrite negb_true_iff, Z.eqb_neq. tauto.
  - simpl. rewrite !andb_true_iff, negb_true_iff, Z.eqb_neq, Z.leb_le, !Z.ltb_lt. tauto.
Qed.

(** ** Values depend on the bytes of their field *)

Definition agree (h h' : gmap Z Z) (p n : Z) : Prop := forall x, p <= x < p + n -> h !! x = h' !! x.

Lemma agree_sub h h' p n q m : agree h h' p n -> p <= q -> q + m <= p + n -> agree h h' q m.
Proof. intros H ?? x Hx. apply H. lia. Qed.

Lemma read_agree h h' p n q m :
  agree h h' p n -> p <= q -> q + Z.of_nat m <= p + n ->
  read_bytes h q m = read_bytes h' q m.
Proof. intros H ??. apply read_bytes_agree. intros x Hx. apply H. lia. Qed.

Lemma value_at_agree h h' sub sub' f p :
  size_ok f = true ->
  (PB_LTYPE (type f) = PB_LTYPE_SUBMESSAGE -> sub (ptr f) p = sub' (ptr f) p) ->
  agree h h' p (data_size f) -> value_at h sub f p = value_at h' sub' f p.
Proof.
  intros Hs Hsub Ha. pose proof (data_size_pos f Hs) as Hn. unfold value_at.
  rewrite <-(read_agree h h' p (data_size f) p (Z.to_nat (data_size f))) by (done || lia).
  destruct (is_packable f); [done|].
  destruct (has_ltype f PB_LTYPE_BYTES) eqn:Eb.
  - pose proof (bytes_size f Hs Eb) as Hb. unfold offsetof_bytes in *.
    rewrite <-(read_agree h h' p (data_size f) p sizeof_pb_size_t) by (done || (unfold sizeof_pb_size_t; lia)).
    destruct (read_bytes h p sizeof_pb_size_t) as [l|]; [|done]. simpl.
    case_bool; [|done]. f_equal.
    apply (read_agree h h' p (data_size f)); [done|lia|lia].
  - destruct (has_ltype f PB_LTYPE_STRING); [done|].
    destruct (has_ltype f PB_LTYPE_FIXED_LENGTH_BYTES); [done|].
    unfold has_ltype in *. case_bool; [|done]. by rewrite Hsub.
Qed.

Lemma mapM_ext_in {A B} (f g : A -> option B) l :
  (forall x, In x l -> f x = g x) -> mapM f l = mapM g l.
Proof.
  induction l as [|x l IH]; intros H; [done|]. simpl.
  rewrite (H x) by by left. rewrite IH; [done|]. intros y Hy. apply H. by right.
Qed.

Lemma values_at_agree h h' sub sub' f p :
  size_ok f = true -> presence_ok f = true ->
  (PB_LTYPE (type f) = PB_LTYPE_SUBMESSAGE -> forall q, p <= q -> q + data_size f <= p + width f ->
     sub (ptr f) q = sub' (ptr f) q) ->
  agree h h' p (width f) -> agree h h' (p + size_offset f) (flag_width f) ->
  values_at h sub f p = values_at h' sub' f p.
Proof.
  intros Hs Hp Hsub Ha Hf. pose proof (data_size_pos f Hs) as Hn. unfold values_at, width, flag_width in *.
  destruct (presence_cases f Hp) as [(-> & Ho & Hr)|[(-> & Ho & Hr & _)|(-> & Ho & Hr & _ & Hz & _)]];
    rewrite Ho, Hr in *.
  - f_equal. apply value_at_agree; [done| |done]. intros Hm. apply Hsub; [done|lia|lia].
  - rewrite (Hf (p + size_offset f)) by lia. destruct (h' !! _) as [has|]; [|done]. simpl.
    case_match; [done|]. f_equal. apply value_at_agree; [done| |done]. intros Hm. apply Hsub; [done|lia|lia].
  - rewrite <-(read_agree h h' _ _ (p + size_offset f) sizeof_pb_size_t Hf) by (unfold sizeof_pb_size_t; lia).
    destruct (read_bytes h _ sizeof_pb_size_t) as [l|]; [|done]. simpl.
    case_bool; [|done]. apply mapM_ext_in. intros k Hk%in_seq. unfold element_at.
    apply value_at_agree; [done| |].
    + intros Hm. apply Hsub; [done|nia|nia].
    + eapply agree_sub; [exact Ha|nia|nia].
Qed.

Lemma message_at_agree n : forall a size h h' d,
  plain n a size = true -> agree h h' d size -> message_at n h a d = message_at n h' a d.
Proof.
  induction n as [|n IH]; intros a size h h' d Hp Ha; [done|].
  destruct (plain_inv _ _ _ Hp) as (k & [= <-] & He & Ht & Hne & Hlen & Hnd & Hf & Hl).
  cbn [message_at]. apply mapM_ext_in. intros i Hi%in_seq.
  destruct (plain_field_inv _ _ (Hf i ltac:(lia))) as (_ & _ & Hs & Hpr & Hsub & _).
  assert (Hin : forall x, owns (fields_of a) d i x -> h !! x = h' !! x).
  { intros x Hx. apply Ha. eapply owns_inside; [done| |done]. lia. }
  apply values_at_agree; [done|done| | |].
  - intros Hm q Hq1 Hq2. destruct (Hsub Hm) as [_ Hps]. apply (IH _ _ _ _ _ Hps).
    intros x Hx. apply Hin. left. unfold in_data. lia.
  - intros x Hx. apply Hin. by left.
  - intros x Hx. apply Hin. by right.
Qed.

(** ** The iterator over a plain descriptor *)

Lemma data_at fs a d i : 0 < d -> it_pData (iter_at fs a d i) = data_ptr fs d i.
Proof. intros Hd. simpl. case_bool; [lia|]. unfold data_ptr. lia. Qed.

Lemma not_extension f : size_ok f = true -> (PB_LTYPE (type f) =? PB_LTYPE_EXTENSION) = false.
Proof.
  intros Hs%ltype_cases. cbv zeta in Hs. apply Z.eqb_neq. intros Hx. rewrite Hx in Hs. by intuition.
Qed.

Lemma not_oneof f : presence_ok f = true -> (PB_HTYPE (type f) =? PB_HTYPE_ONEOF) = false.
Proof.
  unfold presence_ok, is_required, is_optional, is_repeated. intros H. apply Z.eqb_neq. intros Hx.
  by rewrite Hx in H.
Qed.

Section PlainIter.
Context (n : nat) (a size : Z).
Hypothesis Hp : plain n a size = true.
Local Notation fs := (fields_of a).

Lemma plain_size_owner i : (i < entries fs)%nat -> size_owner fs i = i.
Proof.
  destruct (plain_inv _ _ _ Hp) as (k & _ & _ & _ & _ & _ & _ & Hf & _).
  destruct i as [|i]; [done|]. intros Hi. cbn [size_owner].
  destruct (plain_field_inv _ _ (Hf i ltac:(lia))) as (_ & _ & _ & Hpr & _).
  unfold shares. by rewrite (not_oneof _ Hpr).
Qed.

Lemma size_at d i :
  0 < d -> (i < entries fs)%nat ->
  it_pSize (iter_at fs a d i) = data_ptr fs d i + size_offset (nth_field fs i).
Proof.
  intros Hd Hi. simpl. rewrite plain_size_owner by done. case_bool; [lia|]. simpl. unfold data_ptr. lia.
Qed.

Lemma plain_it_field d i :
  (i < entries fs)%nat -> it_field E (iter_at fs a d i) = Some (nth_field fs i).
Proof.
  destruct (plain_inv _ _ _ Hp) as (k & _ & He & Ht & Hne & _). intros Hi.
  unfold it_field. simpl. apply (field_at_entry E a fs He Ht Hne). lia.
Qed.
End PlainIter.
End Messages.
