(* ===== verification/PbMessageEncode.v ===== *)
(** * nanopb: the encoder writes the wire format

    [pb_encode] on a structure in memory, with a stream that has room, writes the encoding
    [message_wire] of the message the structure holds, and nothing else. The judgement
    [emits] says so of a function of the encoder, on a counting stream as well as on a memory
    stream: a submessage is encoded twice, to learn its length and to write it. *)
From S2P Require Export PbMessage PbEncodeSafe.

Lemma write_bytes_app h a l1 l2 :
  write_bytes h a (l1 ++ l2)
  = match write_bytes h a l1 with
    | Some h1 => write_bytes h1 (a + Z.of_nat (length l1)) l2
    | None => None
    end.
Proof.
  revert h a. induction l1 as [|b l1 IH]; intros h a; simpl; [by rewrite Z.add_0_r|].
  destruct (h !! a); [|done]. rewrite IH. case_match; [|done]. f_equal. lia.
Qed.

Lemma read_bytes_lookup h p n l i b :
  read_bytes h p n = Some l -> l !! i = Some b -> h !! (p + Z.of_nat i) = Some b.
Proof.
  intros H Hi. pose proof (read_bytes_length _ _ _ _ H) as Hlen.
  apply (mem_at_lookup h p l); [|done]. unfold mem_at. by rewrite Hlen.
Qed.

Lemma read_bytes_app h p l1 l2 :
  read_bytes h p (length l1 + length l2) = Some (l1 ++ l2) <->
  read_bytes h p (length l1) = Some l1
  /\ read_bytes h (p + Z.of_nat (length l1)) (length l2) = Some l2.
Proof.
  pose proof (mem_at_app h p l1 l2) as H. unfold mem_at in H. by rewrite length_app in H.
Qed.

Lemma read_bytes_size h p n l : read_bytes h p n = Some l -> (n <= size h)%nat.
Proof.
  revert h p l. induction n as [|n IH]; intros h p l; [lia|]. simpl.
  destruct (h !! p) as [b|] eqn:Hb; [|done].
  destruct (read_bytes h (p + 1) n) eqn:E; [|done]. intros _.
  rewrite (read_bytes_agree h (delete p h) (p + 1) n) in E.
  - apply IH in E. rewrite map_size_delete, Hb in E. simpl in E.
    assert (size h <> 0%nat) by (intros ->%map_size_empty_inv; done). lia.
  - intros x Hx. by rewrite lookup_delete_ne by lia.
Qed.

Lemma le_combine_u64 l : bytes l -> (length l <= 8)%nat -> 0 <= le_combine l < 2 ^ 64.
Proof.
  intros Hl Hn. pose proof (le_combine_range l Hl).
  pose proof (Z.pow_le_mono_r 2 (8 * Z.of_nat (length l)) 64). lia.
Qed.

Lemma to_signed_s64 w z : 0 < w <= 64 -> - 2 ^ 63 <= to_signed w z < 2 ^ 63.
Proof.
  intros Hw. pose proof (to_signed_range w z).
  pose proof (Z.pow_le_mono_r 2 (w - 1) 63). lia.
Qed.

(** ** What a structure in memory holds is typed *)

Lemma num_of_ok f l :
  size_ok f = true -> is_packable f = true -> bytes l -> length l = Z.to_nat (data_size f) ->
  num_ok f (num_of f l) = true.
Proof.
  intros Hs Hp Hl Hlen. pose proof (data_size_pos f Hs) as Hn.
  pose proof (le_combine_range l Hl) as Hr. rewrite Hlen, Z2Nat.id in Hr by lia.
  unfold num_ok, num_of. destruct (has_ltype f PB_LTYPE_BOOL).
  - by case_bool.
  - destruct (has_ltype f PB_LTYPE_VARINT || has_ltype f PB_LTYPE_SVARINT).
    + pose proof (to_signed_range (8 * data_size f) (le_combine l)).
      apply andb_true_iff. rewrite Z.leb_le, Z.ltb_lt. lia.
    + apply andb_true_iff. rewrite Z.leb_le, Z.ltb_lt. lia.
Qed.

Lemma bytes_forallb l : bytes l <-> forallb (fun b => (0 <=? b) && (b <? 256)) l = true.
Proof.
  unfold bytes. rewrite forallb_forall, Forall_forall. split; intros H x Hx.
  - apply list_elem_of_In, H in Hx. unfold is_byte in Hx. apply andb_true_iff.
    rewrite Z.leb_le, Z.ltb_lt. lia.
  - apply list_elem_of_In, H, andb_true_iff in Hx. rewrite Z.leb_le, Z.ltb_lt in Hx. done.
Qed.

Lemma until_zero_spec l s :
  until_zero l = Some s -> exists r, l = s ++ 0 :: r /\ Forall (fun b => b <> 0) s.
Proof.
  revert s. induction l as [|b l IH]; intros s; [done|]. simpl. case_bool.
  - intros [= <-]. subst b. by exists l.
  - destruct (until_zero l) as [s'|]; [|done]. intros [= <-].
    destruct (IH s' eq_refl) as (r & -> & Hs). exists r. split; [done|]. by constructor.
Qed.

Section Typed.
Context (E : pb_env) (c : cstate) (Hc : bytes_heap c).

Lemma value_at_typed sub tsub f p v :
  size_ok f = true ->
  (PB_LTYPE (type f) = PB_LTYPE_SUBMESSAGE ->
   forall m, sub (ptr f) p = Some m -> tsub (ptr f) m = true) ->
  value_at (heap c) sub f p = Some v -> typed tsub f v = true.
Proof.
  intros Hs Hsub. pose proof (data_size_pos f Hs) as Hn. unfold value_at.
  destruct (is_packable f) eqn:Epk.
  { destruct (read_bytes _ _ _) as [l|] eqn:El; [|done]. intros [= <-]. simpl. rewrite Epk. simpl.
    pose proof (read_bytes_length _ _ _ _ El). apply read_bytes_bytes in El; [|done].
    by apply num_of_ok. }
  destruct (has_ltype f PB_LTYPE_BYTES) eqn:Eb.
  { destruct (read_bytes _ p _) as [l0|] eqn:E0; [|done]. simpl. case_bool; [|done].
    destruct (read_bytes _ (p + _) _) as [l|] eqn:El; [|done]. intros [= <-]. simpl.
    rewrite Epk. unfold str_ok. rewrite Eb. simpl. apply andb_true_iff. split.
    - apply bytes_forallb. by eapply read_bytes_bytes.
    - apply Z.leb_le. apply read_bytes_length in El. rewrite El.
      pose proof (le_combine_range l0 (read_bytes_bytes _ _ _ _ Hc E0)). lia. }
  destruct (has_ltype f PB_LTYPE_STRING) eqn:Es.
  { destruct (read_bytes _ _ _) as [l|] eqn:El; [|done]. simpl.
    destruct (until_zero l) as [s|] eqn:Eu; [|done]. intros [= <-]. simpl. rewrite Epk. unfold str_ok.
    rewrite Eb, Es. apply until_zero_spec in Eu as (r & -> & Hnz).
    pose proof (read_bytes_length _ _ _ _ El) as Hlen. rewrite length_app in Hlen. simpl in Hlen.
    apply read_bytes_bytes in El; [|done]. apply bytes_app in El as [Hb _]. simpl.
    rewrite !andb_true_iff. split_and!; [by apply bytes_forallb|apply Z.ltb_lt; lia|].
    apply forallb_forall. intros x Hx%list_elem_of_In. rewrite Forall_forall in Hnz.
    apply negb_true_iff, Z.eqb_neq. auto. }
  destruct (has_ltype f PB_LTYPE_FIXED_LENGTH_BYTES) eqn:Ef.
  { destruct (read_bytes _ _ _) as [l|] eqn:El; [|done]. intros [= <-]. simpl. rewrite Epk. unfold str_ok.
    rewrite Eb, Es, Ef. simpl. apply andb_true_iff. split.
    - apply bytes_forallb. by eapply read_bytes_bytes.
    - apply read_bytes_length in El. apply Z.eqb_eq. lia. }
  destruct (has_ltype f PB_LTYPE_SUBMESSAGE) eqn:Em; [|done].
  destruct (sub (ptr f) p) as [m|]; [|done]. intros [= <-]. simpl. rewrite Em. simpl.
  apply Z.eqb_eq in Em. auto.
Qed.

Lemma values_at_typed sub tsub f p vs :
  size_ok f = true -> presence_ok f = true ->
  (PB_LTYPE (type f) = PB_LTYPE_SUBMESSAGE ->
   forall q m, sub (ptr f) q = Some m -> tsub (ptr f) m = true) ->
  values_at (heap c) sub f p = Some vs ->
  count_ok f (length vs) && forallb (typed tsub f) vs = true.
Proof.
  intros Hs Hp Hsub. unfold values_at, count_ok.
  destruct (presence_cases f Hp) as [(-> & _ & _)|[(-> & -> & _ & _)|(-> & -> & -> & _ & Ha & _)]].
  - destruct (value_at _ _ _ _) as [v|] eqn:Ev; [|done]. intros [= <-]. simpl.
    rewrite andb_true_r. eapply value_at_typed; [done| |exact Ev]. eauto.
  - destruct (heap c !! _) as [b|]; [|done]. simpl. case_bool; [by intros [= <-]|].
    destruct (value_at _ _ _ _) as [v|] eqn:Ev; [|done]. intros [= <-]. simpl.
    rewrite andb_true_r. eapply value_at_typed; [done| |exact Ev]. eauto.
  - destruct (read_bytes _ _ _) as [l|]; [|done]. simpl. case_bool; [|done].
    intros Hm%mapM_Some. pose proof (Forall2_length _ _ _ Hm) as Hlen. rewrite length_seq in Hlen.
    apply andb_true_iff. split; [apply Z.leb_le; lia|].
    apply forallb_forall. intros v Hv%list_elem_of_In.
    apply list_elem_of_lookup in Hv as [i Hi].
    destruct (Forall2_lookup_r _ _ _ _ _ Hm Hi) as (k & _ & Hk).
    eapply value_at_typed; [done| |exact Hk]. eauto.
Qed.

Lemma message_at_typed n : forall a size d m,
  plain E n a size = true -> message_at E n (heap c) a d = Some m -> typed_message E n a m = true.
Proof.
  induction n as [|n IH]; intros a size d m Hp; [done|].
  destruct (plain_inv _ _ _ _ Hp) as (k & [= <-] & _ & _ & _ & _ & _ & Hf & _).
  cbn [message_at typed_message]. intros Hm%mapM_Some.
  pose proof (Forall2_length _ _ _ Hm) as Hlen. rewrite length_seq in Hlen.
  apply andb_true_iff. split; [by apply Nat.eqb_eq|]. apply forallb_forall.
  intros [g vs] Hin%list_elem_of_In. apply list_elem_of_lookup in Hin as [i Hi].
  rewrite lookup_zip_Some in Hi. destruct Hi as [Hg Hvs].
  destruct (Forall2_lookup_r _ _ _ _ _ Hm Hvs) as (j & Hj & Hk). apply lookup_seq in Hj as [-> Hj].
  simpl in Hk. assert (nth_field (fields_of E a) i = g) as Hgi by by apply nth_lookup_Some.
  rewrite Hgi in Hk. specialize (Hf i Hj). rewrite Hgi in Hf.
  destruct (plain_field_inv _ _ Hf) as (_ & _ & Hs & Hpr & Hsub & _).
  eapply values_at_typed; [done|done| |exact Hk].
  intros Ht q m' Hq. destruct (Hsub Ht) as [_ Hps]. by eapply IH.
Qed.
End Typed.

(** ** Writing to a stream *)

Section Emits.
Context (E : pb_env).
(** The memory outside the output buffer, and the bounds of that buffer. *)
Context (h0 : gmap Z Z) (lo hi : Z).

Definition source (c : cstate) : Prop := forall x, ~ (lo <= x < hi) -> heap c !! x = h0 !! x.

(** [s] has room for [n] bytes: it only counts, or it writes into the buffer. *)
Definition accepts (s : pb_ostream_t) (c : cstate) (n : Z) : Prop :=
  os_errmsg s = None
  /\ ((os_callback s = OC_NULL /\ 0 <= os_bytes_written s /\ os_bytes_written s + n < 2 ^ 64)
      \/ (os_room s c n /\ lo <= os_state s /\ os_state s + n <= hi)).

Definition counting (s : pb_ostream_t) : bool := bool_decide (os_callback s = OC_NULL).

(** The stream and the memory after [l] has gone to [s]. *)
Definition sent (s : pb_ostream_t) (l : list Z) : pb_ostream_t :=
  let n := Z.of_nat (length l) in
  mk_ostream (os_callback s) (if counting s then os_state s else os_state s + n) (os_max_size s)
    (os_bytes_written s + n) (os_errmsg s).
Definition sent_mem (s : pb_ostream_t) (c : cstate) (l : list Z) (c' : cstate) : Prop :=
  if counting s then c' = c
  else exists h, write_bytes (heap c) (os_state s) l = Some h /\ c' = set_heap c h.

Definition emits (m : M pb_ostream_t bool) (l : list Z) : Prop :=
  forall s c, source c -> accepts s c (Z.of_nat (length l)) ->
  exists c', m s c = Ret (true, sent s l, c') /\ sent_mem s c l c'.

Lemma counting_true s : counting s = true <-> os_callback s = OC_NULL.
Proof. apply bool_decide_eq_true. Qed.
Lemma counting_false s : counting s = false <-> os_callback s <> OC_NULL.
Proof. apply bool_decide_eq_false. Qed.

Lemma accepts_writing s c n :
  accepts s c n -> counting s = false -> os_room s c n /\ lo <= os_state s /\ os_state s + n <= hi.
Proof. intros [_ [[H _]|H]] Hc; [|done]. by apply counting_false in Hc. Qed.

Lemma sent_nil s : sent s [] = s.
Proof. destruct s. unfold sent, counting. simpl. rewrite !Z.add_0_r. by case_match. Qed.

Lemma sent_sent s l1 l2 : sent (sent s l1) l2 = sent s (l1 ++ l2).
Proof.
  unfold sent, counting. simpl. rewrite length_app. f_equal; [|lia]. case_match; [done|lia].
Qed.

Lemma sent_source s c l c' :
  source c -> accepts s c (Z.of_nat (length l)) -> sent_mem s c l c' -> source c'.
Proof.
  intros Hs Ha. unfold sent_mem. destruct (counting s) eqn:Ec; [by intros ->|].
  intros (h & Hw & ->) x Hx. destruct (accepts_writing _ _ _ Ha Ec) as (_ & H1 & H2).
  simpl. rewrite (write_bytes_outside _ _ _ _ _ Hw) by lia. by apply Hs.
Qed.

Lemma accepts_le s c n m : accepts s c n -> 0 <= m <= n -> accepts s c m.
Proof.
  intros [He H] Hm. split; [done|].
  destruct H as [(H1 & H2 & H3)|((H1 & H2 & H3 & H4) & H5 & H6)]; [left; split_and!; [done|lia|lia]|].
  right. split_and!; [|lia|lia]. repeat split; [done|lia|lia|lia|].
  intros x Hx. apply H4. lia.
Qed.

Lemma accepts_sent s c l1 l2 c' :
  accepts s c (Z.of_nat (length (l1 ++ l2))) -> sent_mem s c l1 c' ->
  accepts (sent s l1) c' (Z.of_nat (length l2)).
Proof.
  rewrite length_app, Nat2Z.inj_add. intros Ha. unfold sent_mem. destruct (counting s) eqn:Ec.
  - intros ->. destruct Ha as [He [(H1 & H2 & H3)|[(H & _) _]]]; (split; [done|]).
    + left. simpl. split_and!; [done|lia|lia].
    + apply counting_true in Ec. by rewrite Ec in H.
  - intros (h & Hw & ->). destruct (accepts_writing _ _ _ Ha Ec) as ((H1 & H2 & H3 & H4) & H5 & H6).
    split; [apply Ha|]. right. unfold sent. rewrite Ec. simpl. split_and!; [|lia|lia].
    repeat split; simpl; [done|lia|lia|lia|].
    intros x Hx. apply (write_bytes_dom _ _ _ _ x Hw), H4. lia.
Qed.

Lemma sent_mem_app s c l1 l2 c1 c2 :
  sent_mem s c l1 c1 -> sent_mem (sent s l1) c1 l2 c2 -> sent_mem s c (l1 ++ l2) c2.
Proof.
  unfold sent_mem. change (counting (sent s l1)) with (counting s).
  destruct (counting s) eqn:Ec; [by intros -> ->|].
  intros (h1 & Hw1 & ->) (h2 & Hw2 & ->). exists h2. split; [|done].
  rewrite write_bytes_app, Hw1. unfold sent in Hw2. by rewrite Ec in Hw2.
Qed.

(** *** Composition *)

Lemma emits_nil : emits (mret true) [].
Proof.
  intros s c _ _. exists c. rewrite sent_nil. split; [done|]. unfold sent_mem.
  case_match; [done|]. exists (heap c). by destruct c.
Qed.

Lemma emits_seq m (k : M pb_ostream_t bool) l1 l2 :
  emits m l1 -> emits k l2 -> emits (check! m; k) (l1 ++ l2).
Proof.
  intros Hm Hk s c Hs Ha.
  assert (Ha1 : accepts s c (Z.of_nat (length l1))).
  { eapply accepts_le; [exact Ha|]. rewrite length_app. lia. }
  destruct (Hm s c Hs Ha1) as (c1 & H1 & Hc1).
  destruct (Hk (sent s l1) c1) as (c2 & H2 & Hc2);
    [by eapply sent_source|by eapply accepts_sent|].
  exists c2. rewrite (bind_ret _ _ _ _ _ _ _ H1). rewrite H2, sent_sent.
  split; [done|]. by eapply sent_mem_app.
Qed.

Lemma emits_read {A} (m : M pb_ostream_t A) (k : A -> M pb_ostream_t bool) a l :
  (forall s c, source c -> m s c = Ret (a, s, c)) -> emits (k a) l -> emits (m ≫= k) l.
Proof.
  intros Hm Hk s c Hs Ha. rewrite (bind_ret _ _ _ _ _ _ _ (Hm s c Hs)). by apply Hk.
Qed.

Lemma emits_of_option {A} (o : option A) (k : A -> M pb_ostream_t bool) a l :
  o = Some a -> emits (k a) l -> emits (of_option o ≫= k) l.
Proof. intros ->. by apply emits_read. Qed.

Lemma emits_ext (m m' : M pb_ostream_t bool) l :
  (forall s c, m s c = m' s c) -> emits m' l -> emits m l.
Proof. intros H Hm s c Hs Ha. rewrite H. by apply Hm. Qed.

(** A loop over the elements of an array. *)
Lemma emits_array_loop n body step : forall p ls,
  length ls = n ->
  (forall k l, ls !! k = Some l -> emits (body (p + step * Z.of_nat k)) l) ->
  emits (array_loop n body p step) (concat ls).
Proof.
  induction n as [|n IH]; intros p [|l ls] Hlen Hb; try done; [apply emits_nil|].
  cbn [array_loop concat]. apply emits_seq.
  - replace p with (p + step * Z.of_nat 0) by lia. by apply (Hb 0%nat).
  - apply IH; [simpl in Hlen; lia|]. intros k l' Hk.
    replace (p + step + step * Z.of_nat k) with (p + step * Z.of_nat (S k)) by lia.
    by apply (Hb (S k)).
Qed.

(** *** Writing bytes *)

Definition holds (buf : cbuf) (l : list Z) : Prop :=
  forall i b, l !! i = Some b -> forall (s : pb_ostream_t) c, source c -> cbuf_get buf i s c = Ret (b, s, c).

Lemma holds_local l : holds (Local l) l.
Proof. intros i b Hi s c _. simpl. by rewrite Hi. Qed.

Lemma source_read c p n :
  source c -> (forall x, p <= x < p + Z.of_nat n -> ~ (lo <= x < hi)) ->
  read_bytes (heap c) p n = read_bytes h0 p n.
Proof. intros Hs Hp. apply read_bytes_agree. intros x Hx. by apply Hs, Hp. Qed.

Lemma holds_mem p l :
  (forall x, p <= x < p + Z.of_nat (length l) -> ~ (lo <= x < hi)) ->
  read_bytes h0 p (length l) = Some l -> holds (Mem p) l.
Proof.
  intros Hp Hl i b Hi s c Hs. apply load1_spec with (h := heap c); [done|].
  eapply read_bytes_lookup; [|exact Hi]. by rewrite (source_read _ _ _ Hs Hp).
Qed.

Lemma copy_loop_holds buf l dest : bytes l -> holds buf l -> lo <= dest -> forall n i (s : pb_ostream_t) c h,
  dest + Z.of_nat (length l) <= hi -> (i + n = length l)%nat -> source c ->
  write_bytes (heap c) (dest + Z.of_nat i) (drop i l) = Some h ->
  copy_loop dest buf i n s c = Ret (tt, s, set_heap c h).
Proof.
  intros Hl Hb Hlo. induction n as [|n IH]; intros i s c h Hhi Hi Hs Hw.
  - rewrite drop_ge in Hw by lia. injection Hw as <-. by destruct c.
  - destruct (lookup_lt_is_Some_2 l i) as [b Hbi]; [lia|].
    rewrite (drop_S l b i Hbi) in Hw. cbn [copy_loop write_bytes] in *.
    destruct (heap c !! (dest + Z.of_nat i)) as [x|] eqn:Ex; [|done].
    erewrite bind_ret by by apply Hb.
    assert (is_byte b) by (by eapply Forall_lookup_1 in Hl).
    erewrite bind_ret by (apply store1_spec; eauto).
    erewrite IH; [done|done|lia| |].
    + intros y Hy. simpl. rewrite lookup_insert_ne by lia. by apply Hs.
    + simpl. rewrite <-Hw. f_equal. lia.
Qed.

Lemma emits_write buf l : bytes l -> holds buf l -> emits (pb_write E buf (Z.of_nat (length l))) l.
Proof.
  intros Hl Hb s c Hs Ha. unfold pb_write. erewrite bind_ret by done.
  destruct (counting s) eqn:Ec; unfold counting in Ec.
  - rewrite Ec, andb_false_r. exists c. unfold sent_mem, sent, counting. rewrite Ec. split; [|done].
    destruct Ha as [He [(H1 & H2 & H3)|[(H & _) _]]].
    + erewrite bind_ret by done. unfold os_advance. by rewrite u64_small by lia.
    + apply bool_decide_eq_true in Ec. by rewrite Ec in H.
  - destruct (accepts_writing _ _ _ Ha Ec) as ((H1 & H2 & H3 & H4) & H5 & H6).
    destruct (write_bytes_mapped (heap c) (os_state s) l H4) as [h Hh].
    exists (set_heap c h). unfold sent_mem, sent, counting. rewrite Ec. split; [|eauto].
    cbn [negb andb]. destruct (Z.ltb_spec 0 (Z.of_nat (length l))) as [Hpos|Hpos].
    + rewrite u64_small by lia. repeat case_bool; try lia. rewrite H1. cbn [orb andb ocallback_call].
      erewrite bind_ret.
      2:{ unfold buf_write. erewrite bind_ret by done. erewrite bind_ret by done.
          erewrite bind_ret; [done|]. rewrite Nat2Z.id.
          apply (copy_loop_holds buf l (os_state s) Hl Hb H5); [lia|lia|done|].
          by rewrite Z.add_0_r. }
      cbn. unfold mbind, M_bind, get, put, mret, M_ret. cbn. unfold os_advance. simpl.
      rewrite u64_small by lia. by rewrite H1.
    + destruct l; [|simpl in Hpos; lia]. injection Hh as <-. simpl.
      erewrite bind_ret by done. unfold os_advance. rewrite u64_small by (simpl in *; lia).
      rewrite !Z.add_0_r. by destruct c.
Qed.

Lemma emits_varint v : 0 <= v < 2 ^ 64 -> emits (pb_encode_varint E v) (varint v).
Proof.
  intros Hv. eapply emits_ext; [intros; by apply pb_encode_varint_spec|].
  apply emits_write; [by apply varint_bytes|apply holds_local].
Qed.

Lemma emits_tag w f :
  0 < tag f < 2 ^ 29 -> emits (pb_encode_tag E w (tag f)) (key w f).
Proof.
  intros Ht. unfold pb_encode_tag, key. rewrite tag_value by lia.
  pose proof (wt_val_range w). apply emits_varint. lia.
Qed.

Lemma emits_string buf l :
  bytes l -> holds buf l -> Z.of_nat (length l) < 2 ^ 64 ->
  emits (pb_encode_string E buf (Z.of_nat (length l))) (delimited l).
Proof.
  intros Hl Hb Hn. unfold pb_encode_string, delimited. apply emits_seq.
  - apply emits_varint. lia.
  - by apply emits_write.
Qed.

Lemma emits_bounded m l :
  (Z.of_nat (length l) < 2 ^ 64 -> emits m l) -> emits m l.
Proof.
  intros H s c Hs Ha. apply H; [|done|done].
  destruct Ha as [_ [?|((? & ? & ? & _) & _)]]; lia.
Qed.

Lemma emits_delimited buf l :
  bytes l -> holds buf l -> emits (pb_encode_string E buf (Z.of_nat (length l))) (delimited l).
Proof.
  intros Hl Hb. apply emits_bounded. intros Hn. apply emits_string; [done..|].
  unfold delimited in Hn. rewrite length_app in Hn. lia.
Qed.

(** ** The encoders of the scalar types *)

Context (Hbytes : forall x b, h0 !! x = Some b -> is_byte b).

(** The storage at [p] is no part of the output buffer. *)
Definition outside (p n : Z) : Prop := forall x, p <= x < p + n -> ~ (lo <= x < hi).

Lemma outside_sub p n q m : outside p n -> p <= q -> q + m <= p + n -> outside q m.
Proof. intros H ?? x Hx. apply H. lia. Qed.

Lemma source_bytes p n l : read_bytes h0 p n = Some l -> bytes l.
Proof. apply (read_bytes_bytes (CState h0 ∅ 0 [] 0)). exact Hbytes. Qed.

Lemma source_load p n l s c :
  read_bytes h0 p n = Some l -> outside p (Z.of_nat n) -> source c ->
  load n p s c = Ret (le_combine l, s, c : cstate) :> outcome (Z * pb_ostream_t * cstate).
Proof. intros Hl Hp Hs. apply load_bytes. by rewrite (source_read _ _ _ Hs Hp). Qed.

Lemma emits_load p n l (k : Z -> M pb_ostream_t bool) w :
  read_bytes h0 p n = Some l -> outside p (Z.of_nat n) -> emits (k (le_combine l)) w ->
  emits (load n p ≫= k) w.
Proof.
  intros Hl Hp Hk. apply emits_read with (a := le_combine l); [|done].
  intros s c. by apply source_load.
Qed.

Lemma emits_enc_bool f p l :
  read_bytes h0 p 1 = Some l -> outside p 1 ->
  emits (pb_enc_bool E f p) (varint (if le_combine l =? 0 then 0 else 1)).
Proof.
  intros Hl Hp. unfold pb_enc_bool. apply emits_read with (a := negb (le_combine l =? 0)).
  - intros s c Hs. unfold safe_read_bool. erewrite bind_ret by by apply source_load. done.
  - destruct (le_combine l =? 0); apply emits_varint; lia.
Qed.

Lemma emits_svarint v : - 2 ^ 63 <= v < 2 ^ 63 -> emits (pb_encode_svarint E v) (varint (zigzag v)).
Proof.
  intros Hv. eapply emits_ext; [intros; by apply pb_encode_svarint_zigzag|].
  by apply emits_varint, zigzag_range.
Qed.

Ltac by_size H :=
  destruct H as [-> | [-> | [-> | ->]]]; [| | |]; intros Hl Hp; cbn [Z.eqb Pos.eqb]; simpl Z.to_nat in *.

Lemma emits_enc_varint f p l n :
  data_size f = n -> n = 1 \/ n = 2 \/ n = 4 \/ n = 8 ->
  read_bytes h0 p (Z.to_nat n) = Some l -> outside p n ->
  emits (pb_enc_varint E f p) (varint (u64 (to_signed (8 * n) (le_combine l)))).
Proof.
  unfold pb_enc_varint. intros -> H.
  by_size H; (eapply emits_load; [exact Hl|exact Hp|]); apply emits_varint, u64_range.
Qed.

Lemma emits_enc_uvarint f p l n :
  data_size f = n -> n = 1 \/ n = 2 \/ n = 4 \/ n = 8 ->
  read_bytes h0 p (Z.to_nat n) = Some l -> outside p n ->
  emits (pb_enc_uvarint E f p) (varint (u64 (le_combine l))).
Proof.
  unfold pb_enc_uvarint. intros -> H.
  by_size H; (eapply emits_load; [exact Hl|exact Hp|]);
    pose proof (le_combine_u64 l (source_bytes _ _ _ Hl)) as Hr;
    rewrite (read_bytes_length _ _ _ _ Hl) in Hr; specialize (Hr ltac:(lia));
    (rewrite u64_small by lia); apply emits_varint; lia.
Qed.

Lemma emits_enc_svarint f p l n :
  data_size f = n -> n = 1 \/ n = 2 \/ n = 4 \/ n = 8 ->
  read_bytes h0 p (Z.to_nat n) = Some l -> outside p n ->
  emits (pb_enc_svarint E f p) (varint (zigzag (to_signed (8 * n) (le_combine l)))).
Proof.
  unfold pb_enc_svarint. intros -> H.
  by_size H; (eapply emits_load; [exact Hl|exact Hp|]); apply emits_svarint;
    apply to_signed_s64; lia.
Qed.

Lemma emits_fixed32 p l :
  read_bytes h0 p 4 = Some l -> outside p 4 -> emits (pb_encode_fixed32 E p) (le_split 4 (le_combine l)).
Proof.
  intros Hl Hp. unfold pb_encode_fixed32. eapply emits_load; [exact Hl|exact Hp|].
  rewrite fixed32_bytes. apply (emits_write (Local _)); [apply le_split_bytes|apply holds_local].
Qed.

Lemma emits_fixed64 p l :
  read_bytes h0 p 8 = Some l -> outside p 8 -> emits (pb_encode_fixed64 E p) (le_split 8 (le_combine l)).
Proof.
  intros Hl Hp. unfold pb_encode_fixed64. eapply emits_load; [exact Hl|exact Hp|].
  rewrite fixed64_bytes. apply (emits_write (Local _)); [apply le_split_bytes|apply holds_local].
Qed.

(** ** Strings and submessages *)

Ltac within_storage :=
  eapply outside_sub; [eassumption|lia|unfold sizeof_pb_size_t; lia].

Lemma emits_enc_bytes f p l0 l :
  PB_ATYPE (type f) = PB_ATYPE_STATIC -> p <> 0 -> data_size f < 2 ^ 32 ->
  read_bytes h0 p 4 = Some l0 -> le_combine l0 + offsetof_bytes <= data_size f ->
  read_bytes h0 (p + offsetof_bytes) (Z.to_nat (le_combine l0)) = Some l ->
  outside p (data_size f) ->
  emits (pb_enc_bytes E f p) (delimited l).
Proof.
  unfold offsetof_bytes. intros Hst Hp Hds Hl0 Hn Hl Ho. unfold pb_enc_bytes, offsetof_bytes.
  pose proof (le_combine_range l0 (source_bytes _ _ _ Hl0)) as Hr.
  destruct (Z.eqb_spec p 0); [done|].
  eapply emits_load; [exact Hl0|within_storage|].
  rewrite Hst, u64_small by lia. simpl. destruct (Z.ltb_spec (data_size f - 4) (le_combine l0)); [lia|].
  pose proof (read_bytes_length _ _ _ _ Hl) as Hlen.
  replace (le_combine l0) with (Z.of_nat (length l)) by lia.
  apply emits_delimited; [by eapply source_bytes|].
  apply holds_mem; [|by rewrite Hlen]. within_storage.
Qed.

Lemma strnlen_loop_spec mx (st : pb_ostream_t) c l : forall fuel p sz,
  read_bytes (heap c) p (length l + 1) = Some (l ++ [0]) -> Forall (fun b => b <> 0) l ->
  sz + Z.of_nat (length l) < mx -> (length l < fuel)%nat ->
  strnlen_loop fuel p sz mx st c = Ret (sz + Z.of_nat (length l), st, c).
Proof.
  induction l as [|b l IH]; intros fuel p sz Hl Hnz Hsz Hf; destruct fuel as [|fuel]; simpl in *; try lia;
    destruct (Z.ltb_spec sz mx); try lia;
    (destruct (heap c !! p) as [x|] eqn:Hx; [|done]).
  - injection Hl as ->. erewrite bind_ret by by eapply load1_spec. simpl. by rewrite Z.add_0_r.
  - destruct (read_bytes _ (p + 1) _) as [r|] eqn:Hr; [|done]. injection Hl as -> ->.
    apply Forall_cons in Hnz as [Hb Hnz]. erewrite bind_ret by by eapply load1_spec.
    destruct (Z.eqb_spec b 0); [done|]. rewrite IH; [|done|done|lia|lia].
    by replace (sz + 1 + Z.of_nat (length l)) with (sz + Z.of_nat (S (length l))) by lia.
Qed.

Lemma emits_enc_string f p l r :
  PB_ATYPE (type f) = PB_ATYPE_STATIC -> p <> 0 -> 0 < data_size f ->
  read_bytes h0 p (Z.to_nat (data_size f)) = Some (l ++ 0 :: r) -> Forall (fun b => b <> 0) l ->
  outside p (data_size f) ->
  emits (pb_enc_string E f p) (delimited l).
Proof.
  intros Hst Hp Hds Hl Hnz Ho. unfold pb_enc_string. rewrite Hst. simpl.
  destruct (Z.eqb_spec p 0); [done|].
  pose proof (read_bytes_length _ _ _ _ Hl) as Hlen. rewrite length_app in Hlen. simpl in Hlen.
  replace (Z.to_nat (data_size f)) with (length (l ++ [0%Z]) + length r)%nat in Hl
    by (rewrite length_app; simpl; lia).
  replace (l ++ 0 :: r) with ((l ++ [0]) ++ r) in Hl by by rewrite <-app_assoc.
  apply read_bytes_app in Hl as [Hl _]. rewrite length_app in Hl. simpl in Hl.
  apply emits_read with (a := Z.of_nat (length l)).
  - intros s c Hs. unfold strnlen. rewrite <-(source_read c) in Hl;
      [|done|within_storage].
    rewrite (strnlen_loop_spec _ s c l); [done|done|done|lia|].
    pose proof (read_bytes_size _ _ _ _ Hl). lia.
  - apply (read_bytes_app h0 p l [0]) in Hl as [Hl _].
    apply emits_delimited; [by eapply source_bytes|]. apply holds_mem; [|done].
    within_storage.
Qed.

Lemma emits_enc_fixed_length f p l :
  0 < data_size f -> read_bytes h0 p (Z.to_nat (data_size f)) = Some l -> outside p (data_size f) ->
  emits (pb_enc_fixed_length_bytes E f p) (delimited l).
Proof.
  intros Hds Hl Ho. unfold pb_enc_fixed_length_bytes. pose proof (read_bytes_length _ _ _ _ Hl) as Hlen.
  replace (data_size f) with (Z.of_nat (length l)) by lia.
  apply emits_delimited; [by eapply source_bytes|].
  apply holds_mem; [within_storage|by rewrite Hlen].
Qed.

Lemma sizing_emits m l c :
  emits m l -> source c -> Z.of_nat (length l) < 2 ^ 64 ->
  m PB_OSTREAM_SIZING c = Ret (true, mk_ostream OC_NULL 0 0 (Z.of_nat (length l)) None, c).
Proof.
  intros Hm Hs Hl. destruct (Hm PB_OSTREAM_SIZING c Hs) as (c' & H & Hc'); [split; [done|]; left; split_and!; [done|simpl; lia..]|].
  unfold sent_mem in Hc'. simpl in Hc'. subst c'. by rewrite H.
Qed.

(** The count alone, when the stream only counts. *)
Lemma pb_write_counting l p s c :
  os_callback s = OC_NULL -> accepts s c (Z.of_nat (length l)) ->
  pb_write E (Mem p) (Z.of_nat (length l)) s c = Ret (true, sent s l, c).
Proof.
  intros Hcb [He [(_ & H1 & H2)|[(H & _) _]]]; [|by rewrite Hcb in H].
  unfold pb_write. erewrite bind_ret by done. unfold sent. rewrite (proj2 (counting_true s) Hcb).
  rewrite Hcb, bool_decide_eq_true_2, andb_false_r by done.
  erewrite bind_ret by done. unfold os_advance. rewrite u64_small by lia. by rewrite Hcb.
Qed.

(** A counted payload: sized first, then its bytes, unless the stream only counts. *)
Lemma emits_counted (m : pb_ostream_t -> M pb_ostream_t bool) l :
  (forall s c, source c -> accepts s c (Z.of_nat (length l)) -> counting s = false ->
   exists c', m s s c = Ret (true, sent s l, c') /\ sent_mem s c l c') ->
  emits (s ← get; if bool_decide (os_callback s = OC_NULL)
                  then pb_write E (Mem 0) (Z.of_nat (length l)) else m s) l.
Proof.
  intros Hm s c Hs Ha. erewrite bind_ret by done. case_bool_decide as Ec.
  - exists c. split; [by apply pb_write_counting|]. unfold sent_mem.
    by rewrite (proj2 (counting_true s) Ec).
  - apply Hm; [done..|]. by apply counting_false.
Qed.

Lemma emits_submessage (rec : Z -> Z -> M pb_ostream_t bool) a p w :
  emits (rec a p) w -> emits (pb_encode_submessage E rec a p) (delimited w).
Proof.
  intros Hrec. apply emits_bounded. unfold delimited. rewrite length_app. intros Hw.
  assert (Hlen : Z.of_nat (length w) < 2 ^ 64) by lia.
  unfold pb_encode_submessage.
  apply emits_read with (a := (true, mk_ostream OC_NULL 0 0 (Z.of_nat (length w)) None)).
  { intros s c Hs. apply run_with_ret. by apply sizing_emits. }
  simpl. apply emits_seq; [apply emits_varint; lia|].
  apply (emits_counted (fun s => _)). intros s c Hs Ha Ec.
  destruct (accepts_writing _ _ _ Ha Ec) as ((H1 & H2 & H3 & H4) & H5 & H6).
  rewrite u64_small by lia. case_bool; [lia|].
  set (sub := mk_ostream (os_callback s) (os_state s) (Z.of_nat (length w)) 0 None).
  destruct (Hrec sub c Hs) as (c' & Hr & Hc').
  { split; [done|]. right. split_and!; [|simpl; lia|simpl; lia]. repeat split; simpl; try done; lia. }
  assert (Esub : counting sub = false) by done.
  exists c'. split; [|unfold sent_mem in *; rewrite Ec; rewrite Esub in Hc'; exact Hc'].
  erewrite bind_ret by (by apply run_with_ret, Hr). cbn.
  erewrite bind_ret by done. rewrite Z.eqb_refl. simpl. unfold sent. rewrite Ec.
  unfold mret, M_ret. rewrite u64_small by lia. by rewrite (proj1 Ha), Esub.
Qed.

(** ** Fields *)

Section Field.
Context (fuel : nat) (rec : Z -> Z -> M pb_ostream_t bool) (sub : Z -> Z -> option message).

(** Where the messages nested in this one are, and that they are encoded. *)
Definition submessages (f : pb_field_t) (p n : Z) : Prop :=
  PB_LTYPE (type f) = PB_LTYPE_SUBMESSAGE ->
  ptr f <> 0
  /\ forall q m, p <= q -> q + data_size f <= p + n -> sub (ptr f) q = Some m ->
       emits (rec (ptr f) q) (message_wire E (fields_of E (ptr f)) m).

#[local] Arguments read_bytes : simpl never.

Lemma emits_value f p v func :
  size_ok f = true -> PB_ATYPE (type f) = PB_ATYPE_STATIC -> 0 < p -> outside p (data_size f) ->
  submessages f p (data_size f) ->
  value_at h0 sub f p = Some v ->
  PB_ENCODERS E rec !! Z.to_nat (PB_LTYPE (type f)) = Some func ->
  emits (call_encoder func f p) (payload E f v).
Proof.
  intros Hs Hst Hp Ho Hsub. pose proof (data_size_pos f Hs) as Hds. unfold value_at.
  destruct (ltype_cases f Hs) as
    [[Ht Hn]|[[Ht Hn]|[[Ht Hn]|[[Ht Hn]|[[Ht Hn]|[[Ht Hn]|[[Ht Hn]|[[Ht Hn]|[[Ht Hn]|[Ht Hn]]]]]]]]]];
    unfold is_packable, has_ltype; rewrite Ht; simpl; intros Hv [= <-]; simpl;
    match type of Hv with
    | _ <$> ?o = _ => destruct o as [l|] eqn:El; [|done]; injection Hv as <-
    | _ => idtac
    end.
  all: rewrite ?payload_Msg; cbn [payload]; unfold num_wire, num_of, has_ltype; rewrite ?Ht; simpl.
  - rewrite Hn in *. replace (u64 _) with (if le_combine l =? 0 then 0 else 1) by by case_bool.
    by apply emits_enc_bool.
  - by apply (emits_enc_varint f p l (data_size f)).
  - by apply (emits_enc_uvarint f p l (data_size f)).
  - by apply (emits_enc_svarint f p l (data_size f)).
  - rewrite Hn in *. by apply emits_fixed32.
  - rewrite Hn in *. by apply emits_fixed64.
  - destruct (read_bytes h0 p _) as [l0|] eqn:E0; [|done]. simpl in Hv. case_bool; [|done].
    destruct (read_bytes h0 (p + _) _) as [l|] eqn:El; [|done]. injection Hv as <-.
    eapply emits_enc_bytes; try done; lia.
  - destruct (read_bytes h0 p _) as [l|] eqn:El; [|done]. simpl in Hv.
    destruct (until_zero l) as [t|] eqn:Eu; [|done]. injection Hv as <-.
    apply until_zero_spec in Eu as (r & -> & Hnz). eapply emits_enc_string; try done; lia.
  - destruct (Hsub Ht) as [Hptr Hrec]. unfold pb_enc_submessage.
    destruct (Z.eqb_spec (ptr f) 0); [done|]. apply emits_submessage. apply Hrec; [lia|lia|done].
  - apply emits_enc_fixed_length; [lia|done|done].
Qed.

Lemma encoder_exists f :
  size_ok f = true ->
  (exists func, PB_ENCODERS E rec !! Z.to_nat (PB_LTYPE (type f)) = Some func)
  /\ wiretype_of_ltype (PB_LTYPE (type f)) = Some (wire_type f).
Proof.
  unfold wire_type. intros Hs%ltype_cases. cbv zeta in Hs.
  destruct Hs as [[-> _]|[[-> _]|[[-> _]|[[-> _]|[[-> _]|[[-> _]|[[-> _]|[[-> _]|[[-> _]|[-> _]]]]]]]]]];
    split; try done; eexists; reflexivity.
Qed.

Lemma emits_tag_for_field f :
  size_ok f = true -> 0 < tag f < 2 ^ 29 -> emits (pb_encode_tag_for_field E f) (key (wire_type f) f).
Proof.
  intros Hs Ht. unfold pb_encode_tag_for_field. destruct (encoder_exists f Hs) as [_ ->].
  by apply emits_tag.
Qed.

Lemma submessages_sub f p n q m :
  submessages f p n -> p <= q -> q + m <= p + n -> submessages f q m.
Proof.
  intros H ?? Ht. destruct (H Ht) as [Hp Hr]. split; [done|].
  intros r m' ??. apply Hr; lia.
Qed.

(** An array: [vs] are its values. *)
Lemma emits_elements f p vs func :
  size_ok f = true -> PB_ATYPE (type f) = PB_ATYPE_STATIC -> 0 < p ->
  outside p (data_size f * Z.of_nat (length vs)) ->
  submessages f p (data_size f * Z.of_nat (length vs)) ->
  mapM (element_at h0 sub f p) (seq 0 (length vs)) = Some vs ->
  PB_ENCODERS E rec !! Z.to_nat (PB_LTYPE (type f)) = Some func ->
  forall k l, map (payload E f) vs !! k = Some l ->
    emits (call_encoder func f (p + data_size f * Z.of_nat k)) l.
Proof.
  intros Hs Hst Hp Ho Hsub Hm%mapM_Some Hfunc k l Hk.
  pose proof (data_size_pos f Hs) as Hds.
  rewrite list_lookup_fmap in Hk. destruct (vs !! k) as [v|] eqn:Hv; [|done]. injection Hk as <-.
  pose proof (lookup_lt_Some _ _ _ Hv) as Hlt.
  destruct (Forall2_lookup_r _ _ _ _ _ Hm Hv) as (j & Hj & Hel). apply lookup_seq in Hj as [-> _].
  apply emits_value; try done; [nia| |].
  - eapply outside_sub; [exact Ho|nia|nia].
  - eapply submessages_sub; [exact Hsub|nia|nia].
Qed.

Lemma concat_length_const (ls : list (list Z)) n :
  (forall l, l ∈ ls -> length l = n) -> length (concat ls) = (n * length ls)%nat.
Proof.
  induction ls as [|l ls IH]; intros H; simpl; [lia|]. rewrite length_app, (H l), IH; [lia| |left].
  intros l' Hl'. apply H. by right.
Qed.

Lemma packable_payloads sub' p f vs :
  is_packable f = true -> mapM (element_at h0 sub' f p) (seq 0 (length vs)) = Some vs ->
  Forall (fun v => exists z, v = Num z) vs.
Proof.
  intros Hp Hm%mapM_Some. apply Forall_lookup. intros i v Hv.
  destruct (Forall2_lookup_r _ _ _ _ _ Hm Hv) as (j & _ & Hj).
  unfold element_at, value_at in Hj. rewrite Hp in Hj.
  destruct (read_bytes _ _ _); [|done]. injection Hj as <-. eauto.
Qed.

Lemma fixed_payloads f vs n :
  Forall (fun v => exists z, v = Num z) vs -> (forall z, length (num_wire f z) = n) ->
  length (concat (map (payload E f) vs)) = (n * length vs)%nat.
Proof.
  intros Hvs Hn. rewrite (concat_length_const _ n), length_map; [done|].
  intros l (v & -> & Hv)%list_elem_of_fmap. rewrite Forall_forall in Hvs.
  destruct (Hvs v Hv) as [z ->]. apply Hn.
Qed.

(** The size the encoder computes for a packed array. *)
Lemma array_size_spec f p vs func s c :
  is_packable f = true -> Z.of_nat (length vs) < 2 ^ 32 ->
  mapM (element_at h0 sub f p) (seq 0 (length vs)) = Some vs ->
  emits (array_loop (Z.to_nat (Z.of_nat (length vs))) (call_encoder func f) p (data_size f))
    (concat (map (payload E f) vs)) ->
  Z.of_nat (length (concat (map (payload E f) vs))) < 2 ^ 64 -> source c ->
  (if PB_LTYPE (type f) =? PB_LTYPE_FIXED32 then mret (Some (u64 (4 * Z.of_nat (length vs))))
   else if PB_LTYPE (type f) =? PB_LTYPE_FIXED64 then mret (Some (u64 (8 * Z.of_nat (length vs))))
   else r ← run_with PB_OSTREAM_SIZING
              (array_loop (Z.to_nat (Z.of_nat (length vs))) (call_encoder func f) p (data_size f));
        mret (if r.1 : bool then Some (os_bytes_written r.2) else None)) s c
  = Ret (Some (Z.of_nat (length (concat (map (payload E f) vs)))), s, c)
    :> outcome (option Z * pb_ostream_t * cstate).
Proof.
  intros Hp Hlen Hm Hloop Hb Hs. pose proof (packable_payloads _ _ _ _ Hp Hm) as Hvs.
  assert (Hsize : forall n, (forall z, length (num_wire f z) = n) ->
            Z.of_nat n * Z.of_nat (length vs)
            = Z.of_nat (length (concat (map (payload E f) vs)))).
  { intros n Hn. rewrite (fixed_payloads f vs n Hvs Hn). lia. }
  unfold num_wire, has_ltype in Hsize.
  destruct (PB_LTYPE (type f) =? PB_LTYPE_FIXED32); [|destruct (PB_LTYPE (type f) =? PB_LTYPE_FIXED64)].
  - rewrite <-(Hsize 4%nat) by done. by rewrite u64_small by lia.
  - rewrite <-(Hsize 8%nat) by done. by rewrite u64_small by lia.
  - erewrite bind_ret by (apply run_with_ret; by apply sizing_emits). done.
Qed.

Lemma emits_array f p vs func :
  size_ok f = true -> PB_ATYPE (type f) = PB_ATYPE_STATIC -> 0 < tag f < 2 ^ 29 -> 0 < p ->
  is_repeated f = true -> Z.of_nat (length vs) <= array_size f < 2 ^ 32 ->
  outside p (data_size f * Z.of_nat (length vs)) ->
  submessages f p (data_size f * Z.of_nat (length vs)) ->
  mapM (element_at h0 sub f p) (seq 0 (length vs)) = Some vs ->
  PB_ENCODERS E rec !! Z.to_nat (PB_LTYPE (type f)) = Some func ->
  emits (encode_array E f p (Z.of_nat (length vs)) func) (field_wire f (map (payload E f) vs)).
Proof.
  intros Hs Hst Ht Hp Hrep Hlen Ho Hsub Hm Hfunc. unfold encode_array, field_wire.
  pose proof (emits_elements f p vs func Hs Hst Hp Ho Hsub Hm Hfunc) as Hel.
  rewrite Hrep, Hst. simpl andb. cbn [negb]. destruct vs as [|v vs]; [simpl; case_match; apply emits_nil|].
  destruct (Z.eqb_spec (Z.of_nat (length (v :: vs))) 0) as [Hz|_]; [by simpl in Hz; lia|].
  change (PB_ATYPE_STATIC =? PB_ATYPE_POINTER) with false. cbn [negb andb].
  destruct (Z.ltb_spec (array_size f) (Z.of_nat (length (v :: vs)))); [lia|].
  fold (is_packable f). destruct (is_packable f) eqn:Epk.
  - apply emits_seq; [by apply emits_tag|]. cbn [map].
    set (ls := payload E f v :: map (payload E f) vs).
    assert (Hloop : emits (array_loop (Z.to_nat (Z.of_nat (length (v :: vs)))) (call_encoder func f) p
              (data_size f)) (concat ls)).
    { rewrite Nat2Z.id. apply emits_array_loop; [|exact Hel]. by rewrite <-(length_map (payload E f)). }
    apply emits_bounded. unfold delimited. rewrite length_app. intros Hb.
    eapply emits_read with (a := Some (Z.of_nat (length (concat ls)))).
    { intros s c Hsrc. apply (array_size_spec f p (v :: vs)); [done|lia|done|done| |done].
      subst ls. simpl map in *. lia. }
    apply emits_seq; [apply emits_varint; lia|].
    apply (emits_counted (fun s => _)). intros s c Hsrc Ha Ec. by apply Hloop.
  - rewrite Nat2Z.id. apply emits_array_loop; [by rewrite !length_map|].
    intros k l Hk. rewrite list_lookup_fmap in Hk.
    destruct (map (payload E f) (v :: vs) !! k) as [w|] eqn:Hw; [|done]. injection Hk as <-.
    apply emits_seq; [by apply emits_tag_for_field|]. by apply Hel.
Qed.

Lemma emits_tagged f p v func :
  size_ok f = true -> PB_ATYPE (type f) = PB_ATYPE_STATIC -> 0 < tag f < 2 ^ 29 -> 0 < p ->
  outside p (data_size f) -> submessages f p (data_size f) -> is_repeated f = false ->
  value_at h0 sub f p = Some v ->
  PB_ENCODERS E rec !! Z.to_nat (PB_LTYPE (type f)) = Some func ->
  emits (check! pb_encode_tag_for_field E f; call_encoder func f p) (field_wire f [payload E f v]).
Proof.
  intros. rewrite (field_wire_one E) by done.
  apply emits_seq; [by apply emits_tag_for_field|by apply emits_value].
Qed.

Lemma emits_field f p vs :
  PB_ATYPE (type f) = PB_ATYPE_STATIC -> 0 < tag f < 2 ^ 29 -> size_ok f = true ->
  presence_ok f = true -> 0 < p -> outside p (width f) ->
  outside (p + size_offset f) (flag_width f) -> submessages f p (width f) ->
  values_at h0 sub f p = Some vs ->
  emits (encode_field E fuel rec f p) (field_wire f (map (payload E f) vs)).
Proof.
  intros Hst Ht Hs Hpr Hp Ho Hf Hsub Hvs. unfold encode_field. rewrite Hst. cbn [Z.eqb orb].
  change (PB_ATYPE_STATIC =? PB_ATYPE_STATIC) with true. cbn [orb].
  unfold encode_basic_field. destruct (encoder_exists f Hs) as [[func Hfunc] _].
  apply (emits_of_option _ _ func); [done|]. rewrite Hst.
  change (PB_ATYPE_STATIC =? PB_ATYPE_POINTER) with false. cbv iota.
  unfold values_at, width, flag_width in *.
  destruct (presence_cases f Hpr) as [(Hr & Hno & Hnr)|[(Hr & Hno & Hnr & Hso)|(Hr & Hno & Hnr & Hso & Ha & _)]];
    rewrite Hr, Hno, Hnr in *; unfold is_required, is_optional, is_repeated in Hr, Hno, Hnr.
  - destruct (value_at _ _ _ _) as [v|] eqn:Ev; [|done]. injection Hvs as <-.
    rewrite Hno. apply emits_read with (a := true); [by intros; case_match|].
    apply emits_read with (a := (p, true)); [done|]. simpl. rewrite Hr.
    destruct (Z.eqb_spec p 0); [lia|]. by apply emits_tagged.
  - apply Z.eqb_neq in Hso. rewrite Hso. cbn [negb].
    apply emits_read with (a := true); [done|]. apply emits_read with (a := (p, true)); [done|].
    simpl. rewrite Hr, Hno. destruct (h0 !! (p + size_offset f)) as [b|] eqn:Hb; [|done].
    apply emits_read with (a := negb (b =? 0)).
    { intros s c Hsrc. unfold safe_read_bool. erewrite bind_ret; [done|].
      apply load1_spec with (h := heap c); [done|]. rewrite Hsrc; [done|]. apply Hf. lia. }
    simpl in Hvs. destruct (b =? 0); simpl.
    + injection Hvs as <-. unfold field_wire, is_repeated. rewrite Hnr. apply emits_nil.
    + destruct (value_at _ _ _ _) as [v|] eqn:Ev; [|done]. injection Hvs as <-. by apply emits_tagged.
  - apply Z.eqb_neq in Hso. rewrite Hso. cbn [negb].
    apply emits_read with (a := true); [done|]. apply emits_read with (a := (p, true)); [done|].
    simpl. rewrite Hr, Hno, Hnr.
    destruct (read_bytes h0 (p + size_offset f) _) as [l|] eqn:El; [|done]. simpl in Hvs.
    case_bool; [|done]. pose proof (le_combine_range l (source_bytes _ _ _ El)) as Hle.
    eapply emits_load; [exact El|eapply outside_sub; [exact Hf|lia|unfold sizeof_pb_size_t; lia]|].
    pose proof Hvs as Hm%mapM_Some. apply Forall2_length in Hm. rewrite length_seq in Hm.
    replace (le_combine l) with (Z.of_nat (length vs)) by lia. rewrite Hm in Hvs.
    pose proof (data_size_pos f Hs).
    apply emits_array; try done; [lia|eapply outside_sub; [exact Ho|lia|nia]|].
    eapply submessages_sub; [exact Hsub|lia|nia].
Qed.
End Field.

(** ** Messages *)

Lemma message_wire_zip fs m :
  message_wire E fs m = concat (zip_with (fun f vs => field_wire f (map (payload E f) vs)) fs m).
Proof.
  revert m. induction fs as [|f fs IH]; intros [|vs m]; simpl; [done..|]. by rewrite IH.
Qed.

Section Message.
Context (a : Z) (fs : list pb_field_t).
Hypothesis Ha : env_fields E !! a = Some fs.
Hypothesis Hterm : terminated fs = true.
Hypothesis Hne : entries fs <> 0%nat.

Lemma emits_do_while body d ls : forall n i,
  (i + length ls = entries fs)%nat -> (0 < length ls <= n)%nat ->
  (forall j l, ls !! j = Some l -> emits (body (iter_at fs a d (i + j))) l) ->
  emits (iter_do_while E n body (iter_at fs a d i)) (concat ls).
Proof.
  induction ls as [|l ls IH]; intros n i Hi Hn Hb; [simpl in Hn; lia|].
  destruct n as [|n]; [simpl in Hn; lia|]. cbn [iter_do_while concat].
  apply emits_seq; [rewrite <-(Nat.add_0_r i); by apply (Hb 0%nat)|].
  simpl in Hi, Hn. erewrite (next_at E a fs Ha Hterm Hne d i) by lia.
  eapply emits_of_option; [done|]. simpl. unfold succ_pos. case_bool_decide as Hs.
  - rewrite decide_True by done. apply IH; [lia|destruct ls; simpl in *; lia|].
    intros j w Hj. replace (S i + j)%nat with (i + S j)%nat by lia. by apply (Hb (S j)).
  - destruct ls; [apply emits_nil|simpl in Hi; lia].
Qed.
End Message.

Lemma pb_encode_emits n : forall fuel a size d m,
  (n <= fuel)%nat -> plain E n a size = true -> 0 < d -> outside d size ->
  message_at E n h0 a d = Some m ->
  emits (pb_encode E fuel a d) (message_wire E (fields_of E a) m).
Proof.
  induction n as [|n IH]; intros fuel a size d m Hfuel Hp Hd Ho; [done|].
  destruct fuel as [|fuel]; [lia|].
  destruct (plain_inv _ _ _ _ Hp) as (k & [= <-] & He & Hterm & Hne & _ & _ & Hf & Hl).
  cbn [message_at pb_encode]. intros Hm%mapM_Some.
  pose proof (Forall2_length _ _ _ Hm) as Hlen. rewrite length_seq in Hlen.
  eapply emits_of_option; [by apply (begin_at E a (fields_of E a))|]. cbn [negb fst snd].
  rewrite message_wire_zip.
  pose proof (entries_length E a _ He Hterm Hne) as Hel.
  apply (emits_do_while a (fields_of E a) He Hterm Hne);
    [rewrite length_zip_with; lia| |].
  { rewrite length_zip_with, (iter_fuel_entries E a (fields_of E a)) by done. lia. }
  intros i w Hw. apply lookup_zip_with_Some in Hw as (f & vs & -> & Hfi & Hvi).
  destruct (Forall2_lookup_r _ _ _ _ _ Hm Hvi) as (j & Hj & Hk). apply lookup_seq in Hj as [-> Hj].
  simpl in Hk |- *. assert (Hgi : nth_field (fields_of E a) i = f) by by apply nth_lookup_Some.
  assert (Hown : forall x, owns (fields_of E a) d i x -> ~ (lo <= x < hi)).
  { intros x Hx. apply Ho. eapply owns_inside; [done| |done]. lia. }
  rewrite Hgi in Hk. specialize (Hf i ltac:(lia)). rewrite Hgi in Hf.
  destruct (plain_field_inv _ _ Hf) as (Hst & Ht & Hs & Hpr & Hsub & _).
  pose proof (data_ptr_low _ _ Hl d i ltac:(lia)) as Hdp.
  unfold encode_one. apply (emits_of_option _ _ f).
  { rewrite (plain_it_field E (S n) a size) by (done || lia). by rewrite Hgi. }
  rewrite data_at by done. rewrite (not_extension f Hs). eapply emits_field; [done..|lia| | | |exact Hk].
  - intros x Hx'. apply Hown. left. unfold in_data. by rewrite Hgi.
  - intros x Hx'. apply Hown. right. unfold in_flag. by rewrite Hgi.
  - intros Hlt. destruct (Hsub Hlt) as [Hptr Hps]. split; [done|]. intros q m' Hq1 Hq2 Hm'.
    eapply (IH fuel _ (data_size f)); [lia|done|lia| |done].
    intros x Hx'. apply Hown. left. unfold in_data. rewrite Hgi. lia.
Qed.
End Emits.
