(* ===== verification/PbMessageDecode.v ===== *)
(** * nanopb: the decoder reads the wire format

    [pb_decode] on the encoding of a typed message of a plain descriptor succeeds, uses all
    of it, and leaves in the destination a structure that holds the message. The judgement
    [takes] says what a function of the decoder takes from its stream, which part of the
    memory it may change, and what it leaves there. *)
From S2P Require Export PbMessage.

Definition range (p n : Z) : Z -> Prop := fun x => p <= x < p + n.

Lemma mapped_read h p n : mapped h p (Z.of_nat n) -> exists l, read_bytes h p n = Some l.
Proof.
  revert p. induction n as [|n IH]; intros p Hm; [by exists []|].
  destruct (Hm p ltac:(lia)) as [b Hb]. destruct (IH (p + 1)) as [l Hl].
  { intros x Hx. apply Hm. lia. }
  exists (b :: l). simpl. by rewrite Hb, Hl.
Qed.

Lemma mapped_sub h p n q m : mapped h p n -> p <= q -> q + m <= p + n -> mapped h q m.
Proof. intros H ?? x Hx. apply H. lia. Qed.

Section Takes.
Context (E : pb_env).
(** The bytes of the input, and where they are. *)
Context (h0 : gmap Z Z) (lo hi : Z).

(** The memory still holds the input, below the storage to be allocated. *)
Definition ready (c : cstate) : Prop :=
  hi <= brk c /\ forall x, lo <= x < hi -> heap c !! x = h0 !! x.

Definition input (s : pb_istream_t) (w : list Z) : Prop :=
  is_callback s = IC_buf_read /\ Z.of_nat (length w) <= is_bytes_left s < 2 ^ 64
  /\ mem_at h0 (is_state s) w /\ lo <= is_state s /\ is_state s + Z.of_nat (length w) <= hi.

(** From [c] to [c'], the memory below the storage to be allocated stays mapped, and changes
    in [R] only. *)
Record kept (R : Z -> Prop) (c c' : cstate) : Prop := {
  kept_brk : brk c <= brk c';
  kept_same : forall x, x < brk c -> ~ R x -> heap c' !! x = heap c !! x;
  kept_mapped : forall x, x < brk c -> is_Some (heap c !! x) -> is_Some (heap c' !! x);
}.

Definition takes (m : M pb_istream_t bool) (w : list Z) (R : Z -> Prop) (c : cstate)
    (Q : cstate -> Prop) : Prop :=
  forall s, input s w ->
  exists c', m s c = Ret (true, is_took s (Z.of_nat (length w)), c') /\ kept R c c' /\ Q c'.

Lemma input_ready s w c : input s w -> ready c -> is_ready s c w.
Proof.
  intros (H1 & H2 & H3 & H4 & H5) [_ Hc]. split_and!; [done|lia|lia|].
  eapply mem_at_agree; [|exact H3]. intros x Hx. symmetry. apply Hc. lia.
Qed.

Lemma input_app s w1 w2 :
  input s (w1 ++ w2) -> input s w1 /\ input (is_took s (Z.of_nat (length w1))) w2.
Proof.
  unfold input. rewrite length_app. intros (H1 & H2 & [H3 H3']%mem_at_app & H4 & H5).
  split; split_and!; simpl; try done; lia.
Qed.

Lemma kept_refl R c : kept R c c.
Proof. by split. Qed.

Lemma kept_trans R c1 c2 c3 : kept R c1 c2 -> kept R c2 c3 -> kept R c1 c3.
Proof.
  intros [H1 H2 H3] [H4 H5 H6]. split; [lia| |].
  - intros x Hx Hr. rewrite H5 by (done || lia). by apply H2.
  - intros x Hx Hs. apply H6; [lia|]. by apply H3.
Qed.

Lemma kept_weaken R R' c c' : (forall x, R x -> R' x) -> kept R c c' -> kept R' c c'.
Proof. intros H [H1 H2 H3]. split; [done| |done]. intros x Hx Hr. apply H2; auto. Qed.

(** The region [R] is no part of the input. *)
Definition clear (R : Z -> Prop) : Prop := forall x, R x -> ~ (lo <= x < hi).

Lemma ready_kept R c c' : clear R -> ready c -> kept R c c' -> ready c'.
Proof.
  intros Hr [H1 H2] [H3 H4 _]. split; [lia|]. intros x Hx. rewrite H4; [by apply H2|lia|].
  intros Hx'. by apply (Hr x).
Qed.

Lemma mapped_kept R c c' p n : kept R c c' -> p + n <= brk c -> mapped (heap c) p n -> mapped (heap c') p n.
Proof. intros Hk Hb Hm x Hx. eapply kept_mapped; [exact Hk|lia|by apply Hm]. Qed.

(** Storage at [p] that may be written: mapped, and no part of the input. *)
Definition storage (c : cstate) (p n : Z) : Prop :=
  mapped (heap c) p n /\ p + n <= brk c /\ clear (range p n).

Lemma storage_sub c p n q m : storage c p n -> p <= q -> q + m <= p + n -> storage c q m.
Proof.
  intros (H1 & H2 & H3) ??. split_and!; [by eapply mapped_sub|lia|].
  intros x Hx. apply H3. unfold range in *. lia.
Qed.

Lemma storage_kept R c c' p n : kept R c c' -> storage c p n -> storage c' p n.
Proof.
  intros Hk (H1 & H2 & H3). split_and!; [by eapply mapped_kept| |done].
  pose proof (kept_brk _ _ _ Hk). lia.
Qed.

Lemma write_storage {St} c p l (s : St) :
  storage c p (Z.of_nat (length l)) ->
  exists c', write_mem p l s c = Ret (tt, s, c') /\ kept (range p (Z.of_nat (length l))) c c'
    /\ read_bytes (heap c') p (length l) = Some l.
Proof.
  intros (Hm & _). destruct (write_bytes_mapped (heap c) p l Hm) as [h Hh].
  exists (set_heap c h). unfold write_mem. rewrite Hh. split_and!; [done| |by eapply read_write_bytes].
  split; simpl; [lia| |].
  - intros x _ Hx. eapply write_bytes_outside; [exact Hh|done].
  - intros x _ Hx. by apply (write_bytes_dom _ _ _ _ x Hh).
Qed.

Lemma store_storage {St} c p n v (s : St) :
  storage c p (Z.of_nat n) ->
  exists c', store n p v s c = Ret (tt, s, c') /\ kept (range p (Z.of_nat n)) c c'
    /\ read_bytes (heap c') p n = Some (le_split n v).
Proof.
  intros Hs. pose proof (write_storage c p (le_split n v) s) as H.
  rewrite length_le_split in H. by apply H.
Qed.

Lemma kept_read R c c' p n :
  kept R c c' -> p + Z.of_nat n <= brk c -> (forall x, R x -> range p (Z.of_nat n) x -> False) ->
  read_bytes (heap c') p n = read_bytes (heap c) p n.
Proof.
  intros [_ H _] Hb Hr. apply read_bytes_agree. intros x Hx. apply H; [lia|].
  intros Hx'. by eapply Hr.
Qed.

(** *** Composition *)

Lemma takes_ret R c (Q : cstate -> Prop) : Q c -> takes (mret true) [] R c Q.
Proof.
  intros HQ s _. exists c. split_and!; [|apply kept_refl|done].
  unfold mret, M_ret, is_took. destruct s. simpl. by rewrite Z.add_0_r, Z.sub_0_r.
Qed.

(** A first step that reads a value. *)
Lemma takes_bind {A} (m : M pb_istream_t A) (k : A -> M pb_istream_t bool) a w1 w2 R c Q :
  (forall s, input s w1 -> m s c = Ret (a, is_took s (Z.of_nat (length w1)), c)) ->
  takes (k a) w2 R c Q -> takes (m ≫= k) (w1 ++ w2) R c Q.
Proof.
  intros Hm Hk s Hs. apply input_app in Hs as [H1 H2].
  destruct (Hk _ H2) as (c' & Hc' & HR & HQ). exists c'. split_and!; [|done|done].
  erewrite bind_ret by by apply Hm. rewrite Hc', is_took_took, length_app.
  by rewrite Nat2Z.inj_add.
Qed.

(** A first step that takes nothing and changes the memory. *)
Lemma takes_step {A} (m : M pb_istream_t A) (k : A -> M pb_istream_t bool) a w R R1 c c1 Q :
  (forall s, m s c = Ret (a, s, c1)) -> kept R1 c c1 -> (forall x, R1 x -> R x) ->
  takes (k a) w R c1 Q -> takes (m ≫= k) w R c Q.
Proof.
  intros Hm H1 HR Hk s Hs. destruct (Hk _ Hs) as (c' & Hc' & H2 & HQ).
  exists c'. split_and!; [|exact (kept_trans _ _ _ _ (kept_weaken _ _ _ _ HR H1) H2)|done].
  by erewrite bind_ret by by apply Hm.
Qed.

Lemma takes_mono m w (R R' : Z -> Prop) c (Q Q' : cstate -> Prop) :
  (forall x, R x -> R' x) -> (forall c', kept R c c' -> Q c' -> Q' c') ->
  takes m w R c Q -> takes m w R' c Q'.
Proof.
  intros HR HQ Hm s Hs. destruct (Hm s Hs) as (c' & H1 & H2 & H3). exists c'.
  split_and!; [done|exact (kept_weaken _ _ _ _ HR H2)|by apply HQ].
Qed.

(** *** Integers *)

Lemma take_varint32 v s c :
  0 <= v < 2 ^ 32 -> ready c -> input s (varint v) ->
  pb_decode_varint32 E s c = Ret (Some v, is_took s (Z.of_nat (length (varint v))), c).
Proof.
  intros Hv Hc Hs. apply (pb_decode_varint32_value E v [] s c Hv).
  rewrite app_nil_r. by apply input_ready.
Qed.

Lemma take_varint v s c :
  0 <= v < 2 ^ 64 -> ready c -> input s (varint v) ->
  pb_decode_varint E s c = Ret (Some v, is_took s (Z.of_nat (length (varint v))), c).
Proof.
  intros Hv Hc Hs. rewrite (pb_decode_varint_spec E (varint v) []).
  - by rewrite varint_val_varint, Z.mod_small by done.
  - by apply varint_is_varint.
  - apply varint_length.
  - rewrite app_nil_r. by apply input_ready.
Qed.

(** An integer stored at [p], of the size of the field. *)
Lemma stored_num f p h sub z :
  is_packable f = true -> size_ok f = true -> num_ok f z = true ->
  read_bytes h p (Z.to_nat (data_size f)) = Some (le_split (Z.to_nat (data_size f)) z) ->
  value_at h sub f p = Some (Num z).
Proof.
  intros Hp Hs Hz Hr. unfold value_at. rewrite Hp, Hr. simpl. do 2 f_equal.
  pose proof (data_size_pos f Hs) as Hn. unfold num_of, num_ok in *. rewrite le_combine_split.
  replace (8 * Z.of_nat (Z.to_nat (data_size f))) with (8 * data_size f) by lia.
  destruct (has_ltype f PB_LTYPE_BOOL).
  - simpl in Hz. rewrite !orb_true_iff, !Z.eqb_eq in Hz. assert (Hz' : z = 0 \/ z = 1) by naive_solver.
    assert (2 ^ 1 <= 2 ^ (8 * data_size f)) by (apply Z.pow_le_mono_r; lia).
    rewrite Z.mod_small by lia. case_bool; lia.
  - destruct (_ || _); rewrite andb_true_iff, ?Z.leb_le, ?Z.ltb_lt in Hz.
    + unfold to_signed. rewrite Zmod_mod. fold (to_signed (8 * data_size f) z).
      apply to_signed_small; lia.
    + apply Z.mod_small. lia.
Qed.

Lemma takes_store k p v c n :
  n = Z.of_nat k -> storage c p n ->
  takes (_ ← store k p v; mret true) [] (range p n) c
    (fun c' => read_bytes (heap c') p k = Some (le_split k v)).
Proof.
  intros -> Hp s _. destruct (store_storage c p k v s Hp) as (c' & H1 & H2 & H3).
  exists c'. split_and!; [|done|done]. erewrite bind_ret by exact H1.
  unfold mret, M_ret, is_took. destruct s. simpl. by rewrite Z.add_0_r, Z.sub_0_r.
Qed.

Lemma takes_clamped clamp n p v c :
  n = 1 \/ n = 2 \/ n = 4 \/ n = 8 -> clamp (8 * n) v = v -> storage c p n ->
  takes (clamped ← store_clamped clamp n p v; check_clamped clamped v) [] (range p n) c
    (fun c' => read_bytes (heap c') p (Z.to_nat n) = Some (le_split (Z.to_nat n) v)).
Proof.
  intros Hn Hcl Hp s Hs.
  destruct (takes_store (Z.to_nat n) p v c n ltac:(lia) Hp s Hs) as (c' & H1 & H2 & H3).
  exists c'. split_and!; [|done|done]. rewrite <-H1.
  unfold store_clamped, check_clamped, mbind, M_bind.
  destruct Hn as [-> | [-> | [-> | ->]]]; cbn [Z.eqb Pos.eqb];
    match goal with |- context [store ?k p v s c] => change (store (Z.to_nat _) p v s c) with (store k p v s c) end;
    (destruct (store _ p v s c) as [[[u s1] c1]| |]; [|done|done]);
    (lazymatch type of Hcl with clamp ?e _ = _ => let w := eval vm_compute in e in change e with w in Hcl end);
    simpl; rewrite Hcl; unfold mret, M_ret; by rewrite Z.eqb_refl.
Qed.

Lemma takes_dec_bool f p z c :
  one_of z [0; 1] = true -> storage c p 1 -> ready c ->
  takes (pb_dec_bool E f p) (varint z) (range p 1) c
    (fun c' => read_bytes (heap c') p 1 = Some (le_split 1 z)).
Proof.
  intros Hz Hp Hc. cbn [one_of existsb] in Hz. rewrite !orb_true_iff, !Z.eqb_eq in Hz.
  assert (z = 0 \/ z = 1) by naive_solver.
  unfold pb_dec_bool. rewrite <-(app_nil_r (varint z)).
  eapply takes_bind; [intros s Hs; by apply take_varint32; [lia|..]|].
  cbv beta iota. replace (if negb (z =? 0) then 1 else 0) with z by (case_bool; simpl; lia).
  by apply (takes_store 1 p z c 1).
Qed.

Lemma takes_dec_varint f p z c :
  let n := data_size f in
  n = 1 \/ n = 2 \/ n = 4 \/ n = 8 -> - 2 ^ (8 * n - 1) <= z < 2 ^ (8 * n - 1) ->
  storage c p n -> ready c ->
  takes (pb_dec_varint E f p) (varint (u64 z)) (range p n) c
    (fun c' => read_bytes (heap c') p (Z.to_nat n) = Some (le_split (Z.to_nat n) z)).
Proof.
  intros n Hn Hz Hp Hc. unfold pb_dec_varint. rewrite <-(app_nil_r (varint _)).
  eapply takes_bind; [intros s Hs; apply take_varint; [apply u64_range|done|exact Hs]|].
  cbv beta iota zeta. replace (if data_size f =? 8 then s64 (u64 z) else s32 (u64 z)) with z.
  - apply (takes_clamped to_signed n); [done| |done]. apply to_signed_small; lia.
  - fold n. unfold s64, s32, to_signed, u64. rewrite Zmod_mod.
    destruct (Z.eqb_spec n 8) as [E8|E8].
    + rewrite E8 in Hz. symmetry. apply (to_signed_small 64); [lia|exact Hz].
    + replace (z mod 2 ^ 64 mod 2 ^ 32) with (z mod 2 ^ 32).
      2:{ symmetry. apply Z.mod_mod_divide. by exists (2 ^ 32). }
      symmetry. apply (to_signed_small 32); [lia|].
      pose proof (Z.pow_le_mono_r 2 (8 * n - 1) 31). lia.
Qed.

Lemma takes_dec_uvarint f p z c :
  let n := data_size f in
  n = 1 \/ n = 2 \/ n = 4 \/ n = 8 -> 0 <= z < 2 ^ (8 * n) -> storage c p n -> ready c ->
  takes (pb_dec_uvarint E f p) (varint (u64 z)) (range p n) c
    (fun c' => read_bytes (heap c') p (Z.to_nat n) = Some (le_split (Z.to_nat n) z)).
Proof.
  intros n Hn Hz Hp Hc. unfold pb_dec_uvarint.
  pose proof (Z.pow_le_mono_r 2 (8 * n) 64). rewrite u64_small by lia.
  rewrite <-(app_nil_r (varint _)).
  eapply takes_bind; [intros s Hs; apply take_varint; [lia|done|exact Hs]|].
  apply (takes_clamped clamp_unsigned n); [done| |done]. by apply Z.mod_small.
Qed.

Lemma takes_dec_svarint f p z c :
  let n := data_size f in
  n = 1 \/ n = 2 \/ n = 4 \/ n = 8 -> - 2 ^ (8 * n - 1) <= z < 2 ^ (8 * n - 1) ->
  storage c p n -> ready c ->
  takes (pb_dec_svarint E f p) (varint (zigzag z)) (range p n) c
    (fun c' => read_bytes (heap c') p (Z.to_nat n) = Some (le_split (Z.to_nat n) z)).
Proof.
  intros n Hn Hz Hp Hc. unfold pb_dec_svarint.
  pose proof (Z.pow_le_mono_r 2 (8 * n - 1) 63). rewrite <-(app_nil_r (varint _)).
  eapply takes_bind with (a := Some z).
  - intros s Hs. unfold pb_decode_svarint. pose proof (zigzag_range z ltac:(lia)).
    erewrite bind_ret by by apply take_varint. cbv beta iota. by rewrite unzigzag by lia.
  - apply (takes_clamped to_signed n); [done| |done]. apply to_signed_small; lia.
Qed.

Lemma take_local l s c :
  input s l -> ready c -> (0 < length l)%nat ->
  pb_read E RLocal (Z.of_nat (length l)) s c = Ret ((true, l), is_took s (Z.of_nat (length l)), c).
Proof.
  intros Hs Hc Hl. apply (pb_read_local E l []); [|done]. rewrite app_nil_r. by apply input_ready.
Qed.

Lemma takes_dec_fixed32 p z c :
  storage c p 4 -> ready c ->
  takes (pb_decode_fixed32 E p) (le_split 4 z) (range p 4) c
    (fun c' => read_bytes (heap c') p 4 = Some (le_split 4 z)).
Proof.
  intros Hp Hc. unfold pb_decode_fixed32. rewrite <-(app_nil_r (le_split 4 z)) at 1.
  eapply takes_bind; [intros s Hs; apply (take_local (le_split 4 z)); [done|done|simpl; lia]|].
  cbn [negb fst snd le_split]. rewrite fixed32_assemble by apply (le_split_bytes 4 z).
  change [_; _; _; _] with (le_split 4 z).
  eapply takes_mono; [done| |by apply (takes_store 4 p _ c 4)].
  intros c' _ H. cbv beta in H. rewrite H. f_equal.
  exact (le_split_combine (le_split 4 z) (le_split_bytes 4 z)).
Qed.

Lemma takes_dec_fixed64 p z c :
  storage c p 8 -> ready c ->
  takes (pb_decode_fixed64 E p) (le_split 8 z) (range p 8) c
    (fun c' => read_bytes (heap c') p 8 = Some (le_split 8 z)).
Proof.
  intros Hp Hc. unfold pb_decode_fixed64. rewrite <-(app_nil_r (le_split 8 z)) at 1.
  eapply takes_bind; [intros s Hs; apply (take_local (le_split 8 z)); [done|done|simpl; lia]|].
  cbn [negb fst snd le_split]. rewrite fixed64_assemble by apply (le_split_bytes 8 z).
  change [_; _; _; _; _; _; _; _] with (le_split 8 z).
  eapply takes_mono; [done| |by apply (takes_store 8 p _ c 8)].
  intros c' _ H. cbv beta in H. rewrite H. f_equal.
  exact (le_split_combine (le_split 8 z) (le_split_bytes 8 z)).
Qed.

(** *** Strings *)

Lemma packable_not f t : has_ltype f t = true -> PB_LTYPE_LAST_PACKABLE < t -> is_packable f = false.
Proof. unfold has_ltype, is_packable. intros ->%Z.eqb_eq H. by apply Z.leb_gt. Qed.

Lemma read_loop_mem p src l : bytes l -> mem_at h0 src l -> lo <= src ->
  src + Z.of_nat (length l) <= hi -> clear (range p (Z.of_nat (length l))) ->
  forall n i (s : pb_istream_t) c h, (i + n = length l)%nat -> ready c ->
  write_bytes (heap c) (p + Z.of_nat i) (drop i l) = Some h ->
  read_loop (RMem p) src i n s c = Ret ([], s, set_heap c h).
Proof.
  intros Hl Hsrc Hlo Hhi Hp. induction n as [|n IH]; intros i s c h Hi [Hb Hc] Hw.
  - rewrite drop_ge in Hw by lia. injection Hw as <-. by destruct c.
  - destruct (lookup_lt_is_Some_2 l i) as [b Hbi]; [lia|].
    rewrite (drop_S l b i Hbi) in Hw. cbn [read_loop write_bytes] in *.
    destruct (heap c !! (p + Z.of_nat i)) as [x|] eqn:Ex; [|done].
    erewrite bind_ret.
    2:{ eapply load1_spec; [done|]. rewrite Hc by lia. by eapply mem_at_lookup. }
    assert (is_byte b) by (by eapply Forall_lookup_1 in Hl).
    erewrite bind_ret by (apply store1_spec; eauto).
    erewrite IH; [done|lia| |].
    + split; [done|]. intros y Hy. simpl. rewrite lookup_insert_ne; [by apply Hc|].
      intros <-. apply (Hp (p + Z.of_nat i)); [unfold range; lia|done].
    + simpl. rewrite <-Hw. f_equal. lia.
Qed.

Lemma takes_read_mem p l c :
  bytes l -> p <> 0 -> storage c p (Z.of_nat (length l)) -> ready c ->
  takes (pb_read_ok E (rbuf_of_ptr p) (Z.of_nat (length l))) l (range p (Z.of_nat (length l))) c
    (fun c' => read_bytes (heap c') p (length l) = Some l).
Proof.
  intros Hl Hp0 (Hm & Hbrk & Hcl) Hc s (H1 & H2 & H3 & H4 & H5).
  unfold pb_read_ok, rbuf_of_ptr. destruct (Z.eqb_spec p 0); [done|].
  destruct (write_bytes_mapped (heap c) p l Hm) as [h Hh].
  exists (set_heap c h). split_and!; [| |by eapply read_write_bytes].
  - unfold pb_read, pb_read_data. destruct (Z.eqb_spec (Z.of_nat (length l)) 0) as [Hz|Hz].
    { destruct l; [|simpl in Hz; lia]. injection Hh as <-. simpl. erewrite bind_ret by done.
      unfold mret, M_ret, is_took. destruct c, s. simpl. by rewrite Z.add_0_r, Z.sub_0_r. }
    rewrite (bind_ret _ _ _ _ (true, []) (is_took s (Z.of_nat (length l))) (set_heap c h)); [done|].
    erewrite bind_ret by done. erewrite bind_ret by done.
    destruct (Z.ltb_spec (is_bytes_left s) (Z.of_nat (length l))); [lia|].
    rewrite H1. cbn [icallback_call].
    erewrite bind_ret.
    2:{ unfold buf_read. erewrite bind_ret by done. erewrite bind_ret by done.
        rewrite (bind_ret _ _ _ _ [] (mk_istream IC_buf_read (is_state s + Z.of_nat (length l))
          (is_bytes_left s) (is_errmsg s)) (set_heap c h)); [done|]. rewrite Nat2Z.id, ?H1.
        eapply (read_loop_mem p (is_state s) l Hl H3 H4 H5 Hcl); [lia|done|].
        by rewrite Z.add_0_r. }
    simpl. unfold mbind, M_bind, get, put, mret, M_ret. simpl. unfold is_took, is_set_bytes_left.
    simpl. rewrite H1, u64_small by lia. done.
  - split; simpl; [lia| |].
    + intros x _ Hx. eapply write_bytes_outside; [exact Hh|exact Hx].
    + intros x _ Hx. by apply (write_bytes_dom _ _ _ _ x Hh).
Qed.

Lemma takes_then m (k : M pb_istream_t bool) w1 w2 R c (Q Q' : cstate -> Prop) :
  takes m w1 R c Q -> (forall c', kept R c c' -> Q c' -> takes k w2 R c' Q') ->
  takes (check! m; k) (w1 ++ w2) R c Q'.
Proof.
  intros Hm Hk s Hs. apply input_app in Hs as [Hs1 Hs2].
  destruct (Hm s Hs1) as (c1 & H1 & H2 & H3). destruct (Hk c1 H2 H3 _ Hs2) as (c2 & H4 & H5 & H6).
  exists c2. split_and!; [|by eapply kept_trans|done].
  erewrite bind_ret by exact H1. cbv beta iota. rewrite H4, is_took_took, length_app.
  by rewrite Nat2Z.inj_add.
Qed.

Lemma takes_size w (l : list Z) (k : Z -> M pb_istream_t bool) R c Q :
  Z.of_nat (length l) < 2 ^ 32 -> ready c -> takes (k (Z.of_nat (length l))) w R c Q ->
  takes (check? size ← pb_decode_varint32 E; k size) (varint (Z.of_nat (length l)) ++ w) R c Q.
Proof.
  intros Hl Hc Hk. eapply takes_bind with (a := Some (Z.of_nat (length l))); [|exact Hk].
  intros s Hs. apply take_varint32; [lia|done|done].
Qed.

(** A store, and what comes after it. *)
Lemma takes_after_store k p v (m : M pb_istream_t bool) w (R : Z -> Prop) c Q :
  storage c p (Z.of_nat k) -> (forall x, range p (Z.of_nat k) x -> R x) ->
  (forall c1, kept (range p (Z.of_nat k)) c c1 ->
     read_bytes (heap c1) p k = Some (le_split k v) -> takes m w R c1 Q) ->
  takes (_ ← store k p v; m) w R c Q.
Proof.
  intros Hp HR Hm s Hs. destruct (store_storage c p k v s Hp) as (c1 & H1 & H2 & H3).
  destruct (Hm c1 H2 H3 s Hs) as (c2 & H4 & H5 & H6). exists c2.
  split_and!; [by erewrite bind_ret by exact H1| |done].
  exact (kept_trans _ _ _ _ (kept_weaken _ _ _ _ HR H2) H5).
Qed.

Lemma takes_skip {A} (k : A -> M pb_istream_t bool) a w R c Q :
  takes (k a) w R c Q -> takes (mret a ≫= k) w R c Q.
Proof. intros Hk s Hs. by apply Hk. Qed.

Lemma bytes_of_ok f l : str_ok f l = true -> bytes l.
Proof.
  unfold str_ok. intros [H _]%andb_true_iff. unfold bytes. rewrite forallb_forall in H.
  apply Forall_forall. intros x Hx%list_elem_of_In. specialize (H x Hx).
  rewrite andb_true_iff, Z.leb_le, Z.ltb_lt in H. exact H.
Qed.

Lemma takes_dec_bytes f p l c sub :
  has_ltype f PB_LTYPE_BYTES = true -> PB_ATYPE (type f) = PB_ATYPE_STATIC ->
  size_ok f = true -> str_ok f l = true -> 0 < p -> storage c p (data_size f) -> ready c ->
  takes (pb_dec_bytes E f p) (delimited l) (range p (data_size f)) c
    (fun c' => value_at (heap c') (sub c') f p = Some (Str l)).
Proof.
  intros Ht Hst Hs Hl Hp Hsto Hc. pose proof (bytes_size f Hs Ht) as Hds.
  pose proof (bytes_of_ok f l Hl) as Hb. unfold str_ok in Hl. rewrite Ht in Hl.
  apply andb_true_iff in Hl as [_ Hlen%Z.leb_le]. unfold offsetof_bytes in *.
  unfold pb_dec_bytes, delimited. apply takes_size; [lia|done|].
  unfold PB_SIZE_MAX, PB_BYTES_ARRAY_T_ALLOCSIZE, offsetof_bytes. rewrite u64_small by lia. cbv zeta.
  rewrite Hst. change (PB_ATYPE_STATIC =? PB_ATYPE_POINTER) with false. cbv iota.
  destruct (Z.ltb_spec (2 ^ 32 - 1) (Z.of_nat (length l))); [lia|].
  destruct (Z.ltb_spec (Z.of_nat (length l) + 4) (Z.of_nat (length l))); [lia|].
  destruct (Z.ltb_spec (data_size f) (Z.of_nat (length l) + 4)); [lia|].
  apply takes_skip. apply takes_after_store.
  { eapply storage_sub; [exact Hsto|lia|unfold sizeof_pb_size_t; lia]. }
  { unfold range, sizeof_pb_size_t. lia. }
  intros c1 Hk1 Hr1. unfold sizeof_pb_size_t in *.
  eapply takes_mono; [| |apply (takes_read_mem (p + 4) l); [done|lia| |]].
  - unfold range. lia.
  - intros c' Hk Hr. unfold value_at. rewrite (packable_not f PB_LTYPE_BYTES), Ht by done.
    rewrite <-(kept_read _ _ _ p 4 Hk) in Hr1; [| |unfold range; lia].
    2:{ pose proof (kept_brk _ _ _ Hk1). destruct Hsto as (_ & Hb' & _). lia. }
    change sizeof_pb_size_t with 4%nat. rewrite Hr1. cbn [fmap option_fmap option_map mbind option_bind].
    rewrite le_combine_split, Z.mod_small by lia. unfold offsetof_bytes.
    case_bool; [|lia]. by rewrite Nat2Z.id, Hr.
  - eapply storage_sub; [by eapply storage_kept|lia|lia].
  - eapply ready_kept; [|done|exact Hk1]. intros x Hx. apply Hsto. unfold range in *. lia.
Qed.

Lemma until_zero_app l r : Forall (fun b => b <> 0) l -> until_zero (l ++ 0 :: r) = Some l.
Proof.
  induction 1 as [|b l Hb Hl IH]; [done|]. simpl. destruct (Z.eqb_spec b 0); [done|]. by rewrite IH.
Qed.

Lemma read_bytes_join h p l1 l2 n :
  read_bytes h p (length l1) = Some l1 ->
  read_bytes h (p + Z.of_nat (length l1)) (length l2) = Some l2 ->
  n = (length l1 + length l2)%nat -> read_bytes h p n = Some (l1 ++ l2).
Proof.
  intros H1 H2 ->. pose proof (mem_at_app h p l1 l2) as H. unfold mem_at in H.
  rewrite length_app in H. by apply H.
Qed.

Lemma takes_dec_string f p l c sub :
  has_ltype f PB_LTYPE_STRING = true -> PB_ATYPE (type f) = PB_ATYPE_STATIC ->
  size_ok f = true -> str_ok f l = true -> 0 < p -> storage c p (data_size f) -> ready c ->
  takes (pb_dec_string E f p) (delimited l) (range p (data_size f)) c
    (fun c' => value_at (heap c') (sub c') f p = Some (Str l)).
Proof.
  intros Ht Hst Hs Hl Hp Hsto Hc. pose proof (data_size_pos f Hs) as Hds.
  pose proof (bytes_of_ok f l Hl) as Hb. unfold str_ok in Hl. rewrite Ht in Hl.
  assert (Hnb : has_ltype f PB_LTYPE_BYTES = false).
  { unfold has_ltype in *. apply Z.eqb_eq in Ht. by rewrite Ht. }
  rewrite Hnb in Hl. apply andb_true_iff in Hl as [_ [Hlen%Z.ltb_lt Hnz]%andb_true_iff].
  unfold pb_dec_string, delimited. rewrite <-(app_nil_r l) at 2.
  apply takes_size; [lia|done|]. rewrite u32_small by lia. cbv zeta.
  rewrite Hst. change (PB_ATYPE_STATIC =? PB_ATYPE_POINTER) with false. cbv iota.
  destruct (Z.ltb_spec (Z.of_nat (length l) + 1) (Z.of_nat (length l))); [lia|].
  destruct (Z.ltb_spec (data_size f) (Z.of_nat (length l) + 1)); [lia|].
  apply takes_skip. rewrite app_nil_r. intros s Hin.
  destruct (takes_read_mem p l c Hb ltac:(lia) ltac:(eapply storage_sub; [exact Hsto|lia|lia]) Hc s Hin)
    as (c1 & Hr1 & Hk1 & Hm1).
  assert (Hk1' : kept (range p (data_size f)) c c1).
  { eapply kept_weaken; [|exact Hk1]. unfold range. lia. }
  pose proof (storage_kept _ _ _ _ _ Hk1 Hsto) as Hsto1.
  destruct (store_storage c1 (p + Z.of_nat (length l)) 1 0 (is_took s (Z.of_nat (length l))))
    as (c2 & Hr2 & Hk2 & Hm2); [eapply storage_sub; [exact Hsto1|lia|lia]|].
  assert (Hk2' : kept (range p (data_size f)) c1 c2).
  { eapply kept_weaken; [|exact Hk2]. unfold range. lia. }
  exists c2. split_and!; [|by eapply kept_trans|].
  { erewrite bind_ret by exact Hr1. erewrite bind_ret by exact Hr2. done. }
  rewrite <-(kept_read _ _ _ p _ Hk2) in Hm1; [|destruct Hsto1; lia|unfold range; lia].
  pose proof (storage_kept _ _ _ _ _ Hk2 Hsto1) as (Hmap & _).
  destruct (mapped_read (heap c2) (p + Z.of_nat (length l) + 1)
              (Z.to_nat (data_size f) - length l - 1)) as [r Hr].
  { eapply mapped_sub; [exact Hmap|lia|lia]. }
  unfold value_at. rewrite (packable_not f PB_LTYPE_STRING), Hnb, Ht by done.
  pose proof (read_bytes_length _ _ _ _ Hr) as Hlr. rewrite <-Hlr in Hr.
  rewrite (read_bytes_join _ _ l (0 :: r)); [|exact Hm1| |simpl; lia].
  - simpl. rewrite until_zero_app; [done|]. rewrite forallb_forall in Hnz.
    apply Forall_forall. intros b Hb'%list_elem_of_In. apply Hnz in Hb'.
    by destruct (Z.eqb_spec b 0).
  - change (0 :: r) with ([0] ++ r). eapply (read_bytes_join _ _ [0] r); [exact Hm2|exact Hr|].
    by rewrite length_app.
Qed.

Lemma takes_dec_fixed_length f p l c sub :
  has_ltype f PB_LTYPE_FIXED_LENGTH_BYTES = true ->
  size_ok f = true -> str_ok f l = true -> 0 < p -> storage c p (data_size f) -> ready c ->
  takes (pb_dec_fixed_length_bytes E f p) (delimited l) (range p (data_size f)) c
    (fun c' => value_at (heap c') (sub c') f p = Some (Str l)).
Proof.
  intros Ht Hs Hl Hp Hsto Hc. pose proof (data_size_pos f Hs) as Hds.
  pose proof (bytes_of_ok f l Hl) as Hb. unfold str_ok in Hl.
  assert (Hnb : has_ltype f PB_LTYPE_BYTES = false /\ has_ltype f PB_LTYPE_STRING = false).
  { unfold has_ltype in *. apply Z.eqb_eq in Ht. by rewrite Ht. }
  destruct Hnb as [Hnb Hns]. rewrite Hnb, Hns, Ht in Hl.
  apply andb_true_iff in Hl as [_ Hlen%andb_true_iff]. destruct Hlen as [_ Hlen%Z.eqb_eq].
  unfold pb_dec_fixed_length_bytes, delimited. apply takes_size; [lia|done|].
  unfold PB_SIZE_MAX. destruct (Z.ltb_spec (2 ^ 32 - 1) (Z.of_nat (length l))); [lia|].
  rewrite Hlen. destruct (Z.eqb_spec (data_size f) 0); [lia|]. rewrite Z.eqb_refl. cbn [negb].
  rewrite <-Hlen in *. eapply takes_mono; [done| |by apply takes_read_mem; [done|lia|..]].
  intros c' _ Hr. unfold value_at.
  rewrite (packable_not f PB_LTYPE_FIXED_LENGTH_BYTES), Hnb, Hns, Ht by done.
  cbv beta in Hr. by rewrite <-Hlen, Nat2Z.id, Hr.
Qed.

(** *** Substreams *)

Lemma left_took s n : is_bytes_left (is_took s n) = is_bytes_left s - n.
Proof. done. Qed.

(** [m] takes all that is left of its stream, which is [w]. *)
Definition takes_all (m : M pb_istream_t bool) (w : list Z) (R : Z -> Prop) (c : cstate)
    (Q : cstate -> Prop) : Prop :=
  forall s, input s w -> is_bytes_left s = Z.of_nat (length w) ->
  exists c', m s c = Ret (true, is_took s (Z.of_nat (length w)), c') /\ kept R c c' /\ Q c'.

Definition opened (s : pb_istream_t) (w : list Z) : pb_istream_t :=
  is_set_bytes_left (is_took s (Z.of_nat (length (varint (Z.of_nat (length w))))))
    (Z.of_nat (length w)).
Definition parent (s : pb_istream_t) (w : list Z) : pb_istream_t :=
  let s1 := is_took s (Z.of_nat (length (varint (Z.of_nat (length w))))) in
  is_set_bytes_left s1 (is_bytes_left s1 - Z.of_nat (length w)).

Lemma input_opened s w : input s (delimited w) -> input (opened s w) w.
Proof.
  unfold delimited. intros H. pose proof H as (_ & Hn & _). apply input_app in H as [_ (H1 & H2 & H3 & H4 & H5)].
  rewrite length_app in Hn. split_and!; simpl in *; try done; lia.
Qed.

Lemma take_substream s w c :
  Z.of_nat (length w) < 2 ^ 32 -> ready c -> input s (delimited w) ->
  pb_make_string_substream E s c = Ret (Some (opened s w), parent s w, c).
Proof.
  unfold delimited. intros Hw Hc Hs. pose proof Hs as (_ & Hn & _). rewrite length_app in Hn.
  apply input_app in Hs as [Hs _]. unfold pb_make_string_substream.
  erewrite bind_ret by (apply take_varint32; [|exact Hc|exact Hs]; lia). cbv beta iota.
  erewrite bind_ret by done. rewrite !left_took.
  case_bool; [lia|]. erewrite bind_ret by done. rewrite u64_small by lia. done.
Qed.

Lemma close_substream s w c :
  pb_close_string_substream E (is_took (opened s w) (Z.of_nat (length w))) (parent s w) c
  = Ret (true, is_took s (Z.of_nat (length (delimited w))), c).
Proof.
  unfold pb_close_string_substream. rewrite left_took. simpl is_bytes_left. rewrite Z.sub_diag. cbn [negb Z.eqb].
  erewrite bind_ret by done. cbn [negb fst snd]. erewrite bind_ret by done.
  unfold mbind, M_bind, put, mret, M_ret, is_took, delimited. simpl.
  by rewrite length_app, Nat2Z.inj_add, Z.add_assoc, Z.sub_add_distr.
Qed.

Lemma takes_delimited m w R c Q :
  Z.of_nat (length w) < 2 ^ 32 -> ready c -> takes_all m w R c Q ->
  takes (check? substream ← pb_make_string_substream E;
         r ← run_with substream m;
         check! pb_close_string_substream E r.2;
         mret r.1) (delimited w) R c Q.
Proof.
  intros Hw Hc Hm s Hs. destruct (Hm (opened s w) (input_opened s w Hs) eq_refl) as (c' & H1 & H2 & H3).
  exists c'. split_and!; [|done|done].
  erewrite bind_ret by by apply take_substream. cbv beta iota.
  erewrite bind_ret by (apply run_with_ret, H1). cbn [fst snd].
  erewrite bind_ret by apply close_substream. done.
Qed.

(** ** Structures with nothing in them yet *)

(** The field [f], at [p], is as [pb_message_set_to_defaults] leaves it. *)
Definition blank_field (sub : Z -> Z -> Prop) (h : gmap Z Z) (f : pb_field_t) (p : Z) : Prop :=
  (is_optional f = true -> h !! (p + size_offset f) = Some 0)
  /\ (is_repeated f = true -> read_bytes h (p + size_offset f) 4 = Some [0; 0; 0; 0])
  /\ (is_repeated f = false -> PB_LTYPE (type f) = PB_LTYPE_SUBMESSAGE -> sub (ptr f) p).

Fixpoint blank (n : nat) (h : gmap Z Z) (a d : Z) : Prop :=
  match n with
  | O => False
  | S n =>
    let fs := fields_of E a in
    forall i, (i < entries fs)%nat -> blank_field (blank n h) h (nth_field fs i) (data_ptr fs d i)
  end.

Lemma blank_field_agree h h' sub sub' f p :
  size_ok f = true -> presence_ok f = true -> agree h h' (p + size_offset f) (flag_width f) ->
  (is_repeated f = false -> PB_LTYPE (type f) = PB_LTYPE_SUBMESSAGE -> sub (ptr f) p -> sub' (ptr f) p) ->
  blank_field sub h f p -> blank_field sub' h' f p.
Proof.
  intros Hs Hp Hf Hsub (H1 & H2 & H3). unfold flag_width in Hf. split_and!.
  - intros Ho. rewrite Ho in Hf. cbv iota in Hf. rewrite <-(Hf (p + size_offset f)) by lia. auto.
  - intros Hr. destruct (presence_cases f Hp) as [(_ & _ & Hr')|[(_ & _ & Hr' & _)|(_ & Ho & _)]];
      [congruence..|]. rewrite Ho, Hr in Hf.
    cbv iota in Hf. rewrite <-(H2 Hr). symmetry.
    by eapply (read_agree h h'); [exact Hf|lia|lia].
  - auto.
Qed.

Lemma blank_agree n : forall a size h h' d,
  plain E n a size = true -> agree h h' d size -> blank n h a d -> blank n h' a d.
Proof.
  induction n as [|n IH]; intros a size h h' d Hp Ha; [done|].
  destruct (plain_inv _ _ _ _ Hp) as (k & [= <-] & _ & _ & _ & _ & _ & Hf & Hl).
  cbn [blank]. intros Hb i Hi.
  destruct (plain_field_inv _ _ (Hf i Hi)) as (_ & _ & Hs & Hpr & Hsub & _).
  assert (Hin : forall x, owns (fields_of E a) d i x -> h !! x = h' !! x).
  { intros x Hx. apply Ha. by eapply owns_inside. }
  apply (blank_field_agree h h' (blank n h)); [done|done| | |by apply Hb].
  - intros x Hx. apply Hin. by right.
  - intros Hr Hm. destruct (Hsub Hm) as [_ Hps]. apply (IH _ _ _ _ _ Hps).
    intros x Hx. apply Hin. left. unfold in_data, width. by rewrite Hr.
Qed.

(** ** One value of any type *)

Section Field.
Context (fuel n : nat) (rec : Z -> Z -> M pb_istream_t bool).

(** The messages nested in this one are decoded: into a structure that is blank, or that is
    made so first when it is an element of an array. *)
Definition submessages_decoded (f : pb_field_t) : Prop :=
  PB_LTYPE (type f) = PB_LTYPE_SUBMESSAGE ->
  ptr f <> 0
  /\ forall m q c,
      let w := message_wire E (fields_of E (ptr f)) m in
      typed_message E n (ptr f) m = true -> Z.of_nat (length w) < 2 ^ 32 -> 0 < q ->
      storage c q (data_size f) -> ready c ->
      (is_repeated f = false -> blank n (heap c) (ptr f) q) ->
      takes_all (if is_repeated f then pb_decode_with E fuel rec (ptr f) q else rec (ptr f) q)
        w (range q (data_size f)) c
        (fun c' => message_at E n (heap c') (ptr f) q = Some m).

Lemma takes_dec_submessage f p m c :
  has_ltype f PB_LTYPE_SUBMESSAGE = true -> submessages_decoded f ->
  typed_message E n (ptr f) m = true -> Z.of_nat (length (payload E f (Msg m))) < 2 ^ 32 -> 0 < p ->
  storage c p (data_size f) -> ready c ->
  (is_repeated f = false -> blank n (heap c) (ptr f) p) ->
  takes (pb_dec_submessage E fuel rec f p) (payload E f (Msg m)) (range p (data_size f)) c
    (fun c' => value_at (heap c') (message_at E n (heap c')) f p = Some (Msg m)).
Proof.
  intros Ht Hsub Hm Hlen Hp Hsto Hc Hb. pose proof Ht as Ht'. apply Z.eqb_eq in Ht'.
  destruct (Hsub Ht') as [Hptr Hdec]. rewrite payload_Msg in *.
  unfold delimited in Hlen. rewrite length_app in Hlen.
  specialize (Hdec m p c Hm ltac:(lia) Hp Hsto Hc Hb).
  unfold pb_dec_submessage. destruct (Z.eqb_spec (ptr f) 0); [done|]. fold (is_repeated f).
  eapply takes_mono; [done| |apply takes_delimited; [lia|done|exact Hdec]].
  intros c' _ Hv. cbv beta in Hv. unfold value_at, is_packable, has_ltype. rewrite Ht'. simpl. by rewrite Hv.
Qed.

Lemma decoder_exists f :
  size_ok f = true ->
  exists func, PB_DECODERS E fuel rec !! Z.to_nat (PB_LTYPE (type f)) = Some func.
Proof.
  intros Hs%ltype_cases. cbv zeta in Hs.
  destruct Hs as [[-> _]|[[-> _]|[[-> _]|[[-> _]|[[-> _]|[[-> _]|[[-> _]|[[-> _]|[[-> _]|[-> _]]]]]]]]]];
    eexists; reflexivity.
Qed.

Lemma takes_value f p v c func :
  size_ok f = true -> PB_ATYPE (type f) = PB_ATYPE_STATIC -> 0 < p -> storage c p (data_size f) ->
  ready c -> submessages_decoded f -> typed (typed_message E n) f v = true ->
  Z.of_nat (length (payload E f v)) < 2 ^ 32 ->
  (is_repeated f = false -> PB_LTYPE (type f) = PB_LTYPE_SUBMESSAGE -> blank n (heap c) (ptr f) p) ->
  PB_DECODERS E fuel rec !! Z.to_nat (PB_LTYPE (type f)) = Some func ->
  takes (call_decoder func f p) (payload E f v) (range p (data_size f)) c
    (fun c' => value_at (heap c') (message_at E n (heap c')) f p = Some v).
Proof.
  intros Hs Hst Hp Hsto Hc Hsub Hv Hlen Hb Hfunc.
  destruct v as [z|l|m]; cbn [typed] in Hv; apply andb_true_iff in Hv as [Hk Hv].
  - assert (Hnum : takes (call_decoder func f p) (payload E f (Num z)) (range p (data_size f)) c
              (fun c' => read_bytes (heap c') p (Z.to_nat (data_size f))
                         = Some (le_split (Z.to_nat (data_size f)) z))).
    2:{ eapply takes_mono; [done| |exact Hnum]. intros c' _ Hr. by apply stored_num. }
    clear Hb Hlen. unfold is_packable in Hk. unfold num_ok, has_ltype in Hv.
    destruct (ltype_cases f Hs) as
      [[Ht Hn]|[[Ht Hn]|[[Ht Hn]|[[Ht Hn]|[[Ht Hn]|[[Ht Hn]|[[Ht Hn]|[[Ht Hn]|[[Ht Hn]|[Ht Hn]]]]]]]]]];
      rewrite Ht in *; try done; cbn [payload]; unfold num_wire, has_ltype; rewrite Ht;
      injection Hfunc as <-; cbn [Z.eqb Pos.eqb call_decoder];
      cbv [PB_LTYPE_BOOL PB_LTYPE_VARINT PB_LTYPE_UVARINT PB_LTYPE_SVARINT PB_LTYPE_FIXED32
           PB_LTYPE_FIXED64 Z.eqb Pos.eqb orb] in Hv |- *;
      rewrite ?andb_true_iff, ?Z.leb_le, ?Z.ltb_lt in Hv.
    + rewrite Hn in *. rewrite u64_small by (cbn in Hv; rewrite !orb_true_iff, !Z.eqb_eq in Hv; naive_solver lia).
      by apply takes_dec_bool.
    + by apply takes_dec_varint.
    + by apply takes_dec_uvarint.
    + by apply takes_dec_svarint.
    + rewrite Hn in *. by apply takes_dec_fixed32.
    + rewrite Hn in *. by apply takes_dec_fixed64.
  - destruct (ltype_cases f Hs) as
      [[Ht Hn]|[[Ht Hn]|[[Ht Hn]|[[Ht Hn]|[[Ht Hn]|[[Ht Hn]|[[Ht Hn]|[[Ht Hn]|[[Ht Hn]|[Ht Hn]]]]]]]]]];
      unfold is_packable in Hk; rewrite Ht in *; try done; injection Hfunc as <-; cbn [payload call_decoder].
    + apply takes_dec_bytes; try done. by apply Z.eqb_eq.
    + apply takes_dec_string; try done. by apply Z.eqb_eq.
    + unfold str_ok, has_ltype in Hv. rewrite Ht in Hv. simpl in Hv. by rewrite andb_false_r in Hv.
    + apply takes_dec_fixed_length; try done. by apply Z.eqb_eq.
  - pose proof Hk as Ht%Z.eqb_eq. rewrite Ht in Hfunc. injection Hfunc as <-.
    apply takes_dec_submessage; try done. intros Hr. by apply Hb.
Qed.

(** ** One record of a field *)

Section Record.
Context (f : pb_field_t) (p : Z) (it : pb_field_iter_t) (func : option pb_decoder_t).
Hypothesis Hf : plain_field (plain E n) f = true.
Hypothesis Hsub : submessages_decoded f.
Hypothesis Hp : 0 < p.
Hypothesis Hit : it_field E it = Some f.
Hypothesis Hdata : it_pData it = p.
Hypothesis Hsize : it_pSize it = p + size_offset f.
Hypothesis Hapart : forall x, range (p + size_offset f) (flag_width f) x -> range p (width f) x -> False.
Hypothesis Hfunc : PB_DECODERS E fuel rec !! Z.to_nat (PB_LTYPE (type f)) = Some func.

Definition field_range : Z -> Prop :=
  fun x => range p (width f) x \/ range (p + size_offset f) (flag_width f) x.

(** The storage of the field, in [c]. *)
Definition field_storage (c : cstate) : Prop :=
  ready c /\ storage c p (width f) /\ storage c (p + size_offset f) (flag_width f).

Definition sub_at (c : cstate) : Z -> Z -> option message := message_at E n (heap c).

Lemma field_clear c : field_storage c -> clear field_range.
Proof. intros (_ & (_ & _ & H1) & (_ & _ & H2)) x [Hx|Hx]; [by apply H1|by apply H2]. Qed.

Lemma field_storage_kept c c' : field_storage c -> kept field_range c c' -> field_storage c'.
Proof.
  intros Hs Hk. pose proof (field_clear c Hs) as Hc. destruct Hs as (H1 & H2 & H3).
  split_and!; [by eapply ready_kept|by eapply storage_kept|by eapply storage_kept].
Qed.

Lemma plain_sub_agree c c' q :
  PB_LTYPE (type f) = PB_LTYPE_SUBMESSAGE -> agree (heap c) (heap c') q (data_size f) ->
  sub_at c (ptr f) q = sub_at c' (ptr f) q
  /\ (blank n (heap c) (ptr f) q -> blank n (heap c') (ptr f) q).
Proof.
  destruct (plain_field_inv _ _ Hf) as (_ & _ & _ & _ & Hps & _).
  intros Ht Ha. destruct (Hps Ht) as [_ Hpl].
  split; [by eapply message_at_agree|by eapply blank_agree].
Qed.

Lemma value_kept c c' q R :
  q + data_size f <= brk c -> (forall x, R x -> range q (data_size f) x -> False) ->
  kept R c c' ->
  value_at (heap c') (sub_at c') f q = value_at (heap c) (sub_at c) f q.
Proof.
  intros Hb HR Hk. destruct (plain_field_inv _ _ Hf) as (_ & _ & Hs & _).
  assert (Ha : agree (heap c) (heap c') q (data_size f)).
  { intros x Hx. symmetry. eapply kept_same; [exact Hk|lia|]. intros HRx. by eapply HR. }
  symmetry. apply value_at_agree; [done| |done]. intros Ht. by apply plain_sub_agree.
Qed.

Lemma takes_required v c :
  is_required f = true -> field_storage c -> typed (typed_message E n) f v = true ->
  Z.of_nat (length (payload E f v)) < 2 ^ 32 -> blank_field (blank n (heap c)) (heap c) f p ->
  takes (decode_static_field E fuel rec (wt_val (wire_type f)) it) (payload E f v) field_range c
    (fun c' => values_at (heap c') (sub_at c') f p = Some [v]).
Proof.
  intros Hr (Hc & Hsto & _) Hv Hlen (_ & _ & Hb).
  destruct (plain_field_inv _ _ Hf) as (Hst & _ & Hs & Hpr & _).
  destruct (presence_cases f Hpr) as [(_ & Hno & Hnr)|[(? & _)|(? & _)]]; [|congruence..].
  assert (Hw : width f = data_size f) by (unfold width; by rewrite Hnr). rewrite Hw in Hsto.
  unfold decode_static_field. rewrite Hit. apply takes_skip. cbv beta zeta.
  rewrite Hfunc. apply takes_skip.
  pose proof Hr as Hr'. unfold is_required in Hr'. rewrite Hr', Hdata.
  eapply takes_mono; [| |apply (takes_value f p v c func); done || auto].
  - intros x Hx. left. by rewrite Hw.
  - intros c' _ Hval. unfold values_at. rewrite Hr. unfold sub_at. by rewrite Hval.
Qed.

Lemma takes_optional v c :
  is_optional f = true -> field_storage c -> typed (typed_message E n) f v = true ->
  Z.of_nat (length (payload E f v)) < 2 ^ 32 -> blank_field (blank n (heap c)) (heap c) f p ->
  takes (decode_static_field E fuel rec (wt_val (wire_type f)) it) (payload E f v) field_range c
    (fun c' => values_at (heap c') (sub_at c') f p = Some [v]).
Proof.
  intros Ho Hfs Hv Hlen (_ & _ & Hb). pose proof Hfs as (Hc & Hsto & Hflag).
  destruct (plain_field_inv _ _ Hf) as (Hst & _ & Hs & Hpr & _).
  destruct (presence_cases f Hpr) as [(_ & ? & _)|[(Hnr & _ & Hnp & Hso)|(_ & ? & _)]];
    [congruence| |congruence].
  assert (Hw : width f = data_size f) by (unfold width; by rewrite Hnp).
  assert (Hfw : flag_width f = 1) by (unfold flag_width; by rewrite Ho).
  unfold decode_static_field. rewrite Hit. apply takes_skip. cbv beta zeta.
  rewrite Hfunc. apply takes_skip.
  pose proof Hnr as Hnr'. pose proof Ho as Ho'. unfold is_required, is_optional in Hnr', Ho'.
  rewrite Hnr', Ho', Hsize, Hdata. destruct (Z.eqb_spec (p + size_offset f) p); [lia|]. cbn [negb].
  rewrite Hfw in Hflag, Hapart. rewrite Hw in Hsto, Hapart.
  apply takes_after_store; [exact Hflag|intros x Hx; right; by rewrite Hfw|].
  intros c1 Hk1 Hr1. change (Z.of_nat 1) with 1 in Hk1.
  assert (Hfs1 : field_storage c1).
  { apply (field_storage_kept c); [done|]. eapply kept_weaken; [|exact Hk1].
    intros x Hx. right. by rewrite Hfw. }
  destruct Hfs1 as (Hc1 & Hsto1 & _). rewrite Hw in Hsto1.
  eapply takes_mono; [| |apply (takes_value f p v c1 func); try done].
  - intros x Hx. left. by rewrite Hw.
  - intros c' Hk Hval. unfold values_at. rewrite Hnr, Ho.
    assert (Hfl : heap c' !! (p + size_offset f) = Some 1).
    { destruct Hflag as (_ & Hbf & _). pose proof (kept_brk _ _ _ Hk1).
      rewrite (kept_same _ _ _ Hk); [|lia|].
      - cbn in Hr1. by destruct (heap c1 !! (p + size_offset f)); [injection Hr1 as ->|].
      - intros Hx. apply (Hapart (p + size_offset f)); [unfold range; lia|done]. }
    rewrite Hfl. simpl. unfold sub_at. by rewrite Hval.
  - intros _ Ht. apply (plain_sub_agree c c1 p Ht); [|by apply Hb].
    intros x Hx. symmetry. destruct Hsto as (_ & Hbd & _).
    eapply kept_same; [exact Hk1|lia|]. intros Hx'. by apply (Hapart x).
Qed.

(** *** Arrays *)

Definition elements (vs : list value) (c : cstate) : Prop :=
  forall k v, vs !! k = Some v -> element_at (heap c) (sub_at c) f p k = Some v.
Definition count_is (k : nat) (c : cstate) : Prop :=
  read_bytes (heap c) (p + size_offset f) 4 = Some (le_split 4 (Z.of_nat k)).

Section Array.
Hypothesis Hrep : is_repeated f = true.

Lemma repeated_facts :
  is_required f = false /\ is_optional f = false /\ size_offset f <> 0
  /\ 0 <= array_size f < 2 ^ 32 /\ data_size f * array_size f < 2 ^ 32
  /\ 0 < data_size f < 2 ^ 32 /\ width f = data_size f * array_size f /\ flag_width f = 4.
Proof.
  destruct (plain_field_inv _ _ Hf) as (_ & _ & Hs & Hpr & _).
  destruct (presence_cases f Hpr) as [(_ & _ & ?)|[(_ & _ & ? & _)|(H1 & H2 & _ & H3 & H4 & H5)]];
    [congruence..|].
  pose proof (data_size_pos f Hs). unfold width, flag_width. rewrite Hrep, H2. done.
Qed.

Lemma array_values vs c :
  elements vs c -> count_is (length vs) c -> Z.of_nat (length vs) <= array_size f ->
  values_at (heap c) (sub_at c) f p = Some vs.
Proof.
  intros He Hn Hlen. destruct repeated_facts as (Hr & Ho & _ & Ha & _). unfold values_at.
  rewrite Hr, Ho, Hrep. change sizeof_pb_size_t with 4%nat. rewrite Hn.
  cbn [fmap option_fmap option_map mbind option_bind]. rewrite le_combine_split, Z.mod_small by lia.
  case_bool; [|lia]. rewrite Nat2Z.id. apply mapM_Some, Forall2_same_length_lookup.
  split; [by rewrite length_seq|]. intros k x v [-> Hk]%lookup_seq Hv. by apply He.
Qed.

Lemma load_count k c s :
  count_is k c -> Z.of_nat k < 2 ^ 32 ->
  load sizeof_pb_size_t (it_pSize it) s c = Ret (Z.of_nat k, s : pb_istream_t, c).
Proof.
  intros Hn Hk. rewrite Hsize. erewrite load_bytes by exact Hn.
  by rewrite le_combine_split, Z.mod_small by lia.
Qed.

Lemma elements_kept vs c c' R :
  field_storage c -> kept R c c' -> Z.of_nat (length vs) <= array_size f ->
  (forall x, R x -> range p (data_size f * Z.of_nat (length vs)) x -> False) ->
  elements vs c -> elements vs c'.
Proof.
  intros (_ & (_ & Hb & _) & _) Hk Hlen HR He k v Hv. destruct repeated_facts as (_ & _ & _ & _ & _ & Hd & Hw & _).
  pose proof (lookup_lt_Some _ _ _ Hv). rewrite <-(He k v Hv). unfold element_at.
  eapply value_kept; [nia| |exact Hk]. intros x Hx Hx'. apply (HR x Hx). unfold range in *. nia.
Qed.

Lemma takes_element vs v c m :
  field_storage c -> elements vs c -> count_is m c -> Z.of_nat (length vs) < array_size f ->
  typed (typed_message E n) f v = true -> Z.of_nat (length (payload E f v)) < 2 ^ 32 ->
  takes (call_decoder func f (p + u32 (data_size f * Z.of_nat (length vs)))) (payload E f v)
    field_range c (fun c' => elements (vs ++ [v]) c' /\ count_is m c').
Proof.
  intros Hfs He Hn Hlen Hv Hl. pose proof Hfs as (Hc & Hsto & Hflag).
  destruct (plain_field_inv _ _ Hf) as (Hst & _ & Hs & Hpr & _).
  destruct repeated_facts as (_ & _ & _ & Ha & Hmax & Hd & Hw & Hfw).
  rewrite u32_small by nia. set (q := p + data_size f * Z.of_nat (length vs)).
  assert (Hin : forall x, range q (data_size f) x -> range p (width f) x).
  { intros x Hx. unfold range, q in *. rewrite Hw. nia. }
  eapply takes_mono; [| |apply (takes_value f q v c func); try done].
  - intros x Hx. left. by apply Hin.
  - intros c' Hk Hval. split.
    + intros k w Hk'. apply lookup_app_Some in Hk' as [Hk'|[Hge Hk']].
      * eapply (elements_kept vs c c'); [done|exact Hk|lia| |done|done].
        intros x Hx Hx'. unfold range, q in *. nia.
      * apply list_lookup_singleton_Some in Hk' as [Hk' ->].
        replace k with (length vs) by lia. exact Hval.
    + unfold count_is. rewrite <-Hn. eapply kept_read; [exact Hk|destruct Hflag as (_ & Hb & _); rewrite Hfw in Hb; lia|].
      intros x Hx Hx'. apply (Hapart x); [by rewrite Hfw|by apply Hin].
  - unfold q. nia.
  - eapply storage_sub; [exact Hsto|unfold q; nia|unfold q; rewrite Hw; nia].
  - congruence.
Qed.

Lemma store_count k vs c (s : pb_istream_t) :
  field_storage c -> elements vs c -> Z.of_nat (length vs) <= array_size f ->
  exists c1, store sizeof_pb_size_t (it_pSize it) (Z.of_nat k) s c = Ret (tt, s, c1)
    /\ kept field_range c c1 /\ field_storage c1 /\ elements vs c1 /\ count_is k c1.
Proof.
  intros Hfs He Hlen. pose proof Hfs as (Hc & Hsto & Hflag).
  destruct repeated_facts as (_ & _ & _ & Ha & Hmax & Hd & Hw & Hfw). rewrite Hsize.
  rewrite Hfw in Hflag.
  destruct (store_storage c (p + size_offset f) sizeof_pb_size_t (Z.of_nat k) s Hflag)
    as (c1 & H1 & Hk1 & Hr1).
  assert (Hk : kept field_range c c1).
  { eapply kept_weaken; [|exact Hk1]. intros x Hx. right. by rewrite Hfw. }
  exists c1. split_and!; [done|done|by eapply field_storage_kept| |done].
  eapply elements_kept; [exact Hfs|exact Hk1|done| |done].
  intros x Hx Hx'. apply (Hapart x); [by rewrite Hfw|]. unfold range in *. rewrite Hw. nia.
Qed.

Lemma takes_unpacked vs v c :
  is_packable f = false -> field_storage c -> elements vs c -> count_is (length vs) c ->
  Z.of_nat (length vs) < array_size f ->
  typed (typed_message E n) f v = true -> Z.of_nat (length (payload E f v)) < 2 ^ 32 ->
  takes (decode_static_field E fuel rec (wt_val (wire_type f)) it) (payload E f v) field_range c
    (fun c' => elements (vs ++ [v]) c' /\ count_is (length (vs ++ [v])) c').
Proof.
  intros Hnp Hfs He Hn Hlen Hv Hl. destruct repeated_facts as (Hr & Ho & _ & Ha & _).
  unfold decode_static_field. rewrite Hit. apply takes_skip. cbv beta zeta.
  rewrite Hfunc. apply takes_skip.
  unfold is_required, is_optional, is_repeated, is_packable in *. rewrite Hr, Ho, Hrep, Hnp, andb_false_r.
  eapply takes_step with (c1 := c) (R1 := fun _ => False);
    [intros s; apply load_count; [exact Hn|lia]|apply kept_refl|done|].
  rewrite (u32_small (Z.of_nat (length vs) + 1)) by lia.
  replace (Z.of_nat (length vs) + 1) with (Z.of_nat (length (vs ++ [v]))) by (rewrite length_app; simpl; lia).
  intros s Hs.
  destruct (store_count (length (vs ++ [v])) vs c s Hfs He ltac:(lia)) as (c1 & H1 & Hk1 & Hfs1 & He1 & Hn1).
  destruct (takes_element vs v c1 (length (vs ++ [v])) Hfs1 He1 Hn1 Hlen Hv Hl s Hs)
    as (c2 & H2 & Hk2 & HQ).
  exists c2. split_and!; [|by eapply kept_trans|apply HQ|apply HQ].
  erewrite bind_ret by exact H1. case_bool; [lia|]. by rewrite Hdata.
Qed.

Lemma payload_pos g v : (0 < length (payload E g v))%nat.
Proof.
  destruct v as [z|l|m]; [cbn [payload]; unfold num_wire|cbn [payload]|rewrite payload_Msg];
    unfold delimited; rewrite ?length_app.
  - repeat case_match; simpl; try lia; apply varint_length.
  - pose proof (varint_length (Z.of_nat (length l))). lia.
  - match goal with |- context [varint ?z] => pose proof (varint_length z) end. lia.
Qed.

(** A value that can be decoded here: typed, and not too long. *)
Definition decodable (v : value) : Prop :=
  typed (typed_message E n) f v = true /\ Z.of_nat (length (payload E f v)) < 2 ^ 32.

Lemma takes_packed_loop vs2 : forall vs1 k c,
  field_storage c -> elements vs1 c -> count_is (length vs1) c ->
  Z.of_nat (length (vs1 ++ vs2)) <= array_size f -> Forall decodable vs2 ->
  let w := concat (map (payload E f) vs2) in
  (length w <= k)%nat ->
  takes_all (packed_static_loop k func f it) w field_range c
    (fun c' => elements (vs1 ++ vs2) c' /\ count_is (length (vs1 ++ vs2)) c').
Proof.
  destruct repeated_facts as (_ & _ & _ & Ha & _).
  induction vs2 as [|v vs2 IH]; intros vs1 k c Hfs He Hn Hlen Hd w Hk s Hs Hleft; subst w;
    rewrite length_app in Hlen; simpl length in Hlen.
  - rewrite app_nil_r. exists c. split_and!; [|apply kept_refl|done|done].
    assert (Hloop : packed_static_loop k func f it s c = Ret (true, s, c)).
    { destruct k; cbn [packed_static_loop]; erewrite bind_ret by done;
        (erewrite bind_ret by (apply load_count; [exact Hn|lia])); by rewrite Hleft. }
    rewrite Hloop. unfold is_took. destruct s. simpl. by rewrite Z.add_0_r, Z.sub_0_r.
  - apply Forall_cons in Hd as [[Hty Hpl] Hd]. cbn [map concat] in *.
    pose proof (payload_pos f v) as Hpos. rewrite length_app in Hk, Hleft.
    destruct k as [|k]; [lia|]. apply input_app in Hs as [Hs1 Hs2].
    destruct (takes_element vs1 v c (length vs1) Hfs He Hn ltac:(lia) Hty Hpl s Hs1)
      as (c1 & Hr1 & Hk1 & He1 & Hn1).
    pose proof (field_storage_kept c c1 Hfs Hk1) as Hfs1.
    set (s1 := is_took s (Z.of_nat (length (payload E f v)))) in *.
    destruct (store_count (length (vs1 ++ [v])) (vs1 ++ [v]) c1 s1 Hfs1 He1
                ltac:(rewrite length_app; simpl; lia)) as (c2 & Hr2 & Hk2 & Hfs2 & He2 & Hn2).
    destruct (IH (vs1 ++ [v]) k c2 Hfs2 He2 Hn2 ltac:(rewrite <-app_assoc, length_app; simpl; lia) Hd
                ltac:(lia) s1 Hs2) as (c3 & Hr3 & Hk3 & HQ3).
    { unfold s1. rewrite left_took. lia. }
    rewrite <-app_assoc in HQ3.
    exists c3. split_and!; [|eapply kept_trans; [exact Hk1|by eapply kept_trans]|apply HQ3|apply HQ3].
    cbn [packed_static_loop]. erewrite bind_ret by done.
    erewrite bind_ret by (apply load_count; [exact Hn|lia]).
    destruct (Z.ltb_spec 0 (is_bytes_left s)); [|lia].
    destruct (Z.ltb_spec (Z.of_nat (length vs1)) (array_size f)); [|lia]. cbn [andb].
    rewrite Hdata. erewrite bind_ret by exact Hr1. cbv beta iota. fold s1.
    erewrite bind_ret by (apply load_count; [exact Hn1|lia]).
    rewrite u32_small by lia.
    replace (Z.of_nat (length vs1) + 1) with (Z.of_nat (length (vs1 ++ [v])))
      by (rewrite length_app; simpl; lia).
    erewrite bind_ret by exact Hr2. rewrite Hr3. unfold s1. by rewrite is_took_took, length_app, Nat2Z.inj_add.
Qed.

Lemma takes_packed vs c :
  is_packable f = true -> field_storage c -> count_is 0 c ->
  Z.of_nat (length vs) <= array_size f -> Forall decodable vs ->
  let w := concat (map (payload E f) vs) in
  Z.of_nat (length w) < 2 ^ 32 ->
  takes (decode_static_field E fuel rec (wt_val PB_WT_STRING) it) (delimited w) field_range c
    (fun c' => elements vs c' /\ count_is (length vs) c').
Proof.
  intros Hpk Hfs Hn Hlen Hd w Hw s Hs. destruct repeated_facts as (Hr & Ho & _ & Ha & _).
  pose proof Hfs as (Hc & _ & _).
  unfold decode_static_field. rewrite Hit. erewrite bind_ret by done. cbv beta zeta.
  rewrite Hfunc. erewrite bind_ret by done.
  unfold is_required, is_optional, is_repeated, is_packable in *. rewrite Hr, Ho, Hrep, Hpk.
  rewrite Z.eqb_refl. cbn [andb].
  assert (He : elements [] c) by by intros k v ?.
  destruct (takes_packed_loop vs [] (length w) c Hfs He Hn Hlen Hd (le_n _) (opened s w)
              (input_opened s w Hs) eq_refl) as (c' & H1 & Hk & HQ).
  exists c'. split_and!; [|done|apply HQ|apply HQ].
  erewrite bind_ret by (by apply take_substream). cbv beta iota.
  change (is_bytes_left (opened s w)) with (Z.of_nat (length w)). rewrite Nat2Z.id.
  erewrite bind_ret by (apply run_with_ret, H1). cbn [fst snd]. fold w.
  rewrite left_took. change (is_bytes_left (opened s w)) with (Z.of_nat (length w)).
  rewrite Z.sub_diag. cbn [Z.eqb negb]. erewrite bind_ret by apply close_substream. done.
Qed.
End Array.
End Record.
End Field.
End Takes.
