(* ===== verification/PbMessageRead.v ===== *)
(** * nanopb: whole messages through the decoder

    The loop of [pb_decode_noinit] over the encoded fields of a message, the check that no
    required field is missing, and the initialisation of the destination; and so the decoder
    against the wire format. *)
From S2P Require Export PbMessageDecode.

(** ** The required fields seen *)

(** The words of [fields_seen] once the first [r] required fields have been read. *)
Definition seen (r : Z) : list Z :=
  [2 ^ Z.min r 32 - 1; 2 ^ Z.min 32 (Z.max 0 (r - 32)) - 1].

Lemma seen_bit k : 0 <= k -> Z.lor (2 ^ k - 1) (Z.shiftl 1 k) = 2 ^ (k + 1) - 1.
Proof.
  intros Hk. rewrite lor_shiftl_add; [|done|].
  - rewrite Z.pow_add_r by lia. change (2 ^ 1) with 2. lia.
  - assert (0 < 2 ^ k) by (apply Z.pow_pos_nonneg; lia). lia.
Qed.

Lemma alter_first (f : Z -> Z) x y : alter f 0%nat [x; y] = [f x; y].
Proof. done. Qed.
Lemma alter_second (f : Z -> Z) x y : alter f 1%nat [x; y] = [x; f y].
Proof. done. Qed.

Lemma seen_step r :
  0 <= r ->
  (if r <? PB_MAX_REQUIRED_FIELDS
   then alter (fun w => Z.lor w (Z.shiftl 1 (Z.land r 31))) (Z.to_nat (Z.shiftr r 5)) (seen r)
   else seen r) = seen (r + 1).
Proof.
  intros Hr. unfold PB_MAX_REQUIRED_FIELDS, seen.
  rewrite (land_ones_mod r 5 31), Z.shiftr_div_pow2 by (done || lia). change (2 ^ 5) with 32.
  destruct (Z.ltb_spec r 64).
  - destruct (Z.lt_ge_cases r 32) as [Hlt|Hge].
    + rewrite Z.div_small, Z.mod_small by lia. rewrite alter_first.
      replace (Z.min r 32) with r by lia. rewrite seen_bit by lia.
      replace (Z.min (r + 1) 32) with (r + 1) by lia.
      by replace (Z.min 32 (Z.max 0 (r + 1 - 32))) with (Z.min 32 (Z.max 0 (r - 32))) by lia.
    + replace (r / 32) with 1 by div_lia. replace (r mod 32) with (r - 32) by div_lia.
      rewrite alter_second. replace (Z.min 32 (Z.max 0 (r - 32))) with (r - 32) by lia.
      rewrite seen_bit by lia.
      replace (Z.min 32 (Z.max 0 (r + 1 - 32))) with (r - 32 + 1) by lia.
      by replace (Z.min (r + 1) 32) with (Z.min r 32) by lia.
  - replace (Z.min (r + 1) 32) with (Z.min r 32) by lia.
    by replace (Z.min 32 (Z.max 0 (r + 1 - 32))) with (Z.min 32 (Z.max 0 (r - 32))) by lia.
Qed.

Lemma seen_all r : 0 <= r -> required_missing (Z.min 64 r) (seen r) = false.
Proof.
  intros Hr. unfold required_missing, seen.
  rewrite (land_ones_mod _ 5 31), Z.shiftr_div_pow2 by (done || lia). change (2 ^ 5) with 32.
  assert (Hones : forall k, 0 <= k <= 32 -> Z.shiftr (2 ^ 32 - 1) (32 - k) = 2 ^ k - 1).
  { intros k Hk. rewrite Z.shiftr_div_pow2 by lia.
    replace (2 ^ 32) with (2 ^ k * 2 ^ (32 - k)) by (rewrite <-Z.pow_add_r by lia; f_equal; lia).
    assert (0 < 2 ^ (32 - k)) by (apply Z.pow_pos_nonneg; lia).
    symmetry. apply Z.div_unique with (r := 2 ^ (32 - k) - 1); nia. }
  destruct (Z.ltb_spec 0 (Z.min 64 r)); [|done]. cbn [andb].
  destruct (Z.lt_ge_cases r 32) as [H1|H1].
  - replace (Z.min 64 r) with r by lia. rewrite Z.div_small, Z.mod_small by lia. cbn [existsb take Z.to_nat orb nth].
    destruct (Z.eqb_spec r 0); [lia|]. rewrite Hones by lia.
    replace (Z.min r 32) with r by lia. by rewrite Z.eqb_refl.
  - destruct (Z.lt_ge_cases r 64) as [H2|H2].
    + replace (Z.min 64 r) with r by lia. replace (r / 32) with 1 by div_lia.
      replace (r mod 32) with (r - 32) by div_lia.
      replace (Z.min r 32) with 32 by lia. replace (Z.min 32 (Z.max 0 (r - 32))) with (r - 32) by lia.
      simpl. destruct (Z.eqb_spec (r - 32) 0); [done|]. rewrite Hones by lia. by rewrite Z.eqb_refl.
    + replace (Z.min 64 r) with 64 by lia. replace (Z.min r 32) with 32 by lia.
      by replace (Z.min 32 (Z.max 0 (r - 32))) with 32 by lia.
Qed.

Lemma required_before_range fs i : 0 <= required_before fs i <= Z.of_nat (length fs).
Proof.
  unfold required_before. pose proof (length_filter (fun f => PB_HTYPE (type f) = PB_HTYPE_REQUIRED) (take i fs)).
  rewrite length_take in *. lia.
Qed.

Lemma nth_field_lookup fs i : (i < length fs)%nat -> fs !! i = Some (nth_field fs i).
Proof.
  intros Hi. destruct (lookup_lt_is_Some_2 fs i Hi) as [f Hf]. rewrite Hf. unfold nth_field.
  by rewrite (nth_lookup_Some _ _ _ _ Hf).
Qed.

(** The only entry that passes a test is the one a search finds. *)
Lemma find_only (P : nat -> bool) l i :
  In i l -> (forall j, In j l -> P j = true <-> j = i) -> find P l = Some i.
Proof.
  intros Hi HP. destruct (find P l) as [j|] eqn:Ef.
  - apply find_some in Ef as [Hj Hp]. f_equal. by apply HP.
  - pose proof (find_none _ _ Ef i Hi) as Hn. by rewrite (proj2 (HP i Hi) eq_refl) in Hn.
Qed.

(** ** Local variables in memory *)

Lemma map_range_below h b x n : forall a, x < a -> map_range h a n b !! x = h !! x.
Proof.
  revert h. induction n as [|n IH]; intros h a Hx; [done|]. simpl.
  rewrite IH by lia. by rewrite lookup_insert_ne by lia.
Qed.

Lemma map_range_mapped h b n : forall a, mapped (map_range h a n b) a (Z.of_nat n).
Proof.
  revert h. induction n as [|n IH]; intros h a x Hx; [lia|]. simpl.
  destruct (decide (x = a)) as [->|Hne]; [|apply IH; lia].
  rewrite map_range_below by lia. rewrite lookup_insert_eq. eauto.
Qed.

Lemma unmap_range_below h x n : forall a, x < a -> unmap_range h a n !! x = h !! x.
Proof.
  revert h. induction n as [|n IH]; intros h a Hx; [done|]. simpl.
  rewrite IH by lia. by rewrite lookup_delete_ne by lia.
Qed.

Lemma stack_alloc_kept {St} R c n (s : St) :
  0 <= n ->
  exists c', stack_alloc n s c = Ret (brk c, s, c') /\ kept R c c'
    /\ mapped (heap c') (brk c) n /\ brk c + n <= brk c'.
Proof.
  intros Hn. eexists. unfold stack_alloc. split; [done|]. simpl.
  assert (Hb : brk c + n <= next_brk (brk c) n) by (unfold next_brk; div_lia).
  split_and!; [|pose proof (map_range_mapped (heap c) (junk c) (Z.to_nat n) (brk c)) as H; by rewrite Z2Nat.id in H by lia|done].
  split; simpl; [lia| |].
  - intros x Hx _. by apply map_range_below.
  - intros x Hx. by rewrite map_range_below.
Qed.

(** Freeing what was allocated at the old limit. *)
Lemma stack_free_kept {St} R c c' n (s : St) :
  kept R c c' ->
  exists c'', stack_free (brk c) n s c' = Ret (tt, s, c'') /\ kept R c c''
    /\ forall x, x < brk c -> heap c'' !! x = heap c' !! x.
Proof.
  intros [H1 H2 H3]. eexists. unfold stack_free. split; [done|].
  split; [split; simpl; [done| |]; intros x Hx; rewrite unmap_range_below by done; auto|].
  intros x Hx. simpl. by apply unmap_range_below.
Qed.

(** A local variable is outside of everything below the old limit. *)
Lemma kept_above R c c1 c2 n :
  kept R c c1 -> kept (range (brk c) n) c1 c2 -> kept R c c2.
Proof.
  intros [H1 H2 H3] [H4 H5 H6]. split; [lia| |].
  - intros x Hx Hr. rewrite H5; [by apply H2|lia|unfold range; lia].
  - intros x Hx Hs. apply H6; [lia|by apply H3].
Qed.

Section Read.
Context (E : pb_env) (h0 : gmap Z Z) (lo hi : Z).
Local Notation input := (input h0 lo hi).
Local Notation ready := (ready h0 lo hi).
Local Notation takes := (takes h0 lo hi).
Local Notation takes_all := (takes_all h0 lo hi).
Local Notation storage := (storage lo hi).
Local Notation field_storage := (field_storage h0 lo hi).

(** ** The loop over the fields *)

Section Message.
Context (fuel n : nat) (rec : Z -> Z -> M pb_istream_t bool).
Context (a size d fcs : Z).
Hypothesis Hplain : plain E (S n) a size = true.
Hypothesis Hd : 0 < d.
Local Notation fs := (fields_of E a).
Local Notation at_ i := (iter_at fs a d i).

(** The local variables of the loop, with the iterator at entry [i0] and [r] required fields
    seen. *)
Definition loop_at (i0 : nat) (r : Z) : loop_state := mk_loop_state (at_ i0) (seen r) 0 None.

Lemma plain_facts :
  env_fields E !! a = Some fs /\ terminated fs = true /\ entries fs <> 0%nat
  /\ Z.of_nat (length fs) < 2 ^ 32 /\ NoDup (map tag fs) /\ layout_ok fs size = true
  /\ forall i, (i < entries fs)%nat -> plain_field (plain E n) (nth_field fs i) = true.
Proof.
  destruct (plain_inv _ _ _ _ Hplain) as (k & [= <-] & H1 & H2 & H3 & H4 & H5 & H6 & H7). done.
Qed.

Lemma find_field i i0 :
  (i < entries fs)%nat -> (i0 < entries fs)%nat ->
  pb_field_iter_find E (at_ i0) (tag (nth_field fs i)) = Some (true, at_ i).
Proof.
  destruct plain_facts as (He & Ht & Hne & _ & Hnd & _ & Hf). intros Hi Hi0.
  unfold pb_field_iter_find. simpl it_start. simpl it_pos.
  rewrite (search_round E a fs He Ht Hne) by done.
  erewrite (find_only _ _ i); [done| |].
  - unfold round. apply in_app_iff. rewrite !in_seq. lia.
  - intros j Hj. unfold round in Hj. rewrite in_app_iff, !in_seq in Hj.
    assert (Hj' : (j < entries fs)%nat) by lia.
    destruct (plain_field_inv _ _ (Hf j Hj')) as (_ & _ & Hs & _). rewrite (not_extension _ Hs), andb_true_r.
    rewrite Z.eqb_eq. split; [|by intros ->]. intros Htag.
    pose proof (entries_length E a fs He Ht Hne) as Hlen.
    apply (NoDup_lookup (map tag fs) j i (tag (nth_field fs i))); [done|..]; rewrite list_lookup_fmap.
    + rewrite nth_field_lookup by lia. simpl. by rewrite Htag.
    + by rewrite nth_field_lookup by lia.
Qed.

Lemma it_required_at i : it_required_field_index (at_ i) = required_before fs i.
Proof.
  simpl. apply u32_small. pose proof (required_before_range fs i).
  destruct plain_facts as (_ & _ & _ & Hlen & _). lia.
Qed.

(** One record: its key, and a body the decoder of the field takes. *)
Lemma decode_record i i0 r w wt R c Q k s :
  (i < entries fs)%nat -> (i0 < entries fs)%nat -> ready c ->
  (is_required (nth_field fs i) = true -> r = required_before fs i) ->
  takes (decode_static_field E fuel rec (wt_val wt) (at_ i)) w R c Q ->
  input s (key wt (nth_field fs i) ++ w) ->
  exists c',
    decode_loop E fuel rec (S k) fcs (loop_at i0 r) s c
    = decode_loop E fuel rec k fcs
        (loop_at i (if is_required (nth_field fs i) then r + 1 else r))
        (is_took s (Z.of_nat (length (key wt (nth_field fs i) ++ w)))) c'
    /\ kept R c c' /\ Q c'.
Proof.
  intros Hi Hi0 Hc Hr Hbody Hs. set (f := nth_field fs i) in *.
  destruct plain_facts as (He & Hterm & Hne & _ & _ & _ & Hf).
  destruct (plain_field_inv _ _ (Hf i Hi)) as (Hst & Htag & Hsz & Hpr & _). fold f in Hst, Htag, Hsz, Hpr.
  pose proof (plain_it_field E _ a size Hplain d i Hi) as Hit. fold f in Hit.
  pose proof (size_at E _ a size Hplain d i Hd Hi) as Hps. fold f in Hps.
  apply input_app in Hs as [Hs1 Hs2].
  destruct (Hbody _ Hs2) as (c' & H1 & Hk & HQ). exists c'. split_and!; [|done|done].
  assert (Hpos : is_bytes_left s <> 0).
  { destruct Hs1 as (_ & Hn & _). pose proof (varint_length (wt_val wt + tag f * 8)).
    unfold key in Hn. lia. }
  cbn [decode_loop]. erewrite bind_ret by done. rewrite (proj2 (Z.eqb_neq _ _) Hpos).
  erewrite bind_ret.
  2:{ apply (pb_decode_tag_spec E wt (tag f) []); [done|]. rewrite app_nil_r.
      by apply (input_ready h0 lo hi). }
  cbn [tr_ok negb tr_tag tr_wire_type ls_iter loop_at].
  erewrite bind_ret by (unfold f; rewrite find_field by done; done).
  cbn [fst snd negb].
  erewrite bind_ret.
  2:{ unfold decode_known. rewrite Hit. erewrite bind_ret by done.
      erewrite bind_ret.
      2:{ rewrite Hps, data_at by done.
          assert (Hno : (PB_HTYPE (type f) =? PB_HTYPE_REPEATED)
                        && (data_ptr fs d i + size_offset f =? data_ptr fs d i) = false).
          { destruct (presence_cases f Hpr) as [(_ & _ & H)|[(_ & _ & H & _)|(_ & _ & H & H' & _)]];
              unfold is_repeated in H; rewrite H; [done..|]. apply Z.eqb_neq. lia. }
          rewrite Hno. done. }
      cbv beta iota.
      rewrite (bind_ret _ _ _ _ (true, at_ i) (is_took (is_took s (Z.of_nat (length (key wt f))))
                                                 (Z.of_nat (length w))) c'); [done|].
      unfold decode_field. rewrite Hit. erewrite bind_ret by done.
      rewrite (not_oneof f Hpr). erewrite bind_ret by done. cbn [negb fst snd].
      rewrite Hit. erewrite bind_ret by done. rewrite Hst.
      change (PB_ATYPE_STATIC =? PB_ATYPE_STATIC) with true. cbv iota.
      by erewrite bind_ret by exact H1. }
  cbn [fst snd]. rewrite is_took_took, length_app, Nat2Z.inj_add. unfold loop_at.
  do 2 f_equal. cbn [ls_fields_seen loop_at]. rewrite it_required_at. fold (is_required f).
  destruct (is_required f) eqn:Er; [|done]. rewrite <-(Hr eq_refl). cbn [andb]. apply seen_step.
  rewrite (Hr eq_refl). apply required_before_range.
Qed.

(** ** One field *)

Section OneField.
Context (i : nat) (Hi : (i < entries fs)%nat).
Local Notation f := (nth_field fs i).
Local Notation p := (data_ptr fs d i).
Hypothesis Hsub : submessages_decoded E h0 lo hi fuel n rec f.

(** The loop goes over [w], which changes the field only, and leaves [Q]. *)
Definition goes_over (r r' : Z) (w : list Z) (c : cstate) (Q : cstate -> Prop) : Prop :=
  forall i0 k s, (i0 < entries fs)%nat -> input s w -> (length w <= k)%nat ->
  exists i0' k' c',
    decode_loop E fuel rec k fcs (loop_at i0 r) s c
    = decode_loop E fuel rec k' fcs (loop_at i0' r') (is_took s (Z.of_nat (length w))) c'
    /\ (i0' < entries fs)%nat /\ (k <= k' + length w)%nat
    /\ kept (field_range f p) c c' /\ Q c'.

Lemma goes_over_nothing r c (Q : cstate -> Prop) : Q c -> goes_over r r [] c Q.
Proof.
  intros HQ i0 k s Hi0 _ _. exists i0, k, c. split_and!; [|done|lia|apply kept_refl|done].
  unfold is_took. destruct s. simpl. by rewrite Z.add_0_r, Z.sub_0_r.
Qed.

Lemma goes_over_app r1 r2 r3 w1 w2 c (Q1 Q2 : cstate -> Prop) :
  goes_over r1 r2 w1 c Q1 ->
  (forall c', kept (field_range f p) c c' -> Q1 c' -> goes_over r2 r3 w2 c' Q2) ->
  goes_over r1 r3 (w1 ++ w2) c Q2.
Proof.
  intros H1 H2 i0 k s Hi0 Hs Hk. rewrite length_app in Hk. apply input_app in Hs as [Hs1 Hs2].
  destruct (H1 i0 k s Hi0 Hs1 ltac:(lia)) as (i1 & k1 & c1 & He1 & Hi1 & Hk1 & Hkept1 & HQ1).
  destruct (H2 c1 Hkept1 HQ1 i1 k1 _ Hi1 Hs2 ltac:(lia)) as (i2 & k2 & c2 & He2 & Hi2 & Hk2 & Hkept2 & HQ2).
  exists i2, k2, c2. rewrite He1, He2, is_took_took, length_app, Nat2Z.inj_add.
  split_and!; [done|done|lia|by eapply kept_trans|done].
Qed.

Lemma goes_over_record r w wt c (Q : cstate -> Prop) :
  ready c -> (is_required f = true -> r = required_before fs i) ->
  takes (decode_static_field E fuel rec (wt_val wt) (at_ i)) w (field_range f p) c Q ->
  goes_over r (if is_required f then r + 1 else r) (key wt f ++ w) c Q.
Proof.
  intros Hc Hr Hw i0 k s Hi0 Hs Hk. destruct k as [|k].
  { unfold key in Hk. rewrite length_app in Hk.
    pose proof (varint_length (wt_val wt + tag f * 8)). lia. }
  destruct (decode_record i i0 r w wt _ c Q k s Hi Hi0 Hc Hr Hw Hs) as (c' & H1 & H2 & H3).
  exists i, k, c'. split_and!; [exact H1|done| |done|done].
  rewrite length_app. unfold key. pose proof (varint_length (wt_val wt + tag f * 8)). lia.
Qed.

Lemma plain_here :
  plain_field (plain E n) f = true /\ it_field E (at_ i) = Some f /\ it_pData (at_ i) = p
  /\ it_pSize (at_ i) = p + size_offset f /\ 0 < p
  /\ (forall x, range (p + size_offset f) (flag_width f) x -> range p (width f) x -> False)
  /\ exists func, PB_DECODERS E fuel rec !! Z.to_nat (PB_LTYPE (type f)) = Some func.
Proof.
  destruct plain_facts as (_ & _ & _ & _ & _ & Hl & Hf).
  pose proof (Hf i Hi) as Hfi. destruct (plain_field_inv _ _ Hfi) as (_ & _ & Hs & _).
  split_and!; [done|by eapply plain_it_field|by apply data_at|by eapply size_at| | |].
  - pose proof (data_ptr_low fs size Hl d i Hi). lia.
  - intros x Hx Hx'. by apply (flag_not_data fs size Hl d i x Hi).
  - by apply decoder_exists.
Qed.

(** The elements of an array that is not packed, one record each. *)
Lemma goes_over_elements vs2 : forall vs1 r c,
  is_repeated f = true -> is_packable f = false -> field_storage f p c ->
  elements E n f p vs1 c -> count_is f p (length vs1) c ->
  Z.of_nat (length (vs1 ++ vs2)) <= array_size f -> Forall (decodable E n f) vs2 ->
  goes_over r r (concat (map (app (key (wire_type f) f)) (map (payload E f) vs2))) c
    (fun c' => elements E n f p (vs1 ++ vs2) c' /\ count_is f p (length (vs1 ++ vs2)) c').
Proof.
  destruct plain_here as (Hfp & Hit & Hda & Hsi & Hp & Hap & func & Hfunc).
  induction vs2 as [|v vs2 IH]; intros vs1 r c Hrep Hpk Hfs He Hn Hlen Hd2.
  { rewrite app_nil_r. by apply goes_over_nothing. }
  apply Forall_cons in Hd2 as [[Hty Hpl] Hd2]. rewrite length_app in Hlen. simpl in Hlen.
  cbn [map concat]. assert (Hnr : is_required f = false).
  { destruct (plain_field_inv _ _ Hfp) as (_ & _ & _ & Hpr & _).
    destruct (presence_cases f Hpr) as [(_ & _ & ?)|[(? & _)|(? & _)]]; congruence. }
  eapply goes_over_app.
  - pose proof (goes_over_record r (payload E f v) (wire_type f) c) as H. rewrite Hnr in H.
    apply H; [apply Hfs|done|].
    apply (takes_unpacked E h0 lo hi fuel n rec f p (at_ i) func Hfp Hsub Hp Hit Hda Hsi Hap Hfunc
             Hrep vs1 v); done || lia.
  - intros c' Hk [He' Hn']. replace (vs1 ++ v :: vs2) with ((vs1 ++ [v]) ++ vs2) by by rewrite <-app_assoc.
    apply IH; [done|done| |done|done| |done].
    + by eapply field_storage_kept.
    + rewrite !length_app. simpl. lia.
Qed.

Lemma payload_in_field_wire v vs :
  v ∈ vs -> (length (payload E f v) <= length (field_wire f (map (payload E f) vs)))%nat.
Proof.
  intros Hv. unfold field_wire.
  assert (Hc : (length (payload E f v) <= length (concat (map (payload E f) vs)))%nat).
  { induction Hv as [v vs|v u vs Hv IH]; simpl; rewrite length_app; lia. }
  destruct (_ && _).
  - destruct vs as [|u vs]; [by apply not_elem_of_nil in Hv|]. unfold delimited.
    change (map (payload E f) (u :: vs)) with (payload E f u :: map (payload E f) vs) in *.
    cbv iota. rewrite !length_app. lia.
  - etransitivity; [exact Hc|]. clear. induction vs as [|v vs IH]; [done|]. simpl.
    rewrite !length_app. lia.
Qed.

Lemma goes_over_field vs c :
  field_storage f p c -> blank_field (blank E n (heap c)) (heap c) f p ->
  count_ok f (length vs) = true -> Forall (fun v => typed (typed_message E n) f v = true) vs ->
  let w := field_wire f (map (payload E f) vs) in
  Z.of_nat (length w) < 2 ^ 32 ->
  goes_over (required_before fs i) (required_before fs (S i)) w c
    (fun c' => values_at (heap c') (message_at E n (heap c')) f p = Some vs).
Proof.
  destruct plain_here as (Hfp & Hit & Hda & Hsi & Hp & Hap & func & Hfunc).
  destruct (plain_field_inv _ _ Hfp) as (_ & _ & _ & Hpr & _).
  destruct plain_facts as (He & Hterm & Hne & _).
  intros Hfs Hb Hn Hty w Hw. subst w. pose proof Hfs as (Hc & _).
  assert (Hdec : Forall (decodable E n f) vs).
  { rewrite Forall_forall in Hty |- *. intros v Hv. split; [by apply Hty|].
    pose proof (payload_in_field_wire v vs Hv). lia. }
  rewrite (required_before_S E a fs He Hterm Hne i) by lia. fold (is_required f).
  unfold count_ok in Hn.
  destruct (presence_cases f Hpr) as [(Hr & Ho & Hnr)|[(Hr & Ho & Hnr & _)|(Hr & Ho & Hrep & _ & Ha & _)]];
    rewrite Hr, ?Ho in Hn.
  - apply Nat.eqb_eq in Hn. destruct vs as [|v [|]]; try done. apply Forall_singleton in Hdec as [Hv Hl].
    cbn [map]. rewrite field_wire_one by done. replace (required_before fs i + (if is_required f then 1 else 0))
      with (if is_required f then required_before fs i + 1 else required_before fs i) by by rewrite Hr.
    apply goes_over_record; [done|done|].
    by apply (takes_required E h0 lo hi fuel n rec f p (at_ i) func).
  - rewrite Hr, Z.add_0_r. apply Nat.leb_le in Hn. destruct vs as [|v [|]]; [| |simpl in Hn; lia].
    + unfold field_wire. rewrite Hnr. apply goes_over_nothing. unfold values_at. rewrite Hr, Ho.
      destruct Hb as (Hb & _). by rewrite (Hb Ho).
    + apply Forall_singleton in Hdec as [Hv Hl]. cbn [map]. rewrite field_wire_one by done.
      pose proof (goes_over_record (required_before fs i) (payload E f v) (wire_type f) c) as H.
      rewrite Hr in H. apply H; [done|done|].
      by apply (takes_optional E h0 lo hi fuel n rec f p (at_ i) func).
  - rewrite Hr, Z.add_0_r. apply Z.leb_le in Hn. destruct Hb as (_ & Hb & _).
    assert (Hcount : count_is f p 0 c) by exact (Hb Hrep).
    assert (Hvals : forall c', elements E n f p vs c' /\ count_is f p (length vs) c' ->
              values_at (heap c') (message_at E n (heap c')) f p = Some vs).
    { intros c' [H1 H2]. by apply (array_values E n f p Hfp Hrep). }
    unfold field_wire in *. rewrite Hrep in *. cbn [andb] in *. destruct (is_packable f) eqn:Epk.
    + destruct vs as [|v vs]; [apply goes_over_nothing, Hvals; split; [by intros k v ?|done]|].
      change (map (payload E f) (v :: vs)) with (payload E f v :: map (payload E f) vs) in *.
      pose proof (goes_over_record (required_before fs i) (delimited (concat (map (payload E f) (v :: vs))))
                    PB_WT_STRING c) as H. rewrite Hr in H.
      apply H; [done|done|]. eapply takes_mono; [done|intros c' _ HQ; apply Hvals, HQ|].
      apply (takes_packed E h0 lo hi fuel n rec f p (at_ i) func); try done.
      unfold delimited in Hw. rewrite !length_app in Hw. cbn [map concat] in *. lia.
    + intros i0 k s Hi0 Hs Hk.
      destruct (goes_over_elements vs [] (required_before fs i) c Hrep Epk Hfs ltac:(by intros j v ?)
                  Hcount Hn Hdec i0 k s Hi0 Hs Hk) as (i1 & k1 & c1 & H1 & H2 & H3 & H4 & HQ).
      exists i1, k1, c1. split_and!; try done. by apply Hvals.
Qed.
End OneField.

(** ** All fields *)

Hypothesis Hsubs : forall i, (i < entries fs)%nat ->
  submessages_decoded E h0 lo hi fuel n rec (nth_field fs i).

(** The fields before [i] hold [m1], the others nothing yet. *)
Definition half_read (i : nat) (m1 : message) (c : cstate) : Prop :=
  ready c /\ storage c d size
  /\ (forall j vs, m1 !! j = Some vs -> (j < i)%nat ->
       values_at (heap c) (message_at E n (heap c)) (nth_field fs j) (data_ptr fs d j) = Some vs)
  /\ (forall j, (i <= j < entries fs)%nat ->
       blank_field (blank E n (heap c)) (heap c) (nth_field fs j) (data_ptr fs d j)).

Lemma field_in_struct i c :
  (i < entries fs)%nat -> ready c -> storage c d size ->
  field_storage (nth_field fs i) (data_ptr fs d i) c.
Proof.
  destruct plain_facts as (_ & _ & _ & _ & _ & Hl & _). intros Hi Hc Hs.
  destruct (layout_field fs size Hl i Hi) as (Hin & _).
  pose proof (Hin _ (or_introl eq_refl)) as Hdata. pose proof (Hin _ (or_intror (or_introl eq_refl))) as Hflag.
  simpl in Hdata, Hflag. rewrite (data_ptr_shift fs d i).
  split_and!; [done|eapply storage_sub; [exact Hs|lia|lia]..].
Qed.

(** A field does not change when another is read. *)
Lemma other_field i j c c' :
  (i < entries fs)%nat -> (j < entries fs)%nat -> i <> j -> storage c d size ->
  kept (field_range (nth_field fs i) (data_ptr fs d i)) c c' ->
  values_at (heap c') (message_at E n (heap c')) (nth_field fs j) (data_ptr fs d j)
  = values_at (heap c) (message_at E n (heap c)) (nth_field fs j) (data_ptr fs d j)
  /\ (blank_field (blank E n (heap c)) (heap c) (nth_field fs j) (data_ptr fs d j) ->
      blank_field (blank E n (heap c')) (heap c') (nth_field fs j) (data_ptr fs d j)).
Proof.
  destruct plain_facts as (_ & _ & _ & _ & _ & Hl & Hf). intros Hi Hj Hij (_ & Hb & _) Hk.
  destruct (plain_field_inv _ _ (Hf j Hj)) as (_ & _ & Hs & Hpr & Hps & _).
  assert (Hsame : forall x, owns fs d j x -> heap c !! x = heap c' !! x).
  { intros x Hx. symmetry. eapply kept_same; [exact Hk| |].
    - pose proof (owns_inside fs size Hl d j x Hj Hx). lia.
    - intros Hx'. by apply (owns_disjoint fs size Hl d i j x). }
  assert (Ha1 : agree (heap c) (heap c') (data_ptr fs d j) (width (nth_field fs j))).
  { intros x Hx. apply Hsame. by left. }
  assert (Ha2 : agree (heap c) (heap c') (data_ptr fs d j + size_offset (nth_field fs j))
                  (flag_width (nth_field fs j))).
  { intros x Hx. apply Hsame. by right. }
  split.
  - symmetry. apply values_at_agree; [done|done| |done|done]. intros Ht q Hq1 Hq2.
    destruct (Hps Ht) as [_ Hpl]. eapply message_at_agree; [exact Hpl|].
    eapply agree_sub; [exact Ha1|lia|lia].
  - apply blank_field_agree; [done|done|done|]. intros Hnr Ht. destruct (Hps Ht) as [_ Hpl].
    eapply blank_agree; [exact Hpl|]. unfold width in Ha1. by rewrite Hnr in Ha1.
Qed.

Fixpoint wire_from (i : nat) (m : message) : list Z :=
  match m with
  | [] => []
  | vs :: m =>
    field_wire (nth_field fs i) (map (payload E (nth_field fs i)) vs) ++ wire_from (S i) m
  end.

Lemma wire_from_drop m : forall i,
  (i + length m <= length fs)%nat -> message_wire E (drop i fs) m = wire_from i m.
Proof.
  induction m as [|vs m IH]; intros i Hi; [by destruct (drop i fs)|]. simpl in Hi.
  rewrite (drop_S fs (nth_field fs i) i) by (apply nth_field_lookup; lia). simpl.
  by rewrite IH by lia.
Qed.

Lemma typed_field m i vs :
  typed_message E (S n) a m = true -> m !! i = Some vs ->
  (i < entries fs)%nat /\ count_ok (nth_field fs i) (length vs) = true
  /\ Forall (fun v => typed (typed_message E n) (nth_field fs i) v = true) vs.
Proof.
  cbn [typed_message]. intros [Hlen%Nat.eqb_eq Hall]%andb_true_iff Hi.
  pose proof (lookup_lt_Some _ _ _ Hi). split; [lia|].
  rewrite forallb_forall in Hall. destruct plain_facts as (He & Ht & Hne & _).
  pose proof (entries_length E a fs He Ht Hne).
  specialize (Hall (nth_field fs i, vs)). cbv beta iota in Hall.
  apply andb_true_iff in Hall as [H1 H2].
  - split; [done|]. rewrite forallb_forall in H2. apply Forall_forall.
    intros v Hv. apply H2. by apply list_elem_of_In.
  - apply list_elem_of_In, list_elem_of_lookup. exists i. apply lookup_zip_Some.
    split; [apply nth_field_lookup; lia|done].
Qed.

Lemma loop_message m2 : forall m1 c i0 k s,
  typed_message E (S n) a (m1 ++ m2) = true -> half_read (length m1) (m1 ++ m2) c ->
  (i0 < entries fs)%nat -> Z.of_nat (length (wire_from (length m1) m2)) < 2 ^ 32 ->
  input s (wire_from (length m1) m2) -> (length (wire_from (length m1) m2) <= k)%nat ->
  exists i0' k' c',
    decode_loop E fuel rec k fcs (loop_at i0 (required_before fs (length m1))) s c
    = decode_loop E fuel rec k' fcs (loop_at i0' (required_before fs (length (m1 ++ m2))))
        (is_took s (Z.of_nat (length (wire_from (length m1) m2)))) c'
    /\ (i0' < entries fs)%nat /\ kept (range d size) c c'
    /\ half_read (length (m1 ++ m2)) (m1 ++ m2) c'.
Proof.
  induction m2 as [|vs m2 IH]; intros m1 c i0 k s Hty Hhalf Hi0 Hlen Hs Hk.
  { rewrite app_nil_r in *. exists i0, k, c. split_and!; [|done|apply kept_refl|done].
    simpl. unfold is_took. destruct s. simpl. by rewrite Z.add_0_r, Z.sub_0_r. }
  set (i := length m1) in *. destruct Hhalf as (Hc & Hst & Hdone & Htodo).
  destruct (typed_field (m1 ++ vs :: m2) i vs Hty) as (Hi & Hn & Hvs).
  { by apply list_lookup_middle. }
  cbn [wire_from] in *. set (w := field_wire _ _) in *. rewrite length_app in Hlen, Hk.
  apply input_app in Hs as [Hs1 Hs2].
  destruct (goes_over_field i Hi (Hsubs i Hi) vs c (field_in_struct i c Hi Hc Hst)
              (Htodo i ltac:(lia)) Hn Hvs ltac:(fold w; lia) i0 k s Hi0 Hs1 ltac:(fold w; lia))
    as (i1 & k1 & c1 & He1 & Hi1 & Hk1 & Hkept1 & HQ1). fold w in He1, Hk1.
  assert (Hkept : kept (range d size) c c1).
  { eapply kept_weaken; [|exact Hkept1]. intros x Hx.
    destruct plain_facts as (_ & _ & _ & _ & _ & Hl & _).
    by apply (owns_inside fs size Hl d i x Hi). }
  assert (Hhalf1 : half_read (length (m1 ++ [vs])) ((m1 ++ [vs]) ++ m2) c1).
  { rewrite length_app, <-app_assoc. simpl. fold i. split_and!.
    - eapply ready_kept; [|exact Hc|exact Hkept]. apply Hst.
    - by eapply storage_kept.
    - intros j vs' Hj Hlt. destruct (decide (j = i)) as [->|Hne].
      + assert (Hm : (m1 ++ vs :: m2) !! i = Some vs) by by apply list_lookup_middle.
        injection (eq_trans (eq_sym Hj) Hm) as ->. exact HQ1.
      + destruct (other_field i j c c1 Hi ltac:(lia) ltac:(lia) Hst Hkept1) as [-> _].
        apply Hdone; [done|lia].
    - intros j Hj. apply (other_field i j c c1); try done; [lia|lia|]. apply Htodo. lia. }
  destruct (IH (m1 ++ [vs]) c1 i1 k1 (is_took s (Z.of_nat (length w)))) as (i2 & k2 & c2 & He2 & Hi2 & Hkept2 & Hhalf2).
  { by rewrite <-app_assoc. }
  { done. }
  { done. }
  { rewrite length_app. simpl. rewrite Nat.add_1_r. fold i. lia. }
  { rewrite length_app. simpl. rewrite Nat.add_1_r. done. }
  { rewrite length_app. simpl. rewrite Nat.add_1_r. fold i. lia. }
  rewrite <-app_assoc in *. rewrite length_app in He2. simpl in He2. rewrite Nat.add_1_r in He2.
  exists i2, k2, c2. split_and!; [|done|by eapply kept_trans|done].
  fold i in He2. rewrite He1, He2, is_took_took, (length_app w), Nat2Z.inj_add. done.
Qed.

(** ** The end of the message *)

Lemma seek_last_at n' : forall i,
  (i < entries fs)%nat -> (entries fs - i <= n')%nat ->
  seek_last E n' (at_ i)
  = Some (required_before fs (pred (entries fs)), type (nth_field fs (pred (entries fs))), at_ 0).
Proof.
  destruct plain_facts as (He & Ht & Hne & _).
  induction n' as [|n' IH]; intros i Hi Hn'; [lia|]. cbn [seek_last].
  rewrite (plain_it_field E _ a size Hplain d i Hi). cbn [mbind option_bind].
  rewrite (next_at E a fs He Ht Hne d i Hi). cbn [mbind option_bind fst snd].
  unfold succ_pos. case_bool_decide as Hs.
  - rewrite decide_True by done. apply IH; lia.
  - rewrite decide_False by done. rewrite it_required_at.
    by replace (pred (entries fs)) with i by lia.
Qed.

Lemma finish_at i0 s c :
  (i0 < entries fs)%nat ->
  decode_finish E fcs (loop_at i0 (required_before fs (entries fs))) s c = Ret (true, s, c).
Proof.
  destruct plain_facts as (He & Ht & Hne & Hlen & _ & _ & Hf). intros Hi0.
  unfold decode_finish. erewrite bind_ret by done. cbv iota.
  cbn [loop_at ls_iter]. change (it_start (at_ i0)) with a. rewrite seek_last_at; [|done|].
  2:{ rewrite (iter_fuel_entries E a fs He Ht Hne). lia. }
  erewrite bind_ret by done. cbv beta iota.
  rewrite (plain_it_field E _ a size Hplain d 0) by lia. erewrite bind_ret by done.
  destruct (plain_field_inv _ _ (Hf 0%nat ltac:(lia))) as (_ & Htag & _).
  rewrite (proj2 (Z.eqb_neq (tag (nth_field fs 0)) 0)) by lia. cbn [negb]. rewrite andb_true_r.
  pose proof (required_before_S E a fs He Ht Hne (pred (entries fs)) ltac:(lia)) as Hr.
  replace (S (pred (entries fs))) with (entries fs) in Hr by lia.
  pose proof (required_before_range fs (entries fs)) as Hrange.
  pose proof (required_before_range fs (pred (entries fs))).
  assert (Hcount : (if PB_HTYPE (type (nth_field fs (pred (entries fs)))) =? PB_HTYPE_REQUIRED
                    then u32 (required_before fs (pred (entries fs)) + 1)
                    else required_before fs (pred (entries fs)))
                   = required_before fs (entries fs)).
  { destruct (_ =? _); [rewrite u32_small|]; lia. }
  rewrite Hcount. cbn [ls_fields_seen].
  replace (if PB_MAX_REQUIRED_FIELDS <? required_before fs (entries fs) then PB_MAX_REQUIRED_FIELDS
           else required_before fs (entries fs)) with (Z.min 64 (required_before fs (entries fs)))
    by (unfold PB_MAX_REQUIRED_FIELDS; case_bool; lia).
  by rewrite seen_all by lia.
Qed.
End Message.

Lemma all_fields n a size d m c :
  plain E (S n) a size = true -> length m = entries (fields_of E a) ->
  half_read n a size d (entries (fields_of E a)) m c ->
  message_at E (S n) (heap c) a d = Some m.
Proof.
  intros Hp Hlen (_ & _ & Hdone & _). cbn [message_at]. apply mapM_Some, Forall2_same_length_lookup.
  rewrite length_seq. split; [done|]. intros i j vs [-> Hj]%lookup_seq Hvs. by apply Hdone.
Qed.

Lemma noinit_body_takes fuel n rec a size d m c :
  plain E (S n) a size = true -> 0 < d -> typed_message E (S n) a m = true ->
  let w := message_wire E (fields_of E a) m in
  Z.of_nat (length w) < 2 ^ 32 -> ready c -> storage c d size -> blank E (S n) (heap c) a d ->
  (forall i, (i < entries (fields_of E a))%nat ->
     submessages_decoded E h0 lo hi fuel n rec (nth_field (fields_of E a) i)) ->
  takes_all (decode_noinit_body E fuel rec a d) w (range d size) c
    (fun c' => message_at E (S n) (heap c') a d = Some m).
Proof.
  intros Hp Hd Hty w Hw Hc Hst Hb Hsubs s Hs Hleft.
  destruct (plain_facts n a size Hp) as (He & Ht & Hne & _ & _ & Hl & Hf).
  pose proof (entries_length E a _ He Ht Hne) as Hel.
  assert (Hlen : length m = entries (fields_of E a)).
  { cbn [typed_message] in Hty. by apply andb_true_iff in Hty as [?%Nat.eqb_eq _]. }
  destruct (stack_alloc_kept (range d size) c 4 s ltac:(lia)) as (c1 & H1 & Hk1 & Hm1 & Hb1).
  assert (Hsto : storage c1 (brk c) 4).
  { split_and!; [done|done|]. intros x Hx Hx'. destruct Hc as [Hc _]. unfold range in Hx. lia. }
  destruct (store_storage lo hi c1 (brk c) 4 0 s Hsto) as (c2 & H2 & Hk2 & _).
  pose proof (kept_above _ _ _ _ _ Hk1 Hk2) as Hk12.
  assert (Hagree : agree (heap c) (heap c2) d size).
  { intros x Hx. destruct Hst as (_ & Hbd & _).
    assert (Hk' : kept (fun _ => False) c c2).
    { destruct (stack_alloc_kept (fun _ => False) c 4 s ltac:(lia)) as (c1' & H1' & Hk1' & _).
      rewrite H1 in H1'. injection H1' as <-. by eapply kept_above. }
    symmetry. eapply kept_same; [exact Hk'|lia|tauto]. }
  assert (Hw0 : w = wire_from a 0 m).
  { unfold w. rewrite <-(wire_from_drop a m 0) by lia. done. }
  destruct (loop_message fuel n rec a size d (brk c) Hp Hd Hsubs m [] c2 0%nat (Z.to_nat (is_bytes_left s)) s)
    as (i1 & k1 & c3 & H3 & Hi1 & Hk3 & Hhalf); try done.
  - split_and!.
    + by eapply ready_kept; [apply Hst| |].
    + by eapply storage_kept.
    + by intros j vs _ ?%Nat.nlt_0_r.
    + intros j Hj. eapply blank_agree in Hb; [|exact Hp|exact Hagree]. apply Hb. simpl in Hj. lia.
  - lia.
  - simpl. rewrite <-Hw0. lia.
  - simpl. by rewrite <-Hw0.
  - simpl. rewrite <-Hw0. lia.
  - simpl in H3, Hhalf. rewrite <-Hw0 in H3. rewrite Hlen in H3, Hhalf.
    destruct (stack_free_kept (range d size) c c3 4 (is_took s (Z.of_nat (length w))))
      as (c4 & H4 & Hk4 & Hsame).
    { by eapply kept_trans. }
    exists c4. split_and!; [|done|].
    + unfold decode_noinit_body. erewrite bind_ret by exact H1. erewrite bind_ret by exact H2.
      rewrite (begin_at E a _ He Ht Hne d). erewrite bind_ret by done. erewrite bind_ret by done.
      cbn [snd]. erewrite bind_ret.
      2:{ change (mk_loop_state (iter_at (fields_of E a) a d 0) [0; 0] 0 None)
            with (loop_at a d 0 (required_before (fields_of E a) 0)).
          rewrite H3. destruct k1 as [|k1]; cbn [decode_loop]; erewrite bind_ret by done;
            rewrite left_took, Hleft, Z.sub_diag; done. }
      cbv beta iota. erewrite bind_ret by by apply (finish_at n a size d (brk c)).
      by erewrite bind_ret by exact H4.
    + etransitivity; [|exact (all_fields n a size d m c3 Hp Hlen Hhalf)].
      eapply message_at_agree; [exact Hp|]. intros x Hx. apply Hsame.
      destruct Hst as (_ & Hbd & _). lia.
Qed.

(** ** The initialisation of the destination *)

Lemma memset_storage {St} c p b n (s : St) :
  0 <= n -> storage c p n ->
  exists c', memset p b (Z.to_nat n) s c = Ret (tt, s, c') /\ kept (range p n) c c'.
Proof.
  intros Hn Hs. pose proof (write_storage lo hi c p (replicate (Z.to_nat n) b) s) as H.
  rewrite length_replicate, Z2Nat.id in H by lia. destruct (H Hs) as (c' & H1 & H2 & _). by exists c'.
Qed.

Section Defaults.
Context {St : Type} (fuel n : nat) (a size d : Z).
Hypothesis Hplain : plain E (S n) a size = true.
Hypothesis Hd : 0 < d.
Local Notation fs := (fields_of E a).
Local Notation at_ i := (iter_at fs a d i).

(** The messages nested in this one are made blank. *)
Hypothesis Hnested : forall b size' q c (s : St),
  plain E n b size' = true -> 0 < q -> storage c q size' ->
  exists c', pb_message_set_to_defaults E fuel b q s c = Ret (tt, s, c')
    /\ kept (range q size') c c' /\ blank E n (heap c') b q.

(** The data of a field that is not repeated. *)
Lemma init_data f q c (s : St) :
  plain_field (plain E n) f = true -> is_repeated f = false -> 0 < q -> storage c q (data_size f) ->
  exists c',
    (if PB_LTYPE (type f) =? PB_LTYPE_SUBMESSAGE
     then message_set_to_defaults E (pb_field_set_to_default E fuel) (ptr f) q
     else if negb (ptr f =? 0) then memcpy q (ptr f) (Z.to_nat (data_size f))
     else memset q 0 (Z.to_nat (data_size f))) s c = Ret (tt, s, c')
    /\ kept (range q (data_size f)) c c'
    /\ (PB_LTYPE (type f) = PB_LTYPE_SUBMESSAGE -> blank E n (heap c') (ptr f) q).
Proof.
  intros Hf Hr Hq Hs. destruct (plain_field_inv _ _ Hf) as (_ & _ & Hsz & _ & Hsub & Hptr).
  pose proof (data_size_pos f Hsz). case_bool.
  - destruct (Hsub ltac:(done)) as [_ Hps]. destruct (Hnested (ptr f) _ q c s Hps Hq Hs) as (c' & H1 & H2 & H3).
    by exists c'.
  - rewrite Hptr by done. cbn [Z.eqb negb].
    destruct (memset_storage c q 0 (data_size f) s ltac:(lia) Hs) as (c' & H1 & H2). by exists c'.
Qed.

Lemma field_set_to_default_blank i c (s : St) :
  (i < entries fs)%nat -> storage c d size ->
  exists c', pb_field_set_to_default E (S fuel) (at_ i) s c = Ret (tt, s, c')
    /\ kept (field_range (nth_field fs i) (data_ptr fs d i)) c c'
    /\ blank_field (blank E n (heap c')) (heap c') (nth_field fs i) (data_ptr fs d i).
Proof.
  intros Hi Hst. destruct (plain_facts n a size Hplain) as (_ & _ & _ & _ & _ & Hl & Hf).
  specialize (Hf i Hi). pose proof (plain_it_field E _ a size Hplain d i Hi) as Hit.
  pose proof (size_at E _ a size Hplain d i Hd Hi) as Hps. pose proof (data_at fs a d i Hd) as Hpd.
  pose proof (data_ptr_low fs size Hl d i Hi) as Hlow.
  destruct (layout_field fs size Hl i Hi) as (Hin & _).
  pose proof (Hin _ (or_introl eq_refl)) as Hdata. pose proof (Hin _ (or_intror (or_introl eq_refl))) as Hflag.
  simpl in Hdata, Hflag.
  pose proof (fun x => flag_not_data fs size Hl d i x Hi) as Hap. unfold in_flag, in_data in Hap. cbv zeta in Hap.
  assert (Hs1 : storage c (data_ptr fs d i) (width (nth_field fs i))).
  { rewrite data_ptr_shift. eapply storage_sub; [exact Hst|lia|lia]. }
  assert (Hs2 : storage c (data_ptr fs d i + size_offset (nth_field fs i)) (flag_width (nth_field fs i))).
  { rewrite data_ptr_shift. eapply storage_sub; [exact Hst|lia|lia]. }
  set (f := nth_field fs i) in *. set (p := data_ptr fs d i) in *.
  destruct (plain_field_inv _ _ Hf) as (Hstat & _ & Hsz & Hpr & _).
  cbn [pb_field_set_to_default]. rewrite Hit. erewrite bind_ret by done. cbv zeta.
  rewrite (not_extension f Hsz), Hstat. change (PB_ATYPE_STATIC =? PB_ATYPE_STATIC) with true. cbv iota.
  rewrite Hps, Hpd. fold (is_optional f) (is_repeated f). rewrite (not_oneof f Hpr), orb_false_r.
  unfold field_range, width, flag_width in *.
  destruct (presence_cases f Hpr) as [(Hr & Ho & Hnr)|[(Hr & Ho & Hnr & Hso)|(Hr & Ho & Hnr & Hso & _)]];
    rewrite Ho, Hnr in *; cbn [andb].
  - erewrite bind_ret by done. cbv iota.
    destruct (init_data f p c s Hf Hnr ltac:(lia) Hs1) as (c' & H1 & H2 & H3).
    exists c'. split_and!; [exact H1| |by split_and!; [congruence|congruence|]].
    eapply kept_weaken; [|exact H2]. auto.
  - destruct (Z.eqb_spec (p + size_offset f) p); [lia|]. cbn [negb].
    destruct (store_storage lo hi c (p + size_offset f) 1 0 s Hs2) as (c1 & H1 & Hk1 & Hr1).
    erewrite bind_ret by (erewrite bind_ret by exact H1; done). cbv iota.
    destruct (init_data f p c1 s Hf Hnr ltac:(lia)) as (c2 & H2 & Hk2 & H3); [by eapply storage_kept|].
    exists c2. split_and!; [exact H2| |].
    + eapply kept_trans; (eapply kept_weaken; [|eassumption]); auto.
    + split_and!; [|congruence|auto]. intros _.
      rewrite (kept_same _ _ _ Hk2).
      * cbn in Hr1. by destruct (heap c1 !! (p + size_offset f)); [injection Hr1 as ->|].
      * pose proof (kept_brk _ _ _ Hk1). destruct Hs2 as (_ & ? & _). lia.
      * intros Hx. apply (Hap (p + size_offset f)); [lia|exact Hx].
  - destruct (store_storage lo hi c (p + size_offset f) 4 0 s Hs2) as (c1 & H1 & Hk1 & Hr1).
    erewrite bind_ret by (erewrite bind_ret by exact H1; done). cbv iota.
    exists c1. split_and!; [done| |].
    + eapply kept_weaken; [|exact Hk1]. auto.
    + split_and!; [congruence|done|congruence].
Qed.

Lemma message_defaults_loop k : forall i c (s : St),
  (i < entries fs)%nat -> (entries fs - i <= k)%nat -> storage c d size ->
  (forall j, (j < i)%nat -> blank_field (blank E n (heap c)) (heap c) (nth_field fs j) (data_ptr fs d j)) ->
  exists c',
    iter_do_while E k (fun it => _ ← pb_field_set_to_default E (S fuel) it; mret true) (at_ i) s c
    = Ret (true, s, c')
    /\ kept (range d size) c c' /\ blank E (S n) (heap c') a d.
Proof.
  destruct (plain_facts n a size Hplain) as (He & Ht & Hne & _ & _ & Hl & _).
  induction k as [|k IH]; intros i c s Hi Hk Hst Hb; [lia|]. cbn [iter_do_while].
  destruct (field_set_to_default_blank i c s Hi Hst) as (c1 & H1 & Hk1 & Hb1).
  assert (Hkept : kept (range d size) c c1).
  { eapply kept_weaken; [|exact Hk1]. intros x Hx. by apply (owns_inside fs size Hl d i x Hi). }
  assert (Hb' : forall j, (j < S i)%nat ->
            blank_field (blank E n (heap c1)) (heap c1) (nth_field fs j) (data_ptr fs d j)).
  { intros j Hj. destruct (decide (j = i)) as [->|Hne']; [done|].
    apply (other_field n a size d Hplain i j c c1); try done; [lia|]. apply Hb. lia. }
  erewrite bind_ret by (erewrite bind_ret by exact H1; done). cbv iota.
  rewrite (next_at E a fs He Ht Hne d i Hi). erewrite bind_ret by done. cbn [fst snd].
  unfold succ_pos. case_bool_decide as Hs.
  - rewrite decide_True by done.
    destruct (IH (S i) c1 s Hs ltac:(lia)) as (c2 & H2 & Hk2 & Hb2); [by eapply storage_kept|done|].
    exists c2. split_and!; [done|by eapply kept_trans|done].
  - exists c1. split_and!; [done|done|]. intros j Hj. apply Hb'. lia.
Qed.
End Defaults.

Lemma set_to_defaults_blank {St} n : forall fuel a size d c (s : St),
  (n <= fuel)%nat -> plain E n a size = true -> 0 < d -> storage c d size ->
  exists c', pb_message_set_to_defaults E fuel a d s c = Ret (tt, s, c')
    /\ kept (range d size) c c' /\ blank E n (heap c') a d.
Proof.
  induction n as [|n IH]; intros fuel a size d c s Hfuel Hp Hd Hs; [done|].
  destruct fuel as [|fuel]; [lia|].
  destruct (plain_facts n a size Hp) as (He & Ht & Hne & _).
  unfold pb_message_set_to_defaults, message_set_to_defaults.
  rewrite (begin_at E a _ He Ht Hne d). erewrite bind_ret by done. cbn [fst snd negb].
  assert (Hnest : forall b size' q c (s : St),
    plain E n b size' = true -> 0 < q -> storage c q size' ->
    exists c', pb_message_set_to_defaults E fuel b q s c = Ret (tt, s, c')
      /\ kept (range q size') c c' /\ blank E n (heap c') b q).
  { intros b size' q c0 s0 Hb Hq Hst. apply IH; [lia|done..]. }
  destruct (message_defaults_loop fuel n a size d Hp Hd Hnest (iter_fuel E a) 0%nat c s)
    as (c' & H1 & H2 & H3).
  - lia.
  - rewrite (iter_fuel_entries E a _ He Ht Hne). lia.
  - done.
  - intros j Hj. lia.
  - exists c'. split_and!; [|done|done]. by erewrite bind_ret by exact H1.
Qed.

(** ** The decoder *)

(** Initialising the destination, and decoding into it. *)
Lemma takes_with fuel n rec a size d c w (Q : cstate -> Prop) :
  (n <= fuel)%nat -> plain E n a size = true -> 0 < d -> ready c -> storage c d size ->
  (forall c1, ready c1 -> storage c1 d size -> blank E n (heap c1) a d ->
     takes_all (rec a d) w (range d size) c1 Q) ->
  takes_all (pb_decode_with E fuel rec a d) w (range d size) c Q.
Proof.
  intros Hfuel Hp Hd Hc Hst Hrec s Hs Hleft.
  destruct (set_to_defaults_blank n fuel a size d c s Hfuel Hp Hd Hst) as (c1 & H1 & Hk1 & Hb1).
  destruct (Hrec c1) with (s := s) as (c2 & H2 & Hk2 & HQ); try done.
  - eapply ready_kept; [apply Hst|done|exact Hk1].
  - by eapply storage_kept.
  - exists c2. split_and!; [|by eapply kept_trans|done].
    unfold pb_decode_with. erewrite bind_ret by exact H1. erewrite bind_ret by exact H2. done.
Qed.

Lemma pb_decode_noinit_takes n : forall fuel a size d m c,
  (n <= fuel)%nat -> plain E n a size = true -> 0 < d -> typed_message E n a m = true ->
  let w := message_wire E (fields_of E a) m in
  Z.of_nat (length w) < 2 ^ 32 -> ready c -> storage c d size -> blank E n (heap c) a d ->
  takes_all (pb_decode_noinit E fuel a d) w (range d size) c
    (fun c' => message_at E n (heap c') a d = Some m).
Proof.
  induction n as [|n IH]; intros fuel a size d m c Hfuel Hp Hd Hty w Hw Hc Hst Hb; [done|].
  destruct fuel as [|fuel]; [lia|]. cbn [pb_decode_noinit].
  apply noinit_body_takes; try done. intros i Hi Ht.
  destruct (plain_facts n a size Hp) as (_ & _ & _ & _ & _ & _ & Hf).
  destruct (plain_field_inv _ _ (Hf i Hi)) as (_ & _ & _ & _ & Hsub & _).
  destruct (Hsub Ht) as [Hptr Hps]. split; [done|].
  intros m' q c' w' Hty' Hw' Hq Hst' Hc' Hb'.
  destruct (is_repeated (nth_field (fields_of E a) i)).
  - eapply takes_with; [|exact Hps|done|done|done|]; [lia|].
    intros c1 Hc1 Hst1 Hb1. apply IH; try done. lia.
  - apply IH; try done; [lia|auto].
Qed.

Lemma pb_decode_takes n fuel a size d m c :
  (n <= fuel)%nat -> plain E n a size = true -> 0 < d -> typed_message E n a m = true ->
  let w := message_wire E (fields_of E a) m in
  Z.of_nat (length w) < 2 ^ 32 -> ready c -> storage c d size ->
  takes_all (pb_decode E fuel a d) w (range d size) c
    (fun c' => message_at E n (heap c') a d = Some m).
Proof.
  intros Hfuel Hp Hd Hty w Hw Hc Hst. unfold pb_decode.
  eapply takes_with; [exact Hfuel|exact Hp|done|done|done|].
  intros c1 Hc1 Hst1 Hb1. by apply pb_decode_noinit_takes.
Qed.
End Read.
