(* ===== verification/PbMessageRoundtrip.v ===== *)
(** * nanopb: messages go through the wire and back

    The encoder and the decoder against the wire format, and so one after the other, on any
    plain descriptor: [pb_encode], [pb_get_encoded_size] and [pb_decode] of a structure with
    nested and repeated fields. *)
From S2P Require Export PbMessageEncode PbMessageRead.

(** Two blocks of memory with no byte in common. *)
Definition separate (p n q m : Z) : Prop := p + n <= q \/ q + m <= p.

Section Messages.
Context (E : pb_env) (n fuel : nat) (fields size : Z).
Hypothesis Hplain : plain E n fields size = true.
Hypothesis Hfuel : (n <= fuel)%nat.

Lemma encode_message src m buf bufsize c :
  0 < src -> bytes_heap c -> message_at E n (heap c) fields src = Some m ->
  let w := message_wire E (fields_of E fields) m in
  Z.of_nat (length w) <= bufsize < 2 ^ 64 -> mapped (heap c) buf bufsize ->
  separate src size buf bufsize ->
  exists h,
    pb_encode E fuel fields src (pb_ostream_from_buffer buf bufsize) c
    = Ret (true, os_wrote (pb_ostream_from_buffer buf bufsize) (Z.of_nat (length w)), set_heap c h)
    /\ write_bytes (heap c) buf w = Some h.
Proof.
  intros Hsrc Hc Hm w Hw Hbuf Hsep.
  assert (Hemits : emits (heap c) buf (buf + bufsize) (pb_encode E fuel fields src) w).
  { eapply (pb_encode_emits E (heap c) buf (buf + bufsize) Hc n); [done|exact Hplain|done| |done].
    intros x Hx Hx'. unfold separate in Hsep. lia. }
  destruct (Hemits (pb_ostream_from_buffer buf bufsize) c) as (c' & H1 & h & Hh & ->).
  - by intros x Hx.
  - split; [done|]. right. split_and!; [apply os_room_buffer; [lia|lia|done]|simpl; lia|simpl; lia].
  - exists h. rewrite H1. done.
Qed.

Lemma decode_message dest m buf c :
  0 < dest -> typed_message E n fields m = true ->
  let w := message_wire E (fields_of E fields) m in
  Z.of_nat (length w) < 2 ^ 32 -> mem_at (heap c) buf w -> mapped (heap c) dest size ->
  buf + Z.of_nat (length w) <= brk c -> dest + size <= brk c ->
  separate dest size buf (Z.of_nat (length w)) ->
  exists s' c',
    pb_decode E fuel fields dest (pb_istream_from_buffer buf (Z.of_nat (length w))) c
    = Ret (true, s', c')
    /\ is_bytes_left s' = 0 /\ message_at E n (heap c') fields dest = Some m
    /\ forall x, x < brk c -> ~ (dest <= x < dest + size) -> heap c' !! x = heap c !! x.
Proof.
  intros Hdest Hty w Hw Hbuf Hmap Hb1 Hb2 Hsep.
  destruct (pb_decode_takes E (heap c) buf (buf + Z.of_nat (length w)) n fuel fields size dest m c
              Hfuel Hplain Hdest Hty Hw) with (s := pb_istream_from_buffer buf (Z.of_nat (length w)))
    as (c' & H1 & Hk & Hm).
  - by split.
  - split_and!; [done|done|]. intros x Hx Hx'. unfold range, separate in *. lia.
  - split_and!; simpl; try done; lia.
  - done.
  - eexists _, c'. split_and!; [exact H1|rewrite left_took; apply Z.sub_diag|done|].
    intros x Hx Hx'. eapply kept_same; [exact Hk|done|exact Hx'].
Qed.

(** C2. The encoder writes the Protocol Buffers encoding. For a plain descriptor (static
    fields with explicit presence, of any type, nested to a finite depth) and a structure in
    memory that holds the message [m], [pb_encode] to a buffer with room writes exactly the
    bytes [message_wire m] at its start and nothing else, and [pb_get_encoded_size] gives
    their number. *)
Theorem pb_encode_writes_wire src m buf bufsize c :
  0 < src -> bytes_heap c -> message_at E n (heap c) fields src = Some m ->
  let w := message_wire E (fields_of E fields) m in
  Z.of_nat (length w) <= bufsize < 2 ^ 64 -> mapped (heap c) buf bufsize ->
  separate src size buf bufsize ->
  exists os c',
    pb_encode E fuel fields src (pb_ostream_from_buffer buf bufsize) c = Ret (true, os, c')
    /\ os_bytes_written os = Z.of_nat (length w) /\ mem_at (heap c') buf w
    /\ (forall x, ~ (buf <= x < buf + Z.of_nat (length w)) -> heap c' !! x = heap c !! x)
    /\ pb_get_encoded_size E fuel fields src tt c = Ret (Some (Z.of_nat (length w)), tt, c).
Proof.
  intros Hsrc Hc Hm w Hw Hbuf Hsep.
  destruct (encode_message src m buf bufsize c Hsrc Hc Hm Hw Hbuf Hsep) as (h & H1 & H2).
  eexists _, _. split_and!; [exact H1|done|by apply read_write_bytes in H2| |].
  - intros x Hx. by apply (write_bytes_outside _ _ _ _ x H2).
  - unfold pb_get_encoded_size. erewrite bind_ret; [|apply run_with_ret, (sizing_emits (heap c) buf (buf + bufsize) _ w)];
      [done| |by intros x Hx|fold w; lia].
    eapply (pb_encode_emits E (heap c) buf (buf + bufsize) Hc n); [done|exact Hplain|done| |done].
    intros x Hx Hx'. unfold separate in Hsep. lia.
Qed.

(** C3. The decoder reads the Protocol Buffers encoding. For a plain descriptor and any
    message [m] of its type, [pb_decode] of the bytes [message_wire m] succeeds and uses them
    all; the destination then holds [m], whatever was in it before, and no other mapped
    memory has changed. *)
Theorem pb_decode_reads_wire dest m buf c :
  0 < dest -> typed_message E n fields m = true ->
  let w := message_wire E (fields_of E fields) m in
  Z.of_nat (length w) < 2 ^ 32 -> mem_at (heap c) buf w -> mapped (heap c) dest size ->
  buf + Z.of_nat (length w) <= brk c -> dest + size <= brk c ->
  separate dest size buf (Z.of_nat (length w)) ->
  exists s' c',
    pb_decode E fuel fields dest (pb_istream_from_buffer buf (Z.of_nat (length w))) c
    = Ret (true, s', c')
    /\ is_bytes_left s' = 0 /\ message_at E n (heap c') fields dest = Some m
    /\ forall x, x < brk c -> ~ (dest <= x < dest + size) -> heap c' !! x = heap c !! x.
Proof. exact (decode_message dest m buf c). Qed.

(** C1. Messages survive the codec: for a plain descriptor, a structure that holds a message
    [m] is encoded by [pb_encode], and decoding the bytes written with [pb_decode] succeeds,
    uses them all, and leaves a structure that holds the same [m]: every number, string,
    array, optional field and submessage of it, absent ones included. *)
Theorem pb_message_roundtrip src dest m buf bufsize c :
  0 < src -> 0 < dest -> bytes_heap c -> message_at E n (heap c) fields src = Some m ->
  let w := message_wire E (fields_of E fields) m in
  Z.of_nat (length w) <= bufsize < 2 ^ 64 -> Z.of_nat (length w) < 2 ^ 32 ->
  mapped (heap c) buf bufsize -> mapped (heap c) dest size ->
  buf + Z.of_nat (length w) <= brk c -> dest + size <= brk c ->
  separate src size buf bufsize -> separate dest size buf bufsize ->
  exists os c1 si c2,
    pb_encode E fuel fields src (pb_ostream_from_buffer buf bufsize) c = Ret (true, os, c1)
    /\ pb_decode E fuel fields dest (pb_istream_from_buffer buf (os_bytes_written os)) c1
       = Ret (true, si, c2)
    /\ is_bytes_left si = 0 /\ message_at E n (heap c2) fields dest = Some m.
Proof.
  intros Hsrc Hdest Hc Hm w Hw Hw32 Hbuf Hmap Hb1 Hb2 Hsep1 Hsep2.
  destruct (encode_message src m buf bufsize c Hsrc Hc Hm Hw Hbuf Hsep1) as (h & H1 & H2).
  pose proof (message_at_typed E c Hc n fields size src m Hplain Hm) as Hty.
  destruct (decode_message dest m buf (set_heap c h) Hdest Hty Hw32) as (si & c2 & H3 & H4 & H5 & _);
    [by apply read_write_bytes in H2|by eapply mapped_write|done|done| |].
  - unfold separate in *. fold w. lia.
  - eexists _, _, si, c2. split_and!; [exact H1|exact H3|done|done].
Qed.
End Messages.

(** ** A line of two points, and a flag *)

Definition line_desc : Z := 3000.
Definition line_fields : list pb_field_t :=
  [ mk_field 1 (PB_HTYPE_REQUIRED + PB_LTYPE_SUBMESSAGE) 0 0 36 0 point_desc;
    mk_field 2 (PB_HTYPE_OPTIONAL + PB_LTYPE_BOOL) 1 (-1) 1 0 0;
    mk_field 3 (PB_HTYPE_OPTIONAL + PB_LTYPE_FIXED64) 2 (-2) 8 0 0;
    end_field ].
Definition line_env : pb_env := no_callbacks {[ point_desc := point_fields; line_desc := line_fields ]}.

(** The point of [ex_mem], and the flag behind it. *)
Definition line_mem : cstate :=
  state_of ((_ ← store 1 136 1; store 1 137 1) tt ex_mem) ex_mem.

Definition line_value : message :=
  [ [ Msg [[Num 300]; [Num (-5)]; [Num 7; Num 70000]; [Str [104; 105]]] ]; [Num 1]; [] ].

Lemma line_plain : plain line_env 2 line_desc 49 = true.
Proof. by vm_compute. Qed.

Lemma line_message : message_at line_env 2 (heap line_mem) line_desc ex_src = Some line_value.
Proof. by vm_compute. Qed.

Lemma line_bytes : bytes_heap line_mem.
Proof.
  assert (H : map_Forall (fun _ b => is_byte b) (heap line_mem)) by (apply (bool_decide_unpack _); by vm_compute).
  exact H.
Qed.

Lemma line_mapped p : p = ex_buf \/ p = ex_dest -> mapped (heap line_mem) p 64.
Proof. intros [-> | ->]; apply (bool_decide_unpack _); by vm_compute. Qed.

Lemma line_wire_size :
  length (message_wire line_env (fields_of line_env line_desc) line_value) = 21%nat.
Proof. by vm_compute. Qed.

Lemma pb_encode_writes_wire_witness :
  exists os c',
    pb_encode line_env 2 line_desc ex_src (pb_ostream_from_buffer ex_buf 64) line_mem = Ret (true, os, c')
    /\ mem_at (heap c') ex_buf (message_wire line_env (fields_of line_env line_desc) line_value).
Proof.
  destruct (pb_encode_writes_wire line_env 2 2 line_desc 49 line_plain (le_n 2) ex_src line_value ex_buf 64
              line_mem) as (os & c' & H1 & _ & H2 & _); [unfold ex_src; lia|exact line_bytes|exact line_message| | | |].
  - rewrite line_wire_size. lia.
  - apply line_mapped. by left.
  - left. unfold ex_src, ex_buf. lia.
  - exact (ex_intro _ os (ex_intro _ c' (conj H1 H2))).
Defined.

Lemma line_typed : typed_message line_env 2 line_desc line_value = true.
Proof. by vm_compute. Qed.

(** The encoding of the line, in the output buffer. *)
Definition line_wire_mem : cstate :=
  set_heap line_mem
    (default ∅ (write_bytes (heap line_mem) ex_buf
                  (message_wire line_env (fields_of line_env line_desc) line_value))).

Lemma pb_decode_reads_wire_witness :
  exists s' c',
    pb_decode line_env 2 line_desc ex_dest (pb_istream_from_buffer ex_buf 21) line_wire_mem
    = Ret (true, s', c')
    /\ message_at line_env 2 (heap c') line_desc ex_dest = Some line_value.
Proof.
  pose proof (pb_decode_reads_wire line_env 2 2 line_desc 49 line_plain (le_n 2) ex_dest line_value ex_buf
                line_wire_mem) as H.
  cbv zeta in H. rewrite line_wire_size in H.
  destruct H as (s' & c' & H1 & _ & H2 & _); [unfold ex_dest; lia|exact line_typed|lia| | | | | |].
  - by vm_compute.
  - intros x Hx. destruct (line_mapped ex_dest (or_intror eq_refl) x ltac:(lia)) as [b Hb].
    assert (Hw : exists h, write_bytes (heap line_mem) ex_buf
                   (message_wire line_env (fields_of line_env line_desc) line_value) = Some h).
    { apply write_bytes_mapped. intros y Hy. rewrite line_wire_size in Hy.
      apply (line_mapped ex_buf (or_introl eq_refl)). lia. }
    destruct Hw as [h Hw]. unfold line_wire_mem. rewrite Hw. simpl.
    apply (write_bytes_dom _ _ _ _ x Hw). by exists b.
  - by vm_compute.
  - by vm_compute.
  - right. unfold ex_dest, ex_buf. lia.
  - exact (ex_intro _ s' (ex_intro _ c' (conj H1 H2))).
Defined.

Lemma pb_message_roundtrip_witness :
  exists os c1 si c2,
    pb_encode line_env 2 line_desc ex_src (pb_ostream_from_buffer ex_buf 64) line_mem = Ret (true, os, c1)
    /\ pb_decode line_env 2 line_desc ex_dest (pb_istream_from_buffer ex_buf (os_bytes_written os)) c1
       = Ret (true, si, c2)
    /\ is_bytes_left si = 0 /\ message_at line_env 2 (heap c2) line_desc ex_dest = Some line_value.
Proof.
  apply (pb_message_roundtrip line_env 2 2 line_desc 49 line_plain (le_n 2) ex_src ex_dest line_value ex_buf
           64 line_mem); [unfold ex_src; lia|unfold ex_dest; lia|exact line_bytes|exact line_message| | | | | | | | ].
  - rewrite line_wire_size. lia.
  - rewrite line_wire_size. lia.
  - apply line_mapped. by left.
  - intros x Hx. apply (line_mapped ex_dest (or_intror eq_refl)). lia.
  - rewrite line_wire_size. by vm_compute.
  - by vm_compute.
  - left. unfold ex_src, ex_buf. lia.
  - right. unfold ex_dest, ex_buf. lia.
Defined.
