(* ===== verification/PosixTime.v ===== *)
(** * BoringSSL: crypto/asn1/posix_time.c

    The conversions between POSIX time and broken-down UTC time. The divisions
    are C's, which truncate: [Z.quot] and [Z.rem]. A function that returns 1 with
    its outputs, or 0, is an [option]. *)
From S2P Require Export Prelude.

Definition SECS_PER_HOUR : Z := 60 * 60.
Definition SECS_PER_DAY : Z := 24 * SECS_PER_HOUR.

(** The days of [is_valid_date]'s switch; [0] is its default. *)
Definition month_days (year month : Z) : Z :=
  if (month =? 1) || (month =? 3) || (month =? 5) || (month =? 7) || (month =? 8)
     || (month =? 10) || (month =? 12) then 31
  else if (month =? 4) || (month =? 6) || (month =? 9) || (month =? 11) then 30
  else if month =? 2 then
    if ((Z.rem year 4 =? 0) && negb (Z.rem year 100 =? 0)) || (Z.rem year 400 =? 0)
    then 29 else 28
  else 0.

Definition is_valid_date (year month day : Z) : bool :=
  if (day <? 1) || (month <? 1) || (year <? 0) || (9999 <? year) then false
  else (0 <? day) && (day <=? month_days year month).

Definition is_valid_time (hours minutes seconds : Z) : bool :=
  negb ((hours <? 0) || (minutes <? 0) || (seconds <? 0) || (23 <? hours) || (59 <? minutes)
        || (59 <? seconds)).

Definition MIN_POSIX_TIME : Z := -62167219200.
Definition MAX_POSIX_TIME : Z := 253402300799.

Definition is_valid_posix_time (time : Z) : bool :=
  (MIN_POSIX_TIME <=? time) && (time <=? MAX_POSIX_TIME).

Definition posix_time_from_utc (year month day hours minutes seconds : Z) : option Z :=
  if negb (is_valid_date year month day) || negb (is_valid_time hours minutes seconds)
  then None
  else
    (* Start years on Mar 1, so leap days always finish a year. *)
    let year := if month <=? 2 then year - 1 else year in
    let era := Z.quot (if 0 <=? year then year else year - 399) 400 in
    let year_of_era := year - era * 400 in
    let day_of_year :=
      Z.quot (153 * (if 2 <? month then month - 3 else month + 9) + 2) 5 + day - 1 in
    let day_of_era :=
      year_of_era * 365 + Z.quot year_of_era 4 - Z.quot year_of_era 100 + day_of_year in
    let posix_days := era * 146097 + day_of_era - 719468 in
    Some (posix_days * SECS_PER_DAY + hours * SECS_PER_HOUR + minutes * 60 + seconds).

(** The six outputs of [utc_from_posix_time]. *)
Record utc_time := mk_utc {
  utc_year : Z; utc_month : Z; utc_day : Z;
  utc_hours : Z; utc_minutes : Z; utc_seconds : Z
}.

Definition utc_from_posix_time (time : Z) : option utc_time :=
  if negb (is_valid_posix_time time) then None
  else
    let days := Z.quot time SECS_PER_DAY in
    let leftover_seconds := Z.rem time SECS_PER_DAY in
    let '(days, leftover_seconds) :=
      if leftover_seconds <? 0 then (days - 1, leftover_seconds + SECS_PER_DAY)
      else (days, leftover_seconds) in
    let days := days + 719468 in
    let era := Z.quot (if 0 <? days then days else days - 146096) 146097 in
    let day_of_era := days - era * 146097 in
    let year_of_era :=
      Z.quot (day_of_era - Z.quot day_of_era 1460 + Z.quot day_of_era 36524
              - Z.quot day_of_era 146096) 365 in
    let out_year := year_of_era + era * 400 in
    let day_of_year :=
      day_of_era - (365 * year_of_era + Z.quot year_of_era 4 - Z.quot year_of_era 100) in
    let month_of_year := Z.quot (5 * day_of_year + 2) 153 in
    let out_month := if month_of_year <? 10 then month_of_year + 3 else month_of_year - 9 in
    let out_year := if out_month <=? 2 then out_year + 1 else out_year in
    let out_day := day_of_year - Z.quot (153 * month_of_year + 2) 5 + 1 in
    let out_hours := Z.quot leftover_seconds SECS_PER_HOUR in
    let leftover_seconds := Z.rem leftover_seconds SECS_PER_HOUR in
    Some (mk_utc out_year out_month out_day out_hours
            (Z.quot leftover_seconds 60) (Z.rem leftover_seconds 60)).

(** The members of [struct tm] the library uses; their type is [int]. *)
Record tm := mk_tm {
  tm_year : Z; tm_mon : Z; tm_mday : Z; tm_hour : Z; tm_min : Z; tm_sec : Z
}.

Definition OPENSSL_tm_to_posix (t : tm) : option Z :=
  posix_time_from_utc (tm_year t + 1900) (tm_mon t + 1) (tm_mday t)
    (tm_hour t) (tm_min t) (tm_sec t).

Definition OPENSSL_posix_to_tm (time : Z) : option tm :=
  u ← utc_from_posix_time time;
  Some (mk_tm (utc_year u - 1900) (utc_month u - 1) (utc_day u)
          (utc_hours u) (utc_minutes u) (utc_seconds u)).

(** [time_t] is 64 bits wide on the targets: the 32-bit range check is dead. *)
Definition OPENSSL_timegm (t : tm) : option Z := OPENSSL_tm_to_posix t.

Definition OPENSSL_gmtime (time : Z) : option tm := OPENSSL_posix_to_tm time.

Definition INT64_MAX : Z := 2 ^ 63 - 1.
Definition INT64_MIN : Z := - 2 ^ 63.

(** The new value of [*tm]; [None] leaves it alone. *)
Definition OPENSSL_gmtime_adj (t : tm) (offset_day offset_sec : Z) : option tm :=
  posix_time ← OPENSSL_tm_to_posix t;
  let posix_time := posix_time + offset_day * SECS_PER_DAY in
  if (0 <? posix_time) && (INT64_MAX - posix_time <? offset_sec) then None
  else if (posix_time <? 0) && (offset_sec <? INT64_MIN - posix_time) then None
  else OPENSSL_posix_to_tm (posix_time + offset_sec).

(** [*out_days] and [*out_secs]. *)
Definition OPENSSL_gmtime_diff (from to : tm) : option (Z * Z) :=
  time_to ← OPENSSL_tm_to_posix to;
  time_from ← OPENSSL_tm_to_posix from;
  let timediff := time_to - time_from in
  Some (Z.quot timediff SECS_PER_DAY, Z.rem timediff SECS_PER_DAY).
