(* ===== verification/PosixTimeSpec.v ===== *)
(** * BoringSSL: POSIX time is Gregorian time

    [posix_time_from_utc] and [utc_from_posix_time] are inverse bijections
    between the valid dates and times of the years 0 to 9999 and the valid POSIX
    times, and the seconds they count are those of the Gregorian calendar: the
    epoch is second 0, the day after a date starts 86400 seconds later. *)
From S2P Require Export PosixTime.

(** ** Truncating division as floor division *)

Lemma quot_floor a n : 0 < n -> Z.quot (if 0 <=? a then a else a - (n - 1)) n = a / n.
Proof.
  intros Hn. destruct (Z.leb_spec 0 a) as [Ha|Ha].
  - by apply Z.quot_div_nonneg.
  - pose proof (Z.div_mod a n ltac:(lia)) as Hdm. pose proof (Z.mod_pos_bound a n Hn).
    replace (a - (n - 1)) with (- (n - 1 - a)) by lia.
    rewrite Z.quot_opp_l, Z.quot_div_nonneg by lia.
    apply (Z.div_unique_pos _ _ _ (a + n * ((n - 1 - a) / n))); [|lia].
    pose proof (Z.div_mod (n - 1 - a) n ltac:(lia)).
    pose proof (Z.mod_pos_bound (n - 1 - a) n Hn). lia.
Qed.

Lemma quot_rem_floor t n :
  0 < n ->
  (if Z.rem t n <? 0 then (Z.quot t n - 1, Z.rem t n + n) else (Z.quot t n, Z.rem t n))
  = (t / n, t mod n).
Proof.
  intros Hn. pose proof (Z.quot_rem' t n) as Hqr. pose proof (Z.rem_bound_abs t n ltac:(lia)).
  destruct (Z.ltb_spec (Z.rem t n) 0).
  - f_equal; [apply (Z.div_unique_pos t n _ (Z.rem t n + n))
             |apply (Z.mod_unique_pos t n (Z.quot t n - 1))]; lia.
  - f_equal; [apply (Z.div_unique_pos t n _ (Z.rem t n))
             |apply (Z.mod_unique_pos t n (Z.quot t n))]; lia.
Qed.

(** ** The Gregorian calendar *)

Definition leap (y : Z) : bool :=
  ((y mod 4 =? 0) && negb (y mod 100 =? 0)) || (y mod 400 =? 0).

Definition days_in_month (y m : Z) : Z :=
  if m =? 2 then if leap y then 29 else 28
  else if (m =? 4) || (m =? 6) || (m =? 9) || (m =? 11) then 30 else 31.

Definition next_day (y m d : Z) : Z * Z * Z :=
  if d <? days_in_month y m then (y, m, d + 1)
  else if m <? 12 then (y, m + 1, 1) else (y + 1, 1, 1).

Definition date_ok (y m d : Z) : Prop :=
  0 <= y <= 9999 /\ 1 <= m <= 12 /\ 1 <= d <= days_in_month y m.

(** Enumerate the twelve values of a month, counted from 1 or from 0. *)
Ltac each_case m :=
  repeat match goal with H : m = _ \/ _ |- _ => destruct H as [H|H] end; subst m.
Ltac twelve m a :=
  lazymatch a with
  | 0 => assert (m = 0 \/ m = 1 \/ m = 2 \/ m = 3 \/ m = 4 \/ m = 5 \/ m = 6 \/ m = 7
                 \/ m = 8 \/ m = 9 \/ m = 10 \/ m = 11) by lia
  | _ => assert (m = 1 \/ m = 2 \/ m = 3 \/ m = 4 \/ m = 5 \/ m = 6 \/ m = 7
                 \/ m = 8 \/ m = 9 \/ m = 10 \/ m = 11 \/ m = 12) by lia
  end; each_case m.

Lemma month_days_spec y m : 0 <= y -> 1 <= m <= 12 -> month_days y m = days_in_month y m.
Proof.
  intros Hy Hm. unfold month_days, days_in_month, leap.
  rewrite !Z.rem_mod_nonneg by lia. twelve m 1; done.
Qed.

Lemma is_valid_date_spec y m d : is_valid_date y m d = true <-> date_ok y m d.
Proof.
  unfold is_valid_date, date_ok.
  destruct (_ || _) eqn:E; [split; [intros [=]|intros; lia]|].
  apply orb_false_iff in E as [E E4]. apply orb_false_iff in E as [E E3].
  apply orb_false_iff in E as [E1 E2].
  destruct (Z.le_gt_cases m 12).
  - rewrite month_days_spec by lia. lia.
  - assert (month_days y m = 0) as ->; [|lia]. unfold month_days.
    repeat (case_bool; [lia|]). done.
Qed.

Lemma is_valid_time_spec h mi s :
  is_valid_time h mi s = true <-> 0 <= h <= 23 /\ 0 <= mi <= 59 /\ 0 <= s <= 59.
Proof. unfold is_valid_time. lia. Qed.

(** ** March-based years

    [yoe] is the year of the 400-year era, counted from March; [doy] the day of
    that year, the leap day being day 365. *)
Definition long_year (yoe : Z) : Prop :=
  (yoe + 1) mod 4 = 0 /\ ((yoe + 1) mod 100 = 0 -> yoe + 1 = 400).

Definition day_number (era yoe doy : Z) : Z :=
  era * 146097 + (yoe * 365 + yoe / 4 - yoe / 100 + doy) - 719468.

Definition month_start (mp : Z) : Z := (153 * mp + 2) / 5.

Lemma yoe_of_doe yoe doy :
  0 <= yoe < 400 -> 0 <= doy <= 365 -> (doy = 365 -> long_year yoe) ->
  let doe := yoe * 365 + yoe / 4 - yoe / 100 + doy in
  0 <= doe <= 146096 /\ (doe - doe / 1460 + doe / 36524 - doe / 146096) / 365 = yoe.
Proof.
  intros Hy Hd Hl doe. unfold long_year in Hl.
  assert (C : yoe / 100 = 0 \/ yoe / 100 = 1 \/ yoe / 100 = 2 \/ yoe / 100 = 3) by div_lia.
  subst doe. destruct C as [C|[C|[C|C]]]; rewrite C; split; div_lia.
Qed.

Lemma doe_split doe :
  0 <= doe <= 146096 ->
  let yoe := (doe - doe / 1460 + doe / 36524 - doe / 146096) / 365 in
  let doy := doe - (365 * yoe + yoe / 4 - yoe / 100) in
  0 <= yoe < 400 /\ 0 <= doy <= 365 /\ (doy = 365 -> long_year yoe).
Proof.
  intros Hd yoe doy.
  assert (C : doe / 36524 = 0 \/ doe / 36524 = 1 \/ doe / 36524 = 2 \/ doe / 36524 = 3
              \/ doe / 36524 = 4) by div_lia.
  assert (Hy : 0 <= yoe < 400).
  { unfold yoe. destruct C as [C|[C|[C|[C|C]]]]; rewrite C; div_lia. }
  assert (C2 : yoe / 100 = 0 \/ yoe / 100 = 1 \/ yoe / 100 = 2 \/ yoe / 100 = 3) by div_lia.
  split; [done|]. unfold long_year, doy.
  unfold yoe in *. clear yoe doy.
  destruct C as [C|[C|[C|[C|C]]]]; rewrite C in *;
    (destruct C2 as [C2|[C2|[C2|C2]]]; rewrite C2 in *); div_lia.
Qed.

(** The month and day of a day of the March-based year. *)
Lemma month_split doy :
  0 <= doy <= 365 ->
  let mp := (5 * doy + 2) / 153 in
  0 <= mp <= 11 /\ month_start mp <= doy
  /\ doy - month_start mp < (if mp =? 11 then 29 else if (mp =? 1) || (mp =? 3) || (mp =? 6)
                              || (mp =? 8) then 30 else 31).
Proof.
  intros Hd mp. unfold month_start. assert (0 <= mp <= 11) by (unfold mp; div_lia).
  split; [done|]. assert (153 * mp <= 5 * doy + 2 < 153 * mp + 153) by (unfold mp; div_lia).
  clearbody mp. twelve mp 0; cbn [Z.eqb Pos.eqb orb]; div_lia.
Qed.

Lemma month_inverse mp d :
  0 <= mp <= 11 ->
  1 <= d <= (if mp =? 11 then 29 else if (mp =? 1) || (mp =? 3) || (mp =? 6) || (mp =? 8)
             then 30 else 31) ->
  0 <= month_start mp + d - 1 <= 365
  /\ (month_start mp + d - 1 = 365 -> mp = 11 /\ d = 29)
  /\ (5 * (month_start mp + d - 1) + 2) / 153 = mp.
Proof.
  unfold month_start. intros Hm Hd. twelve mp 0; cbn [Z.eqb Pos.eqb orb] in Hd; (split; [|split]); div_lia.
Qed.

(** March-based month of a month, and whether its year is the one before. *)
Definition march_month (m : Z) : Z := if 2 <? m then m - 3 else m + 9.
Definition march_year (y m : Z) : Z := if m <=? 2 then y - 1 else y.

Lemma leap_long y : (leap y = true <-> long_year ((y - 1) mod 400)).
Proof.
  unfold leap, long_year. pose proof (Z.mod_pos_bound (y - 1) 400).
  rewrite orb_true_iff, andb_true_iff, negb_true_iff, !Z.eqb_eq, Z.eqb_neq. div_lia.
Qed.

Lemma days_in_month_march y m :
  1 <= m <= 12 ->
  days_in_month y m <= (if march_month m =? 11 then 29
    else if (march_month m =? 1) || (march_month m =? 3) || (march_month m =? 6)
            || (march_month m =? 8) then 30 else 31)
  /\ (march_month m = 11 -> 29 <= days_in_month y m -> leap y = true)
  /\ (march_month m = 11 -> leap y = true -> days_in_month y m = 29)
  /\ (march_month m = 11 -> 28 <= days_in_month y m)
  /\ (march_month m <> 11 -> days_in_month y m =
      (if (march_month m =? 1) || (march_month m =? 3) || (march_month m =? 6)
            || (march_month m =? 8) then 30 else 31)).
Proof.
  intros Hm. unfold days_in_month, march_month. destruct (leap y); twelve m 1; simpl; lia.
Qed.

(** The day [posix_time_from_utc] counts to. *)
Definition civil_days (y m d : Z) : Z :=
  day_number (march_year y m / 400) (march_year y m mod 400)
    (month_start (march_month m) + d - 1).

Lemma posix_time_from_utc_civil y m d h mi s :
  date_ok y m d -> is_valid_time h mi s = true ->
  posix_time_from_utc y m d h mi s
  = Some (civil_days y m d * 86400 + h * 3600 + mi * 60 + s).
Proof.
  intros Hd Ht. unfold posix_time_from_utc.
  rewrite (proj2 (is_valid_date_spec y m d) Hd), Ht. cbn [negb orb].
  fold (march_year y m). fold (march_month m).
  change 399 with (400 - 1). rewrite quot_floor by lia.
  unfold civil_days, day_number, month_start, SECS_PER_DAY, SECS_PER_HOUR.
  pose proof (Z.div_mod (march_year y m) 400 ltac:(lia)).
  replace (march_year y m - march_year y m / 400 * 400) with (march_year y m mod 400) by lia.
  pose proof (Z.mod_pos_bound (march_year y m) 400 ltac:(lia)).
  destruct Hd as (Hy & Hm & Hd).
  assert (0 <= march_month m) by (unfold march_month; case_bool; lia).
  rewrite !Z.quot_div_nonneg by lia. f_equal; ring.
Qed.

Lemma march_facts y m d :
  date_ok y m d ->
  let mp := march_month m in let doy := month_start mp + d - 1 in
  0 <= mp <= 11 /\ 0 <= doy <= 365 /\ (5 * doy + 2) / 153 = mp
  /\ (doy = 365 -> long_year (march_year y m mod 400)).
Proof.
  intros (Hy & Hm & Hd) mp doy.
  assert (Hmp : 0 <= mp <= 11) by (unfold mp, march_month; case_bool; lia).
  destruct (days_in_month_march y m Hm) as (Hle & Hleap & _). fold mp in Hle, Hleap.
  destruct (month_inverse mp d Hmp) as (H1 & H2 & H3); [lia|].
  split_and!; [lia|lia|apply H1|apply H1|exact H3|].
  intros E. destruct (H2 E) as [E11 E29].
  assert (Hl : leap y = true) by (apply Hleap; [done|lia]). apply leap_long in Hl.
  assert (march_year y m = y - 1) as ->; [|done].
  unfold march_year. unfold mp, march_month in E11. revert E11. repeat case_bool; lia.
Qed.

Lemma day_number_range era yoe doy :
  -1 <= era <= 24 -> 0 <= yoe < 400 -> 0 <= doy <= 365 -> (doy = 365 -> long_year yoe) ->
  0 <= day_number era yoe doy + 719468 - era * 146097 <= 146096.
Proof.
  intros He Hy Hd Hl. pose proof (yoe_of_doe yoe doy Hy Hd Hl) as [H _].
  unfold day_number. cbv zeta in H. lia.
Qed.

(** Decoding a day number and a second of the day. *)
Definition utc_of (days sod : Z) : utc_time :=
  let z := days + 719468 in
  let doe := z mod 146097 in
  let yoe := (doe - doe / 1460 + doe / 36524 - doe / 146096) / 365 in
  let doy := doe - (365 * yoe + yoe / 4 - yoe / 100) in
  let mp := (5 * doy + 2) / 153 in
  let m := if mp <? 10 then mp + 3 else mp - 9 in
  let y := yoe + z / 146097 * 400 in
  mk_utc (if m <=? 2 then y + 1 else y) m (doy - month_start mp + 1)
    (sod / 3600) (sod mod 3600 / 60) (sod mod 3600 mod 60).

Lemma era_quot z : Z.quot (if 0 <? z then z else z - 146096) 146097 = z / 146097.
Proof.
  rewrite <-(quot_floor z 146097) by lia. change (146097 - 1) with 146096.
  destruct (Z.ltb_spec 0 z), (Z.leb_spec 0 z); try done; [lia|].
  by assert (z = 0) as -> by lia.
Qed.

Lemma utc_from_posix_time_of t :
  is_valid_posix_time t = true ->
  utc_from_posix_time t = Some (utc_of (t / 86400) (t mod 86400)).
Proof.
  intros Ht. unfold utc_from_posix_time. rewrite Ht. cbn [negb].
  change SECS_PER_DAY with 86400. rewrite quot_rem_floor by lia. cbv beta iota zeta.
  rewrite era_quot. unfold utc_of. cbv zeta. set (z := t / 86400 + 719468).
  change SECS_PER_HOUR with 3600.
  pose proof (Z.div_mod z 146097 ltac:(lia)).
  replace (z - z / 146097 * 146097) with (z mod 146097) by lia.
  pose proof (Z.mod_pos_bound z 146097 ltac:(lia)) as Hdoe. set (doe := z mod 146097) in *.
  pose proof (doe_split doe ltac:(lia)) as (Hy & Hd & _).
  pose proof (Z.mod_pos_bound t 86400 ltac:(lia)) as Hsod.
  set (sod := t mod 86400) in *. clearbody doe sod.
  assert (0 <= doe - doe / 1460 + doe / 36524 - doe / 146096) by div_lia.
  rewrite !(Z.quot_div_nonneg doe), (Z.quot_div_nonneg (_ - _) 365) by lia.
  set (yoe := (doe - doe / 1460 + doe / 36524 - doe / 146096) / 365) in *.
  rewrite !(Z.quot_div_nonneg yoe) by lia.
  set (doy := doe - (365 * yoe + yoe / 4 - yoe / 100)) in *. clearbody doy.
  rewrite (Z.quot_div_nonneg (5 * doy + 2)) by lia.
  pose proof (month_split doy Hd) as (Hm & _).
  rewrite (Z.quot_div_nonneg (153 * _ + 2)) by lia.
  rewrite (Z.quot_div_nonneg sod), (Z.rem_mod_nonneg sod) by lia.
  pose proof (Z.mod_pos_bound sod 3600 ltac:(lia)).
  rewrite Z.quot_div_nonneg, Z.rem_mod_nonneg by lia. done.
Qed.

Lemma day_number_closed y doy :
  day_number (y / 400) (y mod 400) doy
  = 365 * y + y / 4 - y / 100 + y / 400 + doy - 719468.
Proof. unfold day_number. div_lia. Qed.

(** The valid days: 0000-01-01 to 9999-12-31. *)
Lemma civil_days_range y m d : date_ok y m d -> -719528 <= civil_days y m d <= 2932896.
Proof.
  intros Hok. pose proof (march_facts y m d Hok) as (Hmp & Hdoy & Hm & _).
  destruct Hok as (Hy & Hm' & Hd). unfold civil_days. rewrite day_number_closed.
  set (doy := month_start (march_month m) + d - 1) in *. clearbody doy.
  unfold march_year, march_month in *.
  destruct (Z.leb_spec m 2); destruct (Z.ltb_spec 2 m); try lia; div_lia.
Qed.

Lemma utc_of_civil y m d sod :
  date_ok y m d ->
  utc_of (civil_days y m d) sod
  = mk_utc y m d (sod / 3600) (sod mod 3600 / 60) (sod mod 3600 mod 60).
Proof.
  intros Hok. pose proof (march_facts y m d Hok) as (Hmp & Hdoy & Hm & Hlong).
  cbv zeta in *. set (doy := month_start (march_month m) + d - 1) in *.
  set (y' := march_year y m). fold y' in Hlong.
  pose proof (Z.mod_pos_bound y' 400 ltac:(lia)) as Hyoe.
  destruct (yoe_of_doe (y' mod 400) doy Hyoe Hdoy Hlong) as [Hdoe Hinv]. cbv zeta in *.
  set (doe := y' mod 400 * 365 + y' mod 400 / 4 - y' mod 400 / 100 + doy) in *.
  unfold utc_of, civil_days, day_number. fold y'. fold doy. fold doe.
  replace (y' / 400 * 146097 + doe - 719468 + 719468) with (doe + y' / 400 * 146097) by lia.
  rewrite Z_mod_plus_full, Z_div_plus_full, (Z.mod_small doe), (Z.div_small doe 146097) by lia.
  cbv zeta. rewrite Hinv.
  replace (doe - (365 * (y' mod 400) + y' mod 400 / 4 - y' mod 400 / 100)) with doy
    by (unfold doe; lia).
  rewrite Hm.
  assert (Hmonth : (if march_month m <? 10 then march_month m + 3 else march_month m - 9) = m).
  { destruct Hok as (_ & ? & _). unfold march_month. repeat case_bool; lia. }
  rewrite Hmonth.
  pose proof (Z.div_mod y' 400 ltac:(lia)).
  f_equal; [|unfold doy; lia]. unfold y', march_year in *. case_bool; lia.
Qed.

Lemma seconds_split days h mi s :
  0 <= h <= 23 -> 0 <= mi <= 59 -> 0 <= s <= 59 ->
  let t := days * 86400 + h * 3600 + mi * 60 + s in
  let sod := t mod 86400 in
  t / 86400 = days /\ sod / 3600 = h /\ sod mod 3600 / 60 = mi /\ sod mod 3600 mod 60 = s.
Proof.
  intros ??? t sod.
  assert (E : sod = h * 3600 + mi * 60 + s).
  { unfold sod, t. symmetry. apply (Z.mod_unique_pos _ _ days); lia. }
  assert (t / 86400 = days) by (unfold t; div_lia).
  rewrite E. div_lia.
Qed.

Lemma utc_roundtrip_aux y m d h mi s t :
  posix_time_from_utc y m d h mi s = Some t ->
  is_valid_posix_time t = true /\ utc_from_posix_time t = Some (mk_utc y m d h mi s).
Proof.
  intros H.
  assert (Hok : date_ok y m d /\ is_valid_time h mi s = true).
  { unfold posix_time_from_utc in H. rewrite <-is_valid_date_spec.
    destruct (is_valid_date y m d), (is_valid_time h mi s); done. }
  destruct Hok as [Hd Ht]. rewrite posix_time_from_utc_civil in H by done.
  injection H as <-. apply is_valid_time_spec in Ht as (? & ? & ?).
  pose proof (civil_days_range y m d Hd).
  destruct (seconds_split (civil_days y m d) h mi s) as (E1 & E2 & E3 & E4); try lia.
  assert (Hvalid : is_valid_posix_time (civil_days y m d * 86400 + h * 3600 + mi * 60 + s) = true).
  { unfold is_valid_posix_time, MIN_POSIX_TIME, MAX_POSIX_TIME. lia. }
  split; [done|]. rewrite utc_from_posix_time_of by done.
  rewrite E1, utc_of_civil by done. by rewrite E2, E3, E4.
Qed.

(** C35. Broken-down time survives the round trip: whatever valid UTC time
    [posix_time_from_utc] accepts, the seconds it counts are a valid POSIX time
    from which [utc_from_posix_time] gives back every component. *)
Theorem utc_roundtrip y m d h mi s t :
  posix_time_from_utc y m d h mi s = Some t ->
  is_valid_posix_time t = true /\ utc_from_posix_time t = Some (mk_utc y m d h mi s).
Proof. apply utc_roundtrip_aux. Qed.

(** The month, day and year of a day of a March year. *)
Lemma march_date era yoe doy :
  0 <= yoe < 400 -> 0 <= doy <= 365 -> (doy = 365 -> long_year yoe) ->
  let mp := (5 * doy + 2) / 153 in
  let m := if mp <? 10 then mp + 3 else mp - 9 in
  let y := if m <=? 2 then yoe + era * 400 + 1 else yoe + era * 400 in
  let d := doy - month_start mp + 1 in
  1 <= m <= 12 /\ 1 <= d <= days_in_month y m /\ civil_days y m d = day_number era yoe doy.
Proof.
  intros Hyoe Hdoy Hlong mp m y d.
  destruct (month_split doy Hdoy) as (Hmp & Hstart & Hlen). cbv zeta in Hmp, Hstart, Hlen.
  fold mp in Hmp, Hstart, Hlen.
  assert (Hm : 1 <= m <= 12 /\ march_month m = mp).
  { unfold m, march_month. repeat case_bool; lia. }
  destruct Hm as [Hm Hmm]. split; [done|].
  assert (Hy : march_year y m = yoe + era * 400) by (unfold march_year, y; case_bool; lia).
  split; [|unfold civil_days; rewrite Hy, Hmm, Z_div_plus_full, Z_mod_plus_full,
             (Z.div_small yoe 400), (Z.mod_small yoe 400) by lia;
           f_equal; unfold d; lia].
  destruct (days_in_month_march y m Hm) as (_ & _ & Hleap & H28 & Hother).
  rewrite Hmm in *. destruct (Z.eqb_spec mp 11) as [E11|]; [|rewrite Hother by done; lia].
  split; [lia|]. destruct (Z.eq_dec (doy - month_start mp) 28) as [E28|]; [|lia].
  assert (doy = 365) by (rewrite E11 in E28; unfold month_start in E28; div_lia).
  rewrite Hleap; [lia|done|]. apply leap_long.
  assert (m = 2) as E2 by (unfold m; rewrite E11; done).
  assert (y - 1 = yoe + era * 400) as -> by (unfold y; rewrite E2; simpl; lia).
  rewrite Z_mod_plus_full, Z.mod_small by lia. auto.
Qed.

Lemma civil_year_range y m d :
  1 <= m <= 12 -> 1 <= d <= days_in_month y m ->
  -719528 <= civil_days y m d <= 2932896 -> 0 <= y <= 9999.
Proof.
  intros Hm Hd Hr. unfold civil_days in Hr. rewrite day_number_closed in Hr.
  destruct (days_in_month_march y m Hm) as (Hle & _).
  assert (Hmp : 0 <= march_month m <= 11) by (unfold march_month; case_bool; lia).
  destruct (month_inverse (march_month m) d Hmp) as (Hdoy & _ & Hinv); [lia|].
  set (doy := month_start (march_month m) + d - 1) in *. clearbody doy. clear Hd Hle.
  unfold march_year, march_month in *.
  destruct (Z.leb_spec m 2); destruct (Z.ltb_spec 2 m); try lia; div_lia.
Qed.

(** The date found for a valid day number is valid, and is that day. *)
Lemma utc_of_ok days sod :
  -719528 <= days <= 2932896 ->
  let u := utc_of days sod in
  date_ok (utc_year u) (utc_month u) (utc_day u)
  /\ civil_days (utc_year u) (utc_month u) (utc_day u) = days.
Proof.
  intros Hr. unfold utc_of. cbv zeta. cbn [utc_year utc_month utc_day].
  set (z := days + 719468). pose proof (Z.mod_pos_bound z 146097 ltac:(lia)).
  destruct (doe_split (z mod 146097) ltac:(lia)) as (Hyoe & Hdoy & Hlong). cbv zeta in *.
  match type of Hyoe with _ <= ?x < _ => set (yoe := x) in * end.
  match type of Hdoy with _ <= ?x <= _ => set (doy := x) in * end.
  destruct (march_date (z / 146097) yoe doy Hyoe Hdoy Hlong) as (Hm & Hd & Hc).
  cbv zeta in Hm, Hd, Hc.
  assert (Hdays : day_number (z / 146097) yoe doy = days).
  { pose proof (Z.div_mod z 146097 ltac:(lia)). unfold day_number, doy, z in *. lia. }
  rewrite Hdays in Hc. split; [|exact Hc].
  split; [|exact (conj Hm Hd)]. eapply civil_year_range; [exact Hm|exact Hd|]. by rewrite Hc.
Qed.

(** Every valid POSIX time is the time of a valid date: [utc_from_posix_time]
    is total on the range it accepts, and [posix_time_from_utc] takes its result
    back to the same second. *)
Lemma posix_roundtrip t :
  is_valid_posix_time t = true ->
  exists u, utc_from_posix_time t = Some u
    /\ posix_time_from_utc (utc_year u) (utc_month u) (utc_day u)
         (utc_hours u) (utc_minutes u) (utc_seconds u) = Some t.
Proof.
  intros Ht. eexists. split; [by apply utc_from_posix_time_of|].
  unfold is_valid_posix_time, MIN_POSIX_TIME, MAX_POSIX_TIME in Ht.
  destruct (utc_of_ok (t / 86400) (t mod 86400)) as [Hok Hciv]; [div_lia|]. cbv zeta in *.
  pose proof (Z.mod_pos_bound t 86400 ltac:(lia)).
  rewrite posix_time_from_utc_civil, Hciv; [|exact Hok|]; unfold utc_of.
  - cbn [utc_hours utc_minutes utc_seconds]. f_equal. div_lia.
  - apply is_valid_time_spec. cbn [utc_hours utc_minutes utc_seconds]. div_lia.
Qed.

Lemma civil_next_month y m :
  0 <= y -> 1 <= m < 12 -> civil_days y (m + 1) 1 = civil_days y m (days_in_month y m) + 1.
Proof.
  intros Hy Hm. unfold civil_days. rewrite !day_number_closed.
  assert (Hl : leap y = true <-> long_year ((y - 1) mod 400)) by apply leap_long.
  assert (Hfeb : y / 4 - y / 100 + y / 400 - ((y - 1) / 4 - (y - 1) / 100 + (y - 1) / 400)
                 = if leap y then 1 else 0).
  { clear Hl. unfold leap. destruct (_ || _) eqn:E; div_lia. }
  unfold days_in_month, march_year, march_month, month_start.
  assert (H : m = 1 \/ m = 2 \/ m = 3 \/ m = 4 \/ m = 5 \/ m = 6 \/ m = 7 \/ m = 8 \/ m = 9
              \/ m = 10 \/ m = 11) by lia.
  clear Hm. each_case m;
    (destruct (leap y); simpl Z.eqb; simpl Z.leb; simpl Z.ltb; cbn [orb]; simpl Z.add; div_lia).
Qed.

(** C34. The seconds are those of the Gregorian calendar: 1970-01-01 00:00:00 is
    time 0, and midnight of the day after any date that is not the last of the
    year 9999 is 86400 seconds after midnight of that date. *)
Theorem posix_time_calendar y m d t :
  posix_time_from_utc 1970 1 1 0 0 0 = Some 0
  /\ (posix_time_from_utc y m d 0 0 0 = Some t -> (y, m, d) <> (9999, 12, 31) ->
      let '(y', m', d') := next_day y m d in
      posix_time_from_utc y' m' d' 0 0 0 = Some (t + 86400)).
Proof.
  split; [done|]. intros H Hlast.
  assert (Hok : date_ok y m d).
  { rewrite <-is_valid_date_spec. unfold posix_time_from_utc in H.
    by destruct (is_valid_date y m d). }
  rewrite posix_time_from_utc_civil in H by done. injection H as <-.
  assert (Hnext : forall y' m' d', date_ok y' m' d' -> civil_days y' m' d' = civil_days y m d + 1 ->
    posix_time_from_utc y' m' d' 0 0 0 = Some (civil_days y m d * 86400 + 0 * 3600 + 0 * 60 + 0 + 86400)).
  { intros y' m' d' Hok' E. rewrite posix_time_from_utc_civil by done. rewrite E. f_equal. lia. }
  destruct Hok as (Hy & Hm & Hd). unfold next_day.
  destruct (Z.ltb_spec d (days_in_month y m)).
  { apply Hnext; [split_and!; lia|]. unfold civil_days, day_number. lia. }
  assert (d = days_in_month y m) as -> by lia.
  assert (Hpos : forall a b, 28 <= days_in_month a b).
  { intros a b. unfold days_in_month. repeat case_match; lia. }
  assert (H31 : days_in_month y 12 = 31) by reflexivity.
  destruct (Z.ltb_spec m 12).
  - apply Hnext.
    { split_and!; [lia|lia|lia|lia|lia|]. specialize (Hpos y (m + 1)). lia. }
    apply civil_next_month; lia.
  - assert (m = 12) as -> by lia. apply Hnext.
    { split_and!; [lia| |lia|lia|lia|]; [|by unfold days_in_month].
      destruct (Z.eq_dec y 9999) as [->|]; [|lia]. by rewrite H31 in Hlast. }
    unfold civil_days. rewrite !day_number_closed, H31.
    unfold march_year, march_month, month_start. cbn [Z.leb Z.ltb Z.compare Pos.compare Pos.compare_cont].
    replace (y + 1 - 1) with y by lia. div_lia.
Qed.

Lemma tm_roundtrip a t :
  OPENSSL_tm_to_posix a = Some t ->
  is_valid_posix_time t = true /\ OPENSSL_posix_to_tm t = Some a.
Proof.
  unfold OPENSSL_tm_to_posix, OPENSSL_posix_to_tm. intros H.
  apply utc_roundtrip_aux in H as [Hv ->]. split; [done|]. simpl.
  destruct a. simpl. repeat f_equal; lia.
Qed.

(** [OPENSSL_gmtime_adj] undoes [OPENSSL_gmtime_diff]: the difference has days
    and seconds of one sign, less than a day of seconds, and adjusting [from] by it
    gives [to], with no overflow on the way. *)
Lemma gmtime_diff_adj from to days secs :
  OPENSSL_gmtime_diff from to = Some (days, secs) ->
  OPENSSL_gmtime_adj from days secs = Some to
  /\ -86400 < secs < 86400 /\ 0 <= days * secs.
Proof.
  unfold OPENSSL_gmtime_diff. intros H.
  apply bind_Some in H as (tt & Htt & H). apply bind_Some in H as (tf & Htf & H).
  injection H as Hd Hs. change SECS_PER_DAY with 86400 in *.
  destruct (tm_roundtrip _ _ Htt) as [Hvt Hto]. destruct (tm_roundtrip _ _ Htf) as [Hvf _].
  unfold is_valid_posix_time, MIN_POSIX_TIME, MAX_POSIX_TIME in *.
  pose proof (Z.quot_rem' (tt - tf) 86400) as Hqr.
  pose proof (Z.rem_bound_abs (tt - tf) 86400 ltac:(lia)).
  pose proof (Z.rem_sign_nz (tt - tf) 86400 ltac:(lia)) as Hsign.
  rewrite Hd, Hs in *. split_and!; [|lia|lia|].
  - unfold OPENSSL_gmtime_adj. rewrite Htf. cbn [mbind option_bind].
    change SECS_PER_DAY with 86400. unfold INT64_MAX, INT64_MIN.
    replace (tf + days * 86400 + secs) with tt by lia.
    repeat (case_match; [lia|]). exact Hto.
  - destruct (Z.eq_dec secs 0) as [->|]; [lia|]. specialize (Hsign ltac:(done)).
    destruct (Z.lt_ge_cases 0 secs).
    + apply Z.mul_nonneg_nonneg; lia.
    + apply Z.mul_nonpos_nonpos; lia.
Qed.

Lemma utc_roundtrip_witness :
  posix_time_from_utc 2000 2 29 12 34 56 = Some 951827696
  /\ is_valid_posix_time 951827696 = true
  /\ utc_from_posix_time 951827696 = Some (mk_utc 2000 2 29 12 34 56).
Proof. split; [reflexivity|]. apply (utc_roundtrip 2000 2 29 12 34 56). reflexivity. Defined.

Lemma posix_time_calendar_witness :
  posix_time_from_utc 1970 1 1 0 0 0 = Some 0
  /\ (posix_time_from_utc 2100 2 28 0 0 0 = Some 4107456000 -> (2100, 2, 28) <> (9999, 12, 31) ->
      posix_time_from_utc 2100 3 1 0 0 0 = Some (4107456000 + 86400)).
Proof. apply (posix_time_calendar 2100 2 28 4107456000). Defined.
