(* ===== verification/Fallible.v ===== *)
(** * Functions that return 1 or 0 and change an object

    The shape of the byte-string functions: an object received by reference, a
    status, and outputs that count only when the status is 1. The object keeps
    the changes made before a failure. *)
From S2P Require Export Prelude.

Definition act (St A : Type) : Type := St -> option A * St.

#[global] Instance act_ret St : MRet (act St) := fun A a s => (Some a, s).
#[global] Instance act_bind St : MBind (act St) := fun A B k m s =>
  match m s with
  | (Some a, s') => k a s'
  | (None, s') => (None, s')
  end.

Definition fail {St A} : act St A := fun s => (None, s).
Definition read_obj {St} : act St St := fun s => (Some s, s).
Definition write_obj {St} (s' : St) : act St unit := fun _ => (Some tt, s').

(** [if (!b) return 0;] *)
Definition require {St} (b : bool) : act St unit := if b then mret tt else fail.

(** Run [m] on a copy of the object; the copy is returned, the object kept. *)
Definition on_copy {St A} (m : act St A) : act St (A * St) := fun s =>
  match m s with
  | (Some a, s') => (Some (a, s'), s)
  | (None, _) => (None, s)
  end.

(** Run [m] on another object, which is returned. *)
Definition on_obj {St St' A} (s' : St') (m : act St' A) : act St (A * St') := fun s =>
  match m s' with
  | (Some a, s'') => (Some (a, s''), s)
  | (None, _) => (None, s)
  end.

(** Call [m], whose failure is not an error: its status is the result. *)
Definition try {St A} (m : act St A) : act St (option A) := fun s =>
  let '(o, s') := m s in (Some o, s').

Lemma act_bind_some {St A B} (m : act St A) (k : A -> act St B) s a s' :
  m s = (Some a, s') -> (m ≫= k) s = k a s'.
Proof. intros H. unfold mbind, act_bind. by rewrite H. Qed.

Lemma act_bind_none {St A B} (m : act St A) (k : A -> act St B) s s' :
  m s = (None, s') -> (m ≫= k) s = (None, s').
Proof. intros H. unfold mbind, act_bind. by rewrite H. Qed.

Lemma act_bind_inv {St A B} (m : act St A) (k : A -> act St B) s b s2 :
  (m ≫= k) s = (Some b, s2) -> exists a s1, m s = (Some a, s1) /\ k a s1 = (Some b, s2).
Proof.
  unfold mbind, act_bind. destruct (m s) as [[a|] s1]; [eauto|done].
Qed.

Lemma require_inv {St} (b : bool) (s : St) u s' :
  require b s = (Some u, s') -> b = true /\ s' = s.
Proof. destruct b; [by intros [= _ <-]|done]. Qed.

Lemma require_true {St} (s : St) : require true s = (Some tt, s).
Proof. done. Qed.

(** Step through a computation that succeeds, in the goal or in a hypothesis. *)
Ltac astep H := erewrite act_bind_some by (exact H || apply H || (eapply H; eauto)).
Ltac ainv H :=
  let a := fresh "v" in let s := fresh "s" in let H1 := fresh "Hm" in
  apply act_bind_inv in H as (a & s & H1 & H).
