(* ===== verification/Cbs.v ===== *)
(** * BoringSSL: crypto/bytestring/cbs.c

    A [CBS] is a view of bytes that no function of the library writes through:
    the list of the bytes it spans. A function that takes a [CBS *] is an [act]
    on it; an output [CBS] is the list of its bytes. The [assert]s of the file
    check facts that hold in every run (the lemmas of [CbsSpec] prove the ones the
    results depend on) and have no effect here. *)
From S2P Require Export Fallible PosixTime.

Definition CBS : Type := list Z.
Definition CBS_len (cbs : CBS) : Z := Z.of_nat (length cbs).

(** ** Helpers of crypto/internal.h and crypto/mem.c *)

Definition byte_swap (n : nat) (x : Z) : Z := le_combine (rev (le_split n x)).
Definition CRYPTO_bswap2 (x : Z) : Z := byte_swap 2 x.
Definition CRYPTO_bswap4 (x : Z) : Z := byte_swap 4 x.
Definition CRYPTO_bswap8 (x : Z) : Z := byte_swap 8 x.
Definition CRYPTO_load_u64_be (l : list Z) : Z := CRYPTO_bswap8 (le_combine l).

Definition OPENSSL_isdigit (c : Z) : bool := (48 <=? c) && (c <=? 57).

(** [OPENSSL_memchr], as the number of bytes before the first [c]. *)
Fixpoint OPENSSL_memchr (l : list Z) (c : Z) : option nat :=
  match l with
  | [] => None
  | b :: l => if b =? c then Some O else S <$> OPENSSL_memchr l c
  end.

Fixpoint CRYPTO_memcmp_loop (x : Z) (a b : list Z) : Z :=
  match a, b with
  | c :: a, d :: b => CRYPTO_memcmp_loop (Z.lor x (Z.lxor c d)) a b
  | _, _ => x
  end.
Definition CRYPTO_memcmp (a b : list Z) : Z := CRYPTO_memcmp_loop 0 a b.

Fixpoint OPENSSL_strnlen (s : list Z) : nat :=
  match s with
  | [] => O
  | b :: s => if b =? 0 then O else S (OPENSSL_strnlen s)
  end.

(** ** Reading bytes *)

Definition cbs_get (n : Z) : act CBS (list Z) := fun cbs =>
  if CBS_len cbs <? n then (None, cbs)
  else (Some (take (Z.to_nat n) cbs), drop (Z.to_nat n) cbs).

Definition CBS_skip (len : Z) : act CBS unit := _ ← cbs_get len; mret tt.

(** [alloc] is whether [malloc] succeeds; the results are the status and the new
    contents of [*out_ptr], [None] for [NULL]. *)
Definition CBS_stow (alloc : bool) (cbs : CBS) : bool * option (list Z) :=
  if CBS_len cbs =? 0 then (true, None)
  else if alloc then (true, Some cbs) else (false, None).

Definition CBS_strdup (alloc : bool) (cbs : CBS) : bool * option (list Z) :=
  if alloc then (true, Some (take (OPENSSL_strnlen cbs) cbs ++ [0])) else (false, None).

Definition CBS_contains_zero_byte (cbs : CBS) : bool :=
  bool_decide (is_Some (OPENSSL_memchr cbs 0)).

Definition CBS_mem_equal (cbs : CBS) (data : list Z) : bool :=
  if negb (CBS_len data =? CBS_len cbs) then false
  else CRYPTO_memcmp cbs data =? 0.

(** [result <<= 8; result |= data[i];] over the bytes of [data]. *)
Definition be_step (result b : Z) : Z := Z.lor (u64 (Z.shiftl result 8)) b.

Definition cbs_get_u (len : Z) : act CBS Z :=
  data ← cbs_get len; mret (foldl be_step 0 data).

Definition CBS_get_u8 : act CBS Z :=
  v ← cbs_get 1;
  match v with b :: _ => mret b | [] => fail end.

Definition CBS_get_u16 : act CBS Z := v ← cbs_get_u 2; mret (u16 v).
Definition CBS_get_u16le : act CBS Z := v ← CBS_get_u16; mret (CRYPTO_bswap2 v).
Definition CBS_get_u24 : act CBS Z := v ← cbs_get_u 3; mret (u32 v).
Definition CBS_get_u32 : act CBS Z := v ← cbs_get_u 4; mret (u32 v).
Definition CBS_get_u32le : act CBS Z := v ← CBS_get_u32; mret (CRYPTO_bswap4 v).
Definition CBS_get_u64 : act CBS Z := cbs_get_u 8.
Definition CBS_get_u64le : act CBS Z := v ← cbs_get_u 8; mret (CRYPTO_bswap8 v).

Definition CBS_get_last_u8 : act CBS Z := fun cbs =>
  match last cbs with
  | None => (None, cbs)
  | Some b => (Some b, take (length cbs - 1) cbs)
  end.

Definition CBS_get_bytes (len : Z) : act CBS CBS := cbs_get len.
Definition CBS_copy_bytes (len : Z) : act CBS (list Z) := cbs_get len.

Definition cbs_get_length_prefixed (len_len : Z) : act CBS CBS :=
  len ← cbs_get_u len_len; CBS_get_bytes len.
Definition CBS_get_u8_length_prefixed : act CBS CBS := cbs_get_length_prefixed 1.
Definition CBS_get_u16_length_prefixed : act CBS CBS := cbs_get_length_prefixed 2.
Definition CBS_get_u24_length_prefixed : act CBS CBS := cbs_get_length_prefixed 3.

Definition CBS_get_until_first (c : Z) : act CBS CBS := fun cbs =>
  match OPENSSL_memchr cbs c with
  | None => (None, cbs)
  | Some n => CBS_get_bytes (Z.of_nat n) cbs
  end.

(** ** Decimal numbers *)

Definition UINT64_MAX : Z := 2 ^ 64 - 1.

(** The [while] loop of [CBS_get_u64_decimal]; every turn but the last consumes a
    digit, also the one that fails. *)
Fixpoint decimal_loop (v : Z) (seen_digit : bool) (cbs : list Z) : option (Z * bool) * CBS :=
  match cbs with
  | [] => (Some (v, seen_digit), [])
  | c :: rest =>
    if negb (OPENSSL_isdigit c) then (Some (v, seen_digit), cbs)
    else if ((v =? 0) && seen_digit) || (UINT64_MAX / 10 <? v)
            || (UINT64_MAX - (c - 48) <? u64 (v * 10))
    then (None, rest)
    else decimal_loop (u64 (v * 10 + (c - 48))) true rest
  end.

Definition CBS_get_u64_decimal : act CBS Z :=
  r ← decimal_loop 0 false;
  if r.2 : bool then mret r.1 else fail.

(** ** Tags *)

(** The [do ... while (b & 0x80)] loop of [parse_base128_integer]. *)
Fixpoint base128_loop (v : Z) (cbs : list Z) : option Z * CBS :=
  match cbs with
  | [] => (None, [])
  | b :: rest =>
    if negb (Z.shiftr v (64 - 7) =? 0) then (None, rest)
    else if (v =? 0) && (b =? 0x80) then (None, rest)
    else
      let v := Z.lor (u64 (Z.shiftl v 7)) (Z.land b 0x7f) in
      if negb (Z.land b 0x80 =? 0) then base128_loop v rest else (Some v, rest)
  end.
Definition parse_base128_integer : act CBS Z := base128_loop 0.

Definition CBS_ASN1_TAG_SHIFT : Z := 24.
Definition CBS_ASN1_CONSTRUCTED : Z := Z.shiftl 0x20 CBS_ASN1_TAG_SHIFT.
Definition CBS_ASN1_TAG_NUMBER_MASK : Z := Z.shiftl 1 (5 + CBS_ASN1_TAG_SHIFT) - 1.
Definition CBS_ASN1_BOOLEAN : Z := 0x1.
Definition CBS_ASN1_INTEGER : Z := 0x2.
Definition CBS_ASN1_OCTETSTRING : Z := 0x4.

Definition parse_asn1_tag : act CBS Z :=
  tag_byte ← CBS_get_u8;
  let tag := u32 (Z.shiftl (Z.land tag_byte 0xe0) CBS_ASN1_TAG_SHIFT) in
  let tag_number := Z.land tag_byte 0x1f in
  tag_number ← (if tag_number =? 0x1f then
                  v ← parse_base128_integer;
                  if (CBS_ASN1_TAG_NUMBER_MASK <? v) || (v <? 0x1f) then fail
                  else mret (u32 v)
                else mret tag_number);
  let tag := Z.lor tag tag_number in
  (* [tag & ~CBS_ASN1_CONSTRUCTED] *)
  if Z.ldiff tag CBS_ASN1_CONSTRUCTED =? 0 then fail else mret tag.

(** ** Elements *)

(** The outputs of [cbs_get_any_asn1_element]; [el_out] spans the header too. *)
Record asn1_element := mk_element {
  el_out : CBS; el_tag : Z; el_header_len : Z; el_ber_found : bool; el_indefinite : bool
}.

(** What is read from the copy [header]: the tag, the length of the header, the
    length of the element, and the two BER flags. *)
Record asn1_header := mk_header {
  hd_tag : Z; hd_header_len : Z; hd_len : Z; hd_ber_found : bool; hd_indefinite : bool
}.

(** The body of [cbs_get_any_asn1_element] up to its last call, run on [header], a
    copy of a [CBS] of [total] bytes. *)
Definition parse_asn1_header (ber_ok : bool) (total : Z) : act CBS asn1_header :=
  tag ← parse_asn1_tag;
  length_byte ← CBS_get_u8;
  header ← read_obj;
  let header_len := total - CBS_len header in
  if Z.land length_byte 0x80 =? 0 then
    mret (mk_header tag header_len (u64 (length_byte + header_len)) false false)
  else
    let num_bytes := Z.land length_byte 0x7f in
    if ber_ok && negb (Z.land tag CBS_ASN1_CONSTRUCTED =? 0) && (num_bytes =? 0) then
      mret (mk_header tag header_len header_len true true)
    else if (num_bytes =? 0) || (4 <? num_bytes) then fail
    else
      len64 ← cbs_get_u num_bytes;
      let long := len64 <? 128 in
      let padded := Z.shiftr len64 ((num_bytes - 1) * 8) =? 0 in
      if negb ber_ok && (long || padded) then fail
      else
        if u64 (len64 + header_len + num_bytes) <? len64 then fail
        else mret (mk_header tag (header_len + num_bytes)
                     (u64 (len64 + (header_len + num_bytes))) (long || padded) false).

Definition cbs_get_any_asn1_element (ber_ok : bool) : act CBS asn1_element :=
  cbs ← read_obj;
  h ← on_copy (parse_asn1_header ber_ok (CBS_len cbs));
  let h := h.1 in
  out ← CBS_get_bytes (hd_len h);
  mret (mk_element out (hd_tag h) (hd_header_len h) (hd_ber_found h) (hd_indefinite h)).

Definition CBS_get_any_asn1_element : act CBS asn1_element := cbs_get_any_asn1_element false.
Definition CBS_get_any_ber_asn1_element : act CBS asn1_element := cbs_get_any_asn1_element true.

(** The contents and the tag. *)
Definition CBS_get_any_asn1 : act CBS (CBS * Z) :=
  e ← CBS_get_any_asn1_element;
  r ← on_obj (el_out e) (CBS_skip (el_header_len e));
  mret (r.2, el_tag e).

(** An element of the wrong tag has been consumed when this fails. *)
Definition cbs_get_asn1 (tag_value : Z) (skip_header : bool) : act CBS CBS :=
  e ← CBS_get_any_asn1_element;
  if negb (el_tag e =? tag_value) then fail
  else if skip_header then r ← on_obj (el_out e) (CBS_skip (el_header_len e)); mret r.2
  else mret (el_out e).

Definition CBS_get_asn1 (tag_value : Z) : act CBS CBS := cbs_get_asn1 tag_value true.
Definition CBS_get_asn1_element (tag_value : Z) : act CBS CBS := cbs_get_asn1 tag_value false.

Definition CBS_peek_asn1_tag (cbs : CBS) (tag_value : Z) : bool :=
  match parse_asn1_tag cbs with
  | (Some actual_tag, _) => tag_value =? actual_tag
  | (None, _) => false
  end.

(** ** Integers *)

(** The status and [*out_is_negative]. *)
Definition CBS_is_valid_asn1_integer (cbs : CBS) : option bool :=
  match cbs with
  | [] => None
  | [first_byte] => Some (negb (Z.land first_byte 0x80 =? 0))
  | first_byte :: second_byte :: _ =>
    if ((first_byte =? 0x00) && (Z.land second_byte 0x80 =? 0))
       || ((first_byte =? 0xff) && negb (Z.land second_byte 0x80 =? 0))
    then None
    else Some (negb (Z.land first_byte 0x80 =? 0))
  end.

Definition CBS_is_unsigned_asn1_integer (cbs : CBS) : bool :=
  match CBS_is_valid_asn1_integer cbs with
  | Some is_negative => negb is_negative
  | None => false
  end.

Fixpoint uint64_loop (out : Z) (data : list Z) : option Z :=
  match data with
  | [] => Some out
  | b :: data => if negb (Z.shiftr out 56 =? 0) then None
                 else uint64_loop (be_step out b) data
  end.

Definition CBS_get_asn1_uint64 : act CBS Z :=
  bytes ← CBS_get_asn1 CBS_ASN1_INTEGER;
  if negb (CBS_is_unsigned_asn1_integer bytes) then fail
  else match uint64_loop 0 bytes with Some v => mret v | None => fail end.

Definition CBS_get_asn1_int64 : act CBS Z :=
  bytes ← CBS_get_asn1 CBS_ASN1_INTEGER;
  match CBS_is_valid_asn1_integer bytes with
  | None => fail
  | Some is_negative =>
    if 8 <? CBS_len bytes then fail
    else
      let sign_extend := replicate (8 - length bytes) (if is_negative then 0xff else 0) in
      mret (s64 (CRYPTO_load_u64_be (sign_extend ++ bytes)))
  end.

Definition CBS_get_asn1_bool : act CBS bool :=
  bytes ← CBS_get_asn1 CBS_ASN1_BOOLEAN;
  match bytes with
  | [value] => if negb (value =? 0) && negb (value =? 0xff) then fail
               else mret (negb (value =? 0))
  | _ => fail
  end.

(** ** Optional elements *)

(** The contents, or [None] when the element is not present. *)
Definition CBS_get_optional_asn1 (tag : Z) : act CBS (option CBS) :=
  cbs ← read_obj;
  if CBS_peek_asn1_tag cbs tag then out ← CBS_get_asn1 tag; mret (Some out)
  else mret None.

(** The string, empty when not present, and [*out_present]. *)
Definition CBS_get_optional_asn1_octet_string (tag : Z) : act CBS (CBS * bool) :=
  child ← CBS_get_optional_asn1 tag;
  match child with
  | Some child =>
    r ← on_obj child (CBS_get_asn1 CBS_ASN1_OCTETSTRING);
    if negb (CBS_len r.2 =? 0) then fail else mret (r.1, true)
  | None => mret ([], false)
  end.

Definition CBS_get_optional_asn1_uint64 (tag default_value : Z) : act CBS Z :=
  child ← CBS_get_optional_asn1 tag;
  match child with
  | Some child =>
    r ← on_obj child CBS_get_asn1_uint64;
    if negb (CBS_len r.2 =? 0) then fail else mret r.1
  | None => mret default_value
  end.

Definition CBS_get_optional_asn1_bool (tag : Z) (default_value : Z) : act CBS Z :=
  child ← CBS_get_optional_asn1 tag;
  match child with
  | Some child =>
    r ← on_obj child (CBS_get_asn1 CBS_ASN1_BOOLEAN);
    match r with
    | ([boolean], []) =>
      if boolean =? 0 then mret 0 else if boolean =? 0xff then mret 1 else fail
    | _ => fail
    end
  | None => mret default_value
  end.

(** ** Bit strings *)

Definition CBS_is_valid_asn1_bitstring (cbs : CBS) : bool :=
  match cbs with
  | [] => false
  | num_unused_bits :: contents =>
    if 7 <? num_unused_bits then false
    else if num_unused_bits =? 0 then true
    else match last contents with
         | None => false
         | Some l => Z.land l (Z.shiftl 1 num_unused_bits - 1) =? 0
         end
  end.

Definition CBS_asn1_bitstring_has_bit (cbs : CBS) (bit : Z) : bool :=
  if negb (CBS_is_valid_asn1_bitstring cbs) then false
  else
    let byte_num := u32 (Z.shiftr bit 3 + 1) in
    let bit_num := 7 - Z.land bit 7 in
    (byte_num <? CBS_len cbs)
    && negb (Z.land (nth (Z.to_nat byte_num) cbs 0) (Z.shiftl 1 bit_num) =? 0).

(** ** Object identifiers *)

Fixpoint oid_loop (prev : Z) (cbs : CBS) : option Z :=
  match cbs with
  | [] => Some prev
  | v :: cbs => if (Z.land prev 0x80 =? 0) && (v =? 0x80) then None else oid_loop v cbs
  end.

Definition CBS_is_valid_asn1_oid (cbs : CBS) : bool :=
  if CBS_len cbs =? 0 then false
  else match oid_loop 0 cbs with
       | Some prev => Z.land prev 0x80 =? 0
       | None => false
       end.

(** ** Times *)

Definition cbs_get_two_digits : act CBS Z :=
  first_digit ← CBS_get_u8;
  if negb (OPENSSL_isdigit first_digit) then fail
  else
    second_digit ← CBS_get_u8;
    if negb (OPENSSL_isdigit second_digit) then fail
    else mret ((first_digit - 48) * 10 + (second_digit - 48)).

Definition is_valid_day (year month day : Z) : bool :=
  if day <? 1 then false
  else if (month =? 1) || (month =? 3) || (month =? 5) || (month =? 7) || (month =? 8)
          || (month =? 10) || (month =? 12) then day <=? 31
  else if (month =? 4) || (month =? 6) || (month =? 9) || (month =? 11) then day <=? 30
  else if month =? 2 then
    if ((Z.rem year 4 =? 0) && negb (Z.rem year 100 =? 0)) || (Z.rem year 400 =? 0)
    then day <=? 29 else day <=? 28
  else false.

(** The four digits of a generalized time's year, or the two of a UTC time's. *)
Definition parse_rfc5280_year (is_gentime : bool) : act CBS Z :=
  if is_gentime then
    hi ← cbs_get_two_digits; lo ← cbs_get_two_digits; mret (hi * 100 + lo)
  else
    tmp ← cbs_get_two_digits;
    let year := 1900 + tmp in
    let year := if year <? 1950 then year + 100 else year in
    if 2050 <=? year then fail else mret year.

(** The offset in seconds from the time zone's letter or sign on. *)
Definition parse_rfc5280_offset (allow_timezone_offset : bool) (tz : Z) : act CBS Z :=
  if tz =? 90 (* Z *) then mret 0
  else if (tz =? 43) || (tz =? 45) then
    let offset_sign := if tz =? 43 then 1 else -1 in
    if negb allow_timezone_offset then fail
    else
      offset_hours ← cbs_get_two_digits;
      if 23 <? offset_hours then fail
      else
        offset_minutes ← cbs_get_two_digits;
        if 59 <? offset_minutes then fail
        else mret (offset_sign * (offset_hours * 3600 + offset_minutes * 60))
  else fail.

(** [out_tm] tells whether the caller passed a [struct tm], whose new value is
    then the result; the members it was given before a failing
    [OPENSSL_gmtime_adj] are not observed. *)
Definition parse_rfc5280_time (is_gentime allow_timezone_offset out_tm : bool)
    : act CBS (option tm) :=
  year ← parse_rfc5280_year is_gentime;
  month ← cbs_get_two_digits;
  if (month <? 1) || (12 <? month) then fail else
  day ← cbs_get_two_digits;
  if negb (is_valid_day year month day) then fail else
  hour ← cbs_get_two_digits;
  if 23 <? hour then fail else
  min ← cbs_get_two_digits;
  if 59 <? min then fail else
  sec ← cbs_get_two_digits;
  if 59 <? sec then fail else
  tz ← CBS_get_u8;
  offset_seconds ← parse_rfc5280_offset allow_timezone_offset tz;
  copy ← read_obj;
  if negb (CBS_len copy =? 0) then fail
  else if negb out_tm then mret None
  else
    let t := mk_tm (year - 1900) (month - 1) day hour min sec in
    if negb (offset_seconds =? 0) then
      match OPENSSL_gmtime_adj t 0 offset_seconds with
      | Some t' => mret (Some t')
      | None => fail
      end
    else mret (Some t).

(** [None] is the status 0. *)
Definition CBS_parse_rfc5280_time_internal (cbs : CBS)
    (is_gentime allow_timezone_offset out_tm : bool) : option (option tm) :=
  (parse_rfc5280_time is_gentime allow_timezone_offset out_tm cbs).1.

Definition CBS_parse_generalized_time (cbs : CBS) (out_tm allow_timezone_offset : bool)
    : option (option tm) :=
  CBS_parse_rfc5280_time_internal cbs true allow_timezone_offset out_tm.
Definition CBS_parse_utc_time (cbs : CBS) (out_tm allow_timezone_offset : bool)
    : option (option tm) :=
  CBS_parse_rfc5280_time_internal cbs false allow_timezone_offset out_tm.
