(* ===== verification/Cbb.v ===== *)
(** * BoringSSL: crypto/bytestring/cbb.c

    A [CBB] under construction is a buffer and the chain of its open children,
    outermost first: each child is a length-prefixed element that has not been
    closed, written to the same buffer as its parent. A [CBB *] is the position
    of an open object in the chain, [0] for the root: [cbb->child] is the next
    position if the chain goes that far. Passing a child that has been flushed
    (its [base] is [NULL]) is a position beyond the chain.

    [oom] holds the allocator's future answers ([true]: fail; the empty list:
    succeed) and [junk] the byte that fresh storage is found to hold. *)
From S2P Require Export Cbs.

(** [buf] is the contents of the valid bytes, so that [len] is its length;
    [cap] the capacity. *)
Record cbb_buffer_st := mk_base {
  buf : list Z; cap : Z; can_resize : bool; error : bool
}.
Definition len (base : cbb_buffer_st) : Z := Z.of_nat (length (buf base)).

Record cbb_child_st := mk_child {
  offset : Z; pending_len_len : Z; pending_is_asn1 : bool
}.

Record cbb_world := mk_world {
  base : cbb_buffer_st; children : list cbb_child_st; oom : list bool; junk : Z
}.

Definition set_base (w : cbb_world) (b : cbb_buffer_st) : cbb_world :=
  mk_world b (children w) (oom w) (junk w).
Definition set_buf (w : cbb_world) (l : list Z) : cbb_world :=
  set_base w (mk_base l (cap (base w)) (can_resize (base w)) (error (base w))).
Definition set_children (w : cbb_world) (c : list cbb_child_st) : cbb_world :=
  mk_world (base w) c (oom w) (junk w).

(** [base->error = 1; return 0;] *)
Definition base_error {A} : act cbb_world A := fun w =>
  (None, set_base w (mk_base (buf (base w)) (cap (base w)) (can_resize (base w)) true)).

Definition CBB_init (initial_capacity : Z) (oom : list bool) (junk : Z) : option cbb_world :=
  let fails := match oom with b :: _ => b | [] => false end in
  if (0 <? initial_capacity) && fails then None
  else Some (mk_world (mk_base [] initial_capacity true false) [] (tail oom) junk).

Definition CBB_init_fixed (cap : Z) (oom : list bool) (junk : Z) : cbb_world :=
  mk_world (mk_base [] cap false false) [] oom junk.

(** [OPENSSL_realloc(base->buf, newcap)]: the status. *)
Definition OPENSSL_realloc (newcap : Z) : act cbb_world unit := fun w =>
  let fails := match oom w with b :: _ => b | [] => false end in
  let w := mk_world (base w) (children w) (tail (oom w)) (junk w) in
  if fails then (None, w)
  else (Some tt, set_base w (mk_base (buf (base w)) newcap (can_resize (base w))
                               (error (base w)))).

(** The result is the position of [*out] in the buffer. *)
Definition cbb_buffer_reserve (n : Z) : act cbb_world Z :=
  w ← read_obj;
  let b := base w in
  let newlen := u64 (len b + n) in
  if newlen <? len b then base_error
  else if cap b <? newlen then
    if negb (can_resize b) then base_error
    else
      let newcap := u64 (cap b * 2) in
      let newcap := if (newcap <? cap b) || (newcap <? newlen) then newlen else newcap in
      ok ← try (OPENSSL_realloc newcap);
      match ok with
      | None => base_error
      | Some _ => mret (len b)
      end
  else mret (len b).

(** The bytes added hold whatever the storage held. *)
Definition cbb_buffer_add (n : Z) : act cbb_world Z :=
  out ← cbb_buffer_reserve n;
  w ← read_obj;
  _ ← write_obj (set_buf w (buf (base w) ++ replicate (Z.to_nat n) (junk w)));
  mret out.

(** Copy [data] to [base->buf + off]. *)
Definition splice (l : list Z) (off : Z) (data : list Z) : list Z :=
  take (Z.to_nat off) l ++ data ++ drop (Z.to_nat off + length data) l.
Definition buf_write (off : Z) (data : list Z) : act cbb_world unit :=
  w ← read_obj;
  write_obj (set_buf w (splice (buf (base w)) off data)).

(** [for (i = n - 1; i < n; i--) { buf[i] = v; v >>= 8; }]: the bytes stored, and
    the value left. *)
Fixpoint be_store (n : nat) (v : Z) (acc : list Z) : list Z * Z :=
  match n with
  | O => (acc, v)
  | S n => be_store n (Z.shiftr v 8) (u8 v :: acc)
  end.

(** ** Closing children *)

(** The length form [CBB_flush] chooses: [len_len], [initial_length_byte] and the
    length still to be written, or [None] when the contents are too long. *)
Definition asn1_length_form (n : Z) : option (Z * Z * Z) :=
  if 0xfffffffe <? n then None
  else if 0xffffff <? n then Some (5, Z.lor 0x80 4, n)
  else if 0xffff <? n then Some (4, Z.lor 0x80 3, n)
  else if 0xff <? n then Some (3, Z.lor 0x80 2, n)
  else if 0x7f <? n then Some (2, Z.lor 0x80 1, n)
  else Some (1, n, 0).

(** The [pending_is_asn1] branch of [CBB_flush]: make space for a longer length
    and write its first byte. The results are the new offset and length of the
    prefix, and the length still to be written. *)
Definition start_asn1_length (off child_start n : Z) : act cbb_world (Z * Z * Z) :=
  match asn1_length_form n with
  | None => fail
  | Some (len_len, initial_length_byte, n') =>
    _ ← (if negb (len_len =? 1) then
           let extra_bytes := len_len - 1 in
           _ ← cbb_buffer_add extra_bytes;
           w ← read_obj;
           (* memmove *)
           buf_write (child_start + extra_bytes)
             (take (Z.to_nat n') (drop (Z.to_nat child_start) (buf (base w))))
         else mret tt);
    _ ← buf_write off [initial_length_byte];
    mret (off + 1, len_len - 1, n')
  end.

(** The part of [CBB_flush] that writes the length of [child], whose own child has
    been flushed. *)
Definition close_child (child : cbb_child_st) : act cbb_world unit :=
  w ← read_obj;
  let child_start := u64 (offset child + pending_len_len child) in
  if (child_start <? offset child) || (len (base w) <? child_start) then fail
  else
    let n := len (base w) - child_start in
    p ← (if pending_is_asn1 child then start_asn1_length (offset child) child_start n
         else mret (offset child, pending_len_len child, n));
    let '(off, pll, n) := p in
    let '(prefix, rest) := be_store (Z.to_nat pll) n [] in
    _ ← buf_write off prefix;
    if negb (rest =? 0) then fail else mret tt.

(** [cbb_on_error], for the object at position [d]. *)
Definition cbb_on_error {A} (d : nat) : act cbb_world A := fun w =>
  base_error (set_children w (take d (children w))).

(** [CBB_flush] of an object whose open descendants are [chain], the innermost
    closed first. *)
Fixpoint flush_chain (chain : list cbb_child_st) : act cbb_world unit :=
  w ← read_obj;
  if error (base w) then fail
  else match chain with
       | [] => mret tt
       | child :: rest =>
         ok ← try (_ ← flush_chain rest; close_child child);
         match ok with
         | None => base_error
         | Some _ => mret tt
         end
       end.

(** The chain ends at [d] afterwards, also on error. *)
Definition CBB_flush (d : nat) : act cbb_world unit :=
  w ← read_obj;
  if (length (children w) <? d)%nat then fail
  else if error (base w) then fail
  else
    ok ← try (flush_chain (drop d (children w)));
    w ← read_obj;
    _ ← write_obj (set_children w (take d (children w)));
    match ok with None => fail | Some _ => mret tt end.

(** The valid bytes. The object owns no buffer afterwards, and none of its members
    is meant to be read again. *)
Definition CBB_finish (d : nat) (wants_data wants_len : bool) : act cbb_world (list Z) :=
  if negb (d =? 0)%nat then fail
  else
    _ ← CBB_flush d;
    w ← read_obj;
    if can_resize (base w) && (negb wants_data || negb wants_len) then fail
    else
      _ ← write_obj (set_buf w []);
      mret (buf (base w)).

(** [CBB_data] and [CBB_len], for an object without an open child. *)
Definition CBB_data (d : nat) (w : cbb_world) : list Z :=
  match d with
  | O => buf (base w)
  | S d => match children w !! d with
           | Some c => drop (Z.to_nat (offset c + pending_len_len c)) (buf (base w))
           | None => []
           end
  end.
Definition CBB_len (d : nat) (w : cbb_world) : Z :=
  match d with
  | O => len (base w)
  | S d => match children w !! d with
           | Some c => u64 (len (base w) - offset c - pending_len_len c)
           | None => 0
           end
  end.

(** ** Writing *)

Definition cbb_add_child (d : nat) (len_len : Z) (is_asn1 : bool) : act cbb_world nat :=
  w ← read_obj;
  let offset := len (base w) in
  out ← cbb_buffer_add len_len;
  _ ← buf_write out (replicate (Z.to_nat len_len) 0);
  w ← read_obj;
  _ ← write_obj (set_children w (take d (children w) ++ [mk_child offset len_len is_asn1]));
  mret (S d).

(** The position of the child. *)
Definition cbb_add_length_prefixed (d : nat) (len_len : Z) : act cbb_world nat :=
  _ ← CBB_flush d; cbb_add_child d len_len false.

Definition CBB_add_u8_length_prefixed (d : nat) : act cbb_world nat := cbb_add_length_prefixed d 1.
Definition CBB_add_u16_length_prefixed (d : nat) : act cbb_world nat := cbb_add_length_prefixed d 2.
Definition CBB_add_u24_length_prefixed (d : nat) : act cbb_world nat := cbb_add_length_prefixed d 3.

Definition CBB_add_space (d : nat) (n : Z) : act cbb_world Z :=
  _ ← CBB_flush d; cbb_buffer_add n.

Definition CBB_add_bytes (d : nat) (data : list Z) : act cbb_world unit :=
  out ← CBB_add_space d (Z.of_nat (length data)); buf_write out data.

Definition CBB_add_zeros (d : nat) (n : Z) : act cbb_world unit :=
  out ← CBB_add_space d n; buf_write out (replicate (Z.to_nat n) 0).

Definition CBB_reserve (d : nat) (n : Z) : act cbb_world Z :=
  _ ← CBB_flush d; cbb_buffer_reserve n.

(** [written] is what the caller stored in the reserved space. *)
Definition CBB_did_write (d : nat) (written : list Z) : act cbb_world unit :=
  w ← read_obj;
  let newlen := u64 (len (base w) + Z.of_nat (length written)) in
  if (d <? length (children w))%nat || (newlen <? len (base w)) || (cap (base w) <? newlen)
  then fail
  else write_obj (set_buf w (buf (base w) ++ written)).

Definition cbb_add_u (d : nat) (v len_len : Z) : act cbb_world unit :=
  out ← CBB_add_space d len_len;
  let '(bytes, rest) := be_store (Z.to_nat len_len) v [] in
  _ ← buf_write out bytes;
  if negb (rest =? 0) then cbb_on_error d else mret tt.

Definition CBB_add_u8 (d : nat) (value : Z) : act cbb_world unit := cbb_add_u d value 1.
Definition CBB_add_u16 (d : nat) (value : Z) : act cbb_world unit := cbb_add_u d value 2.
Definition CBB_add_u16le (d : nat) (value : Z) : act cbb_world unit :=
  CBB_add_u16 d (CRYPTO_bswap2 value).
Definition CBB_add_u24 (d : nat) (value : Z) : act cbb_world unit := cbb_add_u d value 3.
Definition CBB_add_u32 (d : nat) (value : Z) : act cbb_world unit := cbb_add_u d value 4.
Definition CBB_add_u32le (d : nat) (value : Z) : act cbb_world unit :=
  CBB_add_u32 d (CRYPTO_bswap4 value).
Definition CBB_add_u64 (d : nat) (value : Z) : act cbb_world unit := cbb_add_u d value 8.
Definition CBB_add_u64le (d : nat) (value : Z) : act cbb_world unit :=
  CBB_add_u64 d (CRYPTO_bswap8 value).

Definition CBB_discard_child (d : nat) (w : cbb_world) : cbb_world :=
  match children w !! d with
  | None => w
  | Some c => set_children (set_buf w (take (Z.to_nat (offset c)) (buf (base w))))
                (take d (children w))
  end.

(** ** ASN.1 *)

(** The number of 7-bit groups of a value; a [uint64_t] has at most ten. *)
Fixpoint base128_len (fuel : nat) (copy : Z) : nat :=
  match fuel with
  | O => O
  | S fuel => if 0 <? copy then S (base128_len fuel (Z.shiftr copy 7)) else O
  end.

(** [for (i = n - 1; i < n; i--)] over the groups of [v]. *)
Fixpoint add_groups (d : nat) (n : nat) (v : Z) : act cbb_world unit :=
  match n with
  | O => mret tt
  | S i =>
    let byte := Z.land (Z.shiftr v (7 * Z.of_nat i)) 0x7f in
    let byte := if (i =? 0)%nat then byte else Z.lor byte 0x80 in
    _ ← CBB_add_u8 d byte;
    add_groups d i v
  end.

Definition add_base128_integer (d : nat) (v : Z) : act cbb_world unit :=
  let len_len := base128_len 10 v in
  let len_len := if (len_len =? 0)%nat then 1%nat else len_len in
  add_groups d len_len v.

Definition CBB_add_asn1 (d : nat) (tag : Z) : act cbb_world nat :=
  _ ← CBB_flush d;
  let tag_bits := Z.land (Z.shiftr tag CBS_ASN1_TAG_SHIFT) 0xe0 in
  let tag_number := Z.land tag CBS_ASN1_TAG_NUMBER_MASK in
  _ ← (if 0x1f <=? tag_number then
         _ ← CBB_add_u8 d (Z.lor tag_bits 0x1f);
         add_base128_integer d tag_number
       else CBB_add_u8 d (Z.lor tag_bits tag_number));
  cbb_add_child d 1 true.

(** A body whose failure runs [cbb_on_error]. *)
Definition or_on_error {A} (d : nat) (m : act cbb_world A) : act cbb_world A :=
  o ← try m;
  match o with
  | Some a => mret a
  | None => cbb_on_error d
  end.

(** The loop of [CBB_add_asn1_uint64_with_tag] over the eight bytes of [value],
    most significant first; the result is [started]. *)
Fixpoint uint64_bytes_loop (child : nat) (started : bool) (l : list Z) : act cbb_world bool :=
  match l with
  | [] => mret started
  | byte :: l =>
    if negb started then
      if byte =? 0 then uint64_bytes_loop child started l
      else
        _ ← (if negb (Z.land byte 0x80 =? 0) then CBB_add_u8 child 0 else mret tt);
        _ ← CBB_add_u8 child byte;
        uint64_bytes_loop child true l
    else
      _ ← CBB_add_u8 child byte;
      uint64_bytes_loop child started l
  end.

Definition CBB_add_asn1_uint64_with_tag (d : nat) (value tag : Z) : act cbb_world unit :=
  _ ← or_on_error d
        (child ← CBB_add_asn1 d tag;
         started ← uint64_bytes_loop child false
           (map (fun i => Z.land (Z.shiftr value (8 * (7 - i))) 0xff) [0; 1; 2; 3; 4; 5; 6; 7]);
         if (started : bool) then mret tt else CBB_add_u8 child 0);
  CBB_flush d.

Definition CBB_add_asn1_uint64 (d : nat) (value : Z) : act cbb_world unit :=
  CBB_add_asn1_uint64_with_tag d value CBS_ASN1_INTEGER.

(** [while (start > 0 && bytes[start] == 0xff && (bytes[start - 1] & 0x80))
    start--;] *)
Fixpoint int64_start (bytes : list Z) (start : nat) : nat :=
  match start with
  | O => O
  | S start' =>
    if (nth start bytes 0 =? 0xff) && negb (Z.land (nth start' bytes 0) 0x80 =? 0)
    then int64_start bytes start' else start
  end.

Fixpoint add_u8_list (d : nat) (l : list Z) : act cbb_world unit :=
  match l with
  | [] => mret tt
  | b :: l => _ ← CBB_add_u8 d b; add_u8_list d l
  end.

Definition CBB_add_asn1_int64_with_tag (d : nat) (value tag : Z) : act cbb_world unit :=
  if 0 <=? value then CBB_add_asn1_uint64_with_tag d value tag
  else
    let bytes := le_split 8 (u64 value) in
    let start := int64_start bytes 7 in
    _ ← or_on_error d
          (child ← CBB_add_asn1 d tag;
           add_u8_list child (rev (take (S start) bytes)));
    CBB_flush d.

Definition CBB_add_asn1_int64 (d : nat) (value : Z) : act cbb_world unit :=
  CBB_add_asn1_int64_with_tag d value CBS_ASN1_INTEGER.

Definition CBB_add_asn1_octet_string (d : nat) (data : list Z) : act cbb_world unit :=
  or_on_error d
    (child ← CBB_add_asn1 d CBS_ASN1_OCTETSTRING;
     _ ← CBB_add_bytes child data;
     CBB_flush d).

Definition CBB_add_asn1_bool (d : nat) (value : bool) : act cbb_world unit :=
  or_on_error d
    (child ← CBB_add_asn1 d CBS_ASN1_BOOLEAN;
     _ ← CBB_add_u8 child (if value then 0xff else 0);
     CBB_flush d).

(** ** Object identifiers from text *)

Definition parse_dotted_decimal : act CBS Z :=
  out ← CBS_get_u64_decimal;
  dot ← try CBS_get_u8;
  cbs ← read_obj;
  match dot with
  | None => mret out
  | Some dot => if (dot =? 46) && (0 <? CBS_len cbs) then mret out else fail
  end.

(** [while (CBS_len(&cbs) > 0)]: every turn consumes a digit. *)
Fixpoint oid_components (fuel : nat) (d : nat) (cbs : CBS) : act cbb_world unit :=
  match cbs with
  | [] => mret tt
  | _ =>
    match fuel with
    | O => fail
    | S fuel =>
      match parse_dotted_decimal cbs with
      | (None, _) => fail
      | (Some a, cbs') =>
        _ ← add_base128_integer d a;
        oid_components fuel d cbs'
      end
    end
  end.

Definition CBB_add_asn1_oid_from_text (d : nat) (text : list Z) : act cbb_world unit :=
  _ ← CBB_flush d;
  match parse_dotted_decimal text with
  | (None, _) => fail
  | (Some a, cbs) =>
    match parse_dotted_decimal cbs with
    | (None, _) => fail
    | (Some b, cbs) =>
      if (2 <? a) || ((a <? 2) && (39 <? b)) || (UINT64_MAX - 80 <? b) then fail
      else
        _ ← add_base128_integer d (u64 (40 * a + b));
        oid_components (length cbs) d cbs
    end
  end.

(** The characters [snprintf] writes for [%] [PRIu64]. *)
Fixpoint decimal_digits (fuel : nat) (v : Z) (acc : list Z) : list Z :=
  match fuel with
  | O => acc
  | S fuel =>
    let acc := 48 + v mod 10 :: acc in
    if v <? 10 then acc else decimal_digits fuel (v / 10) acc
  end.

Definition add_decimal (d : nat) (v : Z) : act cbb_world unit :=
  CBB_add_bytes d (decimal_digits 20 v []).

(** [while (CBS_len(&copy) != 0)]: every turn consumes a byte. *)
Fixpoint oid_to_text_loop (fuel : nat) (copy : CBS) : act cbb_world unit :=
  match copy with
  | [] => mret tt
  | _ =>
    match fuel with
    | O => fail
    | S fuel =>
      match parse_base128_integer copy with
      | (None, _) => fail
      | (Some v, copy) =>
        _ ← CBB_add_u8 0 46;
        _ ← add_decimal 0 v;
        oid_to_text_loop fuel copy
      end
    end
  end.

(** [CBS_asn1_oid_to_text]: the string with its terminator, or [NULL]. *)
Definition CBS_asn1_oid_to_text (oom : list bool) (junk : Z) (cbs : CBS) : option (list Z) :=
  match CBB_init 32 oom junk with
  | None => None
  | Some w =>
    (match parse_base128_integer cbs with
     | (None, _) => fail
     | (Some v, copy) =>
       _ ← (if 80 <=? v then
              _ ← CBB_add_bytes 0 [50; 46]; add_decimal 0 (v - 80)
            else
              _ ← add_decimal 0 (v / 40); _ ← CBB_add_u8 0 46; add_decimal 0 (v mod 40));
       _ ← oid_to_text_loop (length copy) copy;
       _ ← CBB_add_u8 0 0;
       CBB_finish 0 true true
     end w).1
  end.

(** ** Sets *)

(** The bytes of the elements a list of bytes consists of. *)
Fixpoint split_elements (fuel : nat) (cbs : CBS) : option (list CBS) :=
  match cbs with
  | [] => Some []
  | _ =>
    match fuel with
    | O => None
    | S fuel =>
      match CBS_get_any_asn1_element cbs with
      | (None, _) => None
      | (Some e, cbs') => cons (el_out e) <$> split_elements fuel cbs'
      end
    end
  end.

(** [OPENSSL_memcmp] of two lists, up to the end of the shorter: the sign. *)
Fixpoint memcmp_sign (a b : list Z) : Z :=
  match a, b with
  | x :: a, y :: b => if x <? y then -1 else if y <? x then 1 else memcmp_sign a b
  | _, _ => 0
  end.

Definition compare_set_of_element (a b : CBS) : Z :=
  let ret := memcmp_sign a b in
  if negb (ret =? 0) then ret
  else if CBS_len a =? CBS_len b then 0
  else if CBS_len a <? CBS_len b then -1 else 1.

(** [qsort]: elements the order does not tell apart are equal lists. *)
Fixpoint sort_insert (x : CBS) (l : list CBS) : list CBS :=
  match l with
  | [] => [x]
  | y :: l' => if compare_set_of_element x y <=? 0 then x :: l else y :: sort_insert x l'
  end.
Definition qsort (l : list CBS) : list CBS := foldr sort_insert [] l.

Definition alloc : act cbb_world bool := fun w =>
  (Some (match oom w with b :: _ => negb b | [] => true end),
   mk_world (base w) (children w) (tail (oom w)) (junk w)).

Definition CBB_flush_asn1_set_of (d : nat) : act cbb_world unit :=
  _ ← CBB_flush d;
  w ← read_obj;
  let data := CBB_data d w in
  match split_elements (length data) data with
  | None => fail
  | Some elements =>
    if (length elements <? 2)%nat then mret tt
    else
      buf_ok ← alloc;
      children_ok ← alloc;
      if negb buf_ok || negb children_ok then fail
      else buf_write (len (base w) - CBB_len d w) (concat (qsort elements))
  end.
