(* ===== verification/CbsSpec.v ===== *)
(** * BoringSSL: the DER parser accepts exactly DER

    Reference encodings of big-endian integers, base-128 integers, tags and
    lengths, and the proofs that the parsers of [cbs.c] accept exactly the
    reference encodings: what is encoded is parsed, and what is parsed was the
    encoding of the result. *)
From S2P Require Export Cbs.

(** ** Reading from the front *)

Lemma CBS_len_app l1 l2 : CBS_len (l1 ++ l2) = CBS_len l1 + CBS_len l2.
Proof. unfold CBS_len. rewrite length_app. lia. Qed.
Lemma CBS_len_nonneg l : 0 <= CBS_len l.
Proof. unfold CBS_len. lia. Qed.

Lemma cbs_get_app n l rest : CBS_len l = n -> cbs_get n (l ++ rest) = (Some l, rest).
Proof.
  unfold cbs_get. rewrite CBS_len_app. intros <-. pose proof (CBS_len_nonneg rest).
  destruct (Z.ltb_spec (CBS_len l + CBS_len rest) (CBS_len l)); [lia|].
  unfold CBS_len. by rewrite Nat2Z.id, take_app_length, drop_app_length.
Qed.

Lemma cbs_get_inv n cbs l rest :
  0 <= n -> cbs_get n cbs = (Some l, rest) -> cbs = l ++ rest /\ CBS_len l = n.
Proof.
  intros Hn. unfold cbs_get. destruct (Z.ltb_spec (CBS_len cbs) n); [done|].
  intros [= <- <-]. rewrite take_drop. split; [done|].
  unfold CBS_len in *. rewrite length_take. lia.
Qed.

Lemma CBS_get_u8_cons b cbs : CBS_get_u8 (b :: cbs) = (Some b, cbs).
Proof.
  unfold CBS_get_u8. by erewrite act_bind_some by by apply (cbs_get_app 1 [b] cbs).
Qed.

Lemma CBS_get_u8_inv cbs b rest : CBS_get_u8 cbs = (Some b, rest) -> cbs = b :: rest.
Proof. destruct cbs as [|c cbs]; [done|]. rewrite CBS_get_u8_cons. by intros [= <- <-]. Qed.

Lemma CBS_skip_app l rest : CBS_skip (CBS_len l) (l ++ rest) = (Some tt, rest).
Proof. unfold CBS_skip. by erewrite act_bind_some by by apply cbs_get_app. Qed.

(** ** Big-endian integers *)

Definition be_value (l : list Z) : Z := le_combine (rev l).
Definition be_bytes (n : nat) (v : Z) : list Z := rev (le_split n v).

Lemma length_be_bytes n v : length (be_bytes n v) = n.
Proof. unfold be_bytes. by rewrite length_rev, length_le_split. Qed.

Lemma bytes_rev l : bytes (rev l) <-> bytes l.
Proof.
  unfold bytes. split; [|apply List.Forall_rev].
  intros H. rewrite <-(rev_involutive l). by apply List.Forall_rev.
Qed.

Lemma be_bytes_bytes n v : bytes (be_bytes n v).
Proof. apply bytes_rev, le_split_bytes. Qed.

Lemma be_value_bytes n v : be_value (be_bytes n v) = v mod 2 ^ (8 * Z.of_nat n).
Proof. unfold be_value, be_bytes. by rewrite rev_involutive, le_combine_split. Qed.

Lemma be_bytes_value l : bytes l -> be_bytes (length l) (be_value l) = l.
Proof.
  intros Hl. unfold be_bytes, be_value. rewrite <-length_rev.
  rewrite le_split_combine by by apply bytes_rev. apply rev_involutive.
Qed.

Lemma be_value_range l : bytes l -> 0 <= be_value l < 2 ^ (8 * Z.of_nat (length l)).
Proof. intros Hl. rewrite <-length_rev. by apply le_combine_range, bytes_rev. Qed.

Lemma be_value_snoc l b : be_value (l ++ [b]) = be_value l * 256 + b.
Proof. unfold be_value. rewrite rev_app_distr. cbn [rev app le_combine]. lia. Qed.

(** Shifting bytes in from the right computes the value while it fits. *)
Lemma foldl_be_step l :
  bytes l -> (length l <= 8)%nat -> foldl be_step 0 l = be_value l.
Proof.
  induction l as [|b l IH] using rev_ind; [done|]. intros Hb Hlen.
  apply bytes_app in Hb as [Hl Hb]. apply bytes_cons in Hb as [Hb _].
  rewrite length_app in Hlen. simpl in Hlen.
  rewrite foldl_app, IH, be_value_snoc by (done || lia). cbn [foldl]. unfold be_step.
  pose proof (be_value_range l Hl) as Hr.
  assert (Hp : 2 ^ (8 * Z.of_nat (length l)) <= 2 ^ 56) by (apply Z.pow_le_mono_r; lia).
  rewrite Z.shiftl_mul_pow2 by lia. change (2 ^ 8) with 256. rewrite u64_small by lia.
  unfold is_byte in Hb. rewrite Z.lor_comm, (lor_add _ _ 8); [lia|lia|lia|].
  change (2 ^ 8) with 256. apply Z_mod_mult.
Qed.

Lemma cbs_get_u_app l rest :
  bytes l -> (length l <= 8)%nat ->
  cbs_get_u (CBS_len l) (l ++ rest) = (Some (be_value l), rest).
Proof.
  intros Hl Hlen. unfold cbs_get_u.
  erewrite act_bind_some by by apply cbs_get_app. by rewrite foldl_be_step.
Qed.

Lemma cbs_get_u_inv n cbs v rest :
  0 <= n <= 8 -> bytes cbs -> cbs_get_u n cbs = (Some v, rest) ->
  exists l, cbs = l ++ rest /\ CBS_len l = n /\ v = be_value l /\ bytes l /\ bytes rest.
Proof.
  intros Hn Hb H. apply act_bind_inv in H as (l & s & H1 & H2).
  apply cbs_get_inv in H1 as [-> Hlen]; [|lia].
  apply bytes_app in Hb as [Hl Hrest]. injection H2 as <- <-.
  exists l. split_and!; [done|done| |done|done]. apply foldl_be_step; [done|].
  unfold CBS_len in Hlen. lia.
Qed.

(** ** Base-128 integers *)

(** The groups of [v], most significant first, each with its high bit set;
    nothing for zero. *)
Fixpoint high_groups (fuel : nat) (v : Z) : list Z :=
  match fuel with
  | O => []
  | S fuel => if 0 <? v then high_groups fuel (v / 128) ++ [v mod 128 + 128] else []
  end.
Definition base128 (v : Z) : list Z := high_groups 9 (v / 128) ++ [v mod 128].

Lemma high_groups_fuel n m v :
  0 <= v < 128 ^ Z.of_nat n -> (n <= m)%nat -> high_groups m v = high_groups n v.
Proof.
  revert m v. induction n as [|n IH]; intros m v Hv Hm.
  - simpl in Hv. assert (v = 0) as -> by lia. by destruct m.
  - destruct m as [|m]; [lia|]. cbn [high_groups]. destruct (Z.ltb_spec 0 v); [|done].
    rewrite IH; [done| |lia].
    rewrite Nat2Z.inj_succ, Z.pow_succ_r in Hv by lia.
    split; [apply Z.div_pos; lia|apply Z.div_lt_upper_bound; lia].
Qed.

Lemma base128_step_lor v b :
  0 <= v < 2 ^ 57 -> Z.lor (u64 (Z.shiftl v 7)) (Z.land b 0x7f) = v * 128 + b mod 128.
Proof.
  intros Hv. rewrite Z.shiftl_mul_pow2, land_7F by lia. change (2 ^ 7) with 128.
  rewrite u64_small by lia. pose proof (Z.mod_pos_bound b 128).
  rewrite Z.lor_comm, (lor_add _ _ 7); [lia|lia|simpl; lia|]. change (2 ^ 7) with 128.
  apply Z_mod_mult.
Qed.

Lemma high_bit_clear b : is_byte b -> (Z.land b 0x80 =? 0) = (b <? 128).
Proof.
  intros Hb. unfold is_byte in Hb.
  assert (E : forallb (fun n => Bool.eqb (Z.land (Z.of_nat n) 0x80 =? 0) (Z.of_nat n <? 128))
                (seq 0 256) = true) by reflexivity.
  rewrite forallb_forall in E. specialize (E (Z.to_nat b)).
  rewrite Z2Nat.id in E by lia. apply Bool.eqb_prop, E, in_seq. lia.
Qed.

Lemma shiftr_57 v : 0 <= v < 2 ^ 57 -> Z.shiftr v (64 - 7) = 0.
Proof. intros. rewrite Z.shiftr_div_pow2 by lia. apply Z.div_small. simpl. lia. Qed.

Lemma base128_loop_cons v b rest :
  0 <= v < 2 ^ 57 -> is_byte b -> (v <> 0 \/ b <> 128) ->
  base128_loop v (b :: rest)
  = (if b <? 128 then (Some (v * 128 + b), rest) else base128_loop (v * 128 + (b - 128)) rest).
Proof.
  intros Hv Hb Hne. cbn [base128_loop]. rewrite shiftr_57 by done. cbn [Z.eqb negb].
  assert ((v =? 0) && (b =? 128) = false) as -> by lia.
  rewrite base128_step_lor, high_bit_clear by done. unfold is_byte in Hb.
  destruct (Z.ltb_spec b 128); cbn [negb].
  - by rewrite Z.mod_small by lia.
  - replace (b mod 128) with (b - 128); [done|].
    apply (Z.mod_unique_pos _ _ 1); lia.
Qed.

Lemma base128_loop_high n v rest :
  0 <= v < 2 ^ 57 -> v < 128 ^ Z.of_nat n ->
  base128_loop 0 (high_groups n v ++ rest) = base128_loop v rest.
Proof.
  revert v rest. induction n as [|n IH]; intros v rest Hv Hn.
  - simpl in Hn. by assert (v = 0) as -> by lia.
  - cbn [high_groups]. destruct (Z.ltb_spec 0 v); [|by assert (v = 0) as -> by lia].
    rewrite <-app_assoc. rewrite Nat2Z.inj_succ, Z.pow_succ_r in Hn by lia.
    pose proof (Z.mod_pos_bound v 128 ltac:(lia)).
    pose proof (Z.div_mod v 128 ltac:(lia)).
    assert (0 <= v / 128) by (apply Z.div_pos; lia).
    assert (v / 128 < 128 ^ Z.of_nat n) by (apply Z.div_lt_upper_bound; lia).
    rewrite IH by lia. cbn [app].
    rewrite base128_loop_cons; [|lia|unfold is_byte; lia|lia].
    destruct (Z.ltb_spec (v mod 128 + 128) 128); [lia|]. f_equal. lia.
Qed.

Lemma parse_base128_app v rest :
  0 <= v < 2 ^ 64 -> parse_base128_integer (base128 v ++ rest) = (Some v, rest).
Proof.
  intros Hv. unfold parse_base128_integer, base128. rewrite <-app_assoc.
  pose proof (Z.mod_pos_bound v 128 ltac:(lia)). pose proof (Z.div_mod v 128 ltac:(lia)).
  assert (0 <= v / 128 < 2 ^ 57) by (split; [apply Z.div_pos; lia|apply Z.div_lt_upper_bound; lia]).
  rewrite base128_loop_high by (simpl; lia). cbn [app].
  rewrite base128_loop_cons; [|lia|unfold is_byte; lia|lia].
  destruct (Z.ltb_spec (v mod 128) 128); [|lia]. repeat f_equal. lia.
Qed.

Lemma base128_loop_inv cbs : forall v r rest,
  0 <= v < 2 ^ 64 -> bytes cbs -> base128_loop v cbs = (Some r, rest) ->
  0 <= r < 2 ^ 64 /\ exists p, cbs = p ++ rest /\ high_groups 10 v ++ p = base128 r.
Proof.
  induction cbs as [|b cbs IH]; intros v r rest Hv Hb; [done|].
  apply bytes_cons in Hb as [Hb Hcbs]. intros H.
  destruct (Z.lt_ge_cases v (2 ^ 57)) as [Hlt|Hge].
  2:{ exfalso. cbn [base128_loop] in H. rewrite Z.shiftr_div_pow2 in H by lia.
      assert (1 <= v / 2 ^ (64 - 7)) by (apply Z.div_le_lower_bound; simpl; lia).
      destruct (Z.eqb_spec (v / 2 ^ (64 - 7)) 0); [lia|done]. }
  destruct (decide (v = 0 /\ b = 128)) as [[-> ->]|Hne]; [done|].
  rewrite base128_loop_cons in H; [|lia|done|lia]. unfold is_byte in Hb.
  assert (Hv10 : high_groups 10 v = high_groups 9 v) by (apply high_groups_fuel; simpl; lia).
  destruct (Z.ltb_spec b 128).
  - injection H as <- <-. split; [lia|]. exists [b]. split; [done|].
    rewrite Hv10. unfold base128.
    rewrite Z.div_add_l, (Z.div_small b 128), Z.add_0_r by lia.
    by rewrite <-(Z.mod_unique_pos (v * 128 + b) 128 v b) by lia.
  - destruct (IH (v * 128 + (b - 128)) r rest ltac:(lia) Hcbs H) as (Hr & p & -> & Hp). split; [done|].
    exists (b :: p). split; [done|]. rewrite <-Hp, Hv10.
    cbn [high_groups]. destruct (Z.ltb_spec 0 (v * 128 + (b - 128))); [|lia].
    rewrite Z.div_add_l, (Z.div_small (b - 128) 128), Z.add_0_r by lia.
    replace ((v * 128 + (b - 128)) mod 128 + 128) with b; [by rewrite <-app_assoc|].
    rewrite <-(Z.mod_unique_pos (v * 128 + (b - 128)) 128 v (b - 128)); lia.
Qed.

(** ** Tags *)

(** The in-memory tags: three leading bits at 29, the number below, and neither
    [UNIVERSAL 0] nor its constructed form. *)
Definition tag_ok (tag : Z) : Prop :=
  0 <= tag < 2 ^ 32 /\ tag <> 0 /\ tag <> CBS_ASN1_CONSTRUCTED.

Definition tag_enc (tag : Z) : list Z :=
  let bits := tag / 2 ^ 29 * 32 in
  let number := tag mod 2 ^ 29 in
  if 31 <=? number then (bits + 31) :: base128 number else [bits + number].

Lemma land_constructed a :
  Z.land a CBS_ASN1_CONSTRUCTED = if Z.testbit a 29 then CBS_ASN1_CONSTRUCTED else 0.
Proof.
  change CBS_ASN1_CONSTRUCTED with (2 ^ 29).
  apply Z.bits_inj'. intros n Hn. rewrite Z.land_spec, Z.pow2_bits_eqb by lia.
  destruct (Z.eqb_spec 29 n) as [<-|Hne].
  - rewrite andb_true_r. destruct (Z.testbit a 29); [|by rewrite Z.bits_0].
    by rewrite Z.pow2_bits_true.
  - rewrite andb_false_r. destruct (Z.testbit a 29); [|by rewrite Z.bits_0].
    by rewrite Z.pow2_bits_false.
Qed.

Lemma ldiff_constructed tag :
  0 <= tag < 2 ^ 32 -> (Z.ldiff tag CBS_ASN1_CONSTRUCTED =? 0) = false <-> tag_ok tag.
Proof.
  intros Ht. unfold tag_ok. rewrite Z.eqb_neq. split.
  - intros H. split_and!; [lia|lia| |]; intros ->; by apply H.
  - intros (_ & H0 & Hc) E. pose proof (Z.lor_ldiff_and tag CBS_ASN1_CONSTRUCTED) as Hl.
    rewrite E, Z.lor_0_l, land_constructed in Hl. destruct (Z.testbit tag 29); congruence.
Qed.

(** The tag byte splits into leading bits and number. *)
Lemma tag_byte_bits b :
  is_byte b ->
  u32 (Z.shiftl (Z.land b 0xe0) CBS_ASN1_TAG_SHIFT) = b / 32 * 2 ^ 29 /\ Z.land b 0x1f = b mod 32.
Proof.
  intros Hb. unfold is_byte in Hb.
  assert (E : forallb (fun n => (u32 (Z.shiftl (Z.land (Z.of_nat n) 0xe0) CBS_ASN1_TAG_SHIFT)
                                 =? Z.of_nat n / 32 * 2 ^ 29)
                                && (Z.land (Z.of_nat n) 0x1f =? Z.of_nat n mod 32)) (seq 0 256)
              = true) by (vm_compute; reflexivity).
  rewrite forallb_forall in E. specialize (E (Z.to_nat b)).
  rewrite Z2Nat.id in E by lia. rewrite andb_true_iff, !Z.eqb_eq in E. apply E, in_seq. lia.
Qed.

Lemma tag_lor c n : 0 <= n < 2 ^ 29 -> Z.lor (c * 2 ^ 29) n = c * 2 ^ 29 + n.
Proof.
  intros Hn. rewrite Z.lor_comm, (lor_add _ _ 29); [lia|lia|done|]. apply Z_mod_mult.
Qed.

(** The last steps of [parse_asn1_tag], from the class and the number. *)
Lemma parse_asn1_tag_byte b cbs :
  is_byte b ->
  parse_asn1_tag (b :: cbs)
  = (n ← (if b mod 32 =? 31 then
            v ← parse_base128_integer;
            if (2 ^ 29 - 1 <? v) || (v <? 31) then fail else mret (u32 v)
          else mret (b mod 32));
     let tag := Z.lor (b / 32 * 2 ^ 29) n in
     if Z.ldiff tag CBS_ASN1_CONSTRUCTED =? 0 then fail else mret tag) cbs.
Proof.
  intros Hb. unfold parse_asn1_tag.
  erewrite act_bind_some by apply CBS_get_u8_cons. cbv zeta.
  destruct (tag_byte_bits b Hb) as [-> ->]. done.
Qed.

Lemma parse_tag_app tag rest :
  tag_ok tag -> parse_asn1_tag (tag_enc tag ++ rest) = (Some tag, rest).
Proof.
  intros Hok. pose proof Hok as (Ht & _).
  pose proof (Z.mod_pos_bound tag (2 ^ 29) ltac:(lia)). pose proof (Z.div_mod tag (2 ^ 29) ltac:(lia)).
  assert (Hc : 0 <= tag / 2 ^ 29 < 8) by (split; [apply Z.div_pos; lia|apply Z.div_lt_upper_bound; lia]).
  assert (Hend : (let t := Z.lor (tag / 2 ^ 29 * 2 ^ 29) (tag mod 2 ^ 29) in
            if Z.ldiff t CBS_ASN1_CONSTRUCTED =? 0 then fail else mret t) rest = (Some tag, rest)).
  { rewrite tag_lor by lia. replace (tag / 2 ^ 29 * 2 ^ 29 + tag mod 2 ^ 29) with tag by lia.
    cbv zeta. by rewrite (proj2 (ldiff_constructed tag Ht) Hok). }
  unfold tag_enc. destruct (Z.leb_spec 31 (tag mod 2 ^ 29)); cbn [app].
  - rewrite parse_asn1_tag_byte by (unfold is_byte; lia).
    rewrite Z.div_add_l, (Z.add_comm _ 31), Z_mod_plus_full by lia.
    change (31 / 32) with 0. change (31 mod 32) with 31. rewrite Z.add_0_r. cbn [Z.eqb Pos.eqb].
    erewrite act_bind_some; [exact Hend|].
    erewrite act_bind_some by (apply parse_base128_app; lia).
    assert ((2 ^ 29 - 1 <? tag mod 2 ^ 29) || (tag mod 2 ^ 29 <? 31) = false) as -> by lia.
    by rewrite u32_small by lia.
  - rewrite parse_asn1_tag_byte by (unfold is_byte; lia).
    rewrite Z.div_add_l, (Z.div_small (tag mod 2 ^ 29) 32), Z.add_0_r by lia.
    rewrite (Z.add_comm (tag / 2 ^ 29 * 32)), Z_mod_plus_full, (Z.mod_small _ 32) by lia.
    destruct (Z.eqb_spec (tag mod 2 ^ 29) 31); [lia|].
    by erewrite act_bind_some by done.
Qed.

Lemma parse_tag_inv cbs tag rest :
  bytes cbs -> parse_asn1_tag cbs = (Some tag, rest) -> tag_ok tag /\ cbs = tag_enc tag ++ rest.
Proof.
  intros Hb H. destruct cbs as [|b cbs]; [done|].
  apply bytes_cons in Hb as [Hb Hcbs]. rewrite parse_asn1_tag_byte in H by done.
  apply act_bind_inv in H as (n & s & Hn & H).
  unfold is_byte in Hb. pose proof (Z.mod_pos_bound b 32 ltac:(lia)).
  pose proof (Z.div_mod b 32 ltac:(lia)).
  assert (Hc : 0 <= b / 32 < 8) by (split; [apply Z.div_pos; lia|apply Z.div_lt_upper_bound; lia]).
  assert (Hcase : 0 <= n < 2 ^ 29 /\ b :: cbs = (if 31 <=? n then (b / 32 * 32 + 31) :: base128 n
                                      else [b / 32 * 32 + n]) ++ s).
  { destruct (Z.eqb_spec (b mod 32) 31) as [E|].
    - apply act_bind_inv in Hn as (v & s1 & Hv & Hn).
      apply base128_loop_inv in Hv as (Hv & p & -> & Hp); [|lia|done].
      destruct ((2 ^ 29 - 1 <? v) || (v <? 31)) eqn:Er; [done|].
      injection Hn as <- <-. rewrite u32_small by lia. split; [lia|].
      destruct (Z.leb_spec 31 v); [|lia]. simpl in Hp. subst p. cbn [app]. f_equal. lia.
    - injection Hn as <- <-. split; [lia|]. destruct (Z.leb_spec 31 (b mod 32)); [lia|].
      cbn [app]. f_equal. lia. }
  destruct Hcase as [Hn' Heq]. rewrite tag_lor in H by done. cbv zeta in H.
  destruct (Z.ldiff _ _ =? 0) eqn:E; [done|]. injection H as <- <-.
  assert (Ht : 0 <= b / 32 * 2 ^ 29 + n < 2 ^ 32) by lia.
  split; [by apply (ldiff_constructed _ Ht)|].
  unfold tag_enc. rewrite Z.div_add_l, (Z.div_small n), Z.add_0_r by lia.
  by rewrite <-(Z.mod_unique_pos (b / 32 * 2 ^ 29 + n) (2 ^ 29) (b / 32) n) by lia.
Qed.

(** ** Lengths *)

Definition len_enc (n : Z) : list Z :=
  if n <? 128 then [n]
  else
    let k := if n <? 2 ^ 8 then 1%nat else if n <? 2 ^ 16 then 2%nat
             else if n <? 2 ^ 24 then 3%nat else 4%nat in
    (128 + Z.of_nat k) :: be_bytes k n.

Definition der (tag : Z) (contents : list Z) : list Z :=
  tag_enc tag ++ len_enc (CBS_len contents) ++ contents.

Lemma be_value_be_bytes k n : 0 <= n < 2 ^ (8 * Z.of_nat k) -> be_value (be_bytes k n) = n.
Proof. intros. by rewrite be_value_bytes, Z.mod_small. Qed.

Lemma length_high_groups n v : (length (high_groups n v) <= n)%nat.
Proof.
  revert v. induction n as [|n IH]; intros v; cbn [high_groups]; [done|].
  case_match; [|simpl; lia]. rewrite length_app. specialize (IH (v / 128)). simpl. lia.
Qed.

Lemma CBS_len_tag_enc tag : 1 <= CBS_len (tag_enc tag) <= 11.
Proof.
  unfold tag_enc, CBS_len. case_match; [|simpl; lia]. unfold base128.
  pose proof (length_high_groups 9 (tag mod 2 ^ 29 / 128)). cbn [length]. rewrite length_app. cbn [length]. lia.
Qed.

(** The header of a [der] element of [n] bytes of contents. *)
Definition header_len_of (tag n : Z) : Z := CBS_len (tag_enc tag) + CBS_len (len_enc n).

(** The long form of a length. *)
Lemma len_enc_long n :
  128 <= n < 2 ^ 32 ->
  exists k : nat, (1 <= k <= 4)%nat /\ len_enc n = (128 + Z.of_nat k) :: be_bytes k n
    /\ 2 ^ (8 * (Z.of_nat k - 1)) <= n < 2 ^ (8 * Z.of_nat k).
Proof.
  intros Hn. unfold len_enc. destruct (Z.ltb_spec n 128); [lia|].
  repeat case_bool; [exists 1%nat|exists 2%nat|exists 3%nat|exists 4%nat];
    (split; [lia|split; [done|]]); simpl; lia.
Qed.

Lemma len_enc_of k n :
  (1 <= k <= 4)%nat -> 128 <= n -> 2 ^ (8 * (Z.of_nat k - 1)) <= n < 2 ^ (8 * Z.of_nat k) ->
  len_enc n = (128 + Z.of_nat k) :: be_bytes k n.
Proof.
  intros Hk Hn Hr. unfold len_enc. destruct (Z.ltb_spec n 128); [lia|].
  destruct k as [|[|[|[|[|k]]]]]; try lia; simpl in Hr; repeat case_bool; try lia; done.
Qed.

Lemma CBS_len_len_enc n : 0 <= n < 2 ^ 32 -> 1 <= CBS_len (len_enc n) <= 5.
Proof.
  intros Hn. destruct (Z.lt_ge_cases n 128).
  - unfold len_enc. destruct (Z.ltb_spec n 128); [|lia]. unfold CBS_len. simpl. lia.
  - destruct (len_enc_long n ltac:(lia)) as (k & Hk & -> & _). unfold CBS_len.
    cbn [length]. rewrite length_be_bytes. lia.
Qed.

Lemma land_7F_long k : (1 <= k <= 4)%nat -> Z.land (128 + Z.of_nat k) 0x7f = Z.of_nat k
  /\ (Z.land (128 + Z.of_nat k) 0x80 =? 0) = false.
Proof.
  intros Hk. rewrite high_bit_clear by (unfold is_byte; lia). rewrite land_7F. split; [|lia].
  symmetry. apply (Z.mod_unique_pos _ _ 1); lia.
Qed.

Lemma parse_header_app ber_ok tag n rest total :
  tag_ok tag -> 0 <= n < 2 ^ 32 -> total = header_len_of tag n + CBS_len rest ->
  parse_asn1_header ber_ok total (tag_enc tag ++ len_enc n ++ rest)
  = (Some (mk_header tag (header_len_of tag n) (n + header_len_of tag n) false false), rest).
Proof.
  intros Hok Hn Htotal. unfold parse_asn1_header, header_len_of in *.
  pose proof (CBS_len_tag_enc tag). pose proof (CBS_len_nonneg rest).
  erewrite act_bind_some by by apply parse_tag_app.
  destruct (Z.lt_ge_cases n 128) as [Hlt|Hge].
  - assert (E : len_enc n = [n]) by (unfold len_enc; by destruct (Z.ltb_spec n 128); [|lia]).
    rewrite E in *. cbn [app].
    erewrite act_bind_some by apply CBS_get_u8_cons. erewrite act_bind_some by done.
    rewrite high_bit_clear by (unfold is_byte; lia). destruct (Z.ltb_spec n 128); [|lia].
    change (CBS_len [n]) with 1 in *. rewrite u64_small by lia.
    unfold mret, act_ret. repeat f_equal; lia.
  - destruct (len_enc_long n ltac:(lia)) as (k & Hk & E & Hr). rewrite E in *. cbn [app].
    erewrite act_bind_some by apply CBS_get_u8_cons. erewrite act_bind_some by done.
    destruct (land_7F_long k Hk) as [-> ->].
    assert ((Z.of_nat k =? 0) = false) as -> by lia. rewrite andb_false_r.
    assert ((4 <? Z.of_nat k) = false) as -> by lia. cbn [orb].
    assert (Hlen : CBS_len (be_bytes k n) = Z.of_nat k)
      by (unfold CBS_len; by rewrite length_be_bytes).
    erewrite act_bind_some.
    2:{ rewrite <-Hlen. apply cbs_get_u_app; [apply be_bytes_bytes|].
        rewrite length_be_bytes. lia. }
    rewrite be_value_be_bytes by lia.
    assert ((n <? 128) = false) as -> by lia.
    assert ((Z.shiftr n ((Z.of_nat k - 1) * 8) =? 0) = false) as ->.
    { rewrite (Z.mul_comm (Z.of_nat k - 1) 8), Z.shiftr_div_pow2 by lia. apply Z.eqb_neq.
      assert (0 < 2 ^ (8 * (Z.of_nat k - 1))) by (apply Z.pow_pos_nonneg; lia).
      enough (1 <= n / 2 ^ (8 * (Z.of_nat k - 1))) by lia.
      apply Z.div_le_lower_bound; lia. }
    rewrite andb_false_r.
    assert (Ht : total - CBS_len (be_bytes k n ++ rest) = CBS_len (tag_enc tag) + 1).
    { rewrite CBS_len_app. unfold CBS_len in *. simpl length in Htotal. lia. }
    rewrite Ht.
    assert (Hl : CBS_len ((128 + Z.of_nat k) :: be_bytes k n) = 1 + Z.of_nat k).
    { unfold CBS_len in *. simpl length. lia. }
    rewrite Hl. rewrite !u64_small by lia.
    destruct (Z.ltb_spec (n + (CBS_len (tag_enc tag) + 1) + Z.of_nat k) n); [lia|].
    by rewrite <-Z.add_assoc.
Qed.

Lemma parse_header_inv total cbs h rest :
  bytes cbs -> total = CBS_len cbs -> parse_asn1_header false total cbs = (Some h, rest) ->
  exists n, 0 <= n < 2 ^ 32 /\ tag_ok (hd_tag h)
    /\ cbs = tag_enc (hd_tag h) ++ len_enc n ++ rest
    /\ h = mk_header (hd_tag h) (header_len_of (hd_tag h) n)
             (n + header_len_of (hd_tag h) n) false false.
Proof.
  intros Hb Htotal H. unfold parse_asn1_header in H.
  apply act_bind_inv in H as (tag & s & Htag & H).
  apply parse_tag_inv in Htag as [Hok ->]; [|done]. apply bytes_app in Hb as [_ Hb].
  apply act_bind_inv in H as (lb & s1 & Hlb & H). apply CBS_get_u8_inv in Hlb as ->.
  apply bytes_cons in Hb as [Hlb Hb]. apply act_bind_inv in H as (s2 & s3 & [= -> ->] & H).
  cbv zeta in H. cbn [andb] in H. pose proof (CBS_len_tag_enc tag). unfold is_byte in Hlb.
  assert (Hhl : total - CBS_len s3 = CBS_len (tag_enc tag) + 1).
  { rewrite Htotal, CBS_len_app. unfold CBS_len. simpl. lia. }
  rewrite Hhl in H. rewrite high_bit_clear, land_7F in H by done.
  destruct (Z.ltb_spec lb 128).
  - injection H as <- <-. exists lb. cbn [hd_tag]. unfold header_len_of.
    assert (E : len_enc lb = [lb]) by (unfold len_enc; by destruct (Z.ltb_spec lb 128); [|lia]).
    rewrite E. split_and!; [lia|lia|exact Hok|done|].
    rewrite u64_small by lia. unfold CBS_len at 3 4. simpl. f_equal; lia.
  - pose proof (Z.mod_unique_pos lb 128 1 (lb - 128) ltac:(lia) ltac:(lia)) as Hm.
    rewrite <-Hm in H. destruct ((_ =? 0) || _) eqn:Enb; [done|].
    apply act_bind_inv in H as (len64 & s4 & Hlen & H).
    apply cbs_get_u_inv in Hlen as (l & -> & Hll & -> & Hl & Hs4); [|lia|done].
    assert (Hk : Z.of_nat (length l) = lb - 128) by exact Hll.
    pose proof (be_value_range l Hl) as Hr.
    destruct (_ && _) eqn:Eb; [done|]. rewrite andb_true_l in Eb. cbn [negb] in Eb.
    apply orb_false_iff in Eb as [Esmall Epad].
    assert (Hge : 2 ^ (8 * (Z.of_nat (length l) - 1)) <= be_value l).
    { rewrite Z.shiftr_div_pow2 in Epad by lia. apply Z.eqb_neq in Epad.
      destruct (Z.lt_ge_cases (be_value l) (2 ^ (8 * (Z.of_nat (length l) - 1)))); [|done].
      exfalso. apply Epad. apply Z.div_small. rewrite Z.mul_comm, <-Hk. lia. }
    assert (H32 : 2 ^ (8 * Z.of_nat (length l)) <= 2 ^ 32) by (apply Z.pow_le_mono_r; lia).
    rewrite !u64_small in H by lia.
    destruct (Z.ltb_spec (be_value l + (CBS_len (tag_enc tag) + 1) + (lb - 128)) (be_value l)); [lia|].
    injection H as <- <-. cbn [hd_tag].
    exists (be_value l). unfold header_len_of.
    assert (E : len_enc (be_value l) = lb :: l).
    { rewrite (len_enc_of (length l)) by lia. f_equal; [lia|by apply be_bytes_value]. }
    rewrite E. split_and!; [lia|lia|exact Hok|done|].
    assert (CBS_len (lb :: l) = 1 + (lb - 128)) as -> by (unfold CBS_len; simpl length; lia).
    rewrite Esmall, Epad. f_equal; lia.
Qed.

(** ** Elements *)

Lemma CBS_len_der tag contents :
  CBS_len (der tag contents) = header_len_of tag (CBS_len contents) + CBS_len contents.
Proof. unfold der, header_len_of. rewrite !CBS_len_app. lia. Qed.

Lemma any_element_app ber_ok tag contents rest :
  tag_ok tag -> CBS_len contents < 2 ^ 32 ->
  cbs_get_any_asn1_element ber_ok (der tag contents ++ rest)
  = (Some (mk_element (der tag contents) tag (header_len_of tag (CBS_len contents)) false false),
     rest).
Proof.
  intros Hok Hlen. pose proof (CBS_len_nonneg contents). unfold cbs_get_any_asn1_element.
  erewrite act_bind_some by done. unfold on_copy.
  erewrite act_bind_some.
  2:{ replace (parse_asn1_header _ _ _) with
        (Some (mk_header tag (header_len_of tag (CBS_len contents))
           (CBS_len contents + header_len_of tag (CBS_len contents)) false false),
         contents ++ rest); [done|].
      symmetry. unfold der. rewrite <-!app_assoc. apply parse_header_app; [done|lia|].
      rewrite !CBS_len_app. unfold header_len_of. lia. }
  cbn [fst hd_len hd_tag hd_header_len hd_ber_found hd_indefinite].
  erewrite act_bind_some; [done|]. apply cbs_get_app. rewrite CBS_len_der. lia.
Qed.

Lemma any_element_inv cbs e rest :
  bytes cbs -> CBS_get_any_asn1_element cbs = (Some e, rest) ->
  exists contents, tag_ok (el_tag e) /\ CBS_len contents < 2 ^ 32
    /\ cbs = der (el_tag e) contents ++ rest
    /\ e = mk_element (der (el_tag e) contents) (el_tag e)
             (header_len_of (el_tag e) (CBS_len contents)) false false.
Proof.
  intros Hb H. apply act_bind_inv in H as (c & s & [= -> ->] & H).
  apply act_bind_inv in H as (h & s1 & Hh & H). unfold on_copy in Hh.
  destruct (parse_asn1_header _ _ _) as [[h'|] rest'] eqn:E; [|done]. injection Hh as <- <-.
  apply parse_header_inv in E as (n & Hn & Hok & Hcbs & Eh); [|done|done].
  apply act_bind_inv in H as (out & s2 & Hout & H). injection H as <- <-.
  rewrite Eh in Hout |- *. cbn [fst hd_len hd_tag hd_header_len hd_ber_found hd_indefinite el_tag] in *.
  set (tag := hd_tag h') in *.
  pose proof (CBS_len_tag_enc tag). pose proof (CBS_len_len_enc n Hn).
  apply cbs_get_inv in Hout as [Hs Hlen]; [|unfold header_len_of; lia].
  rewrite Hs in Hcbs. rewrite app_assoc in Hcbs.
  assert (Hle : (length (tag_enc tag ++ len_enc n) <= length out)%nat).
  { unfold header_len_of in Hlen. rewrite length_app. unfold CBS_len in *. lia. }
  assert (Hout : out = (tag_enc tag ++ len_enc n) ++ drop (length (tag_enc tag ++ len_enc n)) out).
  { rewrite <-(take_drop (length (tag_enc tag ++ len_enc n)) out) at 1. f_equal.
    apply (f_equal (take (length (tag_enc tag ++ len_enc n)))) in Hcbs.
    by rewrite take_app_le, take_app_length in Hcbs by done. }
  set (contents := drop _ out) in Hout. exists contents.
  assert (Hc : CBS_len contents = n).
  { rewrite Hout, !CBS_len_app in Hlen. unfold header_len_of in Hlen. lia. }
  assert (Hd : out = der tag contents) by (unfold der; by rewrite Hc, app_assoc).
  rewrite Hc, <-Hd. split_and!; [done|lia|done|done].
Qed.

(** C8. The DER parser accepts exactly DER: on any bytes, [CBS_get_any_asn1_element]
    succeeds if and only if they begin with the reference encoding of a tag, of a
    length below 2^32 in its shortest form, and of that many bytes of contents; the
    element, its tag, the length of its header and the rest are then the ones of the
    encoding, and neither BER flag is set. *)
Theorem CBS_get_any_asn1_element_exactly_der cbs e rest :
  bytes cbs ->
  CBS_get_any_asn1_element cbs = (Some e, rest) <->
  exists tag contents, tag_ok tag /\ CBS_len contents < 2 ^ 32
    /\ cbs = der tag contents ++ rest
    /\ e = mk_element (der tag contents) tag (header_len_of tag (CBS_len contents)) false false.
Proof.
  intros Hb. split.
  - intros (contents & ? & ? & ? & ?)%any_element_inv; [by exists (el_tag e), contents|done].
  - intros (tag & contents & ? & ? & -> & ->). by apply any_element_app.
Qed.

(** A context-specific tag beyond the short form, three bytes of contents and two
    bytes behind the element. *)
Lemma CBS_get_any_asn1_element_exactly_der_witness :
  let cbs := [191; 129; 0; 3; 1; 2; 3; 9; 9] in
  let e := mk_element [191; 129; 0; 3; 1; 2; 3] 0xa0000080 4 false false in
  bytes cbs /\ CBS_get_any_asn1_element cbs = (Some e, [9; 9])
  /\ exists tag contents, tag_ok tag /\ CBS_len contents < 2 ^ 32
    /\ cbs = der tag contents ++ [9; 9]
    /\ e = mk_element (der tag contents) tag (header_len_of tag (CBS_len contents)) false false.
Proof.
  assert (Hb : bytes [191; 129; 0; 3; 1; 2; 3; 9; 9])
    by (repeat constructor; unfold is_byte; lia).
  split_and!; [exact Hb|vm_compute; reflexivity|].
  apply (CBS_get_any_asn1_element_exactly_der _ _ [9; 9] Hb). vm_compute. reflexivity.
Defined.

Lemma CBS_get_any_asn1_app tag contents rest :
  tag_ok tag -> CBS_len contents < 2 ^ 32 ->
  CBS_get_any_asn1 (der tag contents ++ rest) = (Some (contents, tag), rest).
Proof.
  intros Hok Hlen. unfold CBS_get_any_asn1, CBS_get_any_asn1_element.
  erewrite act_bind_some by (by apply (any_element_app false)).
  cbn [el_out el_tag el_header_len]. unfold on_obj, der, header_len_of. rewrite app_assoc, <-CBS_len_app.
  erewrite act_bind_some by by rewrite CBS_skip_app. done.
Qed.

Lemma CBS_get_asn1_app tag contents rest :
  tag_ok tag -> CBS_len contents < 2 ^ 32 ->
  CBS_get_asn1 tag (der tag contents ++ rest) = (Some contents, rest).
Proof.
  intros Hok Hlen. unfold CBS_get_asn1, cbs_get_asn1, CBS_get_any_asn1_element.
  erewrite act_bind_some by (by apply (any_element_app false)).
  cbn [el_out el_tag el_header_len]. rewrite Z.eqb_refl. cbn [negb].
  unfold on_obj, der, header_len_of. rewrite app_assoc, <-CBS_len_app.
  erewrite act_bind_some by by rewrite CBS_skip_app. done.
Qed.

Lemma CBS_get_asn1_inv tag cbs contents rest :
  bytes cbs -> CBS_get_asn1 tag cbs = (Some contents, rest) ->
  tag_ok tag /\ CBS_len contents < 2 ^ 32 /\ cbs = der tag contents ++ rest.
Proof.
  intros Hb H. apply act_bind_inv in H as (e & s & He & H).
  apply any_element_inv in He as (c & Hok & Hlen & -> & He); [|done].
  destruct e as [out t hl bf ind]. cbn [el_out el_tag el_header_len] in *.
  injection He as -> -> -> ->. destruct (Z.eqb_spec t tag) as [->|]; [|done]. cbn [negb] in H.
  apply act_bind_inv in H as ([u out'] & s1 & Hr & H). injection H as <- <-.
  unfold on_obj, der, header_len_of in Hr. rewrite app_assoc, <-CBS_len_app in Hr.
  rewrite CBS_skip_app in Hr. injection Hr as _ <- <-. done.
Qed.

(** ** Equality without early exit *)

Lemma CRYPTO_memcmp_loop_zero x a b :
  length a = length b -> CRYPTO_memcmp_loop x a b = 0 <-> x = 0 /\ a = b.
Proof.
  revert x b. induction a as [|c a IH]; intros x [|d b] Hlen; try done; cbn [CRYPTO_memcmp_loop].
  - naive_solver.
  - rewrite IH by (simpl in Hlen; lia). rewrite Z.lor_eq_0_iff, Z.lxor_eq_0_iff. naive_solver.
Qed.

(** The comparison that looks at every byte is equality: [CBS_mem_equal] answers
    1 exactly when the two byte strings are equal, lengths included. *)
Lemma CBS_mem_equal_iff cbs data : CBS_mem_equal cbs data = true <-> cbs = data.
Proof.
  unfold CBS_mem_equal, CRYPTO_memcmp, CBS_len.
  destruct (Z.eqb_spec (Z.of_nat (length data)) (Z.of_nat (length cbs))); cbn [negb].
  - rewrite Z.eqb_eq, CRYPTO_memcmp_loop_zero by lia. naive_solver.
  - split; [done|]. intros ->. lia.
Qed.
