(* ===== verification/CbbSpec.v ===== *)
(** * BoringSSL: what the CBB writers write

    [Writes d l m]: on a builder without an error whose innermost open object is at
    position [d], [m] either appends exactly [l] to the buffer and changes nothing
    else, or the allocator or a fixed buffer has no room for [l], and then the error
    is recorded. The writers compose: the elements written inside a child become the
    contents of its [der] encoding when the parent is flushed. *)
From S2P Require Export Cbb CbsSpec.

(** ** The contract of a writer *)

Definition ready (d : nat) (w : cbb_world) : Prop :=
  error (base w) = false /\ length (children w) = d
  /\ len (base w) <= cap (base w) < 2 ^ 64.

Definition no_room (w : cbb_world) (n : Z) : Prop :=
  2 ^ 64 <= len (base w) + n
  \/ cap (base w) < len (base w) + n /\ (can_resize (base w) = false \/ true ∈ oom w).

(** The parts of a world that writing leaves alone, or only lets grow. *)
Definition grows (w w' : cbb_world) : Prop :=
  can_resize (base w') = can_resize (base w) /\ error (base w') = error (base w)
  /\ cap (base w) <= cap (base w') /\ len (base w') <= cap (base w') < 2 ^ 64
  /\ (can_resize (base w) = false -> cap (base w') = cap (base w))
  /\ junk w' = junk w /\ oom w' ⊆ oom w.

Definition extends (w w' : cbb_world) (l : list Z) : Prop :=
  grows w w' /\ buf (base w') = buf (base w) ++ l /\ children w' = children w.

Definition Writes {A} (d : nat) (l : list Z) (m : act cbb_world A) : Prop := forall w,
  ready d w ->
  match m w with
  | (Some _, w') => extends w w' l
  | (None, w') => error (base w') = true /\ no_room w (CBS_len l)
  end.

Lemma grows_refl d w : ready d w -> grows w w.
Proof. intros (_ & _ & Hc). unfold grows. split_and!; try done; lia. Qed.

Lemma grows_trans w1 w2 w3 : grows w1 w2 -> grows w2 w3 -> grows w1 w3.
Proof.
  intros (R1 & E1 & C1 & L1 & F1 & J1 & O1) (R2 & E2 & C2 & L2 & F2 & J2 & O2).
  unfold grows. split_and!; try congruence; try lia; [|set_solver].
  intros Hf. rewrite F2 by congruence. by apply F1.
Qed.

Lemma extends_refl d w : ready d w -> extends w w [].
Proof. intros Hw. split_and!; [by eapply grows_refl|by rewrite app_nil_r|done]. Qed.

Lemma extends_trans w1 w2 w3 l1 l2 :
  extends w1 w2 l1 -> extends w2 w3 l2 -> extends w1 w3 (l1 ++ l2).
Proof.
  intros (G1 & B1 & C1) (G2 & B2 & C2). split_and!; [by eapply grows_trans| |congruence].
  by rewrite B2, B1, app_assoc.
Qed.

Lemma ready_grows d d' w w' : ready d w -> grows w w' -> length (children w') = d' -> ready d' w'.
Proof. intros (E & _ & _) (_ & E' & _ & L & _) Hd. unfold ready. split_and!; [congruence|done|lia..]. Qed.

Lemma ready_extends d w w' l : ready d w -> extends w w' l -> ready d w'.
Proof. intros Hw (G & _ & C). eapply ready_grows; [done..|]. rewrite C. apply Hw. Qed.

Lemma no_room_mono w n m : no_room w n -> n <= m -> no_room w m.
Proof. unfold no_room. intros [?|[??]] ?; [left; lia|right; split; [lia|done]]. Qed.

Lemma no_room_grows w w' l n :
  grows w w' -> len (base w') = len (base w) + l -> no_room w' n -> no_room w (l + n).
Proof.
  intros (R & _ & C & L & F & _ & O) Hl [H|[H1 H2]].
  - left. lia.
  - right. split; [lia|]. rewrite <-R. destruct H2; [by left|right; set_solver].
Qed.

Lemma len_extends w w' l : extends w w' l -> len (base w') = len (base w) + CBS_len l.
Proof. intros (_ & B & _). unfold len, CBS_len. rewrite B, length_app. lia. Qed.

Lemma Writes_ext {A} d l (m m' : act cbb_world A) :
  (forall w, m w = m' w) -> Writes d l m' -> Writes d l m.
Proof. intros E H w Hw. rewrite E. by apply H. Qed.

Lemma Writes_ret {A} d (a : A) : Writes d [] (mret a).
Proof. intros w Hw. by eapply extends_refl. Qed.

Lemma Writes_bind {A B} d l1 l2 (m : act cbb_world A) (k : A -> act cbb_world B) :
  Writes d l1 m -> (forall a, Writes d l2 (k a)) -> Writes d (l1 ++ l2) (m ≫= k).
Proof.
  intros Hm Hk w Hw. specialize (Hm w Hw). unfold mbind, act_bind.
  destruct (m w) as [[a|] w1].
  - specialize (Hk a w1 (ready_extends d w w1 l1 Hw Hm)).
    destruct (k a w1) as [[b|] w2]; [by eapply extends_trans|].
    destruct Hk as [He Hn]. split; [done|]. rewrite CBS_len_app.
    eapply no_room_grows; [apply Hm|by apply len_extends|done].
  - destruct Hm as [He Hn]. split; [done|]. rewrite CBS_len_app.
    pose proof (CBS_len_nonneg l2). eapply no_room_mono; [done|lia].
Qed.

(** [cbb_on_error] after a failure changes nothing of the contract. *)
Lemma Writes_or_on_error {A B} d l (m : act cbb_world A) (k : act cbb_world B) :
  Writes d l (_ ← m; k) -> Writes d l (_ ← or_on_error d m; k).
Proof.
  intros H w Hw. specialize (H w Hw). revert H. unfold or_on_error, mbind, act_bind, try.
  destruct (m w) as [[a|] w1]; [done|]. intros [He Hn]. by split.
Qed.

Lemma Writes_or_on_error' {A} d l (m : act cbb_world A) :
  Writes d l m -> Writes d l (or_on_error d m).
Proof.
  intros H w Hw. specialize (H w Hw). revert H. unfold or_on_error, mbind, act_bind, try.
  destruct (m w) as [[a|] w1]; [done|]. intros [He Hn]. by split.
Qed.

Lemma act_bind_assoc {St A B C} (m : act St A) (k : A -> act St B) (h : B -> act St C) w :
  ((m ≫= k) ≫= h) w = (m ≫= (fun a => k a ≫= h)) w.
Proof. unfold mbind, act_bind. by destruct (m w) as [[a|] w1]. Qed.

(** ** The buffer *)

(** With nothing open below [d], flushing does nothing. *)
Lemma CBB_flush_ready d w : ready d w -> CBB_flush d w = (Some tt, w).
Proof.
  intros (He & Hd & _). destruct w as [b c o j]. cbn [base children] in *.
  unfold CBB_flush, mbind, act_bind, read_obj, try, write_obj, set_children.
  cbn [base children oom junk]. rewrite <-Hd, Nat.ltb_irrefl, He, drop_all.
  cbn [flush_chain]. unfold mbind, act_bind, read_obj. cbn [base]. rewrite He.
  cbn [base children oom junk mret act_ret]. by rewrite firstn_all.
Qed.

Lemma CBB_finish_ready w :
  ready 0 w -> exists w', CBB_finish 0 true true w = (Some (buf (base w)), w').
Proof.
  intros Hw. unfold CBB_finish. cbn [Nat.eqb negb].
  unfold mbind, act_bind. rewrite (CBB_flush_ready 0 w Hw). unfold read_obj, write_obj. simpl.
  rewrite andb_false_r. eauto.
Qed.

Lemma cbb_buffer_add_spec d n w :
  ready d w -> 0 <= n < 2 ^ 64 ->
  match cbb_buffer_add n w with
  | (Some p, w') => p = len (base w) /\ extends w w' (replicate (Z.to_nat n) (junk w))
  | (None, w') => error (base w') = true /\ no_room w n
  end.
Proof.
  intros Hw Hn. pose proof Hw as (He & Hd & Hc).
  assert (0 <= len (base w)) by (unfold len; lia).
  unfold cbb_buffer_add, cbb_buffer_reserve, mbind, act_bind, read_obj, write_obj. cbv zeta.
  destruct (Z.lt_ge_cases (len (base w) + n) (2 ^ 64)) as [Hlt|Hge].
  2:{ assert (u64 (len (base w) + n) = len (base w) + n - 2 ^ 64) as ->.
      { symmetry. apply (Z.mod_unique_pos _ _ 1); lia. }
      destruct (Z.ltb_spec (len (base w) + n - 2 ^ 64) (len (base w))); [|lia].
      split; [done|left; lia]. }
  rewrite u64_small by lia. destruct (Z.ltb_spec (len (base w) + n) (len (base w))); [lia|].
  assert (Hl : forall b r e, len (mk_base (buf (base w) ++ replicate (Z.to_nat n) (junk w)) b r e)
                           = len (base w) + n).
  { intros b r e. unfold len. cbn [buf]. rewrite length_app, length_replicate. lia. }
  destruct (Z.ltb_spec (cap (base w)) (len (base w) + n)).
  - destruct (can_resize (base w)) eqn:Hr; cbn [negb].
    2:{ split; [done|]. right. split; [lia|by left]. }
    unfold try, OPENSSL_realloc.
    pose proof (u64_range (cap (base w) * 2)).
    destruct (oom w) as [|[] o] eqn:Ho; cbn [tail].
    2:{ split; [done|]. right. split; [lia|]. right. rewrite Ho. left. }
    all: split; [done|]; unfold extends, grows, set_buf, set_base;
      cbn [base children oom junk cap can_resize error buf]; rewrite Hl, Ho;
      split_and!; first [done|congruence|case_match; lia|set_solver].
  - split; [done|]. unfold extends, grows, set_buf, set_base.
    cbn [base children oom junk cap can_resize error buf]. rewrite Hl. split_and!; try done; lia.
Qed.

Lemma splice_app l old data new :
  length old = length data -> splice (l ++ old ++ new) (Z.of_nat (length l)) data = l ++ data ++ new.
Proof.
  intros H. unfold splice. rewrite Nat2Z.id, take_app_length, <-H.
  rewrite drop_app_add, drop_app_length. done.
Qed.

Lemma len_set_buf w l : len (base (set_buf w l)) = CBS_len l.
Proof. done. Qed.

(** Add space, then store [data] there. *)
Lemma space_write_spec {A} d data n (k : A) w :
  ready d w -> n = CBS_len data -> n < 2 ^ 64 ->
  match (out ← cbb_buffer_add n; _ ← buf_write out data; mret k) w with
  | (Some a, w') => a = k /\ extends w w' data
  | (None, w') => error (base w') = true /\ no_room w n
  end.
Proof.
  intros Hw -> Hlen. pose proof (CBS_len_nonneg data).
  pose proof (cbb_buffer_add_spec d (CBS_len data) w Hw ltac:(lia)) as Hs.
  unfold mbind, act_bind at 1. destruct (cbb_buffer_add (CBS_len data) w) as [[p|] w1]; [|done].
  destruct Hs as (-> & (R & E & C & L & F & J & O) & B & Ch).
  unfold buf_write, act_bind, read_obj, write_obj, mret, act_ret.
  assert (Hb : splice (buf (base w1)) (len (base w)) data = buf (base w) ++ data).
  { rewrite B. unfold len. rewrite <-(app_nil_r (replicate _ _)).
    rewrite splice_app, app_nil_r; [done|]. rewrite length_replicate. unfold CBS_len. lia. }
  split; [done|]. rewrite Hb. unfold extends, grows, set_buf, set_base.
  cbn [base children oom junk cap can_resize error buf].
  assert (len (mk_base (buf (base w) ++ data) (cap (base w1)) (can_resize (base w1)) (error (base w1)))
          = len (base w1)) as ->.
  { unfold len. rewrite B. cbn [buf]. rewrite !length_app, length_replicate. unfold CBS_len. lia. }
  done.
Qed.

(** ** Bytes and integers *)

(** A writer that flushes first, on a builder that has nothing to flush. *)
Lemma flush_first {A} d l (k : act cbb_world A) :
  Writes d l k -> Writes d l (_ ← CBB_flush d; k).
Proof.
  intros H w Hw. unfold mbind, act_bind. rewrite CBB_flush_ready by done. by apply H.
Qed.

Lemma CBB_flush_writes d : Writes d [] (CBB_flush d).
Proof. intros w Hw. rewrite CBB_flush_ready by done. by eapply extends_refl. Qed.

Lemma space_writes {A} d data n (k : A) :
  n = CBS_len data -> n < 2 ^ 64 ->
  Writes d data (out ← CBB_add_space d n; _ ← buf_write out data; mret k).
Proof.
  intros -> Hlen. unfold CBB_add_space. eapply Writes_ext; [intros; apply act_bind_assoc|].
  apply (flush_first d data (out ← cbb_buffer_add (CBS_len data); _ ← buf_write out data; mret k)).
  intros w Hw.
  pose proof (space_write_spec d data (CBS_len data) k w Hw eq_refl Hlen) as Hs.
  case_match. destruct o; [apply Hs|done].
Qed.

Lemma bind_ret_tt {St} (m : act St unit) w : m w = (_ ← m; mret tt) w.
Proof. unfold mbind, act_bind. by destruct (m w) as [[[]|] w1]. Qed.

Lemma bind_cong {St A B} (m : act St A) (k k' : A -> act St B) w :
  (forall a w, k a w = k' a w) -> (m ≫= k) w = (m ≫= k') w.
Proof. intros H. unfold mbind, act_bind. destruct (m w) as [[a|] w1]; [apply H|done]. Qed.

Lemma CBB_add_bytes_writes d data : CBS_len data < 2 ^ 64 -> Writes d data (CBB_add_bytes d data).
Proof.
  intros H. eapply Writes_ext; [|by apply (space_writes d data (CBS_len data) tt)].
  intros w. apply bind_cong. intros. apply bind_ret_tt.
Qed.

Lemma CBB_add_zeros_writes d n :
  0 <= n < 2 ^ 64 -> Writes d (replicate (Z.to_nat n) 0) (CBB_add_zeros d n).
Proof.
  intros Hn. eapply Writes_ext; [|apply (space_writes d _ n tt); [|lia]].
  - intros w. apply bind_cong. intros. apply bind_ret_tt.
  - unfold CBS_len. rewrite length_replicate. lia.
Qed.

Lemma be_bytes_S n v : be_bytes (S n) v = be_bytes n (v / 256) ++ [v mod 256].
Proof. done. Qed.

Lemma be_store_spec n v acc :
  be_store n v acc = (be_bytes n v ++ acc, v / 2 ^ (8 * Z.of_nat n)).
Proof.
  revert v acc. induction n as [|n IH]; intros v acc.
  - cbn. by rewrite Z.div_1_r.
  - cbn [be_store]. rewrite IH, be_bytes_S, <-app_assoc, Z.shiftr_div_pow2 by lia.
    change (2 ^ 8) with 256. f_equal. rewrite Z.div_div by (try apply Z.pow_pos_nonneg; lia).
    f_equal. replace (8 * Z.of_nat (S n)) with (8 + 8 * Z.of_nat n) by lia.
    by rewrite Z.pow_add_r by lia.
Qed.

Lemma CBS_len_be_bytes n v : CBS_len (be_bytes n v) = Z.of_nat n.
Proof. unfold CBS_len. by rewrite length_be_bytes. Qed.

Lemma cbb_add_u_writes d v (n : nat) :
  0 <= v < 2 ^ (8 * Z.of_nat n) -> (n <= 8)%nat ->
  Writes d (be_bytes n v) (cbb_add_u d v (Z.of_nat n)).
Proof.
  intros Hv Hn. eapply Writes_ext; [|apply (space_writes d (be_bytes n v) (Z.of_nat n) tt)].
  - intros w. unfold cbb_add_u. apply bind_cong. intros out w'. rewrite Nat2Z.id, be_store_spec.
    rewrite app_nil_r, Z.div_small by lia. done.
  - by rewrite CBS_len_be_bytes.
  - lia.
Qed.

Lemma CBB_add_u8_writes d b : is_byte b -> Writes d [b] (CBB_add_u8 d b).
Proof.
  intros Hb. unfold is_byte in Hb. pose proof (cbb_add_u_writes d b 1 ltac:(simpl; lia) ltac:(lia)) as H.
  unfold be_bytes in H. cbn [le_split rev app] in H. by rewrite Z.mod_small in H by lia.
Qed.

(** A value that does not fit is an error that stays. *)
Lemma cbb_add_u_too_large d v (n : nat) w :
  ready d w -> 2 ^ (8 * Z.of_nat n) <= v -> (n <= 8)%nat ->
  exists w', cbb_add_u d v (Z.of_nat n) w = (None, w') /\ error (base w') = true.
Proof.
  intros Hw Hv Hn. pose proof (space_writes d (be_bytes n v) (Z.of_nat n) tt) as H.
  rewrite CBS_len_be_bytes in H. specialize (H eq_refl ltac:(lia) w Hw). revert H.
  unfold cbb_add_u, mbind, act_bind. rewrite Nat2Z.id, be_store_spec, app_nil_r.
  assert (1 <= v / 2 ^ (8 * Z.of_nat n)) by (apply Z.div_le_lower_bound; [apply Z.pow_pos_nonneg|]; lia).
  destruct (Z.eqb_spec (v / 2 ^ (8 * Z.of_nat n)) 0); [lia|]. cbn [negb].
  destruct (CBB_add_space d (Z.of_nat n) w) as [[p|] w1].
  - destruct (buf_write p (be_bytes n v) w1) as [[u|] w2]; cbn [mret act_ret].
    + intros _. by eexists.
    + intros [? _]. by exists w2.
  - intros [? _]. by exists w1.
Qed.

(** ** Base-128 integers *)

Fixpoint high_bytes (n : nat) (v : Z) : list Z :=
  match n with
  | O => []
  | S i => Z.shiftr v (7 * Z.of_nat i) mod 128 + 128 :: high_bytes i v
  end.

Lemma high_bytes_S n v : high_bytes (S n) v = high_bytes n (v / 128) ++ [v mod 128 + 128].
Proof.
  induction n as [|n IH]; [done|].
  cbn [high_bytes] in *. rewrite IH. cbn [app]. f_equal. f_equal. f_equal.
  rewrite !Z.shiftr_div_pow2 by lia.
  replace (7 * Z.of_nat (S n)) with (7 + 7 * Z.of_nat n) by lia.
  rewrite Z.pow_add_r by lia. by rewrite Z.div_div by (try apply Z.pow_pos_nonneg; lia).
Qed.

Lemma high_groups_bytes fuel v : high_groups fuel v = high_bytes (base128_len fuel v) v.
Proof.
  revert v. induction fuel as [|fuel IH]; intros v; [done|]. cbn [high_groups base128_len].
  destruct (0 <? v); [|done]. rewrite high_bytes_S, IH, Z.shiftr_div_pow2 by lia. done.
Qed.

Lemma add_groups_writes d n v :
  0 <= v -> Writes d (high_bytes n (v / 128) ++ [v mod 128]) (add_groups d (S n) v).
Proof.
  intros Hv. assert (Hb : forall a, is_byte (a mod 128 + 128)).
  { intros a. pose proof (Z.mod_pos_bound a 128). unfold is_byte. lia. }
  induction n as [|n IH].
  - cbn [add_groups high_bytes app Nat.eqb]. cbv zeta. rewrite <-(app_nil_r [_]).
    apply Writes_bind; [|intros; apply Writes_ret].
    change (7 * Z.of_nat 0) with 0. rewrite Z.shiftr_0_r, land_7F.
    apply CBB_add_u8_writes. pose proof (Z.mod_pos_bound v 128). unfold is_byte. lia.
  - cbn [high_bytes app]. cbn [add_groups]. change ((S n =? 0)%nat) with false. cbv iota zeta.
    apply (Writes_bind d [_] (high_bytes n (v / 128) ++ [v mod 128])); [|intros; apply IH].
    rewrite land_7F. pose proof (Z.mod_pos_bound (Z.shiftr v (7 * Z.of_nat (S n))) 128).
    rewrite (lor_add _ 128 7) by (done || (simpl; lia)).
    replace (Z.shiftr (v / 128) (7 * Z.of_nat n)) with (Z.shiftr v (7 * Z.of_nat (S n))).
    { by apply CBB_add_u8_writes. }
    rewrite !Z.shiftr_div_pow2 by lia. replace (7 * Z.of_nat (S n)) with (7 + 7 * Z.of_nat n) by lia.
    rewrite Z.pow_add_r by lia. by rewrite Z.div_div by (try apply Z.pow_pos_nonneg; lia).
Qed.

Lemma add_base128_writes d v : 0 <= v < 2 ^ 64 -> Writes d (base128 v) (add_base128_integer d v).
Proof.
  intros Hv. unfold add_base128_integer, base128. rewrite high_groups_bytes.
  change (base128_len 10 v) with (if 0 <? v then S (base128_len 9 (Z.shiftr v 7)) else O).
  destruct (Z.ltb_spec 0 v).
  - cbn [Nat.eqb]. rewrite Z.shiftr_div_pow2 by lia. apply add_groups_writes. lia.
  - assert (v = 0) as -> by lia. apply (add_groups_writes d 0 0). lia.
Qed.

(** ** Children *)

(** Closing a child of the form [(ll, a)] around [contents] replaces its [ll]
    provisional bytes by [prefix]. *)
Definition Closes (ll : Z) (a : bool) (contents prefix : list Z) : Prop := forall w pre old,
  error (base w) = false -> len (base w) <= cap (base w) < 2 ^ 64 ->
  CBS_len old = ll -> buf (base w) = pre ++ old ++ contents ->
  match close_child (mk_child (CBS_len pre) ll a) w with
  | (Some _, w') =>
    grows w w' /\ buf (base w') = pre ++ prefix ++ contents /\ children w' = children w
  | (None, _) => no_room w (CBS_len prefix - ll)
  end.

Lemma buf_write_at pre old data post w :
  length old = length data -> buf (base w) = pre ++ old ++ post ->
  buf_write (CBS_len pre) data w = (Some tt, set_buf w (pre ++ data ++ post)).
Proof.
  intros Hl Hb. unfold buf_write, mbind, act_bind, read_obj, write_obj.
  by rewrite Hb, splice_app by done.
Qed.

Lemma grows_set_buf w l :
  len (base w) <= cap (base w) < 2 ^ 64 -> CBS_len l = len (base w) -> grows w (set_buf w l).
Proof.
  intros Hc Hl. unfold grows. rewrite len_set_buf, Hl.
  unfold set_buf, set_base. cbn [base children oom junk cap can_resize error buf].
  split_and!; first [done|lia].
Qed.

Lemma closes_prefixed (ll : nat) contents :
  (ll <= 8)%nat -> CBS_len contents < 2 ^ (8 * Z.of_nat ll) ->
  Closes (Z.of_nat ll) false contents (be_bytes ll (CBS_len contents)).
Proof.
  intros Hll Hlen w pre old He Hc Hold Hb. pose proof (CBS_len_nonneg contents).
  pose proof (CBS_len_nonneg pre).
  assert (Hw : len (base w) = CBS_len pre + Z.of_nat ll + CBS_len contents).
  { unfold len. rewrite Hb. change (CBS_len (pre ++ old ++ contents)
      = CBS_len pre + Z.of_nat ll + CBS_len contents). rewrite !CBS_len_app. lia. }
  unfold close_child. erewrite act_bind_some by done. cbn [offset pending_len_len pending_is_asn1].
  rewrite u64_small by lia.
  destruct (Z.ltb_spec (CBS_len pre + Z.of_nat ll) (CBS_len pre)); [lia|].
  destruct (Z.ltb_spec (len (base w)) (CBS_len pre + Z.of_nat ll)); [lia|]. cbn [orb]. cbv zeta.
  erewrite act_bind_some by done. cbv beta iota.
  rewrite Nat2Z.id, be_store_spec, app_nil_r.
  replace (len (base w) - (CBS_len pre + Z.of_nat ll)) with (CBS_len contents) by lia.
  erewrite act_bind_some.
  2:{ apply (buf_write_at pre old _ contents); [|done].
      rewrite length_be_bytes. unfold CBS_len in Hold. lia. }
  rewrite Z.div_small by lia. cbn [Z.eqb negb mret act_ret].
  split_and!; [|done|done]. apply grows_set_buf; [done|].
  rewrite !CBS_len_app, CBS_len_be_bytes. lia.
Qed.

(** The form of a length, against the reference encoding. *)
Lemma asn1_length_form_spec n :
  0 <= n <= 0xfffffffe ->
  (asn1_length_form n = Some (1, n, 0) /\ len_enc n = [n] /\ n < 128)
  \/ exists k : nat, (1 <= k <= 4)%nat
     /\ asn1_length_form n = Some (1 + Z.of_nat k, 128 + Z.of_nat k, n)
     /\ len_enc n = (128 + Z.of_nat k) :: be_bytes k n /\ n < 2 ^ (8 * Z.of_nat k).
Proof.
  intros Hn. unfold asn1_length_form, len_enc.
  destruct (Z.ltb_spec n 128).
  - left. repeat case_bool; try lia. done.
  - right. repeat case_bool; try lia;
      [exists 4%nat|exists 3%nat|exists 2%nat|exists 1%nat]; (split; [lia|]); split_and!; try done.
    all: simpl; lia.
Qed.

(** [buf_write] with its position as a number. *)
Lemma buf_write_pos pre old data post off w :
  off = CBS_len pre -> length old = length data -> buf (base w) = pre ++ old ++ post ->
  buf_write off data w = (Some tt, set_buf w (pre ++ data ++ post)).
Proof. intros ->. apply buf_write_at. Qed.

Lemma buf_set_buf w l : buf (base (set_buf w l)) = l.
Proof. done. Qed.

Lemma start_asn1_length_spec d pre c contents w :
  ready d w -> buf (base w) = pre ++ [c] ++ contents -> CBS_len contents <= 0xfffffffe ->
  match start_asn1_length (CBS_len pre) (CBS_len pre + 1) (CBS_len contents) w with
  | (Some (off, pll, n), w') =>
    exists (k : nat) b old, off = CBS_len (pre ++ [b]) /\ pll = Z.of_nat k /\ length old = k
      /\ len_enc (CBS_len contents) = b :: be_bytes k n /\ 0 <= n < 2 ^ (8 * Z.of_nat k)
      /\ grows w w' /\ buf (base w') = (pre ++ [b]) ++ old ++ contents /\ children w' = children w
  | (None, _) => no_room w (CBS_len (len_enc (CBS_len contents)) - 1)
  end.
Proof.
  intros Hw Hb Hlen. pose proof Hw as (_ & _ & Hc). pose proof (CBS_len_nonneg contents).
  unfold start_asn1_length.
  destruct (asn1_length_form_spec (CBS_len contents) ltac:(lia))
    as [(-> & -> & Hs)|(k & Hk & -> & -> & Hs)].
  - cbn [Z.eqb Pos.eqb negb]. erewrite (act_bind_some (mret tt)) by done.
    erewrite act_bind_some by by apply (buf_write_at pre [c] [CBS_len contents] contents).
    cbn [mret act_ret]. exists O, (CBS_len contents), [].
    rewrite CBS_len_app, buf_set_buf. split_and!; try done.
    + apply grows_set_buf; [done|]. unfold len. rewrite Hb, CBS_len_app. unfold CBS_len.
      rewrite !length_app. simpl length. lia.
    + by rewrite <-app_assoc.
  - assert ((1 + Z.of_nat k =? 1) = false) as -> by lia. cbn [negb].
    replace (1 + Z.of_nat k - 1) with (Z.of_nat k) by lia. cbv zeta.
    pose proof (cbb_buffer_add_spec d (Z.of_nat k) w Hw ltac:(lia)) as Hs2.
    unfold mbind, act_bind. destruct (cbb_buffer_add (Z.of_nat k) w) as [[p|] w1].
    2:{ destruct Hs2 as [_ Hs2]. eapply no_room_mono; [done|].
        unfold CBS_len. cbn [length]. rewrite length_be_bytes. lia. }
    destruct Hs2 as (_ & G & B & Ch). unfold read_obj.
    assert (Hm : drop (Z.to_nat (CBS_len pre + 1)) (buf (base w1))
                 = contents ++ replicate k (junk w)).
    { rewrite B, Hb, Nat2Z.id. rewrite <-!app_assoc, (app_assoc pre [c]).
      apply drop_app_length'. unfold CBS_len. rewrite length_app. simpl. lia. }
    assert (Hz : Z.to_nat (CBS_len contents) = length contents)
      by (unfold CBS_len; by rewrite Nat2Z.id).
    rewrite Hm, Hz, take_app_length.
    set (old := take k (contents ++ replicate k (junk w))).
    assert (Hold : length old = k)
      by (unfold old; rewrite length_take, length_app, length_replicate; lia).
    erewrite (buf_write_pos (pre ++ [c] ++ old) (drop k (contents ++ replicate k (junk w)))
                contents []).
    2:{ rewrite !CBS_len_app. unfold CBS_len. rewrite Hold. simpl. lia. }
    2:{ rewrite length_drop, length_app, length_replicate. lia. }
    2:{ rewrite B, Hb, Nat2Z.id. unfold old. rewrite app_nil_r, <-!app_assoc. do 2 f_equal.
        by rewrite take_drop. }
    erewrite (buf_write_pos pre [c] [128 + Z.of_nat k] (old ++ contents)).
    2: done.
    2: done.
    2:{ rewrite buf_set_buf, app_nil_r, <-!app_assoc. done. }
    cbn [mret act_ret]. exists k, (128 + Z.of_nat k), old.
    rewrite CBS_len_app, buf_set_buf. split_and!; try done.
    + eapply grows_trans; [apply G|].
      assert (Hl : len (base w1) = CBS_len pre + 1 + CBS_len contents + Z.of_nat k).
      { unfold len. rewrite B, Hb, Nat2Z.id. unfold CBS_len.
        rewrite !length_app, length_replicate. simpl length. lia. }
      assert (Hcap : len (base w1) <= cap (base w1) < 2 ^ 64) by apply G.
      eapply grows_trans; [|apply grows_set_buf]; [apply grows_set_buf|..]; rewrite ?len_set_buf;
        unfold set_buf, set_base; cbn [base cap]; try exact Hcap;
        unfold CBS_len in *; rewrite ?length_app, ?Hold; simpl length; lia.
    + by rewrite <-app_assoc.
Qed.

Lemma closes_asn1 contents :
  CBS_len contents <= 0xfffffffe -> Closes 1 true contents (len_enc (CBS_len contents)).
Proof.
  intros Hlen w pre old He Hc Hold Hb. pose proof (CBS_len_nonneg contents) as Hn0.
  pose proof (CBS_len_nonneg pre).
  assert (Hw : len (base w) = CBS_len pre + 1 + CBS_len contents).
  { unfold len. rewrite Hb. change (CBS_len (pre ++ old ++ contents)
      = CBS_len pre + 1 + CBS_len contents). rewrite !CBS_len_app. lia. }
  assert (exists c, old = [c]) as [c ->].
  { unfold CBS_len in Hold. destruct old as [|c [|]]; simpl in Hold; try lia. by exists c. }
  unfold close_child. erewrite act_bind_some by done. cbn [offset pending_len_len pending_is_asn1].
  rewrite u64_small by lia.
  destruct (Z.ltb_spec (CBS_len pre + 1) (CBS_len pre)); [lia|].
  destruct (Z.ltb_spec (len (base w)) (CBS_len pre + 1)); [lia|]. cbn [orb]. cbv zeta.
  replace (len (base w) - (CBS_len pre + 1)) with (CBS_len contents) by lia.
  assert (Hready : ready (length (children w)) w) by done.
  pose proof (start_asn1_length_spec _ pre c contents w Hready Hb Hlen) as Hs.
  unfold mbind at 1. unfold act_bind at 1.
  destruct (start_asn1_length _ _ _ w) as [[[[off pll] n]|] w1]; [|done].
  destruct Hs as (k & b & old & -> & -> & Hk & -> & Hn & G & B & Ch).
  cbv beta iota. rewrite Nat2Z.id, be_store_spec, app_nil_r.
  erewrite act_bind_some by (apply (buf_write_at (pre ++ [b]) old _ contents); [|done];
    by rewrite length_be_bytes).
  rewrite Z.div_small by lia. cbn [Z.eqb negb mret act_ret].
  split_and!; [|by rewrite buf_set_buf, <-app_assoc|by rewrite <-Ch].
  eapply grows_trans; [done|]. apply grows_set_buf; [apply G|].
  unfold len. rewrite B. unfold CBS_len. rewrite !length_app, length_be_bytes. lia.
Qed.

(** Flushing the parent of the innermost open object closes it. *)
Lemma CBB_flush_child w cs ll a contents prefix pre old :
  error (base w) = false -> len (base w) <= cap (base w) < 2 ^ 64 ->
  children w = cs ++ [mk_child (CBS_len pre) ll a] ->
  CBS_len old = ll -> buf (base w) = pre ++ old ++ contents ->
  Closes ll a contents prefix ->
  match CBB_flush (length cs) w with
  | (Some _, w') =>
    grows w w' /\ buf (base w') = pre ++ prefix ++ contents /\ children w' = cs
  | (None, w') => error (base w') = true /\ no_room w (CBS_len prefix - ll)
  end.
Proof.
  intros He Hc Hch Hold Hb Hcl. specialize (Hcl w pre old He Hc Hold Hb).
  unfold CBB_flush. erewrite act_bind_some by done. rewrite Hch, He.
  assert ((length (cs ++ [mk_child (CBS_len pre) ll a]) <? length cs)%nat = false) as ->
    by (apply Nat.ltb_ge; rewrite length_app; lia).
  rewrite drop_app_length. cbn [flush_chain].
  unfold try, mbind, act_bind, read_obj, write_obj, fail, base_error. rewrite He.
  cbn [mret act_ret]. rewrite He. cbn [mret act_ret].
  destruct (close_child _ w) as [[[]|] w1].
  - destruct Hcl as (G & B & Ch). cbn [mret act_ret base children set_children].
    split_and!; [exact G|exact B|]. by rewrite Ch, Hch, take_app_length.
  - cbn [mret act_ret base children set_children set_base error]. by split.
Qed.

(** The opening of a child: a header [hdr] that ends in the [ll] provisional bytes. *)
Definition Opens (d : nat) (hdr : list Z) (ll : Z) (a : bool) (m : act cbb_world nat) : Prop :=
  forall w, ready d w ->
  match m w with
  | (Some d', w') =>
    d' = S d /\ grows w w' /\ exists old, CBS_len old = ll
      /\ buf (base w') = (buf (base w) ++ hdr) ++ old
      /\ children w' = children w ++ [mk_child (CBS_len (buf (base w) ++ hdr)) ll a]
  | (None, w') => error (base w') = true /\ no_room w (CBS_len hdr + ll)
  end.

Lemma cbb_add_child_opens d (ll : nat) a :
  (ll <= 8)%nat -> Opens d [] (Z.of_nat ll) a (cbb_add_child d (Z.of_nat ll) a).
Proof.
  intros Hll w Hw. pose proof Hw as (_ & Hd & _).
  set (zeros := replicate (Z.to_nat (Z.of_nat ll)) 0).
  assert (Hz : Z.of_nat ll = CBS_len zeros).
  { unfold CBS_len, zeros. rewrite length_replicate. lia. }
  pose proof (space_write_spec d zeros (Z.of_nat ll) tt w Hw Hz ltac:(lia)) as Hs.
  unfold cbb_add_child. erewrite act_bind_some by done. cbv zeta. fold zeros.
  revert Hs. unfold mbind, act_bind, read_obj, write_obj.
  destruct (cbb_buffer_add (Z.of_nat ll) w) as [[p|] w1]; [|by rewrite app_nil_l || done].
  destruct (buf_write p zeros w1) as [[u|] w2]; [|done].
  cbn [mret act_ret]. intros (_ & G & B & Ch). split_and!; [done|exact G|].
  exists zeros. rewrite app_nil_r. cbn [set_children base children].
  split_and!; [done|exact B|]. rewrite Ch, <-Hd. rewrite firstn_all. done.
Qed.

Lemma Opens_prefix {A} d l hdr ll a (m : act cbb_world A) k :
  Writes d l m -> 0 <= ll -> (forall x, Opens d hdr ll a (k x)) ->
  Opens d (l ++ hdr) ll a (m ≫= k).
Proof.
  intros Hm Hll Hk w Hw. specialize (Hm w Hw). unfold mbind, act_bind.
  rewrite (CBS_len_app l hdr). pose proof (CBS_len_nonneg hdr).
  destruct (m w) as [[x|] w1].
  2:{ split; [apply Hm|]. eapply no_room_mono; [apply Hm|lia]. }
  specialize (Hk x w1 (ready_extends d w w1 l Hw Hm)). destruct Hm as (G & B & Ch).
  assert (Hl : len (base w1) = len (base w) + CBS_len l) by (by apply len_extends).
  destruct (k x w1) as [[d'|] w2].
  - destruct Hk as (-> & G2 & old & Hold & B2 & Ch2). split_and!; [done|by eapply grows_trans|].
    exists old. rewrite B2, Ch2, B, Ch. by rewrite !app_assoc.
  - destruct Hk as [He Hn]. split; [done|]. rewrite <-Z.add_assoc.
    by eapply no_room_grows.
Qed.

(** A child with its contents, closed by the flush of its parent. *)
Lemma child_writes d hdr ll a contents prefix (m : act cbb_world nat) (body : nat -> act cbb_world unit) :
  Opens d hdr ll a m -> Writes (S d) contents (body (S d)) -> Closes ll a contents prefix ->
  ll <= CBS_len prefix ->
  Writes d (hdr ++ prefix ++ contents) (child ← m; _ ← body child; CBB_flush d).
Proof.
  intros Hm Hbody Hcl Hll w Hw. specialize (Hm w Hw). rewrite !CBS_len_app.
  pose proof (CBS_len_nonneg contents). pose proof (CBS_len_nonneg hdr).
  unfold mbind, act_bind. destruct (m w) as [[d'|] w1].
  2:{ split; [apply Hm|]. eapply no_room_mono; [apply Hm|lia]. }
  destruct Hm as (-> & G & old & Hold & B & Ch).
  assert (Hd : length (children w) = d) by apply Hw.
  assert (Hw1 : ready (S d) w1).
  { eapply ready_grows; [done..|]. rewrite Ch, length_app. simpl. lia. }
  assert (Hl1 : len (base w1) = len (base w) + (CBS_len hdr + ll)).
  { unfold len. rewrite B. unfold CBS_len in *. rewrite !length_app. lia. }
  specialize (Hbody w1 Hw1). destruct (body (S d) w1) as [[u|] w2].
  2:{ split; [apply Hbody|]. replace (CBS_len hdr + (CBS_len prefix + CBS_len contents))
        with (CBS_len hdr + ll + (CBS_len prefix + CBS_len contents - ll)) by lia.
      eapply no_room_grows; [done|done|]. eapply no_room_mono; [apply Hbody|lia]. }
  pose proof (ready_extends _ _ _ _ Hw1 Hbody) as (He2 & _ & Hc2).
  pose proof (len_extends _ _ _ Hbody) as Hl2. destruct Hbody as (G2 & B2 & Ch2).
  pose proof (CBB_flush_child w2 (children w) ll a contents prefix (buf (base w) ++ hdr) old
    He2 Hc2 ltac:(congruence) Hold ltac:(by rewrite B2, B, <-app_assoc) Hcl) as Hf.
  rewrite Hd in Hf. destruct (CBB_flush d w2) as [[u'|] w3].
  - destruct Hf as (G3 & B3 & Ch3). split_and!; [|by rewrite B3, <-app_assoc|done].
    eapply grows_trans; [done|]. by eapply grows_trans.
  - destruct Hf as [He Hn]. split; [done|].
    replace (CBS_len hdr + (CBS_len prefix + CBS_len contents))
      with (CBS_len hdr + ll + CBS_len contents + (CBS_len prefix - ll)) by lia.
    eapply (no_room_grows w w2); [by eapply grows_trans|lia|done].
Qed.

Lemma CBB_add_asn1_opens d tag :
  0 <= tag < 2 ^ 32 -> Opens d (tag_enc tag) 1 true (CBB_add_asn1 d tag).
Proof.
  intros Ht. unfold CBB_add_asn1. cbv zeta. rewrite <-(app_nil_l (tag_enc tag)).
  apply (Opens_prefix d []); [apply CBB_flush_writes|lia|intros _].
  rewrite <-(app_nil_r (tag_enc tag)).
  apply Opens_prefix; [|lia|intros _; apply (cbb_add_child_opens d 1); lia].
  assert (Hn : Z.land tag CBS_ASN1_TAG_NUMBER_MASK = tag mod 2 ^ 29)
    by (by apply (land_ones_mod tag 29)).
  assert (Hb : Z.land (Z.shiftr tag CBS_ASN1_TAG_SHIFT) 0xe0 = tag / 2 ^ 29 * 32).
  { change CBS_ASN1_TAG_SHIFT with 24. rewrite Z.shiftr_div_pow2 by lia.
    replace (tag / 2 ^ 29) with (tag / 2 ^ 24 / 32) by (by rewrite Z.div_div by lia).
    assert (Hr : 0 <= tag / 2 ^ 24 < 256) by (split; [apply Z.div_pos|apply Z.div_lt_upper_bound]; lia).
    apply tag_byte_bits in Hr. revert Hr. set (b := tag / 2 ^ 24). intros [Hr _].
    assert (E : forall n, (n < 256)%nat -> Z.land (Z.of_nat n) 0xe0 = Z.of_nat n / 32 * 32).
    { intros n Hlt. assert (E : forallb (fun n => Z.land (Z.of_nat n) 0xe0 =? Z.of_nat n / 32 * 32)
        (seq 0 256) = true) by (vm_compute; reflexivity).
      rewrite forallb_forall in E. apply Z.eqb_eq, E, in_seq. lia. }
    assert (0 <= b < 256) by (unfold b; split; [apply Z.div_pos|apply Z.div_lt_upper_bound]; lia).
    specialize (E (Z.to_nat b) ltac:(lia)). rewrite Z2Nat.id in E by lia. done. }
  rewrite Hn, Hb. unfold tag_enc.
  pose proof (Z.mod_pos_bound tag (2 ^ 29) ltac:(lia)).
  assert (Hc : 0 <= tag / 2 ^ 29 < 8) by (split; [apply Z.div_pos|apply Z.div_lt_upper_bound]; lia).
  assert (Hlor : forall n, 0 <= n < 32 -> Z.lor (tag / 2 ^ 29 * 32) n = tag / 2 ^ 29 * 32 + n).
  { intros n Hr. rewrite Z.lor_comm, (lor_add _ _ 5); [lia|lia|done|]. apply Z_mod_mult. }
  destruct (Z.leb_spec 31 (tag mod 2 ^ 29)).
  - rewrite Hlor by lia. apply (Writes_bind d [_]).
    + apply CBB_add_u8_writes. unfold is_byte. lia.
    + intros _. apply add_base128_writes. lia.
  - rewrite Hlor by lia. apply CBB_add_u8_writes. unfold is_byte. lia.
Qed.

(** The writer of an ASN.1 element: the reference encoding. *)
Lemma element_writes d tag contents (body : nat -> act cbb_world unit) :
  0 <= tag < 2 ^ 32 -> CBS_len contents <= 0xfffffffe -> Writes (S d) contents (body (S d)) ->
  Writes d (der tag contents) (child ← CBB_add_asn1 d tag; _ ← body child; CBB_flush d).
Proof.
  intros Ht Hlen Hbody. pose proof (CBS_len_nonneg contents).
  apply child_writes with (ll := 1) (a := true); [by apply CBB_add_asn1_opens|done|
    by apply closes_asn1|apply CBS_len_len_enc; lia].
Qed.

(** The writer of a length-prefixed string. *)
Lemma prefixed_writes d (ll : nat) contents (body : nat -> act cbb_world unit) :
  (ll <= 8)%nat -> CBS_len contents < 2 ^ (8 * Z.of_nat ll) -> Writes (S d) contents (body (S d)) ->
  Writes d (be_bytes ll (CBS_len contents) ++ contents)
    (child ← cbb_add_length_prefixed d (Z.of_nat ll); _ ← body child; CBB_flush d).
Proof.
  intros Hll Hlen Hbody.
  rewrite <-(app_nil_l (be_bytes _ _ ++ _)).
  apply child_writes with (ll := Z.of_nat ll) (a := false);
    [|done|by apply closes_prefixed|by rewrite CBS_len_be_bytes].
  unfold cbb_add_length_prefixed.
  apply (Opens_prefix d [] []); [apply CBB_flush_writes|lia|intros _].
  by apply cbb_add_child_opens.
Qed.
