(* ===== verification/Asn1Int.v ===== *)
(** * BoringSSL: ASN.1 integers

    The value of the contents of an INTEGER, the minimality DER asks for, and the
    proofs that the readers of [cbs.c] accept exactly the minimal encodings of the
    values of their type and that the writers of [cbb.c] write them. *)
From S2P Require Export CbbSpec.

(** ** Two's complement, big-endian *)

Definition signed_value (l : list Z) : Z :=
  if hd 0 l <? 128 then be_value l else be_value l - 2 ^ (8 * Z.of_nat (length l)).

(** At least one byte, and the first nine bits are not all equal. *)
Definition minimal (l : list Z) : Prop :=
  match l with
  | [] => False
  | [_] => True
  | b :: c :: _ => ~ (b = 0 /\ c < 128) /\ ~ (b = 255 /\ 128 <= c)
  end.

Lemma be_value_cons b l : be_value (b :: l) = b * 2 ^ (8 * Z.of_nat (length l)) + be_value l.
Proof.
  unfold be_value. cbn [rev]. rewrite le_combine_app, length_rev. cbn [le_combine]. lia.
Qed.

Lemma pow8_S n : 2 ^ (8 * Z.of_nat (S n)) = 256 * 2 ^ (8 * Z.of_nat n).
Proof.
  replace (8 * Z.of_nat (S n)) with (8 + 8 * Z.of_nat n) by lia. by rewrite Z.pow_add_r by lia.
Qed.

Lemma pow8_pos n : 0 < 2 ^ (8 * Z.of_nat n).
Proof. apply Z.pow_pos_nonneg; lia. Qed.

Lemma signed_value_range b l :
  bytes (b :: l) -> - (128 * 2 ^ (8 * Z.of_nat (length l))) <= signed_value (b :: l)
                    < 128 * 2 ^ (8 * Z.of_nat (length l)).
Proof.
  intros [Hb Hl]%bytes_cons. pose proof (be_value_range l Hl). unfold is_byte in Hb.
  pose proof (pow8_pos (length l)).
  unfold signed_value. cbn [hd length]. rewrite be_value_cons, pow8_S.
  destruct (Z.ltb_spec b 128); nia.
Qed.

(** A minimal encoding of two bytes or more is of a value no shorter one has. *)
Lemma minimal_out_of_range b c l :
  bytes (b :: c :: l) -> minimal (b :: c :: l) ->
  signed_value (b :: c :: l) < - (128 * 2 ^ (8 * Z.of_nat (length l)))
  \/ 128 * 2 ^ (8 * Z.of_nat (length l)) <= signed_value (b :: c :: l).
Proof.
  intros [Hb [Hc Hl]%bytes_cons]%bytes_cons [H0 H1]. unfold is_byte in *.
  pose proof (be_value_range l Hl). pose proof (pow8_pos (length l)).
  unfold signed_value. cbn [hd length]. rewrite !be_value_cons. cbn [length].
  rewrite !pow8_S. set (P := 2 ^ (8 * Z.of_nat (length l))) in *.
  destruct (Z.ltb_spec b 128).
  - right. destruct (Z.eq_dec b 0) as [->|]; nia.
  - left. destruct (Z.eq_dec b 255) as [->|]; nia.
Qed.

Lemma signed_value_mod l :
  bytes l -> be_value l = signed_value l mod 2 ^ (8 * Z.of_nat (length l)).
Proof.
  intros Hl. pose proof (be_value_range l Hl). unfold signed_value. case_match.
  - by rewrite Z.mod_small.
  - apply (Z.mod_unique_pos _ _ (-1)); lia.
Qed.

Lemma minimal_length l1 l2 :
  bytes l1 -> bytes l2 -> minimal l1 -> minimal l2 -> signed_value l1 = signed_value l2 ->
  (length l1 <= length l2)%nat.
Proof.
  intros B1 B2 M1 M2 E. destruct l1 as [|b1 [|c1 l1]]; [simpl; lia| |].
  - destruct l2; [done|simpl; lia].
  - pose proof (minimal_out_of_range _ _ _ B1 M1) as Ho. destruct l2 as [|b2 l2]; [done|].
    pose proof (signed_value_range _ _ B2) as Hr. rewrite <-E in Hr. cbn [length].
    destruct (Nat.le_gt_cases (S (length l1)) (length l2)) as [|Hgt]; [lia|].
    assert (2 ^ (8 * Z.of_nat (length l2)) <= 2 ^ (8 * Z.of_nat (length l1)))
      by (apply Z.pow_le_mono_r; lia). lia.
Qed.

Lemma minimal_unique l1 l2 :
  bytes l1 -> bytes l2 -> minimal l1 -> minimal l2 -> signed_value l1 = signed_value l2 -> l1 = l2.
Proof.
  intros B1 B2 M1 M2 E.
  assert (Hlen : length l1 = length l2)
    by (apply Nat.le_antisymm; apply minimal_length; congruence).
  transitivity (be_bytes (length l1) (be_value l1)); [symmetry; by apply be_bytes_value|].
  rewrite signed_value_mod, E, Hlen, <-signed_value_mod by done. by apply be_bytes_value.
Qed.

Lemma valid_integer_spec l :
  bytes l ->
  (minimal l /\ CBS_is_valid_asn1_integer l = Some (128 <=? hd 0 l))
  \/ (~ minimal l /\ CBS_is_valid_asn1_integer l = None).
Proof.
  intros Hl. destruct l as [|b [|c l]]; [right; split; [by intros []|done]| |].
  - apply bytes_cons in Hl as [Hb _]. left. split; [done|]. cbn [CBS_is_valid_asn1_integer hd].
    rewrite high_bit_clear by done. f_equal. lia.
  - apply bytes_cons in Hl as [Hb [Hc _]%bytes_cons]. cbn [CBS_is_valid_asn1_integer hd minimal].
    rewrite !high_bit_clear by done. unfold is_byte in *.
    destruct ((b =? 0) && (c <? 128) || (b =? 255) && negb (c <? 128)) eqn:E.
    + right. split; [|done]. lia.
    + left. split; [lia|]. f_equal. lia.
Qed.

(** ** Readers *)

Lemma uint64_loop_spec l : forall out,
  0 <= out < 2 ^ 64 -> bytes l ->
  uint64_loop out l
  = if out * 2 ^ (8 * Z.of_nat (length l)) + be_value l <? 2 ^ 64
    then Some (out * 2 ^ (8 * Z.of_nat (length l)) + be_value l) else None.
Proof.
  induction l as [|b l IH]; intros out Ho Hb.
  - change (8 * Z.of_nat (length [])) with 0. change (be_value []) with 0.
    rewrite Z.pow_0_r, Z.mul_1_r, Z.add_0_r. destruct (Z.ltb_spec out (2 ^ 64)); [done|lia].
  - apply bytes_cons in Hb as [Hb Hl]. pose proof (be_value_range l Hl). unfold is_byte in Hb.
    pose proof (pow8_pos (length l)). cbn [uint64_loop length].
    rewrite Z.shiftr_div_pow2, be_value_cons, pow8_S by lia.
    destruct (Z.lt_ge_cases out (2 ^ 56)).
    + rewrite Z.div_small by lia. cbn [Z.eqb negb]. unfold be_step.
      rewrite Z.shiftl_mul_pow2 by lia. change (2 ^ 8) with 256. rewrite u64_small by lia.
      rewrite Z.lor_comm, (lor_add _ _ 8); [|lia|lia|apply Z_mod_mult].
      rewrite IH by (done || lia).
      replace ((b + out * 256) * 2 ^ (8 * Z.of_nat (length l)) + be_value l)
        with (out * (256 * 2 ^ (8 * Z.of_nat (length l)))
              + (b * 2 ^ (8 * Z.of_nat (length l)) + be_value l)) by ring. done.
    + assert (1 <= out / 2 ^ 56) by (apply Z.div_le_lower_bound; lia).
      destruct (Z.eqb_spec (out / 2 ^ 56) 0); [lia|]. cbn [negb].
      destruct (Z.ltb_spec (out * (256 * 2 ^ (8 * Z.of_nat (length l)))
              + (b * 2 ^ (8 * Z.of_nat (length l)) + be_value l)) (2 ^ 64)); [nia|done].
Qed.

Lemma tag_ok_small tag : 0 < tag < 2 ^ 29 -> tag_ok tag.
Proof. intros. unfold tag_ok. change CBS_ASN1_CONSTRUCTED with (2 ^ 29). lia. Qed.

Lemma CBS_get_asn1_uint64_app l rest :
  CBS_len l < 2 ^ 32 -> bytes l -> minimal l -> 0 <= signed_value l < 2 ^ 64 ->
  CBS_get_asn1_uint64 (der CBS_ASN1_INTEGER l ++ rest) = (Some (signed_value l), rest).
Proof.
  intros Hlen Hl Hm Hv. unfold CBS_get_asn1_uint64, CBS_is_unsigned_asn1_integer.
  erewrite act_bind_some by (apply CBS_get_asn1_app; [by apply tag_ok_small|done]).
  destruct (valid_integer_spec l Hl) as [[_ E]|[? _]]; [|done]. rewrite E, negb_involutive.
  pose proof (be_value_range l Hl). revert Hv. unfold signed_value.
  destruct (Z.ltb_spec (hd 0 l) 128); [|lia]. intros Hv.
  destruct (Z.leb_spec 128 (hd 0 l)); [lia|].
  rewrite uint64_loop_spec by (done || lia). rewrite Z.mul_0_l, Z.add_0_l.
  destruct (Z.ltb_spec (be_value l) (2 ^ 64)); [done|lia].
Qed.

(** [CBS_get_asn1_uint64] accepts exactly the DER INTEGERs, in their minimal
    encoding, whose value a [uint64_t] holds: on any bytes it succeeds with [v] if
    and only if they begin with such an encoding of [v]. *)
Lemma CBS_get_asn1_uint64_exactly cbs v rest :
  bytes cbs ->
  CBS_get_asn1_uint64 cbs = (Some v, rest) <->
  exists l, CBS_len l < 2 ^ 32 /\ bytes l /\ minimal l /\ signed_value l = v /\ 0 <= v < 2 ^ 64
    /\ cbs = der CBS_ASN1_INTEGER l ++ rest.
Proof.
  intros Hb. split.
  - intros H. unfold CBS_get_asn1_uint64, CBS_is_unsigned_asn1_integer in H. ainv H. apply CBS_get_asn1_inv in Hm as (_ & Hlen & ->); [|done].
    assert (Hv : bytes v0) by (unfold der in Hb; by rewrite !bytes_app in Hb; destruct Hb as [(_ & _ & ?) _]).
    exists v0. destruct (valid_integer_spec v0 Hv) as [[Hm E]|[Hm E]]; rewrite E in H; [|done].
    rewrite negb_involutive in H. destruct (Z.leb_spec 128 (hd 0 v0)); [done|].
    rewrite uint64_loop_spec in H by (done || lia). rewrite Z.mul_0_l, Z.add_0_l in H.
    assert (Es : signed_value v0 = be_value v0)
      by (unfold signed_value; destruct (Z.ltb_spec (hd 0 v0) 128); lia).
    pose proof (be_value_range v0 Hv).
    destruct (Z.ltb_spec (be_value v0) (2 ^ 64)); [|done]. injection H as <- <-.
    split_and!; (done || lia).
  - intros (l & Hlen & Hl & Hm & <- & Hv & ->). by apply CBS_get_asn1_uint64_app.
Qed.

Lemma load_u64_be_spec l : bytes l -> length l = 8%nat -> CRYPTO_load_u64_be l = be_value l.
Proof.
  intros Hb Hl. unfold CRYPTO_load_u64_be, CRYPTO_bswap8, byte_swap, be_value.
  rewrite <-Hl. by rewrite le_split_combine.
Qed.

Lemma be_value_extend k b l :
  b = 0 \/ b = 255 ->
  be_value (replicate k b ++ l)
  = (if b =? 0 then 0 else 2 ^ (8 * Z.of_nat (k + length l)) - 2 ^ (8 * Z.of_nat (length l)))
    + be_value l.
Proof.
  intros Hb. induction k as [|k IH].
  - cbn [replicate app Nat.add]. destruct (b =? 0); lia.
  - cbn [replicate app]. rewrite be_value_cons, IH, length_app, length_replicate.
    change (S k + length l)%nat with (S (k + length l)). rewrite pow8_S.
    destruct Hb as [-> | ->]; cbn [Z.eqb]; lia.
Qed.

(** Eight bytes of sign extension and contents hold the value. *)
Lemma sign_extended_value l :
  bytes l -> minimal l -> (length l <= 8)%nat ->
  s64 (CRYPTO_load_u64_be (replicate (8 - length l) (if 128 <=? hd 0 l then 0xff else 0) ++ l))
  = signed_value l.
Proof.
  intros Hb Hm Hlen. destruct l as [|b l]; [done|].
  pose proof (signed_value_range b l Hb) as Hr.
  assert (HP : 2 ^ (8 * Z.of_nat (length l)) <= 2 ^ 56)
    by (apply Z.pow_le_mono_r; simpl in Hlen; lia).
  rewrite load_u64_be_spec.
  2:{ apply bytes_app. split; [|done]. apply Forall_replicate. unfold is_byte. case_match; lia. }
  2:{ rewrite length_app, length_replicate. lia. }
  rewrite be_value_extend by (case_match; lia).
  replace (8 - length (b :: l) + length (b :: l))%nat with 8%nat by lia.
  unfold signed_value in *. pose proof (be_value_range _ Hb).
  destruct (Z.ltb_spec (hd 0 (b :: l)) 128); destruct (Z.leb_spec 128 (hd 0 (b :: l))); try lia;
    cbn [Z.eqb].
  - apply to_signed_small; lia.
  - assert (HP2 : 2 ^ (8 * Z.of_nat (length (b :: l))) <= 2 ^ 64)
      by (apply Z.pow_le_mono_r; lia).
    change (2 ^ (8 * Z.of_nat 8)) with (2 ^ 64). unfold s64, to_signed.
    rewrite Z.mod_small by lia.
    destruct (Z.ltb_spec (2 ^ 64 - 2 ^ (8 * Z.of_nat (length (b :: l))) + be_value (b :: l)) (2 ^ (64 - 1)));
      lia.
Qed.

Lemma minimal_int64_length l :
  bytes l -> minimal l -> - 2 ^ 63 <= signed_value l < 2 ^ 63 -> (length l <= 8)%nat.
Proof.
  intros Hb Hm Hv. destruct l as [|b [|c l]]; [simpl; lia..|].
  pose proof (minimal_out_of_range _ _ _ Hb Hm).
  destruct (Nat.le_gt_cases (length (b :: c :: l)) 8) as [|Hgt]; [done|].
  assert (2 ^ 56 <= 2 ^ (8 * Z.of_nat (length l)))
    by (apply Z.pow_le_mono_r; simpl in Hgt; lia). lia.
Qed.

Lemma CBS_get_asn1_int64_app l rest :
  CBS_len l < 2 ^ 32 -> bytes l -> minimal l -> - 2 ^ 63 <= signed_value l < 2 ^ 63 ->
  CBS_get_asn1_int64 (der CBS_ASN1_INTEGER l ++ rest) = (Some (signed_value l), rest).
Proof.
  intros Hlen Hl Hm Hv. unfold CBS_get_asn1_int64.
  erewrite act_bind_some by (apply CBS_get_asn1_app; [by apply tag_ok_small|done]).
  destruct (valid_integer_spec l Hl) as [[_ E]|[? _]]; [|done]. rewrite E.
  pose proof (minimal_int64_length l Hl Hm Hv).
  destruct (Z.ltb_spec 8 (CBS_len l)); [unfold CBS_len in *; lia|].
  cbv zeta. by rewrite sign_extended_value.
Qed.

(** C23. [CBS_get_asn1_int64] accepts exactly the DER INTEGERs, in their minimal
    encoding, whose value an [int64_t] holds: on any bytes it succeeds with [v] if and
    only if they begin with such an encoding of [v]. *)
Theorem CBS_get_asn1_int64_exactly cbs v rest :
  bytes cbs ->
  CBS_get_asn1_int64 cbs = (Some v, rest) <->
  exists l, CBS_len l < 2 ^ 32 /\ bytes l /\ minimal l /\ signed_value l = v
    /\ - 2 ^ 63 <= v < 2 ^ 63 /\ cbs = der CBS_ASN1_INTEGER l ++ rest.
Proof.
  intros Hb. split.
  - intros H. unfold CBS_get_asn1_int64 in H. ainv H. apply CBS_get_asn1_inv in Hm as (_ & Hlen & ->); [|done].
    assert (Hv : bytes v0) by (unfold der in Hb; by rewrite !bytes_app in Hb; destruct Hb as [(_ & _ & ?) _]).
    exists v0. destruct (valid_integer_spec v0 Hv) as [[Hm E]|[Hm E]]; rewrite E in H; [|done].
    destruct (Z.ltb_spec 8 (CBS_len v0)); [done|].
    assert (Hl8 : (length v0 <= 8)%nat) by (unfold CBS_len in *; lia).
    cbv zeta in H. rewrite sign_extended_value in H by done. injection H as <- <-.
    destruct v0 as [|b l]; [done|]. pose proof (signed_value_range b l Hv).
    assert (2 ^ (8 * Z.of_nat (length l)) <= 2 ^ 56)
      by (apply Z.pow_le_mono_r; simpl in Hl8; lia).
    split_and!; (done || lia).
  - intros (l & Hlen & Hl & Hm & <- & Hv & ->). by apply CBS_get_asn1_int64_app.
Qed.

Lemma CBS_get_asn1_int64_exactly_witness :
  CBS_get_asn1_int64 [2; 2; 255; 127; 7] = (Some (- 129), [7])
  /\ exists l, CBS_len l < 2 ^ 32 /\ bytes l /\ minimal l /\ signed_value l = - 129
       /\ - 2 ^ 63 <= - 129 < 2 ^ 63 /\ [2; 2; 255; 127; 7] = der CBS_ASN1_INTEGER l ++ [7].
Proof.
  assert (Hb : bytes [2; 2; 255; 127; 7]) by (repeat constructor; lia).
  split; [reflexivity|]. by apply (CBS_get_asn1_int64_exactly _ _ _ Hb).
Defined.

(** ** Writers *)

Fixpoint strip_zeros (l : list Z) : list Z :=
  match l with
  | b :: l' => if b =? 0 then strip_zeros l' else l
  | [] => []
  end.

(** The contents of a non-negative integer, from its bytes. *)
Definition uint_contents (l : list Z) : list Z :=
  match strip_zeros l with
  | [] => [0]
  | b :: l' => if b <? 128 then b :: l' else 0 :: b :: l'
  end.

Lemma strip_zeros_spec l :
  bytes l ->
  bytes (strip_zeros l) /\ be_value (strip_zeros l) = be_value l /\ hd 1 (strip_zeros l) <> 0
  /\ (length (strip_zeros l) <= length l)%nat.
Proof.
  induction 1 as [|b l Hb Hl IH]; [split_and!; [constructor|done|simpl; lia|simpl; lia]|].
  cbn [strip_zeros].
  destruct (Z.eqb_spec b 0) as [->|].
  - rewrite be_value_cons. cbn [length]. intuition lia.
  - split_and!; [by constructor|done|done|done].
Qed.

Lemma uint_contents_spec l :
  bytes l -> bytes (uint_contents l) /\ minimal (uint_contents l)
  /\ signed_value (uint_contents l) = be_value l /\ (length (uint_contents l) <= S (length l))%nat.
Proof.
  intros Hl. destruct (strip_zeros_spec l Hl) as (Hb & Hv & Hh & Hlen). unfold uint_contents.
  destruct (strip_zeros l) as [|b l'].
  - rewrite <-Hv. split_and!; [|done|done|simpl; lia]. repeat constructor; unfold is_byte; lia.
  - cbn [hd] in Hh. pose proof Hb as [Hb1 Hb2]%bytes_cons. unfold is_byte in Hb1.
    destruct (Z.ltb_spec b 128).
    + split_and!; [done| | |by lia].
      * destruct l'; simpl; [done|]. lia.
      * unfold signed_value. cbn [hd]. by destruct (Z.ltb_spec b 128); [|lia].
    + split_and!; [| | |simpl in *; lia].
      * apply bytes_cons. split; [unfold is_byte; lia|done].
      * simpl. lia.
      * unfold signed_value. cbn [hd]. rewrite be_value_cons, Hv.
        destruct (Z.ltb_spec 0 128); lia.
Qed.

Lemma uint64_bytes_started {B} child l l2 (k : bool -> act cbb_world B) :
  bytes l -> Writes child l2 (k true) -> Writes child (l ++ l2) (uint64_bytes_loop child true l ≫= k).
Proof.
  intros Hl Hk. revert l2 Hk. induction Hl as [|b l Hb Hl IH]; intros l2 Hk; [exact Hk|].
  cbn [uint64_bytes_loop negb]. eapply Writes_ext; [intros; apply act_bind_assoc|].
  apply (Writes_bind child [b]); [by apply CBB_add_u8_writes|]. intros _. by apply IH.
Qed.

Lemma uint64_bytes_writes child l :
  bytes l ->
  Writes child (uint_contents l)
    (started ← uint64_bytes_loop child false l;
     if (started : bool) then mret tt else CBB_add_u8 child 0).
Proof.
  unfold uint_contents. induction 1 as [|b l Hb Hl IH].
  - apply (CBB_add_u8_writes child 0). unfold is_byte. lia.
  - cbn [uint64_bytes_loop negb strip_zeros]. destruct (Z.eqb_spec b 0); [exact IH|].
    eapply Writes_ext; [intros; apply act_bind_assoc|].
    rewrite high_bit_clear by done. destruct (Z.ltb_spec b 128); cbn [negb].
    + apply (Writes_bind child [] (b :: l)); [apply Writes_ret|intros _].
      eapply Writes_ext; [intros; apply act_bind_assoc|].
      apply (Writes_bind child [b] l); [by apply CBB_add_u8_writes|intros _].
      rewrite <-(app_nil_r l) at 1. apply uint64_bytes_started; [done|]. apply Writes_ret.
    + apply (Writes_bind child [0] (b :: l));
        [apply CBB_add_u8_writes; unfold is_byte; lia|intros _].
      eapply Writes_ext; [intros; apply act_bind_assoc|].
      apply (Writes_bind child [b] l); [by apply CBB_add_u8_writes|intros _].
      rewrite <-(app_nil_r l) at 1. apply uint64_bytes_started; [done|]. apply Writes_ret.
Qed.

(** The bytes of the loop are the big-endian bytes of the value. *)
Lemma value_bytes v :
  map (fun i => Z.land (Z.shiftr v (8 * (7 - i))) 0xff) [0; 1; 2; 3; 4; 5; 6; 7] = be_bytes 8 v.
Proof.
  unfold be_bytes. cbn [le_split rev app map].
  rewrite !land_FF, !Z.shiftr_div_pow2, !Z.div_div by lia. cbn -[Z.div Z.modulo].
  by rewrite Z.div_1_r.
Qed.

Lemma CBS_len_small l n : (length l <= n)%nat -> CBS_len l <= Z.of_nat n.
Proof. unfold CBS_len. lia. Qed.

Lemma uint64_with_tag_writes d v tag :
  0 <= tag < 2 ^ 32 ->
  Writes d (der tag (uint_contents (be_bytes 8 v))) (CBB_add_asn1_uint64_with_tag d v tag).
Proof.
  intros Ht. unfold CBB_add_asn1_uint64_with_tag. apply Writes_or_on_error.
  rewrite value_bytes.
  destruct (uint_contents_spec (be_bytes 8 v) (be_bytes_bytes 8 v)) as (_ & _ & _ & Hlen).
  rewrite length_be_bytes in Hlen. apply CBS_len_small in Hlen.
  eapply Writes_ext; [intros; apply act_bind_assoc|].
  apply (element_writes d tag (uint_contents (be_bytes 8 v)) (fun child =>
    started ← uint64_bytes_loop child false (be_bytes 8 v);
    if (started : bool) then mret tt else CBB_add_u8 child 0)); [done|lia|].
  apply uint64_bytes_writes, be_bytes_bytes.
Qed.

(** The trimming of a negative value keeps its sign bit and its value. *)
Lemma rev_take_S (l : list Z) n :
  (n < length l)%nat -> rev (take (S n) l) = nth n l 0 :: rev (take n l).
Proof.
  intros Hn. destruct (lookup_lt_is_Some_2 l n Hn) as [x Hx].
  rewrite (take_S_r _ _ _ Hx), rev_app_distr. cbn [rev app]. f_equal.
  symmetry. by apply nth_lookup_Some.
Qed.

Lemma bytes_nth l n : bytes l -> (n < length l)%nat -> is_byte (nth n l 0).
Proof. intros Hl Hn. by apply (Forall_nth is_byte 0 l). Qed.

Lemma bytes_take n l : bytes l -> bytes (take n l).
Proof. apply Forall_take. Qed.

Lemma int64_start_spec l n :
  bytes l -> (n < length l)%nat -> 128 <= nth n l 0 ->
  (int64_start l n <= n)%nat /\ minimal (rev (take (S (int64_start l n)) l))
  /\ signed_value (rev (take (S (int64_start l n)) l)) = signed_value (rev (take (S n) l)).
Proof.
  intros Hl. induction n as [|n IH]; intros Hn Hh.
  - cbn [int64_start]. rewrite rev_take_S by done. done.
  - pose proof (bytes_nth l n Hl ltac:(lia)) as Hbn. cbn [int64_start].
    rewrite high_bit_clear by done.
    destruct (_ && _) eqn:E.
    + destruct IH as (Hle & Hm & Hv); [lia|lia|]. split_and!; [lia|done|].
      rewrite Hv, (rev_take_S l (S n)), (rev_take_S l n) by lia.
      unfold signed_value. cbn [hd]. rewrite (be_value_cons (nth (S n) l 0)). cbn [length].
      rewrite !pow8_S. destruct (Z.ltb_spec (nth n l 0) 128); [lia|].
      destruct (Z.ltb_spec (nth (S n) l 0) 128); [lia|].
      assert (nth (S n) l 0 = 255) as -> by lia. lia.
    + split_and!; [lia| |done].
      rewrite (rev_take_S l (S n)), (rev_take_S l n) by lia. simpl. lia.
Qed.

(** The contents [CBB_add_asn1_int64_with_tag] writes. *)
Definition int_contents (v : Z) : list Z :=
  if 0 <=? v then uint_contents (be_bytes 8 v)
  else rev (take (S (int64_start (le_split 8 (u64 v)) 7)) (le_split 8 (u64 v))).

Lemma int_contents_spec v :
  - 2 ^ 63 <= v < 2 ^ 64 ->
  bytes (int_contents v) /\ minimal (int_contents v) /\ signed_value (int_contents v) = v
  /\ CBS_len (int_contents v) <= 9.
Proof.
  intros Hv. unfold int_contents. destruct (Z.leb_spec 0 v).
  - destruct (uint_contents_spec (be_bytes 8 v) (be_bytes_bytes 8 v)) as (Hb & Hm & Hs & Hlen).
    rewrite length_be_bytes in Hlen. apply CBS_len_small in Hlen.
    rewrite be_value_be_bytes in Hs by (simpl; lia). done.
  - set (l := le_split 8 (u64 v)). pose proof (le_split_bytes 8 (u64 v)) as Hl. fold l in Hl.
    assert (Hlen : length l = 8%nat) by apply length_le_split.
    assert (Hu : u64 v = v + 2 ^ 64) by (symmetry; apply (Z.mod_unique_pos _ _ (-1)); lia).
    assert (Hval : be_value (rev (take 8 l)) = v + 2 ^ 64).
    { change (take 8 l) with l. change (rev l) with (be_bytes 8 (u64 v)).
      rewrite be_value_be_bytes; [done|]. change (2 ^ (8 * Z.of_nat 8)) with (2 ^ 64). lia. }
    assert (Hh : 128 <= nth 7 l 0).
    { rewrite (rev_take_S l 7), be_value_cons in Hval by lia.
      pose proof (be_value_range (rev (take 7 l)) ltac:(by apply bytes_rev, bytes_take)) as Hr.
      rewrite length_rev, length_take, Hlen in *. change (2 ^ (8 * Z.of_nat (7 `min` 8))) with (2 ^ 56) in *.
      lia. }
    destruct (int64_start_spec l 7 Hl ltac:(lia) Hh) as (Hle & Hm & Hs).
    split_and!; [by apply bytes_rev, bytes_take|done| |].
    + rewrite Hs. unfold signed_value. rewrite Hval, (rev_take_S l 7) by lia. cbn [hd].
      destruct (Z.ltb_spec (nth 7 l 0) 128); [lia|]. cbn [length].
      rewrite length_rev, length_take, Hlen. change (2 ^ (8 * Z.of_nat (S (7 `min` 8)))) with (2 ^ 64). lia.
    + unfold CBS_len. rewrite length_rev, length_take, Hlen. lia.
Qed.

Lemma add_u8_list_writes d l : bytes l -> Writes d l (add_u8_list d l).
Proof.
  induction 1 as [|b l Hb Hl IH]; [apply Writes_ret|].
  apply (Writes_bind d [b] l); [by apply CBB_add_u8_writes|done].
Qed.

Lemma int64_with_tag_writes d v tag :
  0 <= tag < 2 ^ 32 -> - 2 ^ 63 <= v < 2 ^ 63 ->
  Writes d (der tag (int_contents v)) (CBB_add_asn1_int64_with_tag d v tag).
Proof.
  intros Ht Hv. destruct (int_contents_spec v ltac:(lia)) as (Hb & _ & _ & Hlen). revert Hb Hlen.
  unfold int_contents, CBB_add_asn1_int64_with_tag. destruct (Z.leb_spec 0 v); intros Hb Hlen.
  - by apply uint64_with_tag_writes.
  - cbv zeta. apply Writes_or_on_error. eapply Writes_ext; [intros; apply act_bind_assoc|].
    apply (element_writes d tag _ (fun child => add_u8_list child
      (rev (take (S (int64_start (le_split 8 (u64 v)) 7)) (le_split 8 (u64 v))))));
      [done|lia|]. by apply add_u8_list_writes.
Qed.
