(* ===== verification/CbbRoundtrip.v ===== *)
(** * BoringSSL: what is built is parsed back

    The writers of [cbb.c] against the readers of [cbs.c], for elements with any
    contents, integers, strings, booleans and length-prefixed strings. Each theorem
    also says when the writer fails: when there is no room, with the error recorded. *)
From S2P Require Export Asn1Int.

(** What a writer of [l] gives its caller: [l] appended, or an error. *)
Definition Wrote {A} (w : cbb_world) (l : list Z) (r : option A * cbb_world) : Prop :=
  match r with
  | (Some _, w') => extends w w' l
  | (None, w') => error (base w') = true /\ no_room w (CBS_len l)
  end.

Lemma Wrote_of {A} d l (m : act cbb_world A) w : Writes d l m -> ready d w -> Wrote w l (m w).
Proof. intros H Hw. apply (H w Hw). Qed.

(** A builder with a growable buffer and memory to spare. *)
Definition growable : cbb_world := mk_world (mk_base [] 16 true false) [] [] 0xaa.

Lemma growable_ready : ready 0 growable.
Proof. split_and!; [done|done|unfold growable, len; simpl; lia..]. Qed.

(** C9. Builder against parser. Whatever a caller writes into the child that
    [CBB_add_asn1] opens, the flush of the parent leaves exactly the DER element with
    those contents in the buffer, in front of nothing and behind what was there (or
    there is no room, and the error is recorded); and [CBS_get_asn1] of the tag gives
    the contents back and leaves the rest. *)
Theorem CBB_add_asn1_builds_der d tag contents (body : nat -> act cbb_world unit) w :
  tag_ok tag -> CBS_len contents <= 0xfffffffe -> Writes (S d) contents (body (S d)) ->
  ready d w ->
  Wrote w (der tag contents) ((child ← CBB_add_asn1 d tag; _ ← body child; CBB_flush d) w)
  /\ forall rest, CBS_get_asn1 tag (der tag contents ++ rest) = (Some contents, rest).
Proof.
  intros Hok Hlen Hbody Hw. split.
  - eapply Wrote_of; [|done]. apply element_writes; [apply Hok|done|done].
  - intros rest. apply CBS_get_asn1_app; [done|lia].
Qed.

(** A sequence with a nested octet string of 130 bytes: both lengths move the
    contents along. *)
Lemma CBB_add_asn1_builds_der_witness :
  let data := replicate 130 7 in
  Wrote growable (der 0x20000010 (der CBS_ASN1_OCTETSTRING data))
    ((child ← CBB_add_asn1 0 0x20000010;
      _ ← (c ← CBB_add_asn1 child CBS_ASN1_OCTETSTRING; _ ← CBB_add_bytes c data; CBB_flush child);
      CBB_flush 0) growable)
  /\ forall rest, CBS_get_asn1 0x20000010 (der 0x20000010 (der CBS_ASN1_OCTETSTRING data) ++ rest)
     = (Some (der CBS_ASN1_OCTETSTRING data), rest).
Proof.
  apply (CBB_add_asn1_builds_der 0 0x20000010 (der CBS_ASN1_OCTETSTRING (replicate 130 7))
    (fun child => c ← CBB_add_asn1 child CBS_ASN1_OCTETSTRING;
       _ ← CBB_add_bytes c (replicate 130 7); CBB_flush child)).
  - unfold tag_ok. change CBS_ASN1_CONSTRUCTED with (2 ^ 29). lia.
  - vm_compute. discriminate.
  - apply (element_writes 1 CBS_ASN1_OCTETSTRING (replicate 130 7)
      (fun c => CBB_add_bytes c (replicate 130 7))); [done|vm_compute; discriminate|].
    by apply CBB_add_bytes_writes.
  - apply growable_ready.
Defined.

Lemma CBS_len_der_small tag l :
  tag_ok tag -> tag < 31 -> CBS_len l < 128 -> CBS_len (der tag l) = CBS_len l + 2.
Proof.
  intros [Ht _] Hs Hl. pose proof (CBS_len_nonneg l). unfold der, tag_enc, len_enc.
  rewrite !Z.mod_small by lia. destruct (Z.leb_spec 31 tag); [lia|].
  destruct (Z.ltb_spec (CBS_len l) 128); [|lia]. rewrite !CBS_len_app. unfold CBS_len. simpl. lia.
Qed.

(** The round trip of a value through a writer and a reader: at most [n] bytes are
    appended, which read back as the value whatever follows. *)
Definition RoundTrips {A} (w : cbb_world) (n : Z) (m : act cbb_world unit) (read : act CBS A) (v : A)
    : Prop :=
  match m w with
  | (Some _, w') =>
    exists e, extends w w' e /\ CBS_len e <= n /\ forall rest, read (e ++ rest) = (Some v, rest)
  | (None, w') => error (base w') = true /\ no_room w n
  end.

Lemma RoundTrips_of {A} d w n l (m : act cbb_world unit) (read : act CBS A) v :
  ready d w -> Writes d l m -> CBS_len l <= n -> (forall rest, read (l ++ rest) = (Some v, rest)) ->
  RoundTrips w n m read v.
Proof.
  intros Hw Hm Hn Hr. specialize (Hm w Hw). unfold RoundTrips. destruct (m w) as [[u|] w'].
  - by exists l.
  - split; [apply Hm|]. eapply no_room_mono; [apply Hm|done].
Qed.

Lemma integer_tag_ok : tag_ok CBS_ASN1_INTEGER.
Proof. by apply tag_ok_small. Qed.

Lemma CBS_len_integer l : CBS_len l <= 9 -> CBS_len (der CBS_ASN1_INTEGER l) <= 11.
Proof. intros H. rewrite CBS_len_der_small; [lia|apply integer_tag_ok|done|lia]. Qed.

(** C24. Every [int64_t] survives [CBB_add_asn1_int64] and [CBS_get_asn1_int64], in at
    most eleven bytes. *)
Theorem asn1_int64_roundtrip d v w :
  - 2 ^ 63 <= v < 2 ^ 63 -> ready d w ->
  RoundTrips w 11 (CBB_add_asn1_int64 d v) CBS_get_asn1_int64 v.
Proof.
  intros Hv Hw. destruct (int_contents_spec v ltac:(lia)) as (Hb & Hm & Hs & Hlen).
  apply (RoundTrips_of d w 11 (der CBS_ASN1_INTEGER (int_contents v)));
    [done|by apply int64_with_tag_writes|by apply CBS_len_integer|].
  intros rest. rewrite <-Hs at 2. apply CBS_get_asn1_int64_app; (done || lia).
Qed.

Lemma asn1_int64_roundtrip_witness :
  RoundTrips growable 11 (CBB_add_asn1_int64 0 (-129)) CBS_get_asn1_int64 (-129).
Proof. apply (asn1_int64_roundtrip 0 (-129) growable); [lia|apply growable_ready]. Defined.

(** Every [uint64_t] survives [CBB_add_asn1_uint64] and [CBS_get_asn1_uint64]. *)
Lemma asn1_uint64_roundtrip d v w :
  0 <= v < 2 ^ 64 -> ready d w ->
  RoundTrips w 11 (CBB_add_asn1_uint64 d v) CBS_get_asn1_uint64 v.
Proof.
  intros Hv Hw. destruct (int_contents_spec v ltac:(lia)) as (Hb & Hm & Hs & Hlen).
  revert Hb Hm Hs Hlen. unfold int_contents. destruct (Z.leb_spec 0 v); [|lia]. intros Hb Hm Hs Hlen.
  apply (RoundTrips_of d w 11 (der CBS_ASN1_INTEGER (uint_contents (be_bytes 8 v))));
    [done|by apply uint64_with_tag_writes|by apply CBS_len_integer|].
  intros rest. rewrite <-Hs at 2. apply CBS_get_asn1_uint64_app; (done || lia).
Qed.

Lemma CBB_add_asn1_bool_writes d b :
  Writes d (der CBS_ASN1_BOOLEAN [if b : bool then 0xff else 0]) (CBB_add_asn1_bool d b).
Proof.
  apply Writes_or_on_error'.
  apply (element_writes d CBS_ASN1_BOOLEAN _ (fun child => CBB_add_u8 child (if b then 0xff else 0)));
    [done|done|]. apply CBB_add_u8_writes. unfold is_byte. destruct b; lia.
Qed.

Lemma CBB_add_asn1_octet_string_writes d data :
  CBS_len data <= 0xfffffffe ->
  Writes d (der CBS_ASN1_OCTETSTRING data) (CBB_add_asn1_octet_string d data).
Proof.
  intros Hlen. apply Writes_or_on_error'.
  apply (element_writes d CBS_ASN1_OCTETSTRING _ (fun child => CBB_add_bytes child data));
    [done|done|]. apply CBB_add_bytes_writes. lia.
Qed.

(** Booleans and octet strings survive their writers and readers. *)
Lemma asn1_bool_octets_roundtrip d b data w :
  CBS_len data <= 0xfffffffe -> ready d w ->
  RoundTrips w 3 (CBB_add_asn1_bool d b) CBS_get_asn1_bool b
  /\ RoundTrips w (CBS_len (der CBS_ASN1_OCTETSTRING data)) (CBB_add_asn1_octet_string d data)
       (CBS_get_asn1 CBS_ASN1_OCTETSTRING) data.
Proof.
  intros Hlen Hw. split.
  - eapply RoundTrips_of; [done|apply CBB_add_asn1_bool_writes|by destruct b|].
    intros rest. unfold CBS_get_asn1_bool.
    erewrite act_bind_some by (apply CBS_get_asn1_app; [by apply tag_ok_small|done]). by destruct b.
  - eapply RoundTrips_of; [done|by apply CBB_add_asn1_octet_string_writes|done|].
    intros rest. apply CBS_get_asn1_app; [by apply tag_ok_small|lia].
Qed.

(** ** Length-prefixed strings and integers of fixed width *)

Lemma cbs_get_u_be_bytes (n : nat) v rest :
  (n <= 8)%nat -> 0 <= v < 2 ^ (8 * Z.of_nat n) ->
  cbs_get_u (Z.of_nat n) (be_bytes n v ++ rest) = (Some v, rest).
Proof.
  intros Hn Hv. rewrite <-(CBS_len_be_bytes n v).
  rewrite cbs_get_u_app; [|apply be_bytes_bytes|by rewrite length_be_bytes].
  by rewrite be_value_be_bytes.
Qed.

(** An integer of [n] bytes, [n] up to eight, survives [cbb_add_u] and
    [cbs_get_u] (the bodies of the functions for 8 to 64 bits); one that needs more
    than [n] bytes is refused, and the error stays. *)
Lemma cbb_add_u_roundtrip d v (n : nat) w :
  (n <= 8)%nat -> 0 <= v < 2 ^ 64 -> ready d w ->
  if v <? 2 ^ (8 * Z.of_nat n)
  then RoundTrips w (Z.of_nat n) (cbb_add_u d v (Z.of_nat n)) (cbs_get_u (Z.of_nat n)) v
  else exists w', cbb_add_u d v (Z.of_nat n) w = (None, w') /\ error (base w') = true.
Proof.
  intros Hn Hv Hw. destruct (Z.ltb_spec v (2 ^ (8 * Z.of_nat n))).
  - eapply RoundTrips_of; [done|apply cbb_add_u_writes; (done || lia)|by rewrite CBS_len_be_bytes|].
    intros rest. apply cbs_get_u_be_bytes; (done || lia).
  - by apply cbb_add_u_too_large.
Qed.

(** The parent of a prefixed child whose contents are too long cannot be flushed. *)
Lemma flush_prefixed_too_long (ll : nat) contents w cs pre old :
  (ll <= 8)%nat -> 2 ^ (8 * Z.of_nat ll) <= CBS_len contents ->
  error (base w) = false -> len (base w) <= cap (base w) < 2 ^ 64 ->
  children w = cs ++ [mk_child (CBS_len pre) (Z.of_nat ll) false] ->
  length old = ll -> buf (base w) = pre ++ old ++ contents ->
  exists w', CBB_flush (length cs) w = (None, w') /\ error (base w') = true.
Proof.
  intros Hll Hlen He Hc Hch Hold Hb.
  pose proof (CBS_len_nonneg pre). pose proof (CBS_len_nonneg contents).
  assert (Hw : len (base w) = CBS_len pre + Z.of_nat ll + CBS_len contents).
  { unfold len. rewrite Hb. unfold CBS_len. rewrite !length_app. lia. }
  assert (Hclose : exists w1, close_child (mk_child (CBS_len pre) (Z.of_nat ll) false) w = (None, w1)).
  { unfold close_child. erewrite act_bind_some by done.
    cbn [offset pending_len_len pending_is_asn1]. rewrite u64_small by lia.
    destruct (Z.ltb_spec (CBS_len pre + Z.of_nat ll) (CBS_len pre)); [lia|].
    destruct (Z.ltb_spec (len (base w)) (CBS_len pre + Z.of_nat ll)); [lia|]. cbn [orb]. cbv zeta.
    erewrite act_bind_some by done. cbv beta iota. rewrite Nat2Z.id, be_store_spec, app_nil_r.
    replace (len (base w) - (CBS_len pre + Z.of_nat ll)) with (CBS_len contents) by lia.
    erewrite act_bind_some.
    2:{ apply (buf_write_at pre old _ contents); [|done]. by rewrite length_be_bytes. }
    assert (1 <= CBS_len contents / 2 ^ (8 * Z.of_nat ll))
      by (apply Z.div_le_lower_bound; [apply pow8_pos|lia]).
    destruct (Z.eqb_spec (CBS_len contents / 2 ^ (8 * Z.of_nat ll)) 0); [lia|]. by eexists. }
  destruct Hclose as [w1 Hclose].
  unfold CBB_flush. erewrite act_bind_some by done. rewrite Hch, He.
  assert ((length (cs ++ [mk_child (CBS_len pre) (Z.of_nat ll) false]) <? length cs)%nat = false) as ->
    by (apply Nat.ltb_ge; rewrite length_app; lia).
  rewrite drop_app_length. cbn [flush_chain].
  unfold try, mbind, act_bind, read_obj, write_obj, fail, base_error. rewrite He.
  cbn [mret act_ret]. rewrite He. cbn [mret act_ret]. rewrite Hclose.
  cbn [mret act_ret base children set_children set_base error]. by eexists.
Qed.

(** Length-prefixed strings: whatever a caller writes into the child of
    [cbb_add_length_prefixed], the flush of the parent leaves its length, in as many
    bytes as were asked for, and the string, which [cbs_get_length_prefixed] gives
    back; a string too long for the prefix is refused at the flush, and the error
    stays. *)
Lemma length_prefixed_roundtrip d (ll : nat) contents (body : nat -> act cbb_world unit) w :
  (1 <= ll <= 8)%nat -> CBS_len contents < 2 ^ 64 -> Writes (S d) contents (body (S d)) ->
  ready d w ->
  let m := child ← cbb_add_length_prefixed d (Z.of_nat ll); _ ← body child; CBB_flush d in
  if CBS_len contents <? 2 ^ (8 * Z.of_nat ll)
  then RoundTrips w (Z.of_nat ll + CBS_len contents) m (cbs_get_length_prefixed (Z.of_nat ll)) contents
  else exists w', m w = (None, w') /\ error (base w') = true.
Proof.
  intros Hll Hlen Hbody Hw m. subst m. pose proof (CBS_len_nonneg contents).
  destruct (Z.ltb_spec (CBS_len contents) (2 ^ (8 * Z.of_nat ll))).
  - eapply RoundTrips_of; [done|apply prefixed_writes; (done || lia)| |].
    + rewrite CBS_len_app, CBS_len_be_bytes. lia.
    + intros rest. unfold cbs_get_length_prefixed. rewrite <-app_assoc.
      erewrite act_bind_some by (apply cbs_get_u_be_bytes; (done || lia)).
      by apply cbs_get_app.
  - assert (Ho : Opens d [] (Z.of_nat ll) false (cbb_add_length_prefixed d (Z.of_nat ll))).
    { apply (Opens_prefix d [] []); [apply CBB_flush_writes|lia|intros _].
      apply cbb_add_child_opens. lia. }
    specialize (Ho w Hw). unfold mbind, act_bind.
    destruct (cbb_add_length_prefixed d (Z.of_nat ll) w) as [[c|] w1].
    2:{ exists w1. split; [done|apply Ho]. }
    destruct Ho as (-> & G & old & Hold & B & Ch). rewrite app_nil_r in B, Ch.
    assert (Hd : length (children w) = d) by apply Hw.
    assert (Hw1 : ready (S d) w1)
      by (eapply ready_grows; [done..|]; rewrite Ch, length_app; simpl; lia).
    specialize (Hbody w1 Hw1). destruct (body (S d) w1) as [[u|] w2].
    2:{ exists w2. split; [done|apply Hbody]. }
    pose proof (ready_extends _ _ _ _ Hw1 Hbody) as (He2 & _ & Hc2).
    destruct Hbody as (G2 & B2 & Ch2). rewrite <-Hd.
    apply (flush_prefixed_too_long ll contents w2 (children w) (buf (base w)) old);
      [lia|done|done|done|congruence|unfold CBS_len in Hold; lia|].
    by rewrite B2, B, <-app_assoc.
Qed.
