(* ===== verification/CbbSafe.v ===== *)
(** * BoringSSL: a builder stays inside its buffer

    The invariant of a builder under any sequence of calls of the library, on any
    object of its chain, with any answers of the allocator: the valid bytes fit the
    capacity, a fixed buffer keeps its own, every pending prefix lies in the valid
    bytes behind its parent's, and no call writes outside them. *)
From S2P Require Export CbbSpec.

(** ** The chain of pending prefixes *)

Definition child_end (c : cbb_child_st) : Z := offset c + pending_len_len c.

Fixpoint chain_ok (lo : Z) (l : list cbb_child_st) (hi : Z) : Prop :=
  match l with
  | [] => lo <= hi
  | c :: l => lo <= offset c /\ 0 <= pending_len_len c
              /\ (pending_is_asn1 c = true -> pending_len_len c = 1) /\ chain_ok (child_end c) l hi
  end.

Lemma chain_ok_le l : forall lo hi, chain_ok lo l hi -> lo <= hi.
Proof.
  induction l as [|c l IH]; intros lo hi; [done|]. intros (? & ? & _ & H%IH). unfold child_end in H. lia.
Qed.

Lemma chain_ok_mono l : forall lo hi hi', chain_ok lo l hi -> hi <= hi' -> chain_ok lo l hi'.
Proof.
  induction l as [|c l IH]; intros lo hi hi'; simpl; [lia|].
  intros (? & ? & ? & ?) ?. split_and!; [done..|]. by eapply IH.
Qed.

Lemma chain_ok_app l1 l2 : forall lo hi,
  chain_ok lo (l1 ++ l2) hi <-> exists m, chain_ok lo l1 m /\ chain_ok m l2 hi.
Proof.
  induction l1 as [|c l1 IH]; intros lo hi; simpl.
  - split; [intros H; by exists lo|]. intros (m & Hm & H). destruct l2 as [|c l2]; simpl in *; [lia|].
    destruct H as (? & ? & ? & ?). split_and!; [lia|done..].
  - setoid_rewrite IH. naive_solver.
Qed.

Lemma chain_ok_take l lo hi d : chain_ok lo l hi -> chain_ok lo (take d l) hi.
Proof.
  intros H. rewrite <-(take_drop d l) in H. apply chain_ok_app in H as (m & H1 & H2%chain_ok_le).
  by eapply chain_ok_mono.
Qed.

(** What a call relies on about one child. *)
Definition child_ok (c : cbb_child_st) (hi : Z) : Prop :=
  0 <= offset c /\ 0 <= pending_len_len c /\ (pending_is_asn1 c = true -> pending_len_len c = 1)
  /\ child_end c <= hi.

Lemma chain_ok_child l c hi : chain_ok 0 l hi -> c ∈ l -> child_ok c hi.
Proof.
  intros H (l1 & l2 & ->)%list_elem_of_split. apply chain_ok_app in H as (m & H1%chain_ok_le & H2).
  destruct H2 as (? & ? & ? & H2%chain_ok_le). unfold child_ok. split_and!; [lia|done..].
Qed.

(** ** The invariant *)

Section Invariant.
(** Whether the buffer may grow, and its capacity when it may not. *)
Variable resizes : bool.
Variable fixed_cap : Z.

Definition Inv (w : cbb_world) : Prop :=
  can_resize (base w) = resizes /\ (resizes = false -> cap (base w) = fixed_cap)
  /\ len (base w) <= cap (base w) < 2 ^ 64 /\ chain_ok 0 (children w) (len (base w)).

(** [m] keeps the invariant, and gives [Q] when it succeeds. *)
Definition wp {A} (m : act cbb_world A) (Q : A -> cbb_world -> Prop) (w : cbb_world) : Prop :=
  match m w with
  | (Some a, w') => Inv w' /\ Q a w'
  | (None, w') => Inv w'
  end.

Definition Keeps {A} (m : act cbb_world A) : Prop := forall w, Inv w -> Inv (m w).2.

Lemma cbb_wp_ret {A} (a : A) Q w : Inv w -> Q a w -> wp (mret a) Q w.
Proof. by split. Qed.

Lemma cbb_wp_bind {A B} (m : act cbb_world A) (k : A -> act cbb_world B) P Q w :
  wp m P w -> (forall a w', Inv w' -> P a w' -> wp (k a) Q w') -> wp (m ≫= k) Q w.
Proof.
  unfold wp at 1 3. unfold mbind, act_bind. destruct (m w) as [[a|] w1]; [|done].
  intros [Hi Hp] Hk. by apply Hk.
Qed.

Lemma cbb_wp_mono {A} (m : act cbb_world A) (P Q : A -> cbb_world -> Prop) w :
  wp m P w -> (forall a w', Inv w' -> P a w' -> Q a w') -> wp m Q w.
Proof. unfold wp. destruct (m w) as [[a|] w1]; naive_solver. Qed.

Lemma wp_read P w : Inv w -> P w w -> wp read_obj P w.
Proof. by split. Qed.

Lemma Keeps_wp {A} (m : act cbb_world A) w : Keeps m -> Inv w -> wp m (fun _ _ => True) w.
Proof. intros H Hw. specialize (H w Hw). unfold wp. destruct (m w) as [[a|] w1]; [by split|done]. Qed.

Lemma wp_Keeps {A} (m : act cbb_world A) (Q : cbb_world -> A -> cbb_world -> Prop) :
  (forall w, Inv w -> wp m (Q w) w) -> Keeps m.
Proof. intros H w Hw. specialize (H w Hw). unfold wp in H. by destruct (m w) as [[a|] w1]; [destruct H|]. Qed.

Lemma wp_Inv {A} (m : act cbb_world A) Q w : wp m Q w -> Inv (m w).2.
Proof. unfold wp. by destruct (m w) as [[a|] w1]; [intros [? _]|]. Qed.

Lemma Keeps_ret {A} (a : A) : Keeps (mret a).
Proof. by intros w Hw. Qed.

Lemma Keeps_fail {A} : Keeps (fail (A := A)).
Proof. by intros w Hw. Qed.

Lemma Keeps_bind {A B} (m : act cbb_world A) (k : A -> act cbb_world B) :
  Keeps m -> (forall a, Keeps (k a)) -> Keeps (m ≫= k).
Proof.
  intros Hm Hk. apply (wp_Keeps _ (fun _ _ _ => True)). intros w Hw.
  eapply cbb_wp_bind; [by apply Keeps_wp|]. intros a w' Hw' _. by apply Keeps_wp.
Qed.

Lemma Keeps_try {A} (m : act cbb_world A) : Keeps m -> Keeps (try m).
Proof. intros H w Hw. specialize (H w Hw). unfold try. by destruct (m w) as [[a|] w1]. Qed.

Lemma Keeps_base_error {A} : Keeps (base_error (A := A)).
Proof. intros w (R & F & L & C). split_and!; (done || apply L). Qed.

Lemma Keeps_on_error {A} d : Keeps (cbb_on_error d (A := A)).
Proof. intros w (R & F & L & C). split_and!; (done || apply L || by apply chain_ok_take). Qed.

Lemma Keeps_or_on_error {A} d (m : act cbb_world A) : Keeps m -> Keeps (or_on_error d m).
Proof.
  intros H. apply Keeps_bind; [by apply Keeps_try|]. intros [a|]; [apply Keeps_ret|apply Keeps_on_error].
Qed.

(** ** The buffer *)

Lemma len_nonneg b : 0 <= len b.
Proof. unfold len. lia. Qed.

Lemma reserve_wp n w :
  0 <= n < 2 ^ 64 -> Inv w ->
  wp (cbb_buffer_reserve n) (fun p w' => p = len (base w) /\ buf (base w') = buf (base w)
    /\ children w' = children w /\ len (base w) + n <= cap (base w')) w.
Proof.
  intros Hn Hw. pose proof Hw as (R & F & L & C). pose proof (len_nonneg (base w)).
  unfold wp, cbb_buffer_reserve, mbind, act_bind, read_obj. cbv zeta.
  destruct (Z.lt_ge_cases (len (base w) + n) (2 ^ 64)) as [Hlt|Hge].
  2:{ assert (u64 (len (base w) + n) = len (base w) + n - 2 ^ 64) as ->.
      { symmetry. apply (Z.mod_unique_pos _ _ 1); lia. }
      destruct (Z.ltb_spec (len (base w) + n - 2 ^ 64) (len (base w))); [|lia].
      by apply (Keeps_base_error (A := Z)). }
  rewrite u64_small by lia. destruct (Z.ltb_spec (len (base w) + n) (len (base w))); [lia|].
  destruct (Z.ltb_spec (cap (base w)) (len (base w) + n)).
  2:{ split_and!; (done || lia). }
  destruct (can_resize (base w)) eqn:Hr; cbn [negb]; [|by apply (Keeps_base_error (A := Z))].
  unfold try, OPENSSL_realloc, base_error. pose proof (u64_range (cap (base w) * 2)) as Hu.
  destruct (oom w) as [|[] o]; cbn [mret act_ret]; unfold Inv, set_base;
    cbn [base children cap can_resize buf error]; unfold len in *; cbn [buf];
    split_and!; first [done|congruence|lia|case_match; lia].
Qed.

Lemma length_splice l off data :
  0 <= off -> off + CBS_len data <= CBS_len l -> length (splice l off data) = length l.
Proof.
  intros Ho Hd. unfold splice, CBS_len in *. rewrite !length_app, length_take, length_drop. lia.
Qed.

Lemma set_buf_inv w l :
  Inv w -> CBS_len l <= cap (base w) -> len (base w) <= CBS_len l -> Inv (set_buf w l).
Proof.
  intros (R & F & L & C) H1 H2. unfold Inv. rewrite len_set_buf.
  unfold set_buf, set_base. cbn [base children cap can_resize].
  split_and!; [done|done|lia|lia|]. by eapply chain_ok_mono.
Qed.

(** A write that lies in the valid bytes. *)
Lemma buf_write_wp off data w :
  0 <= off -> off + CBS_len data <= len (base w) -> Inv w ->
  wp (buf_write off data) (fun _ w' => len (base w') = len (base w) /\ children w' = children w) w.
Proof.
  intros Ho Hd Hw. unfold wp, buf_write, mbind, act_bind, read_obj, write_obj.
  assert (Hl : CBS_len (splice (buf (base w)) off data) = len (base w))
    by (unfold CBS_len, len in *; by rewrite length_splice by done).
  split; [|by rewrite len_set_buf]. apply set_buf_inv; [done| |]; rewrite Hl; [apply Hw|done].
Qed.

Lemma buffer_add_wp n w :
  0 <= n < 2 ^ 64 -> Inv w ->
  wp (cbb_buffer_add n) (fun p w' => p = len (base w) /\ len (base w') = len (base w) + n
    /\ children w' = children w) w.
Proof.
  intros Hn Hw. unfold cbb_buffer_add. eapply cbb_wp_bind; [by apply reserve_wp|].
  intros p w1 Hw1 (-> & B & Ch & L). unfold wp, mbind, act_bind, read_obj, write_obj.
  assert (Hl : CBS_len (buf (base w1) ++ replicate (Z.to_nat n) (junk w1)) = len (base w) + n).
  { rewrite B. unfold CBS_len, len. rewrite length_app, length_replicate. lia. }
  assert (len (base w1) = len (base w)) by (unfold len; by rewrite B).
  split; [apply set_buf_inv; [done|lia|lia]|]. rewrite len_set_buf, Hl. done.
Qed.

(** ** Closing children *)

Lemma asn1_length_form_bounds n ll b n' :
  asn1_length_form n = Some (ll, b, n') -> 1 <= ll <= 5 /\ (ll <> 1 -> n' = n).
Proof. unfold asn1_length_form. repeat case_match; try done; intros [= <- <- <-]; lia. Qed.

Lemma wp_fail {A} Q w : Inv w -> wp (fail (A := A)) Q w.
Proof. done. Qed.

(** The prefix that is left to write lies in the valid bytes. *)
Definition prefix_room (w0 : cbb_world) (p : Z * Z * Z) (w : cbb_world) : Prop :=
  0 <= p.1.1 /\ 0 <= p.1.2 /\ p.1.1 + p.1.2 <= len (base w)
  /\ len (base w0) <= len (base w) /\ children w = children w0.

Lemma start_asn1_length_wp off child_start n w :
  0 <= off -> off + 1 <= child_start -> 0 <= n -> child_start + n = len (base w) -> Inv w ->
  wp (start_asn1_length off child_start n) (prefix_room w) w.
Proof.
  intros Ho Hs Hn Hl Hw. unfold start_asn1_length.
  destruct (asn1_length_form n) as [[[ll b] n']|] eqn:E; [|by apply wp_fail].
  apply asn1_length_form_bounds in E as [Hll Hn'].
  eapply (cbb_wp_bind _ _ (fun _ w' => len (base w') = len (base w) + (ll - 1) /\ children w' = children w)).
  - destruct (Z.eqb_spec ll 1) as [->|]; cbn [negb]; [apply cbb_wp_ret; [done|split; [lia|done]]|].
    cbv zeta. eapply cbb_wp_bind; [by apply buffer_add_wp; [lia|]|]. intros p w1 Hw1 (_ & L & Ch).
    eapply (cbb_wp_bind _ _ (fun a w' => a = w1 /\ w' = w1)); [by apply wp_read|].
    intros a w' Hw' [-> ->]. eapply cbb_wp_mono.
    + apply buf_write_wp; [lia| |done]. rewrite Hn' by done.
      assert (CBS_len (take (Z.to_nat n) (drop (Z.to_nat child_start) (buf (base w1)))) <= n)
        by (unfold CBS_len; rewrite length_take; lia). lia.
    + intros _ w2 _ [L2 Ch2]. split; [lia|congruence].
  - intros _ w1 Hw1 (L & Ch).
    eapply cbb_wp_bind; [apply buf_write_wp; [done|change (CBS_len [b]) with 1; lia|done]|].
    intros _ w2 Hw2 [L2 Ch2]. apply cbb_wp_ret; [done|]. unfold prefix_room. cbn [fst snd].
    split_and!; (lia || congruence).
Qed.

Lemma close_child_wp c w :
  child_ok c (len (base w)) -> Inv w ->
  wp (close_child c) (fun _ w' => len (base w) <= len (base w') /\ children w' = children w) w.
Proof.
  intros (Ho & Hp & Ha & He) Hw. unfold child_end in He.
  assert (Hc : len (base w) < 2 ^ 64) by (pose proof (proj1 (proj2 (proj2 Hw))); lia).
  unfold close_child. eapply (cbb_wp_bind _ _ (fun a w' => a = w /\ w' = w)); [by apply wp_read|].
  intros a w' _ [-> ->]. cbv zeta. rewrite u64_small by lia.
  destruct (_ || _); [by apply wp_fail|].
  apply (cbb_wp_bind _ _ (prefix_room w)).
  - destruct (pending_is_asn1 c).
    + apply start_asn1_length_wp; (done || lia).
    + apply cbb_wp_ret; [done|]. unfold prefix_room. cbn [fst snd]. split_and!; (done || lia).
  - intros [[off pll] n] w1 Hw1 (H1 & H2 & H3 & H4 & H5). cbn [fst snd] in *.
    rewrite be_store_spec, app_nil_r.
    eapply cbb_wp_bind; [apply buf_write_wp; [done| |done]|].
    { rewrite CBS_len_be_bytes. lia. }
    intros _ w2 Hw2 [L2 Ch2]. destruct (negb _); [by apply wp_fail|].
    apply cbb_wp_ret; [done|]. split; [lia|congruence].
Qed.

Lemma flush_chain_wp chain : forall w,
  Inv w -> Forall (fun c => child_ok c (len (base w))) chain ->
  wp (flush_chain chain) (fun _ w' => len (base w) <= len (base w') /\ children w' = children w) w.
Proof.
  induction chain as [|c chain IH]; intros w Hw Hch; cbn [flush_chain];
    (eapply (cbb_wp_bind _ _ (fun a w' => a = w /\ w' = w)); [by apply wp_read|]);
    intros a w' _ [-> ->]; (destruct (error (base w)); [by apply wp_fail|]).
  - by apply cbb_wp_ret.
  - apply Forall_cons in Hch as [Hc Hch].
    assert (H : wp (_ ← flush_chain chain; close_child c)
      (fun _ w' => len (base w) <= len (base w') /\ children w' = children w) w).
    { eapply cbb_wp_bind; [by apply IH|]. intros _ w1 Hw1 [L1 Ch1].
      eapply cbb_wp_mono; [apply close_child_wp; [|done]|].
      - destruct Hc as (? & ? & ? & ?). split_and!; (done || lia).
      - intros _ w2 _ [L2 Ch2]. split; [lia|congruence]. }
    unfold wp, try, mbind, act_bind in *. destruct (flush_chain chain w) as [[u|] w1].
    + destruct (close_child c w1) as [[u'|] w2]; [done|]. by apply (Keeps_base_error (A := unit)).
    + by apply (Keeps_base_error (A := unit)).
Qed.

Lemma set_children_take d w : Inv w -> Inv (set_children w (take d (children w))).
Proof. intros (R & F & L & C). split_and!; (done || apply L || by apply chain_ok_take). Qed.

Lemma CBB_flush_wp d w :
  Inv w -> wp (CBB_flush d) (fun _ w' => length (children w') = d) w.
Proof.
  intros Hw. unfold CBB_flush.
  eapply (cbb_wp_bind _ _ (fun a w' => a = w /\ w' = w)); [by apply wp_read|]. intros a w' _ [-> ->].
  destruct (Nat.ltb_spec (length (children w)) d); [by apply wp_fail|].
  destruct (error (base w)); [by apply wp_fail|].
  assert (Hf : Forall (fun c => child_ok c (len (base w))) (drop d (children w))).
  { apply Forall_forall. intros c Hc. eapply chain_ok_child; [apply Hw|].
    rewrite <-(take_drop d (children w)). set_solver. }
  pose proof (flush_chain_wp _ w Hw Hf) as H1. revert H1.
  unfold wp, try, mbind, act_bind, read_obj, write_obj.
  destruct (flush_chain (drop d (children w)) w) as [[u|] w1]; cbn [mret act_ret].
  - intros (Hw1 & _ & Ch). split; [by apply set_children_take|]. cbn [children set_children].
    rewrite Ch, length_take. lia.
  - intros Hw1. by apply set_children_take.
Qed.

Lemma Keeps_flush d : Keeps (CBB_flush d).
Proof. apply (wp_Keeps _ (fun _ _ w' => length (children w') = d)), CBB_flush_wp. Qed.

(** ** The writers *)

Lemma space_write_wp d n data w : CBS_len data = n -> n < 2 ^ 64 -> Inv w ->
  wp (out ← CBB_add_space d n; buf_write out data) (fun _ w' => length (children w') = d) w.
Proof.
  intros Hd Hn Hw. pose proof (CBS_len_nonneg data).
  eapply (cbb_wp_bind _ _ (fun p w' => p = len (base w') - n /\ 0 <= p /\ length (children w') = d)).
  - unfold CBB_add_space. eapply cbb_wp_bind; [by apply CBB_flush_wp|]. intros [] w1 Hw1 Hch.
    eapply cbb_wp_mono; [apply buffer_add_wp; [lia|done]|]. intros p w2 _ (-> & L & Ch).
    pose proof (len_nonneg (base w1)). split_and!; [lia|lia|congruence].
  - intros p w' Hw' (-> & Hp & Hch). eapply cbb_wp_mono; [apply buf_write_wp; [done|lia|done]|].
    intros _ w2 _ [_ Ch2]. congruence.
Qed.

Lemma Keeps_space_write d n data : CBS_len data = n -> n < 2 ^ 64 ->
  Keeps (out ← CBB_add_space d n; buf_write out data).
Proof.
  intros Hd Hn. apply (wp_Keeps _ (fun _ _ w' => length (children w') = d)).
  intros w Hw. by apply space_write_wp.
Qed.

Lemma Keeps_add_space d n : 0 <= n < 2 ^ 64 -> Keeps (CBB_add_space d n).
Proof.
  intros Hn. apply Keeps_bind; [apply Keeps_flush|intros _].
  eapply wp_Keeps. intros w Hw. by apply buffer_add_wp.
Qed.

Lemma Keeps_reserve d n : 0 <= n < 2 ^ 64 -> Keeps (CBB_reserve d n).
Proof.
  intros Hn. apply Keeps_bind; [apply Keeps_flush|intros _].
  eapply wp_Keeps. intros w Hw. by apply reserve_wp.
Qed.

Lemma Keeps_add_bytes d data : CBS_len data < 2 ^ 64 -> Keeps (CBB_add_bytes d data).
Proof. intros H. by apply Keeps_space_write. Qed.

Lemma Keeps_add_zeros d n : 0 <= n < 2 ^ 64 -> Keeps (CBB_add_zeros d n).
Proof.
  intros H. apply Keeps_space_write; [|lia]. unfold CBS_len. rewrite length_replicate. lia.
Qed.

Lemma add_u_wp d v (n : nat) w :
  (n <= 8)%nat -> Inv w ->
  wp (cbb_add_u d v (Z.of_nat n)) (fun _ w' => length (children w') = d) w.
Proof.
  intros Hn Hw.
  pose proof (space_write_wp d (Z.of_nat n) (be_bytes n v) w (CBS_len_be_bytes n v) ltac:(lia) Hw) as H.
  revert H. unfold wp, cbb_add_u, mbind, act_bind. rewrite Nat2Z.id, be_store_spec, app_nil_r.
  destruct (CBB_add_space d (Z.of_nat n) w) as [[p|] w1]; [|done].
  destruct (buf_write p (be_bytes n v) w1) as [[u|] w2]; [|done]. intros [Hw2 Hch].
  destruct (negb _); [by apply (Keeps_on_error (A := unit))|done].
Qed.

Lemma Keeps_add_u d v (n : nat) : (n <= 8)%nat -> Keeps (cbb_add_u d v (Z.of_nat n)).
Proof.
  intros Hn. apply (wp_Keeps _ (fun _ _ w' => length (children w') = d)).
  intros w Hw. by apply add_u_wp.
Qed.

Lemma Keeps_add_u8 d b : Keeps (CBB_add_u8 d b).
Proof. apply (Keeps_add_u d b 1). lia. Qed.

Lemma Keeps_did_write d data : CBS_len data < 2 ^ 64 -> Keeps (CBB_did_write d data).
Proof.
  intros Hd w Hw. unfold CBB_did_write, mbind, act_bind, read_obj, write_obj. cbv zeta.
  pose proof Hw as (_ & _ & L & _). pose proof (len_nonneg (base w)). pose proof (CBS_len_nonneg data).
  change (Z.of_nat (length data)) with (CBS_len data).
  destruct (_ || _) eqn:E; [done|]. apply orb_false_iff in E as [[_ E1]%orb_false_iff E2].
  assert (Hlt : len (base w) + CBS_len data < 2 ^ 64).
  { destruct (Z.lt_ge_cases (len (base w) + CBS_len data) (2 ^ 64)); [done|].
    assert (u64 (len (base w) + CBS_len data) = len (base w) + CBS_len data - 2 ^ 64) as Eu.
    { symmetry. apply (Z.mod_unique_pos _ _ 1); lia. } lia. }
  rewrite u64_small in E2 by lia. cbn [snd].
  apply set_buf_inv; [done| |]; rewrite CBS_len_app; change (CBS_len (buf (base w))) with (len (base w)); lia.
Qed.

Lemma add_child_wp d (ll : nat) a w :
  (ll <= 8)%nat -> (a = true -> ll = 1%nat) -> Inv w -> length (children w) = d ->
  wp (cbb_add_child d (Z.of_nat ll) a) (fun _ _ => True) w.
Proof.
  intros Hll Ha Hw Hd. unfold cbb_add_child.
  eapply (cbb_wp_bind _ _ (fun a w' => a = w /\ w' = w)); [by apply wp_read|]. intros x w' _ [-> ->].
  cbv zeta. eapply cbb_wp_bind; [apply buffer_add_wp; [lia|done]|]. intros p w1 Hw1 (-> & L1 & Ch1).
  pose proof (len_nonneg (base w)).
  eapply cbb_wp_bind; [apply buf_write_wp; [done| |done]|].
  { unfold CBS_len. rewrite length_replicate. lia. }
  intros _ w2 Hw2 [L2 Ch2].
  eapply (cbb_wp_bind _ _ (fun a w' => a = w2 /\ w' = w2)); [by apply wp_read|]. intros x w' _ [-> ->].
  unfold wp, mbind, act_bind, write_obj. cbn [mret act_ret]. split; [|done].
  destruct Hw2 as (R & F & L & C). split_and!; [done|done|apply L|apply L|].
  cbn [children set_children base]. rewrite Ch2, Ch1, <-Hd, firstn_all.
  apply chain_ok_app. exists (len (base w)). split; [apply Hw|].
  cbn [chain_ok]. unfold child_end. cbn [offset pending_len_len pending_is_asn1].
  split_and!; try lia. intros E. rewrite (Ha E). done.
Qed.

Lemma Keeps_flush_then {A} d (k : act cbb_world A) :
  (forall w, Inv w -> length (children w) = d -> wp k (fun _ _ => True) w) ->
  Keeps (_ ← CBB_flush d; k).
Proof.
  intros H w Hw. eapply wp_Inv, cbb_wp_bind; [by apply CBB_flush_wp|]. intros ? w1 Hw1 Hd. by apply H.
Qed.

Lemma Keeps_add_length_prefixed d (ll : nat) :
  (ll <= 8)%nat -> Keeps (cbb_add_length_prefixed d (Z.of_nat ll)).
Proof. intros Hll. apply Keeps_flush_then. intros w Hw Hd. by apply add_child_wp. Qed.

Lemma add_groups_wp d n v w :
  Inv w -> length (children w) = d ->
  wp (add_groups d n v) (fun _ w' => length (children w') = d) w.
Proof.
  revert w. induction n as [|n IH]; intros w Hw Hch; [by apply cbb_wp_ret|].
  eapply cbb_wp_bind; [by apply (add_u_wp d _ 1); [lia|]|]. intros ? w1 Hw1 Hch1. by apply IH.
Qed.

Lemma Keeps_add_base128 d v : Keeps (add_base128_integer d v).
Proof.
  unfold add_base128_integer. cbv zeta.
  generalize (if (base128_len 10 v =? 0)%nat then 1%nat else base128_len 10 v).
  intros n. induction n as [|n IH]; [apply Keeps_ret|].
  apply Keeps_bind; [apply Keeps_add_u8|done].
Qed.

Lemma Keeps_add_asn1 d tag : Keeps (CBB_add_asn1 d tag).
Proof.
  apply Keeps_flush_then. intros w Hw Hch. cbv zeta.
  apply (cbb_wp_bind _ _ (fun _ w' => length (children w') = d)).
  - destruct (31 <=? _); [|by apply (add_u_wp d _ 1); [lia|]].
    eapply cbb_wp_bind; [by apply (add_u_wp d _ 1); [lia|]|]. intros ? w1 Hw1 Hch1.
    by apply add_groups_wp.
  - intros ? w1 Hw1 Hch1. apply (add_child_wp d 1 true); (done || lia).
Qed.

Lemma Keeps_uint64_bytes child l : forall started, Keeps (uint64_bytes_loop child started l).
Proof.
  induction l as [|b l IH]; intros started; cbn [uint64_bytes_loop]; [apply Keeps_ret|].
  destruct started; cbn [negb].
  - apply Keeps_bind; [apply Keeps_add_u8|done].
  - destruct (b =? 0); [apply IH|]. apply Keeps_bind.
    + destruct (negb _); [apply Keeps_add_u8|apply Keeps_ret].
    + intros _. apply Keeps_bind; [apply Keeps_add_u8|done].
Qed.

Lemma Keeps_add_asn1_uint64 d v tag : Keeps (CBB_add_asn1_uint64_with_tag d v tag).
Proof.
  apply Keeps_bind; [|intros _; apply Keeps_flush]. apply Keeps_or_on_error.
  apply Keeps_bind; [apply Keeps_add_asn1|intros c].
  apply Keeps_bind; [apply Keeps_uint64_bytes|intros []; [apply Keeps_ret|apply Keeps_add_u8]].
Qed.

Lemma Keeps_add_u8_list d l : Keeps (add_u8_list d l).
Proof.
  induction l as [|b l IH]; [apply Keeps_ret|]. apply Keeps_bind; [apply Keeps_add_u8|done].
Qed.

Lemma Keeps_add_asn1_int64 d v tag : Keeps (CBB_add_asn1_int64_with_tag d v tag).
Proof.
  unfold CBB_add_asn1_int64_with_tag. destruct (0 <=? v); [apply Keeps_add_asn1_uint64|].
  apply Keeps_bind; [|intros _; apply Keeps_flush]. apply Keeps_or_on_error.
  apply Keeps_bind; [apply Keeps_add_asn1|intros c; apply Keeps_add_u8_list].
Qed.

Lemma Keeps_add_asn1_octet_string d data :
  CBS_len data < 2 ^ 64 -> Keeps (CBB_add_asn1_octet_string d data).
Proof.
  intros H. apply Keeps_or_on_error. apply Keeps_bind; [apply Keeps_add_asn1|intros c].
  apply Keeps_bind; [by apply Keeps_add_bytes|intros _; apply Keeps_flush].
Qed.

Lemma Keeps_add_asn1_bool d b : Keeps (CBB_add_asn1_bool d b).
Proof.
  apply Keeps_or_on_error. apply Keeps_bind; [apply Keeps_add_asn1|intros c].
  apply Keeps_bind; [apply Keeps_add_u8|intros _; apply Keeps_flush].
Qed.

Lemma Keeps_oid_components d fuel : forall cbs, Keeps (oid_components fuel d cbs).
Proof.
  induction fuel as [|fuel IH]; intros [|b cbs]; cbn [oid_components];
    [apply Keeps_ret|apply Keeps_fail|apply Keeps_ret|].
  destruct (parse_dotted_decimal _) as [[a|] cbs']; [|apply Keeps_fail].
  apply Keeps_bind; [apply Keeps_add_base128|done].
Qed.

Lemma Keeps_add_oid d text : Keeps (CBB_add_asn1_oid_from_text d text).
Proof.
  apply Keeps_bind; [apply Keeps_flush|intros _].
  destruct (parse_dotted_decimal text) as [[a|] cbs]; [|apply Keeps_fail].
  destruct (parse_dotted_decimal cbs) as [[b|] cbs']; [|apply Keeps_fail].
  destruct (_ || _); [apply Keeps_fail|].
  apply Keeps_bind; [apply Keeps_add_base128|intros _; apply Keeps_oid_components].
Qed.

(** Discarding gives back the space from the child's prefix on. *)
Lemma discard_inv d w : Inv w -> Inv (CBB_discard_child d w).
Proof.
  intros Hw. unfold CBB_discard_child. destruct (children w !! d) as [c|] eqn:E; [|done].
  pose proof Hw as (R & F & L & C).
  rewrite <-(take_drop_middle _ _ _ E) in C. apply chain_ok_app in C as (m & C1 & C2).
  pose proof (chain_ok_le _ _ _ C1). destruct C2 as (Hm & Hp & _ & C2%chain_ok_le).
  unfold child_end in C2.
  assert (Hl : CBS_len (take (Z.to_nat (offset c)) (buf (base w))) = offset c)
    by (unfold CBS_len, len in *; rewrite length_take; lia).
  split_and!; [done|done| |apply L|].
  - cbn [base set_children]. rewrite len_set_buf, Hl. unfold set_buf, set_base. cbn [base cap]. lia.
  - cbn [base set_children children]. rewrite len_set_buf, Hl. by eapply chain_ok_mono.
Qed.
End Invariant.
