(* ===== verification/CbbSetOf.v ===== *)
(** * BoringSSL: the elements of a SET OF

    [CBB_flush_asn1_set_of] puts the elements of an object in the order DER asks for:
    the same elements, sorted, in the same place. *)
From S2P Require Export CbbSafe.
From Stdlib Require Import Sorting.Sorted.
From stdpp Require sorting.

(** ** The elements *)

Lemma any_element_split ber_ok cbs e rest :
  cbs_get_any_asn1_element ber_ok cbs = (Some e, rest) -> cbs = el_out e ++ rest.
Proof.
  intros H. apply act_bind_inv in H as (c & s & [= -> ->] & H).
  apply act_bind_inv in H as (h & s1 & Hh & H). unfold on_copy in Hh.
  destruct (parse_asn1_header _ _ _) as [[h'|] rest']; [|done]. injection Hh as <- <-.
  apply act_bind_inv in H as (out & s2 & Hout & H). injection H as <- <-.
  unfold CBS_get_bytes, cbs_get in Hout. cbn [el_out fst] in *.
  destruct (_ <? _); [done|]. injection Hout as <- <-. by rewrite take_drop.
Qed.

Lemma split_elements_concat fuel : forall cbs l,
  split_elements fuel cbs = Some l -> concat l = cbs.
Proof.
  induction fuel as [|fuel IH]; intros [|b cbs] l; cbn [split_elements]; try done;
    try by intros [= <-].
  unfold CBS_get_any_asn1_element.
  destruct (cbs_get_any_asn1_element false (b :: cbs)) as [[e|] cbs'] eqn:E; [|done].
  apply any_element_split in E.
  intros (l' & Hl & ->)%fmap_Some. cbn [concat]. by rewrite (IH _ _ Hl), E.
Qed.

(** What the parser takes for an element is a DER element. *)
Definition is_der (e : CBS) : Prop :=
  exists tag contents, tag_ok tag /\ CBS_len contents < 2 ^ 32 /\ e = der tag contents.

Lemma split_elements_der fuel : forall cbs l,
  bytes cbs -> split_elements fuel cbs = Some l -> Forall is_der l.
Proof.
  induction fuel as [|fuel IH]; intros [|b cbs] l Hb; cbn [split_elements]; try done;
    try by intros [= <-].
  destruct (CBS_get_any_asn1_element (b :: cbs)) as [[e|] cbs'] eqn:E; [|done].
  intros (l' & Hl & ->)%fmap_Some. apply any_element_inv in E as (c & Hok & Hlen & E & He); [|done].
  rewrite E in Hb. apply bytes_app in Hb as [_ Hb']. constructor; [|by eapply IH].
  exists (el_tag e), c. by rewrite He at 2.
Qed.

Lemma der_not_nil e : is_der e -> e <> [].
Proof.
  intros (tag & c & Hok & Hlen & ->) E. pose proof (any_element_app false tag c [] Hok Hlen) as H. by rewrite E in H.
Qed.

(** Any list of DER elements is taken apart again. *)
Lemma split_elements_app l : forall fuel,
  Forall is_der l -> (length (concat l) <= fuel)%nat -> split_elements fuel (concat l) = Some l.
Proof.
  induction l as [|e l IH]; intros fuel Hl Hf; [by destruct fuel|].
  apply Forall_cons in Hl as [He Hl]. pose proof (der_not_nil e He) as Hn.
  destruct He as (tag & c & Hok & Hlen & ->). pose proof (any_element_app false tag c (concat l) Hok Hlen) as Hp.
  cbn [concat] in *. rewrite length_app in Hf. destruct (der tag c) as [|b e] eqn:E; [done|]. cbn [length app] in *.
  destruct fuel as [|fuel]; [lia|]. cbn [split_elements]. unfold CBS_get_any_asn1_element. rewrite Hp.
  cbn [el_out]. by rewrite IH by (done || lia).
Qed.

(** ** The order *)

(** The order of a SET OF in DER (X.690, 11.6): the encodings are compared as strings of
    octets, the shorter being padded at its end with zeros. *)
Definition octet (a : list Z) (i : nat) : Z := nth i a 0.
Definition der_le (a b : list Z) : Prop :=
  (forall i, octet a i = octet b i)
  \/ exists k, (forall i, (i < k)%nat -> octet a i = octet b i) /\ octet a k < octet b k.

Lemma der_le_trans a b c : der_le a b -> der_le b c -> der_le a c.
Proof.
  intros [Eab|(k & Eab & Hk)] [Ebc|(m & Ebc & Hm)].
  - left. intros i. by rewrite Eab.
  - right. exists m. rewrite Eab. split; [|done]. intros i Hi. by rewrite Eab, Ebc.
  - right. exists k. rewrite <-Ebc. split; [|done]. intros i Hi. by rewrite Eab, Ebc.
  - right. exists (Nat.min k m). split.
    + intros i Hi. rewrite Eab, Ebc by lia. done.
    + destruct (Nat.lt_trichotomy k m) as [H|[->|H]].
      * rewrite Nat.min_l, <-Ebc by lia. done.
      * rewrite Nat.min_id. lia.
      * rewrite Nat.min_r, Eab by lia. done.
Qed.

Lemma der_le_both a b : der_le a b -> der_le b a -> forall i, octet a i = octet b i.
Proof.
  intros [E|(k & Ek & Hk)] [E'|(m & Em & Hm)]; [done|done|by intros i|].
  destruct (Nat.lt_trichotomy k m) as [H|[->|H]].
  - specialize (Em k H). lia.
  - lia.
  - specialize (Ek m H). lia.
Qed.

Lemma same_octets a b : (forall i, octet a i = octet b i) -> (length a <= length b)%nat -> exists z, b = a ++ z.
Proof.
  revert b. induction a as [|x a IH]; intros b E Hl; [by exists b|]. destruct b as [|y b]; [simpl in Hl; lia|].
  destruct (IH b) as [z ->]; [intros i; apply (E (S i))|simpl in Hl; lia|]. exists z. by rewrite <-(E 0%nat : x = y).
Qed.

(** No element is the beginning of another: the padding does not make two of them equal. *)
Lemma der_prefix a z : is_der a -> is_der (a ++ z) -> z = [].
Proof.
  intros (t & c & Hok & Hlen & ->) (t' & c' & Hok' & Hlen' & E).
  pose proof (any_element_app false t c z Hok Hlen) as H. pose proof (any_element_app false t' c' [] Hok' Hlen') as H'.
  rewrite app_nil_r, <-E in H'. congruence.
Qed.

Lemma der_le_antisym a b : is_der a -> is_der b -> der_le a b -> der_le b a -> a = b.
Proof.
  intros Ha Hb H1 H2. pose proof (der_le_both a b H1 H2) as E.
  destruct (Nat.le_ge_cases (length a) (length b)) as [Hl|Hl].
  - destruct (same_octets a b E Hl) as [z ->]. by rewrite (der_prefix a z), app_nil_r.
  - destruct (same_octets b a) as [z ->]; [by intros i|done|]. by rewrite (der_prefix b z), app_nil_r.
Qed.

(** The comparison of the code, which looks at the lengths last, is that order. *)
Lemma zeros_below l : bytes l -> der_le [] l.
Proof.
  intros Hl. induction Hl as [|b l Hb Hl IH]; [by left|]. unfold is_byte in Hb.
  destruct (Z.eq_dec b 0) as [->|Hb0].
  - destruct IH as [E|(k & E & Hk)].
    + left. intros [|i]; [done|]. specialize (E i). by destruct i.
    + right. exists (S k). split; [|by destruct k]. intros [|i] Hi; [done|]. specialize (E i ltac:(lia)). by destruct i.
  - right. exists 0%nat. split; [lia|]. change (0 < b). lia.
Qed.

Lemma der_le_cons x a b : der_le a b -> der_le (x :: a) (x :: b).
Proof.
  intros [E|(k & E & Hk)]; [left; intros [|i]; [done|apply E]|]. right. exists (S k). split; [|done].
  intros [|i] Hi; [done|]. apply (E i). lia.
Qed.

Lemma compare_der a b : bytes a -> bytes b -> compare_set_of_element a b <= 0 -> der_le a b.
Proof.
  unfold compare_set_of_element. cbv zeta. intros Ha. revert b.
  induction Ha as [|x a Hx Ha IH]; intros b Hb; [intros _; by apply zeros_below|].
  destruct b as [|y b]; cbn [memcmp_sign].
  { unfold CBS_len. cbn [length Z.eqb negb]. repeat case_bool; lia. }
  apply bytes_cons in Hb as [Hy Hb]. destruct (Z.ltb_spec x y); [intros _; right; exists 0%nat; by split; [lia|]|].
  destruct (Z.ltb_spec y x); [cbn; lia|]. assert (x = y) as -> by lia. intros Hc. apply der_le_cons, IH; [done|].
  revert Hc. unfold CBS_len. cbn [length]. rewrite !Nat2Z.inj_succ. destruct (negb _); [done|]. repeat case_bool; lia.
Qed.

Definition set_le (a b : CBS) : Prop := compare_set_of_element a b <= 0.

Lemma memcmp_sign_opp a b : memcmp_sign a b = - memcmp_sign b a.
Proof.
  revert b. induction a as [|x a IH]; intros [|y b]; cbn [memcmp_sign]; try done.
  destruct (Z.ltb_spec x y), (Z.ltb_spec y x); (lia || done || apply IH).
Qed.

Lemma set_le_total a b : set_le a b \/ set_le b a.
Proof.
  unfold set_le, compare_set_of_element. cbv zeta. rewrite (memcmp_sign_opp b a).
  destruct (Z.eqb_spec (memcmp_sign a b) 0), (Z.eqb_spec (- memcmp_sign a b) 0); cbn [negb]; try lia.
  repeat case_bool; lia.
Qed.

Lemma sort_insert_perm x l : sort_insert x l ≡ₚ x :: l.
Proof.
  induction l as [|y l IH]; [done|]. cbn [sort_insert]. case_match; [done|].
  rewrite IH. apply Permutation_swap.
Qed.

Lemma qsort_perm l : qsort l ≡ₚ l.
Proof.
  induction l as [|x l IH]; [done|]. unfold qsort in *. cbn [foldr].
  by rewrite sort_insert_perm, IH.
Qed.

Lemma sort_insert_sorted x l : Sorted set_le l -> Sorted set_le (sort_insert x l).
Proof.
  induction 1 as [|y l Hl IH Hy]; [by repeat constructor|]. cbn [sort_insert].
  destruct (Z.leb_spec (compare_set_of_element x y) 0) as [Hxy|Hxy].
  - constructor; [by constructor|by constructor].
  - constructor; [done|].
    assert (set_le y x) by (destruct (set_le_total x y) as [Hc|]; [unfold set_le in Hc; lia|done]).
    destruct l as [|z l]; cbn [sort_insert]; [by constructor|].
    destruct (_ <=? _); constructor; [done|]. by apply HdRel_inv in Hy.
Qed.

Lemma qsort_sorted l : Sorted set_le (qsort l).
Proof.
  induction l as [|x l IH]; [constructor|]. unfold qsort in *. cbn [foldr].
  by apply sort_insert_sorted.
Qed.

Lemma is_der_bytes l : bytes (concat l) -> Forall bytes l.
Proof. induction l as [|e l IH]; cbn [concat]; [constructor|]. intros [? ?]%bytes_app. by constructor; [|apply IH]. Qed.

(** Sorted by the code is in the order of DER. *)
Lemma sorted_der l : Forall bytes l -> Sorted set_le l -> StronglySorted der_le l.
Proof.
  intros Hl Hs. apply Sorted_StronglySorted; [intros a b c; apply der_le_trans|].
  induction Hs as [|x l Hs IH Hx]; [constructor|]. apply Forall_cons in Hl as [Hbx Hl].
  constructor; [by apply IH|]. destruct Hx as [|y l Hxy]; constructor. apply Forall_cons in Hl as [Hy _].
  by apply compare_der.
Qed.

(** The elements in the order of DER, which there is only one way to put them in. *)
Definition der_sorted (l l' : list CBS) : Prop :=
  l' ≡ₚ l /\ StronglySorted der_le l' /\ forall l2, l2 ≡ₚ l -> StronglySorted der_le l2 -> l2 = l'.

Lemma der_sorted_intro l l' :
  Forall is_der l -> Forall bytes l -> l' ≡ₚ l -> Sorted set_le l' -> der_sorted l l'.
Proof.
  intros Hd Hb Hp Hs. assert (Hs' : StronglySorted der_le l') by (apply sorted_der; [by rewrite Hp|done]).
  split_and!; [done|done|]. intros l2 Hp2 Hs2.
  apply (sorting.StronglySorted_unique_strong der_le); [|done|done|by rewrite Hp2, Hp].
  intros x y Hx Hy. rewrite Hp2 in Hx. rewrite Hp in Hy. rewrite Forall_forall in Hd. apply der_le_antisym; auto.
Qed.

Lemma length_concat_perm (l l' : list CBS) : l ≡ₚ l' -> length (concat l) = length (concat l').
Proof. induction 1; cbn [concat]; rewrite ?length_app; lia. Qed.

(** ** The contents of an object *)

Definition data_start (d : nat) (w : cbb_world) : Z :=
  match d with
  | O => 0
  | S d => match children w !! d with Some c => child_end c | None => len (base w) end
  end.

Section SetOf.
Context {resizes : bool} {fixed_cap : Z}.
Notation Inv := (Inv resizes fixed_cap).

Lemma data_start_range d w : Inv w -> (d <= length (children w))%nat -> 0 <= data_start d w <= len (base w).
Proof.
  intros Hw Hd. pose proof (len_nonneg (base w)). destruct d as [|d]; cbn [data_start]; [lia|].
  destruct (lookup_lt_is_Some_2 (children w) d Hd) as [c Hc]. rewrite Hc.
  destruct (chain_ok_child _ c _ (proj2 (proj2 (proj2 Hw)))) as (? & ? & _ & ?).
  { by eapply list_elem_of_lookup_2. }
  unfold child_end in *. lia.
Qed.

Lemma CBB_data_drop d w :
  Inv w -> (d <= length (children w))%nat ->
  CBB_data d w = drop (Z.to_nat (data_start d w)) (buf (base w))
  /\ len (base w) - CBB_len d w = data_start d w.
Proof.
  intros Hw Hd. pose proof (data_start_range d w Hw Hd) as Hr. revert Hr.
  destruct d as [|d]; cbn [data_start CBB_data CBB_len]; [split; [done|lia]|].
  destruct (lookup_lt_is_Some_2 (children w) d Hd) as [c Hc]. rewrite Hc. unfold child_end.
  intros Hr. split; [done|]. pose proof (proj1 (proj2 (proj2 Hw))).
  rewrite u64_small; lia.
Qed.

(** The write of the sorted elements lies in the object. *)
Lemma set_of_write d w l :
  Inv w -> (d <= length (children w))%nat -> concat l = CBB_data d w ->
  wp resizes fixed_cap (buf_write (len (base w) - CBB_len d w) (concat (qsort l)))
    (fun _ w' => children w' = children w /\ CBB_data d w' = concat (qsort l)
       /\ take (Z.to_nat (data_start d w)) (buf (base w')) = take (Z.to_nat (data_start d w)) (buf (base w))) w.
Proof.
  intros Hw Hd Hl. destruct (CBB_data_drop d w Hw Hd) as [Hdata ->].
  pose proof (data_start_range d w Hw Hd) as Hr.
  assert (Hlen : CBS_len (concat (qsort l)) = len (base w) - data_start d w).
  { unfold CBS_len. rewrite (length_concat_perm _ _ (qsort_perm l)), Hl, Hdata, length_drop.
    unfold len in *. lia. }
  pose proof (buf_write_wp resizes fixed_cap (data_start d w) (concat (qsort l)) w ltac:(lia) ltac:(lia) Hw) as H.
  revert H. unfold wp, buf_write, mbind, act_bind, read_obj, write_obj.
  set (w' := set_buf w (splice (buf (base w)) (data_start d w) (concat (qsort l)))).
  intros (Hw' & L & Ch). split; [done|].
  assert (Hs : data_start d w' = data_start d w)
    by (unfold data_start; destruct d; [done|]; by rewrite Ch, L).
  assert (Hb : buf (base w') = take (Z.to_nat (data_start d w)) (buf (base w)) ++ concat (qsort l)).
  { unfold w'. rewrite buf_set_buf. unfold splice. rewrite drop_ge, app_nil_r; [done|].
    unfold CBS_len, len in *. lia. }
  assert (Ht : length (take (Z.to_nat (data_start d w)) (buf (base w))) = Z.to_nat (data_start d w))
    by (rewrite length_take; unfold len in *; lia).
  split_and!; [done| |].
  - rewrite (proj1 (CBB_data_drop d w' Hw' ltac:(by rewrite Ch))), Hs, Hb.
    by rewrite drop_app_length' by done.
  - rewrite Hb. by rewrite take_app_length' by done.
Qed.

Lemma flush_same d w : Inv w -> length (children w) = d ->
  CBB_flush d w = (if error (base w) then None else Some tt, w).
Proof.
  intros Hw Hd. destruct (error (base w)) eqn:He.
  - unfold CBB_flush, mbind, act_bind, read_obj. by rewrite Hd, Nat.ltb_irrefl, He.
  - apply CBB_flush_ready. split_and!; [done|done|apply Hw..].
Qed.

Lemma allocs_two (w : cbb_world) :
  exists a b w1 w2, alloc w = (Some a, w1) /\ alloc w1 = (Some b, w2) /\ base w2 = base w /\ children w2 = children w
    /\ (negb a || negb b = true -> true ∈ oom w).
Proof.
  unfold alloc. do 4 eexists. split_and!; [done..|]. cbn [oom].
  destruct (oom w) as [|[] [|[] o]]; cbn; try done; intros _; set_solver.
Qed.

(** A failure leaves the object as it was. *)
Lemma set_of_spec d w :
  Inv w -> bytes (CBB_data d w) -> length (children w) = d ->
  match CBB_flush_asn1_set_of d w with
  | (Some _, w') =>
      exists l l', concat l = CBB_data d w /\ Forall is_der l /\ der_sorted l l'
        /\ CBB_data d w' = concat l'
        /\ take (Z.to_nat (data_start d w)) (buf (base w')) = take (Z.to_nat (data_start d w)) (buf (base w))
  | (None, w') =>
      base w' = base w /\ children w' = children w
      /\ (error (base w) = true \/ true ∈ oom w \/ ~ exists l, Forall is_der l /\ concat l = CBB_data d w)
  end.
Proof.
  intros Hw Hb Hd. unfold CBB_flush_asn1_set_of, mbind, act_bind. rewrite flush_same by done.
  destruct (error (base w)) eqn:He; [by split_and!; [| |left]|]. unfold read_obj.
  destruct (split_elements _ (CBB_data d w)) as [l|] eqn:El.
  2: { split_and!; [done|done|]. right; right. intros (l & Hl & E). rewrite <-E, split_elements_app in El; done. }
  pose proof (split_elements_concat _ _ _ El) as Hl. pose proof (split_elements_der _ _ _ Hb El) as Hder.
  rewrite <-Hl in Hb. apply is_der_bytes in Hb. destruct (Nat.ltb_spec (length l) 2) as [H2|H2].
  { exists l, l. split_and!; try done. apply der_sorted_intro; [done|done|done|].
    destruct l as [|x [|y l]]; [constructor|by repeat constructor|simpl in *; lia]. }
  destruct (allocs_two w) as (ok1 & ok2 & w1 & w2 & -> & -> & Eb & Ec & Hoom).
  destruct (negb ok1 || negb ok2); [by split_and!; [done|done|right; left; apply Hoom]|].
  assert (Hw2 : Inv w2) by (unfold CbbSafe.Inv in *; by rewrite Eb, Ec).
  assert (Edata : CBB_data d w2 = CBB_data d w) by (destruct d; cbn [CBB_data]; by rewrite ?Ec, Eb).
  assert (Elen : CBB_len d w2 = CBB_len d w) by (destruct d; cbn [CBB_len]; by rewrite ?Ec, Eb).
  assert (Estart : data_start d w2 = data_start d w) by (destruct d; cbn [data_start]; by rewrite ?Ec, ?Eb).
  pose proof (set_of_write d w2 l Hw2 ltac:(rewrite Ec, <-Hd; apply le_n) ltac:(by rewrite Edata)) as Hwr.
  rewrite Eb, Elen, Estart in Hwr. unfold wp in Hwr. destruct (buf_write _ _ w2) as [[u|] w3] eqn:Ew; [|done].
  destruct Hwr as (_ & Ch & Hdata & Htake). exists l, (qsort l).
  split_and!; [done|done|apply der_sorted_intro; [done|done|apply qsort_perm|apply qsort_sorted]|done|exact Htake].
Qed.

Lemma Keeps_set_of d : Keeps resizes fixed_cap (CBB_flush_asn1_set_of d).
Proof.
  intros w Hw. eapply wp_Inv, cbb_wp_bind; [by apply CBB_flush_wp|]. intros u w1 Hw1 Hd.
  eapply (cbb_wp_bind _ _ _ _ (fun a w' => a = w1 /\ w' = w1)); [by apply wp_read|].
  intros a w' _ [-> ->]. cbv zeta.
  destruct (split_elements _ (CBB_data d w1)) as [l|] eqn:El; [|by apply (wp_fail _ _ (fun _ _ => True))].
  destruct (_ <? 2)%nat; [by apply (cbb_wp_ret _ _ _ (fun _ _ => True))|].
  unfold mbind, act_bind, alloc, wp. destruct (negb _ || negb _); [exact Hw1|].
  match goal with |- match buf_write _ _ ?w3 with _ => _ end => set (w3' := w3) end.
  assert (Hw3 : Inv w3') by exact Hw1.
  pose proof (set_of_write d w3' l Hw3 ltac:(rewrite <-Hd; apply le_n) (split_elements_concat _ _ _ El)) as Hwr.
  change (base w1) with (base w3'). change (CBB_len d w1) with (CBB_len d w3').
  exact (cbb_wp_mono _ _ _ _ (fun _ _ => True) _ Hwr (fun _ _ _ _ => I)).
Qed.
End SetOf.
