(* ===== verification/CbbOps.v ===== *)
(** * BoringSSL: any use of a builder

    The calls a program can make on a builder, in any order, on any object of the
    chain, whatever they answer: what is true of the builder all along. *)
From S2P Require Export CbbRoundtrip CbbSetOf.
From Stdlib Require Import Sorting.Sorted.

(** A call, on the object at a position; [op_did_write] with the bytes the caller
    stored, [op_add_u] for the functions for 8 to 64 bits. *)
Inductive cbb_op :=
  | op_add_bytes (d : nat) (data : list Z)
  | op_add_zeros (d : nat) (n : Z)
  | op_add_space (d : nat) (n : Z)
  | op_reserve (d : nat) (n : Z)
  | op_did_write (d : nat) (data : list Z)
  | op_add_u (d : nat) (v : Z) (len_len : nat)
  | op_add_length_prefixed (d : nat) (len_len : nat)
  | op_add_asn1 (d : nat) (tag : Z)
  | op_flush (d : nat)
  | op_discard_child (d : nat)
  | op_add_asn1_uint64 (d : nat) (v tag : Z)
  | op_add_asn1_int64 (d : nat) (v tag : Z)
  | op_add_asn1_octet_string (d : nat) (data : list Z)
  | op_add_asn1_bool (d : nat) (b : bool)
  | op_add_asn1_oid_from_text (d : nat) (text : list Z)
  | op_flush_asn1_set_of (d : nat).

(** The call; its status is the result, and its outputs are dropped. *)
Definition run_op (o : cbb_op) : act cbb_world unit :=
  match o with
  | op_add_bytes d data => CBB_add_bytes d data
  | op_add_zeros d n => CBB_add_zeros d n
  | op_add_space d n => _ ← CBB_add_space d n; mret tt
  | op_reserve d n => _ ← CBB_reserve d n; mret tt
  | op_did_write d data => CBB_did_write d data
  | op_add_u d v len_len => cbb_add_u d v (Z.of_nat len_len)
  | op_add_length_prefixed d len_len => _ ← cbb_add_length_prefixed d (Z.of_nat len_len); mret tt
  | op_add_asn1 d tag => _ ← CBB_add_asn1 d tag; mret tt
  | op_flush d => CBB_flush d
  | op_discard_child d => fun w => (Some tt, CBB_discard_child d w)
  | op_add_asn1_uint64 d v tag => CBB_add_asn1_uint64_with_tag d v tag
  | op_add_asn1_int64 d v tag => CBB_add_asn1_int64_with_tag d v tag
  | op_add_asn1_octet_string d data => CBB_add_asn1_octet_string d data
  | op_add_asn1_bool d b => CBB_add_asn1_bool d b
  | op_add_asn1_oid_from_text d text => CBB_add_asn1_oid_from_text d text
  | op_flush_asn1_set_of d => CBB_flush_asn1_set_of d
  end.

(** Sizes are [size_t]s, and prefixes have at most eight bytes. *)
Definition op_ok (o : cbb_op) : Prop :=
  match o with
  | op_add_bytes _ l | op_did_write _ l | op_add_asn1_octet_string _ l => CBS_len l < 2 ^ 64
  | op_add_zeros _ n | op_add_space _ n | op_reserve _ n => 0 <= n < 2 ^ 64
  | op_add_u _ _ n | op_add_length_prefixed _ n => (n <= 8)%nat
  | _ => True
  end.

(** The builder after the calls. *)
Fixpoint run_ops (ops : list cbb_op) (w : cbb_world) : cbb_world :=
  match ops with [] => w | o :: ops => run_ops ops (run_op o w).2 end.

Section Ops.
Variable resizes : bool.
Variable fixed_cap : Z.
Notation Keeps := (Keeps resizes fixed_cap).
Notation Inv := (Inv resizes fixed_cap).

#[local] Hint Resolve Keeps_add_bytes Keeps_add_zeros Keeps_add_space Keeps_reserve
  Keeps_did_write Keeps_add_u Keeps_add_length_prefixed Keeps_add_asn1 Keeps_flush
  Keeps_add_asn1_uint64 Keeps_add_asn1_int64 Keeps_add_asn1_octet_string Keeps_add_asn1_bool
  Keeps_add_oid Keeps_set_of Keeps_bind Keeps_ret : core.

Lemma Keeps_run_op o : op_ok o -> Keeps (run_op o).
Proof. destruct o; cbn [run_op op_ok]; intros; auto. intros w Hw. by apply discard_inv. Qed.

Lemma run_ops_inv ops : forall w, Forall op_ok ops -> Inv w -> Inv (run_ops ops w).
Proof.
  induction ops as [|o ops IH]; intros w Hops Hw; [done|].
  apply Forall_cons in Hops as [Ho Hops]. apply IH; [done|]. by apply Keeps_run_op.
Qed.
End Ops.

(** C10. A builder stays inside its buffer. Whatever calls are made on it, in any order,
    on any object of its chain, and whatever the allocator answers: the valid bytes
    never exceed the capacity, a fixed buffer is never replaced, and every pending
    length prefix lies in the valid bytes behind its parent's. *)
Theorem cbb_stays_inside ops capacity oom junk w0 :
  Forall op_ok ops -> 0 <= capacity < 2 ^ 64 ->
  w0 = CBB_init_fixed capacity oom junk \/ CBB_init capacity oom junk = Some w0 ->
  let w := run_ops ops w0 in
  0 <= len (base w) <= cap (base w) /\ cap (base w) < 2 ^ 64
  /\ (can_resize (base w0) = false -> can_resize (base w) = false /\ cap (base w) = capacity)
  /\ chain_ok 0 (children w) (len (base w)).
Proof.
  intros Hops Hc H0 w.
  assert (Hw0 : Inv (can_resize (base w0)) capacity w0).
  { destruct H0 as [->|H0].
    - unfold Inv, CBB_init_fixed. simpl. unfold len. simpl. split_and!; (done || lia).
    - unfold CBB_init in H0. destruct (_ && _); [done|]. injection H0 as <-.
      unfold Inv. simpl. unfold len. simpl. split_and!; (done || lia). }
  pose proof (run_ops_inv _ _ ops w0 Hops Hw0) as (R & F & L & C). fold w in R, F, L, C.
  pose proof (len_nonneg (base w)). split_and!; [lia|lia|lia| |done].
  intros Hr. split; [congruence|by apply F].
Qed.

(** A fixed buffer of six bytes, overrun by a child. *)
Lemma cbb_stays_inside_witness :
  let ops := [op_add_asn1 0 CBS_ASN1_OCTETSTRING; op_add_bytes 1 [1; 2; 3];
              op_add_u 1 0x1234 2; op_flush 0] in
  let w := run_ops ops (CBB_init_fixed 6 [] 0) in
  0 <= len (base w) <= cap (base w) /\ cap (base w) < 2 ^ 64
  /\ (false = false -> can_resize (base w) = false /\ cap (base w) = 6)
  /\ chain_ok 0 (children w) (len (base w)).
Proof.
  apply (cbb_stays_inside [op_add_asn1 0 CBS_ASN1_OCTETSTRING; op_add_bytes 1 [1; 2; 3];
              op_add_u 1 0x1234 2; op_flush 0] 6 [] 0 (CBB_init_fixed 6 [] 0)).
  - repeat constructor; lia.
  - lia.
  - left. reflexivity.
Defined.

(** ** Errors *)

(** [m] fails on a builder with an error, and leaves the error. *)
Definition Stuck {A} (m : act cbb_world A) : Prop := forall w,
  error (base w) = true -> (m w).1 = None /\ error (base (m w).2) = true.

Lemma Stuck_flush d : Stuck (CBB_flush d).
Proof.
  intros w He. unfold CBB_flush, mbind, act_bind, read_obj. destruct (_ <? _)%nat; [done|].
  by rewrite He.
Qed.

Lemma Stuck_bind {A B} (m : act cbb_world A) (k : A -> act cbb_world B) : Stuck m -> Stuck (m ≫= k).
Proof.
  intros H w He. destruct (H w He) as [H1 H2]. unfold mbind, act_bind.
  destruct (m w) as [[a|] w1]; [done|]. done.
Qed.

Lemma Stuck_or_on_error {A} d (m : act cbb_world A) : Stuck m -> Stuck (or_on_error d m).
Proof.
  intros H w He. destruct (H w He) as [H1 H2]. unfold or_on_error, mbind, act_bind, try.
  destruct (m w) as [[a|] w1]; [done|]. done.
Qed.

#[local] Hint Resolve Stuck_flush Stuck_bind Stuck_or_on_error : core.

Lemma Stuck_add_asn1 d tag : Stuck (CBB_add_asn1 d tag).
Proof. apply Stuck_bind, Stuck_flush. Qed.

#[local] Hint Resolve Stuck_add_asn1 : core.

Lemma Stuck_add_space d n : Stuck (CBB_add_space d n).
Proof. apply Stuck_bind, Stuck_flush. Qed.

#[local] Hint Resolve Stuck_add_space : core.

Lemma error_run_op o w : error (base w) = true -> error (base (run_op o w).2) = true.
Proof.
  intros He. assert (Hs : forall m : act cbb_world unit, Stuck m -> error (base (m w).2) = true)
    by (intros m Hm; by apply Hm).
  destruct o; cbn [run_op].
  5:{ unfold CBB_did_write, mbind, act_bind, read_obj, write_obj. cbv zeta. by destruct (_ || _). }
  9:{ unfold CBB_discard_child. destruct (children w !! d); [|done]. done. }
  all: apply Hs; unfold CBB_add_bytes, CBB_add_zeros, CBB_reserve, cbb_add_u, cbb_add_length_prefixed,
    CBB_add_asn1_int64_with_tag, CBB_add_asn1_uint64_with_tag, CBB_add_asn1_octet_string,
    CBB_add_asn1_bool, CBB_add_asn1_oid_from_text, CBB_flush_asn1_set_of; auto 8.
  destruct (0 <=? v); unfold CBB_add_asn1_uint64_with_tag; cbv zeta; auto 8.
Qed.

(** C37. Errors stay: once a call on a builder has failed with the error recorded, no
    sequence of calls clears it, and [CBB_finish] gives nothing. *)
Theorem cbb_error_is_sticky ops w wants_data wants_len :
  error (base w) = true ->
  error (base (run_ops ops w)) = true
  /\ (CBB_finish 0 wants_data wants_len (run_ops ops w)).1 = None.
Proof.
  intros He. assert (H : error (base (run_ops ops w)) = true).
  { revert w He. induction ops as [|o ops IH]; intros w He; [done|]. by apply IH, error_run_op. }
  split; [done|]. destruct (Stuck_flush 0 _ H) as [H1 _]. unfold CBB_finish. cbn [Nat.eqb negb].
  unfold mbind, act_bind. destruct (CBB_flush 0 (run_ops ops w)) as [[u|] w1]; done.
Qed.

Lemma cbb_error_is_sticky_witness :
  let w := (CBB_add_u24 0 0x1000000 growable).2 in
  error (base w) = true /\
  error (base (run_ops [op_add_bytes 0 [1]; op_did_write 0 [1]; op_flush 0] w)) = true
  /\ (CBB_finish 0 true true (run_ops [op_add_bytes 0 [1]; op_did_write 0 [1]; op_flush 0] w)).1 = None.
Proof. split; [reflexivity|]. apply cbb_error_is_sticky. reflexivity. Defined.

(** C38. [CBB_flush_asn1_set_of], on an object with nothing left to flush, sorts it: the
    object held DER elements, and afterwards holds the same elements in the order of DER,
    in the same place. The order is that of X.690, the encodings compared as strings of
    octets with zeros behind the shorter; there is one way to put elements in it. It
    fails only where the builder has an error, an allocation fails or the object does not
    consist of DER elements, and then leaves the object alone. *)
Theorem CBB_flush_asn1_set_of_sorts resizes fixed_cap d w :
  Inv resizes fixed_cap w -> bytes (CBB_data d w) -> length (children w) = d ->
  match CBB_flush_asn1_set_of d w with
  | (Some _, w') =>
      exists l l', concat l = CBB_data d w /\ Forall is_der l
        /\ l' ≡ₚ l /\ StronglySorted der_le l' /\ (forall l2, l2 ≡ₚ l -> StronglySorted der_le l2 -> l2 = l')
        /\ CBB_data d w' = concat l'
        /\ take (Z.to_nat (data_start d w)) (buf (base w')) = take (Z.to_nat (data_start d w)) (buf (base w))
  | (None, w') =>
      base w' = base w /\ children w' = children w
      /\ (error (base w) = true \/ true ∈ oom w \/ ~ exists l, Forall is_der l /\ concat l = CBB_data d w)
  end.
Proof.
  intros Hw Hb Hd. pose proof (set_of_spec d w Hw Hb Hd) as H.
  destruct (CBB_flush_asn1_set_of d w) as [[u|] w']; [|exact H].
  destruct H as (l & l' & ? & ? & (? & ? & ?) & ? & ?). by exists l, l'.
Qed.

(** Elements that differ in their last byte only, and in their length. *)
Lemma CBB_flush_asn1_set_of_sorts_witness :
  let w := mk_world (mk_base [9; 4; 2; 7; 1; 4; 3; 0; 0; 0; 4; 2; 7; 0; 4; 2; 6; 255] 32 true false) [mk_child 0 1 true] [] 0 in
  let w' := mk_world (mk_base [9; 4; 2; 6; 255; 4; 2; 7; 0; 4; 2; 7; 1; 4; 3; 0; 0; 0] 32 true false) [mk_child 0 1 true] [] 0 in
  CBB_flush_asn1_set_of 1 w = (Some tt, w') /\
  exists l l', concat l = CBB_data 1 w /\ Forall is_der l
    /\ l' ≡ₚ l /\ StronglySorted der_le l' /\ (forall l2, l2 ≡ₚ l -> StronglySorted der_le l2 -> l2 = l')
    /\ CBB_data 1 w' = concat l'
    /\ take (Z.to_nat (data_start 1 w)) (buf (base w')) = take (Z.to_nat (data_start 1 w)) (buf (base w)).
Proof.
  intros w w'. assert (E : CBB_flush_asn1_set_of 1 w = (Some tt, w')) by (vm_compute; reflexivity). split; [exact E|].
  assert (Hi : Inv true 0 w) by (unfold Inv; cbn; unfold len, child_end; cbn; split_and!; (done || lia)).
  assert (Hb : bytes (CBB_data 1 w)) by (vm_compute; repeat constructor; done).
  pose proof (CBB_flush_asn1_set_of_sorts true 0 1 w Hi Hb eq_refl) as H. rewrite E in H. exact H.
Defined.
