(* ===== verification/Ber.v ===== *)
(** * BoringSSL: crypto/bytestring/ber.c

    The conversion of BER to DER. A function that moves [*in] returns the bytes left of
    it on success; where [*in] stands after a failure is not modelled. The C functions
    recurse once per level of nesting, at most [kMaxDepth] times: [levels] is the number of
    levels still allowed, and running out of it is the error of the code. The loop over the
    elements of one level is bounded by the bytes of the level, each element taking at
    least one. *)
From S2P Require Export CbbSpec.

Definition kMaxDepth : Z := 128.

(** The levels from depth 0 to depth [kMaxDepth]. *)
Definition max_levels : nat := S (Z.to_nat kMaxDepth).

Definition CBS_ASN1_UTF8STRING : Z := 0xc.
Definition CBS_ASN1_NUMERICSTRING : Z := 0x12.
Definition CBS_ASN1_PRINTABLESTRING : Z := 0x13.
Definition CBS_ASN1_T61STRING : Z := 0x14.
Definition CBS_ASN1_VIDEOTEXSTRING : Z := 0x15.
Definition CBS_ASN1_IA5STRING : Z := 0x16.
Definition CBS_ASN1_GRAPHICSTRING : Z := 0x19.
Definition CBS_ASN1_VISIBLESTRING : Z := 0x1a.
Definition CBS_ASN1_GENERALSTRING : Z := 0x1b.
Definition CBS_ASN1_UNIVERSALSTRING : Z := 0x1c.
Definition CBS_ASN1_BMPSTRING : Z := 0x1e.

(** [tag & ~CBS_ASN1_CONSTRUCTED] and [tag & CBS_ASN1_CONSTRUCTED], as a condition. *)
Definition plain_tag (tag : Z) : Z := Z.ldiff tag CBS_ASN1_CONSTRUCTED.
Definition is_constructed (tag : Z) : bool := negb (Z.land tag CBS_ASN1_CONSTRUCTED =? 0).

Definition is_string_type (tag : Z) : bool :=
  existsb (Z.eqb (plain_tag tag))
    [CBS_ASN1_OCTETSTRING; CBS_ASN1_UTF8STRING; CBS_ASN1_NUMERICSTRING;
     CBS_ASN1_PRINTABLESTRING; CBS_ASN1_T61STRING; CBS_ASN1_VIDEOTEXSTRING;
     CBS_ASN1_IA5STRING; CBS_ASN1_GRAPHICSTRING; CBS_ASN1_VISIBLESTRING;
     CBS_ASN1_GENERALSTRING; CBS_ASN1_UNIVERSALSTRING; CBS_ASN1_BMPSTRING].

(** ** Looking for BER *)

(** The loop of [cbs_find_ber], over the call for the level below. The answer is
    [*ber_found], or [None] for an error. *)
Fixpoint find_ber_loop (below : CBS -> option bool) (n : nat) (in_ : CBS) : option bool :=
  match n with
  | O => Some false
  | S n =>
    if CBS_len in_ =? 0 then Some false
    else
      match CBS_get_any_ber_asn1_element in_ with
      | (None, _) => None
      | (Some e, rest) =>
        if el_ber_found e then Some true
        else if is_constructed (el_tag e) then
          if is_string_type (el_tag e) then Some true
          else
            match CBS_skip (el_header_len e) (el_out e) with
            | (None, _) => None
            | (Some _, contents) =>
              ber_found ← below contents;
              if ber_found : bool then Some true else find_ber_loop below n rest
            end
        else find_ber_loop below n rest
      end
  end.

Fixpoint cbs_find_ber (levels : nat) (orig_in : CBS) : option bool :=
  match levels with
  | O => None
  | S levels => find_ber_loop (cbs_find_ber levels) (length orig_in) orig_in
  end.

(** ** Converting *)

Definition cbs_get_eoc (cbs : CBS) : bool * CBS :=
  match cbs with
  | 0 :: 0 :: _ => match CBS_skip 2 cbs with
                   | (Some _, rest) => (true, rest)
                   | (None, rest) => (false, rest)
                   end
  | _ => (false, cbs)
  end.

(** The object the contents of an element of tag [tag] are written to, and the
    [string_tag] of its children. *)
Definition open_contents (out : nat) (string_tag tag : Z) : act cbb_world (nat * Z) :=
  if negb (string_tag =? 0) then
    if negb (plain_tag tag =? string_tag) then fail else mret (out, string_tag)
  else
    let is_string := is_constructed tag && is_string_type tag in
    let out_tag := if is_string then plain_tag tag else tag in
    out_contents ← CBB_add_asn1 out out_tag;
    mret (out_contents, if is_string then out_tag else string_tag).

(** A call of [cbs_convert_ber], without the depth: [in], [out], [string_tag] and
    [looking_for_eoc]. *)
Definition convert_t : Type := CBS -> nat -> Z -> bool -> act cbb_world CBS.

Fixpoint convert_loop (below : convert_t) (n : nat) (in_ : CBS) (out : nat) (string_tag : Z)
    (looking_for_eoc : bool) : act cbb_world CBS :=
  match n with
  | O => fail
  | S n =>
    if CBS_len in_ =? 0 then (if looking_for_eoc then fail else mret in_)
    else
      let eoc := cbs_get_eoc in_ in
      if looking_for_eoc && eoc.1 then mret eoc.2
      else
        r ← on_obj in_ CBS_get_any_ber_asn1_element;
        let e := r.1 in
        let in_ := r.2 in
        o ← open_contents out string_tag (el_tag e);
        let '(out_contents, child_string_tag) := o in
        if el_indefinite e then
          in_ ← below in_ out_contents child_string_tag true;
          _ ← CBB_flush out;
          convert_loop below n in_ out string_tag looking_for_eoc
        else
          c ← on_obj (el_out e) (CBS_skip (el_header_len e));
          let contents := c.2 in
          _ ← (if is_constructed (el_tag e)
               then _ ← below contents out_contents child_string_tag false; mret tt
               else CBB_add_bytes out_contents contents);
          _ ← CBB_flush out;
          convert_loop below n in_ out string_tag looking_for_eoc
  end.

Fixpoint cbs_convert_ber (levels : nat) : convert_t := fun in_ out string_tag looking_for_eoc =>
  match levels with
  | O => fail
  | S levels =>
    convert_loop (cbs_convert_ber levels) (S (length in_)) in_ out string_tag looking_for_eoc
  end.

(** [*out], the storage left in [*out_storage] ([None] for [NULL]), and the rest of
    [in]; [oom] and [junk] are the allocator's. *)
Definition CBS_asn1_ber_to_der (oom : list bool) (junk : Z) (in_ : CBS)
    : option (CBS * option (list Z) * CBS) :=
  conversion_needed ← cbs_find_ber max_levels in_;
  if negb conversion_needed then
    match CBS_get_any_asn1_element in_ with
    | (Some e, rest) => Some (el_out e, None, rest)
    | (None, _) => None
    end
  else
    cbb ← CBB_init (CBS_len in_) oom junk;
    match (rest ← cbs_convert_ber max_levels in_ 0%nat 0 false;
           der ← CBB_finish 0 true true;
           mret (rest, der)) cbb with
    | (Some (rest, der), _) => Some (der, Some der, rest)
    | (None, _) => None
    end.

(** The loop of [CBS_get_asn1_implicit_string] over the chunks of [child]. *)
Fixpoint implicit_string_loop (n : nat) (child : CBS) (inner_tag : Z) : act cbb_world unit :=
  if CBS_len child =? 0 then mret tt
  else match n with
       | O => fail
       | S n =>
         r ← on_obj child (CBS_get_asn1 inner_tag);
         _ ← CBB_add_bytes 0 r.1;
         implicit_string_loop n r.2 inner_tag
       end.

Definition CBS_get_asn1_implicit_string (oom : list bool) (junk : Z) (in_ : CBS)
    (outer_tag inner_tag : Z) : option (CBS * option (list Z) * CBS) :=
  if CBS_peek_asn1_tag in_ outer_tag then
    match CBS_get_asn1 outer_tag in_ with
    | (Some out, rest) => Some (out, None, rest)
    | (None, _) => None
    end
  else
    result ← CBB_init (CBS_len in_) oom junk;
    match CBS_get_asn1 (Z.lor outer_tag CBS_ASN1_CONSTRUCTED) in_ with
    | (None, _) => None
    | (Some child, rest) =>
      match (_ ← implicit_string_loop (length child) child inner_tag;
             CBB_finish 0 true true) result with
      | (Some data, _) => Some (data, Some data, rest)
      | (None, _) => None
      end
    end.
