(* ===== verification/BerSpec.v ===== *)
(** * BoringSSL: BER is converted to the DER of the same tree

    A BER element is a tree: a primitive element, or a constructed one with its children, in
    a definite length (any of the length encodings BER allows) or an indefinite one. [encode]
    is its BER encoding and [to_der] the DER encoding it stands for, where the fragments of
    a constructed string are one string. *)
From S2P Require Export Ber.

(** ** Lengths *)

(** [l] encodes the length [n]: in one byte, or in up to four behind their number. *)
Definition ber_len (l : list Z) (n : Z) : Prop :=
  (l = [n] /\ 0 <= n < 128)
  \/ exists bs, (1 <= length bs <= 4)%nat /\ bytes bs
       /\ l = (128 + Z.of_nat (length bs)) :: bs /\ be_value bs = n.

Lemma ber_len_range l n : ber_len l n -> 0 <= n < 2 ^ 32 /\ 1 <= CBS_len l <= 5.
Proof.
  unfold CBS_len. intros [[-> Hn]|(bs & Hl & Hb & -> & <-)]; [simpl; lia|].
  pose proof (be_value_range bs Hb).
  assert (2 ^ (8 * Z.of_nat (length bs)) <= 2 ^ 32) by (apply Z.pow_le_mono_r; lia).
  simpl length. lia.
Qed.

Definition header_of (tag : Z) (l : list Z) : Z := CBS_len (tag_enc tag) + CBS_len l.

(** What tells DER from BER: whether a length is in its shortest form. *)
Definition loose (l : list Z) (n : Z) : bool := bool_decide (l <> len_enc n).

Lemma loose_short n : 0 <= n < 128 -> loose [n] n = false.
Proof.
  intros Hn. apply bool_decide_eq_false. unfold len_enc. destruct (Z.ltb_spec n 128); [naive_solver|lia].
Qed.

Lemma loose_long bs :
  (1 <= length bs <= 4)%nat -> bytes bs ->
  loose ((128 + Z.of_nat (length bs)) :: bs) (be_value bs)
  = (be_value bs <? 128) || (Z.shiftr (be_value bs) ((Z.of_nat (length bs) - 1) * 8) =? 0).
Proof.
  intros Hl Hb. pose proof (be_value_range bs Hb) as Hr. set (n := be_value bs) in *.
  rewrite (Z.mul_comm _ 8), Z.shiftr_div_pow2 by lia.
  assert (Hp : 0 < 2 ^ (8 * (Z.of_nat (length bs) - 1))) by (apply Z.pow_pos_nonneg; lia).
  assert (H32 : 2 ^ (8 * Z.of_nat (length bs)) <= 2 ^ 32) by (apply Z.pow_le_mono_r; lia).
  unfold loose. destruct (Z.ltb_spec n 128) as [Hlt|Hge]; cbn [orb].
  { apply bool_decide_eq_true. unfold len_enc. destruct (Z.ltb_spec n 128); [|lia].
    intros [= E _]. lia. }
  destruct (Z.eqb_spec (n / 2 ^ (8 * (Z.of_nat (length bs) - 1))) 0) as [E|E].
  - apply bool_decide_eq_true. intros Heq.
    destruct (len_enc_long n ltac:(lia)) as (k & Hk & Hlen & Hrk). rewrite Hlen in Heq.
    injection Heq as Ek _. assert (k = length bs) as -> by lia.
    apply Z.div_small_iff in E; lia.
  - apply bool_decide_eq_false. intros Hne. apply Hne.
    rewrite (len_enc_of (length bs)); [unfold n; by rewrite be_bytes_value|done|done|].
    split; [|lia]. destruct (Z.lt_ge_cases n (2 ^ (8 * (Z.of_nat (length bs) - 1)))); [|done].
    destruct E. apply Z.div_small. lia.
Qed.

(** ** Headers *)

Lemma parse_ber_header tag l n rest total :
  tag_ok tag -> ber_len l n -> total = header_of tag l + CBS_len rest ->
  parse_asn1_header true total (tag_enc tag ++ l ++ rest)
  = (Some (mk_header tag (header_of tag l) (n + header_of tag l) (loose l n) false), rest).
Proof.
  intros Hok Hlen Htotal. pose proof (ber_len_range _ _ Hlen) as [Hn Hll].
  unfold parse_asn1_header, header_of in *.
  pose proof (CBS_len_tag_enc tag). pose proof (CBS_len_nonneg rest).
  erewrite act_bind_some by by apply parse_tag_app.
  destruct Hlen as [[-> Hs]|(bs & Hbl & Hb & -> & Hv)]; cbn [app].
  - erewrite act_bind_some by apply CBS_get_u8_cons. erewrite act_bind_some by done.
    rewrite high_bit_clear by (unfold is_byte; lia). destruct (Z.ltb_spec n 128); [|lia].
    rewrite loose_short by done. change (CBS_len [n]) with 1 in *. rewrite u64_small by lia.
    unfold mret, act_ret. repeat f_equal; lia.
  - erewrite act_bind_some by apply CBS_get_u8_cons. erewrite act_bind_some by done.
    destruct (land_7F_long (length bs) Hbl) as [-> ->].
    assert ((Z.of_nat (length bs) =? 0) = false) as -> by lia. rewrite andb_false_r.
    assert ((4 <? Z.of_nat (length bs)) = false) as -> by lia. cbn [orb].
    erewrite act_bind_some by (apply (cbs_get_u_app bs); [done|lia]).
    rewrite Hv. subst n. rewrite loose_long by done. cbn [negb andb].
    assert (Ht : total - CBS_len (bs ++ rest) = CBS_len (tag_enc tag) + 1).
    { rewrite CBS_len_app. unfold CBS_len in *. simpl length in Htotal. lia. }
    rewrite Ht.
    assert (Hl : CBS_len ((128 + Z.of_nat (length bs)) :: bs) = 1 + Z.of_nat (length bs)).
    { unfold CBS_len in *. simpl length. lia. }
    rewrite Hl in *. rewrite !u64_small by lia.
    destruct (Z.ltb_spec (be_value bs + (CBS_len (tag_enc tag) + 1) + Z.of_nat (length bs))
                (be_value bs)); [lia|].
    by rewrite <-Z.add_assoc.
Qed.

Lemma parse_indefinite_header tag rest total :
  tag_ok tag -> is_constructed tag = true -> total = header_of tag [0x80] + CBS_len rest ->
  parse_asn1_header true total (tag_enc tag ++ [0x80] ++ rest)
  = (Some (mk_header tag (header_of tag [0x80]) (header_of tag [0x80]) true true), rest).
Proof.
  intros Hok Hc Htotal. unfold parse_asn1_header, header_of, is_constructed in *.
  change (CBS_len [0x80]) with 1 in *.
  erewrite act_bind_some by by apply parse_tag_app. cbn [app].
  erewrite act_bind_some by apply CBS_get_u8_cons. erewrite act_bind_some by done.
  change (Z.land 128 128 =? 0) with false. change (Z.land 128 0x7f) with 0.
  rewrite Hc. cbn [andb Z.eqb]. unfold mret, act_ret. repeat f_equal; lia.
Qed.

(** What a header that parses is. *)
Lemma ber_header_shape total cbs h rest :
  bytes cbs -> parse_asn1_header true total cbs = (Some h, rest) ->
  exists tag r, tag_ok tag
    /\ ((exists l n, ber_len l n /\ cbs = tag_enc tag ++ l ++ r)
        \/ (is_constructed tag = true /\ cbs = tag_enc tag ++ [0x80] ++ r)).
Proof.
  intros Hb H. unfold parse_asn1_header in H.
  apply act_bind_inv in H as (tag & s & Htag & H).
  apply parse_tag_inv in Htag as [Hok ->]; [|done]. apply bytes_app in Hb as [_ Hb].
  apply act_bind_inv in H as (lb & s1 & Hlb & H). apply CBS_get_u8_inv in Hlb as ->.
  apply bytes_cons in Hb as [Hlb Hb]. apply act_bind_inv in H as (s2 & s3 & [= -> ->] & H).
  cbv zeta in H. unfold is_byte in Hlb. exists tag.
  rewrite high_bit_clear, land_7F in H by done. destruct (Z.ltb_spec lb 128).
  { exists s3. split; [done|]. left. exists [lb], lb. split; [left; split; [done|lia]|done]. }
  pose proof (Z.mod_unique_pos lb 128 1 (lb - 128) ltac:(lia) ltac:(lia)) as Hm.
  rewrite <-Hm in H. destruct (_ && _) eqn:Ei.
  { apply andb_true_iff in Ei as [[_ Hc]%andb_true_iff Hz%Z.eqb_eq].
    exists s3. split; [done|]. right. split; [done|]. by replace lb with 0x80 by lia. }
  destruct ((_ =? 0) || _) eqn:Enb; [done|].
  apply act_bind_inv in H as (len64 & s4 & Hlen & H).
  apply cbs_get_u_inv in Hlen as (bs & -> & Hbl & _ & Hbs & _); [|lia|done].
  unfold CBS_len in Hbl. exists s4. split; [done|]. left.
  exists (lb :: bs), (be_value bs). split; [|by rewrite app_comm_cons].
  right. exists bs. split_and!; [lia|lia|done| |done]. f_equal. lia.
Qed.

(** ** Elements *)

Lemma on_copy_some {St A} (m : act St A) (s : St) a s' :
  m s = (Some a, s') -> on_copy m s = (Some (a, s'), s).
Proof. intros H. unfold on_copy. by rewrite H. Qed.

Lemma get_ber_definite tag l contents rest :
  tag_ok tag -> ber_len l (CBS_len contents) ->
  CBS_get_any_ber_asn1_element (tag_enc tag ++ l ++ contents ++ rest)
  = (Some (mk_element (tag_enc tag ++ l ++ contents) tag (header_of tag l)
             (loose l (CBS_len contents)) false), rest).
Proof.
  intros Hok Hl. unfold CBS_get_any_ber_asn1_element, cbs_get_any_asn1_element.
  erewrite act_bind_some by done. erewrite act_bind_some.
  2:{ apply on_copy_some. apply parse_ber_header; [done..|]. unfold header_of.
      rewrite !CBS_len_app. lia. }
  cbn [fst hd_len hd_tag hd_header_len hd_ber_found hd_indefinite].
  erewrite act_bind_some; [done|]. rewrite !(app_assoc _ _ rest).
  apply cbs_get_app. unfold header_of. rewrite !CBS_len_app. lia.
Qed.

Lemma get_ber_indefinite tag rest :
  tag_ok tag -> is_constructed tag = true ->
  CBS_get_any_ber_asn1_element (tag_enc tag ++ [0x80] ++ rest)
  = (Some (mk_element (tag_enc tag ++ [0x80]) tag (header_of tag [0x80]) true true), rest).
Proof.
  intros Hok Hc. unfold CBS_get_any_ber_asn1_element, cbs_get_any_asn1_element.
  erewrite act_bind_some by done. erewrite act_bind_some.
  2:{ apply on_copy_some. apply parse_indefinite_header; [done..|]. unfold header_of.
      rewrite !CBS_len_app. lia. }
  cbn [fst hd_len hd_tag hd_header_len hd_ber_found hd_indefinite].
  erewrite act_bind_some; [done|]. rewrite app_assoc.
  apply cbs_get_app. unfold header_of. rewrite !CBS_len_app. lia.
Qed.

Lemma get_ber_inv cbs e rest :
  bytes cbs -> CBS_get_any_ber_asn1_element cbs = (Some e, rest) ->
  exists tag, tag_ok tag
    /\ ((exists l contents, ber_len l (CBS_len contents)
           /\ cbs = tag_enc tag ++ l ++ contents ++ rest
           /\ e = mk_element (tag_enc tag ++ l ++ contents) tag (header_of tag l)
                    (loose l (CBS_len contents)) false)
        \/ (is_constructed tag = true /\ cbs = tag_enc tag ++ [0x80] ++ rest
            /\ e = mk_element (tag_enc tag ++ [0x80]) tag (header_of tag [0x80]) true true)).
Proof.
  intros Hb H. pose proof H as H0.
  apply act_bind_inv in H as (c & s & [= -> ->] & H).
  apply act_bind_inv in H as (h & s1 & Hh & H). unfold on_copy in Hh.
  destruct (parse_asn1_header _ _ _) as [[h'|] rest'] eqn:Ep; [|done]. injection Hh as <- <-.
  pose proof (ber_header_shape _ _ _ _ Hb Ep) as (tag & r & Hok & [(l & n & Hl & ->)|[Hc ->]]).
  - pose proof (ber_len_range _ _ Hl) as [Hn _].
    rewrite (parse_ber_header tag l n r) in Ep by (try done; unfold header_of; rewrite !CBS_len_app; lia).
    injection Ep as <- <-. cbn [fst hd_len] in H.
    apply act_bind_inv in H as (out & s2 & Hout & _). rewrite app_assoc in Hout.
    apply cbs_get_inv in Hout as [Hs Hlen].
    2:{ unfold header_of. pose proof (CBS_len_nonneg (tag_enc tag)). pose proof (CBS_len_nonneg l). lia. }
    set (contents := take (Z.to_nat n) r).
    assert (Hlr : n <= CBS_len r).
    { apply (f_equal CBS_len) in Hs. rewrite !CBS_len_app in Hs. pose proof (CBS_len_nonneg s2).
      unfold header_of in Hlen. lia. }
    assert (Hcl : CBS_len contents = n).
    { unfold contents, CBS_len in *. rewrite length_take. lia. }
    exists tag. split; [done|]. left. exists l, contents. rewrite Hcl.
    rewrite <-(take_drop (Z.to_nat n) r) in H0 |- *. fold contents in H0 |- *.
    rewrite get_ber_definite in H0 by (by rewrite ?Hcl). injection H0 as <- <-.
    by rewrite Hcl.
  - exists tag. split; [done|]. right. rewrite get_ber_indefinite in H0 by done.
    injection H0 as <- <-. done.
Qed.

(** ** Trees *)

(** A primitive element with the encoding of its length, or a constructed one, whose length
    is indefinite when it has no encoding. *)
Inductive ber : Type :=
| Prim (tag : Z) (l : list Z) (contents : list Z)
| Cons (tag : Z) (l : option (list Z)) (elements : list ber).

Section BerInd.
Context (P : ber -> Prop).
Hypothesis HPrim : forall tag l c, P (Prim tag l c).
Hypothesis HCons : forall tag l ts, Forall P ts -> P (Cons tag l ts).

Fixpoint ber_tree_ind (t : ber) : P t :=
  match t with
  | Prim tag l c => HPrim tag l c
  | Cons tag l ts =>
    HCons tag l ts
      ((fix go (ts : list ber) : Forall P ts :=
          match ts with
          | [] => Forall_nil_2 P
          | t :: ts => Forall_cons_2 P t ts (ber_tree_ind t) (go ts)
          end) ts)
  end.
End BerInd.

Fixpoint encode (t : ber) : list Z :=
  match t with
  | Prim tag l c => tag_enc tag ++ l ++ c
  | Cons tag (Some l) ts => tag_enc tag ++ l ++ concat (map encode ts)
  | Cons tag None ts => tag_enc tag ++ [0x80] ++ concat (map encode ts) ++ [0; 0]
  end.
Definition encodes (ts : list ber) : list Z := concat (map encode ts).

Fixpoint height (t : ber) : nat :=
  match t with
  | Prim _ _ _ => O
  | Cons _ _ ts => S (list_max (map height ts))
  end.

(** The string that the fragments in a constructed element belong to, [0] for none. *)
Definition child_tag (s tag : Z) : Z :=
  if s =? 0 then (if is_string_type tag then plain_tag tag else 0) else s.

(** The contribution of an element inside the string [s]: its DER encoding outside any
    string, else its contents alone. *)
Fixpoint output (s : Z) (t : ber) : list Z :=
  match t with
  | Prim tag _ c => if s =? 0 then der tag c else c
  | Cons tag _ ts =>
    let body := concat (map (output (child_tag s tag)) ts) in
    if s =? 0 then der (if is_string_type tag then plain_tag tag else tag) body else body
  end.
Definition outputs (s : Z) (ts : list ber) : list Z := concat (map (output s) ts).
Definition to_der (t : ber) : list Z := output 0 t.

(** Well-formed inside the string [s]: all the elements of a string have its tag, up to the
    constructed bit. *)
Inductive wf : Z -> ber -> Prop :=
| wf_prim s tag l c :
    tag_ok tag -> is_constructed tag = false -> (s <> 0 -> plain_tag tag = s) ->
    bytes c -> ber_len l (CBS_len c) -> wf s (Prim tag l c)
| wf_definite s tag l ts :
    tag_ok tag -> is_constructed tag = true -> (s <> 0 -> plain_tag tag = s) ->
    ber_len l (CBS_len (encodes ts)) -> Forall (wf (child_tag s tag)) ts ->
    wf s (Cons tag (Some l) ts)
| wf_indefinite s tag ts :
    tag_ok tag -> is_constructed tag = true -> (s <> 0 -> plain_tag tag = s) ->
    Forall (wf (child_tag s tag)) ts -> wf s (Cons tag None ts).

(** What DER does not have: a length not in its shortest form or indefinite, a constructed
    string. *)
Fixpoint has_ber (t : ber) : bool :=
  match t with
  | Prim _ l c => loose l (CBS_len c)
  | Cons _ None _ => true
  | Cons tag (Some l) ts =>
    loose l (CBS_len (encodes ts)) || is_string_type tag || existsb has_ber ts
  end.

Lemma encodes_cons t ts : encodes (t :: ts) = encode t ++ encodes ts.
Proof. done. Qed.
Lemma outputs_cons s t ts : outputs s (t :: ts) = output s t ++ outputs s ts.
Proof. done. Qed.

Lemma height_children h tag l ts :
  (height (Cons tag l ts) < S h)%nat -> Forall (fun t => (height t < h)%nat) ts.
Proof.
  cbn [height]. intros H. assert (Hm : (list_max (map height ts) <= pred h)%nat) by lia.
  apply list_max_le in Hm. rewrite Forall_map in Hm.
  eapply Forall_impl; [exact Hm|]. simpl. intros t Ht. lia.
Qed.

(** An element does not begin with the byte of an end of contents. *)
Lemma tag_enc_first tag : tag_ok tag -> exists b r, tag_enc tag = b :: r /\ b <> 0.
Proof.
  intros (Ht & H0 & _). unfold tag_enc. pose proof (Z.mod_pos_bound tag (2 ^ 29) ltac:(lia)).
  assert (0 <= tag / 2 ^ 29) by (apply Z.div_pos; lia).
  case_bool; [by eexists _, _; split; [done|lia]|].
  eexists _, _. split; [done|]. pose proof (Z.div_mod tag (2 ^ 29) ltac:(lia)). lia.
Qed.

Lemma wf_tag s t : wf s t -> exists tag r, tag_ok tag /\ encode t = tag_enc tag ++ r.
Proof. destruct 1; eexists _, _; (split; [eassumption|]); done. Qed.

Lemma encode_first s t : wf s t -> exists b r, encode t = b :: r /\ b <> 0.
Proof.
  intros (tag & r & Hok & ->)%wf_tag. destruct (tag_enc_first tag Hok) as (b & r' & -> & Hb).
  by exists b, (r' ++ r).
Qed.

Lemma encodes_length s ts : Forall (wf s) ts -> (length ts <= length (encodes ts))%nat.
Proof.
  induction 1 as [|t ts Ht _ IH]; [done|]. rewrite encodes_cons, length_app.
  destruct (encode_first _ _ Ht) as (b & r & -> & _). simpl. lia.
Qed.

Lemma string_tag tag :
  is_string_type tag = true ->
  tag_ok (plain_tag tag) /\ CBS_len (tag_enc (plain_tag tag)) = 1 /\ plain_tag tag <> 0
  /\ is_constructed (plain_tag tag) = false.
Proof.
  unfold is_string_type. intros (x & Hin & E%Z.eqb_eq)%existsb_exists. rewrite E.
  simpl in Hin. unfold tag_ok. change CBS_ASN1_CONSTRUCTED with (2 ^ 29).
  repeat (destruct Hin as [<-|Hin]; [split; [split_and!; (done || lia)|by split_and!]|]). done.
Qed.

(** ** Sizes *)

Lemma CBS_len_len_enc_small n : 0 <= n < 128 -> CBS_len (len_enc n) = 1.
Proof. intros Hn. unfold len_enc. by destruct (Z.ltb_spec n 128); [|lia]. Qed.

(** The DER encoding of a length is at most as long as the sum of the other. *)
Lemma len_enc_ber l n m :
  ber_len l n -> 0 <= m <= 2 * n -> m < 2 ^ 32 -> CBS_len (len_enc m) <= 2 * CBS_len l + 1.
Proof.
  intros Hl Hm H32. pose proof (CBS_len_len_enc m ltac:(lia)).
  destruct Hl as [[-> Hn]|(bs & Hb & _ & -> & _)]; unfold CBS_len in *; simpl length; [|lia].
  destruct (Z.lt_ge_cases m 128).
  - pose proof (CBS_len_len_enc_small m ltac:(lia)). unfold CBS_len in *. lia.
  - rewrite (len_enc_of 1) by lia. simpl. lia.
Qed.

Lemma CBS_len_tag_enc_out tag :
  CBS_len (tag_enc (if is_string_type tag then plain_tag tag else tag)) <= CBS_len (tag_enc tag).
Proof.
  pose proof (CBS_len_tag_enc tag). destruct (is_string_type tag) eqn:Es; [|lia].
  destruct (string_tag _ Es) as (_ & -> & _). lia.
Qed.

Lemma outputs_length s ts :
  Forall (fun t => forall s, wf s t -> CBS_len (encode t) < 2 ^ 31 ->
    CBS_len (output s t) <= 2 * CBS_len (encode t)) ts ->
  Forall (wf s) ts -> CBS_len (encodes ts) < 2 ^ 31 ->
  CBS_len (outputs s ts) <= 2 * CBS_len (encodes ts).
Proof.
  induction 1 as [|t ts Ht _ IH]; [done|]. intros [Hw Hws]%Forall_cons.
  rewrite encodes_cons, outputs_cons, !CBS_len_app.
  pose proof (CBS_len_nonneg (encode t)). pose proof (CBS_len_nonneg (encodes ts)).
  intros Hlt. specialize (Ht s Hw ltac:(lia)). specialize (IH Hws ltac:(lia)). lia.
Qed.

Lemma output_length t : forall s,
  wf s t -> CBS_len (encode t) < 2 ^ 31 -> CBS_len (output s t) <= 2 * CBS_len (encode t).
Proof.
  induction t as [tag l c|tag l ts IH] using ber_tree_ind; intros s Hw Hlt.
  - inversion Hw as [? ? ? ? Hok _ _ _ Hl| |]; subst. cbn [encode output] in *.
    pose proof (ber_len_range _ _ Hl). pose proof (CBS_len_tag_enc tag).
    rewrite !CBS_len_app in *. case_match; [|lia]. unfold der. rewrite !CBS_len_app.
    pose proof (len_enc_ber _ _ (CBS_len c) Hl ltac:(lia) ltac:(lia)). lia.
  - pose proof (CBS_len_tag_enc_out tag). pose proof (CBS_len_tag_enc tag).
    assert (Hbody : CBS_len (encodes ts) < 2 ^ 31 -> Forall (wf (child_tag s tag)) ts ->
              CBS_len (outputs (child_tag s tag) ts) <= 2 * CBS_len (encodes ts))
      by (intros; by apply outputs_length).
    pose proof (CBS_len_nonneg (outputs (child_tag s tag) ts)) as Hn.
    cbn [encode output] in *. fold (encodes ts) (outputs (child_tag s tag) ts) in *.
    inversion Hw as [|? ? l' ? Hok _ _ Hl Hts|? ? ? Hok _ _ Hts]; subst;
      rewrite !CBS_len_app in *.
    + pose proof (ber_len_range _ _ Hl). specialize (Hbody ltac:(lia) Hts).
      destruct (s =? 0); [|lia]. unfold der. rewrite !CBS_len_app.
      pose proof (len_enc_ber _ _ _ Hl (conj Hn Hbody) ltac:(lia)). lia.
    + change (CBS_len [0x80]) with 1 in *. change (CBS_len [0; 0]) with 2 in *.
      specialize (Hbody ltac:(lia) Hts). destruct (s =? 0); [|lia]. unfold der. rewrite !CBS_len_app.
      pose proof (CBS_len_len_enc (CBS_len (outputs (child_tag s tag) ts)) ltac:(lia)). lia.
Qed.

Lemma outputs_bound s ts :
  Forall (wf s) ts -> CBS_len (encodes ts) < 2 ^ 31 -> CBS_len (outputs s ts) <= 0xfffffffe.
Proof.
  intros Hw Hlt. enough (CBS_len (outputs s ts) <= 2 * CBS_len (encodes ts)) by lia.
  apply outputs_length; [|done..]. apply Forall_forall. intros t _. apply output_length.
Qed.
