(* ===== verification/BerConvert.v ===== *)
(** * BoringSSL: what the BER converter accepts and writes

    [cbs_find_ber] and [cbs_convert_ber] against the trees of [BerSpec]: on the encoding of
    well-formed elements the converter writes their DER encoding, and what it accepts is such
    an encoding. *)
From S2P Require Export BerSpec.

Ltac fold_trees :=
  repeat match goal with
  | |- context [concat (map encode ?ts)] => fold (encodes ts)
  | |- context [concat (map (output ?s) ?ts)] => fold (outputs s ts)
  end.

(** ** Looking for BER *)

Definition below_height (h : nat) (t : ber) : Prop := (height t < h)%nat.

Lemma find_loop_spec below h n : forall ts,
  ((0 < h)%nat -> forall ts, Forall (wf 0) ts -> Forall (below_height h) ts ->
     below (encodes ts) = Some (existsb has_ber ts)) ->
  Forall (wf 0) ts -> Forall (below_height (S h)) ts -> (length ts <= n)%nat ->
  find_ber_loop below n (encodes ts) = Some (existsb has_ber ts).
Proof.
  induction n as [|n IH]; intros ts Hbelow Hw Hh Hn.
  { by destruct ts; [|simpl in Hn; lia]. }
  destruct ts as [|t ts]; [done|]. apply Forall_cons in Hw as [Ht Hw].
  apply Forall_cons in Hh as [Hht Hh]. rewrite encodes_cons. cbn [find_ber_loop existsb].
  destruct (encode_first _ _ Ht) as (b & r & Eb & _).
  assert (Hne : (CBS_len (encode t ++ encodes ts) =? 0) = false).
  { by rewrite Eb. }
  rewrite Hne. specialize (IH ts Hbelow Hw Hh ltac:(simpl in Hn; lia)).
  inversion Ht as [? tag l c Hok Hc _ _ Hl|? tag l ts' Hok Hc _ Hl Hts|? tag ts' Hok Hc _ Hts];
    subst; cbn [encode has_ber]; fold_trees; rewrite <-!app_assoc.
  - rewrite get_ber_definite by done. cbn [el_ber_found el_tag]. rewrite Hc.
    by destruct (loose _ _).
  - rewrite get_ber_definite by done. cbn [el_ber_found el_tag el_header_len el_out].
    destruct (loose _ _); [done|]. rewrite Hc. cbn [orb].
    unfold child_tag in Hts. cbn [Z.eqb] in Hts.
    destruct (is_string_type tag); [done|]. cbn [orb].
    unfold header_of. rewrite app_assoc, <-CBS_len_app, CBS_skip_app.
    rewrite Hbelow; [|unfold below_height in Hht; simpl in Hht; lia|done|exact (height_children _ _ _ _ Hht)]. cbn [mbind option_bind].
    by destruct (existsb _ ts').
  - by rewrite get_ber_indefinite by done.
Qed.

Lemma cbs_find_ber_spec levels : (0 < levels)%nat -> forall ts,
  Forall (wf 0) ts -> Forall (below_height levels) ts ->
  cbs_find_ber levels (encodes ts) = Some (existsb has_ber ts).
Proof.
  induction levels as [|levels IH]; intros Hpos ts Hw Hh; [lia|]. cbn [cbs_find_ber].
  apply (find_loop_spec _ levels); [done..|by eapply encodes_length].
Qed.

(** Bytes in which no BER is found are DER elements. *)
Lemma find_loop_inv below h n : forall in_,
  (forall c, bytes c -> below c = Some false ->
     exists ts, Forall (wf 0) ts /\ Forall (below_height h) ts /\ c = encodes ts
       /\ existsb has_ber ts = false /\ (0 < h)%nat) ->
  bytes in_ -> (length in_ <= n)%nat -> find_ber_loop below n in_ = Some false ->
  exists ts, Forall (wf 0) ts /\ Forall (below_height (S h)) ts /\ in_ = encodes ts
    /\ existsb has_ber ts = false.
Proof.
  induction n as [|n IH]; intros in_ Hbelow Hb Hn H; cbn [find_ber_loop] in H.
  { exists []. split_and!; [constructor|constructor| |done]. by destruct in_; [|simpl in Hn; lia]. }
  destruct (Z.eqb_spec (CBS_len in_) 0) as [E|_].
  { exists []. split_and!; [constructor|constructor| |done].
    destruct in_; [done|]. unfold CBS_len in E. simpl in E. lia. }
  destruct (CBS_get_any_ber_asn1_element in_) as [[e|] rest] eqn:Eg; [|done].
  apply get_ber_inv in Eg as (tag & Hok & [(l & c & Hl & -> & ->)|(_ & _ & ->)]); [| |done].
  2:{ done. }
  cbn [el_ber_found el_tag el_header_len el_out] in H.
  destruct (loose l (CBS_len c)) eqn:El; [done|].
  rewrite !bytes_app in Hb. destruct Hb as (_ & _ & Hbc & Hbr).
  assert (Hrest : find_ber_loop below n rest = Some false ->
    exists ts, Forall (wf 0) ts /\ Forall (below_height (S h)) ts /\ rest = encodes ts
      /\ existsb has_ber ts = false).
  { intros Hr. apply IH; [done..| |done]. destruct (tag_enc_first tag Hok) as (b & r & Eb & _).
    rewrite Eb, !length_app in Hn. simpl in Hn. lia. }
  destruct (is_constructed tag) eqn:Hc.
  - destruct (is_string_type tag) eqn:Hs; [done|].
    unfold header_of in H. rewrite app_assoc, <-CBS_len_app, CBS_skip_app in H.
    destruct (below c) as [[|]|] eqn:Eb; [done| |done]. cbn [mbind option_bind] in H.
    destruct (Hbelow c Hbc Eb) as (ts' & Hw' & Hh' & -> & Hber' & Hpos).
    destruct (Hrest H) as (ts & Hw & Hh & -> & Hber).
    exists (Cons tag (Some l) ts' :: ts). split_and!.
    + constructor; [|done]. apply wf_definite; [done..|]. unfold child_tag. by rewrite Hs.
    + constructor; [|done]. unfold below_height. cbn [height].
      enough (list_max (map height ts') <= pred h)%nat by lia.
      apply list_max_le. rewrite Forall_map. eapply Forall_impl; [exact Hh'|].
      unfold below_height. simpl. lia.
    + rewrite encodes_cons. cbn [encode]. by rewrite <-!app_assoc.
    + cbn [existsb has_ber]. by rewrite El, Hs, Hber', Hber.
  - destruct (Hrest H) as (ts & Hw & Hh & -> & Hber). exists (Prim tag l c :: ts). split_and!.
    + constructor; [|done]. by constructor.
    + constructor; [|done]. unfold below_height. simpl. lia.
    + rewrite encodes_cons. cbn [encode]. by rewrite <-!app_assoc.
    + cbn [existsb has_ber]. by rewrite El, Hber.
Qed.

Lemma cbs_find_ber_inv levels : forall in_,
  bytes in_ -> cbs_find_ber levels in_ = Some false ->
  exists ts, Forall (wf 0) ts /\ Forall (below_height levels) ts /\ in_ = encodes ts
    /\ existsb has_ber ts = false /\ (0 < levels)%nat.
Proof.
  induction levels as [|levels IH]; intros in_ Hb H; [done|]. cbn [cbs_find_ber] in H.
  destruct (find_loop_inv _ levels _ _ IH Hb (Nat.le_refl _) H) as (ts & ? & ? & ? & ?).
  exists ts. split_and!; (done || lia).
Qed.

(** ** Writers with a known answer *)

Definition WritesTo {A} (d : nat) (l : list Z) (x : A) (m : act cbb_world A) : Prop := forall w,
  ready d w ->
  match m w with
  | (Some a, w') => a = x /\ extends w w' l
  | (None, w') => error (base w') = true /\ no_room w (CBS_len l)
  end.

Lemma WritesTo_ret {A} d (x : A) : WritesTo d [] x (mret x).
Proof. intros w Hw. split; [done|by eapply extends_refl]. Qed.

Lemma WritesTo_tt d l m : Writes d l m -> WritesTo d l tt m.
Proof. intros H w Hw. specialize (H w Hw). by destruct (m w) as [[[]|] w']. Qed.

Lemma WritesTo_Writes {A} d l (x : A) m : WritesTo d l x m -> Writes d l m.
Proof. intros H w Hw. specialize (H w Hw). destruct (m w) as [[a|] w']; [apply H|done]. Qed.

Lemma WritesTo_ext {A} d l (x : A) (m m' : act cbb_world A) :
  (forall w, m w = m' w) -> WritesTo d l x m' -> WritesTo d l x m.
Proof. intros E H w Hw. rewrite E. by apply H. Qed.

Lemma WritesTo_bind {A B} d l1 l2 (x : A) (y : B) (m : act cbb_world A) (k : A -> act cbb_world B) :
  WritesTo d l1 x m -> WritesTo d l2 y (k x) -> WritesTo d (l1 ++ l2) y (m ≫= k).
Proof.
  intros Hm Hk w Hw. specialize (Hm w Hw). unfold mbind, act_bind.
  rewrite CBS_len_app. pose proof (CBS_len_nonneg l2).
  destruct (m w) as [[a|] w1].
  2:{ split; [apply Hm|]. eapply no_room_mono; [apply Hm|lia]. }
  destruct Hm as [-> Hm]. pose proof (ready_extends d w w1 l1 Hw Hm) as Hw1.
  specialize (Hk w1 Hw1). destruct (k x w1) as [[b|] w2].
  - destruct Hk as [-> Hk]. split; [done|by eapply extends_trans].
  - destruct Hk as [He Hn]. split; [done|]. eapply no_room_grows; [apply Hm|by apply len_extends|done].
Qed.

(** An element whose contents are written by [body], and what comes behind it. *)
Lemma element_then {A B} d tag contents l (x : A) (y : B) (body : nat -> act cbb_world A)
    (k : A -> act cbb_world B) :
  0 <= tag < 2 ^ 32 -> CBS_len contents <= 0xfffffffe -> WritesTo (S d) contents x (body (S d)) ->
  WritesTo d l y (k x) ->
  WritesTo d (der tag contents ++ l) y
    (child ← CBB_add_asn1 d tag; a ← body child; _ ← CBB_flush d; k a).
Proof.
  intros Ht Hlen Hbody Hk w Hw.
  assert (He : WritesTo d (der tag contents) x
            (child ← CBB_add_asn1 d tag; a ← body child; _ ← CBB_flush d; mret a)).
  { intros w0 Hw0.
    assert (Hwr : Writes (S d) contents (_ ← body (S d); mret tt)).
    { intros w1 Hw1. specialize (Hbody w1 Hw1). unfold mbind, act_bind.
      destruct (body (S d) w1) as [[a|] w2]; [apply Hbody|done]. }
    pose proof (element_writes d tag contents (fun c => _ ← body c; mret tt) Ht Hlen Hwr w0 Hw0) as H.
    pose proof (CBB_add_asn1_opens d tag Ht w0 Hw0) as Ho. revert H Ho.
    unfold mbind, act_bind. destruct (CBB_add_asn1 d tag w0) as [[c|] w1]; [|done].
    intros H (-> & G & old & Hold & Hbuf & Hch).
    assert (Hw1 : ready (S d) w1).
    { eapply ready_grows; [done..|]. rewrite Hch, length_app. simpl.
      destruct Hw0 as (_ & <- & _). lia. }
    specialize (Hbody w1 Hw1). revert H. destruct (body (S d) w1) as [[a|] w2]; [|done].
    destruct Hbody as [-> _]. simpl. destruct (CBB_flush d w2) as [[u|] w3]; [|done]. done. }
  assert (Hb := WritesTo_bind d _ _ x y _ k He Hk w Hw). revert Hb.
  unfold mbind, act_bind. destruct (CBB_add_asn1 d tag w) as [[c|] w1]; [|done].
  destruct (body c w1) as [[a|] w2]; [|done]. destruct (CBB_flush d w2) as [[u|] w3]; done.
Qed.

(** ** Converting *)

Definition eoc (looking : bool) : list Z := if looking then [0; 0] else [].

Lemma get_eoc_first tag r : tag_ok tag -> cbs_get_eoc (tag_enc tag ++ r) = (false, tag_enc tag ++ r).
Proof.
  intros Hok. destruct (tag_enc_first tag Hok) as (b & r' & -> & Hb). unfold cbs_get_eoc. by destruct b.
Qed.

Lemma on_obj_some {St St' A} (m : act St' A) (s' : St') a s'' (s : St) :
  m s' = (Some a, s'') -> on_obj s' m s = (Some (a, s''), s).
Proof. intros H. unfold on_obj. by rewrite H. Qed.

Lemma get_eoc_end r : cbs_get_eoc ([0; 0] ++ r) = (true, r).
Proof. unfold cbs_get_eoc. cbn [app]. by rewrite (CBS_skip_app [0; 0] r : CBS_skip 2 (0 :: 0 :: r) = _). Qed.

(** One turn of the loop, at an element of indefinite and of definite length. *)
Lemma turn_indefinite below n tag rest out s looking w :
  tag_ok tag -> is_constructed tag = true ->
  convert_loop below (S n) (tag_enc tag ++ [0x80] ++ rest) out s looking w
  = (o ← open_contents out s tag;
     in_ ← below rest o.1 o.2 true; _ ← CBB_flush out; convert_loop below n in_ out s looking) w.
Proof.
  intros Hok Hc. cbn [convert_loop]. destruct (tag_enc_first tag Hok) as (b & r & Eb & Hb).
  assert ((CBS_len (tag_enc tag ++ [0x80] ++ rest) =? 0) = false) as -> by (by rewrite Eb).
  rewrite get_eoc_first by done. cbv zeta. cbn [fst snd]. rewrite andb_false_r.
  erewrite act_bind_some by (by apply on_obj_some, get_ber_indefinite).
  cbn [fst snd el_tag el_indefinite]. apply bind_cong. by intros [c st] w'.
Qed.

Lemma turn_definite below n tag l contents rest out s looking w :
  tag_ok tag -> ber_len l (CBS_len contents) ->
  convert_loop below (S n) (tag_enc tag ++ l ++ contents ++ rest) out s looking w
  = (o ← open_contents out s tag;
     _ ← (if is_constructed tag then _ ← below contents o.1 o.2 false; mret tt
          else CBB_add_bytes o.1 contents);
     _ ← CBB_flush out; convert_loop below n rest out s looking) w.
Proof.
  intros Hok Hl. cbn [convert_loop]. destruct (tag_enc_first tag Hok) as (b & r & Eb & Hb).
  assert ((CBS_len (tag_enc tag ++ l ++ contents ++ rest) =? 0) = false) as -> by (by rewrite Eb).
  rewrite get_eoc_first by done. cbv zeta. cbn [fst snd]. rewrite andb_false_r.
  erewrite act_bind_some by (by apply on_obj_some, get_ber_definite).
  cbn [fst snd el_tag el_indefinite el_out el_header_len]. apply bind_cong. intros [c st] w'.
  cbn [fst snd]. erewrite act_bind_some.
  2:{ unfold header_of. rewrite app_assoc, <-CBS_len_app. apply on_obj_some, CBS_skip_app. }
  done.
Qed.

(** The contribution of one element. *)
Lemma piece_writes {A B} d s tag contents l (x : A) (y : B) (body : nat -> Z -> act cbb_world A)
    (k : A -> act cbb_world B) :
  let is_string := is_constructed tag && is_string_type tag in
  let out_tag := if is_string then plain_tag tag else tag in
  tag_ok tag -> (s <> 0 -> plain_tag tag = s) -> CBS_len contents <= 0xfffffffe ->
  (forall d', WritesTo d' contents x
     (body d' (if s =? 0 then (if is_string then plain_tag tag else 0) else s))) ->
  WritesTo d l y (k x) ->
  WritesTo d ((if s =? 0 then der out_tag contents else contents) ++ l) y
    (o ← open_contents d s tag; a ← body o.1 o.2; _ ← CBB_flush d; k a).
Proof.
  intros is_string out_tag Hok Hs Hlen Hbody Hk. unfold open_contents.
  destruct (Z.eqb_spec s 0) as [->|Hne]; cbn [negb].
  - fold is_string. cbv zeta. fold out_tag. set (st := if is_string then plain_tag tag else 0) in *.
    assert (Hst : (if is_string then out_tag else 0) = st) by (unfold out_tag, st; by destruct is_string).
    rewrite Hst.
    assert (0 <= out_tag < 2 ^ 32).
    { unfold out_tag. destruct is_string eqn:Ei; [|apply Hok].
      apply andb_true_iff in Ei as [_ Ei]. by apply string_tag. }
    eapply WritesTo_ext; [intros w; apply act_bind_assoc|].
    by apply (element_then d out_tag contents l x y (fun c => body c st)).
  - rewrite Hs, Z.eqb_refl by done. cbn [negb].
    apply (WritesTo_bind d contents l x y (body d s) (fun a => _ ← CBB_flush d; k a)); [apply Hbody|].
    apply (WritesTo_bind d [] l tt y); [apply WritesTo_tt, CBB_flush_writes|done].
Qed.

(** What is asked of the calls for the level below. *)
Definition converts (h : nat) (below : convert_t) : Prop := forall ts s looking suffix d,
  Forall (wf s) ts -> Forall (below_height h) ts -> (looking = false -> suffix = []) ->
  CBS_len (encodes ts) < 2 ^ 31 ->
  WritesTo d (outputs s ts) suffix (below (encodes ts ++ eoc looking ++ suffix) d s looking).

Lemma convert_loop_spec below h n : ((0 < h)%nat -> converts h below) -> forall ts s looking suffix d,
  Forall (wf s) ts -> Forall (below_height (S h)) ts -> (looking = false -> suffix = []) ->
  CBS_len (encodes ts) < 2 ^ 31 -> (length ts < n)%nat ->
  WritesTo d (outputs s ts) suffix
    (convert_loop below n (encodes ts ++ eoc looking ++ suffix) d s looking).
Proof.
  intros Hbelow. induction n as [|n IH]; intros ts s looking suffix d Hw Hh Hsuf Hlen Hn; [lia|].
  destruct ts as [|t ts].
  { destruct looking; [|rewrite Hsuf by done; apply WritesTo_ret].
    eapply WritesTo_ext; [|apply WritesTo_ret]. intros w. cbn [convert_loop encodes map concat app eoc].
    pose proof (get_eoc_end suffix) as He. cbn [app] in He. rewrite He. reflexivity. }
  apply Forall_cons in Hw as [Ht Hw]. apply Forall_cons in Hh as [Hht Hh].
  rewrite encodes_cons, CBS_len_app in Hlen. rewrite encodes_cons, outputs_cons, <-app_assoc.
  pose proof (CBS_len_nonneg (encode t)). pose proof (CBS_len_nonneg (encodes ts)).
  specialize (IH ts s looking suffix d Hw Hh Hsuf ltac:(lia) ltac:(simpl in Hn; lia)).
  set (tl := encodes ts ++ eoc looking ++ suffix) in *.
  assert (Hpos : forall tag l ts', t = Cons tag l ts' -> converts h below).
  { intros tag l ts' ->. apply Hbelow. unfold below_height in Hht. simpl in Hht. lia. }
  destruct Ht as [s tag l c Hok Hc Hs Hb Hl|s tag l ts' Hok Hc Hs Hl Hts|s tag ts' Hok Hc Hs Hts];
    cbn [encode output] in *; fold_trees; rewrite <-!app_assoc.
  - eapply WritesTo_ext; [intros w; by apply turn_definite|]. rewrite Hc.
    pose proof (piece_writes d s tag c (outputs s ts) tt suffix (fun d' _ => CBB_add_bytes d' c)
      (fun _ => convert_loop below n tl d s looking) Hok Hs) as Hp. rewrite Hc in Hp.
    cbn [andb] in Hp. rewrite !CBS_len_app in Hlen.
    pose proof (CBS_len_nonneg (tag_enc tag)). pose proof (CBS_len_nonneg l).
    apply Hp; [lia| |done]. intros d'. apply WritesTo_tt, CBB_add_bytes_writes. lia.
  - eapply WritesTo_ext; [intros w; by apply turn_definite|]. rewrite Hc.
    fold (encodes ts') in Hlen. rewrite !CBS_len_app in Hlen.
    pose proof (CBS_len_nonneg (tag_enc tag)). pose proof (CBS_len_nonneg l).
    pose proof (piece_writes d s tag (outputs (child_tag s tag) ts') (outputs s ts) tt suffix
      (fun d' st => _ ← below (encodes ts') d' st false; mret tt)
      (fun _ => convert_loop below n tl d s looking) Hok Hs) as Hp. rewrite Hc in Hp.
    cbn [andb] in Hp. apply Hp; [apply outputs_bound; [done|lia]| |done].
    intros d'. rewrite <-(app_nil_r (outputs _ _)).
    apply (WritesTo_bind d' _ [] []); [|apply WritesTo_ret].
    pose proof (Hpos _ _ _ eq_refl ts' (child_tag s tag) false [] d' Hts
      (height_children _ _ _ _ Hht) ltac:(done) ltac:(lia)) as Hb.
    simpl eoc in Hb. by rewrite !app_nil_r in Hb.
  - eapply WritesTo_ext; [intros w; by apply turn_indefinite|].
    fold (encodes ts') in Hlen. rewrite !CBS_len_app in Hlen.
    change (CBS_len [0x80]) with 1 in Hlen. change (CBS_len [0; 0]) with 2 in Hlen.
    pose proof (CBS_len_nonneg (tag_enc tag)).
    pose proof (piece_writes d s tag (outputs (child_tag s tag) ts') (outputs s ts) tl suffix
      (fun d' st => below (encodes ts' ++ [0; 0] ++ tl) d' st true)
      (fun in_ => convert_loop below n in_ d s looking) Hok Hs) as Hp. rewrite Hc in Hp.
    cbn [andb] in Hp. apply Hp; [apply outputs_bound; [done|lia]| |done].
    intros d'. apply (Hpos _ _ _ eq_refl ts' (child_tag s tag) true tl d' Hts
      (height_children _ _ _ _ Hht)); [done|lia].
Qed.

Lemma cbs_convert_ber_spec levels : (0 < levels)%nat -> converts levels (cbs_convert_ber levels).
Proof.
  induction levels as [|levels IH]; [lia|]. intros _ ts s looking suffix d Hw Hh Hsuf Hlen.
  cbn [cbs_convert_ber]. apply (convert_loop_spec _ levels); [done..|].
  rewrite length_app. pose proof (encodes_length _ _ Hw). lia.
Qed.

(** ** What is accepted *)

Definition accepts (h : nat) (below : convert_t) : Prop := forall in_ d s looking w rest w',
  bytes in_ -> below in_ d s looking w = (Some rest, w') ->
  exists ts, Forall (wf s) ts /\ Forall (below_height h) ts
    /\ in_ = encodes ts ++ eoc looking ++ rest /\ (looking = false -> rest = []) /\ (0 < h)%nat.

Lemma open_contents_inv d s tag w c st w' :
  open_contents d s tag w = (Some (c, st), w') ->
  (s <> 0 -> plain_tag tag = s)
  /\ st = if s =? 0 then (if is_constructed tag && is_string_type tag then plain_tag tag else 0) else s.
Proof.
  unfold open_contents. intros H. destruct (Z.eqb_spec s 0) as [->|Hne]; cbn [negb] in H.
  - ainv H. injection H as _ <- _. split; [done|]. by destruct (_ && _).
  - destruct (Z.eqb_spec (plain_tag tag) s); [|done]. injection H as _ <- _. done.
Qed.

Lemma get_eoc_inv in_ r : cbs_get_eoc in_ = (true, r) -> in_ = [0; 0] ++ r.
Proof.
  unfold cbs_get_eoc. destruct in_ as [|[| |] [|[| |] l]]; try done.
  rewrite (CBS_skip_app [0; 0] l : CBS_skip 2 (0 :: 0 :: l) = _). by intros [= <-].
Qed.

Lemma wf_cons_height h tag l ts :
  Forall (below_height h) ts -> (0 < h)%nat -> below_height (S h) (Cons tag l ts).
Proof.
  intros Hh Hpos. unfold below_height. cbn [height].
  enough (list_max (map height ts) <= pred h)%nat by lia.
  apply list_max_le. rewrite Forall_map. eapply Forall_impl; [exact Hh|].
  unfold below_height. simpl. lia.
Qed.

Lemma convert_loop_inv below h n : accepts h below -> forall in_ d s looking w rest w',
  bytes in_ -> convert_loop below n in_ d s looking w = (Some rest, w') ->
  exists ts, Forall (wf s) ts /\ Forall (below_height (S h)) ts
    /\ in_ = encodes ts ++ eoc looking ++ rest /\ (looking = false -> rest = []).
Proof.
  intros Hbelow. induction n as [|n IH]; intros in_ d s looking w rest w' Hb H; [done|].
  cbn [convert_loop] in H. destruct (Z.eqb_spec (CBS_len in_) 0) as [E|_].
  { destruct looking; [done|]. injection H as <- _. exists [].
    split_and!; [constructor|constructor|done|]. destruct in_; [done|].
    unfold CBS_len in E. simpl in E. lia. }
  cbv zeta in H. destruct (cbs_get_eoc in_) as [got r] eqn:Ee. cbn [fst snd] in H.
  destruct (looking && got) eqn:Elg.
  { apply andb_true_iff in Elg as [-> ->]. injection H as <- _. exists [].
    split_and!; [constructor|constructor| |done]. by apply get_eoc_inv. }
  apply act_bind_inv in H as ([e in2] & w0 & Hget & H). unfold on_obj in Hget.
  destruct (CBS_get_any_ber_asn1_element in_) as [[e'|] in2'] eqn:Eg; [|done].
  injection Hget as -> -> ->. cbn [fst snd] in H.
  apply act_bind_inv in H as ([c st] & w1 & Ho & H). apply open_contents_inv in Ho as [Hs Hst].
  assert (Hloop : forall w, bytes in2 -> convert_loop below n in2 d s looking w = (Some rest, w') ->
    exists ts, Forall (wf s) ts /\ Forall (below_height (S h)) ts
      /\ in2 = encodes ts ++ eoc looking ++ rest /\ (looking = false -> rest = []))
    by (intros; by eapply IH).
  apply get_ber_inv in Eg as (tag & Hok & [(l & contents & Hl & -> & ->)|(Hc & -> & ->)]); [| |done];
    cbn [el_tag el_indefinite el_out el_header_len] in H, Hs, Hst; rewrite !bytes_app in Hb.
  - destruct Hb as (_ & _ & Hbc & Hb2).
    apply act_bind_inv in H as ([[] c2] & w2 & Hskip & H).
    unfold on_obj, header_of in Hskip. rewrite app_assoc, <-CBS_len_app, CBS_skip_app in Hskip.
    injection Hskip as <- <-. cbn [snd] in H.
    apply act_bind_inv in H as ([] & w3 & Hbody & H).
    apply act_bind_inv in H as ([] & w4 & _ & H).
    destruct (Hloop _ Hb2 H) as (ts & Hw & Hh & -> & Hsuf).
    destruct (is_constructed tag) eqn:Hc.
    + apply act_bind_inv in Hbody as (r' & w5 & Hbody & _).
      destruct (Hbelow _ _ _ _ _ _ _ Hbc Hbody) as (ts' & Hw' & Hh' & -> & Hr & Hpos).
      rewrite Hr in * by done. simpl eoc in *. rewrite !app_nil_r in *.
      exists (Cons tag (Some l) ts' :: ts). split_and!; [|constructor; [by apply wf_cons_height|done]| |done].
      * constructor; [|done]. apply wf_definite; [done..|]. unfold child_tag. by rewrite Hst in Hw'.
      * rewrite encodes_cons. cbn [encode]. by rewrite <-!app_assoc.
    + exists (Prim tag l contents :: ts). split_and!; [|constructor; [|done]| |done].
      * constructor; [|done]. by constructor.
      * unfold below_height. simpl. lia.
      * rewrite encodes_cons. cbn [encode]. by rewrite <-!app_assoc.
  - destruct Hb as (_ & _ & Hb2).
    apply act_bind_inv in H as (in3 & w2 & Hbody & H).
    apply act_bind_inv in H as ([] & w3 & _ & H).
    destruct (Hbelow _ _ _ _ _ _ _ Hb2 Hbody) as (ts' & Hw' & Hh' & -> & _ & Hpos).
    rewrite !bytes_app in Hb2. destruct Hb2 as (_ & _ & Hb3).
    destruct (IH _ _ _ _ _ _ _ Hb3 H) as (ts & Hw & Hh & -> & Hsuf).
    exists (Cons tag None ts' :: ts). split_and!; [|constructor; [by apply wf_cons_height|done]| |done].
    + constructor; [|done]. apply wf_indefinite; [done..|]. unfold child_tag. rewrite Hc in Hst. by rewrite Hst in Hw'.
    + rewrite encodes_cons. cbn [encode eoc]. by rewrite <-!app_assoc.
Qed.

Lemma cbs_convert_ber_inv levels : accepts levels (cbs_convert_ber levels).
Proof.
  induction levels as [|levels IH]; intros in_ d s looking w rest w' Hb H; [done|].
  cbn [cbs_convert_ber] in H.
  destruct (convert_loop_inv _ _ _ IH _ _ _ _ _ _ _ Hb H) as (ts & ? & ? & ? & ?).
  exists ts. split_and!; (done || lia).
Qed.
