(* ===== verification/BerToDer.v ===== *)
(** * BoringSSL: CBS_asn1_ber_to_der

    What the conversion accepts, what it gives, and that the result is DER. *)
From S2P Require Export CbbRoundtrip BerConvert.

(** ** The DER tree of a BER tree *)

Lemma ber_len_der n : 0 <= n < 2 ^ 32 -> ber_len (len_enc n) n.
Proof.
  intros Hn. destruct (Z.lt_ge_cases n 128).
  - left. unfold len_enc. destruct (Z.ltb_spec n 128); [|lia]. split; [done|lia].
  - right. destruct (len_enc_long n ltac:(lia)) as (k & Hk & -> & Hr).
    exists (be_bytes k n). rewrite length_be_bytes. split_and!; [lia|lia|apply be_bytes_bytes|done|].
    apply be_value_be_bytes. lia.
Qed.

Lemma loose_der n : loose (len_enc n) n = false.
Proof. apply bool_decide_eq_false. naive_solver. Qed.

(** The same elements, in definite shortest lengths and with whole strings. *)
Fixpoint der_tree (t : ber) : ber :=
  match t with
  | Prim tag _ c => Prim tag (len_enc (CBS_len c)) c
  | Cons tag _ ts =>
    if is_string_type tag then
      let body := outputs (plain_tag tag) ts in
      Prim (plain_tag tag) (len_enc (CBS_len body)) body
    else
      let ts := map der_tree ts in
      Cons tag (Some (len_enc (CBS_len (encodes ts)))) ts
  end.

Lemma encodes_der_tree ts :
  Forall (fun t => encode (der_tree t) = to_der t) ts -> encodes (map der_tree ts) = outputs 0 ts.
Proof.
  induction 1 as [|t ts Ht _ IH]; [done|].
  cbn [map]. by rewrite encodes_cons, outputs_cons, Ht, IH.
Qed.

Lemma encode_der_tree t : encode (der_tree t) = to_der t.
Proof.
  induction t as [tag l c|tag l ts IH] using ber_tree_ind; [done|].
  unfold to_der. cbn [der_tree output Z.eqb]. unfold child_tag. cbn [Z.eqb]. fold_trees.
  destruct (is_string_type tag); [done|]. cbn [encode]. fold_trees.
  by rewrite encodes_der_tree.
Qed.

Lemma output_bytes t : forall s, s <> 0 -> wf s t -> bytes (output s t).
Proof.
  induction t as [tag l c|tag l ts IH] using ber_tree_ind; intros s Hs Hw;
    inversion Hw as [? ? ? ? _ _ _ Hb _|? ? ? ? _ _ _ _ Hts|? ? ? _ _ _ Hts]; subst;
    cbn [output]; rewrite (proj2 (Z.eqb_neq s 0)) by done; [done|..];
    unfold child_tag in *; rewrite (proj2 (Z.eqb_neq s 0)) in * by done.
  all: clear Hw; induction IH as [|t ts Ht _ IHl]; [by constructor|];
    apply Forall_cons in Hts as [Hw Hts]; cbn [map concat]; apply bytes_app; auto.
Qed.

Lemma outputs_bytes s ts : s <> 0 -> Forall (wf s) ts -> bytes (outputs s ts).
Proof.
  intros Hs. induction 1 as [|t ts Ht _ IH]; [by constructor|]. rewrite outputs_cons.
  apply bytes_app. split; [by apply output_bytes|done].
Qed.

Lemma has_ber_der_tree t : has_ber (der_tree t) = false.
Proof.
  induction t as [tag l c|tag l ts IH] using ber_tree_ind; cbn [der_tree].
  - apply loose_der.
  - destruct (is_string_type tag) eqn:Hs; cbn [has_ber]; [apply loose_der|].
    rewrite loose_der, Hs. cbn [orb]. induction IH as [|t ts Ht _ IHl]; [done|].
    cbn [map existsb]. by rewrite Ht, IHl.
Qed.

Lemma height_der_tree t : (height (der_tree t) <= height t)%nat.
Proof.
  induction t as [tag l c|tag l ts IH] using ber_tree_ind; [done|]. cbn [der_tree].
  destruct (is_string_type tag); cbn [height]; [lia|]. apply le_n_S. rewrite map_map.
  induction IH as [|t ts Ht _ IHl]; [done|]. cbn [map list_max fold_right]. unfold list_max in *. simpl. lia.
Qed.

Lemma wf_der_tree t :
  wf 0 t -> CBS_len (encode t) < 2 ^ 31 -> wf 0 (der_tree t).
Proof.
  induction t as [tag l c|tag l ts IH] using ber_tree_ind; intros Hw Hlt.
  - inversion Hw; subst. cbn [der_tree]. constructor; try done. apply ber_len_der.
    pose proof (ber_len_range _ _ ltac:(eassumption)). lia.
  - assert (Hall : tag_ok tag /\ is_constructed tag = true /\ Forall (wf (child_tag 0 tag)) ts
              /\ CBS_len (encodes ts) < 2 ^ 31).
    { pose proof (CBS_len_nonneg (tag_enc tag)).
      inversion Hw as [|? ? l' ? ? ? _ Hl Hts|? ? ? ? ? _ Hts]; subst; cbn [encode] in Hlt;
        fold (encodes ts) in Hlt; rewrite !CBS_len_app in Hlt; split_and!; try done.
      - pose proof (CBS_len_nonneg l'). lia.
      - pose proof (CBS_len_nonneg [0x80]). pose proof (CBS_len_nonneg [0; 0]). lia. }
    destruct Hall as (Hok & Hc & Hts & Hlen). cbn [der_tree].
    unfold child_tag in Hts. cbn [Z.eqb] in Hts.
    destruct (is_string_type tag) eqn:Hs.
    + destruct (string_tag _ Hs) as (Hok' & _ & Hne & Hp). constructor; [done..| |].
      * by apply outputs_bytes.
      * apply ber_len_der. pose proof (outputs_bound _ _ Hts Hlen).
        pose proof (CBS_len_nonneg (outputs (plain_tag tag) ts)). lia.
    + assert (He : encodes (map der_tree ts) = outputs 0 ts).
      { apply encodes_der_tree, Forall_forall. intros t _. apply encode_der_tree. }
      apply wf_definite; [done..| |].
      * apply ber_len_der. rewrite He. pose proof (outputs_bound _ _ Hts Hlen).
        pose proof (CBS_len_nonneg (outputs 0 ts)). lia.
      * unfold child_tag. rewrite Hs. cbn [Z.eqb]. apply Forall_map.
        clear He Hw Hlt. induction IH as [|t ts Ht _ IHl]; [by constructor|].
        apply Forall_cons in Hts as [Hwt Hts]. rewrite encodes_cons, CBS_len_app in Hlen.
        pose proof (CBS_len_nonneg (encode t)). pose proof (CBS_len_nonneg (encodes ts)).
        constructor; [apply Ht; [done|lia]|apply IHl; [done|lia]].
Qed.

(** ** The conversion *)

Lemma to_der_id t : wf 0 t -> has_ber t = false -> to_der t = encode t.
Proof.
  unfold to_der. induction t as [tag l c|tag l ts IH] using ber_tree_ind; intros Hw Hb.
  - cbn [has_ber] in Hb. apply bool_decide_eq_false, dec_stable in Hb. subst l. done.
  - inversion Hw as [|? ? l' ? _ _ _ _ Hts|? ? ? _ _ _ Hts]; subst; [|done].
    cbn [has_ber] in Hb. apply orb_false_iff in Hb as [[Hl Hs]%orb_false_iff Hb].
    apply bool_decide_eq_false, dec_stable in Hl. subst l'.
    unfold child_tag in Hts. rewrite Hs in Hts. cbn [Z.eqb] in Hts.
    cbn [output encode Z.eqb]. unfold child_tag. rewrite Hs. cbn [Z.eqb]. unfold der. fold_trees.
    enough (outputs 0 ts = encodes ts) as -> by done. clear Hw.
    induction IH as [|t ts Ht _ IHl]; [done|]. apply Forall_cons in Hts as [Hwt Hts].
    cbn [existsb] in Hb. apply orb_false_iff in Hb as [Hbt Hb].
    by rewrite outputs_cons, encodes_cons, Ht, IHl.
Qed.

(** An element that needs no conversion, read by the DER parser. *)
Lemma get_der_element t rest :
  wf 0 t -> has_ber t = false ->
  exists e, CBS_get_any_asn1_element (encode t ++ rest) = (Some e, rest) /\ el_out e = encode t.
Proof.
  intros Hw Hb. assert (Hd : exists tag c, tag_ok tag /\ CBS_len c < 2 ^ 32 /\ encode t = der tag c).
  { inversion Hw as [? tag l c Hok _ _ _ Hl|? tag l ts Hok _ _ Hl _|]; subst; cbn [has_ber] in Hb;
      [| |done].
    - apply bool_decide_eq_false, dec_stable in Hb. subst l. exists tag, c.
      pose proof (ber_len_range _ _ Hl). split_and!; [done|lia|done].
    - apply orb_false_iff in Hb as [[Hb _]%orb_false_iff _].
      apply bool_decide_eq_false, dec_stable in Hb. subst l. exists tag, (encodes ts).
      pose proof (ber_len_range _ _ Hl). split_and!; [done|lia|done]. }
  destruct Hd as (tag & c & Hok & Hlen & ->).
  eexists. split; [by apply (any_element_app false)|done].
Qed.

(** What a conversion gives: the DER of all the elements at once, or the first element as it
    stands when none needs converting. *)
Definition converted (ts : list ber) (r : option (CBS * option (list Z) * CBS)) : Prop :=
  match ts with
  | [] => r = None
  | t :: rest =>
    r = if existsb has_ber ts then Some (outputs 0 ts, Some (outputs 0 ts), [])
        else Some (encode t, None, encodes rest)
  end.

Definition ber_forest (ts : list ber) : Prop :=
  Forall (wf 0) ts /\ Forall (below_height max_levels) ts /\ CBS_len (encodes ts) < 2 ^ 31.

Lemma ber_to_der_forest oom junk ts :
  ber_forest ts ->
  converted ts (CBS_asn1_ber_to_der oom junk (encodes ts))
  \/ CBS_asn1_ber_to_der oom junk (encodes ts) = None /\ true ∈ oom.
Proof.
  intros (Hw & Hh & Hlen). unfold CBS_asn1_ber_to_der.
  rewrite cbs_find_ber_spec by (done || (unfold max_levels; lia)). cbn [mbind option_bind].
  destruct ts as [|t ts]; [by left|]. unfold converted.
  destruct (existsb has_ber (t :: ts)) eqn:Eb; cbn [negb].
  - unfold CBB_init. destruct (_ && _) eqn:Eo.
    { right. split; [done|]. apply andb_true_iff in Eo as [_ Eo]. destruct oom as [|[] oom]; [done| |done].
      by left. }
    cbn [mbind option_bind]. set (w := mk_world _ _ _ _).
    pose proof (CBS_len_nonneg (encodes (t :: ts))).
    assert (Hrd : ready 0 w) by (split_and!; [done|done|unfold w, len; simpl; lia..]).
    pose proof (cbs_convert_ber_spec max_levels ltac:(unfold max_levels; lia) (t :: ts) 0 false [] 0%nat
      Hw Hh ltac:(done) Hlen w Hrd) as Hc. simpl eoc in Hc. rewrite !app_nil_r in Hc.
    unfold mbind, act_bind. destruct (cbs_convert_ber _ _ _ _ _ w) as [[r|] w1].
    + destruct Hc as [-> Hx]. pose proof (ready_extends _ _ _ _ Hrd Hx) as Hrd1.
      destruct (CBB_finish_ready w1 Hrd1) as [w2 ->]. simpl. left.
      by destruct Hx as (_ & -> & _).
    + right. split; [done|]. destruct Hc as [_ [Hc|[_ [?|Hc]]]]; [|done|].
      * pose proof (outputs_bound _ _ Hw Hlen). unfold w, len in Hc. simpl base in Hc. simpl buf in Hc.
        simpl length in Hc. lia.
      * unfold w in Hc. simpl in Hc. destruct oom as [|b oom]; [done|]. by right.
  - left. apply Forall_cons in Hw as [Hw _]. cbn [existsb] in Eb. apply orb_false_iff in Eb as [Eb _].
    rewrite encodes_cons. by destruct (get_der_element t (encodes ts) Hw Eb) as (e & -> & ->).
Qed.

Lemma ber_to_der_inv oom junk in_ r :
  bytes in_ -> CBS_asn1_ber_to_der oom junk in_ = Some r ->
  exists ts, Forall (wf 0) ts /\ Forall (below_height max_levels) ts /\ in_ = encodes ts.
Proof.
  intros Hb H. unfold CBS_asn1_ber_to_der in H.
  destruct (cbs_find_ber max_levels in_) as [[|]|] eqn:Ef; [| |done]; cbn [mbind option_bind negb] in H.
  - destruct (CBB_init _ _ _) as [w|]; [|done]. cbn [mbind option_bind] in H.
    match type of H with (let (_, _) := ?x in _) = _ => destruct x as [[[rest der]|] w'] eqn:Ec end; [|done].
    apply act_bind_inv in Ec as (rest' & w1 & Ec & _).
    apply cbs_convert_ber_inv in Ec as (ts & ? & ? & -> & Hr & _); [|done].
    exists ts. rewrite (Hr eq_refl). simpl eoc. by rewrite !app_nil_r.
  - apply cbs_find_ber_inv in Ef as (ts & ? & ? & -> & _); [|done]. by exists ts.
Qed.

(** C11. What [CBS_asn1_ber_to_der] accepts and gives, memory permitting: exactly the inputs
    that are one or more well-formed BER elements, with any length encodings, indefinite
    lengths and constructed strings, nested at most 128 deep. When one of them is not DER
    already, the output is the DER encoding of all of them and nothing is left of the input;
    else the output is the first element, as it stands, and the others are left. *)
Theorem CBS_asn1_ber_to_der_exactly junk in_ r :
  bytes in_ -> CBS_len in_ < 2 ^ 31 ->
  CBS_asn1_ber_to_der [] junk in_ = Some r <->
  exists t ts, Forall (wf 0) (t :: ts) /\ Forall (fun t => (height t <= 128)%nat) (t :: ts)
    /\ in_ = encodes (t :: ts)
    /\ r = if existsb has_ber (t :: ts)
           then (outputs 0 (t :: ts), Some (outputs 0 (t :: ts)), [])
           else (encode t, None, encodes ts).
Proof.
  intros Hb Hlen.
  assert (Hh : forall ts, Forall (fun t => (height t <= 128)%nat) ts <-> Forall (below_height max_levels) ts).
  { intros ts. apply Forall_iff. intros t. unfold below_height, max_levels, kMaxDepth. lia. }
  assert (Hc : forall ts, ber_forest ts -> converted ts (CBS_asn1_ber_to_der [] junk (encodes ts))).
  { intros ts Hf. by destruct (ber_to_der_forest [] junk ts Hf) as [|[_ ?%elem_of_nil]]. }
  split.
  - intros H. destruct (ber_to_der_inv _ _ _ _ Hb H) as (ts & Hw & Hht & ->).
    specialize (Hc ts ltac:(done)). destruct ts as [|t ts]; unfold converted in Hc; [congruence|].
    exists t, ts. split_and!; [done|by apply Hh|done|].
    rewrite H in Hc. destruct (existsb _ _); congruence.
  - intros (t & ts & Hw & Hht & -> & ->). apply Hh in Hht. specialize (Hc (t :: ts) ltac:(done)).
    unfold converted in Hc. rewrite Hc. by destruct (existsb _ _).
Qed.

(** The result of a conversion is DER: converting a BER element, whatever the allocator
    does, gives its DER encoding or fails for lack of memory; the DER parser reads that
    encoding as one element; and converting it again finds nothing to convert and gives the
    same bytes. *)
Lemma CBS_asn1_ber_to_der_gives_der oom oom' junk t :
  wf 0 t -> (height t <= 128)%nat -> CBS_len (encode t) < 2 ^ 31 ->
  (CBS_asn1_ber_to_der oom junk (encode t)
   = Some (to_der t, if has_ber t then Some (to_der t) else None, [])
   \/ CBS_asn1_ber_to_der oom junk (encode t) = None /\ true ∈ oom)
  /\ CBS_asn1_ber_to_der oom' junk (to_der t) = Some (to_der t, None, []).
Proof.
  intros Hw Hh Hlen.
  assert (Hbh : below_height max_levels t) by (unfold below_height, max_levels, kMaxDepth; lia).
  assert (He : encodes [t] = encode t) by (unfold encodes; simpl; by rewrite app_nil_r).
  assert (Ho : outputs 0 [t] = to_der t) by (unfold outputs; simpl; by rewrite app_nil_r).
  split.
  - destruct (ber_to_der_forest oom junk [t]) as [Hc|Hc]; [|left|right; by rewrite He in Hc].
    + split_and!; [by constructor..|by rewrite He].
    + rewrite He in Hc. cbn [converted existsb] in Hc. rewrite orb_false_r in Hc.
      rewrite Hc, Ho. destruct (has_ber t) eqn:Eb; [done|]. by rewrite to_der_id.
  - assert (Hd : wf 0 (der_tree t)) by by apply wf_der_tree.
    unfold CBS_asn1_ber_to_der. rewrite <-encode_der_tree.
    assert (He' : encode (der_tree t) = encodes [der_tree t])
      by (unfold encodes; simpl; by rewrite app_nil_r).
    rewrite He' at 1. rewrite cbs_find_ber_spec; [|unfold max_levels; lia|by constructor|].
    2:{ constructor; [|constructor]. unfold below_height in *. pose proof (height_der_tree t). lia. }
    cbn [existsb mbind option_bind]. rewrite has_ber_der_tree. cbn [negb orb].
    destruct (get_der_element (der_tree t) [] Hd (has_ber_der_tree t)) as (e & Hg & Hout).
    rewrite app_nil_r in Hg. by rewrite Hg, Hout.
Qed.

(** An octet string in two fragments, of indefinite length, and an integer behind it. *)
Lemma CBS_asn1_ber_to_der_exactly_witness :
  let in_ := [0x24; 0x80; 4; 2; 1; 2; 4; 0x81; 1; 3; 0; 0; 2; 1; 5] in
  let out := [4; 3; 1; 2; 3; 2; 1; 5] in
  CBS_asn1_ber_to_der [] 0xaa in_ = Some (out, Some out, [])
  /\ exists t ts, Forall (wf 0) (t :: ts) /\ Forall (fun t => (height t <= 128)%nat) (t :: ts)
    /\ in_ = encodes (t :: ts)
    /\ (out, Some out, []) = if existsb has_ber (t :: ts)
           then (outputs 0 (t :: ts), Some (outputs 0 (t :: ts)), [])
           else (encode t, None, encodes ts).
Proof.
  intros in_ out.
  assert (Hb : bytes in_) by (repeat constructor; unfold is_byte; lia).
  assert (Hc : CBS_asn1_ber_to_der [] 0xaa in_ = Some (out, Some out, [])) by (vm_compute; reflexivity).
  split; [exact Hc|]. by apply (CBS_asn1_ber_to_der_exactly 0xaa in_ (out, Some out, []) Hb).
Defined.

(** ** Implicitly tagged strings *)

Definition chunk_ok (c : list Z) : Prop := CBS_len c < 2 ^ 32.

Definition fragments (inner_tag : Z) (chunks : list (list Z)) : list Z :=
  concat (map (der inner_tag) chunks).

Lemma der_nonempty tag c : tag_ok tag -> (0 < length (der tag c))%nat.
Proof.
  intros Hok. destruct (tag_enc_first tag Hok) as (b & r & Eb & _). unfold der. rewrite Eb, length_app.
  simpl. lia.
Qed.

Lemma implicit_loop_spec inner n : forall chunks,
  tag_ok inner -> Forall chunk_ok chunks -> (length (fragments inner chunks) <= n)%nat ->
  Writes 0 (concat chunks) (implicit_string_loop n (fragments inner chunks) inner).
Proof.
  induction n as [|n IH]; intros [|c chunks] Hok Hc Hn; try apply Writes_ret;
    apply Forall_cons in Hc as [Hc Hcs]; unfold fragments in *; cbn [map concat] in *;
    rewrite length_app in Hn; pose proof (der_nonempty inner c Hok); [lia|].
  eapply Writes_ext.
  { intros w. cbn [implicit_string_loop].
    assert ((CBS_len (der inner c ++ concat (map (der inner) chunks)) =? 0) = false) as ->.
    { unfold CBS_len. rewrite length_app. apply Z.eqb_neq. lia. }
    erewrite act_bind_some by (by apply on_obj_some, CBS_get_asn1_app). cbn [fst snd]. reflexivity. }
  apply (Writes_bind 0 c (concat chunks)); [apply CBB_add_bytes_writes; unfold chunk_ok in Hc; lia|].
  intros _. apply IH; [done..|lia].
Qed.

Lemma implicit_loop_inv inner n : forall child w w',
  bytes child -> implicit_string_loop n child inner w = (Some tt, w') ->
  exists chunks, Forall chunk_ok chunks /\ child = fragments inner chunks.
Proof.
  induction n as [|n IH]; intros child w w' Hb H; cbn [implicit_string_loop] in H;
    (destruct (Z.eqb_spec (CBS_len child) 0) as [E|_];
     [exists []; split; [constructor|]; destruct child; [done|unfold CBS_len in E; simpl in E; lia]|]); [done|].
  apply act_bind_inv in H as ([c r] & w1 & Hg & H). unfold on_obj in Hg.
  destruct (CBS_get_asn1 inner child) as [[c'|] r'] eqn:Eg; [|done]. injection Hg as -> -> ->.
  apply CBS_get_asn1_inv in Eg as (_ & Hlen & ->); [|done]. cbn [fst snd] in H. ainv H.
  apply bytes_app in Hb as [_ Hb]. destruct (IH _ _ _ Hb H) as (chunks & Hc & ->).
  exists (c :: chunks). by split; [constructor|].
Qed.

Lemma peek_der tag contents rest t :
  tag_ok tag -> CBS_peek_asn1_tag (der tag contents ++ rest) t = (t =? tag).
Proof.
  intros Hok. unfold CBS_peek_asn1_tag, der. rewrite <-app_assoc. by rewrite parse_tag_app.
Qed.

Lemma concat_fragments inner chunks :
  CBS_len (concat chunks) <= CBS_len (fragments inner chunks).
Proof.
  induction chunks as [|c chunks IH]; [done|]. unfold fragments in *. cbn [map concat].
  rewrite !CBS_len_app, CBS_len_der. unfold header_len_of.
  pose proof (CBS_len_nonneg (tag_enc inner)). pose proof (CBS_len_nonneg (len_enc (CBS_len c))). lia.
Qed.

Lemma fragments_ok inner chunks :
  CBS_len (fragments inner chunks) < 2 ^ 31 -> Forall chunk_ok chunks.
Proof.
  induction chunks as [|c chunks IH]; [by constructor|]. unfold fragments in *. cbn [map concat].
  rewrite CBS_len_app, CBS_len_der. unfold header_len_of, chunk_ok in *.
  pose proof (CBS_len_nonneg (tag_enc inner)). pose proof (CBS_len_nonneg (len_enc (CBS_len c))).
  pose proof (CBS_len_nonneg c). pose proof (CBS_len_nonneg (concat (map (der inner) chunks))).
  intros Hlen. constructor; [lia|apply IH; lia].
Qed.

Lemma constructed_form tag :
  tag_ok tag -> is_constructed tag = false ->
  tag_ok (Z.lor tag CBS_ASN1_CONSTRUCTED) /\ tag <> Z.lor tag CBS_ASN1_CONSTRUCTED.
Proof.
  unfold is_constructed, tag_ok. rewrite negb_false_iff, Z.eqb_eq. intros (Ht & H0 & Hc) Hand.
  pose proof (Z.add_lor_land tag CBS_ASN1_CONSTRUCTED) as Hadd. rewrite Hand in Hadd.
  change CBS_ASN1_CONSTRUCTED with (2 ^ 29) in *.
  pose proof (lor_range 32 tag (2 ^ 29) ltac:(lia) Ht ltac:(lia)). lia.
Qed.

Lemma contents_below tag contents rest :
  CBS_len contents <= CBS_len (der tag contents ++ rest).
Proof.
  rewrite CBS_len_app, CBS_len_der. unfold header_len_of. pose proof (CBS_len_nonneg rest).
  pose proof (CBS_len_nonneg (tag_enc tag)). pose proof (CBS_len_nonneg (len_enc (CBS_len contents))).
  lia.
Qed.

(** A builder just made, with a heap that never fails. *)
Definition fresh (w : cbb_world) : Prop :=
  ready 0 w /\ len (base w) = 0 /\ can_resize (base w) = true /\ oom w = [].

Lemma CBB_init_fresh junk cap :
  0 <= cap < 2 ^ 64 -> exists w, CBB_init cap [] junk = Some w /\ fresh w.
Proof.
  intros Hcap. unfold CBB_init. rewrite andb_false_r. eexists. split; [reflexivity|].
  split; [split_and!; [done|done|unfold len; simpl; lia..]|done].
Qed.

(** Joining the fragments in a fresh builder. *)
Lemma implicit_run inner chunks w :
  tag_ok inner -> CBS_len (fragments inner chunks) < 2 ^ 31 -> Forall chunk_ok chunks -> fresh w ->
  exists w', (_ ← implicit_string_loop (length (fragments inner chunks)) (fragments inner chunks) inner;
              CBB_finish 0 true true) w = (Some (concat chunks), w').
Proof.
  intros Hok Hlen Hc (Hrd & Hw0 & Hr & Ho). pose proof (concat_fragments inner chunks).
  pose proof (implicit_loop_spec inner _ chunks Hok Hc (Nat.le_refl _) w Hrd) as Hw.
  unfold mbind, act_bind. destruct (implicit_string_loop _ _ _ w) as [[u|] w1].
  - destruct (CBB_finish_ready w1 (ready_extends _ _ _ _ Hrd Hw)) as [w2 ->]. exists w2.
    destruct Hw as (_ & -> & _). unfold len in Hw0.
    destruct (buf (base w)) as [|x l]; [done|cbn [length] in Hw0; lia].
  - destruct Hw as [_ [Hw|[_ [Hw|Hw]]]]; [lia|congruence|].
    rewrite Ho in Hw. by apply elem_of_nil in Hw.
Qed.

(** What [CBS_get_asn1_implicit_string] accepts, memory permitting: exactly a DER element
    with the outer tag, whose contents it gives in place, or a constructed one with the
    outer tag whose contents are DER elements with the inner tag, and then it gives their
    contents joined. What follows the element is left. *)
Lemma CBS_get_asn1_implicit_string_exactly junk in_ outer inner out storage rest :
  bytes in_ -> CBS_len in_ < 2 ^ 31 -> tag_ok outer -> is_constructed outer = false -> tag_ok inner ->
  CBS_get_asn1_implicit_string [] junk in_ outer inner = Some (out, storage, rest) <->
  (in_ = der outer out ++ rest /\ storage = None)
  \/ exists chunks,
       in_ = der (Z.lor outer CBS_ASN1_CONSTRUCTED) (concat (map (der inner) chunks)) ++ rest
       /\ out = concat chunks /\ storage = Some out.
Proof.
  intros Hb Hlen Hoo Hco Hoi. set (otag := Z.lor outer CBS_ASN1_CONSTRUCTED) in *.
  destruct (constructed_form outer Hoo Hco) as [Hot Hne]. fold otag in Hot, Hne.
  unfold CBS_get_asn1_implicit_string. fold otag. destruct (CBS_peek_asn1_tag in_ outer) eqn:Ep.
  - split.
    + destruct (CBS_get_asn1 outer in_) as [[c|] r] eqn:Eg; [|done]. intros [= <- <- <-].
      apply CBS_get_asn1_inv in Eg as (_ & _ & ->); [|done]. by left.
    + intros [[-> ->]|(chunks & -> & _)].
      * pose proof (contents_below outer out rest). by rewrite CBS_get_asn1_app by (done || lia).
      * rewrite peek_der in Ep by done. apply Z.eqb_eq in Ep. congruence.
  - pose proof (CBS_len_nonneg in_).
    destruct (CBB_init_fresh junk (CBS_len in_) ltac:(lia)) as (w & -> & Hw).
    cbn [mbind option_bind]. split.
    + destruct (CBS_get_asn1 otag in_) as [[child|] r] eqn:Eg; [|done]. intros H1.
      apply CBS_get_asn1_inv in Eg as (_ & _ & Hin); [|done]. pose proof (contents_below otag child r).
      match type of H1 with (let (_, _) := ?x in _) = _ => destruct x as [[data|] w'] eqn:Ec end; [|done].
      injection H1 as -> <- ->. pose proof Ec as Ec'. apply act_bind_inv in Ec as ([] & w1 & Hl & _).
      apply implicit_loop_inv in Hl as (chunks & Hc & ->).
      2:{ rewrite Hin in Hb. unfold der in Hb. rewrite !bytes_app in Hb. by destruct Hb as [(_ & _ & ?) _]. }
      right. exists chunks. split; [done|]. rewrite <-Hin in *.
      destruct (implicit_run inner chunks w Hoi ltac:(lia) Hc Hw) as [w2 Hr].
      rewrite Hr in Ec'. by injection Ec' as <-.
    + intros [[-> _]|(chunks & Hin & -> & ->)]; [by rewrite peek_der, Z.eqb_refl in Ep|].
      fold (fragments inner chunks) in Hin. pose proof (contents_below otag (fragments inner chunks) rest).
      rewrite <-Hin in *. assert (Hlf : CBS_len (fragments inner chunks) < 2 ^ 31) by lia.
      destruct (implicit_run inner chunks w Hoi Hlf (fragments_ok _ _ Hlf) Hw) as [w2 Hr].
      rewrite Hin, CBS_get_asn1_app by (done || lia). by rewrite Hr.
Qed.
