(* ===== verification/Unicode.v ===== *)
(** * BoringSSL: crypto/bytestring/unicode.c

    Reading and writing code points in UTF-8, Latin-1, UCS-2 and UTF-32, on the byte
    strings of [Cbs] and the builders of [Cbb]. *)
From S2P Require Export Cbb.

Definition is_valid_code_point (v : Z) : bool :=
  negb ((0x10ffff <? v) || (Z.land v 0xfffe =? 0xfffe) || ((0xfdd0 <=? v) && (v <=? 0xfdef))
        || ((0xd800 <=? v) && (v <=? 0xdfff))).

Definition BOTTOM_BITS (n : Z) : Z := u8 (Z.shiftl 1 n - 1).
Definition TOP_BITS (n : Z) : Z := u8 (Z.lnot (BOTTOM_BITS (8 - n))).

(** The [for] loop of [CBS_get_utf8]. *)
Fixpoint utf8_loop (len : nat) (v : Z) : act CBS Z :=
  match len with
  | O => mret v
  | S len =>
    c ← CBS_get_u8;
    if negb (Z.land c (TOP_BITS 2) =? TOP_BITS 1) then fail
    else utf8_loop len (Z.lor (u32 (Z.shiftl v 6)) (Z.land c (BOTTOM_BITS 6)))
  end.

Definition CBS_get_utf8 : act CBS Z :=
  c ← CBS_get_u8;
  if c <=? 0x7f then mret c
  else
    p ← (if Z.land c (TOP_BITS 3) =? TOP_BITS 2 then mret (Z.land c (BOTTOM_BITS 5), 1%nat, 0x80)
         else if Z.land c (TOP_BITS 4) =? TOP_BITS 3 then
           mret (Z.land c (BOTTOM_BITS 4), 2%nat, 0x800)
         else if Z.land c (TOP_BITS 5) =? TOP_BITS 4 then
           mret (Z.land c (BOTTOM_BITS 3), 3%nat, 0x10000)
         else fail);
    let '(v, len, lower_bound) := p in
    v ← utf8_loop len v;
    if negb (is_valid_code_point v) || (v <? lower_bound) then fail else mret v.

Definition CBS_get_latin1 : act CBS Z := CBS_get_u8.

Definition CBS_get_ucs2_be : act CBS Z :=
  c ← CBS_get_u16;
  if negb (is_valid_code_point c) then fail else mret c.

Definition CBS_get_utf32_be : act CBS Z :=
  u ← CBS_get_u32;
  if is_valid_code_point u then mret u else fail.

Definition CBB_get_utf8_len (u : Z) : Z :=
  if u <=? 0x7f then 1 else if u <=? 0x7ff then 2 else if u <=? 0xffff then 3 else 4.

Definition CBB_add_utf8 (d : nat) (u : Z) : act cbb_world unit :=
  if negb (is_valid_code_point u) then fail
  else if u <=? 0x7f then CBB_add_u8 d (u8 u)
  else if u <=? 0x7ff then
    _ ← CBB_add_u8 d (u8 (Z.lor (TOP_BITS 2) (Z.shiftr u 6)));
    CBB_add_u8 d (u8 (Z.lor (TOP_BITS 1) (Z.land u (BOTTOM_BITS 6))))
  else if u <=? 0xffff then
    _ ← CBB_add_u8 d (u8 (Z.lor (TOP_BITS 3) (Z.shiftr u 12)));
    _ ← CBB_add_u8 d (u8 (Z.lor (TOP_BITS 1) (Z.land (Z.shiftr u 6) (BOTTOM_BITS 6))));
    CBB_add_u8 d (u8 (Z.lor (TOP_BITS 1) (Z.land u (BOTTOM_BITS 6))))
  else if u <=? 0x10ffff then
    _ ← CBB_add_u8 d (u8 (Z.lor (TOP_BITS 4) (Z.shiftr u 18)));
    _ ← CBB_add_u8 d (u8 (Z.lor (TOP_BITS 1) (Z.land (Z.shiftr u 12) (BOTTOM_BITS 6))));
    _ ← CBB_add_u8 d (u8 (Z.lor (TOP_BITS 1) (Z.land (Z.shiftr u 6) (BOTTOM_BITS 6))));
    CBB_add_u8 d (u8 (Z.lor (TOP_BITS 1) (Z.land u (BOTTOM_BITS 6))))
  else fail.

Definition CBB_add_latin1 (d : nat) (u : Z) : act cbb_world unit :=
  if u <=? 0xff then CBB_add_u8 d (u8 u) else fail.

Definition CBB_add_ucs2_be (d : nat) (u : Z) : act cbb_world unit :=
  if (u <=? 0xffff) && is_valid_code_point u then CBB_add_u16 d (u16 u) else fail.

Definition CBB_add_utf32_be (d : nat) (u : Z) : act cbb_world unit :=
  if is_valid_code_point u then CBB_add_u32 d u else fail.
