(* ===== verification/UnicodeSpec.v ===== *)
(** * BoringSSL: UTF-8, exactly

    The reader of [unicode.c] accepts exactly the encodings of RFC 3629 of the code
    points the library allows, and the writers write them. *)
From S2P Require Export Unicode CbbRoundtrip.

Definition utf8 (v : Z) : list Z :=
  if v <? 0x80 then [v]
  else if v <? 0x800 then [192 + v / 64; 128 + v mod 64]
  else if v <? 0x10000 then [224 + v / 4096; 128 + v / 64 mod 64; 128 + v mod 64]
  else [240 + v / 262144; 128 + v / 4096 mod 64; 128 + v / 64 mod 64; 128 + v mod 64].

Lemma valid_range v : is_valid_code_point v = true -> v < 0x110000.
Proof. unfold is_valid_code_point. lia. Qed.

(** What the masks say of a lead byte, and of a continuation byte. *)
Lemma lead_byte c :
  is_byte c ->
  (Z.land c (TOP_BITS 3) =? TOP_BITS 2) = ((192 <=? c) && (c <? 224))
  /\ (Z.land c (TOP_BITS 4) =? TOP_BITS 3) = ((224 <=? c) && (c <? 240))
  /\ (Z.land c (TOP_BITS 5) =? TOP_BITS 4) = ((240 <=? c) && (c <? 248))
  /\ Z.land c (BOTTOM_BITS 5) = c mod 32 /\ Z.land c (BOTTOM_BITS 4) = c mod 16
  /\ Z.land c (BOTTOM_BITS 3) = c mod 8.
Proof.
  intros Hc.
  pose proof (byte_cases (fun c => Bool.eqb (Z.land c (TOP_BITS 3) =? TOP_BITS 2) ((192 <=? c) && (c <? 224))
    && Bool.eqb (Z.land c (TOP_BITS 4) =? TOP_BITS 3) ((224 <=? c) && (c <? 240))
    && Bool.eqb (Z.land c (TOP_BITS 5) =? TOP_BITS 4) ((240 <=? c) && (c <? 248))
    && (Z.land c (BOTTOM_BITS 5) =? c mod 32) && (Z.land c (BOTTOM_BITS 4) =? c mod 16)
    && (Z.land c (BOTTOM_BITS 3) =? c mod 8)) ltac:(vm_compute; reflexivity) c Hc) as H.
  cbv beta in H. rewrite !andb_true_iff, !Bool.eqb_true_iff, !Z.eqb_eq in H. tauto.
Qed.

Lemma continuation_byte c :
  is_byte c ->
  (Z.land c (TOP_BITS 2) =? TOP_BITS 1) = ((128 <=? c) && (c <? 192))
  /\ Z.land c (BOTTOM_BITS 6) = c mod 64.
Proof.
  intros Hc.
  pose proof (byte_cases (fun c => Bool.eqb (Z.land c (TOP_BITS 2) =? TOP_BITS 1) ((128 <=? c) && (c <? 192))
    && (Z.land c (BOTTOM_BITS 6) =? c mod 64)) ltac:(vm_compute; reflexivity) c Hc) as H.
  cbv beta in H. rewrite !andb_true_iff, !Bool.eqb_true_iff, !Z.eqb_eq in H. tauto.
Qed.

Lemma utf8_loop_cons len v c cbs :
  is_byte c -> 0 <= v < 2 ^ 20 ->
  utf8_loop (S len) v (c :: cbs)
  = if (128 <=? c) && (c <? 192) then utf8_loop len (v * 64 + (c - 128)) cbs else (None, cbs).
Proof.
  intros Hc Hv. cbn [utf8_loop]. erewrite act_bind_some by apply CBS_get_u8_cons.
  destruct (continuation_byte c Hc) as [-> ->]. destruct ((128 <=? c) && (c <? 192)) eqn:E; [|done].
  cbn [negb]. rewrite Z.shiftl_mul_pow2, u32_small by lia. change (2 ^ 6) with 64.
  rewrite Z.lor_comm, (lor_add _ _ 6); [|lia|apply Z.mod_pos_bound; lia|apply Z_mod_mult].
  f_equal. rewrite Z.add_comm. f_equal. symmetry. apply (Z.mod_unique_pos _ _ 2); lia.
Qed.

(** The first byte: the value so far, how many bytes follow, and the smallest value
    that needs them. *)
Definition utf8_lead (c : Z) : option (Z * nat * Z) :=
  if (192 <=? c) && (c <? 224) then Some (c - 192, 1%nat, 0x80)
  else if (224 <=? c) && (c <? 240) then Some (c - 224, 2%nat, 0x800)
  else if (240 <=? c) && (c <? 248) then Some (c - 240, 3%nat, 0x10000)
  else None.

Lemma CBS_get_utf8_cons c cbs :
  is_byte c ->
  CBS_get_utf8 (c :: cbs)
  = if c <? 128 then (Some c, cbs)
    else match utf8_lead c with
    | Some (v, len, lower_bound) =>
      (v ← utf8_loop len v;
       if negb (is_valid_code_point v) || (v <? lower_bound) then fail else mret v) cbs
    | None => (None, cbs)
    end.
Proof.
  intros Hc. unfold CBS_get_utf8, utf8_lead. erewrite act_bind_some by apply CBS_get_u8_cons.
  destruct (lead_byte c Hc) as (-> & -> & -> & -> & -> & ->). unfold is_byte in Hc.
  destruct (Z.leb_spec c 127), (Z.ltb_spec c 128); try lia; [done|].
  destruct ((192 <=? c) && (c <? 224)) eqn:E1; [|destruct ((224 <=? c) && (c <? 240)) eqn:E2;
    [|destruct ((240 <=? c) && (c <? 248)) eqn:E3; [|done]]].
  all: erewrite act_bind_some by done; cbv beta iota; do 3 f_equal.
  - symmetry. apply (Z.mod_unique_pos _ _ 6); lia.
  - symmetry. apply (Z.mod_unique_pos _ _ 14); lia.
  - symmetry. apply (Z.mod_unique_pos _ _ 30); lia.
Qed.

Lemma CBS_get_utf8_app v rest :
  0 <= v -> is_valid_code_point v = true -> CBS_get_utf8 (utf8 v ++ rest) = (Some v, rest).
Proof.
  intros Hv Hok. pose proof (valid_range v Hok).
  assert (Hend : forall u lb s, u = v -> lb <= v -> (if negb (is_valid_code_point u) || (u <? lb) then fail
    else mret u) s = (Some v, s : CBS)).
  { intros u lb s -> Hlb. rewrite Hok. by destruct (Z.ltb_spec v lb); [lia|]. }
  unfold utf8. destruct (Z.ltb_spec v 128); [|destruct (Z.ltb_spec v 2048); [|destruct (Z.ltb_spec v 65536)]];
    cbn [app]; rewrite CBS_get_utf8_cons by (unfold is_byte; div_lia).
  - by destruct (Z.ltb_spec v 128); [|lia].
  - destruct (Z.ltb_spec (192 + v / 64) 128); [div_lia|]. unfold utf8_lead.
    assert ((192 <=? 192 + v / 64) && (192 + v / 64 <? 224) = true) as -> by div_lia.
    erewrite act_bind_some.
    2:{ rewrite utf8_loop_cons by (unfold is_byte; div_lia).
        assert ((128 <=? 128 + v mod 64) && (128 + v mod 64 <? 192) = true) as -> by div_lia. done. }
    apply Hend; div_lia.
  - destruct (Z.ltb_spec (224 + v / 4096) 128); [div_lia|]. unfold utf8_lead.
    assert ((192 <=? 224 + v / 4096) && (224 + v / 4096 <? 224) = false) as -> by div_lia.
    assert ((224 <=? 224 + v / 4096) && (224 + v / 4096 <? 240) = true) as -> by div_lia.
    erewrite act_bind_some.
    2:{ rewrite utf8_loop_cons by (unfold is_byte; div_lia).
        assert ((128 <=? 128 + v / 64 mod 64) && (128 + v / 64 mod 64 <? 192) = true) as -> by div_lia.
        rewrite utf8_loop_cons by (unfold is_byte; div_lia).
        assert ((128 <=? 128 + v mod 64) && (128 + v mod 64 <? 192) = true) as -> by div_lia. done. }
    apply Hend; div_lia.
  - destruct (Z.ltb_spec (240 + v / 262144) 128); [div_lia|]. unfold utf8_lead.
    assert ((192 <=? 240 + v / 262144) && (240 + v / 262144 <? 224) = false) as -> by div_lia.
    assert ((224 <=? 240 + v / 262144) && (240 + v / 262144 <? 240) = false) as -> by div_lia.
    assert ((240 <=? 240 + v / 262144) && (240 + v / 262144 <? 248) = true) as -> by div_lia.
    erewrite act_bind_some.
    2:{ rewrite utf8_loop_cons by (unfold is_byte; div_lia).
        assert ((128 <=? 128 + v / 4096 mod 64) && (128 + v / 4096 mod 64 <? 192) = true) as -> by div_lia.
        rewrite utf8_loop_cons by (unfold is_byte; div_lia).
        assert ((128 <=? 128 + v / 64 mod 64) && (128 + v / 64 mod 64 <? 192) = true) as -> by div_lia.
        rewrite utf8_loop_cons by (unfold is_byte; div_lia).
        assert ((128 <=? 128 + v mod 64) && (128 + v mod 64 <? 192) = true) as -> by div_lia. done. }
    apply Hend; div_lia.
Qed.

Lemma utf8_loop_inv len v cbs r s :
  bytes cbs -> 0 <= v < 2 ^ 20 -> utf8_loop (S len) v cbs = (Some r, s) ->
  exists c cbs', cbs = c :: cbs' /\ 128 <= c < 192 /\ bytes cbs'
    /\ utf8_loop len (v * 64 + (c - 128)) cbs' = (Some r, s).
Proof.
  intros Hb Hv H. destruct cbs as [|c cbs]; [done|]. apply bytes_cons in Hb as [Hc Hb].
  rewrite utf8_loop_cons in H by done. destruct ((128 <=? c) && (c <? 192)) eqn:E; [|done].
  exists c, cbs. split_and!; (done || lia).
Qed.

Lemma CBS_get_utf8_inv cbs v rest :
  bytes cbs -> CBS_get_utf8 cbs = (Some v, rest) ->
  0 <= v /\ is_valid_code_point v = true /\ cbs = utf8 v ++ rest.
Proof.
  intros Hb H. destruct cbs as [|c cbs]; [done|]. apply bytes_cons in Hb as [Hc Hb].
  rewrite CBS_get_utf8_cons in H by done. unfold is_byte in Hc.
  destruct (Z.ltb_spec c 128).
  { injection H as <- <-. split_and!; [lia| |].
    - apply (byte_cases (fun c => negb (c <? 128) || is_valid_code_point c)) in Hc;
        [|vm_compute; reflexivity]. destruct (Z.ltb_spec c 128); [done|lia].
    - unfold utf8. by destruct (Z.ltb_spec c 128); [|lia]. }
  unfold utf8_lead in H.
  destruct ((192 <=? c) && (c <? 224)) eqn:E1; [|destruct ((224 <=? c) && (c <? 240)) eqn:E2;
    [|destruct ((240 <=? c) && (c <? 248)) eqn:E3; [|done]]];
    apply act_bind_inv in H as (u & s & Hl & H);
    destruct (negb (is_valid_code_point u) || (u <? _)) eqn:Ev; try done;
    injection H as <- <-; apply orb_false_iff in Ev as [Ev%negb_false_iff Elb].
  - apply utf8_loop_inv in Hl as (c1 & s1 & -> & H1 & Hb1 & Hl); [|done|lia].
    injection Hl as <- <-. split_and!; [lia|done|]. unfold utf8.
    destruct (Z.ltb_spec ((c - 192) * 64 + (c1 - 128)) 128); [lia|].
    destruct (Z.ltb_spec ((c - 192) * 64 + (c1 - 128)) 2048); [|lia].
    cbn [app]. f_equal; [|f_equal]; div_lia.
  - apply utf8_loop_inv in Hl as (c1 & s1 & -> & H1 & Hb1 & Hl); [|done|lia].
    apply utf8_loop_inv in Hl as (c2 & s2 & -> & H2 & Hb2 & Hl); [|done|lia].
    injection Hl as <- <-. split_and!; [lia|done|]. unfold utf8.
    set (w := ((c - 224) * 64 + (c1 - 128)) * 64 + (c2 - 128)) in *.
    destruct (Z.ltb_spec w 128); [lia|]. destruct (Z.ltb_spec w 2048); [lia|].
    destruct (Z.ltb_spec w 65536); [|lia].
    cbn [app]. unfold w. f_equal; [|f_equal; [|f_equal]]; div_lia.
  - apply utf8_loop_inv in Hl as (c1 & s1 & -> & H1 & Hb1 & Hl); [|done|lia].
    apply utf8_loop_inv in Hl as (c2 & s2 & -> & H2 & Hb2 & Hl); [|done|lia].
    apply utf8_loop_inv in Hl as (c3 & s3 & -> & H3 & Hb3 & Hl); [|done|lia].
    injection Hl as <- <-. split_and!; [lia|done|]. unfold utf8.
    set (w := (((c - 240) * 64 + (c1 - 128)) * 64 + (c2 - 128)) * 64 + (c3 - 128)) in *.
    destruct (Z.ltb_spec w 128); [lia|]. destruct (Z.ltb_spec w 2048); [lia|].
    destruct (Z.ltb_spec w 65536); [lia|].
    cbn [app]. unfold w. f_equal; [|f_equal; [|f_equal; [|f_equal]]]; div_lia.
Qed.

(** C25. The UTF-8 reader accepts exactly UTF-8: on any bytes, [CBS_get_utf8] succeeds
    with a code point if and only if they begin with the RFC 3629 encoding of it, the
    shortest one, and the library allows the code point: no surrogate, no
    noncharacter, nothing above 0x10ffff. *)
Theorem CBS_get_utf8_exactly cbs v rest :
  bytes cbs ->
  CBS_get_utf8 cbs = (Some v, rest)
  <-> 0 <= v /\ is_valid_code_point v = true /\ cbs = utf8 v ++ rest.
Proof.
  intros Hb. split; [by apply CBS_get_utf8_inv|]. intros (Hv & Hok & ->). by apply CBS_get_utf8_app.
Qed.

(** The euro sign in three bytes; the same value in four is not accepted. *)
Lemma CBS_get_utf8_exactly_witness :
  bytes [0xe2; 0x82; 0xac; 0x21]
  /\ (CBS_get_utf8 [0xe2; 0x82; 0xac; 0x21] = (Some 0x20ac, [0x21])
      <-> 0 <= 0x20ac /\ is_valid_code_point 0x20ac = true /\ [0xe2; 0x82; 0xac; 0x21] = utf8 0x20ac ++ [0x21])
  /\ CBS_get_utf8 [0xe2; 0x82; 0xac; 0x21] = (Some 0x20ac, [0x21])
  /\ (CBS_get_utf8 [0xf0; 0x82; 0x82; 0xac]).1 = None.
Proof.
  assert (Hb : bytes [0xe2; 0x82; 0xac; 0x21]) by (repeat constructor; unfold is_byte; lia).
  split_and!; [exact Hb|apply (CBS_get_utf8_exactly _ _ _ Hb)|vm_compute; reflexivity..].
Defined.

(** ** Writers *)

Lemma top_lor n k x : 0 <= x < 2 ^ k -> 0 <= k -> TOP_BITS n mod 2 ^ k = 0 ->
  Z.lor (TOP_BITS n) x = TOP_BITS n + x.
Proof. intros Hx Hk Ht. rewrite Z.lor_comm, (lor_add x _ k) by done. lia. Qed.

Lemma CBB_add_utf8_writes d v :
  0 <= v -> is_valid_code_point v = true -> Writes d (utf8 v) (CBB_add_utf8 d v).
Proof.
  intros Hv Hok. pose proof (valid_range v Hok). unfold CBB_add_utf8, utf8. rewrite Hok. cbn [negb].
  assert (H6 : forall u, Z.land u (BOTTOM_BITS 6) = u mod 64)
    by (intros u; by apply (land_ones_mod u 6)).
  rewrite !Z.shiftr_div_pow2, !H6 by lia.
  change (2 ^ 6) with 64. change (2 ^ 12) with 4096. change (2 ^ 18) with 262144.
  assert (Hc : forall u, Z.lor (TOP_BITS 1) (u mod 64) = 128 + u mod 64)
    by (intros u; apply (top_lor 1 6); [apply Z.mod_pos_bound; lia|lia|done]).
  rewrite !Hc.
  assert (Hb : forall u, u8 (128 + u mod 64) = 128 + u mod 64)
    by (intros u; apply u8_small; pose proof (Z.mod_pos_bound u 64 ltac:(lia)); lia).
  rewrite !Hb.
  assert (Hw : forall u, Writes d [128 + u mod 64] (CBB_add_u8 d (128 + u mod 64))).
  { intros u. apply CBB_add_u8_writes. unfold is_byte. pose proof (Z.mod_pos_bound u 64 ltac:(lia)). lia. }
  destruct (Z.leb_spec v 127), (Z.ltb_spec v 128); try lia.
  { rewrite u8_small by lia. apply CBB_add_u8_writes; unfold is_byte; lia. }
  destruct (Z.leb_spec v 2047), (Z.ltb_spec v 2048); try lia.
  { rewrite (top_lor 2 5) by (done || div_lia). change (TOP_BITS 2) with 192. rewrite u8_small by div_lia.
    apply (Writes_bind d [_] [_]); [apply CBB_add_u8_writes; unfold is_byte; div_lia|intros _; apply Hw]. }
  destruct (Z.leb_spec v 65535), (Z.ltb_spec v 65536); try lia.
  { rewrite (top_lor 3 4) by (done || div_lia). change (TOP_BITS 3) with 224. rewrite u8_small by div_lia.
    apply (Writes_bind d [_] [_; _]); [apply CBB_add_u8_writes; unfold is_byte; div_lia|intros _].
    apply (Writes_bind d [_] [_]); [apply Hw|intros _; apply Hw]. }
  destruct (Z.leb_spec v 1114111); [|lia].
  rewrite (top_lor 4 3) by (done || div_lia). change (TOP_BITS 4) with 240. rewrite u8_small by div_lia.
  apply (Writes_bind d [_] [_; _; _]); [apply CBB_add_u8_writes; unfold is_byte; div_lia|intros _].
  apply (Writes_bind d [_] [_; _]); [apply Hw|intros _].
  apply (Writes_bind d [_] [_]); [apply Hw|intros _; apply Hw].
Qed.

Lemma CBB_get_utf8_len_spec v : CBB_get_utf8_len v = CBS_len (utf8 v).
Proof. unfold CBB_get_utf8_len, utf8. repeat case_bool; (lia || done). Qed.

(** C39. Code points survive their writers and readers: every code point the library
    allows in UTF-8, of the length [CBB_get_utf8_len] says, and in UTF-32; in UCS-2
    when it has 16 bits, and in Latin-1 when it has 8; the code points that do not are
    refused, and nothing is written. *)
Theorem unicode_roundtrip d v w :
  0 <= v -> is_valid_code_point v = true -> ready d w ->
  RoundTrips w (CBB_get_utf8_len v) (CBB_add_utf8 d v) CBS_get_utf8 v
  /\ RoundTrips w 4 (CBB_add_utf32_be d v) CBS_get_utf32_be v
  /\ (if v <? 2 ^ 16 then RoundTrips w 2 (CBB_add_ucs2_be d v) CBS_get_ucs2_be v
      else CBB_add_ucs2_be d v w = (None, w))
  /\ (if v <? 2 ^ 8 then RoundTrips w 1 (CBB_add_latin1 d v) CBS_get_latin1 v
      else CBB_add_latin1 d v w = (None, w)).
Proof.
  intros Hv Hok Hw. pose proof (valid_range v Hok). split_and!.
  - eapply RoundTrips_of; [done|by apply CBB_add_utf8_writes|by rewrite CBB_get_utf8_len_spec|].
    intros rest. by apply CBS_get_utf8_app.
  - unfold CBB_add_utf32_be. rewrite Hok.
    eapply RoundTrips_of; [done|apply (cbb_add_u_writes d v 4); simpl; lia|done|].
    intros rest. unfold CBS_get_utf32_be, CBS_get_u32. erewrite act_bind_some.
    2:{ erewrite act_bind_some by (apply (cbs_get_u_be_bytes 4); simpl; lia). done. }
    rewrite u32_small by lia. by rewrite Hok.
  - unfold CBB_add_ucs2_be. rewrite Hok, andb_true_r.
    destruct (Z.ltb_spec v (2 ^ 16)), (Z.leb_spec v 65535); try lia; [|done].
    rewrite u16_small by lia.
    eapply RoundTrips_of; [done|apply (cbb_add_u_writes d v 2); simpl; lia|done|].
    intros rest. unfold CBS_get_ucs2_be, CBS_get_u16. erewrite act_bind_some.
    2:{ erewrite act_bind_some by (apply (cbs_get_u_be_bytes 2); simpl; lia). done. }
    rewrite u16_small by lia. by rewrite Hok.
  - unfold CBB_add_latin1. destruct (Z.ltb_spec v (2 ^ 8)), (Z.leb_spec v 255); try lia; [|done].
    rewrite u8_small by lia.
    eapply RoundTrips_of; [done|by apply CBB_add_u8_writes|done|].
    intros rest. apply CBS_get_u8_cons.
Qed.

Lemma unicode_roundtrip_witness :
  is_valid_code_point 0x1f600 = true /\
  RoundTrips growable 4 (CBB_add_utf8 0 0x1f600) CBS_get_utf8 0x1f600
  /\ RoundTrips growable 4 (CBB_add_utf32_be 0 0x1f600) CBS_get_utf32_be 0x1f600
  /\ CBB_add_ucs2_be 0 0x1f600 growable = (None, growable)
  /\ CBB_add_latin1 0 0x1f600 growable = (None, growable).
Proof.
  split; [reflexivity|]. apply (unicode_roundtrip 0 0x1f600 growable); [lia|reflexivity|apply growable_ready].
Defined.
