(* ===== verification/ConstTime.v ===== *)
(** * BoringSSL: constant-time words (crypto/internal.h)

    The masks and selections with which BoringSSL compares secrets without branching,
    and additions and subtractions with a carry. A [crypto_word_t] has 64 bits, and an
    [int] 32; [value_barrier_w], which hides a value from the optimiser, is the
    identity. *)
From S2P Require Export Prelude.

Definition INT_MAX : Z := 2 ^ 31 - 1.

Definition CONSTTIME_TRUE_W : Z := u64 (Z.lnot 0).
Definition CONSTTIME_FALSE_W : Z := 0.

Definition constant_time_msb_w (a : Z) : Z := u64 (0 - Z.shiftr a 63).
Definition constant_time_lt_w (a b : Z) : Z :=
  constant_time_msb_w (Z.lxor a (Z.lor (Z.lxor a b) (Z.lxor (u64 (a - b)) a))).
Definition constant_time_lt_8 (a b : Z) : Z := u8 (constant_time_lt_w a b).
Definition constant_time_ge_w (a b : Z) : Z := u64 (Z.lnot (constant_time_lt_w a b)).
Definition constant_time_ge_8 (a b : Z) : Z := u8 (constant_time_ge_w a b).
Definition constant_time_is_zero_w (a : Z) : Z :=
  constant_time_msb_w (Z.land (u64 (Z.lnot a)) (u64 (a - 1))).
Definition constant_time_is_zero_8 (a : Z) : Z := u8 (constant_time_is_zero_w a).
Definition constant_time_eq_w (a b : Z) : Z := constant_time_is_zero_w (Z.lxor a b).
Definition constant_time_eq_8 (a b : Z) : Z := u8 (constant_time_eq_w a b).
Definition constant_time_eq_int (a b : Z) : Z := constant_time_eq_w (u64 a) (u64 b).
Definition constant_time_eq_int_8 (a b : Z) : Z := constant_time_eq_8 (u64 a) (u64 b).
Definition constant_time_select_w (mask a b : Z) : Z :=
  Z.lor (Z.land mask a) (Z.land (u64 (Z.lnot mask)) b).
Definition constant_time_select_8 (mask a b : Z) : Z :=
  let m := u8 mask in u8 (Z.lor (Z.land m a) (Z.land (Z.lnot m) b)).
Definition constant_time_select_int (mask a b : Z) : Z :=
  s32 (constant_time_select_w mask (u64 a) (u64 b)).

(** Buffers of [n] bytes, that do not overlap. *)
Definition constant_time_conditional_memcpy (dst src : list Z) (mask : Z) : list Z :=
  zip_with (fun o i => constant_time_select_8 mask i o) dst src.
Definition constant_time_conditional_memxor (dst src : list Z) (mask : Z) : list Z :=
  zip_with (fun o i => u8 (Z.lxor o (Z.land mask i))) dst src.

(** The sum and the carry, the difference and the borrow; none when the assertion on
    the carry fails. *)
Definition u128 (z : Z) : Z := z mod 2 ^ 128.

Definition CRYPTO_addc_u32 (x y carry : Z) : option (Z * Z) :=
  if 1 <? carry then None
  else let ret := u64 (carry + u64 (x + y)) in Some (u32 ret, u32 (Z.shiftr ret 32)).
Definition CRYPTO_addc_u64 (x y carry : Z) : option (Z * Z) :=
  if 1 <? carry then None
  else let ret := u128 (carry + u128 (x + y)) in Some (u64 ret, u64 (Z.shiftr ret 64)).
Definition CRYPTO_subc_u32 (x y borrow : Z) : option (Z * Z) :=
  if 1 <? borrow then None
  else Some (u32 (x - y - borrow), Z.lor (Z.b2z (x <? y)) (Z.land (Z.b2z (x =? y)) borrow)).
Definition CRYPTO_subc_u64 (x y borrow : Z) : option (Z * Z) :=
  if 1 <? borrow then None
  else Some (u64 (x - y - borrow), Z.lor (Z.b2z (x <? y)) (Z.land (Z.b2z (x =? y)) borrow)).
Definition CRYPTO_addc_w : Z -> Z -> Z -> option (Z * Z) := CRYPTO_addc_u64.
Definition CRYPTO_subc_w : Z -> Z -> Z -> option (Z * Z) := CRYPTO_subc_u64.

(** ** What they compute *)

Definition word (x : Z) : Prop := 0 <= x < 2 ^ 64.
#[global] Instance word_dec x : Decision (word x).
Proof. unfold word. apply _. Defined.

Definition mask_w (b : bool) : Z := if b then 2 ^ 64 - 1 else 0.

Lemma word_u64 z : word (u64 z).
Proof. apply u64_range. Qed.
Lemma mask_word b : word (mask_w b).
Proof. by destruct b. Qed.
Lemma word_0 : word 0.
Proof. done. Qed.
#[export] Hint Resolve word_u64 mask_word word_0 : cint.

Lemma word_bits z :
  0 <= z -> (forall i, 64 <= i -> Z.testbit z i = false) -> word z.
Proof.
  intros Hz Hb. replace z with (u64 z); [apply word_u64|].
  apply Z.bits_inj'; intros i Hi. unfold u64. destruct (Z.lt_ge_cases i 64).
  - by apply Z.mod_pow2_bits_low.
  - by rewrite Z.mod_pow2_bits_high, Hb.
Qed.

Lemma word_lxor a b : word a -> word b -> word (Z.lxor a b).
Proof.
  intros [Ha Ha'] [Hb Hb']. apply word_bits; [by apply Z.lxor_nonneg|]. intros i Hi.
  by rewrite Z.lxor_spec, (testbit_small a 64), (testbit_small b 64).
Qed.
Lemma word_lor a b : word a -> word b -> word (Z.lor a b).
Proof. apply lor_range. lia. Qed.

Lemma word_land a b : word a -> 0 <= b -> word (Z.land a b).
Proof.
  intros [Ha Ha'] Hb. apply word_bits; [apply Z.land_nonneg; lia|]. intros i Hi.
  by rewrite Z.land_spec, (testbit_small a 64).
Qed.

Lemma testbit_63 a : word a -> Z.testbit a 63 = (2 ^ 63 <=? a).
Proof.
  intros [Ha Hb]. rewrite Z.testbit_eqb by lia.
  destruct (Z.leb_spec (2 ^ 63) a).
  - replace (a / 2 ^ 63) with 1; [done|]. apply Z.div_unique with (a - 2 ^ 63); lia.
  - rewrite Z.div_small by lia. done.
Qed.

Lemma msb_spec a : word a -> constant_time_msb_w a = mask_w (2 ^ 63 <=? a).
Proof.
  intros [Ha Hb]. unfold constant_time_msb_w. rewrite Z.shiftr_div_pow2 by lia.
  destruct (Z.leb_spec (2 ^ 63) a).
  - replace (a / 2 ^ 63) with 1; [done|]. apply Z.div_unique with (a - 2 ^ 63); lia.
  - rewrite Z.div_small by lia. done.
Qed.

Lemma msb_bit a : word a -> constant_time_msb_w a = mask_w (Z.testbit a 63).
Proof. intros Ha. by rewrite testbit_63, msb_spec. Qed.

Lemma lnot_mask b : u64 (Z.lnot (mask_w b)) = mask_w (negb b).
Proof. by destruct b. Qed.

Lemma u64_sub a b : word a -> word b -> u64 (a - b) = if a <? b then a - b + 2 ^ 64 else a - b.
Proof.
  unfold word. intros Ha Hb. destruct (Z.ltb_spec a b); unfold u64; [|apply Z.mod_small; lia].
  symmetry. apply Z.mod_unique with (-1); lia.
Qed.

Lemma lt_mask a b : word a -> word b -> constant_time_lt_w a b = mask_w (a <? b).
Proof.
  intros Ha Hb. unfold constant_time_lt_w.
  rewrite msb_bit by auto using word_lxor, word_lor with cint.
  rewrite Z.lxor_spec, Z.lor_spec, !Z.lxor_spec, !testbit_63, u64_sub by auto with cint.
  unfold word in *. f_equal. repeat case_bool; first [reflexivity | lia].
Qed.

Lemma is_zero_mask a : word a -> constant_time_is_zero_w a = mask_w (a =? 0).
Proof.
  intros Ha. unfold constant_time_is_zero_w.
  assert (Hn : u64 (Z.lnot a) = 2 ^ 64 - 1 - a).
  { unfold u64, word, Z.lnot in *. symmetry. apply Z.mod_unique with (-1); lia. }
  assert (H1 : word 1) by (unfold word; lia).
  rewrite msb_bit by (apply word_land; [auto with cint | apply u64_range]).
  rewrite Z.land_spec, !testbit_63, Hn, (u64_sub a 1) by auto with cint.
  unfold word in *. f_equal. repeat case_bool; first [reflexivity | lia].
Qed.

Lemma eq_mask a b : word a -> word b -> constant_time_eq_w a b = mask_w (a =? b).
Proof.
  intros Ha Hb. unfold constant_time_eq_w. rewrite is_zero_mask by auto using word_lxor.
  f_equal. destruct (Z.eqb_spec a b) as [-> | Hne]; [by rewrite Z.lxor_nilpotent|].
  apply Z.eqb_neq. by rewrite Z.lxor_eq_0_iff.
Qed.

Lemma ge_mask a b : word a -> word b -> constant_time_ge_w a b = mask_w (b <=? a).
Proof.
  intros Ha Hb. unfold constant_time_ge_w. rewrite lt_mask by done. rewrite lnot_mask.
  f_equal. by rewrite Z.leb_antisym.
Qed.

Lemma select_mask (c : bool) a b :
  word a -> word b -> constant_time_select_w (mask_w c) a b = if c then a else b.
Proof.
  unfold word. intros Ha Hb. unfold constant_time_select_w. rewrite lnot_mask.
  destruct c; cbn [mask_w negb]; change (2 ^ 64 - 1) with (Z.ones 64).
  - rewrite Z.land_0_l, Z.lor_0_r, Z.land_comm, Z.land_ones, Z.mod_small by lia. done.
  - rewrite Z.land_0_l, Z.lor_0_l, Z.land_comm, Z.land_ones, Z.mod_small by lia. done.
Qed.

Lemma select_int_mask (c : bool) a b :
  - 2 ^ 31 <= a < 2 ^ 31 -> - 2 ^ 31 <= b < 2 ^ 31 ->
  constant_time_select_int (mask_w c) a b = if c then a else b.
Proof.
  intros Ha Hb. unfold constant_time_select_int. rewrite select_mask by auto with cint.
  assert (H : forall z, - 2 ^ 31 <= z < 2 ^ 31 -> s32 (u64 z) = z).
  { intros z Hz. unfold s32, to_signed, u64. replace ((z mod 2 ^ 64) mod 2 ^ 32) with (z mod 2 ^ 32) by div_lia.
    fold (to_signed 32 z). by apply to_signed_small. }
  by destruct c; apply H.
Qed.

(** The forms on bytes and on [int]s. *)

Definition mask_8 (b : bool) : Z := if b then 255 else 0.
Definition is_int (x : Z) : Prop := - 2 ^ 31 <= x < 2 ^ 31.

Lemma u8_mask b : u8 (mask_w b) = mask_8 b.
Proof. by destruct b. Qed.

Lemma select_8_mask mask (c : bool) x y :
  u8 mask = mask_8 c -> is_byte x -> is_byte y -> constant_time_select_8 mask x y = if c then x else y.
Proof.
  unfold is_byte. intros Hm Hx Hy. unfold constant_time_select_8. rewrite Hm.
  destruct c; cbn [mask_8 Z.lnot Z.opp Z.pred].
  - change (Z.lnot 255) with (- 2 ^ 8). change 255 with (Z.ones 8).
    rewrite Z.land_comm, Z.land_ones, Z.mod_small by lia.
    replace (Z.land (- 2 ^ 8) y) with 0; [rewrite Z.lor_0_r; apply Z.mod_small; lia|].
    symmetry. apply Z.bits_inj'. intros i Hi. rewrite Z.bits_0, Z.land_spec.
    destruct (Z.lt_ge_cases i 8) as [Hlt|Hge].
    + change (- 2 ^ 8) with (Z.lnot (Z.ones 8)). by rewrite Z.lnot_spec, Z.ones_spec_low by lia.
    + by rewrite (testbit_small y 8), andb_false_r by lia.
  - change (Z.lnot 0) with (-1). rewrite Z.land_0_l, Z.lor_0_l, Z.land_m1_l. apply Z.mod_small. lia.
Qed.

Lemma u64_int_inj x y : is_int x -> is_int y -> (u64 x =? u64 y) = (x =? y).
Proof. unfold is_int, u64. intros Hx Hy. destruct (Z.eqb_spec x y) as [->|]; [apply Z.eqb_refl|]. apply Z.eqb_neq. div_lia. Qed.

Lemma eq_int_mask x y : is_int x -> is_int y -> constant_time_eq_int x y = mask_w (x =? y).
Proof. intros Hx Hy. unfold constant_time_eq_int. by rewrite eq_mask, u64_int_inj by auto with cint. Qed.

(** Buffers of the same length: the source is copied, or combined, or nothing is done. *)
Lemma conditional_memcpy_mask (c : bool) dst src :
  bytes dst -> bytes src -> length src = length dst ->
  constant_time_conditional_memcpy dst src (mask_w c) = if c then src else dst.
Proof.
  intros Hd Hs. revert src Hs. unfold constant_time_conditional_memcpy.
  induction Hd as [|x dst Hx Hd IH]; intros [|y src] Hs Hl; try done; cbn [zip_with]; [by destruct c|].
  apply bytes_cons in Hs as [Hy Hs]. injection Hl as Hl.
  rewrite (IH _ Hs Hl), (select_8_mask _ c) by (done || apply u8_mask). by destruct c.
Qed.

Lemma conditional_memxor_mask (c : bool) dst src :
  bytes dst -> bytes src -> length src = length dst ->
  constant_time_conditional_memxor dst src (mask_w c) = if c then zip_with Z.lxor dst src else dst.
Proof.
  intros Hd Hs. revert src Hs. unfold constant_time_conditional_memxor.
  induction Hd as [|x dst Hx Hd IH]; intros [|y src] Hs Hl; try done; cbn [zip_with]; [by destruct c|].
  apply bytes_cons in Hs as [Hy Hs]. injection Hl as Hl. rewrite (IH _ Hs Hl). unfold is_byte in *.
  destruct c; cbn [mask_w]; (rewrite Z.land_0_l, Z.lxor_0_r || rewrite Z.land_comm; change (2 ^ 64 - 1) with (Z.ones 64);
    rewrite ?Z.land_ones, ?(Z.mod_small y) by lia); f_equal.
  - apply Z.mod_small. change 256 with (2 ^ 8) in *. pose proof (word_lxor x y). split; [apply Z.lxor_nonneg; lia|].
    destruct (Z.eq_dec (Z.lxor x y) 0) as [->|]; [lia|]. apply Z.log2_lt_pow2; [pose proof (proj2 (Z.lxor_nonneg x y)); lia|].
    pose proof (Z.log2_lxor x y ltac:(lia) ltac:(lia)). pose proof (Z.log2_lt_pow2 x 8). pose proof (Z.log2_lt_pow2 y 8).
    destruct (Z.eq_dec x 0), (Z.eq_dec y 0); subst; cbn [Z.log2] in *; lia.
  - apply Z.mod_small. lia.
Qed.

(** C40. The masks that stand for comparisons of secrets are exactly the comparisons, and
    the selections by them are selections. For words, less-than, at-least, equality and
    the test for zero give all ones when they hold and zero when they do not, in a word
    and, in the forms for bytes, in a byte; so does equality of [int]s. By such a mask,
    [constant_time_select_w], [_8] and [_int] give their first value when it is all ones
    and their second when it is zero, and the conditional copy and exclusive or of
    buffers are done or leave the destination alone. *)
Theorem constant_time_masks a b :
  word a -> word b ->
  (constant_time_lt_w a b = mask_w (a <? b) /\ constant_time_lt_8 a b = mask_8 (a <? b))
  /\ (constant_time_ge_w a b = mask_w (b <=? a) /\ constant_time_ge_8 a b = mask_8 (b <=? a))
  /\ (constant_time_eq_w a b = mask_w (a =? b) /\ constant_time_eq_8 a b = mask_8 (a =? b))
  /\ (constant_time_is_zero_w a = mask_w (a =? 0) /\ constant_time_is_zero_8 a = mask_8 (a =? 0))
  /\ (forall x y, is_int x -> is_int y ->
        constant_time_eq_int x y = mask_w (x =? y) /\ constant_time_eq_int_8 x y = mask_8 (x =? y))
  /\ forall c : bool,
       constant_time_select_w (mask_w c) a b = (if c then a else b)
       /\ (forall x y, is_byte x -> is_byte y ->
             constant_time_select_8 (mask_w c) x y = (if c then x else y)
             /\ constant_time_select_8 (mask_8 c) x y = (if c then x else y))
       /\ (forall x y, is_int x -> is_int y ->
             constant_time_select_int (mask_w c) x y = (if c then x else y))
       /\ (forall dst src, bytes dst -> bytes src -> length src = length dst ->
             constant_time_conditional_memcpy dst src (mask_w c) = (if c then src else dst)
             /\ constant_time_conditional_memxor dst src (mask_w c) = (if c then zip_with Z.lxor dst src else dst)).
Proof.
  intros Ha Hb. unfold constant_time_lt_8, constant_time_ge_8, constant_time_is_zero_8, constant_time_eq_int_8, constant_time_eq_8.
  rewrite lt_mask, ge_mask, eq_mask, is_zero_mask, !u8_mask by done. split_and!; try done.
  - intros x y Hx Hy. change (constant_time_eq_w (u64 x) (u64 y)) with (constant_time_eq_int x y).
    by rewrite eq_int_mask, u8_mask.
  - intros c. split_and!; [by apply select_mask| | |].
    + split; apply select_8_mask; try done; [apply u8_mask|by destruct c].
    + intros x y Hx Hy. by apply select_int_mask.
    + split; [by apply conditional_memcpy_mask|by apply conditional_memxor_mask].
Qed.

(** ** Carries *)

Lemma addc_spec x y c :
  word x -> word y -> 0 <= c <= 1 ->
  exists s c', CRYPTO_addc_w x y c = Some (s, c') /\ word s /\ 0 <= c' <= 1 /\ s + 2 ^ 64 * c' = x + y + c.
Proof.
  unfold word. intros Hx Hy Hc. unfold CRYPTO_addc_w, CRYPTO_addc_u64, u128.
  destruct (Z.ltb_spec 1 c); [lia|].
  rewrite (Z.mod_small (x + y)), Z.mod_small by lia. do 2 eexists. split; [reflexivity|].
  unfold u64. rewrite Z.shiftr_div_pow2 by lia. split; [apply Z.mod_pos_bound; lia|].
  assert (0 <= (c + (x + y)) / 2 ^ 64 <= 1) by div_lia.
  rewrite (Z.mod_small (_ / _)) by lia. split; [done|]. div_lia.
Qed.

Lemma subc_spec x y c :
  word x -> word y -> 0 <= c <= 1 ->
  exists s c', CRYPTO_subc_w x y c = Some (s, c') /\ word s /\ 0 <= c' <= 1 /\ s - 2 ^ 64 * c' = x - y - c.
Proof.
  unfold word. intros Hx Hy Hc. unfold CRYPTO_subc_w, CRYPTO_subc_u64.
  destruct (Z.ltb_spec 1 c); [lia|]. do 2 eexists. split; [reflexivity|].
  split; [apply u64_range|]. unfold u64.
  assert (Hb : Z.lor (Z.b2z (x <? y)) (Z.land (Z.b2z (x =? y)) c) = if x - y - c <? 0 then 1 else 0).
  { assert (c = 0 \/ c = 1) as [-> | ->] by lia; repeat case_bool; first [reflexivity | lia]. }
  rewrite Hb. destruct (Z.ltb_spec (x - y - c) 0); split; try lia.
  - replace ((x - y - c) mod 2 ^ 64) with (x - y - c + 2 ^ 64); [lia|].
    apply Z.mod_unique with (-1); lia.
  - rewrite Z.mod_small; lia.
Qed.

Lemma constant_time_masks_witness :
  (word 3 /\ word (2 ^ 63))
  /\ constant_time_lt_w 3 (2 ^ 63) = mask_w true /\ constant_time_ge_8 3 (2 ^ 63) = 0
  /\ constant_time_select_int (mask_w true) (-7) 5 = -7 /\ constant_time_select_int (mask_w false) (-7) 5 = 5
  /\ constant_time_eq_int (-7) (-7) = mask_w true
  /\ constant_time_conditional_memxor [1; 2] [255; 2] (mask_w true) = [254; 0].
Proof.
  assert (Hw : word 3 /\ word (2 ^ 63)) by (split; unfold word; lia). split; [exact Hw|].
  assert (Hi : is_int (-7) /\ is_int 5) by (unfold is_int; lia).
  destruct (constant_time_masks 3 (2 ^ 63) (proj1 Hw) (proj2 Hw)) as ((H1 & _) & (_ & H2) & _ & _ & H3 & H4).
  split_and!; [exact H1|exact H2|apply (H4 true); apply Hi|apply (H4 false); apply Hi|apply H3; apply Hi|].
  apply (H4 true); [repeat constructor; done|repeat constructor; done|done].
Defined.
