(* ===== verification/Base64.v ===== *)
(** * BoringSSL: crypto/base64/base64.c

    Base64 in constant time. A buffer that a function only writes is the list of the
    bytes it stores there, from its start; the functions that give a length give it
    beside them. [crypto_word_t] has 64 bits. *)
From S2P Require Export ConstTime.

(** ** Masks of its own *)

Definition constant_time_lt_args_8 (a b : Z) : Z := u8 (constant_time_msb_w (u64 (a - b))).
Definition constant_time_in_range_8 (a min max : Z) : Z :=
  let a := u8 (a - min) in constant_time_lt_args_8 a (u8 (max - min + 1)).

(** ** Encoding *)

Definition conv_bin2ascii (a : Z) : Z :=
  let a := Z.land (u8 a) 0x3f in
  let ret := constant_time_select_8 (constant_time_eq_8 a 62) 43 (* + *) 47 (* / *) in
  let ret := constant_time_select_8 (constant_time_lt_args_8 a 62) (u8 (a - 52 + 48)) ret in
  let ret := constant_time_select_8 (constant_time_lt_args_8 a 52) (u8 (a - 26 + 97)) ret in
  constant_time_select_8 (constant_time_lt_args_8 a 26) (u8 (a + 65)) ret.

Definition EVP_EncodedLength (len : Z) : option Z :=
  if u64 (len + 2) <? len then None
  else
    let len := u64 (len + 2) / 3 in
    if negb (Z.shiftr (u64 (Z.shiftl len 2)) 2 =? len) then None
    else
      let len := u64 (Z.shiftl len 2) in
      if u64 (len + 1) <? len then None else Some (u64 (len + 1)).

(** The characters of three bytes, from the word [l] that holds them. *)
Definition encode_word (l : Z) : list Z :=
  [conv_bin2ascii (Z.shiftr l 18); conv_bin2ascii (Z.shiftr l 12);
   conv_bin2ascii (Z.shiftr l 6); conv_bin2ascii l].

(** The characters written to [dst], and [ret]. *)
Fixpoint encode_loop (src : list Z) : list Z * Z :=
  match src with
  | [] => ([], 0)
  | [a] =>
    let l := Z.shiftl a 16 in
    ([conv_bin2ascii (Z.shiftr l 18); conv_bin2ascii (Z.shiftr l 12); 61; 61], 4)
  | [a; b] =>
    let l := Z.lor (Z.shiftl a 16) (Z.shiftl b 8) in
    ([conv_bin2ascii (Z.shiftr l 18); conv_bin2ascii (Z.shiftr l 12);
      conv_bin2ascii (Z.shiftr l 6); 61], 4)
  | a :: b :: c :: src =>
    let l := Z.lor (Z.lor (Z.shiftl a 16) (Z.shiftl b 8)) c in
    let '(dst, ret) := encode_loop src in
    (encode_word l ++ dst, u64 (4 + ret))
  end.

(** [dst] gets a NUL behind the characters. *)
Definition EVP_EncodeBlock (src : list Z) : list Z * Z :=
  let '(dst, ret) := encode_loop src in (dst ++ [0], ret).

Record EVP_ENCODE_CTX := mk_ctx {
  data_used : Z; data : list Z; eof_seen : bool; error_encountered : bool
}.
Definition sizeof_data : Z := 48.

Definition EVP_EncodeInit : EVP_ENCODE_CTX := mk_ctx 0 (replicate 48 0) false false.

(** [memcpy(&ctx->data[ctx->data_used], in, n)] *)
Definition ctx_store (ctx : EVP_ENCODE_CTX) (l : list Z) (used : Z) : EVP_ENCODE_CTX :=
  mk_ctx used (list_inserts (Z.to_nat (data_used ctx)) l (data ctx)) (eof_seen ctx)
    (error_encountered ctx).
Definition set_used (ctx : EVP_ENCODE_CTX) (used : Z) : EVP_ENCODE_CTX :=
  mk_ctx used (data ctx) (eof_seen ctx) (error_encountered ctx).


(** A line: the characters of a block, of which [ret] count, and a newline. *)
Definition encode_line (l : list Z) : list Z * Z :=
  let '(dst, encoded) := EVP_EncodeBlock l in
  (take (Z.to_nat encoded) dst ++ [10], encoded + 1).

(** [while (in_len >= sizeof(ctx->data))]: what is written from [out] on, [total] and
    the rest of the input, or nothing but the output when [total] overflows. *)
Fixpoint encode_lines (fuel : nat) (input : list Z) (total : Z) : list Z * option (Z * list Z) :=
  if Z.of_nat (length input) <? sizeof_data then ([], Some (total, input))
  else match fuel with
  | O => ([], None)
  | S fuel =>
    let '(line, n) := encode_line (take 48 input) in
    if u64 (total + n) <? total then (line, None)
    else
      let '(out, r) := encode_lines fuel (drop 48 input) (u64 (total + n)) in
      (line ++ out, r)
  end.

(** The context, the bytes written to [out] without the NUL behind them, and
    [*out_len]. *)
Definition EVP_EncodeUpdate (ctx : EVP_ENCODE_CTX) (input : list Z)
    : EVP_ENCODE_CTX * list Z * Z :=
  let in_len := Z.of_nat (length input) in
  if in_len =? 0 then (ctx, [], 0)
  else if in_len <? u64 (sizeof_data - data_used ctx) then
    (ctx_store ctx input (u32 (data_used ctx + in_len)), [], 0)
  else
    let '(ctx, out1, total, input) :=
      (if negb (data_used ctx =? 0) then
         let todo := Z.to_nat (u64 (sizeof_data - data_used ctx)) in
         let ctx := ctx_store ctx (take todo input) (data_used ctx) in
         let '(line, n) := encode_line (data ctx) in
         (set_used ctx 0, line, n, drop todo input)
       else (ctx, [], 0, input)) in
    match encode_lines (length input) input total with
    | (out2, None) => (ctx, out1 ++ out2, 0)
    | (out2, Some (total, input)) =>
      let ctx := mk_ctx (u32 (Z.of_nat (length input))) (list_inserts 0 input (data ctx))
                   (eof_seen ctx) (error_encountered ctx) in
      (ctx, out1 ++ out2, if INT_MAX <? total then 0 else total)
    end.

Definition EVP_EncodeFinal (ctx : EVP_ENCODE_CTX) : EVP_ENCODE_CTX * list Z * Z :=
  if data_used ctx =? 0 then (ctx, [], 0)
  else
    let '(line, n) := encode_line (take (Z.to_nat (data_used ctx)) (data ctx)) in
    (set_used ctx 0, line, n).

(** ** Decoding *)

Definition EVP_DecodedLength (len : Z) : option Z :=
  if negb (len mod 4 =? 0) then None else Some (u64 (len / 4 * 3)).

Definition EVP_DecodeInit : EVP_ENCODE_CTX := mk_ctx 0 (replicate 48 0) false false.

Definition base64_ascii_to_bin (a : Z) : Z :=
  let is_upper := constant_time_in_range_8 a 65 90 in
  let is_lower := constant_time_in_range_8 a 97 122 in
  let is_digit := constant_time_in_range_8 a 48 57 in
  let is_plus := constant_time_eq_8 a 43 in
  let is_slash := constant_time_eq_8 a 47 in
  let is_equals := constant_time_eq_8 a 61 in
  let ret := 0 in
  let ret := u8 (Z.lor ret (Z.land is_upper (a - 65))) in
  let ret := u8 (Z.lor ret (Z.land is_lower (a - 97 + 26))) in
  let ret := u8 (Z.lor ret (Z.land is_digit (a - 48 + 52))) in
  let ret := u8 (Z.lor ret (Z.land is_plus 62)) in
  let ret := u8 (Z.lor ret (Z.land is_slash 63)) in
  let is_valid := Z.lor (Z.lor (Z.lor (Z.lor (Z.lor is_upper is_lower) is_digit) is_plus)
                           is_slash) is_equals in
  u8 (Z.lor ret (Z.lnot is_valid)).

(** The bytes written to [out]; [None] is the status 0, when there are none. *)
Definition base64_decode_quad (i0 i1 i2 i3 : Z) : option (list Z) :=
  let a := base64_ascii_to_bin i0 in
  let b := base64_ascii_to_bin i1 in
  let c := base64_ascii_to_bin i2 in
  let d := base64_ascii_to_bin i3 in
  if (a =? 0xff) || (b =? 0xff) || (c =? 0xff) || (d =? 0xff) then None
  else
    let v := Z.lor (Z.lor (Z.lor (Z.shiftl a 18) (Z.shiftl b 12)) (Z.shiftl c 6)) d in
    let padding_pattern :=
      Z.lor (Z.lor (Z.lor (Z.shiftl (Z.b2z (i0 =? 61)) 3) (Z.shiftl (Z.b2z (i1 =? 61)) 2))
               (Z.shiftl (Z.b2z (i2 =? 61)) 1)) (Z.b2z (i3 =? 61)) in
    if padding_pattern =? 0 then Some [u8 (Z.shiftr v 16); u8 (Z.shiftr v 8); u8 v]
    else if padding_pattern =? 1 then Some [u8 (Z.shiftr v 16); u8 (Z.shiftr v 8)]
    else if padding_pattern =? 3 then Some [u8 (Z.shiftr v 16)]
    else None.

Definition is_whitespace (c : Z) : bool := (c =? 32) || (c =? 9) || (c =? 13) || (c =? 10).

Definition ctx_error (ctx : EVP_ENCODE_CTX) : EVP_ENCODE_CTX :=
  mk_ctx (data_used ctx) (data ctx) (eof_seen ctx) true.

(** The [for] loop of [EVP_DecodeUpdate]: the context, what is written to [out], and
    [bytes_out], or [None] for the return of -1. *)
Fixpoint decode_loop (ctx : EVP_ENCODE_CTX) (input : list Z) (bytes_out : Z)
    : EVP_ENCODE_CTX * list Z * option Z :=
  match input with
  | [] => (ctx, [], Some bytes_out)
  | c :: input =>
    if is_whitespace c then decode_loop ctx input bytes_out
    else if eof_seen ctx then (ctx_error ctx, [], None)
    else
      let ctx := ctx_store ctx [c] (u32 (data_used ctx + 1)) in
      if data_used ctx =? 4 then
        let '(i0, i1, i2, i3) := (nth 0 (data ctx) 0, nth 1 (data ctx) 0,
                                  nth 2 (data ctx) 0, nth 3 (data ctx) 0) in
        match base64_decode_quad i0 i1 i2 i3 with
        | None => (ctx_error ctx, [], None)
        | Some bytes =>
          let num_bytes_resulting := Z.of_nat (length bytes) in
          let ctx := mk_ctx 0 (data ctx) (if num_bytes_resulting <? 3 then true else eof_seen ctx)
                       (error_encountered ctx) in
          let '(ctx, out, r) := decode_loop ctx input (u64 (bytes_out + num_bytes_resulting)) in
          (ctx, bytes ++ out, r)
        end
      else decode_loop ctx input bytes_out
  end.

(** The context, what is written to [out], [*out_len] and the result. *)
Definition EVP_DecodeUpdate (ctx : EVP_ENCODE_CTX) (input : list Z)
    : EVP_ENCODE_CTX * list Z * Z * Z :=
  if error_encountered ctx then (ctx, [], 0, -1)
  else
    match decode_loop ctx input 0 with
    | (ctx, out, None) => (ctx, out, 0, -1)
    | (ctx, out, Some bytes_out) =>
      if INT_MAX <? bytes_out then (ctx_error ctx, out, 0, -1)
      else (ctx, out, bytes_out, if eof_seen ctx then 0 else 1)
    end.

(** [*out_len] and the result. *)
Definition EVP_DecodeFinal (ctx : EVP_ENCODE_CTX) : Z * Z :=
  if error_encountered ctx || negb (data_used ctx =? 0) then (0, -1) else (0, 1).

(** What is written to [out], and [bytes_out], or [None] for the status 0. *)
Fixpoint decode_quads (input : list Z) (bytes_out : Z) : list Z * option Z :=
  match input with
  | i0 :: i1 :: i2 :: i3 :: rest =>
    match base64_decode_quad i0 i1 i2 i3 with
    | None => ([], None)
    | Some bytes =>
      let num_bytes_resulting := Z.of_nat (length bytes) in
      if negb (num_bytes_resulting =? 3) && negb (Z.of_nat (length rest) =? 0)
      then (bytes, None)
      else
        let '(out, r) := decode_quads rest (u64 (bytes_out + num_bytes_resulting)) in
        (bytes ++ out, r)
    end
  | _ => ([], Some bytes_out)
  end.

(** What is written to [out], and [*out_len]; [None] is the status 0, with a length
    of 0. *)
Definition EVP_DecodeBase64 (max_out : Z) (input : list Z) : list Z * option Z :=
  let in_len := Z.of_nat (length input) in
  if negb (in_len mod 4 =? 0) then ([], None)
  else match EVP_DecodedLength in_len with
  | None => ([], None)
  | Some max_len => if max_out <? max_len then ([], None) else decode_quads input 0
  end.

Fixpoint trim_start (src : list Z) : list Z :=
  match src with
  | c :: src' => if negb (c =? 32) && negb (c =? 9) then src else trim_start src'
  | [] => []
  end.

(** [while (src_len > 0)] from the end, on the reversed list. *)
Fixpoint trim_whitespace (src : list Z) : list Z :=
  match src with
  | c :: src' => if is_whitespace c then trim_whitespace src' else src
  | [] => []
  end.
Definition trim_end (src : list Z) : list Z := rev (trim_whitespace (rev src)).

(** What is written to [dst], and the result. *)
Definition EVP_DecodeBlock (src : list Z) : list Z * Z :=
  let src := trim_end (trim_start src) in
  match EVP_DecodedLength (Z.of_nat (length src)) with
  | None => ([], -1)
  | Some dst_len =>
    if INT_MAX <? dst_len then ([], -1)
    else match EVP_DecodeBase64 dst_len src with
    | (out, None) => (out, -1)
    | (out, Some dst_len) =>
      (* [while (dst_len % 3 != 0) dst[dst_len++] = '\0';] *)
      let pad := (3 - dst_len mod 3) mod 3 in
      (out ++ replicate (Z.to_nat pad) 0, dst_len + pad)
    end
  end.
