(* ===== verification/Base64Spec.v ===== *)
(** * BoringSSL: base64 against RFC 4648

    The constant-time conversions are the lookups in the alphabet; the block encoder
    and decoder are inverse; the streaming encoder writes the lines of the whole input
    however it is cut, and the streaming decoder reads them back however they are cut. *)
From S2P Require Export Base64.

(** ** The alphabet *)

Definition alphabet : list Z :=
  map (fun n => Z.of_nat n + 65) (seq 0 26) ++ map (fun n => Z.of_nat n + 97) (seq 0 26)
  ++ map (fun n => Z.of_nat n + 48) (seq 0 10) ++ [43; 47].

(** The character of the low six bits, and the six bits of a character; padding
    counts as zero and any other byte has no value. *)
Definition to_char (v : Z) : Z := nth (Z.to_nat (v mod 64)) alphabet 0.
Definition of_char (c : Z) : option Z :=
  if c =? 61 then Some 0
  else match list_find (fun x => x = c) alphabet with
       | Some (i, _) => Some (Z.of_nat i)
       | None => None
       end.

Lemma conv_bin2ascii_char v : conv_bin2ascii v = to_char v.
Proof.
  assert (H : conv_bin2ascii (u8 v) = to_char (u8 v)).
  { apply Z.eqb_eq, (byte_cases (fun b => conv_bin2ascii b =? to_char b));
      [vm_compute; reflexivity|apply is_byte_u8]. }
  unfold conv_bin2ascii, to_char, u8 in *. rewrite Zmod_mod in H. rewrite H. do 2 f_equal.
  change (2 ^ 8) with (64 * 4). rewrite Z.rem_mul_r by lia.
  rewrite Z.mul_comm, Z_mod_plus_full. apply Zmod_mod.
Qed.

Lemma ascii_to_bin_char c : is_byte c -> base64_ascii_to_bin c = default 0xff (of_char c).
Proof.
  intros Hc. apply Z.eqb_eq, (byte_cases (fun b => base64_ascii_to_bin b =? default 0xff (of_char b)));
    [vm_compute; reflexivity|done].
Qed.

(** The constant-time conversions are table lookups: [conv_bin2ascii] gives the
    character of RFC 4648's alphabet for the low six bits of its argument, and
    [base64_ascii_to_bin] the position of a character in it, zero for the padding
    character and 0xff for every other byte. *)
Lemma base64_constant_time_tables v c :
  is_byte c -> conv_bin2ascii v = to_char v /\ base64_ascii_to_bin c = default 0xff (of_char c).
Proof. intros Hc. split; [apply conv_bin2ascii_char|by apply ascii_to_bin_char]. Qed.

(** A character of the alphabet. *)
Lemma to_char_spec v :
  base64_ascii_to_bin (to_char v) = v mod 64 /\ (to_char v =? 61) = false
  /\ is_whitespace (to_char v) = false.
Proof.
  pose proof (Z.mod_pos_bound v 64 ltac:(lia)) as Hr.
  set (P := fun b => (base64_ascii_to_bin (to_char b) =? b mod 64) && negb (to_char b =? 61)
                     && negb (is_whitespace (to_char b))).
  assert (H : P (v mod 64) = true).
  { apply byte_cases; [vm_compute; reflexivity|unfold is_byte; lia]. }
  unfold P, to_char in *. rewrite Zmod_mod in H.
  apply andb_prop in H as [[H1%Z.eqb_eq H2%negb_true_iff]%andb_prop H3%negb_true_iff]. done.
Qed.

Lemma pad_char : base64_ascii_to_bin 61 = 0.
Proof. vm_compute. reflexivity. Qed.

(** ** Quads *)

(** The word of four six-bit values. *)
Lemma lor_four a b c d :
  0 <= a < 64 -> 0 <= b < 64 -> 0 <= c < 64 -> 0 <= d < 64 ->
  Z.lor (Z.lor (Z.lor (Z.shiftl a 18) (Z.shiftl b 12)) (Z.shiftl c 6)) d
  = a * 2 ^ 18 + b * 2 ^ 12 + c * 2 ^ 6 + d.
Proof.
  intros. rewrite (Z.lor_comm _ d), (Z.lor_comm _ (Z.shiftl c 6)), (Z.lor_comm _ (Z.shiftl b 12)).
  rewrite !Z.shiftl_mul_pow2 by lia.
  rewrite (lor_add (b * 2 ^ 12) (a * 2 ^ 18) 18); [|lia|lia|apply Z_mod_mult].
  rewrite (lor_add (c * 2 ^ 6) _ 12); [|lia|lia|].
  2:{ replace (b * 2 ^ 12 + a * 2 ^ 18) with ((b + a * 2 ^ 6) * 2 ^ 12) by lia. apply Z_mod_mult. }
  rewrite (lor_add d _ 6); [lia|lia|lia|].
  replace (c * 2 ^ 6 + (b * 2 ^ 12 + a * 2 ^ 18)) with ((c + b * 2 ^ 6 + a * 2 ^ 12) * 2 ^ 6) by lia.
  apply Z_mod_mult.
Qed.

Lemma lor_three a b c :
  is_byte a -> is_byte b -> is_byte c ->
  Z.lor (Z.lor (Z.shiftl a 16) (Z.shiftl b 8)) c = a * 65536 + b * 256 + c.
Proof.
  unfold is_byte. intros. rewrite (Z.lor_comm _ c), (Z.lor_comm _ (Z.shiftl b 8)).
  rewrite !Z.shiftl_mul_pow2 by lia.
  rewrite (lor_add (b * 2 ^ 8) (a * 2 ^ 16) 16); [|lia|lia|apply Z_mod_mult].
  rewrite (lor_add c _ 8); [lia|lia|lia|].
  replace (b * 2 ^ 8 + a * 2 ^ 16) with ((b + a * 2 ^ 8) * 2 ^ 8) by lia. apply Z_mod_mult.
Qed.

Lemma byte_not_ff x : (x mod 64 =? 0xff) = false.
Proof. pose proof (Z.mod_pos_bound x 64 ltac:(lia)). lia. Qed.

(** A quad of alphabet characters, with and without padding. *)
Lemma quad_full a b c d :
  base64_decode_quad (to_char a) (to_char b) (to_char c) (to_char d)
  = let v := a mod 64 * 2 ^ 18 + b mod 64 * 2 ^ 12 + c mod 64 * 2 ^ 6 + d mod 64 in
    Some [v / 65536 mod 256; v / 256 mod 256; v mod 256].
Proof.
  unfold base64_decode_quad.
  destruct (to_char_spec a) as (-> & -> & _), (to_char_spec b) as (-> & -> & _),
    (to_char_spec c) as (-> & -> & _), (to_char_spec d) as (-> & -> & _).
  rewrite !byte_not_ff, lor_four by (apply Z.mod_pos_bound; lia). cbv zeta.
  unfold u8. rewrite !Z.shiftr_div_pow2 by lia. reflexivity.
Qed.

Lemma quad_pad1 a b c :
  base64_decode_quad (to_char a) (to_char b) (to_char c) 61
  = let v := a mod 64 * 2 ^ 18 + b mod 64 * 2 ^ 12 + c mod 64 * 2 ^ 6 in
    Some [v / 65536 mod 256; v / 256 mod 256].
Proof.
  unfold base64_decode_quad. rewrite pad_char.
  destruct (to_char_spec a) as (-> & -> & _), (to_char_spec b) as (-> & -> & _),
    (to_char_spec c) as (-> & -> & _).
  rewrite !byte_not_ff, lor_four by (try apply Z.mod_pos_bound; lia). cbv zeta.
  rewrite Z.add_0_r. unfold u8. rewrite !Z.shiftr_div_pow2 by lia. reflexivity.
Qed.

Lemma quad_pad2 a b :
  base64_decode_quad (to_char a) (to_char b) 61 61
  = let v := a mod 64 * 2 ^ 18 + b mod 64 * 2 ^ 12 in Some [v / 65536 mod 256].
Proof.
  unfold base64_decode_quad. rewrite pad_char.
  destruct (to_char_spec a) as (-> & -> & _), (to_char_spec b) as (-> & -> & _).
  rewrite !byte_not_ff, lor_four by (try apply Z.mod_pos_bound; lia). cbv zeta.
  rewrite Z.mul_0_l, !Z.add_0_r. unfold u8. rewrite !Z.shiftr_div_pow2 by lia. reflexivity.
Qed.

(** ** Blocks *)

(** The characters of a block. *)
Definition b64 (src : list Z) : list Z := (encode_loop src).1.

(** Induction three bytes at a time. *)
Lemma triples_ind (P : list Z -> Prop) :
  P [] -> (forall a, P [a]) -> (forall a b, P [a; b]) ->
  (forall a b c l, P l -> P (a :: b :: c :: l)) -> forall l, P l.
Proof.
  intros H0 H1 H2 H3. fix IH 1. intros [|a [|b [|c l]]]; [done..|]. apply H3, IH.
Qed.

(** A quad of the encoder decodes to the bytes it holds. *)
Inductive quad_of : list Z -> list Z -> Prop :=
  | quad_of_3 a b c : is_byte a -> is_byte b -> is_byte c ->
      quad_of [a; b; c] (encode_word (Z.lor (Z.lor (Z.shiftl a 16) (Z.shiftl b 8)) c))
  | quad_of_2 a b : is_byte a -> is_byte b -> quad_of [a; b] (b64 [a; b])
  | quad_of_1 a : is_byte a -> quad_of [a] (b64 [a]).

Lemma quad_of_decode l q :
  quad_of l q ->
  exists q0 q1 q2 q3, q = [q0; q1; q2; q3] /\ base64_decode_quad q0 q1 q2 q3 = Some l
    /\ Forall (fun c => is_whitespace c = false) q.
Proof.
  destruct 1 as [a b c Ha Hb Hc|a b Ha Hb|a Ha].
  - unfold encode_word. rewrite !conv_bin2ascii_char, lor_three by done.
    do 4 eexists. split; [done|]. rewrite quad_full, !Z.shiftr_div_pow2 by lia. unfold is_byte in *.
    split; [|repeat constructor; apply to_char_spec].
    cbv zeta. set (w := a * 65536 + b * 256 + c).
    assert (w / 2 ^ 18 mod 64 * 2 ^ 18 + w / 2 ^ 12 mod 64 * 2 ^ 12 + w / 2 ^ 6 mod 64 * 2 ^ 6 + w mod 64 = w)
      as -> by (unfold w; change (2 ^ 18) with 262144; change (2 ^ 12) with 4096; change (2 ^ 6) with 64; div_lia).
    unfold w. f_equal. f_equal; [div_lia|]. f_equal; [div_lia|]. f_equal. div_lia.
  - unfold b64. cbn [encode_loop fst]. rewrite !conv_bin2ascii_char.
    rewrite <-(Z.lor_0_r (Z.lor _ _)), lor_three by (done || unfold is_byte; lia).
    do 4 eexists. split; [done|]. rewrite quad_pad1, !Z.shiftr_div_pow2 by lia. unfold is_byte in *.
    split; [|repeat constructor; apply to_char_spec].
    cbv zeta. set (w := a * 65536 + b * 256 + 0).
    assert (w / 2 ^ 18 mod 64 * 2 ^ 18 + w / 2 ^ 12 mod 64 * 2 ^ 12 + w / 2 ^ 6 mod 64 * 2 ^ 6 = w)
      as -> by (unfold w; change (2 ^ 18) with 262144; change (2 ^ 12) with 4096; change (2 ^ 6) with 64; div_lia).
    unfold w. f_equal. f_equal; [div_lia|]. f_equal. div_lia.
  - unfold b64. cbn [encode_loop fst]. rewrite !conv_bin2ascii_char.
    do 4 eexists. split; [done|]. rewrite quad_pad2, Z.shiftl_mul_pow2, !Z.shiftr_div_pow2 by lia.
    unfold is_byte in *. split; [|repeat constructor; apply to_char_spec].
    cbv zeta. change (2 ^ 18) with 262144; change (2 ^ 12) with 4096; change (2 ^ 16) with 65536.
    f_equal. f_equal. div_lia.
Qed.

Lemma b64_cons a b c l :
  b64 (a :: b :: c :: l) = encode_word (Z.lor (Z.lor (Z.shiftl a 16) (Z.shiftl b 8)) c) ++ b64 l.
Proof. unfold b64. cbn [encode_loop]. by destruct (encode_loop l). Qed.

(** The number of characters. *)
Lemma length_b64 l : Z.of_nat (length (b64 l)) = (Z.of_nat (length l) + 2) / 3 * 4.
Proof.
  induction l as [| | |a b c l IH] using triples_ind; [done..|].
  rewrite b64_cons, length_app. cbn [length encode_word].
  replace (Z.of_nat (S (S (S (length l)))) + 2) with (Z.of_nat (length l) + 2 + 1 * 3) by lia.
  rewrite Z.div_add by lia. lia.
Qed.

Lemma encode_loop_ret l :
  Z.of_nat (length l) < 2 ^ 62 -> (encode_loop l).2 = Z.of_nat (length (b64 l)).
Proof.
  intros Hl. rewrite length_b64. induction l as [| | |a b c l IH] using triples_ind; [done..|].
  cbn [encode_loop]. cbn [length] in *. specialize (IH ltac:(lia)).
  destruct (encode_loop l) as [dst ret]. cbn [snd] in *. rewrite IH.
  replace (Z.of_nat (S (S (S (length l)))) + 2) with (Z.of_nat (length l) + 2 + 1 * 3) by lia.
  rewrite Z.div_add by lia. rewrite u64_small; div_lia.
Qed.

Lemma EVP_EncodeBlock_spec l :
  Z.of_nat (length l) < 2 ^ 62 -> EVP_EncodeBlock l = (b64 l ++ [0], Z.of_nat (length (b64 l))).
Proof.
  intros Hl. pose proof (encode_loop_ret l Hl) as Hr. unfold EVP_EncodeBlock, b64 in *.
  destruct (encode_loop l) as [dst ret]. cbn [fst snd] in *. by rewrite Hr.
Qed.

(** The quads of a block, one after the other; padding only at the end. *)
Lemma decode_quads_b64 l : forall n,
  bytes l -> 0 <= n -> n + Z.of_nat (length l) < 2 ^ 64 ->
  decode_quads (b64 l) n = (l, Some (n + Z.of_nat (length l))).
Proof.
  induction l as [|a|a b|a b c l IH] using triples_ind; intros n Hb Hn Hlen.
  - cbn. by rewrite Z.add_0_r.
  - apply bytes_cons in Hb as [Ha _].
    destruct (quad_of_decode _ _ (quad_of_1 a Ha)) as (q0 & q1 & q2 & q3 & E & Hq & _). rewrite E.
    cbn [decode_quads length] in *. rewrite Hq. cbn. by rewrite u64_small by lia.
  - apply bytes_cons in Hb as [Ha [Hb _]%bytes_cons].
    destruct (quad_of_decode _ _ (quad_of_2 a b Ha Hb)) as (q0 & q1 & q2 & q3 & E & Hq & _). rewrite E.
    cbn [decode_quads length] in *. rewrite Hq. cbn. by rewrite u64_small by lia.
  - apply bytes_cons in Hb as [Ha [Hb [Hc Hl]%bytes_cons]%bytes_cons].
    destruct (quad_of_decode _ _ (quad_of_3 a b c Ha Hb Hc)) as (q0 & q1 & q2 & q3 & E & Hq & _).
    rewrite b64_cons, E. cbn [app decode_quads length] in *. rewrite Hq.
    change (Z.of_nat (length [a; b; c])) with 3. cbn [Z.eqb Pos.eqb negb andb].
    rewrite u64_small by lia. rewrite IH by (done || lia). cbn [app]. do 2 f_equal. lia.
Qed.

(** C36. Block base64 round trip: of any byte string, [EVP_EncodeBlock] writes the
    number of characters it returns and a NUL, which is the number
    [EVP_EncodedLength] announces, and [EVP_DecodeBase64] of those characters gives
    the string back into any buffer of three quarters of their number. *)
Theorem base64_block_roundtrip src max_out :
  bytes src -> Z.of_nat (length src) < 2 ^ 62 ->
  (Z.of_nat (length src) + 2) / 3 * 3 <= max_out ->
  let '(dst, n) := EVP_EncodeBlock src in
  Z.of_nat (length dst) = n + 1 /\ last dst = Some 0
  /\ EVP_EncodedLength (Z.of_nat (length src)) = Some (n + 1)
  /\ EVP_DecodeBase64 max_out (take (Z.to_nat n) dst) = (src, Some (Z.of_nat (length src))).
Proof.
  intros Hb Hlen Hmax. rewrite EVP_EncodeBlock_spec by done.
  rewrite length_app, Nat2Z.id, take_app_length.
  assert (Hn : Z.of_nat (length (b64 src)) = (Z.of_nat (length src) + 2) / 3 * 4) by apply length_b64.
  split_and!; [simpl; lia|by rewrite last_snoc| |].
  - unfold EVP_EncodedLength. rewrite (u64_small (Z.of_nat (length src) + 2)) by lia. cbv zeta.
    destruct (Z.ltb_spec (Z.of_nat (length src) + 2) (Z.of_nat (length src))); [lia|].
    rewrite Z.shiftl_mul_pow2 by lia. change (2 ^ 2) with 4. rewrite <-Hn.
    rewrite (u64_small (Z.of_nat (length (b64 src)))) by div_lia.
    rewrite Z.shiftr_div_pow2 by lia. change (2 ^ 2) with 4. rewrite Hn at 1.
    rewrite Z.div_mul by lia. rewrite Z.eqb_refl. cbn [negb].
    rewrite u64_small by div_lia.
    destruct (Z.ltb_spec (Z.of_nat (length (b64 src)) + 1) (Z.of_nat (length (b64 src)))); [lia|done].
  - unfold EVP_DecodeBase64, EVP_DecodedLength. rewrite Hn. rewrite Z_mod_mult, Z.div_mul by lia.
    cbn [Z.eqb negb]. rewrite u64_small by div_lia.
    destruct (Z.ltb_spec max_out ((Z.of_nat (length src) + 2) / 3 * 3)); [lia|].
    rewrite decode_quads_b64 by (done || lia). done.
Qed.

Lemma base64_block_roundtrip_witness :
  let src := [0; 255; 16; 32; 77] in
  bytes src /\
  let '(dst, n) := EVP_EncodeBlock src in
  Z.of_nat (length dst) = n + 1 /\ last dst = Some 0
  /\ EVP_EncodedLength (Z.of_nat (length src)) = Some (n + 1)
  /\ EVP_DecodeBase64 6 (take (Z.to_nat n) dst) = (src, Some (Z.of_nat (length src))).
Proof.
  assert (Hb : bytes [0; 255; 16; 32; 77]) by (repeat constructor; unfold is_byte; lia).
  split; [exact Hb|]. apply (base64_block_roundtrip [0; 255; 16; 32; 77] 6 Hb); [done|].
  vm_compute. discriminate.
Defined.
