(* ===== verification/Base64Stream.v ===== *)
(** * BoringSSL: base64 in pieces

    The streaming encoder and decoder keep state between calls. Both are shown to be
    independent of how their input is cut: the encoder writes the lines of the whole
    input, and the decoder computes a function of the whole text. *)
From S2P Require Export Base64Spec.

(** ** The text of a byte string: lines of 48 bytes *)

Fixpoint pem_lines (fuel : nat) (l : list Z) : list Z :=
  match fuel, l with
  | S fuel, _ :: _ => b64 (take 48 l) ++ [10] ++ pem_lines fuel (drop 48 l)
  | _, _ => []
  end.
Definition pem (l : list Z) : list Z := pem_lines (length l) l.

Lemma pem_lines_fuel n : forall l m,
  (length l <= n)%nat -> (n <= m)%nat -> pem_lines m l = pem_lines n l.
Proof.
  induction n as [|n IH]; intros [|b l] m Hl Hm; try (simpl in Hl; lia); [by destruct m..|].
  destruct m as [|m]; [lia|]. cbn [pem_lines].
  rewrite (IH (drop 48 (b :: l)) m); [done| |lia]. rewrite length_drop. simpl in *. lia.
Qed.

Lemma pem_line b l : length b = 48%nat -> pem (b ++ l) = b64 b ++ [10] ++ pem l.
Proof.
  intros Hb. unfold pem. destruct b as [|x b]; [done|]. rewrite length_app, Hb.
  change (48 + length l)%nat with (S (47 + length l)). cbn [app].
  cbn [pem_lines]. rewrite (take_app_length' (x :: b) l), (drop_app_length' (x :: b) l) by done.
  rewrite (pem_lines_fuel (length l)); [done|lia|lia].
Qed.

Lemma pem_last l : l <> [] -> (length l <= 48)%nat -> pem l = b64 l ++ [10].
Proof.
  intros Hl Hn. unfold pem. destruct l as [|x l]; [done|]. cbn [length pem_lines].
  rewrite take_ge, drop_ge by done. by destruct (length l).
Qed.

(** ** The encoder *)

Lemma encode_line_spec l :
  Z.of_nat (length l) < 2 ^ 62 ->
  encode_line l = (b64 l ++ [10], Z.of_nat (length (b64 l ++ [10]))).
Proof.
  intros Hl. unfold encode_line. rewrite EVP_EncodeBlock_spec by done.
  rewrite Nat2Z.id, take_app_length, length_app. f_equal. simpl. lia.
Qed.

Lemma length_line l : length l = 48%nat -> length (b64 l ++ [10]) = 65%nat.
Proof.
  intros Hl. pose proof (length_b64 l) as H. rewrite Hl in H. change ((Z.of_nat 48 + 2) / 3 * 4) with 64 in H.
  rewrite length_app. simpl. lia.
Qed.

Lemma encode_lines_spec fuel : forall input total,
  (length input <= fuel)%nat -> 0 <= total -> total + 2 * Z.of_nat (length input) < 2 ^ 62 ->
  exists out rest,
    encode_lines fuel input total = (out, Some (total + Z.of_nat (length out), rest))
    /\ (length rest < 48)%nat /\ (length out <= 2 * length input)%nat
    /\ forall more, pem (input ++ more) = out ++ pem (rest ++ more).
Proof.
  induction fuel as [|fuel IH]; intros input total Hlen Ht Hmax; cbn [encode_lines]; unfold sizeof_data in *;
    destruct (Z.ltb_spec (Z.of_nat (length input)) 48).
  1, 3: exists [], input; cbn [length app]; rewrite Z.add_0_r; split_and!; [done|lia|lia|done].
  { lia. }
  assert (Hl48 : length (take 48 input) = 48%nat) by (rewrite length_take; lia).
  rewrite encode_line_spec by lia. rewrite length_line by done. change (Z.of_nat 65) with 65.
  rewrite u64_small by lia. destruct (Z.ltb_spec (total + 65) total); [lia|].
  assert (Hd : length (drop 48 input) = (length input - 48)%nat) by apply length_drop.
  destruct (IH (drop 48 input) (total + 65)) as (out & rest & -> & Hrest & Hout & Hp); [lia..|].
  exists ((b64 (take 48 input) ++ [10]) ++ out), rest. split_and!.
  - do 3 f_equal. rewrite length_app, length_line by done. lia.
  - done.
  - rewrite length_app, length_line by done. lia.
  - intros more. rewrite <-(take_drop 48 input) at 1. rewrite <-app_assoc, pem_line by done.
    rewrite Hp. by rewrite <-!app_assoc.
Qed.

Lemma list_inserts_splice l : forall i (k : list Z),
  (i + length l <= length k)%nat ->
  list_inserts i l k = take i k ++ l ++ drop (i + length l) k.
Proof.
  induction l as [|x l IH]; intros i k Hi; cbn [list_inserts length app] in *.
  - by rewrite Nat.add_0_r, take_drop.
  - rewrite IH by lia. replace (S i + length l)%nat with (i + S (length l))%nat by lia.
    destruct (lookup_lt_is_Some_2 k i ltac:(lia)) as [y Hy].
    rewrite (take_S_r _ _ _ Hy), <-app_assoc. cbn [app].
    rewrite insert_app_r_alt by (rewrite length_take; lia).
    rewrite length_take, Nat.min_l, Nat.sub_diag by lia. done.
Qed.

(** The bytes the context holds. *)
Definition pending (ctx : EVP_ENCODE_CTX) : list Z := take (Z.to_nat (data_used ctx)) (data ctx).
Definition ctx_ok (ctx : EVP_ENCODE_CTX) : Prop :=
  length (data ctx) = 48%nat /\ 0 <= data_used ctx < 48.

Lemma ctx_store_spec ctx l n :
  ctx_ok ctx -> data_used ctx + Z.of_nat (length l) <= 48 ->
  length (data (ctx_store ctx l n)) = 48%nat
  /\ take (Z.to_nat (data_used ctx + Z.of_nat (length l))) (data (ctx_store ctx l n)) = pending ctx ++ l.
Proof.
  intros [Hd Hu] Hl. unfold ctx_store, pending. cbn [data].
  rewrite list_inserts_splice by lia. split.
  - rewrite !length_app, length_take, length_drop. lia.
  - rewrite app_assoc. apply take_app_length'. rewrite length_app, length_take. lia.
Qed.

Lemma EVP_EncodeUpdate_spec ctx input :
  ctx_ok ctx -> Z.of_nat (length input) < 2 ^ 29 ->
  exists ctx' out,
    EVP_EncodeUpdate ctx input = (ctx', out, Z.of_nat (length out)) /\ ctx_ok ctx'
    /\ forall more, pem (pending ctx ++ input ++ more) = out ++ pem (pending ctx' ++ more).
Proof.
  intros Hok Hlen. pose proof Hok as [Hd Hu]. unfold EVP_EncodeUpdate, sizeof_data.
  destruct (Z.eqb_spec (Z.of_nat (length input)) 0).
  { exists ctx, []. destruct input; [done|simpl in *; lia]. }
  rewrite (u64_small (48 - _)) by lia.
  destruct (Z.ltb_spec (Z.of_nat (length input)) (48 - data_used ctx)).
  { rewrite u32_small by lia.
    destruct (ctx_store_spec ctx input (data_used ctx + Z.of_nat (length input)) Hok ltac:(lia)) as [H1 H2].
    eexists _, []. split; [done|]. split; [by split; [|cbn [data_used ctx_store]; lia]|].
    intros more. unfold pending at 2. cbn [data_used ctx_store] in *. rewrite H2. by rewrite <-app_assoc. }
  assert (Hfirst : exists ctx1 out1 input1,
    (if negb (data_used ctx =? 0) then
       let '(line, n) := encode_line
         (data (ctx_store ctx (take (Z.to_nat (48 - data_used ctx)) input) (data_used ctx))) in
       (set_used (ctx_store ctx (take (Z.to_nat (48 - data_used ctx)) input) (data_used ctx)) 0,
        line, n, drop (Z.to_nat (48 - data_used ctx)) input)
     else (ctx, [], 0, input)) = (ctx1, out1, Z.of_nat (length out1), input1)
    /\ length (data ctx1) = 48%nat /\ (length out1 <= 65)%nat /\ (length input1 <= length input)%nat
    /\ forall more, pem (pending ctx ++ input ++ more) = out1 ++ pem (input1 ++ more)).
  { destruct (Z.eqb_spec (data_used ctx) 0) as [E|]; cbn [negb].
    - exists ctx, [], input. split_and!; try done; [cbn; lia|]. intros more. unfold pending. by rewrite E.
    - set (todo := Z.to_nat (48 - data_used ctx)).
      assert (Ht : length (take todo input) = todo) by (rewrite length_take; lia).
      destruct (ctx_store_spec ctx (take todo input) (data_used ctx) Hok ltac:(lia)) as [H1 H2].
      rewrite take_ge in H2 by lia.
      rewrite encode_line_spec by lia. pose proof (length_line _ H1) as Hll.
      eexists _, _, _. split; [done|]. cbn [data set_used]. split_and!; [done|lia|rewrite length_drop; lia|].
      intros more. rewrite <-(take_drop todo input) at 1.
      rewrite <-app_assoc, app_assoc, <-H2, pem_line by done. by rewrite <-app_assoc. }
  destruct Hfirst as (ctx1 & out1 & input1 & -> & Hd1 & Ho1 & Hi1 & Hp1).
  destruct (encode_lines_spec (length input1) input1 (Z.of_nat (length out1)))
    as (out2 & rest & -> & Hrest & Hout & Hp2); [lia..|].
  eexists _, (out1 ++ out2). rewrite length_app.
  destruct (Z.ltb_spec INT_MAX (Z.of_nat (length out1) + Z.of_nat (length out2)));
    [unfold INT_MAX in *; lia|]. rewrite Nat2Z.inj_add. split; [done|].
  rewrite u32_small by lia. split.
  - split; cbn [data data_used]; [|lia]. rewrite length_inserts. done.
  - intros more. rewrite Hp1, Hp2. unfold pending. cbn [data data_used].
    rewrite Nat2Z.id, list_inserts_splice by lia. rewrite take_0, app_nil_l. by rewrite take_app_length, <-app_assoc.
Qed.

Lemma EVP_EncodeFinal_spec ctx :
  ctx_ok ctx ->
  exists ctx', EVP_EncodeFinal ctx = (ctx', pem (pending ctx), Z.of_nat (length (pem (pending ctx))))
    /\ data_used ctx' = 0.
Proof.
  intros [Hd Hu]. unfold EVP_EncodeFinal. destruct (Z.eqb_spec (data_used ctx) 0) as [E|].
  { exists ctx. unfold pending. by rewrite E. }
  fold (pending ctx). assert (Hl : length (pending ctx) = Z.to_nat (data_used ctx))
    by (unfold pending; rewrite length_take; lia).
  rewrite encode_line_spec by lia. rewrite pem_last; [by eexists| |lia].
  intros E. rewrite E in Hl. simpl in Hl. lia.
Qed.

(** A caller that gives the input in [chunks] and collects as many bytes as each call
    reports. *)
Fixpoint encode_stream (ctx : EVP_ENCODE_CTX) (chunks : list (list Z)) : list Z :=
  match chunks with
  | [] => let '(_, out, n) := EVP_EncodeFinal ctx in take (Z.to_nat n) out
  | c :: chunks =>
    let '(ctx, out, n) := EVP_EncodeUpdate ctx c in
    take (Z.to_nat n) out ++ encode_stream ctx chunks
  end.

Lemma encode_stream_spec chunks : forall ctx,
  ctx_ok ctx -> Forall (fun c => Z.of_nat (length c) < 2 ^ 29) chunks ->
  encode_stream ctx chunks = pem (pending ctx ++ concat chunks).
Proof.
  induction chunks as [|c chunks IH]; intros ctx Hok Hc; cbn [encode_stream concat].
  - destruct (EVP_EncodeFinal_spec ctx Hok) as (ctx' & -> & _).
    by rewrite Nat2Z.id, firstn_all, app_nil_r.
  - apply Forall_cons in Hc as [Hc Hcs].
    destruct (EVP_EncodeUpdate_spec ctx c Hok Hc) as (ctx' & out & -> & Hok' & Hp).
    by rewrite Nat2Z.id, firstn_all, IH, Hp.
Qed.

Lemma init_ok : ctx_ok EVP_EncodeInit.
Proof. by split. Qed.

(** The streaming encoder does not depend on the cutting of its input: however the
    input is cut into calls of [EVP_EncodeUpdate], the bytes the calls and
    [EVP_EncodeFinal] report are the lines of the whole input, 48 bytes to a line. *)
Lemma base64_encode_stream chunks :
  Forall (fun c => Z.of_nat (length c) < 2 ^ 29) chunks ->
  encode_stream EVP_EncodeInit chunks = pem (concat chunks).
Proof. intros Hc. by rewrite encode_stream_spec by (done || apply init_ok). Qed.

(** ** The decoder *)

(** The decoder as a function of the whole text, from the characters [q] of an
    unfinished quad and the mark [eof] of an earlier padded one: white space is
    skipped, quads are decoded, and after a padded quad there is only white space. *)
Fixpoint decode_text (q : list Z) (eof : bool) (text : list Z) : option (list Z) :=
  match text with
  | [] => match q with [] => Some [] | _ => None end
  | c :: text =>
    if is_whitespace c then decode_text q eof text
    else if eof then None
    else match q with
    | [i0; i1; i2] =>
      match base64_decode_quad i0 i1 i2 c with
      | None => None
      | Some bytes => app bytes <$> decode_text [] (Z.of_nat (length bytes) <? 3) text
      end
    | _ => decode_text (q ++ [c]) false text
    end
  end.

(** The context that holds [q] and [eof]. *)
Definition holds (ctx : EVP_ENCODE_CTX) (q : list Z) (eof : bool) : Prop :=
  length (data ctx) = 48%nat /\ data_used ctx = Z.of_nat (length q) /\ (length q < 4)%nat
  /\ pending ctx = q /\ eof_seen ctx = eof /\ error_encountered ctx = false.

Lemma quad_length i0 i1 i2 i3 l :
  base64_decode_quad i0 i1 i2 i3 = Some l -> (1 <= length l <= 3)%nat.
Proof.
  unfold base64_decode_quad. destruct (_ || _); [done|]. cbv zeta.
  repeat case_match; try done; intros [= <-]; simpl; lia.
Qed.

(** Storing the next character. *)
Lemma holds_store ctx q eof c :
  holds ctx q eof ->
  let ctx' := ctx_store ctx [c] (u32 (data_used ctx + 1)) in
  data_used ctx' = Z.of_nat (length (q ++ [c])) /\ length (data ctx') = 48%nat
  /\ take (length (q ++ [c])) (data ctx') = q ++ [c]
  /\ eof_seen ctx' = eof /\ error_encountered ctx' = false.
Proof.
  intros (Hd & Hu & Hq & Hp & He & Hr). cbv zeta.
  destruct (ctx_store_spec ctx [c] (u32 (data_used ctx + 1))) as [H1 H2];
    [split; [done|lia]|cbn [length]; lia|].
  rewrite Hp, Hu in H2. rewrite length_app. cbn [length] in *.
  replace (Z.to_nat (Z.of_nat (length q) + Z.of_nat 1)) with (length q + 1)%nat in H2 by lia.
  split_and!; try done. cbn [data_used ctx_store]. rewrite u32_small by lia. lia.
Qed.

Lemma decode_loop_spec input : forall ctx q eof n,
  holds ctx q eof -> 0 <= n -> n + 3 * Z.of_nat (length q + length input) < 2 ^ 40 ->
  match decode_loop ctx input n with
  | (ctx', out, Some n') =>
    n' = n + Z.of_nat (length out)
    /\ exists q' eof', holds ctx' q' eof'
       /\ (4 * length out + 3 * length q' <= 3 * (length q + length input))%nat
       /\ forall t, decode_text q eof (input ++ t) = app out <$> decode_text q' eof' t
  | (_, _, None) => forall t, decode_text q eof (input ++ t) = None
  end.
Proof.
  induction input as [|c input IH]; intros ctx q eof n Hh Hn Hmax; cbn [decode_loop app].
  { split; [cbn; lia|]. exists q, eof. split_and!; [done|cbn; lia|].
    intros t. destruct (decode_text q eof t); done. }
  cbn [length decode_text] in *. destruct (is_whitespace c).
  { specialize (IH ctx q eof n Hh Hn ltac:(lia)).
    destruct (decode_loop ctx input n) as [[ctx' out] [n'|]]; [|done].
    destruct IH as (-> & q' & eof' & Hh' & Hl & Ht). split; [done|]. exists q', eof'.
    split_and!; [done|lia|done]. }
  pose proof Hh as (_ & _ & Hq4 & _ & -> & _). destruct eof; [done|].
  pose proof (holds_store ctx q false c Hh) as (Hu & Hd & Hp & He & Hr). cbv zeta in *.
  set (ctx1 := ctx_store ctx [c] _) in *. rewrite Hu.
  destruct (Z.eqb_spec (Z.of_nat (length (q ++ [c]))) 4) as [E4|E4].
  - destruct q as [|i0 [|i1 [|i2 [|]]]]; try (simpl in E4, Hq4; lia). cbn [app length] in Hp.
    assert (Hnth : forall k, (k < 4)%nat -> nth k (data ctx1) 0 = nth k [i0; i1; i2; c] 0).
    { intros k Hk. rewrite <-Hp. rewrite <-(take_drop 4 (data ctx1)) at 1.
      rewrite app_nth1; [done|]. rewrite length_take. lia. }
    rewrite !Hnth by lia. cbn [nth].
    destruct (base64_decode_quad i0 i1 i2 c) as [bytes|] eqn:Eq; [|done].
    apply quad_length in Eq. rewrite u64_small by lia.
    set (eof' := Z.of_nat (length bytes) <? 3).
    assert (Hh' : holds (mk_ctx 0 (data ctx1) (if eof' then true else eof_seen ctx1) (error_encountered ctx1))
                    [] eof').
    { split_and!; try done; [simpl; lia|]. cbn [eof_seen]. rewrite He. by destruct eof'. }
    specialize (IH _ [] eof' (n + Z.of_nat (length bytes)) Hh' ltac:(lia)). cbn [length] in *.
    specialize (IH ltac:(lia)).
    destruct (decode_loop _ input _) as [[ctx' out] [n'|]].
    + destruct IH as (-> & q' & eof'' & Hh2 & Hl & Ht). rewrite length_app. split; [lia|].
      exists q', eof''. split_and!; [done|lia|]. intros t. rewrite Ht.
      destruct (decode_text q' eof'' t); [|done]. cbn. by rewrite app_assoc.
    + intros t. by rewrite IH.
  - assert (Hl4 : (length (q ++ [c]) < 4)%nat) by (rewrite length_app in *; simpl in *; lia).
    assert (Hh' : holds ctx1 (q ++ [c]) false).
    { split_and!; try done. unfold pending. rewrite Hu, Nat2Z.id. done. }
    specialize (IH ctx1 (q ++ [c]) false n Hh' Hn ltac:(rewrite length_app; simpl; lia)).
    assert (Hstep : forall t, match q with
      | [i0; i1; i2] => match base64_decode_quad i0 i1 i2 c with
         | Some bytes => app bytes <$> decode_text [] (Z.of_nat (length bytes) <? 3) t
         | None => None end
      | _ => decode_text (q ++ [c]) false t end = decode_text (q ++ [c]) false t).
    { intros t. destruct q as [|? [|? [|? [|]]]]; done. }
    destruct (decode_loop ctx1 input n) as [[ctx' out] [n'|]].
    + destruct IH as (-> & q' & eof' & Hh2 & Hl & Ht). split; [done|]. exists q', eof'.
      rewrite length_app in Hl. split_and!; [done|simpl in Hl; lia|].
      intros t. rewrite Hstep. apply Ht.
    + intros t. rewrite Hstep. apply IH.
Qed.

Lemma EVP_DecodeUpdate_spec ctx q eof input :
  holds ctx q eof -> Z.of_nat (length input) < 2 ^ 31 ->
  match EVP_DecodeUpdate ctx input with
  | (ctx', out, n, r) =>
    (r = -1 /\ n = 0 /\ forall t, decode_text q eof (input ++ t) = None)
    \/ exists q' eof', (r = 0 \/ r = 1) /\ n = Z.of_nat (length out) /\ holds ctx' q' eof'
        /\ forall t, decode_text q eof (input ++ t) = app out <$> decode_text q' eof' t
  end.
Proof.
  intros Hh Hlen. pose proof Hh as (_ & _ & Hq & _ & _ & Hr). unfold EVP_DecodeUpdate. rewrite Hr.
  pose proof (decode_loop_spec input ctx q eof 0 Hh ltac:(lia) ltac:(lia)) as H.
  destruct (decode_loop ctx input 0) as [[ctx' out] [n'|]]; [|by left].
  destruct H as (-> & q' & eof' & Hh' & Hl & Ht).
  destruct (Z.ltb_spec INT_MAX (0 + Z.of_nat (length out))); [unfold INT_MAX in *; lia|].
  right. exists q', eof'. split_and!; [destruct (eof_seen ctx'); tauto|done|done|done].
Qed.

(** A caller that gives the text in [chunks], collects as many bytes as each call
    reports, and stops at the first error. *)
Fixpoint decode_stream (ctx : EVP_ENCODE_CTX) (chunks : list (list Z)) : option (list Z) :=
  match chunks with
  | [] => if (EVP_DecodeFinal ctx).2 =? 1 then Some [] else None
  | c :: chunks =>
    let '(ctx, out, n, r) := EVP_DecodeUpdate ctx c in
    if r =? -1 then None else app (take (Z.to_nat n) out) <$> decode_stream ctx chunks
  end.

Lemma decode_stream_spec chunks : forall ctx q eof,
  holds ctx q eof -> Forall (fun c => Z.of_nat (length c) < 2 ^ 31) chunks ->
  decode_stream ctx chunks = decode_text q eof (concat chunks).
Proof.
  induction chunks as [|c chunks IH]; intros ctx q eof Hh Hc; cbn [decode_stream concat].
  - destruct Hh as (_ & Hu & _ & _ & _ & Hr). unfold EVP_DecodeFinal. rewrite Hr, Hu.
    by destruct q.
  - apply Forall_cons in Hc as [Hc Hcs]. pose proof (EVP_DecodeUpdate_spec ctx q eof c Hh Hc) as H.
    destruct (EVP_DecodeUpdate ctx c) as [[[ctx' out] n] r].
    destruct H as [(-> & _ & Ht)|(q' & eof' & Hr & -> & Hh' & Ht)].
    + by rewrite Ht.
    + rewrite Ht, Nat2Z.id, firstn_all. destruct Hr as [-> | ->]; cbn [Z.eqb]; by rewrite (IH ctx' q' eof').
Qed.

Lemma init_holds : holds EVP_DecodeInit [] false.
Proof. split_and!; (done || simpl; lia). Qed.

(** C27. The streaming decoder does not depend on the cutting of its input, whatever
    the input: however a text is cut into calls of [EVP_DecodeUpdate], what the calls
    report and whether one of them or [EVP_DecodeFinal] fails is [decode_text] of the
    whole text. *)
Theorem base64_decode_stream chunks :
  Forall (fun c => Z.of_nat (length c) < 2 ^ 31) chunks ->
  decode_stream EVP_DecodeInit chunks = decode_text [] false (concat chunks).
Proof. intros Hc. by rewrite (decode_stream_spec _ _ _ _ init_holds Hc). Qed.

Lemma base64_decode_stream_witness :
  decode_stream EVP_DecodeInit [[84; 87]; [70; 10; 117; 84]; [81; 61; 61; 10]]
  = decode_text [] false [84; 87; 70; 10; 117; 84; 81; 61; 61; 10].
Proof.
  apply (base64_decode_stream [[84; 87]; [70; 10; 117; 84]; [81; 61; 61; 10]]). repeat constructor.
Defined.

(** ** Both *)

Lemma decode_text_quad l q t :
  quad_of l q -> decode_text [] false (q ++ t) = app l <$> decode_text [] (Z.of_nat (length l) <? 3) t.
Proof.
  intros (q0 & q1 & q2 & q3 & -> & Hq & Hws)%quad_of_decode.
  apply Forall_cons in Hws as [H0 [H1 [H2 [H3 _]%Forall_cons]%Forall_cons]%Forall_cons].
  cbn [app decode_text]. by rewrite H0, H1, H2, H3, Hq.
Qed.

Lemma fmap_app_app (l1 l2 : list Z) (o : option (list Z)) : app l1 <$> (app l2 <$> o) = app (l1 ++ l2) <$> o.
Proof. destruct o; cbn; [by rewrite app_assoc|done]. Qed.

Lemma decode_text_b64 l t :
  bytes l ->
  decode_text [] false (b64 l ++ t)
  = app l <$> decode_text [] (negb (Z.of_nat (length l) mod 3 =? 0)) t.
Proof.
  induction l as [|a|a b|a b c l IH] using triples_ind; intros Hb.
  - change (b64 [] ++ t) with t. change (negb (Z.of_nat (length []) mod 3 =? 0)) with false.
    by destruct (decode_text [] false t).
  - apply bytes_cons in Hb as [Ha _]. by rewrite (decode_text_quad [a] (b64 [a]) t (quad_of_1 a Ha)).
  - apply bytes_cons in Hb as [Ha [Hb _]%bytes_cons]. by rewrite (decode_text_quad [a; b] (b64 [a; b]) t (quad_of_2 a b Ha Hb)).
  - apply bytes_cons in Hb as [Ha [Hb [Hc Hl]%bytes_cons]%bytes_cons].
    rewrite b64_cons, <-app_assoc, (decode_text_quad [a; b; c] _ _ (quad_of_3 a b c Ha Hb Hc)).
    change (Z.of_nat (length [a; b; c]) <? 3) with false. rewrite IH by done.
    rewrite fmap_app_app. cbn [app length].
    replace (Z.of_nat (S (S (S (length l))))) with (Z.of_nat (length l) + 1 * 3) by lia.
    by rewrite Z_mod_plus_full.
Qed.

Lemma decode_text_pem n : forall l,
  (length l <= n)%nat -> bytes l -> decode_text [] false (pem_lines n l) = Some l.
Proof.
  induction n as [|n IH]; intros [|b l] Hn Hb; try done; [simpl in Hn; lia|].
  cbn [pem_lines]. rewrite <-(take_drop 48 (b :: l)) in Hb. apply bytes_app in Hb as [H1 H2].
  rewrite decode_text_b64 by done. cbn [app]. cbn [decode_text]. cbn [is_whitespace].
  change (is_whitespace 10) with true. cbv iota.
  destruct (Nat.le_gt_cases 48 (length (b :: l))).
  - rewrite length_take, Nat.min_l by done. change (negb (Z.of_nat 48 mod 3 =? 0)) with false.
    rewrite IH; [|rewrite length_drop; simpl in *; lia|done]. cbn [fmap option_fmap option_map].
    by rewrite take_drop.
  - rewrite take_ge, drop_ge by lia. destruct n; cbn [pem_lines decode_text fmap option_fmap option_map];
      by rewrite app_nil_r.
Qed.

(** What the streaming encoder writes for any byte string, in pieces cut in any way,
    the streaming decoder reads back, in pieces cut in any other way. *)
Lemma base64_stream_roundtrip inputs texts :
  Forall (fun c => Z.of_nat (length c) < 2 ^ 29) inputs ->
  Forall (fun c => Z.of_nat (length c) < 2 ^ 31) texts ->
  bytes (concat inputs) -> concat texts = encode_stream EVP_EncodeInit inputs ->
  decode_stream EVP_DecodeInit texts = Some (concat inputs).
Proof.
  intros Hi Ht Hb E. rewrite (decode_stream_spec _ _ _ _ init_holds Ht), E.
  rewrite (encode_stream_spec _ _ init_ok Hi). by apply decode_text_pem.
Qed.
