(* ===== verification/Partial.v ===== *)
(** * Stateful functions that can go wrong

    The shape of the functions on linked structures and ring buffers: an explicit
    state, and no result when the code would read freed memory, index out of
    range or fail an assertion. A theorem that such a function gives a result
    therefore says that it does none of these. *)
From S2P Require Export Prelude.

Definition part (St A : Type) : Type := St -> option (A * St).

#[global] Instance part_ret St : MRet (part St) := fun A a s => Some (a, s).
#[global] Instance part_bind St : MBind (part St) := fun A B k m s =>
  match m s with
  | Some (a, s') => k a s'
  | None => None
  end.

(** Undefined behaviour. *)
Definition wrong {St A} : part St A := fun _ => None.
Definition get_st {St} : part St St := fun s => Some (s, s).
Definition put_st {St} (s' : St) : part St unit := fun _ => Some (tt, s').
Definition gets {St A} (f : St -> A) : part St A := fun s => Some (f s, s).
Definition modify {St} (f : St -> St) : part St unit := fun s => Some (tt, f s).
Definition of_opt {St A} (o : option A) : part St A := fun s =>
  match o with Some a => Some (a, s) | None => None end.

(** [assert(b)] *)
Definition c_assert {St} (b : bool) : part St unit := if b then mret tt else wrong.

Lemma part_bind_some {St A B} (m : part St A) (k : A -> part St B) s a s' :
  m s = Some (a, s') -> (m ≫= k) s = k a s'.
Proof. intros H. unfold mbind, part_bind. by rewrite H. Qed.

Lemma part_bind_inv {St A B} (m : part St A) (k : A -> part St B) s r :
  (m ≫= k) s = Some r -> exists a s', m s = Some (a, s') /\ k a s' = Some r.
Proof. unfold mbind, part_bind. destruct (m s) as [[a s']|]; [eauto|done]. Qed.

(** Step through a call whose result is known. *)
Ltac pstep H := erewrite part_bind_some by (solve [exact H | by apply H | eapply H; eauto]).

(** ** Addresses

    Objects are at nonzero addresses. *)
Definition NULL : Z := 0.

(** An allocator, for examples: addresses grow. *)
Definition top_address (l : list Z) : Z := foldr Z.max 0 l.
Definition bump {A} (h : gmap Z A) : Z := 1 + top_address (map_to_list h).*1.

Lemma top_address_le l p : p ∈ l -> p <= top_address l.
Proof.
  induction l as [|x l IH]; [by intros ?%elem_of_nil|]. intros [-> | Hp]%elem_of_cons; cbn [top_address foldr].
  - lia.
  - apply IH in Hp. unfold top_address in *. lia.
Qed.

Lemma top_address_nonneg l : 0 <= top_address l.
Proof. induction l; cbn [top_address foldr]; unfold top_address in *; lia. Qed.

Lemma bump_fresh {A} (h : gmap Z A) : bump h <> NULL /\ h !! bump h = None.
Proof.
  unfold bump, NULL. pose proof (top_address_nonneg (map_to_list h).*1). split; [lia|].
  destruct (h !! _) as [it|] eqn:E; [|done]. exfalso. apply elem_of_map_to_list in E.
  assert (Hin : 1 + top_address (map_to_list h).*1 ∈ (map_to_list h).*1).
  { apply list_elem_of_fmap. by eexists (_, _). }
  apply top_address_le in Hin. lia.
Qed.
