(* ===== verification/Lhash.v ===== *)
(** * BoringSSL: the chained hash table (crypto/lhash/lhash.c)

    The table is an array of pointers to chains of [LHASH_ITEM] objects in a heap.
    Pointers are integers with [NULL] as 0; a pointer to a pointer is a [slot],
    either an element of the array or the [next] field of an item. The heap holds
    the items allocated and not yet freed: reading any other pointer has no
    result. The elements of the table are opaque pointers ([void *]). *)
From S2P Require Export Partial.

(** [kMinNumBuckets], [kMaxAverageChainLength], [kMinAverageChainLength] *)
Definition kMinNumBuckets : Z := 16.
Definition kMaxAverageChainLength : Z := 2.
Definition kMinAverageChainLength : Z := 1.

Record LHASH_ITEM := mk_item { data : Z; next : Z; hash : Z }.

Definition lhash_cmp_func : Type := Z -> Z -> Z.
Definition lhash_hash_func : Type := Z -> Z.
Definition lhash_cmp_func_helper : Type := lhash_cmp_func -> Z -> Z -> Z.
Definition lhash_hash_func_helper : Type := lhash_hash_func -> Z -> Z.

Record lhash_st := mk_lhash {
  num_items : Z; buckets : list Z; num_buckets : Z; callback_depth : Z;
  comp : lhash_cmp_func; hash_func : lhash_hash_func
}.

(** The table, its items, and the outcomes of the coming allocations: [true] when
    one fails. *)
Record lh_world := mk_lh_world { lh : lhash_st; items : gmap Z LHASH_ITEM; lh_oom : list bool }.

Notation lhM := (part lh_world).

Inductive slot := Bucket (i : Z) | Next (p : Z).

Definition set_items (h : gmap Z LHASH_ITEM) (w : lh_world) : lh_world :=
  mk_lh_world (lh w) h (lh_oom w).
Definition set_lh (t : lhash_st) (w : lh_world) : lh_world :=
  mk_lh_world t (items w) (lh_oom w).
Definition set_buckets (bs : list Z) (w : lh_world) : lh_world :=
  set_lh (mk_lhash (num_items (lh w)) bs (num_buckets (lh w)) (callback_depth (lh w))
            (comp (lh w)) (hash_func (lh w))) w.
Definition set_num_items (n : Z) (w : lh_world) : lh_world :=
  set_lh (mk_lhash n (buckets (lh w)) (num_buckets (lh w)) (callback_depth (lh w))
            (comp (lh w)) (hash_func (lh w))) w.
Definition set_depth (n : Z) (w : lh_world) : lh_world :=
  set_lh (mk_lhash (num_items (lh w)) (buckets (lh w)) (num_buckets (lh w)) n
            (comp (lh w)) (hash_func (lh w))) w.

Definition load_item (p : Z) : lhM LHASH_ITEM := fun w =>
  match items w !! p with Some it => Some (it, w) | None => None end.
Definition store_item (p : Z) (it : LHASH_ITEM) : lhM unit := fun w =>
  match items w !! p with
  | Some _ => Some (tt, set_items (<[p := it]> (items w)) w)
  | None => None
  end.

(** [*ret] and [*ret = p] *)
Definition load_slot (s : slot) : lhM Z :=
  match s with
  | Bucket i => w ← get_st; of_opt (buckets (lh w) !! Z.to_nat i)
  | Next p => it ← load_item p; mret (next it)
  end.
Definition store_slot (s : slot) (q : Z) : lhM unit :=
  match s with
  | Bucket i => w ← get_st; _ ← of_opt (buckets (lh w) !! Z.to_nat i);
                modify (set_buckets (<[Z.to_nat i := q]> (buckets (lh w))))
  | Next p => it ← load_item p; store_item p (mk_item (data it) q (hash it))
  end.

(** An allocation: [false] when it fails. *)
Definition alloc_ok : lhM bool := fun w =>
  match lh_oom w with
  | b :: r => Some (negb b, mk_lh_world (lh w) (items w) r)
  | [] => Some (true, w)
  end.

(** [OPENSSL_free] of an item. *)
Definition free_item (p : Z) : lhM unit := fun w =>
  match items w !! p with
  | Some _ => Some (tt, set_items (delete p (items w)) w)
  | None => None
  end.

(** A walk along a chain visits at most as many items as there are. *)
Definition chain_fuel (w : lh_world) : nat := S (size (items w)).

Definition OPENSSL_lh_new (hash_func : lhash_hash_func) (comp : lhash_cmp_func)
    (oom : list bool) : option lh_world :=
  match oom with
  | true :: _ | _ :: true :: _ => None
  | _ => Some (mk_lh_world
           (mk_lhash 0 (replicate (Z.to_nat kMinNumBuckets) NULL) kMinNumBuckets 0 comp hash_func)
           ∅ (drop 2 oom))
  end.

(** [for (n = lh->buckets[i]; n != NULL; n = next)] *)
Fixpoint free_chain (fuel : nat) (n : Z) : lhM unit :=
  match fuel with
  | O => wrong
  | S fuel =>
      if n =? NULL then mret tt
      else it ← load_item n; _ ← free_item n; free_chain fuel (next it)
  end.

(** [for (size_t i = 0; i < lh->num_buckets; i++)], [m] buckets to go. *)
Fixpoint free_buckets (m : nat) (i : Z) : lhM unit :=
  match m with
  | O => mret tt
  | S m => n ← load_slot (Bucket i); w ← get_st; _ ← free_chain (chain_fuel w) n;
           free_buckets m (i + 1)
  end.

(** The items that are left allocated. *)
Definition OPENSSL_lh_free : lhM unit :=
  w ← get_st; free_buckets (Z.to_nat (num_buckets (lh w))) 0.

Definition OPENSSL_lh_num_items : lhM Z := w ← get_st; mret (num_items (lh w)).

(** [for (LHASH_ITEM *cur = *ret; cur != NULL; cur = *ret)] *)
Fixpoint next_ptr_loop (fuel : nat) (same : Z -> bool) (ret : slot) : lhM slot :=
  match fuel with
  | O => wrong
  | S fuel =>
      cur ← load_slot ret;
      if cur =? NULL then mret ret
      else
        it ← load_item cur;
        if same (data it) then mret ret else next_ptr_loop fuel same (Next cur)
  end.

(** The slot and [*out_hash]. *)
Definition get_next_ptr_and_hash (data : Z) (call_hash_func : lhash_hash_func_helper)
    (call_cmp_func : lhash_cmp_func_helper) : lhM (slot * Z) :=
  w ← get_st;
  let hash := call_hash_func (hash_func (lh w)) data in
  ret ← next_ptr_loop (chain_fuel w) (fun d => call_cmp_func (comp (lh w)) d data =? 0)
          (Bucket (hash mod num_buckets (lh w)));
  mret (ret, hash).

Definition get_next_ptr_by_key (key key_hash : Z) (cmp_key : Z -> Z -> Z) : lhM slot :=
  w ← get_st;
  next_ptr_loop (chain_fuel w) (fun d => cmp_key key d =? 0)
    (Bucket (key_hash mod num_buckets (lh w))).

(** [*next_ptr == NULL ? NULL : ( *next_ptr)->data] *)
Definition data_of (next_ptr : slot) : lhM Z :=
  p ← load_slot next_ptr;
  if p =? NULL then mret NULL else it ← load_item p; mret (data it).

Definition OPENSSL_lh_retrieve (data : Z) (call_hash_func : lhash_hash_func_helper)
    (call_cmp_func : lhash_cmp_func_helper) : lhM Z :=
  r ← get_next_ptr_and_hash data call_hash_func call_cmp_func; data_of r.1.

Definition OPENSSL_lh_retrieve_key (key key_hash : Z) (cmp_key : Z -> Z -> Z) : lhM Z :=
  next_ptr ← get_next_ptr_by_key key key_hash cmp_key; data_of next_ptr.

(** [for (cur = lh->buckets[i]; cur != NULL; cur = next)] in [lh_rebucket]. *)
Fixpoint rebucket_chain (fuel : nat) (new_num_buckets cur : Z) (new_buckets : list Z)
    : lhM (list Z) :=
  match fuel with
  | O => wrong
  | S fuel =>
      if cur =? NULL then mret new_buckets
      else
        it ← load_item cur;
        let new_bucket := hash it mod new_num_buckets in
        head ← of_opt (new_buckets !! Z.to_nat new_bucket);
        _ ← store_item cur (mk_item (data it) head (hash it));
        rebucket_chain fuel new_num_buckets (next it) (<[Z.to_nat new_bucket := cur]> new_buckets)
  end.

Fixpoint rebucket_loop (m : nat) (i new_num_buckets : Z) (new_buckets : list Z)
    : lhM (list Z) :=
  match m with
  | O => mret new_buckets
  | S m =>
      cur ← load_slot (Bucket i); w ← get_st;
      new_buckets ← rebucket_chain (chain_fuel w) new_num_buckets cur new_buckets;
      rebucket_loop m (i + 1) new_num_buckets new_buckets
  end.

Definition lh_rebucket (new_num_buckets : Z) : lhM unit :=
  let alloc_size := u64 (8 * new_num_buckets) in
  if negb (alloc_size / 8 =? new_num_buckets) then mret tt
  else
    ok ← alloc_ok;
    if negb ok then mret tt
    else
      w ← get_st;
      new_buckets ← rebucket_loop (Z.to_nat (num_buckets (lh w))) 0 new_num_buckets
                      (replicate (Z.to_nat new_num_buckets) NULL);
      modify (fun w => set_lh (mk_lhash (num_items (lh w)) new_buckets new_num_buckets
                 (callback_depth (lh w)) (comp (lh w)) (hash_func (lh w))) w).

Definition lh_maybe_resize : lhM unit :=
  w ← get_st;
  let t := lh w in
  if 0 <? callback_depth t then mret tt
  else
    _ ← c_assert (kMinNumBuckets <=? num_buckets t);
    let avg_chain_length := num_items t / num_buckets t in
    if kMaxAverageChainLength <? avg_chain_length then
      let new_num_buckets := u64 (num_buckets t * 2) in
      if num_buckets t <? new_num_buckets then lh_rebucket new_num_buckets else mret tt
    else if (avg_chain_length <? kMinAverageChainLength) && (kMinNumBuckets <? num_buckets t) then
      let new_num_buckets := num_buckets t / 2 in
      lh_rebucket (if new_num_buckets <? kMinNumBuckets then kMinNumBuckets else new_num_buckets)
    else mret tt.

Section alloc.
(** The address of a new item. *)
Variable malloc : gmap Z LHASH_ITEM -> Z.

(** [item = OPENSSL_malloc(sizeof(LHASH_ITEM))] with its fields set; [NULL] when there
    is no memory. *)
Definition new_item (it : LHASH_ITEM) : lhM Z :=
  ok ← alloc_ok;
  if negb ok then mret NULL
  else
    w ← get_st;
    let p := malloc (items w) in
    _ ← put_st (set_items (<[p := it]> (items w)) w);
    mret p.

(** The status and [*old_data]. *)
Definition OPENSSL_lh_insert (data_ : Z) (call_hash_func : lhash_hash_func_helper)
    (call_cmp_func : lhash_cmp_func_helper) : lhM (Z * Z) :=
  r ← get_next_ptr_and_hash data_ call_hash_func call_cmp_func;
  let '(next_ptr, hash_) := r in
  p ← load_slot next_ptr;
  if negb (p =? NULL) then
    it ← load_item p;
    _ ← store_item p (mk_item data_ (next it) (hash it));
    mret (1, data it)
  else
    item ← new_item (mk_item data_ NULL hash_);
    if item =? NULL then mret (0, NULL)
    else
      _ ← store_slot next_ptr item;
      _ ← modify (fun w => set_num_items (u64 (num_items (lh w) + 1)) w);
      _ ← lh_maybe_resize;
      mret (1, NULL).
End alloc.

Definition OPENSSL_lh_delete (data_ : Z) (call_hash_func : lhash_hash_func_helper)
    (call_cmp_func : lhash_cmp_func_helper) : lhM Z :=
  r ← get_next_ptr_and_hash data_ call_hash_func call_cmp_func;
  let next_ptr := r.1 in
  item ← load_slot next_ptr;
  if item =? NULL then mret NULL
  else
    it ← load_item item;
    _ ← store_slot next_ptr (next it);
    let ret := data it in
    _ ← free_item item;
    _ ← modify (fun w => set_num_items (u64 (num_items (lh w) - 1)) w);
    _ ← lh_maybe_resize;
    mret ret.

(** [for (cur = lh->buckets[i]; cur != NULL; cur = next)] in [OPENSSL_lh_doall_arg]:
    the callback may change the table and what [arg] points to. As it may add items,
    the length of the walk is bounded by [fuel] only. *)
Fixpoint doall_chain {U} (fuel : nat) (func : Z -> U -> lhM U) (cur : Z) (arg : U) : lhM U :=
  match fuel with
  | O => wrong
  | S fuel =>
      if cur =? NULL then mret arg
      else
        it ← load_item cur;
        arg ← func (data it) arg;
        doall_chain fuel func (next it) arg
  end.

(** [for (size_t i = 0; i < lh->num_buckets; i++)] *)
Fixpoint doall_buckets {U} (n fuel : nat) (i : Z) (func : Z -> U -> lhM U) (arg : U) : lhM U :=
  match n with
  | O => wrong
  | S n =>
      w ← get_st;
      if i <? num_buckets (lh w) then
        cur ← load_slot (Bucket i);
        arg ← doall_chain fuel func cur arg;
        doall_buckets n fuel (i + 1) func arg
      else mret arg
  end.

Definition UINT_MAX : Z := 2 ^ 32 - 1.

Definition OPENSSL_lh_doall_arg {U} (fuel : nat) (func : Z -> U -> lhM U) (arg : U) : lhM U :=
  _ ← modify (fun w => if callback_depth (lh w) <? UINT_MAX
                       then set_depth (callback_depth (lh w) + 1) w else w);
  w ← get_st;
  arg ← doall_buckets (S (Z.to_nat (num_buckets (lh w)))) fuel 0 func arg;
  _ ← modify (fun w => if callback_depth (lh w) <? UINT_MAX
                       then set_depth (callback_depth (lh w) - 1) w else w);
  _ ← lh_maybe_resize;
  mret arg.

(** The typed functions [DEFINE_LHASH_OF] makes. *)
Definition lh_call_cmp_func : lhash_cmp_func_helper := fun func a b => func a b.
Definition lh_call_hash_func : lhash_hash_func_helper := fun func a => func a.
Definition lh_retrieve (data : Z) : lhM Z :=
  OPENSSL_lh_retrieve data lh_call_hash_func lh_call_cmp_func.
Definition lh_insert (malloc : gmap Z LHASH_ITEM -> Z) (data : Z) : lhM (Z * Z) :=
  OPENSSL_lh_insert malloc data lh_call_hash_func lh_call_cmp_func.
Definition lh_delete (data : Z) : lhM Z :=
  OPENSSL_lh_delete data lh_call_hash_func lh_call_cmp_func.
