(* ===== verification/LhashSpec.v ===== *)
(** * BoringSSL: the shape of the hash table

    Chains in the heap, the well-formed tables, what walking, relinking and moving the
    items of a chain do to them, and resizing. *)
From S2P Require Export Lhash.

(** ** Chains *)

Fixpoint chain (h : gmap Z LHASH_ITEM) (p : Z) (l : list Z) : Prop :=
  match l with
  | [] => p = NULL
  | q :: l => p = q /\ q <> NULL /\ exists it, h !! q = Some it /\ chain h (next it) l
  end.

(** The slot that holds the pointer after the items [l]. *)
Fixpoint slot_after (ret : slot) (l : list Z) : slot :=
  match l with [] => ret | q :: l => slot_after (Next q) l end.

Definition first (l : list Z) : Z := default NULL (head l).

(** What the table is about: the heap without its links. *)
Definition payload (h : gmap Z LHASH_ITEM) : gmap Z (Z * Z) :=
  (fun it => (data it, hash it)) <$> h.

Lemma payload_lookup h p : payload h !! p = (fun it => (data it, hash it)) <$> (h !! p).
Proof. apply lookup_fmap. Qed.

Lemma payload_item h h' p it :
  payload h = payload h' -> h !! p = Some it ->
  exists it', h' !! p = Some it' /\ data it' = data it /\ hash it' = hash it.
Proof.
  intros E Hp. apply (f_equal (lookup p)) in E. rewrite !payload_lookup, Hp in E.
  destruct (h' !! p) as [it'|]; [|done]. injection E as -> ->. eauto.
Qed.

Lemma payload_relink h p it q :
  h !! p = Some it -> payload (<[p := mk_item (data it) q (hash it)]> h) = payload h.
Proof.
  intros Hp. unfold payload. rewrite fmap_insert. apply insert_id. by rewrite lookup_fmap, Hp.
Qed.

Lemma chain_ext h h' l : forall p,
  chain h p l -> (forall q, q ∈ l -> next <$> (h' !! q) = next <$> (h !! q)) -> chain h' p l.
Proof.
  induction l as [|q l IH]; intros p; [done|]. intros (-> & Hq & it & Hit & Hc) He.
  split; [done|]. split; [done|]. pose proof (He q ltac:(left)) as E. rewrite Hit in E.
  destruct (h' !! q) as [it'|]; [|done]. injection E as E. exists it'. split; [done|].
  rewrite E. apply IH; [done|]. intros x Hx. apply He. by right.
Qed.

Lemma chain_first h p l : chain h p l -> p = first l.
Proof. destruct l; [done|by intros [-> _]]. Qed.

Lemma chain_alloc h l : forall p, chain h p l -> forall q, q ∈ l -> q <> NULL /\ is_Some (h !! q).
Proof.
  induction l as [|x l IH]; intros p Hc q Hq; [by apply elem_of_nil in Hq|].
  destruct Hc as (_ & Hx & it & Hit & Hc). apply elem_of_cons in Hq as [-> | Hq]; eauto.
Qed.

Lemma chain_inv h p l1 q l2 :
  chain h p (l1 ++ q :: l2) -> q <> NULL /\ exists it, h !! q = Some it /\ chain h (next it) l2.
Proof.
  revert p. induction l1 as [|x l1 IH]; intros p; [by intros (_ & ? & ?)|].
  intros (_ & _ & it & _ & Hc). eauto.
Qed.

(** A list without duplicates of allocated items is no longer than the fuel. *)
Lemma chain_fuel_enough w (l : list Z) :
  NoDup l -> (forall q, q ∈ l -> is_Some (items w !! q)) -> (length l < chain_fuel w)%nat.
Proof.
  intros Hn Hl. unfold chain_fuel. rewrite <-size_dom, <-(size_list_to_set (C := gset Z) l Hn).
  apply Nat.lt_succ_r, subseteq_size. intros q Hq. apply elem_of_list_to_set in Hq.
  by apply elem_of_dom, Hl.
Qed.

Lemma load_item_some w p it : items w !! p = Some it -> load_item p w = Some (it, w).
Proof. intros H. unfold load_item. by rewrite H. Qed.

Lemma load_next w p it : items w !! p = Some it -> load_slot (Next p) w = Some (next it, w).
Proof. intros H. cbn [load_slot]. by pstep (load_item_some w p it). Qed.

Lemma load_bucket w i p :
  buckets (lh w) !! Z.to_nat i = Some p -> load_slot (Bucket i) w = Some (p, w).
Proof. intros H. cbn [load_slot]. unfold mbind, part_bind, get_st, of_opt. by rewrite H. Qed.

Lemma load_slot_after w l1 l2 : forall ret p,
  load_slot ret w = Some (p, w) -> chain (items w) p (l1 ++ l2) ->
  load_slot (slot_after ret l1) w = Some (first l2, w).
Proof.
  induction l1 as [|q l1 IH]; intros ret p Hr Hc; cbn [slot_after app] in *.
  - by rewrite Hr, (chain_first _ _ _ Hc).
  - destruct Hc as (_ & _ & it & Hit & Hc). by apply (IH _ (next it)); [apply load_next|].
Qed.

(** The walk stops after the items that do not match. *)
Lemma next_ptr_loop_spec w same l1 l2 : forall fuel ret p,
  load_slot ret w = Some (p, w) -> chain (items w) p (l1 ++ l2) ->
  (forall q it, q ∈ l1 -> items w !! q = Some it -> same (data it) = false) ->
  (forall q it, head l2 = Some q -> items w !! q = Some it -> same (data it) = true) ->
  (length l1 < fuel)%nat ->
  next_ptr_loop fuel same ret w = Some (slot_after ret l1, w).
Proof.
  induction l1 as [|q l1 IH]; intros [|fuel] ret p Hr Hc H1 H2 Hf;
    cbn [length] in Hf; try lia; cbn [next_ptr_loop slot_after app] in *; pstep Hr.
  - destruct l2 as [|q l2]; [by rewrite Hc|]. destruct Hc as (-> & Hq & it & Hit & Hc).
    rewrite (proj2 (Z.eqb_neq q NULL) Hq). pstep (load_item_some w q it).
    by rewrite (H2 q it eq_refl Hit).
  - destruct Hc as (-> & Hq & it & Hit & Hc). rewrite (proj2 (Z.eqb_neq q NULL) Hq).
    pstep (load_item_some w q it). rewrite (H1 q it ltac:(left) Hit).
    apply (IH fuel (Next q) (next it)); [by apply load_next|done| |done|lia].
    intros x ix Hx. apply H1. by right.
Qed.

(** ** Relinking *)

Definition relinked (h : gmap Z LHASH_ITEM) (l1 : list Z) (q : Z) : gmap Z LHASH_ITEM :=
  match last l1 with
  | Some x => alter (fun it => mk_item (data it) q (hash it)) x h
  | None => h
  end.

Definition rehung (bs : list Z) (i : Z) (l1 : list Z) (q : Z) : list Z :=
  match l1 with [] => <[Z.to_nat i := q]> bs | _ => bs end.

Lemma relinked_cons h x l1 q : l1 <> [] -> relinked h (x :: l1) q = relinked h l1 q.
Proof. intros Hn. unfold relinked. rewrite last_cons. by destruct (last l1) eqn:E; [|apply last_None in E]. Qed.

Lemma relinked_other h l1 q x : x ∉ l1 -> relinked h l1 q !! x = h !! x.
Proof.
  intros Hx. unfold relinked. destruct (last l1) as [y|] eqn:E; [|done].
  apply lookup_alter_ne. intros ->. by apply Hx, last_Some_elem_of.
Qed.

Lemma relinked_payload h l1 q : payload (relinked h l1 q) = payload h.
Proof.
  unfold relinked. destruct (last l1) as [y|]; [|done]. apply map_eq. intros x.
  rewrite !payload_lookup. destruct (decide (x = y)) as [-> | Hn].
  - rewrite lookup_alter_eq. by destruct (h !! y).
  - by rewrite lookup_alter_ne.
Qed.

Lemma chain_relinked h l1 l2 q l2' : forall p,
  NoDup l1 -> chain h p (l1 ++ l2) -> (forall x, x ∈ l1 -> x ∉ l2') -> chain h q l2' ->
  chain (relinked h l1 q) (match l1 with [] => q | _ => p end) (l1 ++ l2').
Proof.
  induction l1 as [|x l1 IH]; intros p Hn Hc Hd Hq; [done|].
  apply NoDup_cons in Hn as [Hx Hn]. destruct Hc as (-> & Hx0 & it & Hit & Hc). cbn [app chain].
  split; [done|]. split; [done|]. destruct l1 as [|y l1].
  - exists (mk_item (data it) q (hash it)). unfold relinked. cbn [last app next].
    rewrite lookup_alter_eq, Hit. split; [done|]. apply (chain_ext h); [done|]. intros z Hz.
    rewrite lookup_alter_ne; [done|]. intros ->. by apply (Hd z ltac:(left)).
  - rewrite relinked_cons by done. exists it. rewrite relinked_other by done. split; [done|].
    apply (IH (next it)); [done|done| |done]. intros z Hz. apply Hd. by right.
Qed.

Lemma store_slot_after w i l1 l2 p q :
  buckets (lh w) !! Z.to_nat i = Some p -> chain (items w) p (l1 ++ l2) ->
  store_slot (slot_after (Bucket i) l1) q w
  = Some (tt, set_items (relinked (items w) l1 q) (set_buckets (rehung (buckets (lh w)) i l1 q) w)).
Proof.
  intros Hb Hc. destruct l1 as [|x l1]; cbn [slot_after].
  - cbn [store_slot]. unfold mbind, part_bind, get_st, of_opt. by rewrite Hb.
  - cbn [rehung]. assert (set_buckets (buckets (lh w)) w = w) as ->.
    { by destruct w as [[] ? ?]. }
    assert (Hs : exists y it, slot_after (Next x) l1 = Next y /\ last (x :: l1) = Some y
                              /\ items w !! y = Some it).
    { clear Hb. revert x p Hc. induction l1 as [|y l1 IH]; intros x p (-> & _ & it & Hit & Hc).
      - eauto.
      - destruct (IH y (next it) Hc) as (z & iz & E & El & Ez). exists z, iz. by rewrite last_cons, El. }
    destruct Hs as (y & it & -> & El & Hy). cbn [store_slot]. pstep (load_item_some w y it).
    unfold store_item, relinked. rewrite Hy, El. do 2 f_equal. f_equal. apply map_eq. intros z.
    destruct (decide (z = y)) as [-> | Hn].
    + by rewrite lookup_insert_eq, lookup_alter_eq, Hy.
    + by rewrite lookup_insert_ne, lookup_alter_ne.
Qed.

(** ** The chains of all the buckets *)

(** One chain against the others. *)
Lemma concat_at (chains : list (list Z)) i l :
  chains !! i = Some l -> exists rest,
    concat chains ≡ₚ l ++ rest
    /\ (forall l', concat (<[i := l']> chains) ≡ₚ l' ++ rest)
    /\ (forall j l2 x, j <> i -> chains !! j = Some l2 -> x ∈ l2 -> x ∈ rest).
Proof.
  intros Hi. exists (concat (take i chains ++ drop (S i) chains)).
  assert (Hperm : forall l', concat (take i chains ++ l' :: drop (S i) chains)
                             ≡ₚ l' ++ concat (take i chains ++ drop (S i) chains)).
  { intros l'. rewrite !concat_app. cbn [concat]. rewrite !app_assoc. f_equiv. apply Permutation_app_comm. }
  split_and!.
  - rewrite <-(take_drop_middle chains i l Hi) at 1. apply Hperm.
  - intros l'. rewrite insert_take_drop; [apply Hperm|by apply lookup_lt_Some in Hi].
  - intros j l2 x Hj Hl Hx. apply list_elem_of_In, in_concat. exists l2.
    split; [|by apply list_elem_of_In]. apply list_elem_of_In, elem_of_app.
    destruct (decide (j < i)%nat).
    + left. apply list_elem_of_lookup. exists j. by rewrite lookup_take_lt.
    + right. apply list_elem_of_lookup. exists (j - S i)%nat. rewrite lookup_drop.
      rewrite <-Hl. f_equal. lia.
Qed.

Lemma in_chain (chains : list (list Z)) x :
  x ∈ concat chains <-> exists i l, chains !! i = Some l /\ x ∈ l.
Proof.
  rewrite list_elem_of_In, in_concat. setoid_rewrite <-list_elem_of_In. split.
  - intros (l & Hl & Hx). apply list_elem_of_lookup in Hl as [i Hi]. eauto.
  - intros (i & l & Hi & Hx). exists l. split; [|done]. by eapply list_elem_of_lookup_2.
Qed.

Record table (hf : lhash_hash_func) (cmp : lhash_cmp_func) (w : lh_world)
    (chains : list (list Z)) : Prop := mk_table {
  t_hash : hash_func (lh w) = hf;
  t_comp : comp (lh w) = cmp;
  t_chains : Forall2 (chain (items w)) (buckets (lh w)) chains;
  t_len : length chains = Z.to_nat (num_buckets (lh w));
  t_size : kMinNumBuckets <= num_buckets (lh w) < 2 ^ 64;
  t_depth : 0 <= callback_depth (lh w) <= UINT_MAX;
  t_count : num_items (lh w) = u64 (Z.of_nat (size (items w)));
  t_nodup : NoDup (concat chains);
  t_dom : forall p, p ∈ concat chains <-> is_Some (items w !! p);
  t_place : forall i l p it, chains !! i = Some l -> p ∈ l -> items w !! p = Some it ->
    hash it = hf (data it) /\ Z.to_nat (hash it mod num_buckets (lh w)) = i
}.

Section table.
Context {hf : lhash_hash_func} {cmp : lhash_cmp_func}.
Notation table := (table hf cmp).

Lemma table_bucket w chains i l :
  table w chains -> chains !! i = Some l ->
  buckets (lh w) !! i = Some (first l) /\ chain (items w) (first l) l /\ NoDup l
  /\ (length l < chain_fuel w)%nat.
Proof.
  intros T Hi. destruct (Forall2_lookup_r _ _ _ _ _ (t_chains _ _ _ _ T) Hi) as (p & Hb & Hc).
  pose proof (chain_first _ _ _ Hc) as ->. split; [done|]. split; [done|].
  destruct (concat_at chains i l Hi) as (rest & Hp & _ & _).
  pose proof (t_nodup _ _ _ _ T) as Hn. rewrite Hp in Hn. apply NoDup_app in Hn as [Hn _].
  split; [done|]. apply chain_fuel_enough; [done|]. intros q Hq. by apply (chain_alloc _ _ _ Hc).
Qed.

Lemma table_index w chains h :
  table w chains -> exists l, chains !! Z.to_nat (h mod num_buckets (lh w)) = Some l.
Proof.
  intros T. apply lookup_lt_is_Some_2. rewrite (t_len _ _ _ _ T).
  pose proof (t_size _ _ _ _ T). unfold kMinNumBuckets in *.
  pose proof (Z.mod_pos_bound h (num_buckets (lh w)) ltac:(lia)). lia.
Qed.

(** A chain is replaced: the other chains keep their items. *)
Lemma table_set w w' chains i l l' :
  table w chains -> chains !! i = Some l ->
  hash_func (lh w') = hf -> comp (lh w') = cmp ->
  buckets (lh w') = <[i := first l']> (buckets (lh w)) ->
  num_buckets (lh w') = num_buckets (lh w) ->
  0 <= callback_depth (lh w') <= UINT_MAX ->
  num_items (lh w') = u64 (Z.of_nat (size (items w'))) ->
  chain (items w') (first l') l' -> NoDup l' ->
  (forall x, x ∈ l' -> x ∈ l \/ items w !! x = None) ->
  (forall x, x ∉ l -> x ∉ l' -> items w' !! x = items w !! x) ->
  (forall x, x ∈ l -> x ∉ l' -> items w' !! x = None) ->
  (forall x it, x ∈ l' -> items w' !! x = Some it ->
     hash it = hf (data it) /\ Z.to_nat (hash it mod num_buckets (lh w)) = i) ->
  table w' (<[i := l']> chains).
Proof.
  intros T Hi Hh Hcm Hbs Hnb Hd Hni Hc Hn Hnew Hsame Hgone Hplace.
  destruct (concat_at chains i l Hi) as (rest & Hp & Hp' & Hother).
  pose proof (t_nodup _ _ _ _ T) as Hnd. rewrite Hp in Hnd.
  apply NoDup_app in Hnd as (_ & Hdis & Hrest).
  assert (Hfree : forall x, x ∈ rest -> x ∉ l' /\ x ∉ l).
  { intros x Hx. assert (x ∉ l) by (intros Hl; by apply (Hdis x)). split; [|done].
    intros Hl. destruct (Hnew x Hl) as [|E]; [done|].
    destruct (proj1 (t_dom _ _ _ _ T x)) as [it Hit]; [rewrite Hp; set_solver|congruence]. }
  pose proof (lookup_lt_Some _ _ _ Hi) as Hil.
  split; [done|done| |by rewrite length_insert, Hnb; apply T|rewrite Hnb; apply T|done|done| | |].
  - rewrite Hbs. pose proof (t_chains _ _ _ _ T) as Hcs.
    apply Forall2_same_length_lookup_2; [rewrite !length_insert; by eapply Forall2_length|].
    intros j p lj Hpj Hlj. destruct (decide (j = i)) as [-> | Hji].
    + rewrite list_lookup_insert_eq in Hlj by done. injection Hlj as <-.
      rewrite list_lookup_insert_eq in Hpj by (by erewrite Forall2_length). by injection Hpj as <-.
    + rewrite list_lookup_insert_ne in Hlj by done. rewrite list_lookup_insert_ne in Hpj by done.
      pose proof (Forall2_lookup_lr _ _ _ _ _ _ Hcs Hpj Hlj) as Hcj.
      apply (chain_ext (items w)); [done|]. intros x Hx.
      destruct (Hfree x (Hother j lj x Hji Hlj Hx)). by rewrite Hsame.
  - rewrite Hp'. apply NoDup_app. split_and!; [done| |done]. intros x Hx Hr. by destruct (Hfree x Hr).
  - intros x. rewrite Hp', elem_of_app. split.
    + intros [Hx|Hx]; [by apply (chain_alloc _ _ _ Hc)|]. destruct (Hfree x Hx).
      rewrite Hsame by done. apply (t_dom _ _ _ _ T). rewrite Hp. set_solver.
    + intros Hx. destruct (decide (x ∈ l')) as [|Hl']; [by left|]. right.
      destruct (decide (x ∈ l)) as [Hl|Hl]; [rewrite Hgone in Hx by done; by destruct Hx|].
      rewrite Hsame in Hx by done. apply (t_dom _ _ _ _ T) in Hx. rewrite Hp in Hx. set_solver.
  - rewrite Hnb. intros j lj x it Hlj Hx Hit. destruct (decide (j = i)) as [-> | Hji].
    + rewrite list_lookup_insert_eq in Hlj by done. injection Hlj as <-. eauto.
    + rewrite list_lookup_insert_ne in Hlj by done. destruct (Hfree x (Hother j lj x Hji Hlj Hx)).
      rewrite Hsame in Hit by done. by eapply (t_place _ _ _ _ T).
Qed.
End table.

(** ** Resizing

    [lh_rebucket] moves every item to the chain of its hash in a new array, and
    [lh_maybe_resize] always leaves a well-formed table with the same elements. *)

(** What an operation leaves of the world besides the table. *)
Definition kept (w w' : lh_world) : Prop :=
  callback_depth (lh w') = callback_depth (lh w)
  /\ (forall b, b ∈ lh_oom w' -> b ∈ lh_oom w).

Lemma lh_kept_refl w : kept w w.
Proof. done. Qed.

Lemma lh_kept_trans w1 w2 w3 : kept w1 w2 -> kept w2 w3 -> kept w1 w3.
Proof. intros [E1 O1] [E2 O2]. split; [congruence|auto]. Qed.

Lemma alloc_ok_spec w :
  exists b r, alloc_ok w = Some (b, mk_lh_world (lh w) (items w) r)
    /\ (forall x, x ∈ r -> x ∈ lh_oom w) /\ (b = false -> true ∈ lh_oom w).
Proof.
  unfold alloc_ok. destruct (lh_oom w) as [|b r] eqn:E.
  - exists true, []. split; [destruct w; simpl in *; by subst|done].
  - exists (negb b), r. split; [done|]. split; [set_solver|]. destruct b; [left|done].
Qed.

(** The items are in the chains of their hashes. *)
Definition placed (n : Z) (h : gmap Z LHASH_ITEM) (ncs : list (list Z)) : Prop :=
  forall i l p it, ncs !! i = Some l -> p ∈ l -> h !! p = Some it ->
  Z.to_nat (hash it mod n) = i.

Lemma placed_payload n h h' ncs : payload h = payload h' -> placed n h ncs -> placed n h' ncs.
Proof.
  intros E Hp i l p it Hi Hl Hit. destruct (payload_item h' h p it (eq_sym E) Hit) as (it' & Hit' & _ & <-).
  by eapply Hp.
Qed.

(** An item of [w] is moved to the front of a new chain. *)
Lemma push_item n h nb ncs q it lj :
  let j := Z.to_nat (hash it mod n) in
  Forall2 (chain h) nb ncs -> ncs !! j = Some lj -> q <> NULL -> h !! q = Some it ->
  q ∉ concat ncs -> placed n h ncs ->
  let h' := <[q := mk_item (data it) (first lj) (hash it)]> h in
  Forall2 (chain h') (<[j := q]> nb) (<[j := q :: lj]> ncs)
  /\ concat (<[j := q :: lj]> ncs) ≡ₚ q :: concat ncs
  /\ placed n h' (<[j := q :: lj]> ncs).
Proof.
  intros j Hf Hj Hq Hit Hnew Hpl h'.
  destruct (concat_at ncs j lj Hj) as (rest & Hp & Hp' & _).
  pose proof (lookup_lt_Some _ _ _ Hj) as Hlt.
  assert (Hold : forall p l, chain h p l -> q ∉ l -> chain h' p l).
  { intros p l Hc Hl. apply (chain_ext h); [done|]. intros x Hx. unfold h'.
    rewrite lookup_insert_ne; [done|]. intros ->. by apply Hl. }
  assert (Hin : forall i l, ncs !! i = Some l -> q ∉ l).
  { intros i l Hi Hl. apply Hnew, in_chain. eauto. }
  split_and!.
  - apply Forall2_same_length_lookup_2; [rewrite !length_insert; by eapply Forall2_length|].
    intros i p l Hpi Hli. destruct (decide (i = j)) as [-> | Hn].
    + rewrite list_lookup_insert_eq in Hli by done. injection Hli as <-.
      rewrite list_lookup_insert_eq in Hpi by (by erewrite Forall2_length). injection Hpi as <-.
      split; [done|]. split; [done|]. eexists. split; [apply lookup_insert_eq|]. cbn [next].
      destruct (Forall2_lookup_r _ _ _ _ _ Hf Hj) as (p & _ & Hc).
      rewrite <-(chain_first _ _ _ Hc). apply Hold; [done|by eapply Hin].
    + rewrite list_lookup_insert_ne in Hli by done. rewrite list_lookup_insert_ne in Hpi by done.
      apply Hold; [by eapply Forall2_lookup_lr|by eapply Hin].
  - rewrite Hp', Hp. done.
  - apply (placed_payload n h); [symmetry; by apply payload_relink|].
    intros i l p ip Hi Hl Hip. destruct (decide (i = j)) as [-> | Hn].
    + rewrite list_lookup_insert_eq in Hi by done. injection Hi as <-.
      apply elem_of_cons in Hl as [-> | Hl]; [rewrite Hit in Hip; by injection Hip as <-|eauto].
    + rewrite list_lookup_insert_ne in Hi by done. eauto.
Qed.

(** What moving the chains [l] to the new array [ncs] gives. *)
Definition moved (n : Z) (w : lh_world) (l : list Z) (ncs : list (list Z))
    (nb' : list Z) (h' : gmap Z LHASH_ITEM) : Prop :=
  exists ncs', Forall2 (chain h') nb' ncs' /\ concat ncs' ≡ₚ l ++ concat ncs
    /\ length ncs' = length ncs /\ placed n h' ncs'
    /\ payload h' = payload (items w) /\ (forall x, x ∉ l -> h' !! x = items w !! x).

Lemma rebucket_chain_spec n l : forall fuel cur w nb ncs,
  0 < n -> length ncs = Z.to_nat n -> (length l < fuel)%nat ->
  chain (items w) cur l -> Forall2 (chain (items w)) nb ncs ->
  NoDup (l ++ concat ncs) -> placed n (items w) ncs ->
  exists nb' h', rebucket_chain fuel n cur nb w = Some (nb', set_items h' w)
    /\ moved n w l ncs nb' h'.
Proof.
  induction l as [|q l IH]; intros [|fuel] cur w nb ncs Hn Hlen Hf Hc Hb Hnd Hpl;
    cbn [length] in Hf; try lia; cbn [rebucket_chain].
  - rewrite Hc. exists nb, (items w). cbn [Z.eqb NULL]. split; [by destruct w|].
    exists ncs. split_and!; done.
  - destruct Hc as (-> & Hq & it & Hit & Hc). rewrite (proj2 (Z.eqb_neq q NULL) Hq).
    pstep (load_item_some w q it).
    pose proof (Z.mod_pos_bound (hash it) n Hn).
    destruct (lookup_lt_is_Some_2 ncs (Z.to_nat (hash it mod n))) as [lj Hj]; [lia|].
    destruct (Forall2_lookup_r _ _ _ _ _ Hb Hj) as (p & Hp & Hcj). pose proof (chain_first _ _ _ Hcj) as ->.
    cbv zeta. rewrite Hp. cbn [app] in Hnd. apply NoDup_cons in Hnd as [Hqn Hnd].
    assert (Hq1 : q ∉ l /\ q ∉ concat ncs) by set_solver. destruct Hq1 as [Hql Hqc].
    destruct (push_item n (items w) nb ncs q it lj Hb Hj Hq Hit Hqc Hpl) as (Hb' & Hperm & Hpl').
    set (h1 := <[q := mk_item (data it) (first lj) (hash it)]> (items w)) in *.
    destruct (IH fuel (next it) (set_items h1 w) (<[Z.to_nat (hash it mod n) := q]> nb)
                (<[Z.to_nat (hash it mod n) := q :: lj]> ncs))
      as (nb' & h' & E & ncs' & Hf' & Hp' & Hl' & Hpl'' & Hpay & Hsame);
      [done|by rewrite length_insert|lia| |done| |done|].
    { apply (chain_ext (items w)); [done|]. intros x Hx. cbn [items set_items]. unfold h1.
      rewrite lookup_insert_ne; [done|]. by intros ->. }
    { rewrite Hperm. apply NoDup_app. apply NoDup_app in Hnd as (Hl & Hd & Hncs).
      split_and!; [done| |by apply NoDup_cons]. set_solver. }
    exists nb', h'. split.
    { unfold mbind at 1, part_bind at 1, of_opt.
      unfold mbind at 1, part_bind at 1, store_item. rewrite Hit. exact E. }
    exists ncs'. split_and!; [done|rewrite Hp', Hperm; symmetry; apply Permutation_middle|
      by rewrite Hl', length_insert|done| |].
    + rewrite Hpay. by apply payload_relink.
    + intros x Hx. rewrite Hsame by set_solver. cbn [items set_items]. unfold h1.
      rewrite lookup_insert_ne; [done|]. intros ->. set_solver.
Qed.

Lemma rebucket_loop_spec n todo : forall i w nb ncs,
  0 < n -> length ncs = Z.to_nat n -> 0 <= i ->
  Forall2 (chain (items w)) (drop (Z.to_nat i) (buckets (lh w))) todo ->
  Forall2 (chain (items w)) nb ncs ->
  NoDup (concat todo ++ concat ncs) -> placed n (items w) ncs ->
  exists nb' h', rebucket_loop (length todo) i n nb w = Some (nb', set_items h' w)
    /\ moved n w (concat todo) ncs nb' h'.
Proof.
  induction todo as [|l todo IH]; intros i w nb ncs Hn Hlen Hi Hold Hb Hnd Hpl;
    cbn [length rebucket_loop concat] in *.
  - exists nb, (items w). split; [by destruct w|]. exists ncs. split_and!; done.
  - destruct (drop (Z.to_nat i) (buckets (lh w))) as [|cur olds] eqn:Ed; [by inversion Hold|].
    apply Forall2_cons in Hold as [Hc Hold].
    assert (Hcur : buckets (lh w) !! Z.to_nat i = Some cur).
    { rewrite <-(Nat.add_0_r (Z.to_nat i)), <-lookup_drop, Ed. done. }
    assert (Hd' : drop (Z.to_nat (i + 1)) (buckets (lh w)) = olds).
    { replace (Z.to_nat (i + 1)) with (Z.to_nat i + 1)%nat by lia. by rewrite <-drop_drop, Ed. }
    rewrite <-app_assoc in Hnd. apply NoDup_app in Hnd as (Hl & Hd & Hnd).
    apply NoDup_app in Hnd as (Htodo & Hd2 & Hncs).
    pstep (load_bucket w i cur). unfold mbind at 1, part_bind at 1, get_st.
    destruct (rebucket_chain_spec n l (chain_fuel w) cur w nb ncs)
      as (nb1 & h1 & E1 & ncs1 & Hf1 & Hp1 & Hl1 & Hpl1 & Hpay1 & Hsame1); [done|done| |done|done| |done|].
    { apply chain_fuel_enough; [done|]. intros q Hq. by apply (chain_alloc _ _ _ Hc). }
    { apply NoDup_app. split_and!; [done| |done]. set_solver. }
    destruct (IH (i + 1) (set_items h1 w) nb1 ncs1)
      as (nb' & h' & E & ncs' & Hf' & Hp' & Hl' & Hpl' & Hpay & Hsame); [done|congruence|lia| |done| |done|].
    { cbn [lh set_items set_lh]. rewrite Hd'. cbn [items set_items].
      apply Forall2_same_length_lookup_2; [by eapply Forall2_length|]. intros j p lp Hp Hlp.
      pose proof (Forall2_lookup_lr _ _ _ _ _ _ Hold Hp Hlp) as Hcp. apply list_elem_of_lookup_2 in Hlp.
      apply (chain_ext (items w)); [done|]. intros x Hx. rewrite Hsame1; [done|].
      intros Hxl. apply (Hd x Hxl). apply elem_of_app. left. apply list_elem_of_In, in_concat. exists lp.
      by rewrite <-!list_elem_of_In. }
    { rewrite Hp1. apply NoDup_app. split_and!; [done| |apply NoDup_app; split_and!; [done|set_solver|done]].
      set_solver. }
    exists nb', h'. split; [pstep E1; exact E|]. exists ncs'. split_and!; [done| |congruence|done| |].
    + rewrite Hp', Hp1, app_assoc, (Permutation_app_comm (concat todo)), <-app_assoc. done.
    + by rewrite Hpay, <-Hpay1.
    + intros x Hx. rewrite Hsame by set_solver. cbn [items set_items]. apply Hsame1. set_solver.
Qed.

Section resize.
Context {hf : lhash_hash_func} {cmp : lhash_cmp_func}.
Notation table := (table hf cmp).

Lemma empty_buckets h n :
  Forall2 (chain h) (replicate n NULL) (replicate n []).
Proof. induction n; by constructor. Qed.

Lemma concat_empty n : concat (replicate n ([] : list Z)) = [].
Proof. by induction n. Qed.

Lemma lh_rebucket_spec w chains n :
  table w chains -> kMinNumBuckets <= n < 2 ^ 64 ->
  exists w' chains', lh_rebucket n w = Some (tt, w') /\ table w' chains'
    /\ payload (items w') = payload (items w) /\ kept w w'.
Proof.
  intros T Hn. unfold lh_rebucket. cbv zeta. unfold kMinNumBuckets in Hn.
  destruct (negb _); [exists w, chains; by split_and!|].
  destruct (alloc_ok_spec w) as (b & r & Ea & Hr & _). pstep Ea. destruct b; cbn [negb];
    [|eexists _, chains; split; [reflexivity|]; split; [by destruct T|done]].
  set (w1 := mk_lh_world (lh w) (items w) r). unfold mbind at 1, part_bind at 1, get_st.
  pose proof (t_nodup _ _ _ _ T) as Hnd.
  destruct (rebucket_loop_spec n chains 0 w1 (replicate (Z.to_nat n) NULL) (replicate (Z.to_nat n) []))
    as (nb & h & E & ncs & Hf & Hp & Hl & Hpl & Hpay & Hsame);
    [lia|by rewrite length_replicate|lia|apply (t_chains _ _ _ _ T)|apply empty_buckets| | |].
  { by rewrite concat_empty, app_nil_r. }
  { intros i l p it Hi Hl. apply lookup_replicate in Hi as [-> _]. by apply elem_of_nil in Hl. }
  rewrite (t_len _ _ _ _ T) in E. change (lh w1) with (lh w).
  rewrite concat_empty, app_nil_r in Hp. rewrite length_replicate in Hl.
  pstep E. eexists _, ncs. split; [reflexivity|]. split; [|split; [exact Hpay|done]].
  destruct T as [Th Tc Tcs Tl Ts Td Tn Tnd Tdom Tpl].
  assert (Hdom : forall p, is_Some (h !! p) <-> is_Some (items w !! p)).
  { intros p. apply (f_equal (lookup p)) in Hpay. rewrite !payload_lookup in Hpay.
    change (items w1) with (items w) in Hpay. by destruct (h !! p), (items w !! p). }
  split; [done|done|done|done|unfold kMinNumBuckets; cbn; lia|done| | | |].
  - change (num_items (lh w) = u64 (Z.of_nat (size h))). rewrite Tn. do 2 f_equal.
    rewrite <-(map_size_fmap (fun it => (data it, hash it)) h).
    rewrite <-(map_size_fmap (fun it => (data it, hash it)) (items w)).
    fold (payload h) (payload (items w)). by rewrite Hpay.
  - by rewrite Hp.
  - intros p. change (p ∈ concat ncs <-> is_Some (h !! p)). by rewrite Hp, Hdom.
  - intros i l p it Hi Hx Hit. split; [|by eapply Hpl].
    destruct (payload_item h (items w) p it Hpay Hit) as (it' & Hit' & <- & <-).
    assert (Hin : p ∈ concat chains) by (rewrite <-Hp; apply in_chain; eauto).
    apply in_chain in Hin as (j & lj & Hj & Hpj). by eapply Tpl.
Qed.

Lemma lh_maybe_resize_spec w chains :
  table w chains ->
  exists w' chains', lh_maybe_resize w = Some (tt, w') /\ table w' chains'
    /\ payload (items w') = payload (items w) /\ kept w w'.
Proof.
  intros T. pose proof (t_size _ _ _ _ T) as Hs. unfold lh_maybe_resize.
  unfold mbind at 1, part_bind at 1, get_st. cbv zeta.
  assert (Hstay : exists w' chains', (mret tt : lhM unit) w = Some (tt, w') /\ table w' chains'
    /\ payload (items w') = payload (items w) /\ kept w w') by (exists w, chains; by split_and!).
  destruct (0 <? callback_depth (lh w)); [exact Hstay|].
  unfold c_assert. rewrite (proj2 (Z.leb_le _ _) (proj1 Hs)).
  unfold mbind at 1, part_bind at 1, mret at 1, part_ret at 1.
  unfold kMinNumBuckets in *.
  destruct (kMaxAverageChainLength <? _).
  - destruct (Z.ltb_spec (num_buckets (lh w)) (u64 (num_buckets (lh w) * 2))); [|exact Hstay].
    apply (lh_rebucket_spec w chains _ T). unfold kMinNumBuckets.
    pose proof (u64_range (num_buckets (lh w) * 2)). lia.
  - destruct (_ && _); [|exact Hstay]. apply (lh_rebucket_spec w chains _ T). unfold kMinNumBuckets.
    case_bool; [lia|]. split; [lia|]. div_lia.
Qed.

(** Nothing is resized while the table is being visited. *)
Lemma lh_maybe_resize_visiting w :
  0 < callback_depth (lh w) -> lh_maybe_resize w = Some (tt, w).
Proof.
  intros H. unfold lh_maybe_resize, mbind, part_bind, get_st. cbv zeta.
  by rewrite (proj2 (Z.ltb_lt _ _) H).
Qed.
End resize.
