(* ===== verification/LhashMap.v ===== *)
(** * BoringSSL: the hash table is a map

    Against an abstract map from keys to elements: what looking up, inserting and
    deleting do, that freeing a table frees every item once, and the refinement
    of the map by any sequence of operations. *)
From S2P Require Export LhashSpec.

Section map.
Context {hf : lhash_hash_func} {cmp : lhash_cmp_func}.
Context {K : Type} `{Countable K} (key : Z -> K).

(** The map the heap holds, under the keys of the elements. *)
Definition holds (h : gmap Z LHASH_ITEM) (m : gmap K Z) : Prop :=
  size m = size h
  /\ (forall p p' it it', h !! p = Some it -> h !! p' = Some it' ->
        key (data it) = key (data it') -> p = p')
  /\ (forall k d, m !! k = Some d <-> exists p it, h !! p = Some it /\ data it = d /\ key d = k).

Lemma holds_payload h h' m : payload h = payload h' -> holds h m -> holds h' m.
Proof.
  intros E (Hs & Hi & Hm). split_and!.
  - rewrite Hs, <-(map_size_fmap (fun it => (data it, hash it)) h).
    fold (payload h). rewrite E. apply map_size_fmap.
  - intros p p' it it' Hp Hp' Hk.
    destruct (payload_item h' h p it (eq_sym E) Hp) as (i1 & H1' & E1 & _).
    destruct (payload_item h' h p' it' (eq_sym E) Hp') as (i2 & H2' & E2 & _).
    apply (Hi p p' i1 i2 H1' H2'). congruence.
  - intros k d. rewrite Hm. split; intros (p & it & Hp & Hd & Hk).
    + destruct (payload_item h h' p it E Hp) as (i & ? & ? & _). exists p, i. split_and!; congruence.
    + destruct (payload_item h' h p it (eq_sym E) Hp) as (i & ? & ? & _). exists p, i. split_and!; congruence.
Qed.

Lemma holds_lookup h m p it : holds h m -> h !! p = Some it -> m !! key (data it) = Some (data it).
Proof. intros (_ & _ & Hm) Hp. apply Hm. eauto. Qed.

Lemma holds_delete h m q it :
  holds h m -> h !! q = Some it -> holds (delete q h) (delete (key (data it)) m).
Proof.
  intros Hh Hq. pose proof (holds_lookup _ _ _ _ Hh Hq) as Hk. destruct Hh as (Hs & Hi & Hm).
  split_and!.
  - rewrite !map_size_delete, Hk, Hq. lia.
  - intros p p' ip ip' Hp Hp'. apply lookup_delete_Some in Hp as [_ Hp], Hp' as [_ Hp']. eauto.
  - intros k d. rewrite lookup_delete_Some, Hm. split.
    + intros [Hne (p & ip & Hp & Hd & Hkd)]. exists p, ip. split; [|done].
      apply lookup_delete_Some. split; [|done]. intros ->. congruence.
    + intros (p & ip & Hp & Hd & Hkd). apply lookup_delete_Some in Hp as [Hne Hp]. split; [|eauto].
      intros E. apply Hne, (Hi q p it ip); congruence.
Qed.

Lemma holds_insert h m p it :
  holds h m -> h !! p = None -> m !! key (data it) = None ->
  holds (<[p := it]> h) (<[key (data it) := data it]> m).
Proof.
  intros Hh Hp Hk. pose proof (holds_lookup h m) as Hl. destruct Hh as (Hs & Hi & Hm). split_and!.
  - rewrite !map_size_insert_None by done. congruence.
  - intros q q' iq iq' Hq Hq' E. apply lookup_insert_Some in Hq as [[<- <-]|[Hn Hq]];
      apply lookup_insert_Some in Hq' as [[<- <-]|[Hn' Hq']]; [done| | |by eapply Hi].
    + rewrite E, (Hl q' iq') in Hk by done. done.
    + rewrite <-E, (Hl q iq) in Hk by done. done.
  - intros k d. rewrite lookup_insert_Some, Hm. split.
    + intros [[<- <-]|[Hne (q & iq & Hq & Hd & Hkd)]].
      * exists p, it. by rewrite lookup_insert_eq.
      * exists q, iq. rewrite lookup_insert_ne by congruence. done.
    + intros (q & iq & Hq & Hd & Hkd). apply lookup_insert_Some in Hq as [[<- <-]|[Hn Hq]]; [left; by subst|].
      right. split; [|eauto]. intros E.
      assert (Hsome : m !! k = Some d) by (apply Hm; eauto). congruence.
Qed.

Lemma holds_replace h m q it it' :
  holds h m -> h !! q = Some it -> key (data it') = key (data it) ->
  holds (<[q := it']> h) (<[key (data it') := data it']> m).
Proof.
  intros Hh Hq E. pose proof (holds_delete h m q it Hh Hq) as Hd. rewrite <-E in Hd.
  rewrite <-insert_delete_eq, <-(insert_delete_eq m). apply holds_insert; [done|..]; apply lookup_delete_eq.
Qed.

(** ** Looking up *)

Context (hf_key : forall a b, key a = key b -> hf a = hf b).
Context (cmp_key : forall a b, cmp a b = 0 <-> key a = key b).
Notation table := (table hf cmp).

Lemma first_match (f : Z -> bool) (l : list Z) :
  exists l1 l2, l = l1 ++ l2 /\ (forall q, q ∈ l1 -> f q = false)
    /\ (forall q, head l2 = Some q -> f q = true).
Proof.
  induction l as [|x l (l1 & l2 & -> & H1 & H2)].
  - exists [], []. split_and!; [done|by intros ? ?%elem_of_nil|done].
  - destruct (f x) eqn:E; [exists [], (x :: l1 ++ l2)|exists (x :: l1), l2]; split_and!; try done.
    + by intros ? ?%elem_of_nil.
    + by intros q [= <-].
    + intros q [-> | Hq]%elem_of_cons; auto.
Qed.

Lemma find_spec w chains m same k h0 :
  table w chains -> holds (items w) m ->
  (forall d, same d = true <-> key d = k) -> (forall d, key d = k -> hf d = h0) ->
  exists l1 l2,
    chains !! Z.to_nat (h0 mod num_buckets (lh w)) = Some (l1 ++ l2)
    /\ next_ptr_loop (chain_fuel w) same (Bucket (h0 mod num_buckets (lh w))) w
       = Some (slot_after (Bucket (h0 mod num_buckets (lh w))) l1, w)
    /\ load_slot (slot_after (Bucket (h0 mod num_buckets (lh w))) l1) w = Some (first l2, w)
    /\ match l2 with
       | [] => m !! k = None
       | q :: _ => q <> NULL /\ exists it, items w !! q = Some it
                     /\ key (data it) = k /\ m !! k = Some (data it)
       end.
Proof.
  intros T Hh Hsame Hk. set (i := h0 mod num_buckets (lh w)).
  destruct (table_index w chains h0 T) as [l Hl]. fold i in Hl.
  destruct (table_bucket w chains _ l T Hl) as (Hb & Hc & Hnd & Hfuel).
  destruct (first_match (fun q => match items w !! q with Some it => same (data it) | None => false end) l)
    as (l1 & l2 & -> & H1 & H2).
  exists l1, l2. split; [done|]. apply (load_bucket w i) in Hb.
  split; [|split; [by eapply load_slot_after|]].
  - eapply next_ptr_loop_spec; [done|done| | |rewrite length_app in Hfuel; lia].
    + intros q it Hq Hit. specialize (H1 q Hq). by rewrite Hit in H1.
    + intros q it Hq Hit. specialize (H2 q Hq). by rewrite Hit in H2.
  - destruct l2 as [|q l2].
    + destruct (m !! k) as [d|] eqn:Em; [|done]. exfalso. rewrite app_nil_r in Hl.
      apply Hh in Em as (p & it & Hp & Hd & Hkd).
      assert (Hin : p ∈ concat chains) by (apply (t_dom _ _ _ _ T); eauto).
      apply in_chain in Hin as (j & lj & Hj & Hpj).
      destruct (t_place _ _ _ _ T j lj p it Hj Hpj Hp) as [Hhash <-].
      rewrite Hhash, Hd, (Hk d Hkd) in Hj. fold i in Hj. rewrite Hl in Hj. injection Hj as <-.
      specialize (H1 p Hpj). rewrite Hp, Hd in H1. apply Hsame in Hkd. congruence.
    + destruct (chain_inv _ _ _ _ _ Hc) as (Hq & it & Hit & _). split; [done|]. exists it.
      split; [done|]. specialize (H2 q eq_refl). rewrite Hit in H2. apply Hsame in H2 as E.
      split; [done|]. rewrite <-E. by eapply holds_lookup.
Qed.

(** The comparison of a table finds the element with the key of [d]. *)
Lemma find_data w chains m d :
  table w chains -> holds (items w) m ->
  exists l1 l2,
    chains !! Z.to_nat (hf d mod num_buckets (lh w)) = Some (l1 ++ l2)
    /\ get_next_ptr_and_hash d lh_call_hash_func lh_call_cmp_func w
       = Some ((slot_after (Bucket (hf d mod num_buckets (lh w))) l1, hf d), w)
    /\ load_slot (slot_after (Bucket (hf d mod num_buckets (lh w))) l1) w = Some (first l2, w)
    /\ match l2 with
       | [] => m !! key d = None
       | q :: _ => q <> NULL /\ exists it, items w !! q = Some it
                     /\ key (data it) = key d /\ m !! key d = Some (data it)
       end.
Proof.
  intros T Hh.
  destruct (find_spec w chains m (fun d' => lh_call_cmp_func (comp (lh w)) d' d =? 0) (key d) (hf d) T Hh)
    as (l1 & l2 & Hl & Hn & Hs & Hm).
  { intros d'. unfold lh_call_cmp_func. by rewrite Z.eqb_eq, (t_comp _ _ _ _ T). }
  { intros d' E. by apply hf_key. }
  exists l1, l2. split; [done|]. split; [|done].
  unfold get_next_ptr_and_hash. unfold mbind at 1, part_bind at 1, get_st. cbv zeta.
  unfold lh_call_hash_func. rewrite (t_hash _ _ _ _ T). by pstep Hn.
Qed.

Lemma data_of_spec w s l2 (o : option Z) :
  load_slot s w = Some (first l2, w) ->
  match l2 with
  | [] => o = None
  | q :: _ => q <> NULL /\ exists it, items w !! q = Some it /\ o = Some (data it)
  end -> data_of s w = Some (default NULL o, w).
Proof.
  intros Hs Hl. unfold data_of. pstep Hs. destruct l2 as [|q l2]; [by subst o|].
  destruct Hl as (Hq & it & Hit & ->). change (first (q :: l2)) with q.
  rewrite (proj2 (Z.eqb_neq q NULL) Hq). by pstep (load_item_some w q it).
Qed.

Lemma lh_retrieve_spec w chains m d :
  table w chains -> holds (items w) m ->
  lh_retrieve d w = Some (default NULL (m !! key d), w).
Proof.
  intros T Hh. destruct (find_data w chains m d T Hh) as (l1 & l2 & _ & Hg & Hs & Hm).
  unfold lh_retrieve, OPENSSL_lh_retrieve. pstep Hg. apply (data_of_spec w _ l2); [done|].
  destruct l2; [done|]. destruct Hm as (Hq & it & Hit & _ & E). eauto.
Qed.

Lemma lh_retrieve_key_spec w chains m k0 h0 cmp_key0 k :
  table w chains -> holds (items w) m ->
  (forall d, cmp_key0 k0 d = 0 <-> key d = k) -> (forall d, key d = k -> hf d = h0) ->
  OPENSSL_lh_retrieve_key k0 h0 cmp_key0 w = Some (default NULL (m !! k), w).
Proof.
  intros T Hh Hc Hk.
  destruct (find_spec w chains m (fun d => cmp_key0 k0 d =? 0) k h0 T Hh)
    as (l1 & l2 & Hl & Hn & Hs & Hm); [intros d; by rewrite Z.eqb_eq|done|].
  assert (Hg : get_next_ptr_by_key k0 h0 cmp_key0 w
    = Some (slot_after (Bucket (h0 mod num_buckets (lh w))) l1, w)) by exact Hn.
  unfold OPENSSL_lh_retrieve_key. pstep Hg. apply (data_of_spec w _ l2); [done|].
  destruct l2; [done|]. destruct Hm as (Hq & it & Hit & _ & E). eauto.
Qed.

(** ** Deleting and inserting *)

(** The chain an item with data [d] belongs to. *)
Notation bucket w d := (Z.to_nat (hf d mod num_buckets (lh w))).

(** Unlinking and freeing an item, before the table is resized. *)
Definition unlinked (w : lh_world) (i : Z) (l1 : list Z) (q : Z) (it : LHASH_ITEM) : lh_world :=
  set_num_items (u64 (num_items (lh w) - 1))
    (set_items (delete q (relinked (items w) l1 (next it)))
       (set_buckets (rehung (buckets (lh w)) i l1 (next it)) w)).

Lemma unlinked_payload w i l1 q it :
  payload (items (unlinked w i l1 q it)) = payload (delete q (items w)).
Proof.
  unfold payload. cbn [items unlinked set_num_items set_lh set_items]. rewrite !fmap_delete. f_equal.
  apply relinked_payload.
Qed.

Lemma table_unlinked w chains i l1 q l2 it :
  table w chains -> chains !! Z.to_nat i = Some (l1 ++ q :: l2) -> items w !! q = Some it ->
  table (unlinked w i l1 q it) (<[Z.to_nat i := l1 ++ l2]> chains).
Proof.
  intros T Hl Hit. destruct (table_bucket w chains _ _ T Hl) as (Hb & Hc & Hnd & _).
  destruct (chain_inv _ _ _ _ _ Hc) as (_ & it' & Hit' & Hc2). rewrite Hit in Hit'. injection Hit' as <-.
  apply NoDup_app in Hnd as (Hn1 & Hd12 & Hn2). apply NoDup_cons in Hn2 as [Hq2 Hn2].
  assert (Hq1 : q ∉ l1) by (intros Hq1; by apply (Hd12 q Hq1); left).
  pose proof (unlinked_payload w i l1 q it) as Hpay.
  set (w2 := unlinked w i l1 q it) in *. set (h1 := relinked (items w) l1 (next it)) in *.
  assert (Hi2 : items w2 = delete q h1) by done.
  apply (table_set w w2 chains _ (l1 ++ q :: l2) (l1 ++ l2) T Hl); try (by destruct T).
  - change (rehung (buckets (lh w)) i l1 (next it) = <[Z.to_nat i := first (l1 ++ l2)]> (buckets (lh w))).
    destruct l1 as [|y l1]; cbn [rehung app]; [by rewrite (chain_first _ _ _ Hc2)|].
    symmetry. by apply list_insert_id.
  - change (u64 (num_items (lh w) - 1) = u64 (Z.of_nat (size (items w2)))).
    rewrite <-(map_size_fmap (fun it => (data it, hash it)) (items w2)).
    fold (payload (items w2)). rewrite Hpay. unfold payload. rewrite map_size_fmap, map_size_delete, Hit.
    rewrite (t_count _ _ _ _ T). assert (Hpos : (0 < size (items w))%nat).
    { apply Nat.neq_0_lt_0. intros E. apply map_size_empty_inv in E. by rewrite E in Hit. }
    unfold u64. rewrite Zminus_mod_idemp_l. f_equal. lia.
  - assert (Hrel := chain_relinked (items w) l1 (q :: l2) (next it) l2 _ Hn1 Hc
      ltac:(intros z Hz Hz2; apply (Hd12 z Hz); by right) Hc2).
    assert (Hp : (match l1 with [] => next it | _ => first (l1 ++ q :: l2) end) = first (l1 ++ l2)).
    { destruct l1; [by apply chain_first in Hc2|done]. }
    rewrite Hp in Hrel. apply (chain_ext h1); [exact Hrel|]. intros z Hz.
    rewrite Hi2, lookup_delete_ne; [done|]. set_solver.
  - apply NoDup_app. split_and!; [done| |done]. intros z Hz Hz2. apply (Hd12 z Hz). by right.
  - intros z Hz. left. set_solver.
  - intros z Hz _. rewrite Hi2, lookup_delete_ne by set_solver. apply relinked_other. set_solver.
  - intros z Hz Hz2. assert (z = q) as -> by set_solver. rewrite Hi2. apply lookup_delete_eq.
  - intros z iz Hz Hiz. destruct (payload_item _ (delete q (items w)) z iz Hpay Hiz) as (iz' & Hiz' & <- & <-).
    apply lookup_delete_Some in Hiz' as [_ Hiz'].
    apply (t_place _ _ _ _ T _ _ z iz' Hl); [set_solver|done].
Qed.

Lemma lh_delete_found w chains m d x :
  table w chains -> holds (items w) m -> m !! key d = Some x ->
  exists l1 q l2 w2,
    chains !! bucket w d = Some (l1 ++ q :: l2)
    /\ (exists it, items w !! q = Some it /\ data it = x)
    /\ lh_delete d w = (_ ← lh_maybe_resize; mret x) w2
    /\ table w2 (<[bucket w d := l1 ++ l2]> chains)
    /\ holds (items w2) (delete (key d) m) /\ kept w w2
    /\ num_buckets (lh w2) = num_buckets (lh w)
    /\ payload (items w2) = delete q (payload (items w)).
Proof.
  intros T Hh Hx. destruct (find_data w chains m d T Hh) as (l1 & l2 & Hl & Hg & Hs & Hm).
  destruct l2 as [|q l2]; [congruence|]. destruct Hm as (Hq & it & Hit & Hkey & Hmk).
  rewrite Hx in Hmk. injection Hmk as ->. set (i := hf d mod num_buckets (lh w)) in *.
  destruct (table_bucket w chains _ _ T Hl) as (Hb & Hc & Hnd & _).
  assert (Hq1 : q ∉ l1).
  { intros Hq1. apply NoDup_app in Hnd as (_ & Hd12 & _). by apply (Hd12 q Hq1); left. }
  exists l1, q, l2, (unlinked w i l1 q it). split; [done|]. split; [eauto|].
  split; [|split; [by apply table_unlinked|split; [|split; [done|split; [done|]]]]].
  - unfold lh_delete, OPENSSL_lh_delete. pstep Hg. cbn [fst]. cbv zeta. pstep Hs.
    change (first (q :: l2)) with q. rewrite (proj2 (Z.eqb_neq q NULL) Hq).
    pstep (load_item_some w q it).
    pstep (store_slot_after w i l1 (q :: l2) (first (l1 ++ q :: l2)) (next it) Hb Hc).
    unfold mbind at 1, part_bind at 1, free_item. cbn [items set_items set_buckets set_lh].
    rewrite relinked_other by done. by rewrite Hit.
  - rewrite <-Hkey. apply (holds_payload (delete q (items w))); [symmetry; apply unlinked_payload|].
    by apply holds_delete.
  - rewrite unlinked_payload. apply fmap_delete.
Qed.

Lemma lh_delete_missing w chains m d :
  table w chains -> holds (items w) m -> m !! key d = None -> lh_delete d w = Some (NULL, w).
Proof.
  intros T Hh Hx. destruct (find_data w chains m d T Hh) as (l1 & l2 & Hl & Hg & Hs & Hm).
  unfold lh_delete, OPENSSL_lh_delete. pstep Hg. cbn [fst]. cbv zeta. pstep Hs.
  destruct l2 as [|q l2]; [done|]. destruct Hm as (_ & it & _ & _ & E). congruence.
Qed.

Lemma lh_delete_spec w chains m d :
  table w chains -> holds (items w) m ->
  exists w' chains', lh_delete d w = Some (default NULL (m !! key d), w') /\ table w' chains'
    /\ holds (items w') (delete (key d) m) /\ kept w w'.
Proof.
  intros T Hh. destruct (m !! key d) as [x|] eqn:Hx.
  - destruct (lh_delete_found w chains m d x T Hh Hx) as (l1 & q & l2 & w2 & _ & _ & -> & T2 & Hh2 & Hk & _).
    destruct (lh_maybe_resize_spec w2 _ T2) as (w' & chains' & Hr & T' & Hpay & Hk').
    exists w', chains'. split; [by pstep Hr|]. split; [done|]. split; [|by eapply lh_kept_trans].
    by apply (holds_payload (items w2)).
  - exists w, chains. split; [by apply (lh_delete_missing w chains m)|].
    by rewrite delete_id by done.
Qed.

(** Linking a new item at the end of its chain, before the table is resized. *)
Definition linked (w : lh_world) (r : list bool) (i : Z) (l1 : list Z) (p : Z)
    (it : LHASH_ITEM) : lh_world :=
  set_num_items (u64 (num_items (lh w) + 1))
    (set_items (relinked (<[p := it]> (items w)) l1 p)
       (set_buckets (rehung (buckets (lh w)) i l1 p) (mk_lh_world (lh w) (items w) r))).

Lemma linked_payload w r i l1 p it :
  payload (items (linked w r i l1 p it)) = payload (<[p := it]> (items w)).
Proof. apply relinked_payload. Qed.

Lemma table_linked w chains r i l1 p it :
  table w chains -> chains !! Z.to_nat i = Some l1 -> items w !! p = None -> p <> NULL ->
  next it = NULL -> hash it = hf (data it) ->
  Z.to_nat (hash it mod num_buckets (lh w)) = Z.to_nat i ->
  table (linked w r i l1 p it) (<[Z.to_nat i := l1 ++ [p]]> chains).
Proof.
  intros T Hl Hp Hp0 Hnx Hhash Hplace. destruct (table_bucket w chains _ _ T Hl) as (Hb & Hc & Hnd & _).
  assert (Hp1 : p ∉ l1).
  { intros Hp1. destruct (chain_alloc _ _ _ Hc p Hp1) as [_ Hs]. rewrite Hp in Hs. by destruct Hs. }
  pose proof (linked_payload w r i l1 p it) as Hpay.
  set (w2 := linked w r i l1 p it) in *. set (h1 := <[p := it]> (items w)) in *.
  assert (Hi2 : items w2 = relinked h1 l1 p) by done.
  assert (Hc1 : chain h1 (first l1) (l1 ++ [])).
  { rewrite app_nil_r. apply (chain_ext (items w)); [done|]. intros z Hz. unfold h1.
    rewrite lookup_insert_ne; [done|]. by intros ->. }
  apply (table_set w w2 chains _ l1 (l1 ++ [p]) T Hl); try (by destruct T).
  - change (rehung (buckets (lh w)) i l1 p = <[Z.to_nat i := first (l1 ++ [p])]> (buckets (lh w))).
    destruct l1 as [|y l1]; [done|]. symmetry. by apply list_insert_id.
  - change (u64 (num_items (lh w) + 1) = u64 (Z.of_nat (size (items w2)))).
    rewrite <-(map_size_fmap (fun it => (data it, hash it)) (items w2)).
    fold (payload (items w2)). rewrite Hpay. unfold payload, h1. rewrite map_size_fmap, map_size_insert_None by done.
    rewrite (t_count _ _ _ _ T). unfold u64. rewrite Zplus_mod_idemp_l. f_equal. lia.
  - assert (Hrel := chain_relinked h1 l1 [] p [p] _ Hnd Hc1
      ltac:(intros z Hz Hz2%list_elem_of_singleton; by subst z)
      ltac:(split; [done|]; split; [done|]; exists it; by rewrite Hnx; unfold h1; rewrite lookup_insert_eq)).
    assert (Hf : (match l1 with [] => p | _ => first l1 end) = first (l1 ++ [p])) by (by destruct l1).
    by rewrite Hf in Hrel.
  - apply NoDup_app. split_and!; [done| |apply NoDup_singleton]. intros z Hz Hz2%list_elem_of_singleton. by subst z.
  - intros z [Hz|Hz%list_elem_of_singleton]%elem_of_app; [by left|right; by subst z].
  - intros z Hz Hz2. rewrite Hi2, relinked_other by done. unfold h1. rewrite lookup_insert_ne; [done|]. set_solver.
  - intros z Hz Hz2. set_solver.
  - intros z iz Hz Hiz. destruct (payload_item _ h1 z iz Hpay Hiz) as (iz' & Hiz' & <- & <-).
    apply lookup_insert_Some in Hiz' as [[<- <-]|[Hne Hiz']]; [done|].
    apply (t_place _ _ _ _ T _ _ z iz' Hl); [set_solver|done].
Qed.

(** An element with the key of the new one is replaced where it is. *)
Lemma table_replaced w chains p it it' :
  table w chains -> items w !! p = Some it -> next it' = next it -> hash it' = hash it ->
  hf (data it') = hf (data it) -> table (set_items (<[p := it']> (items w)) w) chains.
Proof.
  intros T Hp Hn Hh Hf. pose proof (t_place _ _ _ _ T) as Hpl.
  assert (Hdom : forall z, is_Some (<[p := it']> (items w) !! z) <-> is_Some (items w !! z)).
  { intros z. destruct (decide (z = p)) as [-> | Hz]; [|by rewrite lookup_insert_ne].
    rewrite lookup_insert_eq, Hp. split; intros _; eauto. }
  destruct T as [Th Tc Tcs Tl Ts Td Tn Tnd Tdom _]. split; try done.
  - eapply Forall2_impl; [exact Tcs|]. intros x l Hc. apply (chain_ext (items w)); [done|].
    intros z _. cbn [items set_items]. destruct (decide (z = p)) as [-> | Hz]; [|by rewrite lookup_insert_ne].
    rewrite lookup_insert_eq, Hp. cbn. by rewrite Hn.
  - change (num_items (lh w) = u64 (Z.of_nat (size (<[p := it']> (items w))))).
    by rewrite map_size_insert_Some by eauto.
  - intros z. change (z ∈ concat chains <-> is_Some (<[p := it']> (items w) !! z)). by rewrite Hdom.
  - intros j l z iz Hj Hz Hiz. cbn [items set_items] in Hiz.
    apply lookup_insert_Some in Hiz as [[<- <-]|[_ Hiz]]; [|by eapply Hpl].
    rewrite Hh, Hf. by eapply Hpl.
Qed.

Context (malloc : gmap Z LHASH_ITEM -> Z).
Context (malloc_fresh : forall h, malloc h <> NULL /\ h !! malloc h = None).

(** An element with a new key. *)
Lemma lh_insert_new w chains m d :
  table w chains -> holds (items w) m -> m !! key d = None ->
  exists w',
    (lh_insert malloc d w = Some ((1, NULL), w')
       /\ exists chains', table w' chains' /\ holds (items w') (<[key d := d]> m) /\ kept w w')
    \/ (lh_insert malloc d w = Some ((0, NULL), w')
          /\ table w' chains /\ holds (items w') m /\ kept w w' /\ true ∈ lh_oom w).
Proof.
  intros T Hh Hx. destruct (find_data w chains m d T Hh) as (l1 & l2 & Hl & Hg & Hs & Hm).
  destruct l2 as [|q l2]; [|destruct Hm as (_ & ? & _ & _ & ?); congruence].
  destruct (alloc_ok_spec w) as (b & r & Ea & Hr & Hb).
  set (w1 := mk_lh_world (lh w) (items w) r) in *. set (i := hf d mod num_buckets (lh w)) in *.
  set (it := mk_item d NULL (hf d)). destruct b.
  2:{ assert (Hnew : new_item malloc it w = Some (NULL, w1)) by (unfold new_item; by pstep Ea).
      exists w1. right. split; [|split; [by destruct T|]; split; [done|]; split; [by split|by apply Hb]].
      unfold lh_insert, OPENSSL_lh_insert. pstep Hg. cbv beta iota. pstep Hs.
      change (first []) with NULL. cbn [Z.eqb NULL negb]. by pstep Hnew. }
  destruct (malloc_fresh (items w)) as [Hp0 Hp]. set (p := malloc (items w)) in *.
  assert (Hnew : new_item malloc it w = Some (p, set_items (<[p := it]> (items w)) w1)).
  { unfold new_item. by pstep Ea. }
  rewrite app_nil_r in Hl. destruct (table_bucket w chains _ _ T Hl) as (Hbk & Hc & _ & _).
  pose proof (table_linked w chains r i l1 p it T Hl Hp Hp0 eq_refl eq_refl eq_refl) as T2.
  destruct (lh_maybe_resize_spec _ _ T2) as (w' & chains' & Hres & T' & Hpay & Hk').
  assert (Hc1 : chain (<[p := it]> (items w)) (first l1) (l1 ++ [])).
  { rewrite app_nil_r. apply (chain_ext (items w)); [done|]. intros z Hz.
    rewrite lookup_insert_ne; [done|]. intros <-. destruct (chain_alloc _ _ _ Hc p Hz) as [_ [? E]]. congruence. }
  exists w'. left. split; [|exists chains'; split; [done|split]].
  - unfold lh_insert, OPENSSL_lh_insert. pstep Hg. cbv beta iota. pstep Hs. change (first []) with NULL.
    cbn [Z.eqb NULL negb]. pstep Hnew. rewrite (proj2 (Z.eqb_neq p NULL) Hp0).
    pstep (store_slot_after (set_items (<[p := it]> (items w)) w1) i l1 [] (first l1) p Hbk Hc1).
    unfold mbind at 1, part_bind at 1, modify. exact (part_bind_some _ _ _ _ _ Hres).
  - apply (holds_payload _ _ _ (eq_sym Hpay)).
    apply (holds_payload (<[p := it]> (items w))); [symmetry; apply linked_payload|].
    by apply (holds_insert (items w) m p it).
  - by apply (lh_kept_trans w (linked w r i l1 p it)).
Qed.

Lemma lh_insert_present w chains m d x :
  table w chains -> holds (items w) m -> m !! key d = Some x ->
  exists w', lh_insert malloc d w = Some ((1, x), w') /\ table w' chains
    /\ holds (items w') (<[key d := d]> m) /\ kept w w'.
Proof.
  intros T Hh Hx. destruct (find_data w chains m d T Hh) as (l1 & l2 & Hl & Hg & Hs & Hm).
  destruct l2 as [|q l2]; [congruence|]. destruct Hm as (Hq & it & Hit & Hkey & Hmk).
  rewrite Hx in Hmk. injection Hmk as ->. set (it' := mk_item d (next it) (hash it)).
  exists (set_items (<[q := it']> (items w)) w). split; [|split; [|split; [|done]]].
  - unfold lh_insert, OPENSSL_lh_insert. pstep Hg. cbv beta iota. pstep Hs. change (first (q :: l2)) with q.
    rewrite (proj2 (Z.eqb_neq q NULL) Hq). cbn [negb]. pstep (load_item_some w q it).
    unfold mbind, part_bind, store_item. by rewrite Hit.
  - apply (table_replaced w chains q it); [done|done|done|done|]. symmetry. by apply hf_key.
  - by apply (holds_replace (items w) m q it it').
Qed.
End map.
