(* ===== verification/LhashOps.v ===== *)
(** * BoringSSL: sequences of operations on the hash table

    The table refines a map through any sequence of operations, can be freed
    after any of them, and can be visited by a callback that deletes what it is
    given. *)
From S2P Require Export LhashMap.

(** ** Operations and the map they refine *)

Inductive lh_op :=
  | op_insert (d : Z)
  | op_delete (d : Z)
  | op_retrieve (d : Z)
  | op_retrieve_key (key key_hash : Z) (cmp_key : Z -> Z -> Z)
  | op_num_items.

Inductive lh_result :=
  | r_insert (status old_data : Z)
  | r_data (p : Z)
  | r_size (n : Z).

Definition lh_step (malloc : gmap Z LHASH_ITEM -> Z) (op : lh_op) : lhM lh_result :=
  match op with
  | op_insert d => r ← lh_insert malloc d; mret (r_insert r.1 r.2)
  | op_delete d => p ← lh_delete d; mret (r_data p)
  | op_retrieve d => p ← lh_retrieve d; mret (r_data p)
  | op_retrieve_key k h c => p ← OPENSSL_lh_retrieve_key k h c; mret (r_data p)
  | op_num_items => n ← OPENSSL_lh_num_items; mret (r_size n)
  end.

Fixpoint lh_run (malloc : gmap Z LHASH_ITEM -> Z) (ops : list lh_op) : lhM (list lh_result) :=
  match ops with
  | [] => mret []
  | op :: ops => r ← lh_step malloc op; rs ← lh_run malloc ops; mret (r :: rs)
  end.

Section spec.
Context {K : Type} `{Countable K} (key : Z -> K) (hf : lhash_hash_func).

(** One operation on the map: an insertion may fail when memory may run out and
    the key is new. *)
Inductive map_step (oom : Prop) (m : gmap K Z) : lh_op -> lh_result -> gmap K Z -> Prop :=
  | map_insert d :
      map_step oom m (op_insert d) (r_insert 1 (default NULL (m !! key d))) (<[key d := d]> m)
  | map_insert_fails d :
      oom -> m !! key d = None -> map_step oom m (op_insert d) (r_insert 0 NULL) m
  | map_delete d :
      map_step oom m (op_delete d) (r_data (default NULL (m !! key d))) (delete (key d) m)
  | map_retrieve d :
      map_step oom m (op_retrieve d) (r_data (default NULL (m !! key d))) m
  | map_retrieve_key k0 h0 c k :
      (forall d, c k0 d = 0 <-> key d = k) ->
      map_step oom m (op_retrieve_key k0 h0 c) (r_data (default NULL (m !! k))) m
  | map_num_items :
      map_step oom m op_num_items (r_size (u64 (Z.of_nat (size m)))) m.

Inductive map_run (oom : Prop) (m : gmap K Z) : list lh_op -> list lh_result -> gmap K Z -> Prop :=
  | map_done : map_run oom m [] [] m
  | map_next op r m1 ops rs m2 :
      map_step oom m op r m1 -> map_run oom m1 ops rs m2 ->
      map_run oom m (op :: ops) (r :: rs) m2.

(** A search by key comes with a comparison for one key, and that key's hash. *)
Definition op_ok (op : lh_op) : Prop :=
  match op with
  | op_retrieve_key k0 h0 c =>
      exists k, (forall d, c k0 d = 0 <-> key d = k) /\ (forall d, key d = k -> hf d = h0)
  | _ => True
  end.

(** A well-formed table that holds the map [m]. *)
Definition is_map (cmp : lhash_cmp_func) (w : lh_world) (m : gmap K Z) : Prop :=
  exists chains, table hf cmp w chains /\ holds key (items w) m.
End spec.

(** ** Making and freeing *)

Lemma new_is_map {K} `{Countable K} (key : Z -> K) hf cmp oom w :
  OPENSSL_lh_new hf cmp oom = Some w ->
  is_map key hf cmp w ∅ /\ (forall b, b ∈ lh_oom w -> b ∈ oom).
Proof.
  intros Hw. assert (Hw' : w = mk_lh_world (mk_lhash 0 (replicate 16 NULL) 16 0 cmp hf) ∅ (drop 2 oom)).
  { unfold OPENSSL_lh_new in Hw. destruct oom as [|[] [|[] ?]]; by inversion Hw. }
  subst w. split; [|intros b Hb; rewrite <-(take_drop 2 oom); apply elem_of_app; by right].
  exists (replicate 16 []). split.
  - split; try (done || apply NoDup_nil_2).
    + apply (empty_buckets _ 16).
    + intros p. cbn [items]. rewrite lookup_empty. cbn. rewrite elem_of_nil.
      by split; [|intros [? ?]].
  - split_and!; [done|done|].
    intros k d. rewrite lookup_empty. split; [done|]. by intros (p & it & Hp & _).
Qed.

Lemma free_chain_spec l : forall fuel p w,
  chain (items w) p l -> NoDup l -> (length l < fuel)%nat ->
  exists h', free_chain fuel p w = Some (tt, set_items h' w)
    /\ (forall x, h' !! x = if decide (x ∈ l) then None else items w !! x).
Proof.
  induction l as [|q l IH]; intros [|fuel] p w Hc Hn Hf; cbn [length] in Hf; try lia; cbn [free_chain].
  - rewrite Hc. exists (items w). split; [by destruct w|]. intros x. by rewrite decide_False by apply not_elem_of_nil.
  - destruct Hc as (-> & Hq & it & Hit & Hc). apply NoDup_cons in Hn as [Hql Hn].
    rewrite (proj2 (Z.eqb_neq q NULL) Hq). pstep (load_item_some w q it).
    destruct (IH fuel (next it) (set_items (delete q (items w)) w)) as (h' & E & Hh'); [|done|lia|].
    { apply (chain_ext (items w)); [done|]. intros x Hx. cbn [items set_items].
      rewrite lookup_delete_ne; [done|]. by intros ->. }
    exists h'. split.
    + unfold mbind at 1, part_bind at 1, free_item. rewrite Hit. exact E.
    + intros x. rewrite Hh'. cbn [items set_items]. destruct (decide (x ∈ l)).
      * by rewrite decide_True by (by right).
      * destruct (decide (x = q)) as [-> | Hx]; [by rewrite lookup_delete_eq, decide_True by left|].
        rewrite lookup_delete_ne by done. by rewrite decide_False by set_solver.
Qed.

Lemma free_buckets_spec todo : forall i w,
  0 <= i -> Forall2 (chain (items w)) (drop (Z.to_nat i) (buckets (lh w))) todo ->
  NoDup (concat todo) ->
  exists h', free_buckets (length todo) i w = Some (tt, set_items h' w)
    /\ (forall x, h' !! x = if decide (x ∈ concat todo) then None else items w !! x).
Proof.
  induction todo as [|l todo IH]; intros i w Hi Hold Hn; cbn [length free_buckets concat] in *.
  - exists (items w). split; [by destruct w|]. intros x. by rewrite decide_False by apply not_elem_of_nil.
  - destruct (drop (Z.to_nat i) (buckets (lh w))) as [|cur olds] eqn:Ed; [by inversion Hold|].
    apply Forall2_cons in Hold as [Hc Hold]. apply NoDup_app in Hn as (Hl & Hd & Hn).
    assert (Hcur : buckets (lh w) !! Z.to_nat i = Some cur).
    { by rewrite <-(Nat.add_0_r (Z.to_nat i)), <-lookup_drop, Ed. }
    pstep (load_bucket w i cur). unfold mbind at 1, part_bind at 1, get_st.
    destruct (free_chain_spec l (chain_fuel w) cur w Hc Hl) as (h1 & E1 & Hh1).
    { apply chain_fuel_enough; [done|]. intros q Hq. by apply (chain_alloc _ _ _ Hc). }
    destruct (IH (i + 1) (set_items h1 w)) as (h' & E & Hh'); [lia| |done|].
    { cbn [lh set_items set_lh]. replace (Z.to_nat (i + 1)) with (Z.to_nat i + 1)%nat by lia.
      rewrite <-drop_drop, Ed. cbn [items].
      apply Forall2_same_length_lookup_2; [by eapply Forall2_length|]. intros j p lp Hp Hlp.
      pose proof (Forall2_lookup_lr _ _ _ _ _ _ Hold Hp Hlp) as Hcp.
      apply (chain_ext (items w)); [done|]. intros x Hx. rewrite Hh1, decide_False; [done|].
      intros Hxl. apply (Hd x Hxl), in_chain. eauto. }
    exists h'. split; [pstep E1; exact E|]. intros x. rewrite Hh'. cbn [items set_items].
    rewrite Hh1. repeat case_decide; set_solver.
Qed.

Lemma lh_free_spec hf cmp w chains :
  table hf cmp w chains -> exists w', OPENSSL_lh_free w = Some (tt, w') /\ items w' = ∅.
Proof.
  intros T. destruct (free_buckets_spec chains 0 w ltac:(lia)) as (h' & E & Hh');
    [apply (t_chains _ _ _ _ T)|apply (t_nodup _ _ _ _ T)|].
  exists (set_items h' w). split.
  - unfold OPENSSL_lh_free, mbind, part_bind, get_st. by rewrite <-(t_len _ _ _ _ T).
  - apply map_eq. intros p. cbn [items set_items]. rewrite Hh', lookup_empty.
    case_decide as Hp; [done|]. rewrite (t_dom _ _ _ _ T) in Hp. by apply eq_None_not_Some.
Qed.

(** ** The refinement *)

Section refinement.
Context {K : Type} `{Countable K} (key : Z -> K).
Context (hf : lhash_hash_func) (cmp : lhash_cmp_func) (malloc : gmap Z LHASH_ITEM -> Z).
Context (hf_key : forall a b, key a = key b -> hf a = hf b).
Context (cmp_key : forall a b, cmp a b = 0 <-> key a = key b).
Context (malloc_fresh : forall h, malloc h <> NULL /\ h !! malloc h = None).
Notation is_map := (is_map key hf cmp).

Lemma lh_step_spec op w m :
  is_map w m -> op_ok key hf op ->
  exists r w' m', lh_step malloc op w = Some (r, w') /\ is_map w' m' /\ kept w w'
    /\ map_step key (true ∈ lh_oom w) m op r m'.
Proof.
  intros (chains & T & Hh) Hop. destruct op as [d|d|d|k0 h0 c|]; cbn [lh_step].
  - destruct (m !! key d) as [x|] eqn:Hx.
    + destruct (lh_insert_present key hf_key cmp_key malloc w chains m d x T Hh Hx) as (w' & E & T' & Hh' & Hk).
      exists (r_insert 1 x), w', (<[key d := d]> m). split; [by pstep E|]. split; [by exists chains|].
      split; [done|]. replace x with (default NULL (m !! key d)) by (by rewrite Hx). constructor.
    + destruct (lh_insert_new key hf_key cmp_key malloc malloc_fresh w chains m d T Hh Hx)
        as (w' & [(E & chains' & T' & Hh' & Hk)|(E & T' & Hh' & Hk & Ho)]).
      * exists (r_insert 1 NULL), w', (<[key d := d]> m). split; [by pstep E|]. split; [by exists chains'|].
        split; [done|]. replace NULL with (default NULL (m !! key d)) by (by rewrite Hx). constructor.
      * exists (r_insert 0 NULL), w', m. split; [by pstep E|]. split; [by exists chains|].
        split; [done|by constructor].
  - destruct (lh_delete_spec key hf_key cmp_key w chains m d T Hh) as (w' & chains' & E & T' & Hh' & Hk).
    exists (r_data (default NULL (m !! key d))), w', (delete (key d) m). split; [by pstep E|].
    split; [by exists chains'|]. split; [done|constructor].
  - exists (r_data (default NULL (m !! key d))), w, m.
    split; [by pstep (lh_retrieve_spec key hf_key cmp_key w chains m d T Hh)|].
    split; [by exists chains|]. split; [done|constructor].
  - destruct Hop as (k & Hc & Hk). exists (r_data (default NULL (m !! k))), w, m.
    split; [by pstep (lh_retrieve_key_spec key w chains m k0 h0 c k T Hh Hc Hk)|].
    split; [by exists chains|]. split; [done|by constructor].
  - exists (r_size (u64 (Z.of_nat (size m)))), w, m. split; [|split; [by exists chains|split; [done|constructor]]].
    unfold OPENSSL_lh_num_items, mbind, part_bind, get_st.
    by rewrite (t_count _ _ _ _ T), (proj1 Hh).
Qed.

Lemma map_step_mono (P Q : Prop) m op r m' :
  (P -> Q) -> map_step key P m op r m' -> map_step key Q m op r m'.
Proof. intros HPQ Hs. destruct Hs; by constructor; auto. Qed.

Lemma lh_run_spec (P : Prop) ops : forall w m,
  is_map w m -> Forall (op_ok key hf) ops -> (true ∈ lh_oom w -> P) ->
  exists rs w' m', lh_run malloc ops w = Some (rs, w') /\ is_map w' m'
    /\ map_run key P m ops rs m'.
Proof.
  induction ops as [|op ops IH]; intros w m Hm Hops Ho; cbn [lh_run].
  - exists [], w, m. split; [done|]. split; [done|constructor].
  - apply Forall_cons in Hops as [Hop Hops].
    destruct (lh_step_spec op w m Hm Hop) as (r & w1 & m1 & E1 & Hm1 & [_ Hk] & Hs1).
    destruct (IH w1 m1 Hm1 Hops) as (rs & w' & m' & E & Hm' & Hr); [auto|].
    exists (r :: rs), w', m'. split; [by pstep E1; pstep E|]. split; [done|].
    econstructor; [by eapply map_step_mono|done].
Qed.
End refinement.

(** C12. The table is a map from keys to elements. Take any key function that the comparison
    decides and the hash respects, and any memory allocator whose new items are fresh.
    Then every sequence of operations on a new table is defined (no freed item is read,
    no index is out of range, no walk goes on for ever), and its results are those of a
    finite map: an insertion gives back the element replaced, and fails only for a new
    key when memory runs out; growing and shrinking the array are not visible. Freeing
    the table then frees every item, once. *)
Theorem lhash_refines_map {K} `{Countable K} (key : Z -> K) hf cmp malloc oom w ops :
  (forall a b, key a = key b -> hf a = hf b) ->
  (forall a b, cmp a b = 0 <-> key a = key b) ->
  (forall h, malloc h <> NULL /\ h !! malloc h = None) ->
  Forall (op_ok key hf) ops ->
  OPENSSL_lh_new hf cmp oom = Some w ->
  exists rs w' m, lh_run malloc ops w = Some (rs, w')
    /\ map_run key (true ∈ oom) ∅ ops rs m
    /\ exists w'', OPENSSL_lh_free w' = Some (tt, w'') /\ items w'' = ∅.
Proof.
  intros Hhf Hcmp Hmalloc Hops Hw. destruct (new_is_map key hf cmp oom w Hw) as [Hm Ho].
  destruct (lh_run_spec key hf cmp malloc Hhf Hcmp Hmalloc (true ∈ oom) ops w ∅ Hm Hops (Ho true))
    as (rs & w' & m & E & (chains & T & _) & Hr).
  exists rs, w', m. split; [done|]. split; [done|]. by apply (lh_free_spec hf cmp w' chains).
Qed.

(** ** A concrete table

    Elements are numbers, compared and hashed by their last digit. *)
Definition digit (d : Z) : Z := d mod 10.
Definition digit_hash : lhash_hash_func := fun d => u32 (digit d * 1000003).
Definition digit_cmp : lhash_cmp_func := fun a b => digit a - digit b.

Lemma digit_hash_key a b : digit a = digit b -> digit_hash a = digit_hash b.
Proof. unfold digit_hash. by intros ->. Qed.

Lemma digit_cmp_key a b : digit_cmp a b = 0 <-> digit a = digit b.
Proof. unfold digit_cmp. lia. Qed.

Definition digit_ops : list lh_op :=
  [op_insert 3; op_insert 25; op_insert 13; op_retrieve 43; op_num_items;
   op_retrieve_key 5 (digit_hash 5) (fun k d => k - digit d); op_delete 33; op_retrieve 3].

Example digit_results :
  (w ← OPENSSL_lh_new digit_hash digit_cmp []; fst <$> lh_run bump digit_ops w)
  = Some [r_insert 1 0; r_insert 1 0; r_insert 1 3; r_data 13; r_size 2; r_data 25; r_data 13; r_data 0].
Proof. vm_compute. reflexivity. Qed.

(** The array grows when the chains get long, and shrinks again. *)
Definition wide (n : nat) (op : Z -> lh_op) : list lh_op := map (fun i => op (Z.of_nat i)) (seq 1 n).

Example table_grows_and_shrinks :
  (w ← OPENSSL_lh_new u32 (fun a b => a - b) [];
   r1 ← lh_run bump (wide 48 op_insert) w;
   r2 ← lh_run bump (wide 40 op_delete) r1.2;
   Some (num_buckets (lh r1.2), num_items (lh r1.2), num_buckets (lh r2.2), num_items (lh r2.2)))
  = Some (32, 48, 16, 8).
Proof. vm_compute. reflexivity. Qed.

Lemma lhash_refines_map_witness :
  exists w, OPENSSL_lh_new digit_hash digit_cmp [] = Some w
  /\ exists rs w' m, lh_run bump digit_ops w = Some (rs, w')
    /\ map_run digit (true ∈ ([] : list bool)) ∅ digit_ops rs m
    /\ exists w'', OPENSSL_lh_free w' = Some (tt, w'') /\ items w'' = ∅.
Proof.
  eexists. split; [reflexivity|].
  apply (lhash_refines_map digit digit_hash digit_cmp bump [] _ digit_ops
           digit_hash_key digit_cmp_key bump_fresh); [|reflexivity].
  repeat constructor. exists 5. split.
  - intros d. cbn beta. lia.
  - intros d E. unfold digit_hash. by rewrite E.
Defined.
