(* ===== verification/LhashVisit.v ===== *)
(** * BoringSSL: visiting the hash table

    [OPENSSL_lh_doall_arg] with a callback that notes each element and deletes
    some of them: every element is seen once, and the rest of the table stays. *)
From S2P Require Export LhashOps.

(** The callback: [del] says which elements it deletes while it is given them. *)
Definition visitor (del : Z -> bool) (d : Z) (log : list Z) : lhM (list Z) :=
  if del d then _ ← lh_delete d; mret (log ++ [d]) else mret (log ++ [d]).

(** The elements of the items [l]. *)
Definition elems (pl : gmap Z (Z * Z)) (l : list Z) : list Z := omap (fun p => fst <$> pl !! p) l.

Lemma elems_ext pl pl' l :
  (forall p, p ∈ l -> pl' !! p = pl !! p) -> elems pl' l = elems pl l.
Proof.
  induction l as [|p l IH]; intros Hl; [done|]. cbn [elems omap list_omap].
  unfold elems in *. cbn. rewrite (Hl p) by left. rewrite IH; [done|]. intros q Hq. apply Hl. by right.
Qed.

Lemma elems_app pl l1 l2 : elems pl (l1 ++ l2) = elems pl l1 ++ elems pl l2.
Proof. apply omap_app. Qed.

Lemma nodup_split (l1 l2 l1' l2' : list Z) q :
  NoDup (l1 ++ q :: l2) -> l1 ++ q :: l2 = l1' ++ q :: l2' -> l1 = l1' /\ l2 = l2'.
Proof.
  revert l1'. induction l1 as [|x l1 IH]; intros [|y l1'] Hn E; cbn [app] in *.
  - by injection E.
  - injection E as <- E. apply NoDup_cons in Hn as [Hn _]. rewrite E in Hn. set_solver.
  - injection E as -> E. apply NoDup_cons in Hn as [Hn _]. set_solver.
  - injection E as <- E. apply NoDup_cons in Hn as [_ Hn]. destruct (IH l1' Hn E) as [-> ->]. done.
Qed.

(** What is left after the visits of the items [l]. *)
Definition swept (del : Z -> bool) (l : list Z) (pl : gmap Z (Z * Z)) : gmap Z (Z * Z) :=
  filter (fun e : Z * (Z * Z) => del e.2.1 = false \/ e.1 ∉ l) pl.

Section visit.
Context {K : Type} `{Countable K} (key : Z -> K).
Context {hf : lhash_hash_func} {cmp : lhash_cmp_func} (del : Z -> bool).
Context (hf_key : forall a b, key a = key b -> hf a = hf b).
Context (cmp_key : forall a b, cmp a b = 0 <-> key a = key b).
Notation table := (table hf cmp).

(** One visit, of the item [q] of chain [i], changes only its chain. *)
Lemma visit_one w chains m i l1 q l2 it log :
  table w chains -> holds key (items w) m -> 0 < callback_depth (lh w) ->
  chains !! i = Some (l1 ++ q :: l2) -> items w !! q = Some it ->
  exists w' l1' m',
    visitor del (data it) log w = Some (log ++ [data it], w')
    /\ table w' (<[i := l1' ++ l2]> chains) /\ holds key (items w') m'
    /\ kept w w' /\ num_buckets (lh w') = num_buckets (lh w)
    /\ payload (items w') = swept del [q] (payload (items w)).
Proof.
  intros T Hh Hd Hi Hq. unfold visitor. destruct (del (data it)) eqn:Edel.
  - pose proof (holds_lookup key _ _ _ _ Hh Hq) as Hm.
    destruct (lh_delete_found key hf_key cmp_key w chains m (data it) (data it) T Hh Hm)
      as (l1' & q' & l2' & w2 & Hl & (it' & Hq' & Hdat) & E & T2 & Hh2 & Hk & Hnb & Hpay).
    assert (q' = q) as ->.
    { apply (proj1 (proj2 Hh) q' q it' it Hq' Hq). by rewrite Hdat. }
    destruct (t_place _ _ _ _ T i _ q it Hi ltac:(set_solver) Hq) as [Hhash Hpl].
    rewrite <-Hhash, Hpl in Hl. rewrite <-Hhash, Hpl in T2. rewrite Hi in Hl. injection Hl as Hl.
    destruct (table_bucket w chains i _ T Hi) as (_ & _ & Hnd & _).
    destruct (nodup_split l1 l2 l1' l2' q Hnd Hl) as [<- <-].
    exists w2, l1, (delete (key (data it)) m). split; [|split; [done|split; [done|split; [done|split; [done|]]]]].
    + assert (E' : lh_delete (data it) w = Some (data it, w2)).
      { rewrite E. pstep (lh_maybe_resize_visiting w2 ltac:(destruct Hk as [-> _]; done)). done. }
      by pstep E'.
    + rewrite Hpay. apply map_eq. intros p. unfold swept. destruct (decide (p = q)) as [-> | Hp].
      * rewrite lookup_delete_eq. symmetry. apply map_lookup_filter_None. right. intros x Hx.
        rewrite payload_lookup, Hq in Hx. injection Hx as <-. cbn. intros [?|Hn]; [congruence|set_solver].
      * rewrite lookup_delete_ne by done. destruct (payload (items w) !! p) eqn:E'; symmetry.
        -- apply map_lookup_filter_Some. split; [done|]. right. cbn. set_solver.
        -- apply map_lookup_filter_None. by left.
  - exists w, (l1 ++ [q]), m. rewrite <-app_assoc. split; [done|]. rewrite list_insert_id by done.
    split; [done|]. split; [done|]. split; [done|]. split; [done|]. apply map_eq. intros p. unfold swept.
    destruct (payload (items w) !! p) as [x|] eqn:E'; symmetry.
    + apply map_lookup_filter_Some. split; [done|]. cbn. destruct (decide (p = q)) as [-> | Hp]; [left|right; set_solver].
      rewrite payload_lookup, Hq in E'. injection E' as <-. done.
    + apply map_lookup_filter_None. by left.
Qed.

Lemma swept_app l1 l2 pl : swept del l2 (swept del l1 pl) = swept del (l1 ++ l2) pl.
Proof.
  unfold swept. rewrite map_filter_filter. apply map_filter_ext. intros p x _. cbn.
  rewrite elem_of_app. destruct (decide (p ∈ l1)), (decide (p ∈ l2)); tauto.
Qed.

Lemma swept_other l pl p : p ∉ l -> swept del l pl !! p = pl !! p.
Proof.
  intros Hp. unfold swept. destruct (pl !! p) eqn:E.
  - apply map_lookup_filter_Some. split; [done|by right].
  - apply map_lookup_filter_None. by left.
Qed.

(** The visits of the chain [i], from the items [l2] on. *)
Lemma doall_chain_spec l2 : forall fuel w chains m i l1 log,
  table w chains -> holds key (items w) m -> 0 < callback_depth (lh w) ->
  chains !! i = Some (l1 ++ l2) -> (length l2 < fuel)%nat ->
  exists w' l' m',
    doall_chain fuel (visitor del) (first l2) log w
      = Some (log ++ elems (payload (items w)) l2, w')
    /\ table w' (<[i := l']> chains) /\ holds key (items w') m'
    /\ kept w w' /\ num_buckets (lh w') = num_buckets (lh w)
    /\ payload (items w') = swept del l2 (payload (items w)).
Proof.
  induction l2 as [|q l2 IH]; intros [|fuel] w chains m i l1 log T Hh Hd Hi Hf;
    cbn [length] in Hf; try lia; cbn [doall_chain].
  - exists w, (l1 ++ []), m. rewrite app_nil_r. split; [done|]. rewrite list_insert_id by (by rewrite Hi, app_nil_r).
    split_and!; try done. apply map_eq. intros p. symmetry. apply swept_other, not_elem_of_nil.
  - destruct (table_bucket w chains i _ T Hi) as (_ & Hc & Hnd & _).
    destruct (chain_inv _ _ _ _ _ Hc) as (Hq0 & it & Hq & Hc2).
    change (first (q :: l2)) with q. rewrite (proj2 (Z.eqb_neq q NULL) Hq0). pstep (load_item_some w q it).
    destruct (visit_one w chains m i l1 q l2 it log T Hh Hd Hi Hq)
      as (w1 & l1' & m1 & E1 & T1 & Hh1 & Hk1 & Hnb1 & Hpay1).
    assert (Hi1 : <[i := l1' ++ l2]> chains !! i = Some (l1' ++ l2)).
    { apply list_lookup_insert_eq. by eapply lookup_lt_Some. }
    destruct (IH fuel w1 _ m1 i l1' (log ++ [data it]) T1 Hh1) as (w' & l' & m' & E & T' & Hh' & Hk & Hnb & Hpay);
      [by rewrite (proj1 Hk1)|done|lia|].
    rewrite (chain_first _ _ _ Hc2). exists w', l', m'. split; [|split; [by rewrite list_insert_insert_eq in T'|]].
    + pstep E1. rewrite E. do 2 f_equal. rewrite <-app_assoc. f_equal. unfold elems at 2. cbn.
      rewrite payload_lookup, Hq. cbn. f_equal. rewrite Hpay1. apply elems_ext. intros p Hp.
      apply swept_other. intros ->%list_elem_of_singleton. apply NoDup_app in Hnd as (_ & _ & Hnd).
      by apply NoDup_cons in Hnd as [? _].
    + split; [done|]. split; [by eapply lh_kept_trans|]. split; [congruence|].
      rewrite Hpay, Hpay1. apply (swept_app [q] l2).
Qed.

Lemma doall_buckets_spec todo : forall n fuel i w chains m log,
  table w chains -> holds key (items w) m -> 0 < callback_depth (lh w) ->
  0 <= i -> drop (Z.to_nat i) chains = todo -> (Z.to_nat i + length todo = length chains)%nat ->
  (length todo < n)%nat -> (forall l, l ∈ todo -> (length l < fuel)%nat) ->
  exists w' chains' m',
    doall_buckets n fuel i (visitor del) log w
      = Some (log ++ elems (payload (items w)) (concat todo), w')
    /\ table w' chains' /\ holds key (items w') m' /\ kept w w'
    /\ payload (items w') = swept del (concat todo) (payload (items w)).
Proof.
  induction todo as [|l todo IH]; intros [|n] fuel i w chains m log T Hh Hd Hi Hdrop Hlen Hn Hf;
    cbn [length] in Hn, Hlen; try lia; cbn [doall_buckets concat].
  all: unfold mbind at 1, part_bind at 1, get_st; pose proof (t_len _ _ _ _ T) as Hnb;
    pose proof (t_size _ _ _ _ T) as Hs; unfold kMinNumBuckets in Hs.
  - destruct (Z.ltb_spec i (num_buckets (lh w))); [lia|]. exists w, chains, m.
    split; [by rewrite app_nil_r|]. split_and!; try done.
    apply map_eq. intros p. symmetry. apply swept_other, not_elem_of_nil.
  - destruct (Z.ltb_spec i (num_buckets (lh w))); [|lia].
    assert (Hl : chains !! Z.to_nat i = Some l).
    { by rewrite <-(Nat.add_0_r (Z.to_nat i)), <-lookup_drop, Hdrop. }
    destruct (table_bucket w chains _ l T Hl) as (Hb & _ & _ & _).
    pstep (load_bucket w i (first l) Hb).
    destruct (doall_chain_spec l fuel w chains m _ [] log T Hh Hd Hl ltac:(apply Hf; by left))
      as (w1 & l' & m1 & E1 & T1 & Hh1 & Hk1 & Hnb1 & Hpay1).
    destruct (IH n fuel (i + 1) w1 _ m1 (log ++ elems (payload (items w)) l) T1 Hh1)
      as (w' & chains' & m' & E & T' & Hh' & Hk & Hpay);
      [by rewrite (proj1 Hk1)|lia| |rewrite length_insert; lia|lia|intros x Hx; apply Hf; by right|].
    { replace (Z.to_nat (i + 1)) with (S (Z.to_nat i)) by lia. rewrite drop_insert_lt by lia.
      replace (S (Z.to_nat i)) with (Z.to_nat i + 1)%nat by lia. by rewrite <-drop_drop, Hdrop. }
    exists w', chains', m'. split; [|split; [done|split; [done|split; [by eapply lh_kept_trans|]]]].
    + pstep E1. rewrite E, elems_app, <-app_assoc. do 4 f_equal. rewrite Hpay1. apply elems_ext.
      intros p Hp. apply swept_other. intros Hpl. apply in_chain in Hp as (j & lj & Hj & Hpj).
      assert (Hj' : chains !! (Z.to_nat i + S j)%nat = Some lj) by (by rewrite <-lookup_drop, Hdrop).
      destruct (concat_at chains _ l Hl) as (rest & Hperm & _ & Hother).
      pose proof (t_nodup _ _ _ _ T) as Hnd. rewrite Hperm in Hnd. apply NoDup_app in Hnd as (_ & Hdis & _).
      apply (Hdis p Hpl). apply (Hother (Z.to_nat i + S j)%nat lj p); [lia|done|done].
    + rewrite Hpay, Hpay1. apply swept_app.
Qed.

(** The elements of all the items are those of the map. *)
Lemma elems_map w chains m :
  table w chains -> holds key (items w) m ->
  elems (payload (items w)) (concat chains) ≡ₚ (map_to_list m).*2.
Proof.
  intros T Hh. destruct Hh as (Hs & Hi & Hm). apply NoDup_Permutation.
  - assert (Hd : forall l, NoDup l -> NoDup (elems (payload (items w)) l)); [|apply Hd, T].
    induction l as [|p l IH]; intros Hn; [apply NoDup_nil_2|]. apply NoDup_cons in Hn as [Hp Hn].
    unfold elems in *. cbn. rewrite payload_lookup. destruct (items w !! p) as [it|] eqn:Hit; [|by apply IH].
    cbn. apply NoDup_cons. split; [|by apply IH]. intros Hin.
    apply list_elem_of_omap in Hin as (p' & Hp' & E). rewrite payload_lookup in E.
    destruct (items w !! p') as [it'|] eqn:Hit'; [|done]. cbn in E. injection E as E.
    apply Hp. by rewrite (Hi p p' it it' Hit Hit' ltac:(congruence)).
  - apply NoDup_fmap_2_strong; [|apply NoDup_map_to_list]. intros [k d] [k' d'] Hk Hk' E. cbn in E. subst d'.
    apply elem_of_map_to_list in Hk, Hk'. apply Hm in Hk as (_ & ? & _ & <- & <-).
    apply Hm in Hk' as (_ & ? & _ & E & <-). congruence.
  - intros d. unfold elems. rewrite list_elem_of_omap, list_elem_of_fmap. split.
    + intros (p & Hp & E). rewrite payload_lookup in E. destruct (items w !! p) as [it|] eqn:Hit; [|done].
      injection E as <-. exists (key (data it), data it). split; [done|].
      apply elem_of_map_to_list, Hm. eauto.
    + intros ([k d'] & -> & Hk). apply elem_of_map_to_list, Hm in Hk as (p & it & Hit & Hd & _).
      exists p. split; [apply (t_dom _ _ _ _ T); eauto|]. rewrite payload_lookup, Hit. cbn. by rewrite Hd.
Qed.

(** A heap swept of every visited item holds the elements not deleted. *)
Lemma holds_swept w w' chains m m' :
  table w chains -> holds key (items w) m -> holds key (items w') m' ->
  payload (items w') = swept del (concat chains) (payload (items w)) ->
  m' = filter (fun e => del e.2 = false) m.
Proof.
  intros T (_ & _ & Hm) (_ & _ & Hm') Hpay.
  assert (Hin : forall p x, payload (items w') !! p = Some x
    <-> payload (items w) !! p = Some x /\ del x.1 = false).
  { intros p x. rewrite Hpay. unfold swept. rewrite map_lookup_filter_Some. cbn. split; [|tauto].
    intros [Hx [Hd|Hn]]; [done|]. exfalso. apply Hn, (t_dom _ _ _ _ T). rewrite payload_lookup in Hx.
    destruct (items w !! p); [eauto|done]. }
  apply map_eq. intros k. apply option_eq. intros d. rewrite map_lookup_filter_Some, Hm, Hm'. cbn. split.
  - intros (p & it & Hit & Hd & Hk). destruct (proj1 (Hin p (data it, hash it))) as [Hx Hdel].
    { by rewrite payload_lookup, Hit. }
    rewrite payload_lookup in Hx. destruct (items w !! p) as [it'|] eqn:Hit'; [|done].
    injection Hx as E1 E2. cbn in Hdel. split; [|congruence]. exists p, it'. split_and!; congruence.
  - intros [(p & it & Hit & Hd & Hk) Hdel].
    assert (Hx : payload (items w') !! p = Some (data it, hash it)).
    { apply Hin. rewrite payload_lookup, Hit. split; [done|]. cbn. congruence. }
    rewrite payload_lookup in Hx. destruct (items w' !! p) as [it'|] eqn:Hit'; [|done].
    injection Hx as E1 E2. exists p, it'. split_and!; congruence.
Qed.

(** Changing the callback depth leaves the table as it is. *)
Lemma table_depth w chains n :
  table w chains -> 0 <= n <= UINT_MAX -> table (set_depth n w) chains.
Proof. intros []; split; done. Qed.

Lemma depth_step w chains :
  table w chains ->
  let up := if callback_depth (lh w) <? UINT_MAX then set_depth (callback_depth (lh w) + 1) w else w in
  table up chains /\ 0 < callback_depth (lh up) /\ items up = items w.
Proof.
  intros T. pose proof (t_depth _ _ _ _ T). cbv zeta. unfold UINT_MAX in *. case_bool.
  - split; [apply table_depth; [done|unfold UINT_MAX; lia]|]. cbn. split; [lia|done].
  - split; [done|]. split; [lia|done].
Qed.

Lemma doall_spec w m fuel :
  is_map key hf cmp w m -> (size m < fuel)%nat ->
  exists log w', OPENSSL_lh_doall_arg fuel (visitor del) [] w = Some (log, w')
    /\ log ≡ₚ (map_to_list m).*2
    /\ is_map key hf cmp w' (filter (fun e => del e.2 = false) m).
Proof.
  intros (chains & T & Hh) Hf. destruct (depth_step w chains T) as (T1 & Hd1 & Hi1). cbv zeta in *.
  set (w1 := if callback_depth (lh w) <? UINT_MAX then _ else w) in *. rewrite <-Hi1 in Hh.
  destruct (doall_buckets_spec chains (S (Z.to_nat (num_buckets (lh w1)))) fuel 0 w1 chains m [] T1 Hh Hd1)
    as (w2 & chains2 & m2 & E & T2 & Hh2 & Hk & Hpay); [lia|done|done| | |].
  { rewrite (t_len _ _ _ _ T1). lia. }
  { intros l [i Hl]%list_elem_of_lookup. destruct (table_bucket w1 chains i l T1 Hl) as (_ & _ & _ & Hlen).
    unfold chain_fuel in Hlen. rewrite <-(proj1 Hh) in Hlen. lia. }
  set (w3 := if callback_depth (lh w2) <? UINT_MAX then set_depth (callback_depth (lh w2) - 1) w2 else w2).
  assert (T3 : table w3 chains2).
  { unfold w3. destruct (callback_depth (lh w2) <? UINT_MAX); [|exact T2]. apply table_depth; [done|].
    pose proof (t_depth _ _ _ _ T2). rewrite (proj1 Hk) in *. lia. }
  destruct (lh_maybe_resize_spec w3 chains2 T3) as (w' & chains' & E' & T' & Hpay' & _).
  exists (elems (payload (items w1)) (concat chains)), w'. split; [|split].
  - unfold OPENSSL_lh_doall_arg. unfold mbind at 1, part_bind at 1, modify at 1. fold w1.
    unfold mbind at 1, part_bind at 1, get_st. pstep E. unfold mbind at 1, part_bind at 1, modify.
    fold w3. by pstep E'.
  - by apply (elems_map w1).
  - rewrite <-(holds_swept w1 w2 chains m m2 T1 Hh Hh2 Hpay). exists chains'. split; [done|].
    apply (holds_payload key (items w2)); [|done]. rewrite Hpay'. unfold w3. by destruct (callback_depth (lh w2) <? UINT_MAX).
Qed.
End visit.

(** C31. Visiting the table calls the callback once on every element, even when the callback
    deletes some of the elements it is given: the order aside, what it sees is the
    elements of the map, and the map that is left is without those it deleted. *)
Theorem lh_doall_visits_every_element {K} `{Countable K} (key : Z -> K) hf cmp del fuel w m :
  (forall a b, key a = key b -> hf a = hf b) ->
  (forall a b, cmp a b = 0 <-> key a = key b) ->
  is_map key hf cmp w m -> (size m < fuel)%nat ->
  exists log w', OPENSSL_lh_doall_arg fuel (visitor del) [] w = Some (log, w')
    /\ log ≡ₚ (map_to_list m).*2
    /\ is_map key hf cmp w' (filter (fun e => del e.2 = false) m).
Proof. intros Hhf Hcmp Hm Hf. by apply doall_spec. Qed.

(** The table of the digits, of which the visit deletes the odd elements. *)
Definition digit_table : option (list lh_result * lh_world) :=
  w ← OPENSSL_lh_new digit_hash digit_cmp []; lh_run bump [op_insert 4; op_insert 7; op_insert 12] w.

Example digit_visit :
  (r ← digit_table; r' ← OPENSSL_lh_doall_arg 4 (visitor Z.odd) [] r.2;
   Some (r'.1, (map_to_list (payload (items r'.2))).*2.*1)) = Some ([7; 12; 4], [12; 4]).
Proof. vm_compute. reflexivity. Qed.

Lemma lh_doall_visits_every_element_witness :
  exists rs w m, digit_table = Some (rs, w) /\ is_map digit digit_hash digit_cmp w m
  /\ exists log w', OPENSSL_lh_doall_arg (S (size m)) (visitor Z.odd) [] w = Some (log, w')
    /\ log ≡ₚ (map_to_list m).*2
    /\ is_map digit digit_hash digit_cmp w' (filter (fun e => Z.odd e.2 = false) m).
Proof.
  destruct (OPENSSL_lh_new digit_hash digit_cmp []) as [w0|] eqn:Hw; [|discriminate Hw].
  destruct (new_is_map digit digit_hash digit_cmp [] w0 Hw) as [Hm Ho].
  destruct (lh_run_spec digit digit_hash digit_cmp bump digit_hash_key digit_cmp_key bump_fresh True
              [op_insert 4; op_insert 7; op_insert 12] w0 ∅ Hm ltac:(repeat constructor) ltac:(done))
    as (rs & w & m & E & Hm' & _).
  exists rs, w, m. split; [unfold digit_table; rewrite Hw; exact E|]. split; [exact Hm'|].
  apply (lh_doall_visits_every_element digit digit_hash digit_cmp Z.odd (S (size m)) w m
           digit_hash_key digit_cmp_key Hm'). lia.
Defined.
