(* ===== verification/BioPair.v ===== *)
(** * BoringSSL: BIO pairs (crypto/bio/pair.c) and the calls that reach them (crypto/bio/bio.c)

    Two BIOs, each with a ring buffer for what is written to it; reading one takes
    from the buffer of the other. The BIOs and their states are objects in two
    heaps, linked by pointers ([NULL] is 0); a failed assertion and an access out
    of a buffer have no result. The BIOs here are those of [bio_s_bio], or have no
    method. The error queue and the extra data of a BIO are left out. *)
From S2P Require Export Partial.

Record bio_bio_st := mk_bio_bio {
  peer : Z; closed : Z; len : Z; offset : Z; size : Z;
  buf : option (list Z); (** [None] for [NULL] *)
  request : Z
}.

Inductive bio_method := methods_biop.

Record BIO := mk_BIO {
  method : option bio_method; init : Z; shutdown : Z; flags : Z; retry_reason : Z;
  references : Z; ptr : Z; next_bio : Z; num_read : Z; num_write : Z
}.

(** The BIOs, the states they point to, and the outcomes of the coming
    allocations: [true] when one fails. *)
Record bio_world := mk_bio_world {
  bios : gmap Z BIO; states : gmap Z bio_bio_st; bio_oom : list bool
}.

Notation bioM := (part bio_world).

Definition get_bio (p : Z) : bioM BIO := fun w =>
  match bios w !! p with Some b => Some (b, w) | None => None end.
Definition get_state (p : Z) : bioM bio_bio_st := fun w =>
  match states w !! p with Some b => Some (b, w) | None => None end.
Definition set_bio (p : Z) (f : BIO -> BIO) : bioM unit := fun w =>
  match bios w !! p with
  | Some b => Some (tt, mk_bio_world (<[p := f b]> (bios w)) (states w) (bio_oom w))
  | None => None
  end.
Definition set_state (p : Z) (f : bio_bio_st -> bio_bio_st) : bioM unit := fun w =>
  match states w !! p with
  | Some b => Some (tt, mk_bio_world (bios w) (<[p := f b]> (states w)) (bio_oom w))
  | None => None
  end.
Definition free_bio (p : Z) : bioM unit := fun w =>
  match bios w !! p with
  | Some _ => Some (tt, mk_bio_world (delete p (bios w)) (states w) (bio_oom w))
  | None => None
  end.
Definition free_state (p : Z) : bioM unit := fun w =>
  match states w !! p with
  | Some _ => Some (tt, mk_bio_world (bios w) (delete p (states w)) (bio_oom w))
  | None => None
  end.

Definition set_peer (p : Z) (b : bio_bio_st) := mk_bio_bio p (closed b) (len b) (offset b) (size b) (buf b) (request b).
Definition set_closed (c : Z) (b : bio_bio_st) := mk_bio_bio (peer b) c (len b) (offset b) (size b) (buf b) (request b).
Definition set_len (n : Z) (b : bio_bio_st) := mk_bio_bio (peer b) (closed b) n (offset b) (size b) (buf b) (request b).
Definition set_offset (n : Z) (b : bio_bio_st) := mk_bio_bio (peer b) (closed b) (len b) n (size b) (buf b) (request b).
Definition set_size (n : Z) (b : bio_bio_st) := mk_bio_bio (peer b) (closed b) (len b) (offset b) n (buf b) (request b).
Definition set_buf (l : option (list Z)) (b : bio_bio_st) := mk_bio_bio (peer b) (closed b) (len b) (offset b) (size b) l (request b).
Definition set_request (n : Z) (b : bio_bio_st) := mk_bio_bio (peer b) (closed b) (len b) (offset b) (size b) (buf b) n.

Definition set_init (n : Z) (b : BIO) := mk_BIO (method b) n (shutdown b) (flags b) (retry_reason b) (references b) (ptr b) (next_bio b) (num_read b) (num_write b).
Definition set_shutdown (n : Z) (b : BIO) := mk_BIO (method b) (init b) n (flags b) (retry_reason b) (references b) (ptr b) (next_bio b) (num_read b) (num_write b).
Definition set_flags (n : Z) (b : BIO) := mk_BIO (method b) (init b) (shutdown b) n (retry_reason b) (references b) (ptr b) (next_bio b) (num_read b) (num_write b).
Definition set_reason (n : Z) (b : BIO) := mk_BIO (method b) (init b) (shutdown b) (flags b) n (references b) (ptr b) (next_bio b) (num_read b) (num_write b).
Definition set_references (n : Z) (b : BIO) := mk_BIO (method b) (init b) (shutdown b) (flags b) (retry_reason b) n (ptr b) (next_bio b) (num_read b) (num_write b).
Definition set_ptr (p : Z) (b : BIO) := mk_BIO (method b) (init b) (shutdown b) (flags b) (retry_reason b) (references b) p (next_bio b) (num_read b) (num_write b).
Definition set_next (p : Z) (b : BIO) := mk_BIO (method b) (init b) (shutdown b) (flags b) (retry_reason b) (references b) (ptr b) p (num_read b) (num_write b).
Definition add_read (n : Z) (b : BIO) := mk_BIO (method b) (init b) (shutdown b) (flags b) (retry_reason b) (references b) (ptr b) (next_bio b) (u64 (num_read b + n)) (num_write b).
Definition add_write (n : Z) (b : BIO) := mk_BIO (method b) (init b) (shutdown b) (flags b) (retry_reason b) (references b) (ptr b) (next_bio b) (num_read b) (u64 (num_write b + n)).

(** ** Retry flags *)

Definition BIO_FLAGS_READ : Z := 0x01.
Definition BIO_FLAGS_WRITE : Z := 0x02.
Definition BIO_FLAGS_IO_SPECIAL : Z := 0x04.
Definition BIO_FLAGS_RWS : Z := Z.lor (Z.lor BIO_FLAGS_READ BIO_FLAGS_WRITE) BIO_FLAGS_IO_SPECIAL.
Definition BIO_FLAGS_SHOULD_RETRY : Z := 0x08.
Definition kRetryFlags : Z := Z.lor BIO_FLAGS_RWS BIO_FLAGS_SHOULD_RETRY.

Definition BIO_test_flags (bio : BIO) (fl : Z) : Z := Z.land (flags bio) fl.
Definition BIO_should_read (bio : BIO) : Z := BIO_test_flags bio BIO_FLAGS_READ.
Definition BIO_should_write (bio : BIO) : Z := BIO_test_flags bio BIO_FLAGS_WRITE.
Definition BIO_should_retry (bio : BIO) : Z := BIO_test_flags bio BIO_FLAGS_SHOULD_RETRY.

Definition BIO_set_retry_read (p : Z) : bioM unit :=
  set_bio p (fun b => set_flags (Z.lor (flags b) (Z.lor BIO_FLAGS_READ BIO_FLAGS_SHOULD_RETRY)) b).
Definition BIO_set_retry_write (p : Z) : bioM unit :=
  set_bio p (fun b => set_flags (Z.lor (flags b) (Z.lor BIO_FLAGS_WRITE BIO_FLAGS_SHOULD_RETRY)) b).
Definition BIO_clear_retry_flags (p : Z) : bioM unit :=
  set_bio p (fun b => set_reason 0 (set_flags (Z.ldiff (flags b) kRetryFlags) b)).

(** ** Reading *)

(** [OPENSSL_memcpy(dst, src + off, n)]: the bytes copied. *)
Definition copy_from (src : option (list Z)) (off n : Z) : option (list Z) :=
  match src with
  | Some l => if (0 <=? off) && (0 <=? n) && (off + n <=? Z.of_nat (length l))
              then Some (take (Z.to_nat n) (drop (Z.to_nat off) l)) else None
  | None => None
  end.

(** [OPENSSL_memcpy(dst + off, bytes, n)] for the [n] bytes of [bytes]. *)
Definition copy_to (dst : option (list Z)) (off : Z) (bytes : list Z) : option (list Z) :=
  match dst with
  | Some l => if (0 <=? off) && (off + Z.of_nat (length bytes) <=? Z.of_nat (length l))
              then Some (take (Z.to_nat off) l ++ bytes ++ drop (Z.to_nat off + length bytes) l)
              else None
  | None => None
  end.

(** [do { ... } while (rest);]: the bytes copied to [*buf]. One or two iterations. *)
Fixpoint read_chunks (fuel : nat) (peer_b : Z) (rest : Z) : bioM (list Z) :=
  match fuel with
  | O => wrong
  | S fuel =>
      b ← get_state peer_b;
      _ ← c_assert (rest <=? len b);
      let chunk := if u64 (offset b + rest) <=? size b then rest else u64 (size b - offset b) in
      _ ← c_assert (u64 (offset b + chunk) <=? size b);
      bytes ← of_opt (copy_from (buf b) (offset b) chunk);
      let len' := u64 (len b - chunk) in
      _ ← (if negb (len' =? 0) then
             let offset' := u64 (offset b + chunk) in
             _ ← c_assert (offset' <=? size b);
             set_state peer_b (fun b => set_offset (if offset' =? size b then 0 else offset') (set_len len' b))
           else
             _ ← c_assert (chunk =? rest);
             set_state peer_b (fun b => set_offset 0 (set_len len' b)));
      let rest := u64 (rest - chunk) in
      if rest =? 0 then mret bytes
      else more ← read_chunks fuel peer_b rest; mret (bytes ++ more)
  end.

(** The result and the bytes written to [buf]; [buf_null] when [buf == NULL]. *)
Definition bio_read (bio : Z) (buf_null : bool) (size_ : Z) : bioM (Z * list Z) :=
  let size_0 := u64 size_ in
  _ ← BIO_clear_retry_flags bio;
  B ← get_bio bio;
  if init B =? 0 then mret (0, [])
  else
    b ← get_state (ptr B);
    _ ← c_assert (negb (peer b =? NULL));
    P ← get_bio (peer b);
    let peer_b := ptr P in
    pb ← get_state peer_b;
    _ ← c_assert (if buf pb then true else false);
    _ ← set_state peer_b (set_request 0);
    if buf_null || (size_0 =? 0) then mret (0, [])
    else
      pb ← get_state peer_b;
      if len pb =? 0 then
        if negb (closed pb =? 0) then mret (0, [])
        else
          _ ← BIO_set_retry_read bio;
          _ ← set_state peer_b (set_request (if size_0 <=? size pb then size_0 else size pb));
          mret (-1, [])
      else
        let size_1 := if len pb <? size_0 then len pb else size_0 in
        _ ← c_assert (0 <? size_1);
        bytes ← read_chunks 2 peer_b size_1;
        mret (s32 size_1, bytes).

(** ** Writing *)

Fixpoint write_chunks (fuel : nat) (b_ : Z) (bytes : list Z) (rest : Z) : bioM unit :=
  match fuel with
  | O => wrong
  | S fuel =>
      b ← get_state b_;
      _ ← c_assert (u64 (len b + rest) <=? size b);
      let write_offset := u64 (offset b + len b) in
      let write_offset := if size b <=? write_offset then u64 (write_offset - size b) else write_offset in
      let chunk := if u64 (write_offset + rest) <=? size b then rest else u64 (size b - write_offset) in
      part ← of_opt (copy_from (Some bytes) 0 chunk);
      new ← of_opt (copy_to (buf b) write_offset part);
      let len' := u64 (len b + chunk) in
      _ ← set_state b_ (fun b => set_len len' (set_buf (Some new) b));
      _ ← c_assert (len' <=? size b);
      let rest := u64 (rest - chunk) in
      if rest =? 0 then mret tt
      else write_chunks fuel b_ (drop (Z.to_nat chunk) bytes) rest
  end.

(** [data] is what [buf] points to, [None] for [NULL]. *)
Definition bio_write (bio : Z) (data : option (list Z)) (num_ : Z) : bioM Z :=
  let num_0 := u64 num_ in
  _ ← BIO_clear_retry_flags bio;
  B ← get_bio bio;
  match data with
  | Some bytes =>
      if (init B =? 0) || (num_0 =? 0) then mret 0
      else
        b ← get_state (ptr B);
        _ ← c_assert (negb (peer b =? NULL));
        _ ← c_assert (if buf b then true else false);
        _ ← set_state (ptr B) (set_request 0);
        if negb (closed b =? 0) then mret (-1)
        else
          _ ← c_assert (len b <=? size b);
          if len b =? size b then _ ← BIO_set_retry_write bio; mret (-1)
          else
            let num_1 := if u64 (size b - len b) <? num_0 then u64 (size b - len b) else num_0 in
            _ ← c_assert (0 <? num_1);
            _ ← write_chunks 2 (ptr B) bytes num_1;
            mret (s32 num_1)
  | None => mret 0
  end.

(** ** Controls *)

Definition BIO_C_GET_WRITE_BUF_SIZE : Z := 137.
Definition BIO_C_GET_WRITE_GUARANTEE : Z := 140.
Definition BIO_C_GET_READ_REQUEST : Z := 141.
Definition BIO_C_SHUTDOWN_WR : Z := 142.
Definition BIO_C_RESET_READ_REQUEST : Z := 147.
Definition BIO_CTRL_EOF : Z := 2.
Definition BIO_CTRL_GET_CLOSE : Z := 8.
Definition BIO_CTRL_SET_CLOSE : Z := 9.
Definition BIO_CTRL_PENDING : Z := 10.
Definition BIO_CTRL_FLUSH : Z := 11.
Definition BIO_CTRL_WPENDING : Z := 13.

(** [(long)x] of a [size_t] *)
Definition long_of (x : Z) : Z := to_signed 64 x.

Definition bio_ctrl (bio cmd num ptr_ : Z) : bioM Z :=
  B ← get_bio bio;
  b ← get_state (ptr B);
  if cmd =? BIO_C_GET_WRITE_BUF_SIZE then mret (long_of (size b))
  else if cmd =? BIO_C_GET_WRITE_GUARANTEE then
    if (peer b =? NULL) || negb (closed b =? 0) then mret 0
    else mret (long_of (u64 (size b - len b)))
  else if cmd =? BIO_C_GET_READ_REQUEST then mret (long_of (request b))
  else if cmd =? BIO_C_RESET_READ_REQUEST then _ ← set_state (ptr B) (set_request 0); mret 1
  else if cmd =? BIO_C_SHUTDOWN_WR then _ ← set_state (ptr B) (set_closed 1); mret 1
  else if cmd =? BIO_CTRL_GET_CLOSE then mret (shutdown B)
  else if cmd =? BIO_CTRL_SET_CLOSE then _ ← set_bio bio (set_shutdown (s32 num)); mret 1
  else if cmd =? BIO_CTRL_PENDING then
    if negb (peer b =? NULL) then
      P ← get_bio (peer b); pb ← get_state (ptr P); mret (long_of (len pb))
    else mret 0
  else if cmd =? BIO_CTRL_WPENDING then
    mret (if buf b then long_of (len b) else 0)
  else if cmd =? BIO_CTRL_FLUSH then mret 1
  else if cmd =? BIO_CTRL_EOF then
    if negb (ptr_ =? NULL) then
      O ← get_bio ptr_; ob ← get_state (ptr O);
      mret (if (len ob =? 0) && negb (closed ob =? 0) then 1 else 0)
    else mret 1
  else mret 0.

(** ** Making and freeing pairs *)

Definition bio_destroy_pair (bio : Z) : bioM unit :=
  B ← get_bio bio;
  if ptr B =? NULL then mret tt
  else
    b ← get_state (ptr B);
    let peer_bio := peer b in
    if peer_bio =? NULL then mret tt
    else
      P ← get_bio peer_bio;
      pb ← get_state (ptr P);
      _ ← c_assert (peer pb =? bio);
      _ ← set_state (ptr P) (set_peer NULL);
      _ ← set_bio peer_bio (set_init 0);
      _ ← c_assert (if buf pb then true else false);
      _ ← set_state (ptr P) (fun b => set_offset 0 (set_len 0 b));
      _ ← set_state (ptr B) (set_peer NULL);
      _ ← set_bio bio (set_init 0);
      _ ← c_assert (if buf b then true else false);
      set_state (ptr B) (fun b => set_offset 0 (set_len 0 b)).

Definition bio_free (bio : Z) : bioM Z :=
  B ← get_bio bio;
  b ← get_state (ptr B);
  _ ← (if negb (peer b =? NULL) then bio_destroy_pair bio else mret tt);
  _ ← free_state (ptr B);
  mret 1.

Definition CRYPTO_REFCOUNT_MAX : Z := 0xffffffff.

(** The result and the new count; a count of 0 aborts. *)
Definition CRYPTO_refcount_dec_and_test_zero (expected : Z) : option (bool * Z) :=
  if expected =? 0 then None
  else if expected =? CRYPTO_REFCOUNT_MAX then Some (false, expected)
  else Some (expected - 1 =? 0, expected - 1).

Definition CRYPTO_refcount_inc (expected : Z) : Z :=
  if expected =? CRYPTO_REFCOUNT_MAX then expected else expected + 1.

Definition BIO_up_ref (bio : Z) : bioM Z :=
  _ ← set_bio bio (fun b => set_references (CRYPTO_refcount_inc (references b)) b); mret 1.

Definition BIO_pop (bio : Z) : bioM Z :=
  if bio =? NULL then mret NULL
  else B ← get_bio bio; _ ← set_bio bio (set_next NULL); mret (next_bio B).

(** [for (; bio != NULL; bio = next_bio)], along the chain of BIOs. *)
Fixpoint free_loop (fuel : nat) (bio : Z) : bioM Z :=
  match fuel with
  | O => wrong
  | S fuel =>
      if bio =? NULL then mret 1
      else
        B ← get_bio bio;
        r ← of_opt (CRYPTO_refcount_dec_and_test_zero (references B));
        _ ← set_bio bio (set_references r.2);
        if negb (r.1 : bool) then mret 0
        else
          next ← BIO_pop bio;
          _ ← match method B with Some methods_biop => _ ← bio_free bio; mret tt | None => mret tt end;
          _ ← free_bio bio;
          free_loop fuel next
  end.

Definition BIO_free (bio : Z) : bioM Z :=
  w ← get_st; free_loop (S (S (base.size (bios w)))) bio.

Section alloc.
(** The addresses of new objects, and what a new buffer contains. *)
Variable malloc_bio : gmap Z BIO -> Z.
Variable malloc_state : gmap Z bio_bio_st -> Z.
Variable junk : Z -> list Z.

(** An allocation: [false] when it fails. *)
Definition bio_alloc_ok : bioM bool := fun w =>
  match bio_oom w with
  | b :: r => Some (negb b, mk_bio_world (bios w) (states w) r)
  | [] => Some (true, w)
  end.

(** The status. *)
Definition bio_new (bio : Z) : bioM Z :=
  ok ← bio_alloc_ok;
  if negb ok then mret 0
  else
    w ← get_st;
    let p := malloc_state (states w) in
    _ ← put_st (mk_bio_world (bios w)
          (<[p := mk_bio_bio NULL 0 0 0 (17 * 1024) None 0]> (states w)) (bio_oom w));
    _ ← set_bio bio (set_ptr p);
    mret 1.

(** [BIO_new(bio_s_bio())] *)
Definition BIO_new : bioM Z :=
  ok ← bio_alloc_ok;
  if negb ok then mret NULL
  else
    w ← get_st;
    let ret := malloc_bio (bios w) in
    _ ← put_st (mk_bio_world (<[ret := mk_BIO (Some methods_biop) 0 1 0 0 1 NULL NULL 0 0]> (bios w))
                  (states w) (bio_oom w));
    st ← bio_new ret;
    if st =? 0 then _ ← free_bio ret; mret NULL
    else mret ret.

(** [if (b->buf == NULL)] of [bio_make_pair]: [false] when there is no memory. *)
Definition make_buffer (b_ writebuf_len : Z) : bioM bool :=
  b ← get_state b_;
  match buf b with
  | Some _ => mret true
  | None =>
      let size' := if negb (writebuf_len =? 0) then writebuf_len else size b in
      _ ← set_state b_ (set_size size');
      ok ← bio_alloc_ok;
      if negb ok then mret false
      else _ ← set_state b_ (fun b => set_offset 0 (set_len 0 (set_buf (Some (junk size')) b)));
           mret true
  end.

Definition bio_make_pair (bio1 bio2 writebuf1_len writebuf2_len : Z) : bioM Z :=
  B1 ← get_bio bio1; B2 ← get_bio bio2;
  b1 ← get_state (ptr B1); b2 ← get_state (ptr B2);
  if negb (peer b1 =? NULL) || negb (peer b2 =? NULL) then mret 0
  else
    ok ← make_buffer (ptr B1) writebuf1_len;
    if negb (ok : bool) then mret 0
    else
      ok ← make_buffer (ptr B2) writebuf2_len;
      if negb (ok : bool) then mret 0
      else
        _ ← set_state (ptr B1) (fun b => set_request 0 (set_closed 0 (set_peer bio2 b)));
        _ ← set_state (ptr B2) (fun b => set_request 0 (set_closed 0 (set_peer bio1 b)));
        _ ← set_bio bio1 (set_init 1);
        _ ← set_bio bio2 (set_init 1);
        mret 1.

(** The status, [*bio1_p] and [*bio2_p]. *)
Definition BIO_new_bio_pair (writebuf1_len writebuf2_len : Z) : bioM (Z * Z * Z) :=
  bio1 ← BIO_new;
  bio2 ← BIO_new;
  ok ← (if (bio1 =? NULL) || (bio2 =? NULL) then mret 0
        else bio_make_pair bio1 bio2 writebuf1_len writebuf2_len);
  if ok =? 0 then
    _ ← BIO_free bio1; _ ← BIO_free bio2; mret (0, NULL, NULL)
  else mret (1, bio1, bio2).
End alloc.

(** ** bio.c *)

Definition BIO_read (bio : Z) (buf_null : bool) (len : Z) : bioM (Z * list Z) :=
  if bio =? NULL then mret (-2, [])
  else
    B ← get_bio bio;
    match method B with
    | None => mret (-2, [])
    | Some methods_biop =>
        if init B =? 0 then mret (-2, [])
        else if len <=? 0 then mret (0, [])
        else
          r ← bio_read bio buf_null len;
          _ ← (if 0 <? r.1 then set_bio bio (add_read r.1) else mret tt);
          mret r
    end.

Definition BIO_write (bio : Z) (in_ : option (list Z)) (inl : Z) : bioM Z :=
  if bio =? NULL then mret (-2)
  else
    B ← get_bio bio;
    match method B with
    | None => mret (-2)
    | Some methods_biop =>
        if init B =? 0 then mret (-2)
        else if inl <=? 0 then mret 0
        else
          ret ← bio_write bio in_ inl;
          _ ← (if 0 <? ret then set_bio bio (add_write ret) else mret tt);
          mret ret
    end.

Definition BIO_ctrl (bio cmd larg parg : Z) : bioM Z :=
  if bio =? NULL then mret 0
  else
    B ← get_bio bio;
    match method B with
    | None => mret (-2)
    | Some methods_biop => bio_ctrl bio cmd larg parg
    end.

Definition INT_MAX : Z := 2 ^ 31 - 1.

Fixpoint write_all_loop (fuel : nat) (bio : Z) (data : list Z) (len : Z) : bioM Z :=
  match fuel with
  | O => wrong
  | S fuel =>
      if 0 <? len then
        ret ← BIO_write bio (Some data) (if INT_MAX <? len then INT_MAX else len);
        if ret <=? 0 then mret 0
        else write_all_loop fuel bio (drop (Z.to_nat ret) data) (u64 (len - ret))
      else mret 1
  end.

(** Every turn but the last writes a byte. *)
Definition BIO_write_all (bio : Z) (data : list Z) : bioM Z :=
  write_all_loop (S (length data)) bio data (Z.of_nat (length data)).

Definition BIO_flush (bio : Z) : bioM Z := r ← BIO_ctrl bio BIO_CTRL_FLUSH 0 NULL; mret (s32 r).
Definition BIO_eof (bio : Z) : bioM Z := r ← BIO_ctrl bio BIO_CTRL_EOF 0 NULL; mret (s32 r).
Definition BIO_pending (bio : Z) : bioM Z :=
  r ← BIO_ctrl bio BIO_CTRL_PENDING 0 NULL;
  _ ← c_assert (0 <=? r);
  if r <? 0 then mret 0 else mret r.
Definition BIO_wpending (bio : Z) : bioM Z :=
  r ← BIO_ctrl bio BIO_CTRL_WPENDING 0 NULL;
  _ ← c_assert (0 <=? r);
  if r <? 0 then mret 0 else mret r.
Definition BIO_set_close (bio close_flag : Z) : bioM Z :=
  r ← BIO_ctrl bio BIO_CTRL_SET_CLOSE close_flag NULL; mret (s32 r).
Definition BIO_number_read (bio : Z) : bioM Z := B ← get_bio bio; mret (num_read B).
Definition BIO_number_written (bio : Z) : bioM Z := B ← get_bio bio; mret (num_write B).

Definition BIO_ctrl_get_read_request (bio : Z) : bioM Z :=
  r ← BIO_ctrl bio BIO_C_GET_READ_REQUEST 0 NULL; mret (u64 r).
Definition BIO_ctrl_get_write_guarantee (bio : Z) : bioM Z :=
  r ← BIO_ctrl bio BIO_C_GET_WRITE_GUARANTEE 0 NULL; mret (u64 r).
Definition BIO_shutdown_wr (bio : Z) : bioM Z :=
  r ← BIO_ctrl bio BIO_C_SHUTDOWN_WR 0 NULL; mret (s32 r).
