(* ===== verification/BioRing.v ===== *)
(** * BoringSSL: the ring buffer of a BIO pair

    The bytes a ring buffer holds, and the loops of [bio_read] and [bio_write]:
    at most two copies take the oldest bytes out, or add bytes at the end. *)
From S2P Require Export BioPair.

Lemma get_state_some w p b : states w !! p = Some b -> get_state p w = Some (b, w).
Proof. intros E. unfold get_state. by rewrite E. Qed.

Lemma get_bio_some w p B : bios w !! p = Some B -> get_bio p w = Some (B, w).
Proof. intros E. unfold get_bio. by rewrite E. Qed.

Definition put_state (p : Z) (b : bio_bio_st) (w : bio_world) : bio_world :=
  mk_bio_world (bios w) (<[p := b]> (states w)) (bio_oom w).
Definition put_bio (p : Z) (B : BIO) (w : bio_world) : bio_world :=
  mk_bio_world (<[p := B]> (bios w)) (states w) (bio_oom w).

Lemma set_state_some w p b f : states w !! p = Some b -> set_state p f w = Some (tt, put_state p (f b) w).
Proof. intros E. unfold set_state. by rewrite E. Qed.

Lemma set_bio_some w p B f : bios w !! p = Some B -> set_bio p f w = Some (tt, put_bio p (f B) w).
Proof. intros E. unfold set_bio. by rewrite E. Qed.

Lemma put_state_twice p b b' w : put_state p b' (put_state p b w) = put_state p b' w.
Proof. unfold put_state. cbn. by rewrite insert_insert_eq. Qed.

Lemma put_bio_twice p B B' w : put_bio p B' (put_bio p B w) = put_bio p B' w.
Proof. unfold put_bio. cbn. by rewrite insert_insert_eq. Qed.

Lemma put_state_same p b w : states (put_state p b w) !! p = Some b.
Proof. apply lookup_insert_eq. Qed.

Lemma put_bio_same p B w : bios (put_bio p B w) !! p = Some B.
Proof. apply lookup_insert_eq. Qed.

Lemma assert_true {St} (b : bool) (w : St) : b = true -> c_assert b w = Some (tt, w).
Proof. by intros ->. Qed.

(** ** The bytes of a ring *)

(** The buffer of [b] holds the bytes [q], oldest first. *)
Definition ring (b : bio_bio_st) (q : list Z) : Prop :=
  exists bs, buf b = Some bs /\ Z.of_nat (length bs) = size b /\ 0 < size b < 2 ^ 63
    /\ len b = Z.of_nat (length q) /\ len b <= size b /\ 0 <= offset b < size b
    /\ (forall i, 0 <= i < len b ->
          q !! Z.to_nat i = bs !! Z.to_nat ((offset b + i) mod size b)).

Lemma ring_bounds b q :
  ring b q -> 0 < size b < 2 ^ 63 /\ len b = Z.of_nat (length q) /\ 0 <= len b <= size b
              /\ 0 <= offset b < size b.
Proof. intros (bs & _ & ? & ? & ? & ? & ? & _). lia. Qed.

(** The other fields do not matter. *)
Lemma ring_ext b b' q :
  buf b' = buf b -> size b' = size b -> len b' = len b -> offset b' = offset b ->
  ring b q -> ring b' q.
Proof. intros E1 E2 E3 E4. unfold ring. by rewrite E1, E2, E3, E4. Qed.

(** Taking [n] bytes that do not wrap around. *)
Lemma ring_take b q n :
  ring b q -> 0 < n <= len b -> offset b + n <= size b ->
  copy_from (buf b) (offset b) n = Some (take (Z.to_nat n) q)
  /\ forall o, (len b - n = 0 /\ o = 0 \/ o = (offset b + n) mod size b) ->
     ring (set_offset o (set_len (len b - n) b)) (drop (Z.to_nat n) q).
Proof.
  intros (bs & Eb & Hl & Hs & Hlen & Hls & Ho & Hq) Hn Hwrap. split.
  - unfold copy_from. rewrite Eb.
    assert (((0 <=? offset b) && (0 <=? n) && (offset b + n <=? Z.of_nat (length bs))) = true) as -> by lia.
    f_equal. apply list_eq. intros k. destruct (decide (k < Z.to_nat n)%nat) as [Hk|Hk].
    + rewrite !lookup_take_lt, lookup_drop by lia.
      specialize (Hq (Z.of_nat k) ltac:(lia)). rewrite Nat2Z.id in Hq. rewrite Hq.
      f_equal. rewrite Z.mod_small by lia. lia.
    + rewrite !lookup_take_ge by lia. done.
  - intros o Hoo. exists bs. cbn [buf size len offset set_offset set_len].
    assert (Hor : 0 <= o < size b).
    { destruct Hoo as [[_ ->]| ->]; [lia|apply Z.mod_pos_bound; lia]. }
    split_and!; try done; try (rewrite ?length_drop; lia).
    intros i Hi. destruct Hoo as [[E _]| ->]; [lia|]. rewrite lookup_drop.
    specialize (Hq (n + i) ltac:(lia)). replace (Z.to_nat (n + i)) with (Z.to_nat n + Z.to_nat i)%nat in Hq by lia.
    rewrite Hq. do 2 f_equal. rewrite Zplus_mod_idemp_l. f_equal. lia.
Qed.

Lemma mod_once v n : 0 <= v < 2 * n -> v mod n = if v <? n then v else v - n.
Proof.
  intros Hv. case_bool; [apply Z.mod_small; lia|].
  symmetry. apply (Z.mod_unique_pos _ _ 1); lia.
Qed.

(** Adding bytes that do not wrap around. *)
Lemma ring_add b q l :
  ring b q -> len b + Z.of_nat (length l) <= size b ->
  let wo := (offset b + len b) mod size b in
  wo + Z.of_nat (length l) <= size b ->
  exists new, copy_to (buf b) wo l = Some new
    /\ ring (set_len (len b + Z.of_nat (length l)) (set_buf (Some new) b)) (q ++ l).
Proof.
  intros (bs & Eb & Hl & Hs & Hlen & Hls & Ho & Hq) Hfit wo Hwrap.
  assert (Hwo : 0 <= wo < size b) by (apply Z.mod_pos_bound; lia).
  unfold copy_to. rewrite Eb.
  assert (((0 <=? wo) && (wo + Z.of_nat (length l) <=? Z.of_nat (length bs))) = true) as -> by lia.
  eexists. split; [done|]. set (new := take (Z.to_nat wo) bs ++ l ++ drop (Z.to_nat wo + length l) bs).
  assert (Hlt : length (take (Z.to_nat wo) bs) = Z.to_nat wo) by (rewrite length_take; lia).
  exists new. cbn [buf size len offset set_len set_buf].
  assert (Hln : length new = length bs) by (unfold new; rewrite !length_app, length_drop; lia).
  split_and!; try done; try (rewrite ?length_app; lia).
  intros i Hi. set (x := (offset b + i) mod size b).
  assert (Hx : 0 <= x < size b) by (apply Z.mod_pos_bound; lia).
  assert (Hcase : i < len b /\ (x < wo \/ wo + Z.of_nat (length l) <= x)
                  \/ len b <= i /\ x = wo + (i - len b)).
  { unfold x, wo in *. rewrite !mod_once in * by lia. repeat case_bool; lia. }
  destruct Hcase as [[Hil Hxw]|[Hil Hxw]].
  - rewrite lookup_app_l by lia. rewrite (Hq i ltac:(lia)). fold x. unfold new. destruct Hxw as [Hxw|Hxw].
    + by rewrite lookup_app_l, lookup_take_lt by lia.
    + rewrite lookup_app_r, Hlt, lookup_app_r, lookup_drop by lia. f_equal. lia.
  - rewrite lookup_app_r by lia. unfold new. rewrite lookup_app_r, Hlt by lia.
    rewrite lookup_app_l by lia. f_equal. lia.
Qed.

(** ** The loops *)

(** [b'] is [b] but for its bytes, which are [q]. *)
Definition same_end (b b' : bio_bio_st) (q : list Z) : Prop :=
  peer b' = peer b /\ closed b' = closed b /\ size b' = size b /\ request b' = request b /\ ring b' q.

Lemma same_end_trans b1 b2 b3 q2 q3 : same_end b1 b2 q2 -> same_end b2 b3 q3 -> same_end b1 b3 q3.
Proof. intros (?&?&?&?&?) (?&?&?&?&?). unfold same_end. by split_and!; try congruence. Qed.

(** The state after [chunk] bytes are read. *)
Definition after_read (b : bio_bio_st) (chunk : Z) : bio_bio_st :=
  set_offset (if len b - chunk =? 0 then 0
              else if offset b + chunk =? size b then 0 else offset b + chunk)
    (set_len (len b - chunk) b).

Definition read_chunk (b : bio_bio_st) (rest : Z) : Z :=
  if offset b + rest <=? size b then rest else size b - offset b.

(** One iteration. *)
Lemma read_chunks_step fuel w p b q rest :
  states w !! p = Some b -> ring b q -> 0 < rest <= len b ->
  let chunk := read_chunk b rest in
  0 < chunk <= rest /\ same_end b (after_read b chunk) (drop (Z.to_nat chunk) q)
  /\ read_chunks (S fuel) p rest w
     = (if rest - chunk =? 0 then mret (take (Z.to_nat chunk) q)
        else more ← read_chunks fuel p (rest - chunk); mret (take (Z.to_nat chunk) q ++ more))
       (put_state p (after_read b chunk) w).
Proof.
  intros Hp Hr Hrest chunk. destruct (ring_bounds b q Hr) as (Hs & Hlen & Hls & Ho).
  assert (Hc : 0 < chunk <= rest /\ offset b + chunk <= size b).
  { unfold chunk, read_chunk. case_bool; lia. }
  destruct Hc as [Hc Hwrap]. destruct (ring_take b q chunk Hr ltac:(lia) Hwrap) as [Hcopy Hring].
  split; [done|]. split.
  { split_and!; try done. apply Hring. case_bool; [by left|right].
    rewrite mod_once by lia. repeat case_bool; lia. }
  cbn [read_chunks]. pstep (get_state_some w p b Hp).
  pstep (assert_true (rest <=? len b) w ltac:(lia)).
  rewrite (u64_small (offset b + rest)), (u64_small (size b - offset b)) by lia.
  fold (read_chunk b rest). fold chunk. rewrite (u64_small (offset b + chunk)) by lia. cbv zeta.
  pstep (assert_true (offset b + chunk <=? size b) w ltac:(lia)).
  rewrite Hcopy. unfold mbind at 1, part_bind at 1, of_opt.
  rewrite (u64_small (len b - chunk)), (u64_small (rest - chunk)) by lia.
  match goal with |- mbind _ ?m _ = _ =>
    assert (Hset : m w = Some (tt, put_state p (after_read b chunk) w)) end.
  { unfold after_read. destruct (Z.eqb_spec (len b - chunk) 0); cbn [negb].
    - pstep (assert_true (St := bio_world) (chunk =? rest) w ltac:(lia)).
      by rewrite (set_state_some w p b _ Hp).
    - pstep (assert_true (St := bio_world) (offset b + chunk <=? size b) w ltac:(lia)).
      by rewrite (set_state_some w p b _ Hp). }
  by pstep Hset.
Qed.

(** At most two iterations take the oldest [rest] bytes. *)
Lemma read_chunks_spec w p b q rest :
  states w !! p = Some b -> ring b q -> 0 < rest <= len b ->
  exists b', read_chunks 2 p rest w = Some (take (Z.to_nat rest) q, put_state p b' w)
    /\ same_end b b' (drop (Z.to_nat rest) q).
Proof.
  intros Hp Hr Hrest. destruct (ring_bounds b q Hr) as (Hs & Hlen & Hls & Ho).
  destruct (read_chunks_step 1 w p b q rest Hp Hr Hrest) as (Hc & Hsame & E). cbv zeta in *.
  set (chunk := read_chunk b rest) in *. rewrite E. clear E.
  destruct (Z.eqb_spec (rest - chunk) 0) as [Ez|Hn].
  { replace rest with chunk by lia. by exists (after_read b chunk). }
  set (b1 := after_read b chunk) in *. set (w1 := put_state p b1 w).
  assert (Ec : chunk = size b - offset b) by (unfold chunk, read_chunk in *; case_bool; lia).
  assert (E1 : offset b1 = 0 /\ len b1 = len b - chunk).
  { unfold b1, after_read. cbn. split; [|done]. repeat case_bool; lia. }
  destruct E1 as [Eo El]. destruct Hsame as (S1 & S2 & S3 & S4 & Hr1).
  destruct (read_chunks_step 0 w1 p b1 (drop (Z.to_nat chunk) q) (rest - chunk))
    as (Hc2 & Hsame2 & E2); [apply put_state_same|done|lia|]. cbv zeta in *.
  assert (Ech : read_chunk b1 (rest - chunk) = rest - chunk).
  { unfold read_chunk. rewrite Eo, S3. case_bool; lia. }
  rewrite Ech, Z.sub_diag in *. cbn [Z.eqb] in E2. pstep E2.
  exists (after_read b1 (rest - chunk)). split.
  - unfold mret, part_ret, w1. rewrite put_state_twice. do 2 f_equal.
    rewrite <-(take_drop (Z.to_nat chunk) (take (Z.to_nat rest) q)). f_equal.
    + rewrite take_take. f_equal. lia.
    + rewrite skipn_firstn_comm. f_equal. lia.
  - rewrite drop_drop in Hsame2. replace (Z.to_nat chunk + Z.to_nat (rest - chunk))%nat with (Z.to_nat rest) in Hsame2 by lia.
    by eapply (same_end_trans b b1); [|exact Hsame2].
Qed.

(** The state after the bytes [l] are written, of which there is room for a chunk. *)
Definition write_at (b : bio_bio_st) : Z :=
  if size b <=? offset b + len b then offset b + len b - size b else offset b + len b.

Definition write_chunk (b : bio_bio_st) (rest : Z) : Z :=
  if write_at b + rest <=? size b then rest else size b - write_at b.

Lemma write_chunks_step fuel w p b q l rest :
  states w !! p = Some b -> ring b q -> 0 < rest -> rest <= Z.of_nat (length l) ->
  len b + rest <= size b ->
  let chunk := write_chunk b rest in
  0 < chunk <= rest /\ exists b1,
    same_end b b1 (q ++ take (Z.to_nat chunk) l) /\ len b1 = len b + chunk /\ offset b1 = offset b
    /\ write_chunks (S fuel) p l rest w
       = (if rest - chunk =? 0 then mret tt
          else write_chunks fuel p (drop (Z.to_nat chunk) l) (rest - chunk)) (put_state p b1 w).
Proof.
  intros Hp Hr Hrest Hl Hfit chunk. destruct (ring_bounds b q Hr) as (Hs & Hlen & Hls & Ho).
  assert (Hwo : write_at b = (offset b + len b) mod size b).
  { unfold write_at. rewrite mod_once by lia. repeat case_bool; lia. }
  assert (Hwr : 0 <= write_at b < size b) by (rewrite Hwo; apply Z.mod_pos_bound; lia).
  assert (Hc : 0 < chunk <= rest /\ write_at b + chunk <= size b).
  { unfold chunk, write_chunk. case_bool; lia. }
  destruct Hc as [Hc Hwrap]. split; [done|].
  set (part_ := take (Z.to_nat chunk) l).
  assert (Hpl : Z.of_nat (length part_) = chunk) by (unfold part_; rewrite length_take; lia).
  destruct (ring_add b q part_ Hr ltac:(lia)) as (new & Hcopy & Hring); [rewrite <-Hwo; lia|].
  rewrite <-Hwo, Hpl in *.
  exists (set_len (len b + chunk) (set_buf (Some new) b)). split; [by split_and!|]. split; [done|]. split; [done|].
  cbn [write_chunks]. pstep (get_state_some w p b Hp). rewrite (u64_small (len b + rest)) by lia.
  pstep (assert_true (len b + rest <=? size b) w ltac:(lia)). cbv zeta.
  assert (Hwa : (if size b <=? u64 (offset b + len b) then u64 (u64 (offset b + len b) - size b)
                 else u64 (offset b + len b)) = write_at b).
  { rewrite (u64_small (offset b + len b)) by lia. unfold write_at. case_bool; [apply u64_small; lia|done]. }
  rewrite Hwa, (u64_small (write_at b + rest)), (u64_small (size b - write_at b)) by lia.
  fold (write_chunk b rest). fold chunk.
  assert (Hfrom : copy_from (Some l) 0 chunk = Some part_).
  { unfold copy_from. cbn [Z.leb andb]. assert (((0 <=? chunk) && (0 + chunk <=? Z.of_nat (length l))) = true) as E by lia.
    cbn in E |- *. by rewrite E. }
  rewrite Hfrom. unfold mbind at 1, part_bind at 1, of_opt at 1. rewrite Hcopy.
  unfold mbind at 1, part_bind at 1, of_opt at 1.
  rewrite (u64_small (len b + chunk)), (u64_small (rest - chunk)) by lia.
  pstep (set_state_some w p b (fun b0 => set_len (len b + chunk) (set_buf (Some new) b0)) Hp).
  match goal with |- mbind _ _ ?w1 = _ => pstep (assert_true (len b + chunk <=? size b) w1 ltac:(lia)) end.
  done.
Qed.

(** At most two iterations add [rest] bytes. *)
Lemma write_chunks_spec w p b q l rest :
  states w !! p = Some b -> ring b q -> 0 < rest -> rest <= Z.of_nat (length l) ->
  len b + rest <= size b ->
  exists b', write_chunks 2 p l rest w = Some (tt, put_state p b' w)
    /\ same_end b b' (q ++ take (Z.to_nat rest) l).
Proof.
  intros Hp Hr Hrest Hl Hfit. destruct (ring_bounds b q Hr) as (Hs & Hlen & Hls & Ho).
  destruct (write_chunks_step 1 w p b q l rest Hp Hr Hrest Hl Hfit) as (Hc & b1 & Hsame & El & Eo & E).
  cbv zeta in *. set (chunk := write_chunk b rest) in *. rewrite E. clear E.
  destruct (Z.eqb_spec (rest - chunk) 0) as [Ez|Hn].
  { replace rest with chunk by lia. by exists b1. }
  assert (Ech : chunk = size b - write_at b) by (unfold chunk, write_chunk in *; case_bool; lia).
  pose proof Hsame as (S1 & S2 & S3 & S4 & Hr1).
  destruct (write_chunks_step 0 (put_state p b1 w) p b1 (q ++ take (Z.to_nat chunk) l) (drop (Z.to_nat chunk) l) (rest - chunk))
    as (Hc2 & b2 & Hsame2 & _ & _ & E2); [apply put_state_same|done|lia|rewrite length_drop; lia|lia|].
  assert (Ech2 : write_chunk b1 (rest - chunk) = rest - chunk).
  { unfold write_chunk, write_at in *. rewrite Eo, El, S3. revert Ech. repeat case_bool; lia. }
  cbv zeta in *. rewrite Ech2, Z.sub_diag in *. cbn [Z.eqb] in E2. rewrite E2, put_state_twice.
  exists b2. split; [done|]. eapply same_end_trans; [exact Hsame|].
  destruct Hsame2 as (? & ? & ? & ? & Hr2). split_and!; try done.
  rewrite <-app_assoc in Hr2. replace (take (Z.to_nat rest) l)
    with (take (Z.to_nat chunk) l ++ take (Z.to_nat (rest - chunk)) (drop (Z.to_nat chunk) l)); [done|].
  rewrite <-(take_drop (Z.to_nat chunk) (take (Z.to_nat rest) l)), take_take, skipn_firstn_comm. f_equal; f_equal; lia.
Qed.
