(* ===== verification/BioPairSpec.v ===== *)
(** * BoringSSL: a BIO pair is two pipes

    The abstract pair: for each end, the bytes sent and how many of them the
    other end has read, of which at most a capacity may be on their way. The
    operations on a pair of BIOs refine it. *)
From S2P Require Export BioRing.

(** ** The abstract pair *)

(** What one end sends to the other. *)
Record pipe := mk_pipe { cap : Z; sent : list Z; got : nat; shut : bool; wanted : Z }.

(** The bytes on their way. *)
Definition pending (p : pipe) : list Z := drop (got p) (sent p).
Definition room (p : pipe) : Z := cap p - Z.of_nat (length (pending p)).

Definition set_wanted (n : Z) (p : pipe) : pipe := mk_pipe (cap p) (sent p) (got p) (shut p) n.
Definition set_shut (p : pipe) : pipe := mk_pipe (cap p) (sent p) (got p) true (wanted p).
Definition receive (n : nat) (p : pipe) : pipe := mk_pipe (cap p) (sent p) (got p + n) (shut p) 0.
Definition send (l : list Z) (p : pipe) : pipe := mk_pipe (cap p) (sent p ++ l) (got p) (shut p) 0.

(** The results of reading and writing: the value, the bytes read, and whether to retry. *)
Definition pipe_read (n : Z) (p : pipe) : pipe * (Z * list Z * bool) :=
  if n <=? 0 then (p, (0, [], false))
  else match pending p with
       | [] => if shut p then (set_wanted 0 p, (0, [], false))
               else (set_wanted (Z.min n (cap p)) p, (-1, [], true))
       | q => let k := Z.min n (Z.of_nat (length q)) in
              (receive (Z.to_nat k) p, (k, take (Z.to_nat k) q, false))
       end.

Definition pipe_write (l : list Z) (p : pipe) : pipe * (Z * list Z * bool) :=
  match l with
  | [] => (p, (0, [], false))
  | _ => if shut p then (set_wanted 0 p, (-1, [], false))
         else if room p =? 0 then (set_wanted 0 p, (-1, [], true))
         else let k := Z.min (Z.of_nat (length l)) (room p) in
              (send (take (Z.to_nat k) l) p, (k, [], false))
  end.

(** The end [i], one of two. *)
Inductive pair_op :=
  | op_read (i : bool) (n : Z)
  | op_write (i : bool) (l : list Z)
  | op_shutdown (i : bool)
  | op_pending (i : bool)
  | op_wpending (i : bool)
  | op_guarantee (i : bool)
  | op_request (i : bool)
  | op_reset_request (i : bool)
  | op_numbers (i : bool).

Inductive pair_result :=
  | r_io (ret : Z) (bytes : list Z) (retry : bool)
  | r_num (n : Z)
  | r_nums (n m : Z).

Definition with_pipe (P : bool -> pipe) (j : bool) (p : pipe) : bool -> pipe :=
  fun x => if eqb x j then p else P x.

Definition r_of (r : Z * list Z * bool) : pair_result := r_io r.1.1 r.1.2 r.2.

(** One operation on the pipes: the end [i] sends on [P i] and reads [P (negb i)]. *)
Definition pipes_step (P : bool -> pipe) (op : pair_op) : (bool -> pipe) * pair_result :=
  match op with
  | op_read i n => let r := pipe_read n (P (negb i)) in (with_pipe P (negb i) r.1, r_of r.2)
  | op_write i l => let r := pipe_write l (P i) in (with_pipe P i r.1, r_of r.2)
  | op_shutdown i => (with_pipe P i (set_shut (P i)), r_num 1)
  | op_pending i => (P, r_num (Z.of_nat (length (pending (P (negb i))))))
  | op_wpending i => (P, r_num (Z.of_nat (length (pending (P i)))))
  | op_guarantee i => (P, r_num (if shut (P i) then 0 else room (P i)))
  | op_request i => (P, r_num (wanted (P i)))
  | op_reset_request i => (with_pipe P i (set_wanted 0 (P i)), r_num 1)
  | op_numbers i => (P, r_nums (u64 (Z.of_nat (got (P (negb i))))) (u64 (Z.of_nat (length (sent (P i))))))
  end.

Fixpoint pipes_run (P : bool -> pipe) (ops : list pair_op) : (bool -> pipe) * list pair_result :=
  match ops with
  | [] => (P, [])
  | op :: ops => let r := pipes_step P op in
                 let rs := pipes_run r.1 ops in (rs.1, r.2 :: rs.2)
  end.

(** ** The operations on BIOs *)

(** The BIO asks for another try of the operation of flag [fl], and of no other. *)
Definition retries (fl : Z) (B : BIO) : bool :=
  negb (BIO_should_retry B =? 0) && (BIO_test_flags B BIO_FLAGS_RWS =? fl).

Definition io_result (fl bio : Z) (r : Z * list Z) : bioM pair_result :=
  B ← get_bio bio; mret (r_io r.1 r.2 ((r.1 <? 0) && retries fl B)).

Definition pair_step (a : bool -> Z) (op : pair_op) : bioM pair_result :=
  match op with
  | op_read i n => r ← BIO_read (a i) false n; io_result BIO_FLAGS_READ (a i) r
  | op_write i l => r ← BIO_write (a i) (Some l) (Z.of_nat (length l));
                    io_result BIO_FLAGS_WRITE (a i) (r, [])
  | op_shutdown i => r ← BIO_shutdown_wr (a i); mret (r_num r)
  | op_pending i => r ← BIO_pending (a i); mret (r_num r)
  | op_wpending i => r ← BIO_wpending (a i); mret (r_num r)
  | op_guarantee i => r ← BIO_ctrl_get_write_guarantee (a i); mret (r_num r)
  | op_request i => r ← BIO_ctrl_get_read_request (a i); mret (r_num r)
  | op_reset_request i => r ← BIO_ctrl (a i) BIO_C_RESET_READ_REQUEST 0 NULL; mret (r_num r)
  | op_numbers i => n ← BIO_number_read (a i); m ← BIO_number_written (a i); mret (r_nums n m)
  end.

Fixpoint pair_run (a : bool -> Z) (ops : list pair_op) : bioM (list pair_result) :=
  match ops with
  | [] => mret []
  | op :: ops => r ← pair_step a op; rs ← pair_run a ops; mret (r :: rs)
  end.

(** Counts are [int]s. *)
Definition op_fits (op : pair_op) : Prop :=
  match op with
  | op_read _ n => - 2 ^ 31 <= n < 2 ^ 31
  | op_write _ l => Z.of_nat (length l) < 2 ^ 31
  | _ => True
  end.

(** ** The relation *)

Section relation.
(** The rest of the world, the addresses of the two BIOs, and of their states. *)
Context (w0 : bio_world) (a s : bool -> Z).

Definition bio_ok (P : bool -> pipe) (i : bool) (B : BIO) : Prop :=
  method B = Some methods_biop /\ init B = 1 /\ references B = 1 /\ ptr B = s i
  /\ next_bio B = NULL /\ num_read B = u64 (Z.of_nat (got (P (negb i))))
  /\ num_write B = u64 (Z.of_nat (length (sent (P i)))).

Definition state_ok (i : bool) (p : pipe) (b : bio_bio_st) : Prop :=
  peer b = a (negb i) /\ closed b = (if shut p then 1 else 0) /\ size b = cap p
  /\ request b = wanted p /\ 0 <= wanted p <= cap p /\ (got p <= length (sent p))%nat
  /\ ring b (pending p).

(** Two ends of a pair, new to the world. *)
Definition new_ends : Prop :=
  forall i, a i <> NULL /\ s i <> NULL /\ bios w0 !! a i = None /\ states w0 !! s i = None
            /\ a i <> a (negb i) /\ s i <> s (negb i).

Record is_pair (P : bool -> pipe) (w : bio_world) : Prop := mk_is_pair {
  p_ends : new_ends;
  p_bio : forall i, exists B, bios w !! a i = Some B /\ bio_ok P i B;
  p_state : forall i, exists b, states w !! s i = Some b /\ state_ok i (P i) b;
  p_bios : forall x, (forall i, x <> a i) -> bios w !! x = bios w0 !! x;
  p_states : forall x, (forall i, x <> s i) -> states w !! x = states w0 !! x
}.

Lemma is_pair_put P w i j B' b' p' :
  is_pair P w -> bio_ok (with_pipe P j p') i B' -> state_ok j p' b' ->
  got p' = got (P j) \/ j = negb i -> length (sent p') = length (sent (P j)) \/ j = i ->
  is_pair (with_pipe P j p') (put_bio (a i) B' (put_state (s j) b' w)).
Proof.
  intros [He Hb Hs Hbs Hss] HB Hst Hg Hn. split; [done| | | |].
  - intros x. cbn [bios put_bio put_state]. destruct (decide (x = i)) as [-> | Hx].
    + exists B'. by rewrite lookup_insert_eq.
    + assert (x = negb i) as -> by (destruct x, i; done). destruct (He i) as (_ & _ & _ & _ & Hne & _).
      rewrite lookup_insert_ne by done. destruct (Hb (negb i)) as (B & HB1 & H1 & H2 & H3 & H4 & H5 & H6 & H7).
      exists B. split; [done|]. unfold bio_ok, with_pipe. rewrite negb_involutive in *.
      split_and!; try done; [rewrite H6|rewrite H7]; destruct (eqb_spec i j), (eqb_spec (negb i) j);
        subst; try done; solve [destruct Hg; [congruence|by destruct j]|destruct Hn; [congruence|by destruct i]].
  - intros x. cbn [states put_bio put_state]. unfold with_pipe. destruct (eqb_spec x j) as [-> | Hx].
    + exists b'. by rewrite lookup_insert_eq.
    + assert (x = negb j) as -> by (destruct x, j; done). destruct (He j) as (_ & _ & _ & _ & _ & Hne).
      rewrite lookup_insert_ne by done. apply Hs.
  - intros x Hx. cbn [bios put_bio put_state]. rewrite lookup_insert_ne; [by apply Hbs|]. intros E. by apply (Hx i).
  - intros x Hx. cbn [states put_bio put_state]. rewrite lookup_insert_ne; [by apply Hss|]. intros E. by apply (Hx j).
Qed.

(** ** Retry flags *)

Lemma land_cleared f k : Z.ldiff k kRetryFlags = 0 -> Z.land (Z.ldiff f kRetryFlags) k = 0.
Proof.
  intros Hk. apply Z.bits_inj. intros n. apply (f_equal (fun z => Z.testbit z n)) in Hk.
  rewrite Z.land_spec, Z.ldiff_spec. rewrite Z.ldiff_spec, Z.bits_0 in Hk. rewrite Z.bits_0.
  destruct (Z.testbit f n), (Z.testbit kRetryFlags n), (Z.testbit k n); done.
Qed.

Lemma retries_set f fl B :
  fl = BIO_FLAGS_READ \/ fl = BIO_FLAGS_WRITE ->
  flags B = Z.lor (Z.ldiff f kRetryFlags) (Z.lor fl BIO_FLAGS_SHOULD_RETRY) -> retries fl B = true.
Proof.
  intros Hfl E. unfold retries, BIO_should_retry, BIO_test_flags. rewrite E, !Z.land_lor_distr_l.
  rewrite !land_cleared by done. by destruct Hfl as [-> | ->].
Qed.

Lemma retries_cleared f fl B : flags B = Z.ldiff f kRetryFlags -> retries fl B = false.
Proof.
  intros E. unfold retries, BIO_should_retry, BIO_test_flags. by rewrite E, land_cleared.
Qed.

(** ** Reading and writing *)

Lemma bio_ok_flags P i B f r : bio_ok P i B -> bio_ok P i (set_reason r (set_flags f B)).
Proof. done. Qed.

Lemma pair_ends P w i :
  is_pair P w -> exists B b bj,
    bios w !! a i = Some B /\ bio_ok P i B
    /\ states w !! s i = Some b /\ state_ok i (P i) b
    /\ states w !! s (negb i) = Some bj /\ state_ok (negb i) (P (negb i)) bj
    /\ a i <> NULL /\ a (negb i) <> NULL /\ a i <> a (negb i)
    /\ exists Bj, bios w !! a (negb i) = Some Bj /\ bio_ok P (negb i) Bj.
Proof.
  intros T. destruct (p_bio _ _ T i) as (B & ? & ?), (p_bio _ _ T (negb i)) as (Bj & ? & ?).
  destruct (p_state _ _ T i) as (b & ? & ?), (p_state _ _ T (negb i)) as (bj & ? & ?).
  destruct (p_ends _ _ T i) as (? & _ & _ & _ & ? & _), (p_ends _ _ T (negb i)) as (? & _).
  exists B, b, bj. split_and!; try done. by exists Bj.
Qed.

(** What [bio_read] does before it looks at the bytes. *)
Definition cleared (B : BIO) : BIO := set_reason 0 (set_flags (Z.ldiff (flags B) kRetryFlags) B).

Lemma clear_some w p B : bios w !! p = Some B -> BIO_clear_retry_flags p w = Some (tt, put_bio p (cleared B) w).
Proof. apply set_bio_some. Qed.

Lemma ring_len b q : ring b q -> len b = Z.of_nat (length q).
Proof. by intros (bs & _ & _ & _ & ? & _). Qed.

Lemma bio_read_reaches P w i n B bj :
  is_pair P w -> bios w !! a i = Some B -> states w !! s (negb i) = Some bj -> 0 < n < 2 ^ 31 ->
  bio_read (a i) false n w
  = (if len bj =? 0 then
       if negb (closed bj =? 0) then mret (0, [])
       else _ ← BIO_set_retry_read (a i);
            _ ← set_state (s (negb i)) (set_request (if n <=? size bj then n else size bj));
            mret (-1, [])
     else
       let k := if len bj <? n then len bj else n in
       _ ← c_assert (0 <? k); bytes ← read_chunks 2 (s (negb i)) k; mret (s32 k, bytes))
      (put_bio (a i) (cleared B) (put_state (s (negb i)) (set_request 0 bj) w)).
Proof.
  intros T HB Hbj Hn. destruct (pair_ends P w i T)
    as (B' & b & bj' & HB' & (_ & Hin & _ & Hptr & _) & Hb & (Hpeer & _) & Hbj' & (_ & _ & _ & _ & _ & _ & Hring)
        & Ha & Haj & Hne & Bj & HBj & (_ & _ & _ & Hptrj & _)).
  rewrite HB in HB'. injection HB' as <-. rewrite Hbj in Hbj'. injection Hbj' as <-.
  unfold bio_read. cbv zeta. rewrite (u64_small n) by lia.
  pstep (clear_some w (a i) B HB). set (w1 := put_bio (a i) (cleared B) w).
  pstep (get_bio_some w1 (a i) (cleared B) (put_bio_same _ _ _)). change (init (cleared B)) with (init B).
  rewrite Hin. change (ptr (cleared B)) with (ptr B). rewrite Hptr. cbn [Z.eqb].
  pstep (get_state_some w1 (s i) b Hb). rewrite Hpeer.
  pstep (assert_true (negb (a (negb i) =? NULL)) w1 ltac:(by rewrite (proj2 (Z.eqb_neq _ _) Haj))).
  assert (HBj1 : bios w1 !! a (negb i) = Some Bj) by (cbn [bios w1 put_bio]; by rewrite lookup_insert_ne).
  pstep (get_bio_some w1 _ Bj HBj1). rewrite Hptrj.
  pstep (get_state_some w1 (s (negb i)) bj Hbj).
  assert (Hbuf : (if buf bj then true else false) = true) by (destruct Hring as (bs & -> & _); done).
  pstep (assert_true _ w1 Hbuf). pstep (set_state_some w1 (s (negb i)) bj (set_request 0) Hbj).
  assert (En : (n =? 0) = false) by lia. rewrite En. cbn [orb].
  pstep (get_state_some (put_state (s (negb i)) (set_request 0 bj) w1) _ _ (put_state_same _ _ _)).
  reflexivity.
Qed.

Lemma state_request i p b n :
  state_ok i p b -> 0 <= n <= cap p -> state_ok i (set_wanted n p) (set_request n b).
Proof. intros (? & ? & ? & ? & ? & ? & Hr) Hn. split_and!; cbn; try done; lia. Qed.

Lemma state_receive i p b b' k :
  state_ok i p b -> (k <= length (pending p))%nat -> same_end (set_request 0 b) b' (drop k (pending p)) ->
  state_ok i (receive k p) b'.
Proof.
  intros (Hp & Hc & Hs & Hr & Hw & Hg & Hring) Hk (Sp & Sc & Ss & Sr & Hring').
  unfold pending in *. rewrite length_drop in Hk. rewrite drop_drop in Hring'.
  cbn [peer closed size request set_request] in *.
  split_and!; cbn [receive cap sent got shut wanted]; try congruence. all: try lia. exact Hring'.
Qed.

Lemma bio_ok_received P i B k r f n :
  bio_ok P i B -> n = Z.of_nat k ->
  bio_ok (with_pipe P (negb i) (receive k (P (negb i)))) i (add_read n (set_reason r (set_flags f B))).
Proof.
  intros (? & ? & ? & ? & ? & Hr & Hw) ->. unfold bio_ok, with_pipe. rewrite eqb_reflx.
  split_and!; try done.
  - cbn [num_read add_read set_reason set_flags got receive]. rewrite Hr. unfold u64.
    rewrite Zplus_mod_idemp_l. f_equal. lia.
  - cbn [num_write add_read set_reason set_flags]. by destruct i.
Qed.

Lemma is_pair_ext P P' w : (forall i, P i = P' i) -> is_pair P w -> is_pair P' w.
Proof.
  intros E [He Hb Hs Hbs Hss]. split; [done| | |done|done]; intros i.
  - destruct (Hb i) as (B & HB & Hok). exists B. split; [done|]. unfold bio_ok in *. by rewrite <-!E.
  - by rewrite <-E.
Qed.

Lemma with_pipe_id P j i : with_pipe P j (P j) i = P i.
Proof. unfold with_pipe. by destruct (eqb_spec i j) as [-> |]. Qed.

(** The end of an operation that reads or writes: the flags are noted. *)
Lemma io_noted w i B fl r :
  bios w !! a i = Some B -> io_result fl (a i) r w = Some (r_io r.1 r.2 ((r.1 <? 0) && retries fl B), w).
Proof. intros HB. unfold io_result. by pstep (get_bio_some w (a i) B HB). Qed.

Lemma s32_small k : 0 <= k < 2 ^ 31 -> s32 k = k.
Proof. intros Hk. apply to_signed_small; lia. Qed.

Lemma bio_ok_with P i j B p' :
  bio_ok P i B -> got p' = got (P j) -> length (sent p') = length (sent (P j)) ->
  bio_ok (with_pipe P j p') i B.
Proof.
  intros (? & ? & ? & ? & ? & Hr & Hw) Eg Es. unfold bio_ok, with_pipe.
  split_and!; try done; [rewrite Hr|rewrite Hw];
    match goal with |- context [eqb ?x ?y] => destruct (eqb_spec x y) as [E|] end; subst; congruence.
Qed.

(** Reading from an empty ring whose end is not closed. *)
Lemma read_retries P w i n B bj :
  is_pair P w -> bios w !! a i = Some B -> states w !! s (negb i) = Some bj -> 0 < n < 2 ^ 31 ->
  len bj = 0 -> closed bj = 0 ->
  exists B', bio_read (a i) false n w
    = Some ((-1, []), put_bio (a i) B' (put_state (s (negb i)) (set_request (Z.min n (size bj)) bj) w))
    /\ bio_ok P i B' /\ retries BIO_FLAGS_READ B' = true.
Proof.
  intros T HB Hbj Hn Hl Hc. rewrite (bio_read_reaches P w i n B bj T HB Hbj Hn), Hl, Hc. cbn [negb Z.eqb].
  set (w1 := put_bio (a i) (cleared B) (put_state (s (negb i)) (set_request 0 bj) w)).
  assert (HB1 : bios w1 !! a i = Some (cleared B)) by apply put_bio_same.
  unfold BIO_set_retry_read. erewrite part_bind_some by (apply set_bio_some; exact HB1).
  match goal with |- context [put_bio (a i) ?B2 w1] => set (B' := B2); set (w2 := put_bio (a i) B' w1) end.
  assert (Hbj2 : states w2 !! s (negb i) = Some (set_request 0 bj)) by apply put_state_same.
  rewrite (part_bind_some _ _ _ _ _ (set_state_some w2 _ _ _ Hbj2)).
  exists B'. split; [|split].
  - unfold mret, part_ret. do 2 f_equal. unfold w2, w1. rewrite put_bio_twice.
    change (put_state ?p ?b (put_bio ?q ?C ?v)) with (put_bio q C (put_state p b v)).
    rewrite put_state_twice. do 2 f_equal. unfold set_request. cbn. f_equal. case_bool; lia.
  - destruct (pair_ends P w i T) as (B0 & _ & _ & HB0 & Hok & _). rewrite HB in HB0. injection HB0 as <-.
    exact Hok.
  - eapply (retries_set (flags B)); [by left|done].
Qed.

(** Reading what is there. *)
Lemma read_takes P w i n B bj q :
  is_pair P w -> bios w !! a i = Some B -> states w !! s (negb i) = Some bj -> 0 < n < 2 ^ 31 ->
  ring bj q -> q <> [] ->
  let k := Z.min n (Z.of_nat (length q)) in
  exists b', bio_read (a i) false n w
    = Some ((k, take (Z.to_nat k) q), put_bio (a i) (cleared B) (put_state (s (negb i)) b' w))
    /\ same_end (set_request 0 bj) b' (drop (Z.to_nat k) q).
Proof.
  intros T HB Hbj Hn Hring Hq k. rewrite (bio_read_reaches P w i n B bj T HB Hbj Hn).
  rewrite (ring_len _ _ Hring). assert (Hlen : (0 < length q)%nat) by (destruct q; [done|simpl; lia]).
  destruct (Z.eqb_spec (Z.of_nat (length q)) 0); [lia|]. cbv zeta.
  assert (Ek : (if Z.of_nat (length q) <? n then Z.of_nat (length q) else n) = k) by (unfold k; case_bool; lia).
  rewrite Ek. set (w1 := put_bio (a i) (cleared B) (put_state (s (negb i)) (set_request 0 bj) w)).
  pstep (assert_true (0 <? k) w1 ltac:(lia)).
  assert (Hr1 : ring (set_request 0 bj) q) by (by eapply ring_ext; [..|exact Hring]).
  destruct (read_chunks_spec w1 (s (negb i)) (set_request 0 bj) q k) as (b' & E & Hsame);
    [apply put_state_same|done|rewrite (ring_len _ _ Hr1); lia|].
  exists b'. split; [|done]. pstep E. unfold mret, part_ret. rewrite s32_small by lia. do 2 f_equal.
  unfold w1. change (put_state ?p ?b (put_bio ?q ?C ?v)) with (put_bio q C (put_state p b v)).
  by rewrite put_state_twice.
Qed.

Lemma read_spec P w i n :
  is_pair P w -> - 2 ^ 31 <= n < 2 ^ 31 ->
  exists w', pair_step a (op_read i n) w = Some (r_of (pipe_read n (P (negb i))).2, w')
    /\ is_pair (with_pipe P (negb i) (pipe_read n (P (negb i))).1) w'.
Proof.
  intros T Hn. destruct (pair_ends P w i T)
    as (B & b & bj & HB & HBok & Hb & _ & Hbj & Hst & Ha & _ & _ & _).
  pose proof HBok as (Hm & Hin & _). pose proof Hst as (_ & Hcl & Hsz & _ & Hwc & _ & Hring).
  assert (Hpre : pair_step a (op_read i n) w
    = (r ← (if n <=? 0 then mret (0, []) else
              r ← bio_read (a i) false n; _ ← (if 0 <? r.1 then set_bio (a i) (add_read r.1) else mret tt); mret r);
       io_result BIO_FLAGS_READ (a i) r) w).
  { cbn [pair_step]. unfold BIO_read. rewrite (proj2 (Z.eqb_neq _ _) Ha).
    unfold mbind at 1 2, part_bind at 1 2. rewrite (get_bio_some w (a i) B HB), Hm, Hin. done. }
  rewrite Hpre. clear Hpre. unfold pipe_read. destruct (Z.leb_spec n 0) as [Hle|Hpos].
  { exists w. split; [|apply (is_pair_ext P); [intros x; symmetry; apply with_pipe_id|done]].
    unfold mbind at 1, part_bind at 1, mret at 1, part_ret at 1. by rewrite (io_noted w i B _ _ HB). }
  set (p := P (negb i)) in *. destruct (pending p) as [|c q] eqn:Eq.
  - pose proof (ring_len _ _ Hring) as Hl. destruct (shut p) eqn:Es.
    + set (w1 := put_bio (a i) (cleared B) (put_state (s (negb i)) (set_request 0 bj) w)).
      assert (Hr : bio_read (a i) false n w = Some ((0, []), w1)).
      { rewrite (bio_read_reaches P w i n B bj T HB Hbj ltac:(lia)). by rewrite Hl, Hcl. }
      exists w1. split; [|apply is_pair_put; auto; [by apply bio_ok_with|apply (state_request _ _ bj 0 Hst); lia]].
      erewrite part_bind_some; [|pstep Hr; reflexivity]. by rewrite (io_noted w1 i _ _ _ (put_bio_same _ _ _)).
    + destruct (read_retries P w i n B bj T HB Hbj ltac:(lia) Hl Hcl) as (B' & Hr & HB' & Hret).
      eexists. split; [|apply is_pair_put; [exact T|by apply bio_ok_with| |by left|by left]].
      * erewrite part_bind_some; [|pstep Hr; reflexivity].
        rewrite (io_noted _ i _ _ _ (put_bio_same _ _ _)), Hret. done.
      * rewrite <-Hsz. apply (state_request _ _ bj _ Hst). lia.
  - destruct (read_takes P w i n B bj (c :: q) T HB Hbj ltac:(lia) Hring ltac:(done)) as (b' & Hr & Hsame).
    cbv zeta in *. set (k := Z.min n (Z.of_nat (length (c :: q)))) in *.
    assert (Hk : 0 < k <= Z.of_nat (length (c :: q))) by (unfold k; simpl length; lia).
    eexists. split.
    + erewrite part_bind_some.
      2:{ pstep Hr. cbn [fst]. rewrite (proj2 (Z.ltb_lt 0 k)) by lia.
          rewrite (part_bind_some _ _ _ _ _ (set_bio_some _ _ _ _ (put_bio_same _ _ _))), put_bio_twice. reflexivity. }
      rewrite (io_noted _ i _ _ _ (put_bio_same _ _ _)). cbn [fst snd].
      assert ((k <? 0) = false) as -> by lia. done.
    + apply is_pair_put; [exact T|apply bio_ok_received; [done|lia]| |by right|by left].
      apply (state_receive _ _ bj); [done|rewrite Eq; lia|by rewrite Eq].
Qed.
End relation.
