(* ===== verification/BioPairOps.v ===== *)
(** * BoringSSL: making, using and freeing BIO pairs

    Every operation on the ends of a pair does what it does to the pipes; a new
    pair is two empty pipes, and freeing the two ends leaves no object behind. *)
From S2P Require Export BioPairSpec.

Section relation.
Context (w0 : bio_world) (a s : bool -> Z).
Notation is_pair := (is_pair w0 a s).
Notation state_ok := (state_ok a).
Notation bio_ok := (bio_ok s).

(** ** Writing *)

Lemma bio_write_reaches P w i l B b :
  is_pair P w -> bios w !! a i = Some B -> states w !! s i = Some b ->
  l <> [] -> Z.of_nat (length l) < 2 ^ 31 ->
  bio_write (a i) (Some l) (Z.of_nat (length l)) w
  = (if negb (closed b =? 0) then mret (-1)
     else
       _ ← c_assert (len b <=? size b);
       if len b =? size b then _ ← BIO_set_retry_write (a i); mret (-1)
       else
         let k := if u64 (size b - len b) <? Z.of_nat (length l) then u64 (size b - len b)
                  else Z.of_nat (length l) in
         _ ← c_assert (0 <? k); _ ← write_chunks 2 (s i) l k; mret (s32 k))
      (put_bio (a i) (cleared B) (put_state (s i) (set_request 0 b) w)).
Proof.
  intros T HB Hb Hl Hn. destruct (pair_ends w0 a s P w i T)
    as (B' & b' & bj & HB' & (_ & Hin & _ & Hptr & _) & Hb' & (Hpeer & _ & _ & _ & _ & _ & Hring) & _ & _
        & Ha & Haj & _).
  rewrite HB in HB'. injection HB' as <-. rewrite Hb in Hb'. injection Hb' as <-.
  assert (Hlen : (0 < length l)%nat) by (destruct l; [done|simpl; lia]).
  unfold bio_write. cbv zeta. rewrite (u64_small (Z.of_nat (length l))) by lia.
  pstep (clear_some w (a i) B HB). set (w1 := put_bio (a i) (cleared B) w).
  pstep (get_bio_some w1 (a i) (cleared B) (put_bio_same _ _ _)). change (init (cleared B)) with (init B).
  rewrite Hin. change (ptr (cleared B)) with (ptr B). rewrite Hptr.
  assert (En : (Z.of_nat (length l) =? 0) = false) by lia. rewrite En. cbn [Z.eqb orb].
  pstep (get_state_some w1 (s i) b Hb). rewrite Hpeer.
  pstep (assert_true (negb (a (negb i) =? NULL)) w1 ltac:(by rewrite (proj2 (Z.eqb_neq _ _) Haj))).
  assert (Hbuf : (if buf b then true else false) = true) by (destruct Hring as (bs & -> & _); done).
  pstep (assert_true _ w1 Hbuf). pstep (set_state_some w1 (s i) b (set_request 0) Hb). reflexivity.
Qed.

Lemma state_send i p b b' l :
  state_ok i p b -> same_end (set_request 0 b) b' (pending p ++ l) -> state_ok i (send l p) b'.
Proof.
  intros (Hp & Hc & Hs & Hr & Hw & Hg & Hring) (Sp & Sc & Ss & Sr & Hring').
  cbn [peer closed size request set_request] in *.
  split_and!; cbn [send cap sent got shut wanted]; try congruence; [lia|lia|rewrite length_app; lia|].
  unfold pending, send. cbn [got sent]. by rewrite drop_app_le by lia.
Qed.

Lemma bio_ok_sent P i B l r f n :
  bio_ok P i B -> n = Z.of_nat (length l) ->
  bio_ok (with_pipe P i (send l (P i))) i (add_write n (set_reason r (set_flags f B))).
Proof.
  intros (? & ? & ? & ? & ? & Hr & Hw) ->. unfold BioPairSpec.bio_ok, with_pipe. rewrite eqb_reflx.
  split_and!; try done.
  - cbn [num_read add_write set_reason set_flags]. by destruct i.
  - cbn [num_write add_write set_reason set_flags sent send]. rewrite Hw, length_app. unfold u64.
    rewrite Zplus_mod_idemp_l. f_equal. lia.
Qed.

(** Writing to a full ring. *)
Lemma write_retries P w i l B b :
  is_pair P w -> bios w !! a i = Some B -> states w !! s i = Some b ->
  l <> [] -> Z.of_nat (length l) < 2 ^ 31 -> closed b = 0 -> len b = size b ->
  exists B', bio_write (a i) (Some l) (Z.of_nat (length l)) w
    = Some (-1, put_bio (a i) B' (put_state (s i) (set_request 0 b) w))
    /\ bio_ok P i B' /\ retries BIO_FLAGS_WRITE B' = true.
Proof.
  intros T HB Hb Hl Hn Hc Hfull. rewrite (bio_write_reaches P w i l B b T HB Hb Hl Hn), Hc. cbn [negb Z.eqb].
  set (w1 := put_bio (a i) (cleared B) (put_state (s i) (set_request 0 b) w)).
  pstep (assert_true (len b <=? size b) w1 ltac:(lia)). rewrite (proj2 (Z.eqb_eq _ _) Hfull).
  assert (HB1 : bios w1 !! a i = Some (cleared B)) by apply put_bio_same.
  unfold BIO_set_retry_write. erewrite part_bind_some by (apply set_bio_some; exact HB1).
  match goal with |- context [put_bio (a i) ?B2 w1] => set (B' := B2) end.
  exists B'. split; [|split].
  - unfold mret, part_ret, w1. by rewrite put_bio_twice.
  - destruct (pair_ends w0 a s P w i T) as (B0 & _ & _ & HB0 & Hok & _). rewrite HB in HB0. injection HB0 as <-.
    exact Hok.
  - eapply (retries_set (flags B)); [by right|done].
Qed.

(** Writing what fits. *)
Lemma write_adds P w i l B b q :
  is_pair P w -> bios w !! a i = Some B -> states w !! s i = Some b ->
  l <> [] -> Z.of_nat (length l) < 2 ^ 31 -> closed b = 0 -> ring b q -> len b <> size b ->
  let k := Z.min (Z.of_nat (length l)) (size b - len b) in
  0 < k /\ exists b', bio_write (a i) (Some l) (Z.of_nat (length l)) w
    = Some (k, put_bio (a i) (cleared B) (put_state (s i) b' w))
    /\ same_end (set_request 0 b) b' (q ++ take (Z.to_nat k) l).
Proof.
  intros T HB Hb Hl Hn Hc Hring Hroom k. destruct (ring_bounds b q Hring) as (Hs & Hlen & Hls & _).
  assert (Hlen' : (0 < length l)%nat) by (destruct l; [done|simpl; lia]). split; [lia|].
  rewrite (bio_write_reaches P w i l B b T HB Hb Hl Hn), Hc. cbn [negb Z.eqb].
  set (w1 := put_bio (a i) (cleared B) (put_state (s i) (set_request 0 b) w)).
  pstep (assert_true (len b <=? size b) w1 ltac:(lia)). rewrite (proj2 (Z.eqb_neq _ _) Hroom). cbv zeta.
  rewrite (u64_small (size b - len b)) by lia.
  assert (Ek : (if size b - len b <? Z.of_nat (length l) then size b - len b else Z.of_nat (length l)) = k)
    by (unfold k; case_bool; lia).
  rewrite Ek. pstep (assert_true (0 <? k) w1 ltac:(lia)).
  assert (Hr1 : ring (set_request 0 b) q) by (by eapply ring_ext; [..|exact Hring]).
  destruct (write_chunks_spec w1 (s i) (set_request 0 b) q l k) as (b' & E & Hsame);
    [apply put_state_same|done|lia|lia|cbn; lia|].
  exists b'. split; [|done]. pstep E. unfold mret, part_ret. rewrite s32_small by lia. do 2 f_equal.
  unfold w1. change (put_state ?p ?b (put_bio ?q ?C ?v)) with (put_bio q C (put_state p b v)).
  by rewrite put_state_twice.
Qed.

Lemma write_spec P w i l :
  is_pair P w -> Z.of_nat (length l) < 2 ^ 31 ->
  exists w', pair_step a (op_write i l) w = Some (r_of (pipe_write l (P i)).2, w')
    /\ is_pair (with_pipe P i (pipe_write l (P i)).1) w'.
Proof.
  intros T Hn. destruct (pair_ends w0 a s P w i T)
    as (B & b & bj & HB & HBok & Hb & Hst & _ & _ & Ha & _ & _ & _).
  pose proof HBok as (Hm & Hin & _). pose proof Hst as (_ & Hcl & Hsz & _ & Hwc & _ & Hring).
  pose proof (ring_len _ _ Hring) as Hl.
  assert (Hpre : pair_step a (op_write i l) w
    = (r ← (if Z.of_nat (length l) <=? 0 then mret 0 else
              ret ← bio_write (a i) (Some l) (Z.of_nat (length l));
              _ ← (if 0 <? ret then set_bio (a i) (add_write ret) else mret tt); mret ret);
       io_result BIO_FLAGS_WRITE (a i) (r, [])) w).
  { cbn [pair_step]. unfold BIO_write. rewrite (proj2 (Z.eqb_neq _ _) Ha).
    unfold mbind at 1 2, part_bind at 1 2. rewrite (get_bio_some w (a i) B HB), Hm, Hin. done. }
  rewrite Hpre. clear Hpre. unfold pipe_write. destruct (decide (l = [])) as [-> | Hne].
  { exists w. split; [|apply (is_pair_ext w0 a s P); [intros x; symmetry; apply with_pipe_id|done]].
    change (io_result BIO_FLAGS_WRITE (a i) (0, []) w = Some (r_io 0 [] false, w)).
    by rewrite (io_noted a w i B _ _ HB). }
  assert (Hpos : (Z.of_nat (length l) <=? 0) = false).
  { apply Z.leb_gt. destruct l; [done|cbn [length]; lia]. }
  assert (Hm' : forall A (x y : A), (match l with [] => x | _ => y end) = y) by (by destruct l).
  rewrite Hpos, Hm'. clear Hm'. set (p := P i) in *. destruct (shut p) eqn:Es; [|destruct (Z.eqb_spec (room p) 0) as [Er|Er]].
  - set (w1 := put_bio (a i) (cleared B) (put_state (s i) (set_request 0 b) w)).
    assert (Hr : bio_write (a i) (Some l) (Z.of_nat (length l)) w = Some (-1, w1)).
    { rewrite (bio_write_reaches P w i l B b T HB Hb Hne Hn). by rewrite Hcl. }
    exists w1. split; [|apply is_pair_put; auto; [by apply bio_ok_with|apply (state_request _ _ _ b 0 Hst); lia]].
    erewrite part_bind_some; [|pstep Hr; reflexivity]. rewrite (io_noted a w1 i _ _ _ (put_bio_same _ _ _)).
    cbn [fst]. by rewrite (retries_cleared (flags B)).
  - assert (Hfull : len b = size b) by (unfold room in Er; lia).
    destruct (write_retries P w i l B b T HB Hb Hne Hn Hcl Hfull) as (B' & Hr & HB' & Hret).
    eexists. split; [|apply is_pair_put; [exact T|by apply bio_ok_with| |by left|by left]].
    + erewrite part_bind_some; [|pstep Hr; reflexivity].
      rewrite (io_noted a _ i _ _ _ (put_bio_same _ _ _)), Hret. done.
    + apply (state_request _ _ _ b _ Hst). lia.
  - assert (Hroom : len b <> size b) by (unfold room in Er; lia).
    destruct (write_adds P w i l B b _ T HB Hb Hne Hn Hcl Hring Hroom) as (Hk & b' & Hr & Hsame).
    assert (Ek : Z.min (Z.of_nat (length l)) (size b - len b) = Z.min (Z.of_nat (length l)) (room p))
      by (unfold room; lia).
    cbv zeta in *. rewrite Ek in *. set (k := Z.min (Z.of_nat (length l)) (room p)) in *.
    eexists. split.
    + erewrite part_bind_some.
      2:{ pstep Hr. rewrite (proj2 (Z.ltb_lt 0 k)) by lia.
          rewrite (part_bind_some _ _ _ _ _ (set_bio_some _ _ _ _ (put_bio_same _ _ _))), put_bio_twice. reflexivity. }
      rewrite (io_noted a _ i _ _ _ (put_bio_same _ _ _)). cbn [fst snd].
      assert ((k <? 0) = false) as -> by lia. done.
    + apply is_pair_put; [exact T|apply bio_ok_sent; [done|rewrite length_take; lia]| |by left|by right].
      by apply (state_send _ _ b).
Qed.

(** ** The other operations *)

Lemma BIO_ctrl_reaches P w i cmd B :
  is_pair P w -> bios w !! a i = Some B -> BIO_ctrl (a i) cmd 0 NULL w = bio_ctrl (a i) cmd 0 NULL w.
Proof.
  intros T HB. destruct (pair_ends w0 a s P w i T) as (B' & b & bj & HB' & (Hm & _) & _ & _ & _ & _ & Ha & _).
  rewrite HB in HB'. injection HB' as <-. unfold BIO_ctrl. rewrite (proj2 (Z.eqb_neq _ _) Ha).
  pstep (get_bio_some w (a i) B HB). by rewrite Hm.
Qed.

Lemma long_small x : 0 <= x < 2 ^ 63 -> long_of x = x.
Proof. intros Hx. apply to_signed_small; lia. Qed.

(** Replacing only a state. *)
Lemma is_pair_state P w i b p' :
  is_pair P w -> state_ok i p' b -> got p' = got (P i) -> length (sent p') = length (sent (P i)) ->
  is_pair (with_pipe P i p') (put_state (s i) b w).
Proof.
  intros T Hb Hg Hs. destruct (p_bio _ _ _ _ _ T i) as (B & HB & Hok).
  assert (E : put_state (s i) b w = put_bio (a i) B (put_state (s i) b w)).
  { unfold put_bio. cbn [bios put_state]. by rewrite insert_id. }
  rewrite E. apply is_pair_put; [done|by apply bio_ok_with|done|by left|by left].
Qed.

(** Which control it is. *)
Ltac which_ctrl :=
  unfold BIO_C_GET_WRITE_BUF_SIZE, BIO_C_GET_WRITE_GUARANTEE, BIO_C_GET_READ_REQUEST, BIO_C_SHUTDOWN_WR,
    BIO_C_RESET_READ_REQUEST, BIO_CTRL_EOF, BIO_CTRL_GET_CLOSE, BIO_CTRL_SET_CLOSE, BIO_CTRL_PENDING,
    BIO_CTRL_FLUSH, BIO_CTRL_WPENDING; cbn [Z.eqb Pos.eqb].

Lemma ctrl_spec P w i :
  is_pair P w -> exists b, states w !! s i = Some b /\ state_ok i (P i) b
  /\ BIO_ctrl (a i) BIO_C_GET_WRITE_GUARANTEE 0 NULL w
     = Some (if shut (P i) then 0 else room (P i), w)
  /\ BIO_ctrl (a i) BIO_C_GET_READ_REQUEST 0 NULL w = Some (wanted (P i), w)
  /\ BIO_ctrl (a i) BIO_C_RESET_READ_REQUEST 0 NULL w = Some (1, put_state (s i) (set_request 0 b) w)
  /\ BIO_ctrl (a i) BIO_C_SHUTDOWN_WR 0 NULL w = Some (1, put_state (s i) (set_closed 1 b) w)
  /\ BIO_ctrl (a i) BIO_CTRL_PENDING 0 NULL w = Some (Z.of_nat (length (pending (P (negb i)))), w)
  /\ BIO_ctrl (a i) BIO_CTRL_WPENDING 0 NULL w = Some (Z.of_nat (length (pending (P i))), w).
Proof.
  intros T. destruct (pair_ends w0 a s P w i T)
    as (B & b & bj & HB & (_ & _ & _ & Hptr & _) & Hb & Hst & Hbj & Hstj & _ & Haj & _ & Bj & HBj & (_ & _ & _ & Hptrj & _)).
  pose proof Hst as (Hpeer & Hcl & Hsz & Hreq & Hw & _ & Hring).
  destruct (ring_bounds _ _ Hring) as (Hs & Hlen & Hls & _).
  destruct Hstj as (_ & _ & _ & _ & _ & _ & Hringj). destruct (ring_bounds _ _ Hringj) as (Hsj & Hlenj & Hlsj & _).
  exists b. split; [done|]. split; [done|]. rewrite !(BIO_ctrl_reaches P w i _ B T HB).
  assert (Hgo : forall cmd, bio_ctrl (a i) cmd 0 NULL w
    = (b0 ← get_state (s i); bio_ctrl (a i) cmd 0 NULL) w) by (intros cmd; by pstep (get_state_some w (s i) b Hb)).
  clear Hgo. unfold bio_ctrl. rewrite !(part_bind_some _ _ _ _ _ (get_bio_some w (a i) B HB)), Hptr.
  rewrite !(part_bind_some _ _ _ _ _ (get_state_some w (s i) b Hb)). which_ctrl. rewrite Hpeer.
  rewrite !(proj2 (Z.eqb_neq _ _) Haj). cbn [orb negb]. split_and!.
  - rewrite Hcl. destruct (shut (P i)); [done|]. cbn [Z.eqb negb]. unfold room.
    rewrite u64_small, long_small by lia. unfold mret, part_ret. do 2 f_equal. lia.
  - rewrite Hreq, long_small by lia. done.
  - erewrite part_bind_some by (apply set_state_some; exact Hb). done.
  - erewrite part_bind_some by (apply set_state_some; exact Hb). done.
  - pstep (get_bio_some w _ Bj HBj). rewrite Hptrj. pstep (get_state_some w _ bj Hbj).
    rewrite long_small by lia. by rewrite Hlenj.
  - destruct Hring as (bs & Eb & _). rewrite Eb, long_small by lia. by rewrite Hlen.
Qed.

Lemma pair_step_spec P w op :
  is_pair P w -> op_fits op ->
  exists w', pair_step a op w = Some ((pipes_step P op).2, w') /\ is_pair (pipes_step P op).1 w'.
Proof.
  intros T Hop. destruct op as [i n|i l|i|i|i|i|i|i|i]; cbn [pipes_step fst snd].
  1: exact (read_spec w0 a s P w i n T Hop).
  1: exact (write_spec P w i l T Hop).
  all: destruct (ctrl_spec P w i T) as (b & Hb & Hst & Hg & Hq & Hrs & Hsh & Hp & Hwp);
    pose proof Hst as (Hpeer & Hcl & Hsz & Hreq & Hw & Hgs & Hring);
    destruct (ring_bounds _ _ Hring) as (Hs & Hlen & Hls & _); cbn [pair_step].
  - eexists. split; [unfold BIO_shutdown_wr; erewrite part_bind_some by (pstep Hsh; reflexivity); reflexivity|].
    by apply is_pair_state.
  - exists w. split; [|done]. unfold BIO_pending. erewrite part_bind_some; [reflexivity|]. pstep Hp.
    destruct (Z.ltb_spec (Z.of_nat (length (pending (P (negb i))))) 0); [lia|].
    by pstep (assert_true (0 <=? Z.of_nat (length (pending (P (negb i))))) w ltac:(lia)).
  - exists w. split; [|done]. unfold BIO_wpending. erewrite part_bind_some; [reflexivity|]. pstep Hwp.
    destruct (Z.ltb_spec (Z.of_nat (length (pending (P i)))) 0); [lia|].
    by pstep (assert_true (0 <=? Z.of_nat (length (pending (P i)))) w ltac:(lia)).
  - exists w. split; [|done]. unfold BIO_ctrl_get_write_guarantee. erewrite part_bind_some; [reflexivity|].
    pstep Hg. unfold mret, part_ret. rewrite u64_small; [done|]. destruct (shut (P i)); [lia|]. unfold room. lia.
  - exists w. split; [|done]. unfold BIO_ctrl_get_read_request. erewrite part_bind_some; [reflexivity|].
    pstep Hq. unfold mret, part_ret. rewrite u64_small; [done|lia].
  - eexists. split; [erewrite part_bind_some by exact Hrs; reflexivity|].
    apply is_pair_state; try done. apply (state_request _ _ _ b 0 Hst). lia.
  - exists w. split; [|done]. destruct (p_bio _ _ _ _ _ T i) as (B & HB & (_ & _ & _ & _ & _ & Hr & Hwr)).
    unfold BIO_number_read, BIO_number_written.
    rewrite (part_bind_some _ _ _ (num_read B) w) by (by pstep (get_bio_some w (a i) B HB)).
    rewrite (part_bind_some _ _ _ (num_write B) w) by (by pstep (get_bio_some w (a i) B HB)).
    by rewrite Hr, Hwr.
Qed.

Lemma pair_run_spec ops : forall P w,
  is_pair P w -> Forall op_fits ops ->
  exists w', pair_run a ops w = Some ((pipes_run P ops).2, w') /\ is_pair (pipes_run P ops).1 w'.
Proof.
  induction ops as [|op ops IH]; intros P w T Hf; cbn [pair_run pipes_run fst snd]; [by exists w|].
  apply Forall_cons in Hf as [Hop Hf]. destruct (pair_step_spec P w op T Hop) as (w1 & E1 & T1).
  destruct (IH _ w1 T1 Hf) as (w' & E & T'). exists w'. split; [by pstep E1; pstep E|done].
Qed.
End relation.
