(* ===== verification/BioPairLife.v ===== *)
(** * BoringSSL: the life of a BIO pair

    Making a pair gives two empty pipes, or nothing when memory runs out; freeing
    one end disconnects the other, and freeing both gives all the memory back. *)
From S2P Require Export BioPairOps.

(** ** Freeing *)

(** A BIO of its own, with no peer. *)
Definition lone (x p : Z) (w : bio_world) : Prop :=
  exists B b, bios w !! x = Some B /\ states w !! p = Some b /\ x <> NULL
    /\ method B = Some methods_biop /\ references B = 1 /\ next_bio B = NULL /\ ptr B = p
    /\ peer b = NULL /\ init B = 0.

Definition erased (x p : Z) (w : bio_world) : bio_world :=
  mk_bio_world (delete x (bios w)) (delete p (states w)) (bio_oom w).

(** [BIO_free] of a BIO with one reference, up to the destructor. *)
Lemma BIO_free_reaches w x B :
  bios w !! x = Some B -> x <> NULL -> method B = Some methods_biop ->
  references B = 1 -> next_bio B = NULL ->
  BIO_free x w = (_ ← bio_free x; _ ← free_bio x; mret 1)
                   (put_bio x (set_next NULL (set_references 0 B)) w).
Proof.
  intros HB Hx Hm Hr Hn. unfold BIO_free. unfold mbind at 1, part_bind at 1, get_st.
  set (n := S (base.size (bios w))). cbn [free_loop]. rewrite (proj2 (Z.eqb_neq _ _) Hx).
  pstep (get_bio_some w x B HB). rewrite Hr. change (CRYPTO_refcount_dec_and_test_zero 1) with (Some (true, 0)).
  unfold mbind at 1, part_bind at 1, of_opt. cbn [fst snd negb].
  erewrite part_bind_some by (apply set_bio_some; exact HB).
  set (w1 := put_bio x (set_references 0 B) w).
  assert (Hpop : BIO_pop x w1 = Some (NULL, put_bio x (set_next NULL (set_references 0 B)) w)).
  { unfold BIO_pop. rewrite (proj2 (Z.eqb_neq _ _) Hx).
    pstep (get_bio_some w1 x _ (put_bio_same _ _ _)).
    erewrite part_bind_some by (apply set_bio_some; apply put_bio_same).
    unfold w1. rewrite put_bio_twice. unfold mret, part_ret. cbn [next_bio set_references]. by rewrite Hn. }
  pstep Hpop. rewrite Hm. unfold n. cbn [free_loop NULL Z.eqb].
  unfold mbind, part_bind, mret, part_ret.
  by destruct (bio_free x _) as [[? w3]|].
Qed.

Lemma free_lone w x p : lone x p w -> BIO_free x w = Some (1, erased x p w).
Proof.
  intros (B & b & HB & Hb & Hx & Hm & Hr & Hn & Hp & Hpeer & _).
  rewrite (BIO_free_reaches w x B HB Hx Hm Hr Hn). set (B' := set_next NULL (set_references 0 B)).
  set (w1 := put_bio x B' w).
  assert (E : bio_free x w1 = Some (1, mk_bio_world (<[x := B']> (bios w)) (delete p (states w)) (bio_oom w))).
  { unfold bio_free. pstep (get_bio_some w1 x B' (put_bio_same _ _ _)). change (ptr B') with (ptr B). rewrite Hp.
    pstep (get_state_some w1 p b Hb). rewrite Hpeer. cbn [NULL Z.eqb negb].
    unfold mbind, part_bind, mret, part_ret, free_state. cbn [states w1 put_bio]. by rewrite Hb. }
  pstep E. unfold mbind, part_bind, free_bio. cbn [bios]. rewrite lookup_insert_eq. cbn.
  unfold mret, part_ret, erased. by rewrite delete_insert_eq.
Qed.

Section relation.
Context (w0 : bio_world) (a s : bool -> Z).
Notation is_pair := (is_pair w0 a s).

Lemma end_ok b p i : state_ok a i p b -> (if buf b then true else false) = true.
Proof. intros (_ & _ & _ & _ & _ & _ & (bs & -> & _)). done. Qed.

(** The first end to be freed disconnects the other. *)
Lemma destroy_pair_spec w i B b p Bj bj pj :
  new_ends w0 a s -> bios w !! a i = Some B -> ptr B = s i ->
  states w !! s i = Some b -> state_ok a i p b ->
  states w !! s (negb i) = Some bj -> state_ok a (negb i) pj bj ->
  bios w !! a (negb i) = Some Bj -> ptr Bj = s (negb i) ->
  bio_destroy_pair (a i) w
  = Some (tt, put_bio (a i) (set_init 0 B) (put_bio (a (negb i)) (set_init 0 Bj)
                (put_state (s i) (set_offset 0 (set_len 0 (set_peer NULL b)))
                   (put_state (s (negb i)) (set_offset 0 (set_len 0 (set_peer NULL bj))) w)))).
Proof.
  intros He HB Hptr Hb Hst Hbj Hstj HBj Hptrj.
  destruct (He i) as (_ & Hsi & _ & _ & Hane & Hsne). destruct (He (negb i)) as (Haj & Hsj & _).
  pose proof Hst as (Hpeer & _). pose proof Hstj as (Hpeerj & _). rewrite negb_involutive in Hpeerj.
  unfold bio_destroy_pair. pstep (get_bio_some w _ B HB). rewrite Hptr, (proj2 (Z.eqb_neq _ _) Hsi).
  pstep (get_state_some w _ b Hb). cbv zeta. rewrite Hpeer, (proj2 (Z.eqb_neq _ _) Haj).
  pstep (get_bio_some w _ Bj HBj). rewrite Hptrj. pstep (get_state_some w _ bj Hbj).
  pstep (assert_true (peer bj =? a i) w ltac:(rewrite Hpeerj; apply Z.eqb_refl)).
  erewrite part_bind_some by (apply set_state_some; exact Hbj).
  erewrite part_bind_some by (apply set_bio_some; exact HBj).
  match goal with |- mbind _ _ ?w1 = _ => pstep (assert_true _ w1 (end_ok bj _ _ Hstj)) end.
  erewrite part_bind_some by (apply set_state_some; apply put_state_same).
  erewrite part_bind_some.
  2:{ apply set_state_some. cbn [states put_state put_bio]. rewrite !lookup_insert_ne by done. exact Hb. }
  erewrite part_bind_some.
  2:{ apply set_bio_some. cbn [bios put_state put_bio]. rewrite lookup_insert_ne by done. exact HB. }
  match goal with |- mbind _ _ ?w1 = _ => pstep (assert_true _ w1 (end_ok b _ _ Hst)) end.
  erewrite set_state_some by (cbn [states put_state put_bio]; apply lookup_insert_eq).
  do 2 f_equal. unfold put_state, put_bio. cbn. f_equal. by rewrite !insert_insert_eq.
Qed.

(** The objects of a pair and the rest of the world. *)
Lemma pair_erased P w w1 :
  is_pair P w ->
  (forall x, (forall i, x <> a i) -> bios w1 !! x = bios w !! x) ->
  (forall x, (forall i, x <> s i) -> states w1 !! x = states w !! x) ->
  (forall i, bios w1 !! a i = None) -> (forall i, states w1 !! s i = None) ->
  bios w1 = bios w0 /\ states w1 = states w0.
Proof.
  intros T Hb Hs Hbn Hsn. split; apply map_eq; intros x.
  - destruct (decide (x = a true)) as [-> | H1]; [rewrite Hbn; symmetry; apply T|].
    destruct (decide (x = a false)) as [-> | H2]; [rewrite Hbn; symmetry; apply T|].
    rewrite Hb, (p_bios _ _ _ _ _ T) by (by intros []). done.
  - destruct (decide (x = s true)) as [-> | H1]; [rewrite Hsn; symmetry; apply T|].
    destruct (decide (x = s false)) as [-> | H2]; [rewrite Hsn; symmetry; apply T|].
    rewrite Hs, (p_states _ _ _ _ _ T) by (by intros []). done.
Qed.

Lemma free_first P w i :
  is_pair P w -> exists w1 w2, BIO_free (a i) w = Some (1, w1) /\ lone (a (negb i)) (s (negb i)) w1
    /\ w2 = erased (a (negb i)) (s (negb i)) w1 /\ bios w2 = bios w0 /\ states w2 = states w0.
Proof.
  intros T. destruct (pair_ends w0 a s P w i T)
    as (B & b & bj & HB & HBok & Hb & Hst & Hbj & Hstj & Ha & Haj & Hne & Bj & HBj & HBjok).
  pose proof (p_ends _ _ _ _ _ T) as He. destruct (He i) as (_ & _ & _ & _ & _ & Hsne).
  pose proof HBok as (Hm & _ & Hr & Hptr & Hn & _). pose proof HBjok as (Hmj & _ & Hrj & Hptrj & Hnj & _).
  rewrite (BIO_free_reaches w (a i) B HB Ha Hm Hr Hn). set (B' := set_next NULL (set_references 0 B)).
  set (w1 := put_bio (a i) B' w).
  assert (HBj1 : bios w1 !! a (negb i) = Some Bj) by (cbn [bios w1 put_bio]; by rewrite lookup_insert_ne).
  pose proof (destroy_pair_spec w1 i B' b _ Bj bj _ He (put_bio_same _ _ _) Hptr Hb Hst Hbj Hstj HBj1 Hptrj) as Ed.
  set (b' := set_offset 0 (set_len 0 (set_peer NULL b))) in *.
  set (bj' := set_offset 0 (set_len 0 (set_peer NULL bj))) in *.
  set (wd := put_bio (a i) (set_init 0 B') _) in Ed.
  pose proof Hst as (Hpeer & _).
  assert (E : bio_free (a i) w1 = Some (1, mk_bio_world (bios wd) (delete (s i) (states wd)) (bio_oom wd))).
  { unfold bio_free. pstep (get_bio_some w1 _ B' (put_bio_same _ _ _)). change (ptr B') with (ptr B). rewrite Hptr.
    pstep (get_state_some w1 (s i) b Hb). rewrite Hpeer, (proj2 (Z.eqb_neq _ _) Haj). cbn [negb]. pstep Ed.
    unfold mbind, part_bind, free_state, mret, part_ret. cbn [states wd put_bio put_state]. by rewrite lookup_insert_eq. }
  assert (Ef : (_ ← bio_free (a i); _ ← free_bio (a i); mret 1) w1
    = Some (1, mk_bio_world (delete (a i) (bios wd)) (delete (s i) (states wd)) (bio_oom wd))).
  { pstep E. unfold mbind, part_bind, free_bio, mret, part_ret. cbn [bios wd put_bio]. by rewrite lookup_insert_eq. }
  eexists _, _. split; [exact Ef|]. split; [|split; [reflexivity|]].
  - exists (set_init 0 Bj), bj'. cbn [bios states wd put_bio put_state].
    rewrite !lookup_delete_ne, (lookup_insert_ne _ (a i)), lookup_insert_eq by done.
    rewrite (lookup_insert_ne _ (s i)), lookup_insert_eq by done. by split_and!.
  - apply (pair_erased P w _ T); cbn [bios states erased wd w1 put_bio put_state].
    + intros x Hx. rewrite !lookup_delete_ne, !lookup_insert_ne by (by intros <-; eapply Hx). done.
    + intros x Hx. rewrite !lookup_delete_ne, !lookup_insert_ne by (by intros <-; eapply Hx). done.
    + intros j. destruct (decide (j = negb i)) as [-> | Hj]; [by rewrite lookup_delete_eq|].
      assert (j = i) as -> by (destruct i, j; done). rewrite lookup_delete_ne by done. by rewrite lookup_delete_eq.
    + intros j. destruct (decide (j = negb i)) as [-> | Hj]; [by rewrite lookup_delete_eq|].
      assert (j = i) as -> by (destruct i, j; done). rewrite lookup_delete_ne by done. by rewrite lookup_delete_eq.
Qed.

(** A disconnected end neither reads nor writes. *)
Lemma lone_refuses x p w n l :
  lone x p w -> BIO_read x false n w = Some ((-2, []), w)
  /\ BIO_write x (Some l) (Z.of_nat (length l)) w = Some (-2, w).
Proof.
  intros (B & b & HB & _ & Hx & Hm & _ & _ & _ & _ & Hin). unfold BIO_read, BIO_write.
  rewrite (proj2 (Z.eqb_neq _ _) Hx). split; pstep (get_bio_some w x B HB); by rewrite Hm, Hin.
Qed.
End relation.

(** ** Making *)

Section making.
Context (malloc_bio : gmap Z BIO -> Z) (malloc_state : gmap Z bio_bio_st -> Z) (junk : Z -> list Z).
Context (malloc_bio_fresh : forall h, malloc_bio h <> NULL /\ h !! malloc_bio h = None).
Context (malloc_state_fresh : forall h, malloc_state h <> NULL /\ h !! malloc_state h = None).
Context (junk_length : forall n, 0 <= n -> Z.of_nat (length (junk n)) = n).

Definition new_state : bio_bio_st := mk_bio_bio NULL 0 0 0 (17 * 1024) None 0.
Definition new_bio (p : Z) : BIO := mk_BIO (Some methods_biop) 0 1 0 0 1 p NULL 0 0.

(** The allocations to come are among those of [w]. *)
Definition less_oom (w w' : bio_world) : Prop := forall b, b ∈ bio_oom w' -> b ∈ bio_oom w.

Lemma bio_alloc_ok_spec w :
  exists b w', bio_alloc_ok w = Some (b, w') /\ bios w' = bios w /\ states w' = states w
    /\ less_oom w w' /\ (b = false -> true ∈ bio_oom w).
Proof.
  unfold bio_alloc_ok, less_oom. destruct (bio_oom w) as [|b r] eqn:E.
  - exists true, w. by rewrite E.
  - eexists (negb b), _. split; [done|]. cbn [bios states bio_oom]. split; [done|]. split; [done|].
    split; [intros x Hx; by right|]. destruct b; [by left|done].
Qed.

Lemma BIO_new_spec w :
  exists ret w', BIO_new malloc_bio malloc_state w = Some (ret, w') /\ less_oom w w'
  /\ (ret = NULL /\ bios w' = bios w /\ states w' = states w /\ true ∈ bio_oom w
      \/ exists p, ret <> NULL /\ p <> NULL /\ bios w !! ret = None /\ states w !! p = None
         /\ bios w' = <[ret := new_bio p]> (bios w) /\ states w' = <[p := new_state]> (states w)).
Proof.
  unfold BIO_new. destruct (bio_alloc_ok_spec w) as (b & w1 & E1 & Hb1 & Hs1 & Ho1 & Hf1).
  destruct b.
  2:{ exists NULL, w1. split; [by pstep E1|]. split; [done|]. left. auto. }
  destruct (malloc_bio_fresh (bios w1)) as [Hx Hxn]. set (x := malloc_bio (bios w1)) in *.
  set (w2 := mk_bio_world (<[x := new_bio NULL]> (bios w1)) (states w1) (bio_oom w1)).
  assert (Hpre : BIO_new malloc_bio malloc_state w
    = (st ← bio_new malloc_state x; if st =? 0 then _ ← free_bio x; mret NULL else mret x) w2).
  { unfold BIO_new. by pstep E1. }
  unfold BIO_new in Hpre. rewrite Hpre. clear Hpre.
  destruct (bio_alloc_ok_spec w2) as (b & w3 & E3 & Hb3 & Hs3 & Ho3 & Hf3). destruct b.
  - destruct (malloc_state_fresh (states w3)) as [Hp Hpn]. set (p := malloc_state (states w3)) in *.
    set (w4 := mk_bio_world (bios w3) (<[p := new_state]> (states w3)) (bio_oom w3)).
    assert (Hb4 : bios w4 !! x = Some (new_bio NULL)) by (cbn [bios w4]; rewrite Hb3; apply lookup_insert_eq).
    assert (En : bio_new malloc_state x w2 = Some (1, put_bio x (new_bio p) w4)).
    { unfold bio_new. pstep E3. cbn [negb]. unfold mbind at 1, part_bind at 1, get_st. cbv zeta.
      unfold mbind at 1, part_bind at 1, put_st. fold p. fold new_state. fold w4.
      by erewrite part_bind_some by (apply set_bio_some; exact Hb4). }
    exists x, (put_bio x (new_bio p) w4). split; [by pstep En|].
    split; [intros y Hy; auto|]. right. exists p. rewrite <-Hb1, <-Hs1. change (states w1) with (states w2).
    rewrite <-Hs3. split_and!; try done. cbn [bios put_bio w4]. rewrite Hb3. cbn [bios w2]. by rewrite insert_insert_eq.
  - assert (En : bio_new malloc_state x w2 = Some (0, w3)) by (unfold bio_new; by pstep E3).
    exists NULL, (mk_bio_world (delete x (bios w3)) (states w3) (bio_oom w3)). split.
    + pstep En. cbn [Z.eqb]. unfold mbind, part_bind, free_bio. rewrite Hb3. cbn [bios w2].
      by rewrite lookup_insert_eq.
    + split; [intros y Hy; auto|]. left. cbn [bios states]. rewrite Hb3, Hs3. cbn [bios states w2].
      rewrite delete_insert_id by done. split_and!; [done..|]. apply Ho1. by apply Hf3.
Qed.

(** The size of a buffer. *)
Definition buffer_size (n : Z) : Z := if n =? 0 then 17 * 1024 else n.
Definition with_buffer (n : Z) : bio_bio_st :=
  mk_bio_bio NULL 0 0 0 (buffer_size n) (Some (junk (buffer_size n))) 0.

Lemma make_buffer_spec w p n :
  states w !! p = Some new_state ->
  exists ok w', make_buffer junk p n w = Some (ok, w') /\ bios w' = bios w /\ less_oom w w'
    /\ exists b', states w' = <[p := b']> (states w) /\ peer b' = NULL
       /\ (if ok : bool then b' = with_buffer n else true ∈ bio_oom w).
Proof.
  intros Hp. unfold make_buffer.
  assert (Esz : (if negb (n =? 0) then n else size new_state) = buffer_size n)
    by (unfold buffer_size; by destruct (n =? 0)).
  set (w1 := put_state p (set_size (buffer_size n) new_state) w).
  destruct (bio_alloc_ok_spec w1) as (b & w2 & E & Hb & Hs & Ho & Hf).
  assert (Hp2 : states w2 !! p = Some (set_size (buffer_size n) new_state)) by (rewrite Hs; apply put_state_same).
  destruct b.
  - exists true, (put_state p (with_buffer n) w2). split; [|split; [done|split; [done|]]].
    + pstep (get_state_some w p new_state Hp). cbn [buf new_state]. cbv zeta. rewrite Esz.
      rewrite (part_bind_some _ _ _ _ _ (set_state_some w p _ (set_size (buffer_size n)) Hp)). fold w1. pstep E.
      cbn [negb]. by erewrite part_bind_some by (apply set_state_some; exact Hp2).
    + exists (with_buffer n). cbn [states put_state]. rewrite Hs. cbn [states w1 put_state]. by rewrite insert_insert_eq.
  - exists false, w2. split; [|split; [done|split; [done|]]].
    + pstep (get_state_some w p new_state Hp). cbn [buf new_state]. cbv zeta. rewrite Esz.
      rewrite (part_bind_some _ _ _ _ _ (set_state_some w p _ (set_size (buffer_size n)) Hp)). fold w1. by pstep E.
    + exists (set_size (buffer_size n) new_state). split; [by rewrite Hs|]. split; [done|by apply Hf].
Qed.

(** The two BIOs, with their states, in a world where they are new. *)
Record two_bios (w0 w : bio_world) (x1 x2 p1 p2 : Z) (b1 b2 : bio_bio_st) : Prop := mk_two_bios {
  two_x1 : x1 <> NULL; two_x2 : x2 <> NULL; two_p1 : p1 <> NULL; two_p2 : p2 <> NULL;
  two_x : x1 <> x2; two_p : p1 <> p2;
  two_new1 : bios w0 !! x1 = None; two_new2 : bios w0 !! x2 = None;
  two_old1 : states w0 !! p1 = None; two_old2 : states w0 !! p2 = None;
  two_bios_ : bios w = <[x2 := new_bio p2]> (<[x1 := new_bio p1]> (bios w0));
  two_states : states w = <[p2 := b2]> (<[p1 := b1]> (states w0))
}.

(** Freeing both when they could not be connected. *)
Lemma free_two w0 w x1 x2 p1 p2 b1 b2 :
  two_bios w0 w x1 x2 p1 p2 b1 b2 -> peer b1 = NULL -> peer b2 = NULL ->
  exists w', (_ ← BIO_free x1; _ ← BIO_free x2; mret (0, NULL, NULL)) w = Some ((0, NULL, NULL), w')
    /\ bios w' = bios w0 /\ states w' = states w0.
Proof.
  intros [Hx1 Hx2 Hp1 Hp2 Hx Hp Hn1 Hn2 Ho1 Ho2 Hb Hs] P1 P2.
  assert (L1 : lone x1 p1 w).
  { exists (new_bio p1), b1. rewrite Hb, Hs, (lookup_insert_ne _ x2), (lookup_insert_ne _ p2), !lookup_insert_eq by done.
    by split_and!. }
  pstep (free_lone w x1 p1 L1).
  assert (L2 : lone x2 p2 (erased x1 p1 w)).
  { exists (new_bio p2), b2. cbn [bios states erased]. rewrite Hb, Hs, !lookup_delete_ne, !lookup_insert_eq by done.
    by split_and!. }
  pstep (free_lone _ x2 p2 L2). eexists. split; [reflexivity|]. cbn [bios states erased]. rewrite Hb, Hs.
  rewrite (delete_insert_ne _ x1 x2), (delete_insert_ne _ p1 p2) by done.
  by rewrite (delete_insert_id _ x1), (delete_insert_id _ p1), (delete_insert_id _ x2), (delete_insert_id _ p2) by done.
Qed.

Definition ends (x y : Z) : bool -> Z := fun i => if i then y else x.
Definition new_pipes (n1 n2 : Z) : bool -> pipe :=
  fun i => mk_pipe (buffer_size (if i then n2 else n1)) [] 0 false 0.

Lemma with_buffer_ring n : 0 <= n < 2 ^ 63 -> ring (with_buffer n) [].
Proof.
  intros Hn. assert (Hs : 0 < buffer_size n < 2 ^ 63) by (unfold buffer_size; case_bool; lia).
  exists (junk (buffer_size n)). cbn [buf size len offset with_buffer length].
  split; [done|]. split; [apply junk_length; lia|]. split; [done|]. split; [done|]. split; [lia|]. split; [lia|].
  intros i Hi. lia.
Qed.

(** Connecting two new BIOs. *)
(** Two ends with their buffers, connected. *)
Lemma connected_is_pair w0 w x1 x2 p1 p2 n1 n2 :
  two_bios w0 w x1 x2 p1 p2 (with_buffer n1) (with_buffer n2) -> 0 <= n1 < 2 ^ 63 -> 0 <= n2 < 2 ^ 63 ->
  exists w', (_ ← set_state p1 (fun b => set_request 0 (set_closed 0 (set_peer x2 b)));
      _ ← set_state p2 (fun b => set_request 0 (set_closed 0 (set_peer x1 b)));
      _ ← set_bio x1 (set_init 1); _ ← set_bio x2 (set_init 1); mret 1) w = Some (1, w')
    /\ is_pair w0 (ends x1 x2) (ends p1 p2) (new_pipes n1 n2) w'.
Proof.
  intros [Hx1 Hx2 Hp1 Hp2 Hx Hp Hnew1 Hnew2 Ho1 Ho2 Hb Hs] Hn1 Hn2.
  set (e1 := set_request 0 (set_closed 0 (set_peer x2 (with_buffer n1)))).
  set (e2 := set_request 0 (set_closed 0 (set_peer x1 (with_buffer n2)))).
  erewrite part_bind_some by (apply set_state_some; by rewrite Hs, lookup_insert_ne, lookup_insert_eq).
  erewrite part_bind_some by (apply set_state_some; cbn [states put_state];
    by rewrite lookup_insert_ne, Hs, lookup_insert_eq).
  erewrite part_bind_some by (apply set_bio_some; cbn [bios put_state]; by rewrite Hb, lookup_insert_ne, lookup_insert_eq).
  erewrite part_bind_some by (apply set_bio_some; cbn [bios put_bio put_state];
    by rewrite lookup_insert_ne, Hb, lookup_insert_eq).
  eexists. split; [reflexivity|].
  assert (Hstate : forall i n, 0 <= n < 2 ^ 63 ->
    state_ok (ends x1 x2) i (mk_pipe (buffer_size n) [] 0 false 0)
      (set_request 0 (set_closed 0 (set_peer (ends x1 x2 (negb i)) (with_buffer n))))).
  { intros i n Hn. pose proof (with_buffer_ring n Hn) as Hring. pose proof (ring_bounds _ _ Hring) as Hbd.
    cbn [size with_buffer] in Hbd. split_and!; try done; cbn; lia. }
  split; cbn [bios states put_bio put_state]; rewrite ?Hs, ?Hb.
  - intros []; cbn; split_and!; congruence.
  - intros []; cbn [ends].
    + exists (set_init 1 (new_bio p2)). by rewrite lookup_insert_eq.
    + exists (set_init 1 (new_bio p1)). by rewrite lookup_insert_ne, lookup_insert_eq.
  - intros []; cbn [ends new_pipes].
    + exists e2. rewrite lookup_insert_eq. split; [done|]. exact (Hstate true n2 Hn2).
    + exists e1. rewrite lookup_insert_ne, lookup_insert_eq by done. split; [done|]. exact (Hstate false n1 Hn1).
  - intros y Hy. pose proof (Hy true) as Hyt. pose proof (Hy false) as Hyf. cbn in Hyt, Hyf.
    by rewrite !lookup_insert_ne.
  - intros y Hy. pose proof (Hy true) as Hyt. pose proof (Hy false) as Hyf. cbn in Hyt, Hyf.
    by rewrite !lookup_insert_ne.
Qed.

Lemma make_pair_spec w0 w x1 x2 p1 p2 n1 n2 :
  two_bios w0 w x1 x2 p1 p2 new_state new_state -> 0 <= n1 < 2 ^ 63 -> 0 <= n2 < 2 ^ 63 ->
  exists st w', bio_make_pair junk x1 x2 n1 n2 w = Some (st, w')
    /\ (st = 1 /\ is_pair w0 (ends x1 x2) (ends p1 p2) (new_pipes n1 n2) w'
        \/ st = 0 /\ true ∈ bio_oom w
           /\ exists b1 b2, two_bios w0 w' x1 x2 p1 p2 b1 b2 /\ peer b1 = NULL /\ peer b2 = NULL).
Proof.
  intros T Hn1 Hn2. pose proof T as [Hx1 Hx2 Hp1 Hp2 Hx Hp Hnew1 Hnew2 Ho1 Ho2 Hb Hs].
  assert (B1 : bios w !! x1 = Some (new_bio p1)) by (by rewrite Hb, lookup_insert_ne, lookup_insert_eq).
  assert (B2 : bios w !! x2 = Some (new_bio p2)) by (by rewrite Hb, lookup_insert_eq).
  assert (S1 : states w !! p1 = Some new_state) by (by rewrite Hs, lookup_insert_ne, lookup_insert_eq).
  assert (S2 : states w !! p2 = Some new_state) by (by rewrite Hs, lookup_insert_eq).
  destruct (make_buffer_spec w p1 n1 S1) as (ok1 & w1 & E1 & Hb1 & Hm1 & b1 & Hs1 & Hpe1 & Hok1).
  assert (Hpre : bio_make_pair junk x1 x2 n1 n2 w
    = (ok ← make_buffer junk p1 n1;
       if negb ok then mret 0 else
       ok ← make_buffer junk p2 n2;
       if negb ok then mret 0 else
       _ ← set_state p1 (fun b => set_request 0 (set_closed 0 (set_peer x2 b)));
       _ ← set_state p2 (fun b => set_request 0 (set_closed 0 (set_peer x1 b)));
       _ ← set_bio x1 (set_init 1); _ ← set_bio x2 (set_init 1); mret 1) w).
  { unfold bio_make_pair. pstep (get_bio_some w x1 _ B1). pstep (get_bio_some w x2 _ B2).
    pstep (get_state_some w p1 _ S1). by pstep (get_state_some w p2 _ S2). }
  rewrite Hpre. clear Hpre. rewrite (part_bind_some _ _ _ _ _ E1).
  assert (Hst1 : states w1 = <[p2 := new_state]> (<[p1 := b1]> (states w0))).
  { rewrite Hs1, Hs. rewrite (insert_insert_ne _ p1 p2) by done. by rewrite insert_insert_eq. }
  destruct ok1; cbn [negb].
  2:{ exists 0, w1. split; [done|]. right. split; [done|]. split; [done|]. exists b1, new_state. split; [|done].
      split; try done; by rewrite Hb1. }
  assert (S2' : states w1 !! p2 = Some new_state) by (by rewrite Hst1, lookup_insert_eq).
  destruct (make_buffer_spec w1 p2 n2 S2') as (ok2 & w2 & E2 & Hb2 & Hm2 & b2 & Hs2 & Hpe2 & Hok2).
  rewrite (part_bind_some _ _ _ _ _ E2).
  assert (Hst2 : states w2 = <[p2 := b2]> (<[p1 := b1]> (states w0))) by (by rewrite Hs2, Hst1, insert_insert_eq).
  destruct ok2; cbn [negb].
  2:{ exists 0, w2. split; [done|]. right. split; [done|]. split; [by apply Hm1|]. exists b1, b2. split; [|done].
      split; try done. by rewrite Hb2, Hb1. }
  rewrite Hok1, Hok2 in Hst2. destruct (connected_is_pair w0 w2 x1 x2 p1 p2 n1 n2) as (w' & E & Hpair); [|done|done|].
  { split; try done. by rewrite Hb2, Hb1. }
  exists 1, w'. split; [exact E|]. by left.
Qed.

Lemma BIO_free_null w : BIO_free NULL w = Some (1, w).
Proof. done. Qed.

Lemma new_pair_spec w0 n1 n2 :
  0 <= n1 < 2 ^ 63 -> 0 <= n2 < 2 ^ 63 ->
  exists st x1 x2 w', BIO_new_bio_pair malloc_bio malloc_state junk n1 n2 w0 = Some ((st, x1, x2), w')
    /\ (st = 1 /\ (exists p1 p2, is_pair w0 (ends x1 x2) (ends p1 p2) (new_pipes n1 n2) w')
        \/ (st = 0 /\ x1 = NULL /\ x2 = NULL /\ bios w' = bios w0 /\ states w' = states w0 /\ true ∈ bio_oom w0)).
Proof.
  intros Hn1 Hn2. unfold BIO_new_bio_pair.
  destruct (BIO_new_spec w0) as (x1 & w1 & E1 & Ho1 & [(-> & Hb1 & Hs1 & Hoom)|(p1 & Hx1 & Hp1 & Hnb1 & Hns1 & Hb1 & Hs1)]);
    destruct (BIO_new_spec w1) as (x2 & w2 & E2 & Ho2 & [(-> & Hb2 & Hs2 & Hoom2)|(p2 & Hx2 & Hp2 & Hnb2 & Hns2 & Hb2 & Hs2)]).
  - exists 0, NULL, NULL, w2. split; [by pstep E1; pstep E2|]. right. split_and!; congruence.
  - assert (L : lone x2 p2 w2).
    { exists (new_bio p2), new_state. rewrite Hb2, Hs2, !lookup_insert_eq. by split_and!. }
    exists 0, NULL, NULL, (erased x2 p2 w2). split.
    + pstep E1. pstep E2. cbn [NULL Z.eqb orb]. rewrite (part_bind_some _ _ _ 0 w2) by done. cbn [Z.eqb].
      pstep (BIO_free_null w2). by pstep (free_lone w2 x2 p2 L).
    + right. cbn [bios states erased]. rewrite Hb2, Hs2, !delete_insert_id by done. split_and!; congruence.
  - assert (L : lone x1 p1 w2).
    { exists (new_bio p1), new_state. rewrite Hb2, Hs2, Hb1, Hs1, !lookup_insert_eq. by split_and!. }
    exists 0, NULL, NULL, (erased x1 p1 w2). split.
    + pstep E1. pstep E2. rewrite orb_true_r. rewrite (part_bind_some _ _ _ 0 w2) by done. cbn [Z.eqb].
      pstep (free_lone w2 x1 p1 L). by pstep (BIO_free_null (erased x1 p1 w2)).
    + right. cbn [bios states erased]. rewrite Hb2, Hs2, Hb1, Hs1, !delete_insert_id by done. split_and!; auto.
  - rewrite Hb1 in Hnb2. rewrite Hs1 in Hns2.
    apply lookup_insert_None in Hnb2 as [Hnb2 Hne], Hns2 as [Hns2 Hpne].
    assert (T : two_bios w0 w2 x1 x2 p1 p2 new_state new_state) by (split; congruence).
    destruct (make_pair_spec w0 w2 x1 x2 p1 p2 n1 n2 T Hn1 Hn2)
      as (st & w' & E & [(-> & Hpair)|(-> & Hoom & b1 & b2 & T' & Q1 & Q2)]).
    + exists 1, x1, x2, w'. split; [|left; split; [done|by exists p1, p2]].
      pstep E1. pstep E2. rewrite !(proj2 (Z.eqb_neq _ _)) by done. cbn [orb]. by pstep E.
    + destruct (free_two w0 w' x1 x2 p1 p2 b1 b2 T' Q1 Q2) as (w'' & E'' & Hb'' & Hs'').
      exists 0, NULL, NULL, w''. split; [|right; split_and!; auto].
      pstep E1. pstep E2. rewrite !(proj2 (Z.eqb_neq _ _)) by done. cbn [orb]. pstep E. exact E''.
Qed.
End making.
