(* ===== verification/BioPairFifo.v ===== *)
(** * BoringSSL: a BIO pair, from its making to its end

    The refinement of the two pipes by the operations on a pair, and what it
    means for the bytes: they arrive in order, none lost and none twice; and they do
    arrive. *)
From S2P Require Export BioPairLife.

(** ** What goes through the pipes *)

(** The bytes the end [i] has read, and those it has written. *)
Definition reads (i : bool) (ops : list pair_op) (rs : list pair_result) : list Z :=
  concat (zip_with (fun op r => match op, r with
    | op_read j _, r_io _ bytes _ => if eqb i j then bytes else []
    | _, _ => [] end) ops rs).
Definition writes (i : bool) (ops : list pair_op) (rs : list pair_result) : list Z :=
  concat (zip_with (fun op r => match op, r with
    | op_write j l, r_io ret _ _ => if eqb i j then take (Z.to_nat ret) l else []
    | _, _ => [] end) ops rs).

Definition pipe_ok (p : pipe) : Prop :=
  0 <= cap p /\ (got p <= length (sent p))%nat /\ 0 <= room p.

(** One operation moves the bytes it says it moves. *)
Definition moves (P P' : bool -> pipe) (i : bool) (written read_ : list Z) : Prop :=
  cap (P' i) = cap (P i) /\ pipe_ok (P' i) /\ sent (P' i) = sent (P i) ++ written
  /\ take (got (P' i)) (sent (P' i)) = take (got (P i)) (sent (P i)) ++ read_.

Lemma moves_none P P' i :
  pipe_ok (P i) -> cap (P' i) = cap (P i) -> sent (P' i) = sent (P i) -> got (P' i) = got (P i) ->
  moves P P' i [] [].
Proof.
  intros Hok Ec Es Eg. unfold moves, pipe_ok, room, pending in *. rewrite Ec, Es, Eg, !app_nil_r. done.
Qed.

Lemma read_moves n p :
  pipe_ok p -> let r := pipe_read n p in
  cap r.1 = cap p /\ pipe_ok r.1 /\ sent r.1 = sent p
  /\ take (got r.1) (sent r.1) = take (got p) (sent p) ++ r.2.1.2.
Proof.
  intros (Hc & Hg & Hr). unfold pipe_read. cbv zeta. unfold pipe_ok, room, pending in *.
  destruct (n <=? 0) eqn:En; [cbn; by rewrite app_nil_r|].
  destruct (drop (got p) (sent p)) as [|c q] eqn:Eq.
  { destruct (shut p); cbn; rewrite Eq, app_nil_r; by split_and!. }
  rewrite <-Eq in *. set (k := Z.to_nat (Z.min n (Z.of_nat (length (drop (got p) (sent p)))))).
  assert (Hk : (k <= length (sent p) - got p)%nat) by (unfold k; rewrite length_drop; lia). clearbody k.
  cbn [receive got sent cap fst snd]. split; [done|]. split; [|split; [done|]].
  - split; [done|]. split; [lia|]. rewrite length_drop in *. lia.
  - rewrite <-(take_drop (got p) (take (got p + k) (sent p))) at 1. rewrite take_take, skipn_firstn_comm.
    f_equal; f_equal; lia.
Qed.

Lemma write_moves l p :
  pipe_ok p -> let r := pipe_write l p in
  cap r.1 = cap p /\ pipe_ok r.1 /\ sent r.1 = sent p ++ take (Z.to_nat r.2.1.1) l
  /\ take (got r.1) (sent r.1) = take (got p) (sent p).
Proof.
  intros (Hc & Hg & Hr). unfold pipe_write. cbv zeta. unfold pipe_ok.
  destruct l as [|c l]; [cbn; by rewrite app_nil_r|]. set (d := c :: l) in *.
  destruct (shut p); [cbn [fst snd set_wanted cap sent got]; rewrite take_0, app_nil_r; by split_and!|].
  destruct (Z.eqb_spec (room p) 0); [cbn [fst snd set_wanted cap sent got]; rewrite take_0, app_nil_r; by split_and!|].
  set (k := Z.min (Z.of_nat (length d)) (room p)).
  assert (Hk : 0 <= k <= room p) by (unfold k; lia). clearbody k. cbn [fst snd send cap sent got].
  split; [done|]. split; [|split; [done|by rewrite take_app_le by lia]].
  split; [done|]. rewrite length_app. split; [lia|]. unfold room, pending in *. cbn [cap send got sent].
  rewrite length_drop in *. rewrite length_app, length_take. lia.
Qed.

Lemma with_pipe_other P j p i : i <> j -> with_pipe P j p i = P i.
Proof. intros Hn. unfold with_pipe. by destruct (eqb_spec i j). Qed.

Lemma with_pipe_eq P j p : with_pipe P j p j = p.
Proof. unfold with_pipe. by rewrite eqb_reflx. Qed.

Lemma step_moves P op i :
  pipe_ok (P i) ->
  moves P (pipes_step P op).1 i (writes i [op] [(pipes_step P op).2]) (reads (negb i) [op] [(pipes_step P op).2]).
Proof.
  intros Hok. destruct op as [j n|j l|j|j|j|j|j|j|j]; cbn [pipes_step fst snd];
    try (unfold writes, reads; cbn; by apply moves_none).
  - unfold writes, reads, r_of. cbn. rewrite app_nil_r. destruct (eqb_spec (negb i) j) as [<- | Hn].
    + destruct (read_moves n (P i) Hok) as (H1 & H2 & H3 & H4). rewrite negb_involutive.
      unfold moves. by rewrite with_pipe_eq, H1, H3, app_nil_r, <-H4, H3.
    + apply moves_none; [done|..];
        rewrite with_pipe_other; try done; by destruct i, j.
  - unfold writes, reads, r_of. cbn. rewrite app_nil_r. destruct (eqb_spec i j) as [<- | Hn].
    + destruct (write_moves l (P i) Hok) as (H1 & H2 & H3 & H4).
      unfold moves. by rewrite with_pipe_eq, H1, H4, H3, app_nil_r.
    + apply moves_none; [done|..]; by rewrite with_pipe_other.
  - unfold writes, reads. cbn. destruct (decide (i = j)) as [-> | Hn];
      apply moves_none; try done; by rewrite ?with_pipe_eq, ?with_pipe_other.
  - unfold writes, reads. cbn. destruct (decide (i = j)) as [-> | Hn];
      apply moves_none; try done; by rewrite ?with_pipe_eq, ?with_pipe_other.
Qed.

Lemma run_moves ops : forall P i,
  pipe_ok (P i) -> let r := pipes_run P ops in
  moves P r.1 i (writes i ops r.2) (reads (negb i) ops r.2).
Proof.
  induction ops as [|op ops IH]; intros P i Hok; cbv zeta; cbn [pipes_run fst snd]; [by apply moves_none|].
  destruct (step_moves P op i Hok) as (C1 & K1 & S1 & G1).
  destruct (IH (pipes_step P op).1 i K1) as (C2 & K2 & S2 & G2).
  assert (Hw : forall r rs, writes i (op :: ops) (r :: rs) = writes i [op] [r] ++ writes i ops rs).
  { intros r rs. unfold writes. cbn. by rewrite app_nil_r. }
  assert (Hr : forall r rs, reads (negb i) (op :: ops) (r :: rs) = reads (negb i) [op] [r] ++ reads (negb i) ops rs).
  { intros r rs. unfold reads. cbn. by rewrite app_nil_r. }
  unfold moves. rewrite Hw, Hr, !app_assoc, <-S1, <-G1. split_and!; [congruence|apply K2..|done|done].
Qed.

(** ** The theorems *)

Section life.
Context (malloc_bio : gmap Z BIO -> Z) (malloc_state : gmap Z bio_bio_st -> Z) (junk : Z -> list Z).

(** What is promised of the allocator. *)
Definition allocator_ok : Prop :=
  (forall h, malloc_bio h <> NULL /\ h !! malloc_bio h = None)
  /\ (forall h, malloc_state h <> NULL /\ h !! malloc_state h = None)
  /\ (forall n, 0 <= n -> Z.of_nat (length (junk n)) = n).

(** A new pair in the world [w0], on which the operations [ops] give [rs] in [w]. *)
Definition pair_session (w0 : bio_world) (n1 n2 : Z) (ops : list pair_op) (x1 x2 : Z)
    (rs : list pair_result) (w : bio_world) : Prop :=
  exists w1, BIO_new_bio_pair malloc_bio malloc_state junk n1 n2 w0 = Some ((1, x1, x2), w1)
    /\ pair_run (ends x1 x2) ops w1 = Some (rs, w).

(** C13. A BIO pair is two pipes. Take an allocator of fresh objects. Making a pair either
    fails for lack of memory and leaves the world as it was, or gives two BIOs on which
    every sequence of reads, writes and controls is defined: no assertion fails, no copy
    leaves a ring buffer, and the copying loops need at most the two iterations their
    comments give them. The results are those of two bounded pipes: reads take the oldest
    bytes, writes take what fits, an empty or a full pipe asks for another try with the
    right flags, a pipe shut down gives end of file once it is empty. Either end can be
    freed first; the other then refuses to read and to write, and freeing it gives back
    all the memory. *)
Theorem bio_pair_refines_pipes w0 n1 n2 ops :
  allocator_ok -> 0 <= n1 < 2 ^ 63 -> 0 <= n2 < 2 ^ 63 -> Forall op_fits ops ->
  (exists x1 x2 w, pair_session w0 n1 n2 ops x1 x2 (pipes_run (new_pipes n1 n2) ops).2 w
     /\ forall i, exists w3 w4,
          BIO_free (ends x1 x2 i) w = Some (1, w3)
          /\ (forall n, BIO_read (ends x1 x2 (negb i)) false n w3 = Some ((-2, []), w3))
          /\ (forall l, BIO_write (ends x1 x2 (negb i)) (Some l) (Z.of_nat (length l)) w3 = Some (-2, w3))
          /\ BIO_free (ends x1 x2 (negb i)) w3 = Some (1, w4)
          /\ bios w4 = bios w0 /\ states w4 = states w0)
  \/ (exists w1, BIO_new_bio_pair malloc_bio malloc_state junk n1 n2 w0 = Some ((0, NULL, NULL), w1)
        /\ bios w1 = bios w0 /\ states w1 = states w0 /\ true ∈ bio_oom w0).
Proof.
  intros (Hmb & Hms & Hj) Hn1 Hn2 Hops.
  destruct (new_pair_spec malloc_bio malloc_state junk Hmb Hms Hj w0 n1 n2 Hn1 Hn2)
    as (st & x1 & x2 & w1 & E & [(-> & p1 & p2 & T)|(-> & -> & -> & Hb & Hs & Ho)]); [left|right; by exists w1].
  destruct (pair_run_spec w0 _ _ ops _ w1 T Hops) as (w & Er & T').
  exists x1, x2, w. split; [by exists w1|]. intros i.
  destruct (free_first w0 _ _ _ w i T') as (w3 & w4 & E3 & L & -> & Hb & Hs).
  exists w3, (erased (ends x1 x2 (negb i)) (ends p1 p2 (negb i)) w3). split; [done|].
  split; [intros n; by apply (lone_refuses _ _ w3 n [] L)|].
  split; [intros l; by apply (lone_refuses _ _ w3 0 l L)|]. split; [by apply free_lone|done].
Qed.

(** C30. The bytes of a pair arrive: after any operations on a new pair, what one end has
    accepted to write is what the other has read, in order, and then the bytes on their
    way, which are no more than the buffer holds. *)
Theorem bio_pair_fifo w0 n1 n2 ops x1 x2 rs w :
  allocator_ok -> 0 <= n1 < 2 ^ 63 -> 0 <= n2 < 2 ^ 63 -> Forall op_fits ops ->
  pair_session w0 n1 n2 ops x1 x2 rs w ->
  forall i, exists inflight, writes i ops rs = reads (negb i) ops rs ++ inflight
    /\ Z.of_nat (length inflight) <= buffer_size (if i then n2 else n1).
Proof.
  intros (Hmb & Hms & Hj) Hn1 Hn2 Hops (w1 & E & Er) i.
  destruct (new_pair_spec malloc_bio malloc_state junk Hmb Hms Hj w0 n1 n2 Hn1 Hn2)
    as (st & y1 & y2 & w1' & E' & Hcase). rewrite E in E'. injection E' as <- <- <- <-.
  destruct Hcase as [(_ & p1 & p2 & T)|([=] & _)].
  destruct (pair_run_spec w0 _ _ ops _ w1 T Hops) as (w' & Er' & _). rewrite Er in Er'. injection Er' as -> <-.
  assert (Hok : pipe_ok (new_pipes n1 n2 i)).
  { unfold pipe_ok, new_pipes, room, buffer_size. cbn. destruct i; case_bool; lia. }
  destruct (run_moves ops (new_pipes n1 n2) i Hok) as (Hc & (_ & _ & Hroom) & Hs & Hg). cbn in Hs, Hg.
  set (P' := (pipes_run (new_pipes n1 n2) ops).1) in *. exists (pending (P' i)). split.
  - rewrite <-Hs, <-Hg. symmetry. apply take_drop.
  - unfold room in Hroom. rewrite Hc in Hroom. cbn in Hroom. lia.
Qed.
End life.

(** ** A concrete pair

    Buffers of four and eight bytes; the ring of the first wraps around. *)
Definition no_bios : bio_world := mk_bio_world ∅ ∅ [].
Definition zeros (n : Z) : list Z := replicate (Z.to_nat n) 0.

Definition talk : list pair_op :=
  [op_read true 3; op_request false; op_write false [1; 2; 3]; op_read true 2; op_write false [4; 5; 6; 7];
   op_guarantee false; op_write false [8]; op_read true 9; op_write true [9]; op_shutdown true; op_write true [10];
   op_read false 5; op_read false 5; op_pending true; op_numbers true].

Definition talk_results : list pair_result :=
  [r_io (-1) [] true; r_num 3; r_io 3 [] false; r_io 2 [1; 2] false; r_io 3 [] false;
   r_num 0; r_io (-1) [] true; r_io 4 [3; 4; 5; 6] false; r_io 1 [] false; r_num 1; r_io (-1) [] false;
   r_io 1 [9] false; r_io 0 [] false; r_num 0; r_nums 6 1].

Example talk_runs :
  (r ← BIO_new_bio_pair bump bump zeros 4 8 no_bios; fst <$> pair_run (ends r.1.1.2 r.1.2) talk r.2)
  = Some talk_results.
Proof. vm_compute. reflexivity. Qed.

Example talk_pipes : (pipes_run (new_pipes 4 8) talk).2 = talk_results.
Proof. reflexivity. Qed.

Lemma bump_ok : allocator_ok bump bump zeros.
Proof.
  split_and!; [apply bump_fresh|apply bump_fresh|].
  intros n Hn. unfold zeros. rewrite length_replicate. lia.
Qed.

Lemma talk_fits : Forall op_fits talk.
Proof. unfold talk. repeat constructor; unfold op_fits; simpl; lia. Qed.

Lemma bio_pair_refines_pipes_witness :
  exists x1 x2 w, pair_session bump bump zeros no_bios 4 8 talk x1 x2 (pipes_run (new_pipes 4 8) talk).2 w
     /\ forall i, exists w3 w4,
          BIO_free (ends x1 x2 i) w = Some (1, w3)
          /\ (forall n, BIO_read (ends x1 x2 (negb i)) false n w3 = Some ((-2, []), w3))
          /\ (forall l, BIO_write (ends x1 x2 (negb i)) (Some l) (Z.of_nat (length l)) w3 = Some (-2, w3))
          /\ BIO_free (ends x1 x2 (negb i)) w3 = Some (1, w4)
          /\ bios w4 = ∅ /\ states w4 = ∅.
Proof.
  destruct (bio_pair_refines_pipes bump bump zeros no_bios 4 8 talk bump_ok ltac:(lia) ltac:(lia) talk_fits)
    as [H|(w1 & _ & _ & _ & H)]; [exact H|by apply elem_of_nil in H].
Defined.

Lemma bio_pair_fifo_witness :
  exists x1 x2 w, pair_session bump bump zeros no_bios 4 8 (take 4 talk) x1 x2 (take 4 talk_results) w
  /\ writes false (take 4 talk) (take 4 talk_results) = [1; 2; 3]
  /\ reads true (take 4 talk) (take 4 talk_results) = [1; 2]
  /\ exists inflight, writes false (take 4 talk) (take 4 talk_results)
        = reads (negb false) (take 4 talk) (take 4 talk_results) ++ inflight
     /\ Z.of_nat (length inflight) <= buffer_size 4.
Proof.
  destruct (BIO_new_bio_pair bump bump zeros 4 8 no_bios) as [[r w1]|] eqn:E; [|vm_compute in E; discriminate].
  destruct (pair_run (ends 1 2) (take 4 talk) w1) as [[rs w]|] eqn:Er;
    [|vm_compute in E; injection E as <- <-; vm_compute in Er; discriminate].
  assert (Hr : r = (1, 1, 2) /\ rs = take 4 talk_results).
  { vm_compute in E. injection E as <- <-. vm_compute in Er. injection Er as <- _. done. }
  destruct Hr as [-> ->].
  assert (S : pair_session bump bump zeros no_bios 4 8 (take 4 talk) 1 2 (take 4 talk_results) w)
    by (exists w1; split; [exact E|exact Er]).
  exists 1, 2, w. split; [exact S|]. split; [reflexivity|]. split; [reflexivity|].
  apply (bio_pair_fifo bump bump zeros no_bios 4 8 (take 4 talk) 1 2 (take 4 talk_results) w bump_ok
           ltac:(lia) ltac:(lia) (Forall_take _ _ _ talk_fits) S false).
Defined.

(** ** The bytes get through

    A writer that tries again with what was not accepted and a reader that takes what is
    there, in turns of any order, with other calls on the two ends in between: if both get
    their turns often enough, the whole message arrives. *)

(** A turn: of the writer, of the reader, or another call. *)
Inductive turn :=
  | t_write
  | t_read (n : Z)
  | t_other (op : pair_op).

(** What the writer has still to send and what the reader has received. *)
Definition progress : Type := list Z * list Z.

Definition turn_op (i : bool) (t : turn) (s : progress) : pair_op :=
  match t with
  | t_write => op_write i s.1
  | t_read n => op_read (negb i) n
  | t_other op => op
  end.

Definition turn_result (t : turn) (r : pair_result) (s : progress) : progress :=
  match t, r with
  | t_write, r_io ret _ _ => (drop (Z.to_nat ret) s.1, s.2)
  | t_read _, r_io _ bytes _ => (s.1, s.2 ++ bytes)
  | _, _ => s
  end.

Fixpoint transfer (a : bool -> Z) (i : bool) (ts : list turn) (s : progress) : bioM progress :=
  match ts with
  | [] => mret s
  | t :: ts => r ← pair_step a (turn_op i t s); transfer a i ts (turn_result t r s)
  end.

(** The other calls neither write to the pipe from [i], nor read it, nor shut it. *)
Definition leaves_alone (i : bool) (op : pair_op) : Prop :=
  match op with
  | op_read j _ => j = i
  | op_write j _ | op_shutdown j => j = negb i
  | _ => True
  end.

Definition turn_fits (i : bool) (t : turn) : Prop :=
  match t with
  | t_write => True
  | t_read n => 0 < n < 2 ^ 31
  | t_other op => op_fits op /\ leaves_alone i op
  end.

(** A stretch of turns in which both have one. *)
Definition fair (ts : list turn) : Prop := t_write ∈ ts /\ exists n, t_read n ∈ ts.

(** ** On the pipes *)

Fixpoint pipes_transfer (P : bool -> pipe) (i : bool) (ts : list turn) (s : progress) : (bool -> pipe) * progress :=
  match ts with
  | [] => (P, s)
  | t :: ts => let r := pipes_step P (turn_op i t s) in pipes_transfer r.1 i ts (turn_result t r.2 s)
  end.

Lemma write_turn p l :
  shut p = false -> pipe_ok p -> 0 < cap p ->
  let r := pipe_write l p in let k := Z.to_nat r.2.1.1 in
  shut r.1 = false /\ cap r.1 = cap p /\ pipe_ok r.1 /\ pending r.1 = pending p ++ take k l /\ (k <= length l)%nat
  /\ (l <> [] -> pending p = [] -> (0 < k)%nat).
Proof.
  intros Hsh Hok Hcap r k. destruct (write_moves l p Hok) as (Hc & Hok' & Hs & Hg). fold r in Hc, Hok', Hs, Hg.
  fold k in Hs. assert (Hgot : got r.1 = got p /\ shut r.1 = false /\ (k <= length l)%nat /\ (l <> [] -> pending p = [] -> (0 < k)%nat)).
  { subst k r. unfold pipe_write. destruct l as [|c l]; [by split_and!|]. rewrite Hsh. destruct Hok as (_ & _ & Hr).
    destruct (Z.eqb_spec (room p) 0) as [E|E]; cbn [fst snd set_wanted send got shut].
    - split_and!; [done|done|cbn; lia|]. intros _ Hp. unfold room in E. rewrite Hp in E. cbn [length] in E. lia.
    - cbn [length] in *. split_and!; [done|done|lia|lia]. }
  destruct Hgot as (Hgot & Hsh' & Hk & Hmove). split_and!; try done.
  unfold pending. rewrite Hgot, Hs. apply drop_app_le. apply Hok.
Qed.

Lemma read_turn p n :
  shut p = false -> pipe_ok p -> 0 < n ->
  let r := pipe_read n p in let bytes := r.2.1.2 in
  shut r.1 = false /\ cap r.1 = cap p /\ pipe_ok r.1 /\ pending p = bytes ++ pending r.1
  /\ (pending p <> [] -> bytes <> []).
Proof.
  intros Hsh Hok Hn r bytes. destruct (read_moves n p Hok) as (Hc & Hok' & Hs & Hg). fold r in Hc, Hok', Hs, Hg.
  split_and!; [|done|done| |]; subst bytes r; unfold pipe_read in *; rewrite (proj2 (Z.leb_gt n 0) Hn) in *;
    destruct (pending p) as [|c q] eqn:Ep; rewrite ?Hsh in *; cbn [fst snd set_wanted receive shut] in *; try done.
  - unfold pending, receive. cbn [got sent]. rewrite <-drop_drop. fold (pending p). rewrite Ep. by rewrite take_drop.
  - intros _. set (k := Z.to_nat _). assert (0 < k)%nat by (unfold k; cbn [length]; lia). by destruct k; [lia|].
Qed.

(** How often bytes have still to move. *)
Definition to_move (i : bool) (P : bool -> pipe) (s : progress) : nat := 2 * length s.1 + length (pending (P i)).

(** The pipe is open, and the bytes of the message are where they should be. *)
Definition on_the_way (i : bool) (msg : list Z) (P : bool -> pipe) (s : progress) : Prop :=
  shut (P i) = false /\ 0 < cap (P i) /\ pipe_ok (P i) /\ s.2 ++ pending (P i) ++ s.1 = msg.

(** The turns that move bytes. *)
Definition moving (i : bool) (t : turn) (P : bool -> pipe) (s : progress) : Prop :=
  match t with
  | t_write => s.1 <> [] /\ pending (P i) = []
  | t_read _ => pending (P i) <> []
  | t_other _ => False
  end.

Section pipes.
Context (i : bool) (msg : list Z).

(** A turn moves bytes, or changes nothing of the transfer. *)
Lemma turn_spec t P s :
  turn_fits i t -> on_the_way i msg P s -> let r := pipes_step P (turn_op i t s) in let s' := turn_result t r.2 s in
  on_the_way i msg r.1 s'
  /\ ((to_move i r.1 s' < to_move i P s)%nat \/ (s' = s /\ pending (r.1 i) = pending (P i) /\ ~ moving i t P s)).
Proof.
  intros Ht (Hsh & Hcap & Hok & Hmsg) r s'. destruct s as [rest rcv]. subst r s'. cbn [fst snd] in *.
  unfold on_the_way, to_move, moving. destruct t as [|n|op]; cbn [turn_op pipes_step fst snd turn_result r_of].
  - destruct (write_turn (P i) rest Hsh Hok Hcap) as (H1 & H2 & H3 & H4 & H5 & H6). rewrite with_pipe_eq, H1, H2, H4.
    remember (Z.to_nat (pipe_write rest (P i)).2.1.1) as k eqn:Ek. clear Ek. split.
    + split_and!; [done|done|done|]. rewrite <-app_assoc, take_drop. done.
    + rewrite length_drop, length_app, length_take. destruct (Nat.eq_dec k 0) as [->|Hk]; [right|left; lia].
      rewrite drop_0, take_0, app_nil_r. split_and!; [done|done|]. intros [Hr Hp]. specialize (H6 Hr Hp). lia.
  - rewrite negb_involutive. destruct (read_turn (P i) n Hsh Hok ltac:(apply Ht)) as (H1 & H2 & H3 & H4 & H5).
    rewrite with_pipe_eq, H1, H2. remember ((pipe_read n (P i)).2.1.2) as bytes eqn:Eb. clear Eb. split.
    + split_and!; [done|done|done|]. rewrite <-Hmsg, H4, <-!app_assoc. done.
    + rewrite H4, length_app. destruct bytes as [|c bytes]; [right|left; cbn [length]; lia].
      rewrite app_nil_r. split_and!; [done|done|]. intros Hp. apply H5; [by rewrite H4|done].
  - assert (Hp : shut ((pipes_step P op).1 i) = shut (P i) /\ cap ((pipes_step P op).1 i) = cap (P i)
        /\ sent ((pipes_step P op).1 i) = sent (P i) /\ got ((pipes_step P op).1 i) = got (P i)).
    { destruct Ht as [_ Ht]. destruct op as [j n|j l|j|j|j|j|j|j|j]; cbn [leaves_alone] in Ht; subst;
        cbn [pipes_step fst snd]; try done; try (rewrite with_pipe_other; [done|by destruct i]).
      destruct (decide (i = j)) as [->|Hn]; [by rewrite with_pipe_eq|by rewrite with_pipe_other]. }
    destruct Hp as (E1 & E2 & E3 & E4). unfold pipe_ok, room, pending in *. rewrite E1, E2, E3, E4.
    split; [tauto|]. right. split_and!; [done|done|by intros []].
Qed.

(** Turns never add to what is to be moved; and one that can move bytes, somewhere among
    them, makes it less. *)
Lemma turns_spec ts : forall P s,
  Forall (turn_fits i) ts -> on_the_way i msg P s -> let r := pipes_transfer P i ts s in
  on_the_way i msg r.1 r.2
  /\ ((to_move i r.1 r.2 < to_move i P s)%nat
      \/ (to_move i r.1 r.2 = to_move i P s /\ forall t, t ∈ ts -> ~ moving i t P s)).
Proof.
  induction ts as [|t ts IH]; intros P s Hts Hw; cbn [pipes_transfer fst snd].
  { split; [done|]. right. split; [done|]. by intros t ?%elem_of_nil. }
  apply Forall_cons in Hts as [Ht Hts]. destruct (turn_spec t P s Ht Hw) as [Hw1 Hcase].
  destruct (IH _ _ Hts Hw1) as [Hw2 Hcase2]. split; [done|]. destruct Hcase as [Hlt|(Es & Ep & Hn)].
  { left. destruct Hcase2 as [?|[? _]]; lia. }
  assert (Em : to_move i (pipes_step P (turn_op i t s)).1 (turn_result t (pipes_step P (turn_op i t s)).2 s) = to_move i P s)
    by (unfold to_move; by rewrite Es, Ep).
  rewrite Em in Hcase2. destruct Hcase2 as [?|[E Hall]]; [by left|right]. split; [done|].
  intros t' [-> | Hin]%elem_of_cons; [done|]. specialize (Hall t' Hin). rewrite Es in Hall.
  unfold moving in *. by rewrite Ep in Hall.
Qed.

Lemma fair_moves ts P s :
  Forall (turn_fits i) ts -> fair ts -> on_the_way i msg P s -> to_move i P s <> 0%nat ->
  (to_move i (pipes_transfer P i ts s).1 (pipes_transfer P i ts s).2 < to_move i P s)%nat.
Proof.
  intros Hts [Hwr [n Hrd]] Hw H0. destruct (turns_spec ts P s Hts Hw) as [_ [?|[_ Hall]]]; [done|exfalso].
  pose proof (Hall _ Hwr) as H1. pose proof (Hall _ Hrd) as H2. unfold moving, to_move in *.
  destruct (pending (P i)) as [|c q]; [|by apply H2]. destruct s.1 as [|c l]; [by cbn in H0|]. by apply H1.
Qed.

Lemma pipes_transfer_app ts1 ts2 P s :
  pipes_transfer P i (ts1 ++ ts2) s
  = pipes_transfer (pipes_transfer P i ts1 s).1 i ts2 (pipes_transfer P i ts1 s).2.
Proof. revert P s. induction ts1 as [|t ts1 IH]; intros P s; [done|]. cbn [app pipes_transfer]. apply IH. Qed.

Lemma fair_stretches tss : forall P s,
  Forall (Forall (turn_fits i)) tss -> Forall fair tss -> on_the_way i msg P s ->
  (to_move i P s <= length tss)%nat ->
  (pipes_transfer P i (concat tss) s).2 = ([], msg).
Proof.
  induction tss as [|ts tss IH]; intros P s Hts Hf Hw Hm; cbn [concat].
  { destruct Hw as (_ & _ & _ & Hmsg). unfold to_move in Hm. cbn [length pipes_transfer snd] in *.
    destruct s as [[|c l] rcv]; cbn [fst snd length] in *; [|lia]. destruct (pending (P i)); [|cbn in Hm; lia].
    by rewrite !app_nil_r in Hmsg; subst. }
  apply Forall_cons in Hts as [Ht Hts]. apply Forall_cons in Hf as [Hft Hf]. rewrite pipes_transfer_app.
  destruct (turns_spec ts P s Ht Hw) as [Hw' Hle]. apply IH; try done. cbn [length] in Hm.
  destruct (Nat.eq_dec (to_move i P s) 0) as [E|E].
  - destruct Hle as [?|[? _]]; lia.
  - pose proof (fair_moves ts P s Ht Hft Hw E). lia.
Qed.
End pipes.

(** ** On the BIOs *)

Lemma turn_op_fits i msg t P s :
  turn_fits i t -> on_the_way i msg P s -> Z.of_nat (length msg) < 2 ^ 31 -> op_fits (turn_op i t s).
Proof.
  intros Ht (_ & _ & _ & Hmsg) Hl. destruct t as [|n|op]; cbn [turn_op op_fits].
  - rewrite <-Hmsg, !length_app in Hl. lia.
  - cbn in Ht. lia.
  - apply Ht.
Qed.

Lemma transfer_spec w0 a s i msg ts : forall P w st,
  is_pair w0 a s P w -> Forall (turn_fits i) ts -> on_the_way i msg P st -> Z.of_nat (length msg) < 2 ^ 31 ->
  exists w', transfer a i ts st w = Some ((pipes_transfer P i ts st).2, w').
Proof.
  induction ts as [|t ts IH]; intros P w st T Hts Hw Hl; cbn [transfer pipes_transfer]; [by exists w|].
  apply Forall_cons in Hts as [Ht Hts].
  destruct (pair_step_spec w0 a s P w _ T (turn_op_fits i msg t P st Ht Hw Hl)) as (w1 & E1 & T1).
  destruct (turn_spec i msg t P st Ht Hw) as [Hw1 _]. destruct (IH _ w1 _ T1 Hts Hw1 Hl) as [w' E].
  exists w'. by pstep E1.
Qed.

Section live.
Context (malloc_bio : gmap Z BIO -> Z) (malloc_state : gmap Z bio_bio_st -> Z) (junk : Z -> list Z).

(** C18. The bytes get through. On a new pair one end sends a message: in each of its turns
    it writes what was not yet accepted; in its turns the other end reads some number of
    bytes, not always the same. Other calls may come in between, such as the traffic in the
    other direction, but none that writes to, reads or shuts this pipe. However the turns
    are ordered and however small the buffer is, after as many stretches with a turn of
    both as twice the bytes of the message nothing is left to send and the reader has the
    message, whole and in order. *)
Theorem bio_pair_delivers w0 n1 n2 x1 x2 w1 i msg tss :
  allocator_ok malloc_bio malloc_state junk -> 0 <= n1 < 2 ^ 63 -> 0 <= n2 < 2 ^ 63 ->
  BIO_new_bio_pair malloc_bio malloc_state junk n1 n2 w0 = Some ((1, x1, x2), w1) ->
  Z.of_nat (length msg) < 2 ^ 31 -> Forall (Forall (turn_fits i)) tss -> Forall fair tss ->
  (2 * length msg <= length tss)%nat ->
  exists w, transfer (ends x1 x2) i (concat tss) (msg, []) w1 = Some (([], msg), w).
Proof.
  intros (Hmb & Hms & Hj) Hn1 Hn2 E Hl Hts Hf Hm.
  destruct (new_pair_spec malloc_bio malloc_state junk Hmb Hms Hj w0 n1 n2 Hn1 Hn2) as (st & y1 & y2 & w1' & E' & Hcase).
  rewrite E in E'. injection E' as <- <- <- <-. destruct Hcase as [(_ & p1 & p2 & T)|([=] & _)].
  assert (Hw : on_the_way i msg (new_pipes n1 n2) (msg, [])).
  { assert (0 < buffer_size (if i then n2 else n1)) by (unfold buffer_size; destruct i; case_bool; lia).
    unfold on_the_way, pipe_ok, room, pending, new_pipes. cbn. split_and!; try done; try lia. }
  destruct (transfer_spec _ _ _ i msg (concat tss) _ w1 (msg, []) T) as [w Ew]; [by apply Forall_concat|done|done|].
  exists w. rewrite Ew, (fair_stretches i msg tss); try done. unfold to_move. cbn [fst].
  replace (pending (new_pipes n1 n2 i)) with (@nil Z) by (by destruct i). cbn [length]. lia.
Qed.
End live.

(** Nine bytes through a buffer of four, with the reader first and traffic the other way. *)
Definition busy_stretch : list turn :=
  [t_read 3; t_other (op_write true [7]); t_write; t_read 1; t_other (op_read false 5); t_other (op_request false)].

Lemma bio_pair_delivers_witness :
  exists w1, BIO_new_bio_pair bump bump zeros 4 8 no_bios = Some ((1, 1, 2), w1)
  /\ exists w, transfer (ends 1 2) false (concat (replicate 18 busy_stretch)) ([1; 2; 3; 4; 5; 6; 7; 8; 9], []) w1
       = Some (([], [1; 2; 3; 4; 5; 6; 7; 8; 9]), w).
Proof.
  destruct (BIO_new_bio_pair bump bump zeros 4 8 no_bios) as [[r w1]|] eqn:E; [|vm_compute in E; discriminate].
  assert (Hr : r = (1, 1, 2)) by (vm_compute in E; by injection E as <- _). subst r. exists w1. split; [done|].
  apply (bio_pair_delivers bump bump zeros no_bios 4 8 1 2 w1 false); [apply bump_ok|lia|lia|exact E|simpl; lia| | |simpl; lia].
  - apply Forall_replicate. unfold busy_stretch. repeat constructor; cbn; lia.
  - apply Forall_replicate. unfold fair, busy_stretch. split; [set_solver|exists 3; set_solver].
Defined.
