(* ===== verification/Stack.v ===== *)
(** * BoringSSL: stacks of pointers (crypto/stack/stack.c)

    A stack is an object of a heap with a counted array of pointers. A cell of the
    array is [None] while its value is indeterminate (memory [OPENSSL_realloc] has
    just given): reading such a cell, a cell out of range or a stack that is not
    allocated has no result. Elements and functions are pointers, integers with
    [NULL] as 0, and the [call_] helpers give a function pointer its meaning; the
    functions that may act on the objects pointed to (copying, freeing, testing
    elements) act on a state of their own, of any type, and not on the stacks. *)
From S2P Require Export Partial.

Definition kMinSize : Z := 4.
Definition INT_MAX : Z := 2 ^ 31 - 1.
Definition PTRDIFF_MAX : Z := 2 ^ 63 - 1.
Definition sizeof_ptr : Z := 8.

Record stack_st := mk_stack {
  num : Z; data : list (option Z); sorted : Z; num_alloc : Z; comp : Z
}.

(** The stacks allocated, the outcomes of the coming allocations ([true] when one
    fails) and the objects the elements point to. *)
Record sk_world {U : Type} := mk_sk_world {
  stacks : gmap Z stack_st; sk_oom : list bool; user : U
}.
Arguments sk_world : clear implicits.

Notation skM U := (part (sk_world U)).

(** The types of the [call_] helpers: a function pointer, and its arguments. *)
Definition OPENSSL_sk_call_cmp_func : Type := Z -> Z -> Z -> Z.
Definition OPENSSL_sk_call_free_func (U : Type) : Type := Z -> Z -> U -> U.
Definition OPENSSL_sk_call_copy_func (U : Type) : Type := Z -> Z -> U -> Z * U.
Definition OPENSSL_sk_call_delete_if_func (U : Type) : Type := Z -> Z -> Z -> U -> Z * U.

Section stack.
Context {U : Type}.

(** ** Memory *)

Definition get_stack (sk : Z) : skM U stack_st := fun w =>
  match stacks w !! sk with Some st => Some (st, w) | None => None end.

Definition set_stack (sk : Z) (st : stack_st) (w : sk_world U) : sk_world U :=
  mk_sk_world _ (<[sk := st]> (stacks w)) (sk_oom w) (user w).

Definition put_stack (sk : Z) (st : stack_st) : skM U unit :=
  _ ← get_stack sk; modify (set_stack sk st).

Definition set_data (d : list (option Z)) (st : stack_st) : stack_st :=
  mk_stack (num st) d (sorted st) (num_alloc st) (comp st).
Definition set_num (n : Z) (st : stack_st) : stack_st :=
  mk_stack n (data st) (sorted st) (num_alloc st) (comp st).
Definition set_sorted (n : Z) (st : stack_st) : stack_st :=
  mk_stack (num st) (data st) n (num_alloc st) (comp st).
Definition set_num_alloc (n : Z) (st : stack_st) : stack_st :=
  mk_stack (num st) (data st) (sorted st) n (comp st).
Definition set_comp (f : Z) (st : stack_st) : stack_st :=
  mk_stack (num st) (data st) (sorted st) (num_alloc st) f.

Definition update (sk : Z) (f : stack_st -> stack_st) : skM U unit :=
  st ← get_stack sk; put_stack sk (f st).

(** [sk->data[i]] and [sk->data[i] = p] *)
Definition load_cell (sk i : Z) : skM U Z :=
  st ← get_stack sk; c ← of_opt (data st !! Z.to_nat i); of_opt c.
Definition store_cell (sk i p : Z) : skM U unit :=
  st ← get_stack sk; _ ← of_opt (data st !! Z.to_nat i);
  put_stack sk (set_data (<[Z.to_nat i := Some p]> (data st)) st).

(** [OPENSSL_memmove(&sk->data[d], &sk->data[s], sizeof(void * ) * n)] *)
Definition move_cells (sk d s n : Z) : skM U unit :=
  st ← get_stack sk;
  let size := Z.of_nat (length (data st)) in
  if (d + n <=? size) && (s + n <=? size) then
    put_stack sk (set_data (take (Z.to_nat d) (data st)
                            ++ take (Z.to_nat n) (drop (Z.to_nat s) (data st))
                            ++ drop (Z.to_nat (d + n)) (data st)) st)
  else wrong.

(** [OPENSSL_memset(sk->data, 0, sizeof(void * ) * n)] *)
Definition zero_cells (sk n : Z) : skM U unit :=
  st ← get_stack sk;
  if n <=? Z.of_nat (length (data st)) then
    put_stack sk (set_data (replicate (Z.to_nat n) (Some NULL) ++ drop (Z.to_nat n) (data st)) st)
  else wrong.

(** The outcome of an allocation: [false] when it fails. *)
Definition sk_alloc_ok : skM U bool := fun w =>
  match sk_oom w with
  | b :: r => Some (negb b, mk_sk_world _ (stacks w) r (user w))
  | [] => Some (true, w)
  end.

Definition free_stack (sk : Z) : skM U unit :=
  _ ← get_stack sk;
  modify (fun w => mk_sk_world _ (delete sk (stacks w)) (sk_oom w) (user w)).

(** A call of a function on the objects. *)
Definition call_user {A} (f : U -> A * U) : skM U A := fun w =>
  let '(a, u) := f (user w) in Some (a, mk_sk_world _ (stacks w) (sk_oom w) u).
Definition run_user (f : U -> U) : skM U unit := call_user (fun u => (tt, f u)).

(** ** Reading and writing elements *)

Definition OPENSSL_sk_num (sk : Z) : skM U Z :=
  if sk =? NULL then mret 0 else st ← get_stack sk; mret (num st).

Definition OPENSSL_sk_zero (sk : Z) : skM U unit :=
  if sk =? NULL then mret tt
  else
    st ← get_stack sk;
    if num st =? 0 then mret tt
    else
      _ ← zero_cells sk (num st);
      _ ← update sk (set_num 0);
      update sk (set_sorted 0).

Definition OPENSSL_sk_value (sk i : Z) : skM U Z :=
  if sk =? NULL then mret NULL
  else st ← get_stack sk; if num st <=? i then mret NULL else load_cell sk i.

Definition OPENSSL_sk_set (sk i value : Z) : skM U Z :=
  if sk =? NULL then mret NULL
  else
    st ← get_stack sk;
    if num st <=? i then mret NULL else _ ← store_cell sk i value; mret value.

(** ** Insertion and deletion *)

(** The size the array grows to, [None] when its size in bytes overflows. *)
Definition grown_alloc (num_alloc : Z) : option Z :=
  let fits n := (num_alloc <=? n) && (u64 (n * sizeof_ptr) / sizeof_ptr =? n) in
  let new_alloc := u64 (Z.shiftl num_alloc 1) in
  let new_alloc := if fits new_alloc then new_alloc else u64 (num_alloc + 1) in
  if fits new_alloc then Some new_alloc else None.

(** The branch [sk->num_alloc <= sk->num + 1]; [false] when it returns 0. *)
Definition grow (sk : Z) : skM U bool :=
  st ← get_stack sk;
  match grown_alloc (num_alloc st) with
  | None => mret false
  | Some new_alloc =>
      ok ← sk_alloc_ok;
      if negb ok then mret false
      else
        _ ← put_stack sk (set_data (take (Z.to_nat new_alloc) (data st)
              ++ replicate (Z.to_nat new_alloc - length (data st)) None) st);
        _ ← update sk (set_num_alloc new_alloc);
        mret true
  end.

Definition OPENSSL_sk_insert (sk p where_ : Z) : skM U Z :=
  if sk =? NULL then mret 0
  else
    st ← get_stack sk;
    if INT_MAX <=? num st then mret 0
    else
      ok ← (if num_alloc st <=? u64 (num st + 1) then grow sk else mret true);
      if negb ok then mret 0
      else
        _ ← (if num st <=? where_ then store_cell sk (num st) p
             else _ ← move_cells sk (where_ + 1) where_ (num st - where_);
                  store_cell sk where_ p);
        _ ← update sk (set_num (u64 (num st + 1)));
        _ ← update sk (set_sorted 0);
        st ← get_stack sk;
        mret (num st).

Definition OPENSSL_sk_delete (sk where_ : Z) : skM U Z :=
  if sk =? NULL then mret NULL
  else
    st ← get_stack sk;
    if num st <=? where_ then mret NULL
    else
      ret ← load_cell sk where_;
      _ ← (if negb (where_ =? u64 (num st - 1))
           then move_cells sk where_ (where_ + 1) (num st - where_ - 1) else mret tt);
      _ ← update sk (set_num (u64 (num st - 1)));
      mret ret.

(** [for (size_t i = 0; i < sk->num; i++)], [m] iterations to go. *)
Fixpoint delete_ptr_loop (m : nat) (sk p i : Z) : skM U Z :=
  match m with
  | O => mret NULL
  | S m =>
      x ← load_cell sk i;
      if x =? p then OPENSSL_sk_delete sk i else delete_ptr_loop m sk p (i + 1)
  end.

Definition OPENSSL_sk_delete_ptr (sk p : Z) : skM U Z :=
  if sk =? NULL then mret NULL
  else st ← get_stack sk; delete_ptr_loop (Z.to_nat (num st)) sk p 0.

(** [for (size_t i = 0; i < sk->num; i++)]: the new [new_num]. The bound is read in each
    iteration; [fuel] is enough when it does not grow. *)
Fixpoint delete_if_loop (fuel : nat) (sk : Z) (call_func : OPENSSL_sk_call_delete_if_func U)
    (func data : Z) (new_num i : Z) : skM U Z :=
  st ← get_stack sk;
  if negb (i <? num st) then mret new_num
  else
    match fuel with
    | O => wrong
    | S fuel =>
        x ← load_cell sk i;
        remove ← call_user (call_func func x data);
        if remove =? 0 then
          x ← load_cell sk i; _ ← store_cell sk new_num x;
          delete_if_loop fuel sk call_func func data (new_num + 1) (i + 1)
        else delete_if_loop fuel sk call_func func data new_num (i + 1)
    end.

Definition OPENSSL_sk_delete_if (sk : Z) (call_func : OPENSSL_sk_call_delete_if_func U)
    (func data : Z) : skM U unit :=
  if sk =? NULL then mret tt
  else
    st ← get_stack sk;
    new_num ← delete_if_loop (Z.to_nat (num st)) sk call_func func data 0 0;
    update sk (set_num new_num).

Definition OPENSSL_sk_shift (sk : Z) : skM U Z :=
  if sk =? NULL then mret NULL
  else st ← get_stack sk; if num st =? 0 then mret NULL else OPENSSL_sk_delete sk 0.

(** [sk] is read before [OPENSSL_sk_insert] tests it. *)
Definition OPENSSL_sk_push (sk p : Z) : skM U Z :=
  st ← get_stack sk; OPENSSL_sk_insert sk p (num st).

Definition OPENSSL_sk_pop (sk : Z) : skM U Z :=
  if sk =? NULL then mret NULL
  else
    st ← get_stack sk;
    if num st =? 0 then mret NULL else OPENSSL_sk_delete sk (u64 (num st - 1)).

(** ** Sorting *)

Definition parent_idx (idx : Z) : skM U Z :=
  _ ← c_assert (0 <? idx); mret ((idx - 1) / 2).

Definition left_idx (idx : Z) : skM U Z :=
  _ ← c_assert (idx <=? PTRDIFF_MAX); mret (u64 (2 * idx + 1)).

(** The [for (;;)] of [down_heap]: [i] grows in each iteration. *)
Fixpoint down_heap_loop (fuel : nat) (sk : Z) (call_cmp_func : OPENSSL_sk_call_cmp_func)
    (i num : Z) : skM U unit :=
  match fuel with
  | O => wrong
  | S fuel =>
      left ← left_idx i;
      if num <=? left then mret tt
      else
        st ← get_stack sk;
        a ← load_cell sk i;
        b ← load_cell sk left;
        let next := if call_cmp_func (comp st) a b <? 0 then left else i in
        let right := u64 (left + 1) in
        next ← (if right <? num then
                  a ← load_cell sk next;
                  b ← load_cell sk right;
                  mret (if call_cmp_func (comp st) a b <? 0 then right else next)
                else mret next);
        if i =? next then mret tt
        else
          tmp ← load_cell sk i;
          x ← load_cell sk next;
          _ ← store_cell sk i x;
          _ ← store_cell sk next tmp;
          down_heap_loop fuel sk call_cmp_func next num
  end.

Definition down_heap (sk : Z) (call_cmp_func : OPENSSL_sk_call_cmp_func) (i n : Z)
    : skM U unit :=
  st ← get_stack sk;
  _ ← c_assert ((i <? n) && (n <=? num st));
  down_heap_loop (Z.to_nat n) sk call_cmp_func i n.

(** [for (size_t i = parent_idx(sk->num - 1); i < sk->num; i--)]: it ends when [i]
    wraps around. *)
Fixpoint build_heap (fuel : nat) (sk : Z) (call_cmp_func : OPENSSL_sk_call_cmp_func) (i : Z)
    : skM U unit :=
  match fuel with
  | O => wrong
  | S fuel =>
      st ← get_stack sk;
      if negb (i <? num st) then mret tt
      else
        _ ← down_heap sk call_cmp_func i (num st);
        build_heap fuel sk call_cmp_func (u64 (i - 1))
  end.

(** [for (size_t i = sk->num - 1; i > 0; i--)] *)
Fixpoint remove_max (fuel : nat) (sk : Z) (call_cmp_func : OPENSSL_sk_call_cmp_func) (i : Z)
    : skM U unit :=
  match fuel with
  | O => wrong
  | S fuel =>
      if negb (0 <? i) then mret tt
      else
        tmp ← load_cell sk 0;
        x ← load_cell sk i;
        _ ← store_cell sk 0 x;
        _ ← store_cell sk i tmp;
        _ ← down_heap sk call_cmp_func 0 i;
        remove_max fuel sk call_cmp_func (u64 (i - 1))
  end.

Definition OPENSSL_sk_sort (sk : Z) (call_cmp_func : OPENSSL_sk_call_cmp_func) : skM U unit :=
  if sk =? NULL then mret tt
  else
    st ← get_stack sk;
    if (comp st =? NULL) || negb (sorted st =? 0) then mret tt
    else
      _ ← (if 2 <=? num st then
             i ← parent_idx (u64 (num st - 1));
             _ ← build_heap (S (Z.to_nat (num st))) sk call_cmp_func i;
             remove_max (Z.to_nat (num st)) sk call_cmp_func (u64 (num st - 1))
           else mret tt);
      update sk (set_sorted 1).

Definition OPENSSL_sk_is_sorted (sk : Z) : skM U Z :=
  if sk =? NULL then mret 1
  else
    st ← get_stack sk;
    mret (if negb (sorted st =? 0) || (negb (comp st =? NULL) && (num st <? 2)) then 1 else 0).

Definition OPENSSL_sk_set_cmp_func (sk f : Z) : skM U Z :=
  st ← get_stack sk;
  let old := comp st in
  _ ← (if negb (comp st =? f) then update sk (set_sorted 0) else mret tt);
  _ ← update sk (set_comp f);
  mret old.

(** ** Finding: the result, and the index written to [*out_index] *)

Definition found (i : Z) : skM U (Z * option Z) := mret (1, Some i).
Definition not_found : skM U (Z * option Z) := mret (0, None).

(** The linear searches: [m] elements to go from [i]. *)
Fixpoint find_linear (m : nat) (sk : Z) (eq : Z -> bool) (i : Z) : skM U (Z * option Z) :=
  match m with
  | O => not_found
  | S m => x ← load_cell sk i; if eq x then found i else find_linear m sk eq (i + 1)
  end.

(** [while (lo < hi)]: the interval shrinks. *)
Fixpoint find_binary (fuel : nat) (sk p : Z) (call_cmp_func : OPENSSL_sk_call_cmp_func)
    (lo hi : Z) : skM U (Z * option Z) :=
  match fuel with
  | O => wrong
  | S fuel =>
      if negb (lo <? hi) then _ ← c_assert (lo =? hi); not_found
      else
        let mid := lo + (hi - lo - 1) / 2 in
        _ ← c_assert ((lo <=? mid) && (mid <? hi));
        st ← get_stack sk;
        x ← load_cell sk mid;
        let r := call_cmp_func (comp st) p x in
        if 0 <? r then find_binary fuel sk p call_cmp_func (mid + 1) hi
        else if r <? 0 then find_binary fuel sk p call_cmp_func lo mid
        else if hi - lo =? 1 then found mid
        else
          _ ← c_assert (mid + 1 <? hi);
          find_binary fuel sk p call_cmp_func lo (mid + 1)
  end.

Definition OPENSSL_sk_find (sk p : Z) (call_cmp_func : OPENSSL_sk_call_cmp_func)
    : skM U (Z * option Z) :=
  if sk =? NULL then not_found
  else
    st ← get_stack sk;
    if comp st =? NULL then find_linear (Z.to_nat (num st)) sk (fun x => x =? p) 0
    else if p =? NULL then not_found
    else
      is_sorted ← OPENSSL_sk_is_sorted sk;
      if is_sorted =? 0 then
        find_linear (Z.to_nat (num st)) sk (fun x => call_cmp_func (comp st) p x =? 0) 0
      else find_binary (S (Z.to_nat (num st))) sk p call_cmp_func 0 (num st).

(** ** Making, copying and freeing stacks *)

Definition OPENSSL_sk_free (sk : Z) : skM U unit :=
  if sk =? NULL then mret tt else free_stack sk.

(** [for (size_t i = 0; i < sk->num; i++)] *)
Fixpoint free_elements (m : nat) (sk : Z) (call_free_func : OPENSSL_sk_call_free_func U)
    (free_func i : Z) : skM U unit :=
  match m with
  | O => mret tt
  | S m =>
      x ← load_cell sk i;
      _ ← (if negb (x =? NULL) then run_user (call_free_func free_func x) else mret tt);
      free_elements m sk call_free_func free_func (i + 1)
  end.

Definition OPENSSL_sk_pop_free_ex (sk : Z) (call_free_func : OPENSSL_sk_call_free_func U)
    (free_func : Z) : skM U unit :=
  if sk =? NULL then mret tt
  else
    st ← get_stack sk;
    _ ← free_elements (Z.to_nat (num st)) sk call_free_func free_func 0;
    OPENSSL_sk_free sk.

(** [func(ptr)], a call of a function pointer. *)
Definition call_free_func_legacy (call : Z -> Z -> U -> U) (func ptr : Z) : U -> U :=
  call func ptr.

Definition sk_pop_free (call : Z -> Z -> U -> U) (sk free_func : Z) : skM U unit :=
  OPENSSL_sk_pop_free_ex sk (call_free_func_legacy call) free_func.

(** The address of a new stack. *)
Variable malloc : gmap Z stack_st -> Z.

(** [OPENSSL_zalloc(sizeof(OPENSSL_STACK))] *)
Definition zalloc_stack : skM U Z :=
  ok ← sk_alloc_ok;
  if negb ok then mret NULL
  else
    w ← get_st;
    let p := malloc (stacks w) in
    _ ← modify (set_stack p (mk_stack 0 [] 0 0 NULL));
    mret p.

Definition OPENSSL_sk_new (f : Z) : skM U Z :=
  ret ← zalloc_stack;
  if ret =? NULL then mret NULL
  else
    ok ← sk_alloc_ok;
    if negb ok then _ ← free_stack ret; mret NULL
    else
      _ ← update ret (set_data (replicate (Z.to_nat kMinSize) (Some NULL)));
      _ ← update ret (set_comp f);
      _ ← update ret (set_num_alloc kMinSize);
      mret ret.

Definition OPENSSL_sk_new_null : skM U Z := OPENSSL_sk_new NULL.

Definition OPENSSL_sk_dup (sk : Z) : skM U Z :=
  if sk =? NULL then mret NULL
  else
    ret ← zalloc_stack;
    if ret =? NULL then mret NULL
    else
      st ← get_stack sk;
      ok ← sk_alloc_ok;
      if negb ok then _ ← OPENSSL_sk_free ret; mret NULL
      else if Z.of_nat (length (data st)) <? num_alloc st then wrong
      else
        _ ← update ret (set_data (take (Z.to_nat (num_alloc st)) (data st)));
        _ ← update ret (set_num (num st));
        _ ← update ret (set_sorted (sorted st));
        _ ← update ret (set_num_alloc (num_alloc st));
        _ ← update ret (set_comp (comp st));
        mret ret.

(** [for (size_t i = 0; i < ret->num; i++)], [m] iterations to go; the copies made are
    freed when one fails. *)
Fixpoint deep_copy_loop (m : nat) (ret : Z) (call_copy_func : OPENSSL_sk_call_copy_func U)
    (copy_func : Z) (call_free_func : OPENSSL_sk_call_free_func U) (free_func i : Z)
    : skM U Z :=
  match m with
  | O => mret ret
  | S m =>
      x ← load_cell ret i;
      if x =? NULL then
        deep_copy_loop m ret call_copy_func copy_func call_free_func free_func (i + 1)
      else
        copy ← call_user (call_copy_func copy_func x);
        _ ← store_cell ret i copy;
        if copy =? NULL then
          _ ← free_elements (Z.to_nat i) ret call_free_func free_func 0;
          _ ← OPENSSL_sk_free ret;
          mret NULL
        else
          deep_copy_loop m ret call_copy_func copy_func call_free_func free_func (i + 1)
  end.

Definition OPENSSL_sk_deep_copy (sk : Z) (call_copy_func : OPENSSL_sk_call_copy_func U)
    (copy_func : Z) (call_free_func : OPENSSL_sk_call_free_func U) (free_func : Z)
    : skM U Z :=
  ret ← OPENSSL_sk_dup sk;
  if ret =? NULL then mret NULL
  else
    st ← get_stack ret;
    deep_copy_loop (Z.to_nat (num st)) ret call_copy_func copy_func call_free_func free_func 0.

(** The old names. *)
Definition sk_new_null : skM U Z := OPENSSL_sk_new_null.
Definition sk_num (sk : Z) : skM U Z := OPENSSL_sk_num sk.
Definition sk_value (sk i : Z) : skM U Z := OPENSSL_sk_value sk i.
Definition sk_free (sk : Z) : skM U unit := OPENSSL_sk_free sk.
Definition sk_push (sk p : Z) : skM U Z := OPENSSL_sk_push sk p.
Definition sk_pop (sk : Z) : skM U Z := OPENSSL_sk_pop sk.
Definition sk_pop_free_ex (sk : Z) (call_free_func : OPENSSL_sk_call_free_func U) (free_func : Z)
    : skM U unit := OPENSSL_sk_pop_free_ex sk call_free_func free_func.

End stack.

(** ** A stack at work

    Function pointer 1 compares integers; the objects are a log of the pointers freed. *)

Definition call_Zcompare : OPENSSL_sk_call_cmp_func := fun _ a b => a - b.

Definition pushes (sk : Z) (l : list Z) : skM (list Z) unit :=
  foldr (fun p m => _ ← OPENSSL_sk_push sk p; m) (mret tt) l.

Example sort_and_find :
  (sk ← OPENSSL_sk_new bump 1;
   _ ← pushes sk [5; 3; 9; 3; 7; 1; 8];
   _ ← OPENSSL_sk_sort sk call_Zcompare;
   d ← OPENSSL_sk_delete sk 1;
   i ← OPENSSL_sk_find sk 7 call_Zcompare;
   j ← OPENSSL_sk_find sk 4 call_Zcompare;
   st ← get_stack sk;
   mret (d, i, j, num st, num_alloc st, take 6 (data st)))
    (mk_sk_world _ ∅ [] [])
  = Some ((3, (1, Some 3), (0, None), 6, 8, Some <$> [1; 3; 5; 7; 8; 9]),
          mk_sk_world _ {[ 1 := mk_stack 6 ((Some <$> [1; 3; 5; 7; 8; 9; 9]) ++ [None]) 1 8 1 ]} [] []).
Proof. vm_compute. reflexivity. Qed.

(** Setting an element leaves the flag of a sorted stack as it is: the element is then
    looked for in the wrong half. *)
Example set_leaves_sorted :
  (sk ← OPENSSL_sk_new bump 1;
   _ ← pushes sk [1; 2; 3; 4];
   _ ← OPENSSL_sk_sort sk call_Zcompare;
   _ ← OPENSSL_sk_set sk 0 9;
   s ← OPENSSL_sk_is_sorted sk;
   i ← OPENSSL_sk_find sk 9 call_Zcompare;
   mret (s, i)) (mk_sk_world _ ∅ [] [])
  = Some ((1, (0, None)),
          mk_sk_world _ {[ 1 := mk_stack 4 ((Some <$> [9; 2; 3; 4]) ++ replicate 4 None) 1 8 1 ]} [] []).
Proof. vm_compute. reflexivity. Qed.

