(* ===== verification/StackSpec.v ===== *)
(** * Stacks: what the array holds, and the element operations

    The array of a stack holds its elements, followed by cells nobody reads. Each
    operation is described on the list of elements. *)
From S2P Require Export Stack.

(** Step through a call, its side conditions being arithmetic or at hand. *)
Tactic Notation "sstep" uconstr(H) :=
  erewrite part_bind_some by (solve [eapply H; first [eassumption | done | lia | eauto]]).

Notation lenZ l := (Z.of_nat (length l)).

(** Cells that start with the elements [h]; [n] is the number of elements. *)
Definition cells (n : Z) (h : list Z) (R : list (option Z)) (s c f : Z) : stack_st :=
  mk_stack n ((Some <$> h) ++ R) s c f.
Definition stk (l : list Z) : list (option Z) -> Z -> Z -> Z -> stack_st := cells (lenZ l) l.

Lemma c_assert_ok {St} b (s : St) : b = true -> c_assert b s = Some (tt, s).
Proof. by intros ->. Qed.

(** A stack seen from outside. *)
Record vec := mk_vec { elems : list Z; flag : Z; cap : Z; cmp : Z }.

Definition holds (a : vec) (st : stack_st) : Prop :=
  exists rest, st = stk (elems a) rest (flag a) (cap a) (cmp a)
               /\ lenZ (elems a) + lenZ rest = cap a.

(** A stack that the operations can reach: there is room for one more element, and for
    the [INT_MAX] elements that the interface promises not to exceed. *)
Definition vec_ok (a : vec) : Prop :=
  kMinSize <= cap a <= 2 * INT_MAX /\ lenZ (elems a) < cap a /\ lenZ (elems a) <= INT_MAX
  /\ (flag a = 0 \/ flag a = 1 /\ cmp a <> NULL).

Lemma vec_ok_sizes a : vec_ok a -> 4 <= cap a < 2 ^ 33 /\ 0 <= lenZ (elems a) < 2 ^ 31.
Proof. unfold vec_ok, INT_MAX, kMinSize. lia. Qed.

Section spec.
Context {U : Type}.
Implicit Types (w : sk_world U) (sk i n : Z).

(** ** Memory *)

Lemma get_stack_set sk st w : get_stack sk (set_stack sk st w) = Some (st, set_stack sk st w).
Proof. unfold get_stack. cbn. by rewrite lookup_insert_eq. Qed.

Lemma set_stack_twice sk st st' w : set_stack sk st' (set_stack sk st w) = set_stack sk st' w.
Proof. unfold set_stack. cbn. by rewrite insert_insert_eq. Qed.

Lemma set_stack_same sk st w : stacks w !! sk = Some st -> set_stack sk st w = w.
Proof. destruct w. unfold set_stack. cbn. intros H. by rewrite insert_id. Qed.

Lemma put_stack_set sk st st' w :
  put_stack sk st' (set_stack sk st w) = Some (tt, set_stack sk st' w).
Proof.
  unfold put_stack. pstep get_stack_set. unfold modify. by rewrite set_stack_twice.
Qed.

Lemma update_set sk g st w :
  update sk g (set_stack sk st w) = Some (tt, set_stack sk (g st) w).
Proof. unfold update. pstep get_stack_set. apply put_stack_set. Qed.

Lemma cell_at h R (k : nat) x :
  h !! k = Some x -> ((Some <$> h) ++ R) !! k = Some (Some x : option Z).
Proof.
  intros E. rewrite lookup_app_l.
  - by rewrite list_lookup_fmap, E.
  - rewrite length_fmap. by eapply lookup_lt_Some.
Qed.

Lemma load_cell_set sk i n h R s c f x w :
  h !! Z.to_nat i = Some x ->
  load_cell sk i (set_stack sk (cells n h R s c f) w) = Some (x, set_stack sk (cells n h R s c f) w).
Proof.
  intros E. unfold load_cell. pstep get_stack_set. cbn [data cells].
  unfold mbind, part_bind, of_opt. by rewrite (cell_at _ _ _ _ E).
Qed.

Lemma load_held sk i a st x w :
  holds a st -> elems a !! Z.to_nat i = Some x ->
  load_cell sk i (set_stack sk st w) = Some (x, set_stack sk st w).
Proof. intros (R & -> & _). apply load_cell_set. Qed.

Lemma num_held a st : holds a st -> num st = lenZ (elems a).
Proof. by intros (R & -> & _). Qed.

Lemma store_raw sk i p d n s c f w :
  (Z.to_nat i < length d)%nat ->
  store_cell sk i p (set_stack sk (mk_stack n d s c f) w)
  = Some (tt, set_stack sk (mk_stack n (<[Z.to_nat i := Some p]> d) s c f) w).
Proof.
  intros Hi. unfold store_cell. pstep get_stack_set. cbn [data].
  destruct (lookup_lt_is_Some_2 d (Z.to_nat i) Hi) as [y E].
  unfold mbind, part_bind, of_opt. rewrite E. apply put_stack_set.
Qed.

Lemma store_cell_set sk i p n h R s c f w :
  (Z.to_nat i < length h)%nat ->
  store_cell sk i p (set_stack sk (cells n h R s c f) w)
  = Some (tt, set_stack sk (cells n (<[Z.to_nat i := p]> h) R s c f) w).
Proof.
  intros Hi. unfold cells. rewrite store_raw.
  - by rewrite list_fmap_insert, insert_app_l by (by rewrite length_fmap).
  - rewrite length_app, length_fmap. lia.
Qed.

(** The outcome of an allocation, and the world after it. *)
Definition alloc_fails w : bool := match sk_oom w with b :: _ => b | [] => false end.
Definition alloc_done w : sk_world U := mk_sk_world _ (stacks w) (tail (sk_oom w)) (user w).

Lemma sk_alloc_ok_spec w : sk_alloc_ok w = Some (negb (alloc_fails w), alloc_done w).
Proof. unfold sk_alloc_ok, alloc_fails, alloc_done. destruct w as [s [|b o] u]; done. Qed.

Lemma alloc_done_set sk st w : alloc_done (set_stack sk st w) = set_stack sk st (alloc_done w).
Proof. done. Qed.

(** ** Reading and writing elements *)

Section one.
Context (sk : Z) (Hsk : sk <> NULL).

Ltac not_null := rewrite (proj2 (Z.eqb_neq sk NULL) Hsk).

Lemma num_spec l R s c f w :
  OPENSSL_sk_num sk (set_stack sk (stk l R s c f) w) = Some (lenZ l, set_stack sk (stk l R s c f) w).
Proof. unfold OPENSSL_sk_num. not_null. by pstep get_stack_set. Qed.

Lemma value_spec i l R s c f w :
  0 <= i ->
  OPENSSL_sk_value sk i (set_stack sk (stk l R s c f) w)
  = Some (default NULL (l !! Z.to_nat i), set_stack sk (stk l R s c f) w).
Proof.
  intros Hi. unfold OPENSSL_sk_value. not_null. pstep get_stack_set. cbn [num stk cells].
  destruct (Z.leb_spec (lenZ l) i).
  - by rewrite lookup_ge_None_2 by lia.
  - destruct (lookup_lt_is_Some_2 l (Z.to_nat i)) as [x E]; [lia|]. rewrite E. by apply load_cell_set.
Qed.

Lemma set_spec i p l R s c f w :
  0 <= i ->
  OPENSSL_sk_set sk i p (set_stack sk (stk l R s c f) w)
  = Some (if i <? lenZ l then p else NULL, set_stack sk (stk (<[Z.to_nat i := p]> l) R s c f) w).
Proof.
  intros Hi. unfold OPENSSL_sk_set. not_null. pstep get_stack_set. cbn [num stk cells].
  rewrite Z.leb_antisym. destruct (Z.ltb_spec i (lenZ l)); cbn [negb].
  - unfold stk. sstep store_cell_set. by rewrite length_insert.
  - by rewrite list_insert_ge by lia.
Qed.

Lemma zero_spec l R s c f w :
  exists R', OPENSSL_sk_zero sk (set_stack sk (stk l R s c f) w)
             = Some (tt, set_stack sk (stk [] R' (if lenZ l =? 0 then s else 0) c f) w)
             /\ lenZ R' = lenZ l + lenZ R.
Proof.
  unfold OPENSSL_sk_zero. not_null. destruct l as [|x l].
  - exists R. pstep get_stack_set. cbn. split; [done|lia].
  - exists (replicate (length (x :: l)) (Some NULL) ++ R). split.
    2: { rewrite length_app, length_replicate. lia. }
    pstep get_stack_set. cbn [num stk cells]. destruct (Z.eqb_spec (lenZ (x :: l)) 0); [done|].
    assert (Hz : zero_cells sk (lenZ (x :: l)) (set_stack sk (stk (x :: l) R s c f) w)
                 = Some (tt, set_stack sk (mk_stack (lenZ (x :: l))
                     (replicate (length (x :: l)) (Some NULL) ++ R) s c f) w)).
    { unfold zero_cells. pstep get_stack_set. cbn [data stk cells].
      destruct (Z.leb_spec (lenZ (x :: l)) (lenZ ((Some <$> x :: l) ++ R))) as [_|Hlt].
      - rewrite put_stack_set. rewrite Nat2Z.id, drop_app_length' by (by rewrite length_fmap). done.
      - rewrite length_app, length_fmap in Hlt. lia. }
    pstep Hz. pstep update_set. by rewrite update_set.
Qed.

(** ** Insertion *)

Definition insert_at (i p : Z) (l : list Z) : list Z :=
  take (Z.to_nat i) l ++ p :: drop (Z.to_nat i) l.

Lemma length_insert_at i p l : length (insert_at i p l) = S (length l).
Proof. unfold insert_at. rewrite length_app, length_take. cbn. rewrite length_drop. lia. Qed.

Lemma insert_at_end i p l : lenZ l <= i -> insert_at i p l = l ++ [p].
Proof. intros Hi. unfold insert_at. by rewrite take_ge, drop_ge by lia. Qed.

(** Moving the cells from [k] on by one, and writing the one left free. *)
Lemma shifted_cells {A} (d1 d2 : list A) c0 R p :
  d2 <> [] ->
  <[length d1 := p]>
    (take (S (length d1)) (d1 ++ d2 ++ c0 :: R)
     ++ take (length d2) (drop (length d1) (d1 ++ d2 ++ c0 :: R))
     ++ drop (S (length d1 + length d2)) (d1 ++ d2 ++ c0 :: R))
  = d1 ++ p :: d2 ++ R.
Proof.
  intros Hd2. destruct d2 as [|x d2]; [done|].
  rewrite drop_app_length, take_app_length.
  replace (S (length d1 + length (x :: d2))) with (length (d1 ++ (x :: d2) ++ [c0]))
    by (rewrite !length_app; cbn; lia).
  replace (d1 ++ (x :: d2) ++ c0 :: R) with ((d1 ++ (x :: d2) ++ [c0]) ++ R) at 2
    by (by rewrite <- !app_assoc).
  rewrite drop_app_length. replace (S (length d1)) with (length (d1 ++ [x])) by (rewrite length_app; cbn; lia).
  replace (d1 ++ (x :: d2) ++ c0 :: R) with ((d1 ++ [x]) ++ d2 ++ c0 :: R) by (by rewrite <- app_assoc).
  rewrite take_app_length, <- app_assoc, insert_app_r_alt, Nat.sub_diag by lia. done.
Qed.

Definition moved_up {A} (d1 d2 : list A) (c0 : A) (R : list A) : list A :=
  let d := d1 ++ d2 ++ c0 :: R in
  take (S (length d1)) d ++ take (length d2) (drop (length d1) d)
  ++ drop (S (length d1 + length d2)) d.

Lemma move_up_spec d1 d2 c0 R n s c f w :
  move_cells sk (lenZ d1 + 1) (lenZ d1) (lenZ d2)
    (set_stack sk (mk_stack n (d1 ++ d2 ++ c0 :: R) s c f) w)
  = Some (tt, set_stack sk (mk_stack n (moved_up d1 d2 c0 R) s c f) w).
Proof.
  unfold move_cells. pstep get_stack_set. cbn [data].
  assert (Hl : lenZ (d1 ++ d2 ++ c0 :: R) = lenZ d1 + lenZ d2 + 1 + lenZ R)
    by (rewrite !length_app; cbn; lia).
  rewrite Hl. rewrite (proj2 (Z.leb_le _ _)) by lia. rewrite (proj2 (Z.leb_le _ _)) by lia.
  cbn [andb]. rewrite put_stack_set. unfold set_data, moved_up. cbn [num sorted num_alloc comp].
  rewrite !Nat2Z.id. by replace (Z.to_nat (lenZ d1 + 1)) with (S (length d1)) by lia;
    replace (Z.to_nat (lenZ d1 + 1 + lenZ d2)) with (S (length d1 + length d2)) by lia.
Qed.

Lemma length_moved_up {A} (d1 d2 : list A) c0 R :
  (length d1 < length (moved_up d1 d2 c0 R))%nat.
Proof. unfold moved_up. rewrite length_app, length_take, !length_app. cbn [length]. lia. Qed.

Lemma place_spec i p l c0 R s c f w :
  0 <= i ->
  (if lenZ l <=? i then store_cell sk (lenZ l) p
   else _ ← move_cells sk (i + 1) i (lenZ l - i); store_cell sk i p)
    (set_stack sk (stk l (c0 :: R) s c f) w)
  = Some (tt, set_stack sk (mk_stack (lenZ l) ((Some <$> insert_at i p l) ++ R) s c f) w).
Proof.
  intros Hi. unfold stk, cells. destruct (Z.leb_spec (lenZ l) i).
  - rewrite store_raw by (rewrite length_app, length_fmap; cbn; lia).
    rewrite insert_at_end, fmap_app, <- app_assoc by done.
    rewrite insert_app_r_alt by (rewrite length_fmap; lia). rewrite length_fmap, Nat2Z.id, Nat.sub_diag. done.
  - rewrite <- (take_drop (Z.to_nat i) l) at 3. rewrite fmap_app, <- app_assoc.
    set (d1 := Some <$> take (Z.to_nat i) l). set (d2 := Some <$> drop (Z.to_nat i) l).
    assert (H1 : length d1 = Z.to_nat i) by (unfold d1; rewrite length_fmap, length_take; lia).
    assert (H2 : lenZ d2 = lenZ l - i) by (unfold d2; rewrite length_fmap, length_drop; lia).
    rewrite <- H2. replace i with (lenZ d1) by lia.
    rewrite (part_bind_some _ _ _ _ _ (move_up_spec d1 d2 c0 R _ s c f w)).
    rewrite store_raw by (rewrite Nat2Z.id; apply length_moved_up).
    unfold insert_at. rewrite Nat2Z.id, H1, fmap_app, fmap_cons, <- app_assoc. fold d1 d2.
    unfold moved_up. rewrite <- H1, shifted_cells; [done|]. intros E. rewrite E in H2. cbn in H2. lia.
Qed.

Lemma grown_alloc_spec n : 0 < n < 2 ^ 33 -> grown_alloc n = Some (2 * n).
Proof.
  intros Hn. unfold grown_alloc, sizeof_ptr. cbv zeta. rewrite Z.shiftl_mul_pow2 by lia.
  rewrite (u64_small (n * 2 ^ 1)) by lia.
  assert (E : (n <=? n * 2 ^ 1) && (u64 (n * 2 ^ 1 * 8) / 8 =? n * 2 ^ 1) = true).
  { rewrite u64_small, Z.div_mul, Z.eqb_refl by lia. apply andb_true_intro. split; [|done].
    apply Z.leb_le. lia. }
  rewrite !E. f_equal. lia.
Qed.

Lemma grow_spec l R s c f w :
  lenZ l + lenZ R = c -> 0 < c < 2 ^ 33 ->
  exists R',
    grow sk (set_stack sk (stk l R s c f) w)
    = Some (negb (alloc_fails w),
            set_stack sk (if alloc_fails w then stk l R s c f else stk l R' s (2 * c) f) (alloc_done w))
    /\ lenZ l + lenZ R' = 2 * c.
Proof.
  intros Hlen Hc. exists (R ++ replicate (Z.to_nat c) None). split; cycle 1.
  { rewrite length_app, length_replicate. lia. }
  unfold grow. pstep get_stack_set. cbn [num_alloc stk cells]. rewrite grown_alloc_spec by done.
  pstep (sk_alloc_ok_spec (set_stack sk (stk l R s c f) w)). rewrite alloc_done_set.
  change (alloc_fails (set_stack sk (stk l R s c f) w)) with (alloc_fails w).
  destruct (alloc_fails w); [done|]. cbn [negb]. pstep put_stack_set. pstep update_set.
  unfold mret, part_ret. do 3 f_equal. unfold stk, cells, set_num_alloc, set_data. cbn [num data sorted num_alloc comp].
  f_equal. rewrite take_ge; rewrite length_app, length_fmap; [|lia].
  rewrite <- app_assoc. do 3 f_equal. lia.
Qed.

(** What [insert] gives, and what is left to allocate. *)
Definition room (a : vec) : bool := lenZ (elems a) + 1 <? cap a.
Definition refused (fails : bool) (a : vec) : bool :=
  (INT_MAX <=? lenZ (elems a)) || (negb (room a) && fails).
Definition vec_insert (fails : bool) (i p : Z) (a : vec) : Z * vec :=
  if refused fails a then (0, a)
  else (lenZ (elems a) + 1,
        mk_vec (insert_at i p (elems a)) 0 (if room a then cap a else 2 * cap a) (cmp a)).
Definition insert_done (a : vec) w : sk_world U :=
  if negb (INT_MAX <=? lenZ (elems a)) && negb (room a) then alloc_done w else w.

Lemma insert_end i p a c0 R c w :
  0 <= i -> lenZ (elems a) + 1 + lenZ R = c -> exists st',
    (_ ← (if lenZ (elems a) <=? i then store_cell sk (lenZ (elems a)) p
          else _ ← move_cells sk (i + 1) i (lenZ (elems a) - i); store_cell sk i p);
     _ ← update sk (set_num (lenZ (elems a) + 1)); _ ← update sk (set_sorted 0);
     st ← get_stack sk; mret (num st)) (set_stack sk (stk (elems a) (c0 :: R) (flag a) c (cmp a)) w)
    = Some (lenZ (elems a) + 1, set_stack sk st' w)
    /\ holds (mk_vec (insert_at i p (elems a)) 0 c (cmp a)) st'.
Proof.
  intros Hi HR. sstep place_spec. pstep update_set. pstep update_set. pstep get_stack_set.
  eexists. split; [done|]. exists R. cbn [elems flag cap cmp]. rewrite length_insert_at. split; [|lia].
  unfold stk, cells, set_sorted, set_num. cbn [num data sorted num_alloc comp]. f_equal.
  rewrite length_insert_at. lia.
Qed.

Lemma insert_spec i p a st w :
  0 <= i -> vec_ok a -> holds a st ->
  exists st', OPENSSL_sk_insert sk p i (set_stack sk st w)
    = Some ((vec_insert (alloc_fails w) i p a).1, set_stack sk st' (insert_done a w))
    /\ holds (vec_insert (alloc_fails w) i p a).2 st'.
Proof.
  intros Hi Hok (R & -> & HR). pose proof (vec_ok_sizes a Hok) as [Hc Hl].
  assert (Hcap : lenZ (elems a) < cap a) by apply Hok.
  unfold OPENSSL_sk_insert, vec_insert, refused, insert_done. not_null.
  pstep get_stack_set. cbn [num num_alloc stk cells].
  destruct (Z.leb_spec INT_MAX (lenZ (elems a))); cbn [orb negb andb].
  { eexists. split; [done|]. by exists R. }
  rewrite u64_small, (Z.leb_antisym (lenZ (elems a) + 1)) by lia. fold (room a).
  destruct (room a) eqn:Eroom; unfold room in Eroom; cbn [negb orb andb].
  - apply Z.ltb_lt in Eroom. unfold mbind at 1, part_bind at 1, mret at 1, part_ret at 1. cbn [negb].
    destruct R as [|c0 R]; [cbn in HR; lia|]. apply insert_end; cbn in HR; lia.
  - apply Z.ltb_ge in Eroom.
    destruct (grow_spec (elems a) R (flag a) (cap a) (cmp a) w HR ltac:(lia)) as (R' & Hg & HR').
    rewrite (part_bind_some _ _ _ _ _ Hg). destruct (alloc_fails w); cbn [negb].
    + eexists. split; [done|]. by exists R.
    + destruct R' as [|c0 R']; [cbn in HR'; lia|]. apply insert_end; cbn in HR'; lia.
Qed.

Lemma vec_insert_ok fails i p a : vec_ok a -> vec_ok (vec_insert fails i p a).2.
Proof.
  intros Hok. unfold vec_insert, refused, room. destruct (Z.leb_spec INT_MAX (lenZ (elems a))); [done|].
  pose proof Hok as (Hc & Hl & _ & _). unfold INT_MAX, kMinSize in Hc, Hl, H.
  destruct (Z.ltb_spec (lenZ (elems a) + 1) (cap a)), fails; cbn [negb andb orb snd]; try exact Hok;
    unfold vec_ok, kMinSize, INT_MAX; cbn [elems flag cap cmp]; rewrite length_insert_at; lia.
Qed.

(** ** Deletion *)

Definition delete_at (i : Z) (l : list Z) : list Z := 
  take (Z.to_nat i) l ++ drop (S (Z.to_nat i)) l.

Lemma list_elem_split {A} i (l : list A) :
  0 <= i < lenZ l -> exists l1 x l2, l = l1 ++ x :: l2 /\ Z.to_nat i = length l1.
Proof.
  intros Hi. destruct (lookup_lt_is_Some_2 l (Z.to_nat i)) as [x E]; [lia|].
  exists (take (Z.to_nat i) l), x, (drop (S (Z.to_nat i)) l).
  split; [by rewrite take_drop_middle|]. rewrite length_take. lia.
Qed.

Lemma drop_past {A} (l1 : list A) x l2 : drop (S (length l1)) (l1 ++ x :: l2) = l2.
Proof. rewrite cons_middle, app_assoc. apply drop_app_length'. rewrite length_app. cbn. lia. Qed.

Lemma move_down_spec d1 x d2 R n s c f w :
  move_cells sk (lenZ d1) (lenZ d1 + 1) (lenZ d2)
    (set_stack sk (mk_stack n (d1 ++ x :: d2 ++ R) s c f) w)
  = Some (tt, set_stack sk (mk_stack n (d1 ++ d2 ++ drop (length d2) (x :: d2 ++ R)) s c f) w).
Proof.
  unfold move_cells. pstep get_stack_set. cbn [data].
  assert (Hl : lenZ (d1 ++ x :: d2 ++ R) = lenZ d1 + 1 + lenZ d2 + lenZ R)
    by (rewrite !length_app; cbn [length]; rewrite length_app; lia).
  rewrite Hl, (proj2 (Z.leb_le _ _)), (proj2 (Z.leb_le _ _)) by lia. cbn [andb].
  rewrite put_stack_set. unfold set_data. cbn [num sorted num_alloc comp]. do 4 f_equal.
  rewrite !Nat2Z.id, take_app_length. f_equal.
  replace (Z.to_nat (lenZ d1 + 1)) with (length d1 + 1)%nat by lia.
  replace (Z.to_nat (lenZ d1 + lenZ d2)) with (length d1 + length d2)%nat by lia.
  rewrite <- !drop_drop, drop_app_length. f_equal. cbn [drop]. by rewrite drop_0, take_app_length.
Qed.

(** [where != sk->num - 1 ? memmove : ()], and the new count. *)
Lemma delete_end l1 x l2 R s c f w :
  lenZ (l1 ++ x :: l2) < 2 ^ 64 -> exists R',
    (_ ← (if negb (lenZ l1 =? u64 (lenZ (l1 ++ x :: l2) - 1))
          then move_cells sk (lenZ l1) (lenZ l1 + 1) (lenZ (l1 ++ x :: l2) - lenZ l1 - 1) else mret tt);
     _ ← update sk (set_num (u64 (lenZ (l1 ++ x :: l2) - 1))); mret x)
      (set_stack sk (stk (l1 ++ x :: l2) R s c f) w)
    = Some (x, set_stack sk (stk (l1 ++ l2) R' s c f) w) /\ lenZ R' = 1 + lenZ R.
Proof.
  assert (El : lenZ (l1 ++ x :: l2) = lenZ l1 + 1 + lenZ l2) by (rewrite length_app; cbn [length]; lia).
  intros Hn. rewrite u64_small by lia. unfold stk, cells. rewrite El, fmap_app, fmap_cons, <- app_assoc.
  replace (lenZ (l1 ++ l2)) with (lenZ l1 + lenZ l2) by (rewrite length_app; lia).
  replace (lenZ l1 + 1 + lenZ l2 - lenZ l1 - 1) with (lenZ l2) by lia.
  replace (lenZ l1 + 1 + lenZ l2 - 1) with (lenZ l1 + lenZ l2) by lia.
  exists (drop (length l2) (Some x :: (Some <$> l2) ++ R)). split; cycle 1.
  { rewrite length_drop. cbn [length]. rewrite length_app, length_fmap. lia. }
  rewrite fmap_app, <- app_assoc. destruct (Z.eqb_spec (lenZ l1) (lenZ l1 + lenZ l2)) as [E|E]; cbn [negb].
  - destruct l2; [|cbn in E; lia]. unfold mbind at 1, part_bind at 1, mret at 1, part_ret at 1.
    by pstep update_set.
  - pose proof (move_down_spec (Some <$> l1) (Some x) (Some <$> l2) R (lenZ l1 + 1 + lenZ l2) s c f w) as Hm.
    rewrite !length_fmap in Hm. rewrite (part_bind_some _ _ _ _ _ Hm). by pstep update_set.
Qed.

Lemma delete_spec i a st w :
  0 <= i -> vec_ok a -> holds a st ->
  exists st', OPENSSL_sk_delete sk i (set_stack sk st w)
    = Some (default NULL (elems a !! Z.to_nat i), set_stack sk st' w)
    /\ holds (mk_vec (delete_at i (elems a)) (flag a) (cap a) (cmp a)) st'.
Proof.
  intros Hi Hok (R & -> & HR). pose proof (vec_ok_sizes a Hok) as [_ Hl].
  unfold OPENSSL_sk_delete. not_null. pstep get_stack_set. cbn [num stk cells].
  destruct (Z.leb_spec (lenZ (elems a)) i) as [Hge|Hlt].
  { rewrite lookup_ge_None_2 by lia. eexists. split; [done|]. exists R. cbn [elems flag cap cmp].
    unfold delete_at. by rewrite take_ge, drop_ge, app_nil_r by lia. }
  destruct (list_elem_split i (elems a) ltac:(lia)) as (l1 & x & l2 & E & Hl1).
  assert (Hx : elems a !! Z.to_nat i = Some x) by (rewrite E, list_lookup_middle by lia; done).
  unfold stk. sstep load_cell_set. rewrite Hx. cbn [default]. fold (stk (elems a) R (flag a) (cap a) (cmp a)).
  unfold delete_at. rewrite Hl1, E in *. replace i with (lenZ l1) by lia.
  destruct (delete_end l1 x l2 R (flag a) (cap a) (cmp a) w ltac:(lia)) as (R' & Hd & HR').
  eexists. split; [exact Hd|]. exists R'. cbn [elems flag cap cmp].
  rewrite take_app_length, drop_past. split; [done|]. rewrite length_app in *. cbn [length] in *. lia.
Qed.

Lemma vec_delete_ok i a : vec_ok a -> vec_ok (mk_vec (delete_at i (elems a)) (flag a) (cap a) (cmp a)).
Proof.
  unfold vec_ok, delete_at. cbn [elems flag cap cmp]. intros (Hc & Hl & Hm & Hf).
  rewrite length_app, length_take, length_drop. lia.
Qed.

(** The first element equal to [p] goes. *)
Fixpoint remove_first (p : Z) (l : list Z) : list Z :=
  match l with
  | [] => []
  | x :: l => if x =? p then l else x :: remove_first p l
  end.

Lemma delete_ptr_loop_spec p a st w l1 l2 :
  elems a = l1 ++ l2 -> vec_ok a -> holds a st ->
  exists st', delete_ptr_loop (length l2) sk p (lenZ l1) (set_stack sk st w)
    = Some (if bool_decide (p ∈ l2) then p else NULL, set_stack sk st' w)
    /\ holds (mk_vec (l1 ++ remove_first p l2) (flag a) (cap a) (cmp a)) st'.
Proof.
  revert l1. induction l2 as [|x l2 IH]; intros l1 E Hok Hst; cbn [delete_ptr_loop length remove_first].
  { exists st. split; [done|]. rewrite <- E. by destruct a. }
  assert (Hx : elems a !! Z.to_nat (lenZ l1) = Some x) by (rewrite E, list_lookup_middle by lia; done).
  sstep load_held. destruct (Z.eqb_spec x p) as [-> | Hne].
  - destruct (delete_spec (lenZ l1) a st w ltac:(lia) Hok Hst) as (st' & Hd & Hst').
    exists st'. split.
    + rewrite Hd, Hx, bool_decide_true by (by left). done.
    + revert Hst'. unfold delete_at. rewrite E, Nat2Z.id, take_app_length, drop_past. done.
  - destruct (IH (l1 ++ [x])) as (st' & Hd & Hst'); [by rewrite <- app_assoc|done|done|].
    exists st'. rewrite <- app_assoc in Hst'. split; [|done].
    rewrite length_app in Hd. cbn [length] in Hd. replace (lenZ l1 + 1) with (Z.of_nat (length l1 + 1)) by lia.
    rewrite Hd. do 2 f_equal.
    destruct (decide (p ∈ l2)).
    + rewrite !bool_decide_true; [done|by right|done].
    + rewrite !bool_decide_false; [done| |done]. intros [->|?]%elem_of_cons; done.
Qed.

Lemma delete_ptr_spec p a st w :
  vec_ok a -> holds a st ->
  exists st', OPENSSL_sk_delete_ptr sk p (set_stack sk st w)
    = Some (if bool_decide (p ∈ elems a) then p else NULL, set_stack sk st' w)
    /\ holds (mk_vec (remove_first p (elems a)) (flag a) (cap a) (cmp a)) st'.
Proof.
  intros Hok Hst. unfold OPENSSL_sk_delete_ptr. not_null. pstep get_stack_set.
  rewrite (num_held a st Hst), Nat2Z.id. by apply (delete_ptr_loop_spec p a st w [] (elems a)).
Qed.

Lemma length_remove_first p l : (length (remove_first p l) <= length l)%nat.
Proof. induction l; cbn; [lia|]. destruct (_ =? _); cbn; lia. Qed.

(** The predicate [func] on each element, [func] acting on the objects: what stays. *)
Fixpoint keep_if (func : Z -> U -> Z * U) (l : list Z) (u : U) : list Z * U :=
  match l with
  | [] => ([], u)
  | x :: l =>
      let '(r, u) := func x u in
      let '(kept, u) := keep_if func l u in
      (if r =? 0 then x :: kept else kept, u)
  end.

Definition set_user (u : U) w : sk_world U := mk_sk_world _ (stacks w) (sk_oom w) u.

Lemma call_user_set {A} (g : U -> A * U) st w :
  call_user g (set_stack sk st w) = Some ((g (user w)).1, set_stack sk st (set_user (g (user w)).2 w)).
Proof. unfold call_user. cbn. by destruct (g (user w)). Qed.

Lemma length_keep_if g l u : (length (keep_if g l u).1 <= length l)%nat.
Proof.
  revert u. induction l as [|x l IH]; intros u; cbn; [lia|]. destruct (g x u) as [r u'].
  specialize (IH u'). destruct (keep_if g l u') as [kept u'']. destruct (r =? 0); cbn in *; lia.
Qed.

Lemma overwrite_gap (kept gap todo : list Z) x :
  <[length kept := x]> (kept ++ gap ++ x :: todo) = (kept ++ [x]) ++ tail (gap ++ [x]) ++ todo.
Proof.
  rewrite insert_app_r_alt, Nat.sub_diag by lia. rewrite <- app_assoc. f_equal.
  destruct gap as [|g gap]; [done|]. cbn. by rewrite <- app_assoc.
Qed.

(** The elements kept so far are at the start; [gap] is what was left behind. *)
Lemma delete_if_loop_spec (call_func : OPENSSL_sk_call_delete_if_func U) func dat n todo :
  forall kept gap R s c f w,
    lenZ kept + lenZ gap + lenZ todo = n ->
    let r := keep_if (fun x => call_func func x dat) todo (user w) in
    exists gap',
      delete_if_loop (length todo) sk call_func func dat (lenZ kept) (lenZ kept + lenZ gap)
        (set_stack sk (cells n (kept ++ gap ++ todo) R s c f) w)
      = Some (lenZ (kept ++ r.1), set_stack sk (cells n ((kept ++ r.1) ++ gap') R s c f) (set_user r.2 w))
      /\ (length r.1 + length gap' = length gap + length todo)%nat.
Proof.
  induction todo as [|x todo IH]; intros kept gap R s c f w Hn; cbn [delete_if_loop keep_if length] in *;
    sstep get_stack_set; cbn [num cells].
  { rewrite (proj2 (Z.ltb_ge _ _)) by lia. exists gap. cbn [fst snd length negb]. rewrite !app_nil_r. by destruct w. }
  rewrite (proj2 (Z.ltb_lt _ _)) by lia. cbn [negb].
  assert (Hx : (kept ++ gap ++ x :: todo) !! Z.to_nat (lenZ kept + lenZ gap) = Some x).
  { rewrite app_assoc, list_lookup_middle; [done|]. rewrite length_app. lia. }
  sstep load_cell_set. rewrite (part_bind_some _ _ _ _ _ (call_user_set _ _ _)).
  destruct (call_func func x dat (user w)) as [r u'] eqn:Ec. cbn [fst snd].
  set (w' := set_user u' w). change u' with (user w'). destruct (Z.eqb_spec r 0) as [Er|Er].
  - assert (Hs : forall k, (Z.to_nat (lenZ kept) < length (kept ++ gap ++ x :: k))%nat)
      by (intros k; rewrite !length_app; cbn [length]; lia).
    sstep load_cell_set. rewrite (part_bind_some _ _ _ _ _ (store_cell_set _ _ x _ _ _ _ _ _ w' (Hs todo))).
    rewrite Nat2Z.id, overwrite_gap.
    assert (Hg : length (tail (gap ++ [x])) = length gap) by (destruct gap; cbn; rewrite ?length_app; cbn; lia).
    specialize (IH (kept ++ [x]) (tail (gap ++ [x])) R s c f w' ltac:(rewrite Hg, length_app; cbn [length]; lia)).
    cbn zeta in IH. rewrite Hg, length_app in IH. cbn [length] in IH.
    replace (Z.of_nat (length kept + 1)) with (lenZ kept + 1) in IH by lia.
    replace (lenZ kept + 1 + lenZ gap) with (lenZ kept + lenZ gap + 1) in IH by lia.
    destruct (keep_if _ todo (user w')) as [kept' u'']. cbn [fst snd] in *. destruct IH as (gap' & Hd & Hlen).
    exists gap'. rewrite Hd, <- (app_assoc kept). split; [done|]. cbn [length app]. lia.
  - specialize (IH kept (gap ++ [x]) R s c f w' ltac:(rewrite length_app; cbn [length]; lia)). cbn zeta in IH.
    rewrite length_app, <- app_assoc in IH. cbn [length app] in IH.
    replace (lenZ kept + Z.of_nat (length gap + 1)) with (lenZ kept + lenZ gap + 1) in IH by lia.
    destruct (keep_if _ todo (user w')) as [kept' u'']. cbn [fst snd] in *. destruct IH as (gap' & Hd & Hlen).
    exists gap'. split; [exact Hd|]. lia.
Qed.

Lemma delete_if_spec (call_func : OPENSSL_sk_call_delete_if_func U) func dat a st w :
  holds a st ->
  let r := keep_if (fun x => call_func func x dat) (elems a) (user w) in
  exists st', OPENSSL_sk_delete_if sk call_func func dat (set_stack sk st w)
    = Some (tt, set_stack sk st' (set_user r.2 w))
    /\ holds (mk_vec r.1 (flag a) (cap a) (cmp a)) st'.
Proof.
  intros (R & -> & HR) r. unfold OPENSSL_sk_delete_if. not_null. pstep get_stack_set.
  cbn [num stk cells]. rewrite Nat2Z.id.
  destruct (delete_if_loop_spec call_func func dat (lenZ (elems a)) (elems a) [] [] R (flag a) (cap a) (cmp a) w ltac:(cbn [length]; lia))
    as (gap & Hd & Hlen). fold r in Hd, Hlen. cbn [app length] in Hd, Hlen.
  rewrite (part_bind_some _ _ _ _ _ Hd), update_set. eexists. split; [done|].
  exists ((Some <$> gap) ++ R). cbn [elems flag cap cmp]. split.
  - unfold stk, cells, set_num. cbn [num data sorted num_alloc comp]. by rewrite fmap_app, <- app_assoc.
  - rewrite length_app, length_fmap. lia.
Qed.

(** ** The ends *)

Lemma shift_spec a st w :
  vec_ok a -> holds a st ->
  exists st', OPENSSL_sk_shift sk (set_stack sk st w)
    = Some (default NULL (head (elems a)), set_stack sk st' w)
    /\ holds (mk_vec (tail (elems a)) (flag a) (cap a) (cmp a)) st'.
Proof.
  intros Hok Hst. unfold OPENSSL_sk_shift. not_null. pstep get_stack_set. rewrite (num_held a st Hst).
  destruct (elems a) as [|x l] eqn:E.
  - exists st. split; [done|]. cbn [tail]. rewrite <- E. by destruct a.
  - destruct (delete_spec 0 a st w ltac:(lia) Hok Hst) as (st' & Hd & Hst').
    exists st'. destruct (Z.eqb_spec (lenZ (x :: l)) 0); [done|]. rewrite Hd.
    unfold delete_at in Hst'. rewrite E in *. done.
Qed.

Lemma pop_spec a st w :
  vec_ok a -> holds a st ->
  exists st', OPENSSL_sk_pop sk (set_stack sk st w)
    = Some (default NULL (last (elems a)), set_stack sk st' w)
    /\ holds (mk_vec (removelast (elems a)) (flag a) (cap a) (cmp a)) st'.
Proof.
  intros Hok Hst. pose proof (vec_ok_sizes a Hok) as [_ Hl].
  unfold OPENSSL_sk_pop. not_null. pstep get_stack_set. rewrite (num_held a st Hst).
  destruct (elems a) as [|x l _] eqn:E using rev_ind.
  - exists st. split; [done|]. cbn [removelast]. rewrite <- E. by destruct a.
  - assert (Hn : lenZ (l ++ [x]) = lenZ l + 1) by (rewrite length_app; cbn; lia).
    rewrite Hn in *. destruct (Z.eqb_spec (lenZ l + 1) 0); [lia|].
    rewrite u64_small, Z.add_simpl_r by lia.
    destruct (delete_spec (lenZ l) a st w ltac:(lia) Hok Hst) as (st' & Hd & Hst').
    exists st'. rewrite Hd. unfold delete_at in Hst'. rewrite E, Nat2Z.id in *.
    rewrite last_snoc, list_lookup_middle, removelast_last by done. split; [done|].
    rewrite take_app_length, drop_past, app_nil_r in Hst'. done.
Qed.

Lemma push_spec p a st w :
  vec_ok a -> holds a st ->
  exists st', OPENSSL_sk_push sk p (set_stack sk st w)
    = Some ((vec_insert (alloc_fails w) (lenZ (elems a)) p a).1, set_stack sk st' (insert_done a w))
    /\ holds (vec_insert (alloc_fails w) (lenZ (elems a)) p a).2 st'.
Proof.
  intros Hok Hst. unfold OPENSSL_sk_push. pstep get_stack_set. rewrite (num_held a st Hst).
  apply insert_spec; [lia|done|done].
Qed.

End one.
End spec.
