(* ===== verification/StackSort.v ===== *)
(** * Stacks: sorting

    [OPENSSL_sk_sort] is a heap sort in place: a heap is a list in which no element is
    greater than its parent, the element at index [k] being the child of the one at
    [(k - 1) / 2]. *)
From S2P Require Export StackSpec.
From Stdlib Require Export Sorted.

(** What the comparison functions promise: the order of [qsort]. *)
Class CmpOrder (c : Z -> Z -> Z) : Prop := {
  cmp_swap : forall a b, 0 < c a b <-> c b a < 0;
  cmp_trans : forall a b d, c a b <= 0 -> c b d <= 0 -> c a d <= 0
}.

#[export] Instance Zcompare_order f : CmpOrder (call_Zcompare f).
Proof. split; unfold call_Zcompare; lia. Qed.

Notation ascending c := (StronglySorted (fun a b => c a b <= 0)).

Section order.
Context (c : Z -> Z -> Z) `{!CmpOrder c}.

Lemma cmp_total a b : c a b <= 0 \/ c b a <= 0.
Proof. destruct (Z.le_gt_cases (c a b) 0); [by left|right]. assert (c b a < 0) by (by apply cmp_swap, Z.gt_lt_iff; lia). lia. Qed.

Lemma cmp_refl a : c a a <= 0.
Proof. by destruct (cmp_total a a). Qed.

Lemma cmp_zero a b : c a b = 0 <-> c a b <= 0 /\ c b a <= 0.
Proof. pose proof (cmp_swap a b). pose proof (cmp_swap b a). lia. Qed.

(** ** Heaps *)

Definition child (j k : nat) : Prop := (k = 2 * j + 1 \/ k = 2 * j + 2)%nat.

(** No child of [j] is greater. *)
Definition dominates (h : list Z) (j : nat) : Prop :=
  forall k, child j k -> (k < length h)%nat -> c (h !!! k) (h !!! j) <= 0.

Definition heap_from (i : nat) (h : list Z) : Prop := forall j, (i <= j)%nat -> dominates h j.

(** A heap from [i0] on but for [i], whose children its parent dominates. *)
Definition almost_heap (i0 i : nat) (h : list Z) : Prop :=
  (i0 <= i)%nat
  /\ (forall j, (i0 <= j)%nat -> j <> i -> dominates h j)
  /\ (forall j k, (i0 <= j)%nat -> child j i -> child i k -> (k < length h)%nat -> c (h !!! k) (h !!! j) <= 0).

Definition swapped (i j : nat) (h : list Z) : list Z := <[j := h !!! i]> (<[i := h !!! j]> h).

Lemma length_swapped i j h : length (swapped i j h) = length h.
Proof. unfold swapped. by rewrite !length_insert. Qed.

Lemma swapped_lookup i j h k :
  (i < length h)%nat -> (j < length h)%nat ->
  swapped i j h !!! k = if decide (k = j) then h !!! i else if decide (k = i) then h !!! j else h !!! k.
Proof.
  intros Hi Hj. unfold swapped. destruct (decide (k = j)) as [-> | Hkj].
  - rewrite list_lookup_total_insert_eq; [done|]. by rewrite length_insert.
  - rewrite list_lookup_total_insert_ne by done. destruct (decide (k = i)) as [-> | Hki].
    + by rewrite list_lookup_total_insert_eq.
    + by rewrite list_lookup_total_insert_ne.
Qed.

Lemma swapped_perm i j h : (i < length h)%nat -> (j < length h)%nat -> swapped i j h ≡ₚ h.
Proof.
  intros Hi Hj. apply Permutation_inj. split; [apply length_swapped|].
  exists (fun k => if decide (k = j) then i else if decide (k = i) then j else k). split.
  { intros x y. repeat case_decide; congruence. }
  intros k. destruct (decide (k < length h)%nat) as [Hk|Hk].
  - rewrite (list_lookup_lookup_total_lt (swapped i j h)) by (by rewrite length_swapped).
    rewrite swapped_lookup by done.
    repeat case_decide; by rewrite list_lookup_lookup_total_lt.
  - repeat case_decide; subst; try lia. rewrite !lookup_ge_None_2; rewrite ?length_swapped; [done|lia|lia].
Qed.

(** Exchanging the element with a greatest child moves the exception to the child. *)
Lemma almost_heap_swap i0 i next h :
  almost_heap i0 i h -> child i next -> (next < length h)%nat ->
  c (h !!! i) (h !!! next) < 0 ->
  (forall k, child i k -> (k < length h)%nat -> c (h !!! k) (h !!! next) <= 0) ->
  almost_heap i0 next (swapped i next h).
Proof.
  intros (Hi & Hd & Hg) Hc Hn Hlt Hmax. unfold child in *.
  assert (Hin : (i < length h)%nat) by lia.
  split_and!; [lia| |]; unfold dominates; rewrite ?length_swapped.
  - intros j Hj Hjn k Hk Hkl. rewrite !swapped_lookup by done. unfold child in Hk.
    repeat case_decide; subst; try lia; try (by apply Hmax); try (by apply (Hg j next)).
    by apply Hd.
  - intros j k Hj Hjn Hk Hkl. unfold child in Hjn, Hk. assert (j = i) as -> by lia. rewrite !swapped_lookup by done.
    repeat case_decide; try lia. by apply (Hd next); [lia|lia|unfold child|].
Qed.

Lemma almost_heap_done i0 i h : almost_heap i0 i h -> dominates h i -> heap_from i0 h.
Proof. intros (_ & Hd & _) Hi j Hj. destruct (decide (j = i)) as [-> | Hne]; [done|by apply Hd]. Qed.

Lemma almost_heap_start i h : heap_from (S i) h -> almost_heap i i h.
Proof.
  intros Hh. split_and!; [lia|intros j Hj Hne; apply Hh; lia|]. intros j k Hj Hc. unfold child in Hc. lia.
Qed.

(** Leaves. *)
Lemma heap_from_half i h : (length h <= 2 * i + 1)%nat -> heap_from i h.
Proof. intros Hl j Hj k Hk Hkl. unfold child in Hk. lia. Qed.

(** The root is a greatest element. *)
Lemma heap_root h x k : heap_from 0 (x :: h) -> (k < length (x :: h))%nat -> c ((x :: h) !!! k) x <= 0.
Proof.
  intros Hh. induction k as [k IH] using lt_wf_ind. intros Hk. destruct k as [|k]; [apply cmp_refl|].
  pose proof (Nat.div_mod_eq k 2). pose proof (Nat.mod_upper_bound k 2 ltac:(lia)).
  apply (cmp_trans _ ((x :: h) !!! (k / 2)%nat)); [|apply IH; lia].
  apply Hh; [lia| |done]. unfold child. lia.
Qed.

Lemma heap_root_elem h x y : heap_from 0 (x :: h) -> y ∈ x :: h -> c y x <= 0.
Proof.
  intros Hh Hy. apply list_elem_of_lookup in Hy as (k & Ek).
  rewrite <- (list_lookup_total_correct _ _ _ Ek). apply heap_root; [done|]. by eapply lookup_lt_Some.
Qed.

(** Replacing the root by the last element leaves a heap but for the root. *)
Lemma almost_heap_replace x y t : heap_from 0 (x :: t ++ [y]) -> almost_heap 0 0 (y :: t).
Proof.
  intros Hh. split_and!; [lia| |].
  - assert (E : forall m, m <> 0%nat -> (m < length (y :: t))%nat -> (x :: t ++ [y]) !!! m = (y :: t) !!! m).
    { intros [|m] Hm Hl; [done|]. apply (lookup_total_app_l t). cbn in Hl. lia. }
    intros j Hj Hj0 k Hk Hkl. assert (Hjk : (j < k)%nat) by (unfold child in Hk; lia).
    rewrite <- !E by lia. apply Hh; [lia|done|]. cbn [length] in *. rewrite length_app. lia.
  - intros j k Hj Hc. unfold child in Hc. lia.
Qed.

Lemma ascending_app l1 l2 :
  ascending c l1 -> ascending c l2 -> (forall x y, x ∈ l1 -> y ∈ l2 -> c x y <= 0) -> ascending c (l1 ++ l2).
Proof.
  induction l1 as [|x l1 IH]; intros H1 H2 H12; [done|]. inversion H1; subst. cbn. constructor.
  - apply IH; try done. intros a b Ha. apply H12. by right.
  - apply Forall_app. split; [done|]. apply Forall_forall. intros y Hy. apply H12; [by left|done].
Qed.

(** ** The loops *)

Context {U : Type} (sk f : Z) (Hsk : sk <> NULL) (call_cmp : OPENSSL_sk_call_cmp_func)
  (Hcmp : call_cmp f = c).
Implicit Types w : sk_world U.

Lemma left_idx_spec (i : nat) w :
  Z.of_nat i < 2 ^ 62 -> left_idx (Z.of_nat i) w = Some (Z.of_nat (2 * i + 1), w).
Proof.
  intros Hi. unfold left_idx, c_assert, PTRDIFF_MAX. rewrite (proj2 (Z.leb_le _ _)) by lia.
  unfold mbind, part_bind, mret, part_ret. rewrite u64_small by lia. do 2 f_equal. lia.
Qed.

Lemma load_nat (i : nat) n h R s cp w :
  (i < length h)%nat ->
  load_cell sk (Z.of_nat i) (set_stack sk (cells n h R s cp f) w)
  = Some (h !!! i, set_stack sk (cells n h R s cp f) w).
Proof. intros Hi. apply load_cell_set. rewrite Nat2Z.id. by apply list_lookup_lookup_total_lt. Qed.

(** The child the loop goes to, if it is greater. *)
Definition greater_child (h : list Z) (i : nat) : nat :=
  let next := if c (h !!! i) (h !!! (2 * i + 1)%nat) <? 0 then (2 * i + 1)%nat else i in
  if decide (2 * i + 2 < length h)%nat
  then if c (h !!! next) (h !!! (2 * i + 2)%nat) <? 0 then (2 * i + 2)%nat else next
  else next.

Lemma greater_child_spec h i :
  (2 * i + 1 < length h)%nat ->
  let next := greater_child h i in
  (forall k, k = i \/ child i k -> (k < length h)%nat -> c (h !!! k) (h !!! next) <= 0)
  /\ (next <> i -> child i next /\ (next < length h)%nat /\ c (h !!! i) (h !!! next) < 0).
Proof.
  intros Hl. unfold greater_child, child.
  set (x := h !!! i). set (y := h !!! (2 * i + 1)%nat). set (z := h !!! (2 * i + 2)%nat).
  pose proof (cmp_refl x). pose proof (cmp_refl y). pose proof (cmp_refl z).
  assert (Hall : forall a, c x a <= 0 -> c y a <= 0 -> ((2 * i + 2 < length h)%nat -> c z a <= 0) ->
    forall k, k = i \/ (k = 2 * i + 1 \/ k = 2 * i + 2)%nat -> (k < length h)%nat -> c (h !!! k) a <= 0).
  { intros a Hx Hy Hz k [-> | [-> | ->]] Hk; auto. }
  pose proof (cmp_swap x y). pose proof (cmp_swap y x). pose proof (cmp_swap x z). pose proof (cmp_swap z x).
  pose proof (cmp_swap y z). pose proof (cmp_swap z y).
  pose proof (cmp_trans x y z). pose proof (cmp_trans y x z). pose proof (cmp_trans z x y).
  destruct (Z.ltb_spec (c x y) 0); case_decide; fold x y;
    [destruct (Z.ltb_spec (c y z) 0)| |destruct (Z.ltb_spec (c x z) 0)|];
    (split; [apply Hall; fold x y z; intros; lia|]); intros; fold x y z; lia.
Qed.

Lemma down_heap_step (i : nat) n h R s cp w fuel :
  Z.of_nat (length h) < 2 ^ 62 -> (i < length h)%nat ->
  down_heap_loop (S fuel) sk call_cmp (Z.of_nat i) (lenZ h) (set_stack sk (cells n h R s cp f) w)
  = if decide (2 * i + 1 < length h)%nat then
      let next := greater_child h i in
      if decide (next = i) then Some (tt, set_stack sk (cells n h R s cp f) w)
      else down_heap_loop fuel sk call_cmp (Z.of_nat next) (lenZ h)
             (set_stack sk (cells n (swapped i next h) R s cp f) w)
    else Some (tt, set_stack sk (cells n h R s cp f) w).
Proof.
  intros Hl Hi. cbn [down_heap_loop]. rewrite (part_bind_some _ _ _ _ _ (left_idx_spec i _ ltac:(lia))).
  case_decide as Hleft.
  2: { by rewrite (proj2 (Z.leb_le _ _)) by lia. }
  rewrite (proj2 (Z.leb_gt _ _)) by lia. sstep get_stack_set. cbn [comp cells]. rewrite Hcmp.
  sstep load_nat. sstep load_nat.
  set (nx := if c (h !!! i) (h !!! (2 * i + 1)%nat) <? 0 then (2 * i + 1)%nat else i).
  replace (if c (h !!! i) (h !!! (2 * i + 1)%nat) <? 0 then Z.of_nat (2 * i + 1) else Z.of_nat i)
    with (Z.of_nat nx) by (unfold nx; by destruct (_ <? 0)).
  assert (Hnx : (nx < length h)%nat) by (unfold nx; destruct (_ <? 0); lia).
  rewrite u64_small by lia. replace (Z.of_nat (2 * i + 1) + 1) with (Z.of_nat (2 * i + 2)) by lia.
  assert (Hnext : (if Z.of_nat (2 * i + 2) <? lenZ h then
      a ← load_cell sk (Z.of_nat nx); b ← load_cell sk (Z.of_nat (2 * i + 2));
      mret (if c a b <? 0 then Z.of_nat (2 * i + 2) else Z.of_nat nx)
    else mret (Z.of_nat nx)) (set_stack sk (cells n h R s cp f) w)
    = Some (Z.of_nat (greater_child h i), set_stack sk (cells n h R s cp f) w)).
  { unfold greater_child. fold nx. case_decide.
    - rewrite (proj2 (Z.ltb_lt _ _)) by lia. sstep load_nat. sstep load_nat.
      by destruct (c (h !!! nx) (h !!! (2 * i + 2)%nat) <? 0).
    - by rewrite (proj2 (Z.ltb_ge _ _)) by lia. }
  rewrite (part_bind_some _ _ _ _ _ Hnext). cbv zeta.
  destruct (greater_child_spec h i Hleft) as [_ Hgc]. cbv zeta in Hgc.
  case_decide as Heq; [by rewrite Heq, Z.eqb_refl|]. destruct (Hgc Heq) as (_ & Hgl & _).
  rewrite (proj2 (Z.eqb_neq _ _)) by lia. sstep load_nat. sstep load_nat.
  rewrite (part_bind_some _ _ _ _ _ (store_cell_set sk (Z.of_nat i) _ n h R s cp f w ltac:(lia))).
  erewrite part_bind_some by (apply store_cell_set; rewrite length_insert; lia).
  by rewrite !Nat2Z.id.
Qed.

Lemma down_heap_loop_spec i0 n R s cp w fuel : forall i h,
  Z.of_nat (length h) < 2 ^ 62 -> (i < length h)%nat -> (length h - i <= fuel)%nat -> almost_heap i0 i h ->
  exists h', h' ≡ₚ h /\ heap_from i0 h' /\
    down_heap_loop fuel sk call_cmp (Z.of_nat i) (lenZ h) (set_stack sk (cells n h R s cp f) w)
    = Some (tt, set_stack sk (cells n h' R s cp f) w).
Proof.
  induction fuel as [|fuel IH]; intros i h Hl Hi Hf Ha; [lia|].
  rewrite down_heap_step by done. case_decide as Hleft; cbv zeta.
  2: { exists h. split_and!; try done. apply (almost_heap_done i0 i); [done|].
       intros k Hk Hkl. unfold child in Hk. lia. }
  destruct (greater_child_spec h i Hleft) as [Hmax Hgc]. cbv zeta in Hmax, Hgc.
  set (next := greater_child h i) in *. case_decide as Heq.
  - exists h. split_and!; try done. apply (almost_heap_done i0 i); [done|].
    intros k Hk Hkl. rewrite Heq in Hmax. apply Hmax; [by right|done].
  - destruct (Hgc Heq) as (Hc & Hnl & Hlt).
    destruct (IH next (swapped i next h)) as (h' & Hp & Hh & E); rewrite ?length_swapped; try done.
    + unfold child in Hc. lia.
    + apply almost_heap_swap; try done. intros k Hk. apply Hmax. by right.
    + rewrite length_swapped in E. exists h'. rewrite E. split_and!; try done.
      rewrite Hp. apply swapped_perm; lia.
Qed.

Lemma down_heap_spec i n h R s cp w :
  lenZ h <= n -> n < 2 ^ 62 -> (i < length h)%nat -> almost_heap i i h ->
  exists h', h' ≡ₚ h /\ heap_from i h' /\
    down_heap sk call_cmp (Z.of_nat i) (lenZ h) (set_stack sk (cells n h R s cp f) w)
    = Some (tt, set_stack sk (cells n h' R s cp f) w).
Proof.
  intros Hn Hb Hi Ha. destruct (down_heap_loop_spec i n R s cp w (length h) i h) as (h' & Hp & Hh & E); try lia; [done|].
  exists h'. split_and!; try done. unfold down_heap. sstep get_stack_set. cbn [num cells].
  unfold c_assert. rewrite (proj2 (Z.ltb_lt _ _)), (proj2 (Z.leb_le _ _)) by lia. cbn [andb].
  rewrite Nat2Z.id. exact E.
Qed.


(** From a heap from [i] on to a heap. *)
Lemma build_heap_spec R s cp w : forall (i : nat) h fuel,
  lenZ h < 2 ^ 62 -> (i <= length h)%nat -> (i < fuel)%nat -> heap_from i h ->
  exists h', h' ≡ₚ h /\ heap_from 0 h' /\
    build_heap fuel sk call_cmp (u64 (Z.of_nat i - 1)) (set_stack sk (cells (lenZ h) h R s cp f) w)
    = Some (tt, set_stack sk (cells (lenZ h) h' R s cp f) w).
Proof.
  induction i as [|i IH]; intros h fuel Hl Hi Hf Hh; destruct fuel as [|fuel]; try lia;
    cbn [build_heap]; sstep get_stack_set; cbn [num cells].
  - exists h. split_and!; try done. change (u64 (Z.of_nat 0 - 1)) with (2 ^ 64 - 1).
    by rewrite (proj2 (Z.ltb_ge _ _)) by lia.
  - rewrite u64_small by lia. replace (Z.of_nat (S i) - 1) with (Z.of_nat i) by lia.
    rewrite (proj2 (Z.ltb_lt _ _)) by lia. cbn [negb].
    destruct (down_heap_spec i (lenZ h) h R s cp w) as (h1 & Hp1 & Hh1 & E1); try lia; [by apply almost_heap_start|].
    rewrite (part_bind_some _ _ _ _ _ E1). pose proof (Permutation_length Hp1) as El.
    destruct (IH h1 fuel) as (h' & Hp & Hh' & E); try lia; [done|].
    rewrite El in E. exists h'. split_and!; [by rewrite Hp|done|exact E].
Qed.

(** The elements from [i + 1] on are in place. *)
Lemma remove_max_spec n R s cp w : forall i h t fuel,
  length h = S i -> lenZ h <= n -> n < 2 ^ 62 -> (i < fuel)%nat ->
  heap_from 0 h -> ascending c t -> (forall x y, x ∈ h -> y ∈ t -> c x y <= 0) ->
  exists l, l ≡ₚ h ++ t /\ ascending c l /\
    remove_max fuel sk call_cmp (Z.of_nat i) (set_stack sk (cells n h ((Some <$> t) ++ R) s cp f) w)
    = Some (tt, set_stack sk (cells n l R s cp f) w).
Proof.
  induction i as [|i IH]; intros h t fuel El Hn Hb Hf Hh Ht Hht; destruct fuel as [|fuel]; try lia;
    cbn [remove_max].
  - destruct h as [|x [|? ?]]; try done. exists (x :: t). split_and!; [done| |done].
    apply (ascending_app [x]); [by repeat constructor|done|done].
  - rewrite (proj2 (Z.ltb_lt _ _)) by lia. cbn [negb].
    destruct h as [|x h]; [done|]. destruct h as [|y h0 _] using rev_ind; [done|].
    cbn [length] in El, Hn. rewrite length_app in El, Hn. cbn [length] in El, Hn.
    assert (Hlast : ((x :: h0 ++ [y]) !! S i) = Some y).
    { transitivity ((h0 ++ [y]) !! i); [done|]. rewrite list_lookup_middle; [done|lia]. }
    erewrite part_bind_some by (by apply load_cell_set).
    erewrite part_bind_some by (apply load_cell_set; rewrite Nat2Z.id; exact Hlast).
    erewrite part_bind_some by (apply store_cell_set; cbn; lia).
    erewrite part_bind_some by (apply store_cell_set; rewrite Nat2Z.id, length_insert; cbn [length]; rewrite length_app; cbn [length]; lia).
    rewrite Nat2Z.id.
    assert (Ec : cells n (<[S i := x]> (<[0%nat := y]> (x :: h0 ++ [y]))) ((Some <$> t) ++ R) s cp f
                 = cells n (y :: h0) ((Some <$> x :: t) ++ R) s cp f).
    { change (<[S i := x]> (<[0%nat := y]> (x :: h0 ++ [y]))) with (y :: <[i := x]> (h0 ++ [y])).
      rewrite insert_app_r_alt by lia. replace (i - length h0)%nat with 0%nat by lia.
      change (<[0%nat := x]> [y]) with [x]. unfold cells.
      rewrite !fmap_cons, fmap_app. cbn [app]. by rewrite <- app_assoc. }
    change (Z.to_nat 0) with 0%nat. rewrite Ec.
    destruct (down_heap_spec 0 n (y :: h0) ((Some <$> x :: t) ++ R) s cp w) as (h1 & Hp1 & Hh1 & E1).
    { cbn [length]. lia. } { done. } { cbn. lia. } { by apply (almost_heap_replace x). }
    replace (lenZ (y :: h0)) with (Z.of_nat (S i)) in E1 by (cbn [length]; lia).
    rewrite (part_bind_some _ _ _ _ _ E1). pose proof (Permutation_length Hp1) as El1. cbn [length] in El1.
    rewrite u64_small by lia. replace (Z.of_nat (S i) - 1) with (Z.of_nat i) by lia.
    assert (Hin : forall z, z ∈ h1 -> z ∈ x :: h0 ++ [y]).
    { intros z. rewrite Hp1. set_solver. }
    destruct (IH h1 (x :: t) fuel) as (l & Hp & Hl & E); try lia; [done| | |].
    + apply (ascending_app [x]); [by repeat constructor|done|]. intros a b Ha%list_elem_of_singleton. subst a.
      apply Hht. by left.
    + intros a b Ha [-> | Hb']%elem_of_cons; [|by apply Hht; [apply Hin|]].
      eapply heap_root_elem; [done|by apply Hin].
    + exists l. split_and!; [|done|exact E]. rewrite Hp, Hp1. cbn.
      rewrite <- app_assoc. cbn. rewrite <- !Permutation_middle. apply perm_swap.
Qed.

(** The branch [sk->num >= 2]. *)
Lemma heap_sort_spec l R s cp w :
  (2 <= length l)%nat -> lenZ l < 2 ^ 62 ->
  exists l', l' ≡ₚ l /\ ascending c l' /\
    (i ← parent_idx (u64 (lenZ l - 1));
     _ ← build_heap (S (Z.to_nat (lenZ l))) sk call_cmp i;
     remove_max (Z.to_nat (lenZ l)) sk call_cmp (u64 (lenZ l - 1))) (set_stack sk (stk l R s cp f) w)
    = Some (tt, set_stack sk (stk l' R s cp f) w).
Proof.
  intros Hl Hb. rewrite u64_small by lia. unfold parent_idx, c_assert.
  rewrite (proj2 (Z.ltb_lt _ _)) by lia.
  set (i := S (Z.to_nat ((lenZ l - 1 - 1) / 2))).
  assert (Hi : (lenZ l - 1 - 1) / 2 = u64 (Z.of_nat i - 1)) by (rewrite u64_small; unfold i; div_lia).
  destruct (build_heap_spec R s cp w i l (S (length l))) as (h & Hp & Hh & E).
  { done. } { unfold i. div_lia. } { unfold i. div_lia. } { apply heap_from_half. unfold i. div_lia. }
  pose proof (Permutation_length Hp) as El.
  destruct (remove_max_spec (lenZ l) R s cp w (length l - 1) h [] (length l)) as (l' & Hp' & Hs & E');
    try lia; [done|constructor|set_solver|].
  exists l'. rewrite app_nil_r in Hp'. split_and!; [by rewrite Hp'|done|].
  unfold mbind at 1, part_bind at 1, mbind at 1, part_bind at 1, mret at 1, part_ret at 1, mret at 1, part_ret at 1.
  rewrite Hi, Nat2Z.id. unfold stk at 1. rewrite (part_bind_some _ _ _ _ _ E).
  replace (lenZ l - 1) with (Z.of_nat (length l - 1)) by lia. change (Some <$> []) with (@nil (option Z)) in E'.
  cbn [app] in E'. rewrite E'. unfold stk. by rewrite (Permutation_length Hp'), El.
Qed.

End order.

Section sort.
Context {U : Type} (call_cmp : OPENSSL_sk_call_cmp_func).

(** What sorting leaves; the order of equal elements is left open. *)
Definition sort_result (a : vec) (l : list Z) : Prop :=
  l ≡ₚ elems a
  /\ if (cmp a =? NULL) || negb (flag a =? 0) then l = elems a else ascending (call_cmp (cmp a)) l.
Definition sort_flag (a : vec) : Z := if cmp a =? NULL then flag a else 1.

Lemma short_ascending (c : Z -> Z -> Z) l : (length l < 2)%nat -> ascending c l.
Proof. destruct l as [|x [|? ?]]; cbn; intros; [constructor| |lia]. by repeat constructor. Qed.

Lemma sort_stk sk l R c f (w : sk_world U) :
  sk <> NULL -> f <> NULL -> lenZ l < 2 ^ 62 -> CmpOrder (call_cmp f) ->
  exists l', l' ≡ₚ l /\ ascending (call_cmp f) l'
    /\ OPENSSL_sk_sort sk call_cmp (set_stack sk (stk l R 0 c f) w)
      = Some (tt, set_stack sk (stk l' R 1 c f) w).
Proof.
  intros Hsk Hf Hl Ho. unfold OPENSSL_sk_sort. rewrite (proj2 (Z.eqb_neq sk NULL) Hsk).
  sstep get_stack_set. cbn [comp sorted num stk cells]. rewrite (proj2 (Z.eqb_neq f NULL) Hf). cbn [orb negb Z.eqb].
  assert (Hrun : exists l', l' ≡ₚ l /\ ascending (call_cmp f) l' /\
    (if 2 <=? lenZ l then
       i ← parent_idx (u64 (lenZ l - 1));
       _ ← build_heap (S (Z.to_nat (lenZ l))) sk call_cmp i;
       remove_max (Z.to_nat (lenZ l)) sk call_cmp (u64 (lenZ l - 1))
     else mret tt) (set_stack sk (stk l R 0 c f) w)
    = Some (tt, set_stack sk (stk l' R 0 c f) w)).
  { destruct (Z.leb_spec 2 (lenZ l)).
    - apply heap_sort_spec; solve [done|lia].
    - exists l. split_and!; [done|apply short_ascending; lia|done]. }
  destruct Hrun as (l' & Hp & Hs & E). rewrite (part_bind_some _ _ _ _ _ E), update_set. by exists l'.
Qed.

Lemma sort_spec sk a st (w : sk_world U) :
  sk <> NULL -> vec_ok a -> holds a st -> (cmp a <> NULL -> CmpOrder (call_cmp (cmp a))) ->
  exists l st',
    OPENSSL_sk_sort sk call_cmp (set_stack sk st w) = Some (tt, set_stack sk st' w)
    /\ sort_result a l /\ holds (mk_vec l (sort_flag a) (cap a) (cmp a)) st'.
Proof.
  intros Hsk Hok Hst Ho. pose proof Hst as (R & Est & HR). pose proof (vec_ok_sizes a Hok) as [_ Hl].
  unfold sort_result, sort_flag. destruct ((cmp a =? NULL) || negb (flag a =? 0)) eqn:Eskip.
  - exists (elems a), st. split_and!; try done.
    + unfold OPENSSL_sk_sort. rewrite (proj2 (Z.eqb_neq sk NULL) Hsk). sstep get_stack_set.
      rewrite Est. cbn [comp sorted stk cells]. by rewrite Eskip.
    + destruct Hok as (_ & _ & _ & Hf). destruct (Z.eqb_spec (cmp a) NULL); [by destruct a|]. cbn in Eskip.
      destruct Hf as [Hf|[Hf _]]; [by rewrite Hf in Eskip|]. rewrite <- Hf. by destruct a.
  - apply orb_false_iff in Eskip as [Ec Ef]. rewrite Ec. apply Z.eqb_neq in Ec.
    assert (Ez : flag a = 0) by (by destruct (Z.eqb_spec (flag a) 0)).
    destruct (sort_stk sk (elems a) R (cap a) (cmp a) w Hsk Ec ltac:(lia) (Ho Ec)) as (l & Hp & Hs & E).
    exists l, (stk l R 1 (cap a) (cmp a)). rewrite Est, Ez. split_and!; try done.
    exists R. cbn [elems flag cap cmp]. split; [done|]. by rewrite (Permutation_length Hp).
Qed.

End sort.

(** C28. Sorting a stack that is not marked as sorted: with a comparison function that
    orders the elements, [OPENSSL_sk_sort] comes to an end without reading or writing
    outside the array or failing an assertion, the elements are those there were, in
    ascending order, the rest of the array is as it was, and the stack is marked as
    sorted. *)
Theorem OPENSSL_sk_sort_sorts {U} (call_cmp : OPENSSL_sk_call_cmp_func) sk l rest c f (w : sk_world U) :
  sk <> NULL -> f <> NULL -> CmpOrder (call_cmp f) -> lenZ l <= INT_MAX ->
  stacks w !! sk = Some (stk l rest 0 c f) ->
  exists l', l' ≡ₚ l /\ ascending (call_cmp f) l'
    /\ OPENSSL_sk_sort sk call_cmp w = Some (tt, set_stack sk (stk l' rest 1 c f) w).
Proof.
  intros Hsk Hf Ho Hl Hst. unfold INT_MAX in Hl.
  destruct (sort_stk call_cmp sk l rest c f w Hsk Hf ltac:(lia) Ho) as (l' & Hp & Hs & E).
  rewrite (set_stack_same sk _ w Hst) in E. by exists l'.
Qed.

Lemma OPENSSL_sk_sort_sorts_witness :
  exists l', l' ≡ₚ [5; 3; 9; 3; 7] /\ ascending (call_Zcompare 1) l'
    /\ OPENSSL_sk_sort 40 call_Zcompare
         (mk_sk_world _ {[ 40 := stk [5; 3; 9; 3; 7] [None; None; None] 0 8 1 ]} [] tt)
       = Some (tt, set_stack 40 (stk l' [None; None; None] 1 8 1)
                     (mk_sk_world _ {[ 40 := stk [5; 3; 9; 3; 7] [None; None; None] 0 8 1 ]} [] tt)).
Proof. apply OPENSSL_sk_sort_sorts; [done|done|apply _|done|done]. Defined.
