(* ===== verification/StackFind.v ===== *)
(** * Stacks: finding

    The binary search gives what a search from the start gives. *)
From S2P Require Export StackSort.

(** The index of the first element that passes the test. *)
Fixpoint first_index (eq : Z -> bool) (l : list Z) : option nat :=
  match l with
  | [] => None
  | x :: l => if eq x then Some 0%nat else S <$> first_index eq l
  end.

Lemma first_index_none eq l : (forall x, x ∈ l -> eq x = false) -> first_index eq l = None.
Proof.
  induction l as [|x l IH]; intros Hl; [done|]. cbn. rewrite Hl by (by left).
  rewrite IH; [done|]. intros y Hy. apply Hl. by right.
Qed.

Lemma first_index_some eq l k x :
  l !! k = Some x -> eq x = true -> (forall j y, (j < k)%nat -> l !! j = Some y -> eq y = false) ->
  first_index eq l = Some k.
Proof.
  revert k. induction l as [|y l IH]; intros k Hk Hx Hj; [done|]. cbn. destruct k as [|k].
  - injection Hk as ->. by rewrite Hx.
  - rewrite (Hj 0%nat y) by (done || lia). rewrite (IH k); [done|done|done|].
    intros j z Hlt. apply (Hj (S j)). lia.
Qed.

Lemma ascending_lookup (c : Z -> Z -> Z) l i j x y :
  ascending c l -> (i < j)%nat -> l !! i = Some x -> l !! j = Some y -> c x y <= 0.
Proof.
  intros Hs. revert i j. induction Hs as [|z l Hl IH Hz]; intros i j Hij Hi Hj; [done|].
  destruct j as [|j]; [lia|]. destruct i as [|i].
  - injection Hi as ->. rewrite Forall_forall in Hz. apply Hz. by eapply list_elem_of_lookup_2.
  - apply (IH i j); [lia|done|done].
Qed.

(** The result of [find], and what it writes. *)
Definition index_result (o : option nat) : Z * option Z :=
  match o with Some k => (1, Some (Z.of_nat k)) | None => (0, None) end.

Definition vec_find (call_cmp : OPENSSL_sk_call_cmp_func) (p : Z) (a : vec) : Z * option Z :=
  index_result
    (if cmp a =? NULL then first_index (fun x => x =? p) (elems a)
     else if p =? NULL then None
     else first_index (fun x => call_cmp (cmp a) p x =? 0) (elems a)).

(** The flag can be trusted: [sk->sorted] is only set on elements in order. *)
Definition flag_true (call_cmp : OPENSSL_sk_call_cmp_func) (a : vec) : Prop :=
  flag a <> 0 -> ascending (call_cmp (cmp a)) (elems a).

Section find.
Context {U : Type} (sk : Z) (Hsk : sk <> NULL).
Implicit Types w : sk_world U.

Lemma find_linear_spec eq a st w l2 : forall l1,
  elems a = l1 ++ l2 -> holds a st ->
  find_linear (length l2) sk eq (lenZ l1) (set_stack sk st w)
  = Some (index_result (Nat.add (length l1) <$> first_index eq l2), set_stack sk st w).
Proof.
  induction l2 as [|x l2 IH]; intros l1 E Hst; [done|]. cbn [find_linear length first_index].
  assert (Hx : elems a !! Z.to_nat (lenZ l1) = Some x) by (rewrite E, list_lookup_middle by lia; done).
  sstep load_held. destruct (eq x).
  - unfold found, mret, part_ret. cbn. do 4 f_equal. lia.
  - specialize (IH (l1 ++ [x])). rewrite <- app_assoc, length_app in IH. cbn [length] in IH.
    replace (Z.of_nat (length l1 + 1)) with (lenZ l1 + 1) in IH by lia. rewrite IH by done.
    destruct (first_index eq l2) as [k|]; [|done]. cbn. do 4 f_equal. lia.
Qed.

Section binary.
Context (call_cmp : OPENSSL_sk_call_cmp_func) (p : Z) (a : vec)
  `{!CmpOrder (call_cmp (cmp a))} (Hs : ascending (call_cmp (cmp a)) (elems a)).
Notation l := (elems a).
Notation r j := (call_cmp (cmp a) p (l !!! j)).

Lemma sorted_at i j : (i <= j)%nat -> (j < length l)%nat -> call_cmp (cmp a) (l !!! i) (l !!! j) <= 0.
Proof.
  intros Hij Hj. destruct (decide (i = j)) as [-> | Hne]; [by apply cmp_refl|].
  apply (ascending_lookup _ l i j); [done|lia| |]; apply list_lookup_lookup_total_lt; lia.
Qed.

Lemma below i j : (i <= j)%nat -> (j < length l)%nat -> 0 < r j -> 0 < r i.
Proof.
  intros Hij Hj Hr. pose proof (sorted_at i j Hij Hj).
  apply (cmp_swap p (l !!! j)) in Hr. apply (cmp_swap p (l !!! i)).
  destruct (Z.lt_ge_cases (call_cmp (cmp a) (l !!! i) p) 0) as [|Hge]; [done|].
  assert (call_cmp (cmp a) p (l !!! i) <= 0) by (pose proof (cmp_swap (l !!! i) p); pose proof (cmp_swap p (l !!! i)); lia).
  pose proof (cmp_trans _ _ _ H0 H). pose proof (cmp_swap p (l !!! j)). pose proof (cmp_swap (l !!! j) p). lia.
Qed.

Lemma above i j : (i <= j)%nat -> (j < length l)%nat -> r i < 0 -> r j < 0.
Proof.
  intros Hij Hj Hr. pose proof (sorted_at i j Hij Hj).
  destruct (Z.lt_ge_cases (r j) 0) as [|Hge]; [done|].
  assert (call_cmp (cmp a) (l !!! j) p <= 0) by (pose proof (cmp_swap (l !!! j) p); pose proof (cmp_swap p (l !!! j)); lia).
  pose proof (cmp_trans _ _ _ H H0). pose proof (cmp_swap p (l !!! i)). pose proof (cmp_swap (l !!! i) p). lia.
Qed.

(** All before [lo] are too low, and the first match, if there is one, is between. *)
Definition between (lo hi : nat) : Prop :=
  (lo <= hi <= length l)%nat /\ (forall j, (j < lo)%nat -> 0 < r j)
  /\ (forall j, (j < length l)%nat -> r j = 0 -> exists i, (lo <= i < hi)%nat /\ (i <= j)%nat /\ r i = 0).

Notation answer := (index_result (first_index (fun x => call_cmp (cmp a) p x =? 0) l)).

Lemma between_empty lo : between lo lo -> answer = (0, None).
Proof.
  intros (_ & _ & Hm). rewrite first_index_none; [done|]. intros x Hx.
  apply list_elem_of_lookup in Hx as (k & Ek). rewrite <- (list_lookup_total_correct _ _ _ Ek).
  apply Z.eqb_neq. intros Hr. destruct (Hm k) as (i & Hi & _); [by eapply lookup_lt_Some|done|lia].
Qed.

Lemma between_one lo : between lo (S lo) -> r lo = 0 -> answer = (1, Some (Z.of_nat lo)).
Proof.
  intros (Hl & Hb & _) Hr. rewrite (first_index_some _ l lo (l !!! lo)); [done| |by apply Z.eqb_eq|].
  - apply list_lookup_lookup_total_lt. lia.
  - intros j y Hj Ey. rewrite <- (list_lookup_total_correct _ _ _ Ey). apply Z.eqb_neq.
    specialize (Hb j Hj). lia.
Qed.

Lemma between_right lo hi mid : between lo hi -> (lo <= mid < hi)%nat -> 0 < r mid -> between (S mid) hi.
Proof.
  intros (Hl & Hb & Hm) Hin Hr. split_and!; [lia|lia| |].
  - intros j Hj. apply (below j mid); [lia|lia|done].
  - intros j Hj Hj0. destruct (Hm j Hj Hj0) as (i & Hi & Hij & Hi0). exists i. split_and!; try lia.
    destruct (Nat.lt_ge_cases mid i); [lia|]. assert (0 < r i) by (apply (below i mid); [lia|lia|done]). lia.
Qed.

Lemma between_left lo hi mid : between lo hi -> (lo <= mid < hi)%nat -> r mid < 0 -> between lo mid.
Proof.
  intros (Hl & Hb & Hm) Hin Hr. split_and!; [lia|lia|done|].
  intros j Hj Hj0. destruct (Hm j Hj Hj0) as (i & Hi & Hij & Hi0). exists i. split_and!; try lia.
  destruct (Nat.lt_ge_cases i mid); [lia|]. assert (r i < 0) by (apply (above mid i); [lia|lia|done]). lia.
Qed.

Lemma between_match lo hi mid : between lo hi -> (lo <= mid < hi)%nat -> r mid = 0 -> between lo (S mid).
Proof.
  intros (Hl & Hb & Hm) Hin Hr. split_and!; [lia|lia|done|].
  intros j Hj Hj0. destruct (Hm j Hj Hj0) as (i & Hi & Hij & Hi0).
  destruct (Nat.le_gt_cases i mid); [exists i|exists mid]; split_and!; lia.
Qed.

Lemma find_binary_spec st w fuel : forall lo hi,
  holds a st -> between lo hi -> (hi - lo < fuel)%nat ->
  find_binary fuel sk p call_cmp (Z.of_nat lo) (Z.of_nat hi) (set_stack sk st w)
  = Some (answer, set_stack sk st w).
Proof.
  induction fuel as [|fuel IH]; intros lo hi Hst Hbt Hf; [lia|]. pose proof Hbt as ((Hlo & Hhi) & Hb & Hm).
  cbn [find_binary]. destruct (Z.ltb_spec (Z.of_nat lo) (Z.of_nat hi)) as [Hlt|Hge]; cbn [negb].
  2: { assert (lo = hi) as -> by lia. rewrite Z.eqb_refl. by rewrite (between_empty hi Hbt). }
  set (mid := Z.to_nat (Z.of_nat lo + (Z.of_nat hi - Z.of_nat lo - 1) / 2)).
  assert (Hmid : Z.of_nat lo + (Z.of_nat hi - Z.of_nat lo - 1) / 2 = Z.of_nat mid) by (unfold mid; div_lia).
  assert (Hin : (lo <= mid < hi)%nat) by (unfold mid; div_lia).
  rewrite Hmid. clearbody mid. sstep c_assert_ok. sstep get_stack_set.
  assert (Hx : l !! Z.to_nat (Z.of_nat mid) = Some (l !!! mid))
    by (rewrite Nat2Z.id; apply list_lookup_lookup_total_lt; lia).
  sstep load_held. assert (Ec : comp st = cmp a) by (by destruct Hst as (R & -> & _)). rewrite Ec.
  destruct (Z.ltb_spec 0 (r mid)) as [Hr|Hr]; [|destruct (Z.ltb_spec (r mid) 0) as [Hr'|Hr']].
  - replace (Z.of_nat mid + 1) with (Z.of_nat (S mid)) by lia.
    apply IH; [done| |lia]. by apply (between_right lo hi).
  - apply IH; [done| |lia]. by apply (between_left lo hi).
  - assert (Hr0 : r mid = 0) by lia. destruct (Z.eqb_spec (Z.of_nat hi - Z.of_nat lo) 1).
    + assert (mid = lo) as -> by lia. unfold found, mret, part_ret. rewrite (between_one lo); [done| |done].
      by replace (S lo) with hi by lia.
    + assert (Hmh : (S mid < hi)%nat) by div_lia.
      sstep c_assert_ok. replace (Z.of_nat mid + 1) with (Z.of_nat (S mid)) by lia.
      apply IH; [done| |lia]. apply (between_match lo hi); [done|lia|done].
Qed.
End binary.

(** Where the elements are taken to be in order, they are searched by halves. *)
Definition halves (p : Z) (a : vec) : bool :=
  negb (cmp a =? NULL) && negb (p =? NULL) && (negb (flag a =? 0) || (lenZ (elems a) <? 2)).

Lemma sk_find_cases call_cmp p a st w :
  holds a st ->
  OPENSSL_sk_find sk p call_cmp (set_stack sk st w)
  = if halves p a then find_binary (S (length (elems a))) sk p call_cmp 0 (lenZ (elems a)) (set_stack sk st w)
    else Some (vec_find call_cmp p a, set_stack sk st w).
Proof.
  intros Hst. unfold OPENSSL_sk_find, vec_find, halves. rewrite (proj2 (Z.eqb_neq sk NULL) Hsk).
  sstep get_stack_set.
  assert (Ec : comp st = cmp a) by (by destruct Hst as (R & -> & _)).
  assert (Es : sorted st = flag a) by (by destruct Hst as (R & -> & _)).
  rewrite Ec, (num_held a st Hst), Nat2Z.id. pose proof (fun eq => find_linear_spec eq a st w (elems a) [] eq_refl Hst) as Hlin.
  destruct (Z.eqb_spec (cmp a) NULL) as [Ez|Ez]; cbn [negb andb].
  { change 0 with (lenZ (@nil Z)). rewrite Hlin. by destruct (first_index _ _). }
  destruct (p =? NULL); [done|]. unfold OPENSSL_sk_is_sorted. rewrite (proj2 (Z.eqb_neq sk NULL) Hsk). cbn [negb andb].
  rewrite (part_bind_some _ _ (set_stack sk st w) (if negb (flag a =? 0) || (lenZ (elems a) <? 2) then 1 else 0) (set_stack sk st w)).
  2: { sstep get_stack_set. unfold mret, part_ret. rewrite Es, Ec, (num_held a st Hst).
       by rewrite (proj2 (Z.eqb_neq _ _) Ez). }
  destruct (_ || _); cbn [Z.eqb]; [done|]. change 0 with (lenZ (@nil Z)) at 2. rewrite Hlin. by destruct (first_index _ _).
Qed.

Lemma halves_true p a :
  halves p a = true -> cmp a <> NULL /\ p <> NULL /\ (flag a <> 0 \/ lenZ (elems a) < 2).
Proof. unfold halves. lia. Qed.

Lemma sk_find_spec call_cmp p a st w :
  holds a st -> flag_true call_cmp a -> (cmp a <> NULL -> CmpOrder (call_cmp (cmp a))) ->
  OPENSSL_sk_find sk p call_cmp (set_stack sk st w) = Some (vec_find call_cmp p a, set_stack sk st w).
Proof.
  intros Hst Hfl Ho. rewrite (sk_find_cases call_cmp p a st w Hst). destruct (halves p a) eqn:Eh; [|done].
  apply halves_true in Eh as (Ec & Ep & Hf). specialize (Ho Ec).
  assert (Ev : vec_find call_cmp p a = index_result (first_index (fun x => call_cmp (cmp a) p x =? 0) (elems a)))
    by (unfold vec_find; by rewrite (proj2 (Z.eqb_neq _ _) Ec), (proj2 (Z.eqb_neq _ _) Ep)).
  rewrite Ev. apply (find_binary_spec call_cmp p a) with (lo := 0%nat); [|done| |lia].
  - destruct Hf as [Hf|Hf]; [by apply Hfl|by apply short_ascending; lia].
  - split_and!; [lia|lia|lia|]. intros j Hj Hr. exists j. split_and!; [lia|lia|lia|done].
Qed.

(** The flag cannot be trusted when [sk_set] has put an element out of order: what the
    binary search finds then is still a match, but it may miss one. *)
Definition is_match (call_cmp : OPENSSL_sk_call_cmp_func) (p : Z) (a : vec) (r : Z * option Z) : Prop :=
  r = (0, None)
  \/ exists i x, r = (1, Some (Z.of_nat i)) /\ elems a !! i = Some x
       /\ if cmp a =? NULL then x = p else p <> NULL /\ call_cmp (cmp a) p x = 0.

Lemma first_index_at eq l k : first_index eq l = Some k -> exists x, l !! k = Some x /\ eq x = true.
Proof.
  revert k. induction l as [|x l IH]; intros k; cbn; [done|]. destruct (eq x) eqn:E; [intros [= <-]; by exists x|].
  intros (j & Hj & ->)%fmap_Some. by apply IH.
Qed.

Lemma vec_find_match call_cmp p a : is_match call_cmp p a (vec_find call_cmp p a).
Proof.
  unfold is_match, vec_find. destruct (Z.eqb_spec (cmp a) NULL) as [Ez|Ez].
  - destruct (first_index _ _) as [k|] eqn:E; [|by left]. apply first_index_at in E as (x & Hx & Ex). right.
    exists k, x. split_and!; [done|done|lia].
  - destruct (Z.eqb_spec p NULL) as [Ep|Ep]; [by left|].
    destruct (first_index _ _) as [k|] eqn:E; [|by left]. apply first_index_at in E as (x & Hx & Ex). right.
    exists k, x. split_and!; [done|done|done|lia].
Qed.

Lemma find_binary_any call_cmp p a st w fuel : forall lo hi,
  cmp a <> NULL -> p <> NULL -> holds a st -> (lo <= hi <= length (elems a))%nat -> (hi - lo < fuel)%nat ->
  exists r, find_binary fuel sk p call_cmp (Z.of_nat lo) (Z.of_nat hi) (set_stack sk st w) = Some (r, set_stack sk st w)
    /\ is_match call_cmp p a r.
Proof.
  induction fuel as [|fuel IH]; intros lo hi Hc Hp Hst Hin Hf; [lia|]. cbn [find_binary].
  destruct (Z.ltb_spec (Z.of_nat lo) (Z.of_nat hi)) as [Hlt|Hge]; cbn [negb].
  2: { assert (lo = hi) as -> by lia. rewrite Z.eqb_refl. exists (0, None). split; [done|by left]. }
  set (mid := Z.to_nat (Z.of_nat lo + (Z.of_nat hi - Z.of_nat lo - 1) / 2)).
  assert (Hmid : Z.of_nat lo + (Z.of_nat hi - Z.of_nat lo - 1) / 2 = Z.of_nat mid) by (unfold mid; div_lia).
  assert (Hm : (lo <= mid < hi)%nat) by (unfold mid; div_lia).
  rewrite Hmid. clearbody mid. sstep c_assert_ok. sstep get_stack_set.
  destruct (lookup_lt_is_Some_2 (elems a) mid ltac:(lia)) as [x Hx].
  assert (Hx' : elems a !! Z.to_nat (Z.of_nat mid) = Some x) by (by rewrite Nat2Z.id).
  sstep load_held. assert (Ec : comp st = cmp a) by (by destruct Hst as (R & -> & _)). rewrite Ec.
  replace (Z.of_nat mid + 1) with (Z.of_nat (S mid)) by lia.
  destruct (Z.ltb_spec 0 (call_cmp (cmp a) p x)); [apply IH; (done || lia)|].
  destruct (Z.ltb_spec (call_cmp (cmp a) p x) 0); [apply IH; (done || lia)|].
  destruct (Z.eqb_spec (Z.of_nat hi - Z.of_nat lo) 1).
  - exists (1, Some (Z.of_nat mid)). split; [done|]. right. exists mid, x. split_and!; [done|done|].
    rewrite (proj2 (Z.eqb_neq _ _) Hc). split; [done|lia].
  - assert (Hmh : (S mid < hi)%nat) by div_lia. rewrite (proj2 (Z.ltb_lt _ _)) by (clear -Hmh; lia).
    sstep c_assert_ok. apply IH; (done || lia).
Qed.

Lemma sk_find_any call_cmp p a st w :
  holds a st -> (cmp a <> NULL -> CmpOrder (call_cmp (cmp a))) ->
  exists r, OPENSSL_sk_find sk p call_cmp (set_stack sk st w) = Some (r, set_stack sk st w)
    /\ is_match call_cmp p a r /\ (flag_true call_cmp a -> r = vec_find call_cmp p a).
Proof.
  intros Hst Ho. pose proof (sk_find_cases call_cmp p a st w Hst) as Ef. destruct (halves p a) eqn:Eh.
  2: { exists (vec_find call_cmp p a). split_and!; [done|apply vec_find_match|done]. }
  apply halves_true in Eh as (Ec & Ep & _).
  destruct (find_binary_any call_cmp p a st w (S (length (elems a))) 0 (length (elems a)) Ec Ep Hst) as (r & E & Hr); [lia|lia|].
  exists r. change (Z.of_nat 0) with 0 in E. rewrite E in Ef. split_and!; [done|done|].
  intros Hfl. rewrite (sk_find_spec call_cmp p a st w Hst Hfl Ho) in Ef. congruence.
Qed.
End find.

(** C29. [OPENSSL_sk_find] gives the index of the first element equal to [p] and 1, and 0
    when there is none: by pointer when the stack has no comparison function, and by the
    comparison function otherwise, [NULL] being never found then. On a stack that is
    marked as sorted, and is, the binary search gives the same first index as the search
    from the start. *)
Theorem OPENSSL_sk_find_first {U} (call_cmp : OPENSSL_sk_call_cmp_func) sk p l rest s f (w : sk_world U) :
  sk <> NULL -> (f <> NULL -> CmpOrder (call_cmp f)) -> (s <> 0 -> ascending (call_cmp f) l) ->
  stacks w !! sk = Some (stk l rest s (lenZ l + lenZ rest) f) ->
  OPENSSL_sk_find sk p call_cmp w
  = Some (index_result
            (if f =? NULL then first_index (fun x => x =? p) l
             else if p =? NULL then None
             else first_index (fun x => call_cmp f p x =? 0) l), w).
Proof.
  intros Hsk Ho Hs Hst.
  pose proof (sk_find_spec sk Hsk call_cmp p (mk_vec l s (lenZ l + lenZ rest) f)
    (stk l rest s (lenZ l + lenZ rest) f) w ltac:(by exists rest) Hs Ho) as E.
  by rewrite (set_stack_same sk _ w Hst) in E.
Qed.

Lemma OPENSSL_sk_find_first_witness :
  let w := mk_sk_world _ {[ 40 := stk [1; 3; 3; 7; 9] [None; None; None] 1 8 1 ]} [] tt in
  OPENSSL_sk_find 40 3 call_Zcompare w = Some ((1, Some 1), w).
Proof.
  intros w. apply (OPENSSL_sk_find_first call_Zcompare 40 3 [1; 3; 3; 7; 9] [None; None; None] 1 1 w).
  - done.
  - intros _. apply _.
  - intros _. repeat constructor; unfold call_Zcompare; lia.
  - reflexivity.
Defined.
