(* ===== verification/StackOps.v ===== *)
(** * Stacks: sequences of operations

    The operations of one stack against a list: what a client sees of a stack is the
    list of its elements. *)
From S2P Require Export StackFind.

Inductive sk_op :=
| Num | Value (i : Z) | Set_ (i p : Z) | Insert (p i : Z) | Push (p : Z) | Pop | Shift
| Delete (i : Z) | Delete_ptr (p : Z) | Delete_if (func data : Z) | Zero_
| Find (p : Z) | Sort_ | Is_sorted | Set_cmp_func (f : Z).

Section ops.
Context {U : Type} (call_cmp : OPENSSL_sk_call_cmp_func)
  (call_del : OPENSSL_sk_call_delete_if_func U).

Definition only {A} (m : skM U A) (res : A -> Z) : skM U (Z * option Z) :=
  r ← m; mret (res r, None).

Definition sk_step (sk : Z) (op : sk_op) : skM U (Z * option Z) :=
  match op with
  | Num => only (OPENSSL_sk_num sk) id
  | Value i => only (OPENSSL_sk_value sk i) id
  | Set_ i p => only (OPENSSL_sk_set sk i p) id
  | Insert p i => only (OPENSSL_sk_insert sk p i) id
  | Push p => only (OPENSSL_sk_push sk p) id
  | Pop => only (OPENSSL_sk_pop sk) id
  | Shift => only (OPENSSL_sk_shift sk) id
  | Delete i => only (OPENSSL_sk_delete sk i) id
  | Delete_ptr p => only (OPENSSL_sk_delete_ptr sk p) id
  | Delete_if func data => only (OPENSSL_sk_delete_if sk call_del func data) (fun _ => 0)
  | Zero_ => only (OPENSSL_sk_zero sk) (fun _ => 0)
  | Find p => OPENSSL_sk_find sk p call_cmp
  | Sort_ => only (OPENSSL_sk_sort sk call_cmp) (fun _ => 0)
  | Is_sorted => only (OPENSSL_sk_is_sorted sk) id
  | Set_cmp_func f => only (OPENSSL_sk_set_cmp_func sk f) id
  end.

Fixpoint sk_run (sk : Z) (ops : list sk_op) : skM U (list (Z * option Z)) :=
  match ops with
  | [] => mret []
  | op :: ops => r ← sk_step sk op; rs ← sk_run sk ops; mret (r :: rs)
  end.

(** ** The list *)

(** A list, the allocations to come, and the objects. *)
Record client := mk_client { vec_of : vec; outcomes : list bool; objects : U }.

Definition with_elems (l : list Z) (a : vec) : vec := mk_vec l (flag a) (cap a) (cmp a).

Definition no_memory (x : client) : bool := match outcomes x with b :: _ => b | [] => false end.

(** What an operation gives and what the list becomes. Sorting leaves the order of equal
    elements open. Finding gives the first match; but when the stack is marked as sorted
    and [sk_set] has put an element out of order, some match or none. *)
Definition list_op (op : sk_op) (x : client) (r : Z * option Z) (x' : client) : Prop :=
  let a := vec_of x in
  let becomes (v : Z) (l : list Z) :=
    r = (v, None) /\ x' = mk_client (with_elems l a) (outcomes x) (objects x) in
  let inserts (p i : Z) :=
    let '(v, a') := vec_insert (no_memory x) i p a in
    r = (v, None)
    /\ x' = mk_client a' (if negb (INT_MAX <=? lenZ (elems a)) && negb (room a) then tail (outcomes x)
                          else outcomes x) (objects x) in
  match op with
  | Num => becomes (lenZ (elems a)) (elems a)
  | Value i => becomes (default NULL (elems a !! Z.to_nat i)) (elems a)
  | Set_ i p => becomes (if i <? lenZ (elems a) then p else NULL) (<[Z.to_nat i := p]> (elems a))
  | Insert p i => inserts p i
  | Push p => inserts p (lenZ (elems a))
  | Pop => becomes (default NULL (last (elems a))) (removelast (elems a))
  | Shift => becomes (default NULL (head (elems a))) (tail (elems a))
  | Delete i => becomes (default NULL (elems a !! Z.to_nat i)) (delete_at i (elems a))
  | Delete_ptr p => becomes (if bool_decide (p ∈ elems a) then p else NULL) (remove_first p (elems a))
  | Delete_if func data =>
      let '(l, u) := keep_if (fun e => call_del func e data) (elems a) (objects x) in
      r = (0, None) /\ x' = mk_client (with_elems l a) (outcomes x) u
  | Zero_ => r = (0, None) /\ x' = mk_client (mk_vec [] (if lenZ (elems a) =? 0 then flag a else 0) (cap a) (cmp a))
                                     (outcomes x) (objects x)
  | Find p => is_match call_cmp p a r /\ (flag_true call_cmp a -> r = vec_find call_cmp p a) /\ x' = x
  | Sort_ => exists l, sort_result call_cmp a l /\ r = (0, None)
             /\ x' = mk_client (mk_vec l (sort_flag a) (cap a) (cmp a)) (outcomes x) (objects x)
  | Is_sorted => becomes (if negb (flag a =? 0) || (negb (cmp a =? NULL) && (lenZ (elems a) <? 2)) then 1 else 0)
                   (elems a)
  | Set_cmp_func f => r = (cmp a, None)
      /\ x' = mk_client (mk_vec (elems a) (if cmp a =? f then flag a else 0) (cap a) f) (outcomes x) (objects x)
  end.

Inductive list_run : list sk_op -> client -> list (Z * option Z) -> client -> Prop :=
| run_nil x : list_run [] x [] x
| run_cons op ops x r x1 rs x2 :
    list_op op x r x1 -> list_run ops x1 rs x2 -> list_run (op :: ops) x (r :: rs) x2.

(** Indices are [size_t]s. *)
Definition proper (op : sk_op) : bool :=
  match op with Value i | Insert _ i | Delete i | Set_ i _ => 0 <=? i | _ => true end.

(** ** One operation *)

Context (sk : Z) (Hsk : sk <> NULL) (Horder : forall f, f <> NULL -> CmpOrder (call_cmp f)).
Implicit Types w : sk_world U.

Definition client_of (a : vec) w : client := mk_client a (sk_oom w) (user w).

Lemma with_fewer l a : (length l <= length (elems a))%nat -> vec_ok a -> vec_ok (with_elems l a).
Proof. intros Hl Hok. unfold vec_ok, with_elems in *. cbn [elems flag cap cmp]. lia. Qed.

Lemma length_delete_at i l : (length (delete_at i l) <= length l)%nat.
Proof. unfold delete_at. rewrite length_app, length_take, length_drop. lia. Qed.

Lemma length_removelast (l : list Z) : (length (removelast l) <= length l)%nat.
Proof. destruct l as [|x l _] using rev_ind; [done|]. rewrite removelast_last, length_app. lia. Qed.

Lemma sorted_ok a l : vec_ok a -> sort_result call_cmp a l -> vec_ok (mk_vec l (sort_flag a) (cap a) (cmp a)).
Proof.
  intros Hok [Hp _]. apply Permutation_length in Hp. unfold sort_flag, vec_ok in *. cbn [elems flag cap cmp]. rewrite Hp.
  destruct (Z.eqb_spec (cmp a) NULL); tauto.
Qed.

Lemma recompared_ok a f : vec_ok a -> vec_ok (mk_vec (elems a) (if cmp a =? f then flag a else 0) (cap a) f).
Proof.
  intros Hok. unfold vec_ok in *. cbn [elems flag cap cmp]. destruct (Z.eqb_spec (cmp a) f) as [<- | _]; [done|].
  destruct Hok as (? & ? & ? & _). auto.
Qed.

(** The list operations keep the bounds. *)
Lemma list_op_ok op x r x' : list_op op x r x' -> vec_ok (vec_of x) -> vec_ok (vec_of x').
Proof.
  intros Ho Hok. destruct op; cbn [list_op] in *;
    try (destruct Ho as [_ ->]; cbn [vec_of]; apply with_fewer; try done;
         solve [reflexivity|rewrite length_insert; reflexivity|apply length_removelast|apply length_delete_at
               |apply length_remove_first|destruct (elems (vec_of x)); cbn; lia]);
    try (match type of Ho with context [vec_insert ?b ?i ?p ?a] =>
           pose proof (vec_insert_ok b i p a Hok) as Hi; destruct (vec_insert b i p a) as [v a'] end;
         by destruct Ho as [_ ->]).
  - pose proof (length_keep_if (fun e => call_del func e data) (elems (vec_of x)) (objects x)) as Hl.
    destruct (keep_if _ _ _) as [l u]. destruct Ho as [_ ->]. by apply with_fewer.
  - destruct Ho as [_ ->]. cbn [vec_of]. revert Hok. unfold vec_ok. cbn.
    destruct (_ =? 0); unfold INT_MAX, kMinSize in *; lia.
  - by destruct Ho as (_ & _ & ->).
  - destruct Ho as (l & Hs & _ & ->). by apply sorted_ok.
  - destruct Ho as [_ ->]. by apply recompared_ok.
Qed.

(** ** The mark of being sorted *)

Lemma ascending_sublist (c : Z -> Z -> Z) l1 l2 : l1 `sublist_of` l2 -> ascending c l2 -> ascending c l1.
Proof.
  induction 1 as [|x l1 l2 Hl IH|x l1 l2 Hl IH]; intros Hs; [constructor| |].
  - inversion Hs; subst. constructor; [by apply IH|]. rewrite Forall_forall in *. intros y Hy. by eauto using elem_of_sublist.
  - inversion Hs; subst. by apply IH.
Qed.

Lemma flag_fewer l a : l `sublist_of` elems a -> flag_true call_cmp a -> flag_true call_cmp (with_elems l a).
Proof. intros Hl Hf E. by eapply ascending_sublist, Hf. Qed.

Lemma sublist_delete_at i l : delete_at i l `sublist_of` l.
Proof.
  unfold delete_at. rewrite <- (take_drop (Z.to_nat i) l) at 3. apply sublist_app; [done|].
  rewrite <- (Nat.add_1_r (Z.to_nat i)), <- drop_drop. apply sublist_drop.
Qed.

Lemma sublist_remove_first p l : remove_first p l `sublist_of` l.
Proof. induction l as [|x l IH]; cbn; [done|]. destruct (x =? p); by constructor. Qed.

Lemma sublist_keep_if (g : Z -> U -> Z * U) l u : (keep_if g l u).1 `sublist_of` l.
Proof.
  revert u. induction l as [|x l IH]; intros u; cbn; [done|]. destruct (g x u) as [r u'].
  specialize (IH u'). destruct (keep_if g l u') as [kept u'']. cbn in *. destruct (r =? 0); by constructor.
Qed.

Lemma sublist_tail (l : list Z) : tail l `sublist_of` l.
Proof. destruct l; cbn; [done|by constructor]. Qed.

Lemma sublist_removelast (l : list Z) : removelast l `sublist_of` l.
Proof.
  destruct l as [|x l _] using rev_ind; [done|]. rewrite removelast_last. by apply sublist_inserts_r.
Qed.

Lemma flag_inserted fails i p a : flag_true call_cmp a -> flag_true call_cmp (vec_insert fails i p a).2.
Proof. intros Hf. unfold vec_insert. destruct (refused fails a); [done|]. by intros E. Qed.

Lemma flag_sorted a l :
  flag_true call_cmp a -> sort_result call_cmp a l -> flag_true call_cmp (mk_vec l (sort_flag a) (cap a) (cmp a)).
Proof.
  intros Hf [Hp Hs]. unfold sort_flag, flag_true in *. cbn [elems flag cap cmp].
  destruct (Z.eqb_spec (cmp a) NULL) as [Ec|Ec]; cbn [orb] in Hs; [by subst l|].
  intros _. destruct (Z.eqb_spec (flag a) 0) as [E|E]; cbn [negb] in Hs; [done|]. subst l. by apply Hf.
Qed.

Definition sets (op : sk_op) : bool := match op with Set_ _ _ => true | _ => false end.

(** Only [sk_set] can make the mark false. *)
Lemma list_op_flag op x r x' :
  sets op = false -> list_op op x r x' -> flag_true call_cmp (vec_of x) -> flag_true call_cmp (vec_of x').
Proof.
  intros Hp Ho Hf. destruct op; cbn [sets list_op] in *; try done;
    try (destruct Ho as [_ ->]; cbn [vec_of]; apply flag_fewer; try done;
         solve [reflexivity|apply sublist_removelast|apply sublist_tail|apply sublist_delete_at|apply sublist_remove_first]);
    try (match type of Ho with context [vec_insert ?b ?i ?p ?a] =>
           pose proof (flag_inserted b i p a Hf) as Hi; destruct (vec_insert b i p a) as [v a'] end;
         by destruct Ho as [_ ->]).
  - pose proof (sublist_keep_if (fun e => call_del func e data) (elems (vec_of x)) (objects x)) as Hl.
    destruct (keep_if _ _ _) as [l u]. destruct Ho as [_ ->]. by apply flag_fewer.
  - destruct Ho as [_ ->]. intros _. constructor.
  - by destruct Ho as (_ & _ & ->).
  - destruct Ho as (l & Hs & _ & ->). by apply flag_sorted.
  - destruct Ho as [_ ->]. unfold flag_true in *. cbn [vec_of elems flag cap cmp].
    by destruct (Z.eqb_spec (cmp (vec_of x)) f) as [<- | _].
Qed.

(** One operation on a stack that holds [a] gives what the list gives. *)
Definition step_agrees (op : sk_op) (a : vec) (st : stack_st) w : Prop :=
  exists r st' x',
    sk_step sk op (set_stack sk st w)
    = Some (r, set_stack sk st' (mk_sk_world _ (stacks w) (outcomes x') (objects x')))
    /\ list_op op (client_of a w) r x' /\ holds (vec_of x') st'.

Lemma only_some {A} (m : skM U A) res w v w' : m w = Some (v, w') -> only m res w = Some ((res v, None), w').
Proof. intros E. unfold only. by rewrite (part_bind_some _ _ _ _ _ E). Qed.

(** An operation that leaves the objects and the allocator alone. *)
Lemma agrees {A} (m : skM U A) res op a st w v st' a' :
  sk_step sk op = only m res ->
  m (set_stack sk st w) = Some (v, set_stack sk st' w) -> holds a' st' ->
  list_op op (client_of a w) (res v, None) (client_of a' w) ->
  step_agrees op a st w.
Proof.
  intros Em E Hst Hl. exists (res v, None), st', (client_of a' w). split_and!; [|done|done].
  rewrite Em. destruct w. by apply only_some.
Qed.

Lemma insert_agrees op i p a st w m :
  sk_step sk op = only m id -> list_op op (client_of a w) = list_op (Insert p i) (client_of a w) ->
  (exists st', m (set_stack sk st w) = Some ((vec_insert (alloc_fails w) i p a).1, set_stack sk st' (insert_done a w))
               /\ holds (vec_insert (alloc_fails w) i p a).2 st') ->
  step_agrees op a st w.
Proof.
  intros Em El (st' & E & Hst'). unfold step_agrees. rewrite Em, El. cbn [list_op].
  unfold no_memory, alloc_fails in *. cbn [outcomes vec_of client_of].
  destruct (vec_insert _ i p a) as [v a']. cbn [fst snd] in *.
  eexists (v, None), st', (mk_client a' _ _). split_and!; [|done|done|done].
  erewrite only_some by exact E. unfold insert_done. by destruct w, (negb (INT_MAX <=? lenZ (elems a)) && negb (room a)).
Qed.

Lemma delete_if_agrees func dat a st w : holds a st -> step_agrees (Delete_if func dat) a st w.
Proof.
  intros Hst. destruct (delete_if_spec sk Hsk call_del func dat a st w Hst) as (st' & E & Hst').
  unfold step_agrees. cbn [sk_step list_op vec_of client_of objects].
  destruct (keep_if _ (elems a) (user w)) as [l u]. cbn [fst snd] in *.
  eexists (0, None), st', (mk_client (with_elems l a) _ u). split_and!; [|done|done|done].
  erewrite only_some by exact E. done.
Qed.

Lemma recompared_holds a R s f :
  lenZ (elems a) + lenZ R = cap a -> holds (mk_vec (elems a) s (cap a) f) (stk (elems a) R s (cap a) f).
Proof. by exists R. Qed.

Lemma set_cmp_func_spec f a R w :
  OPENSSL_sk_set_cmp_func sk f (set_stack sk (stk (elems a) R (flag a) (cap a) (cmp a)) w)
  = Some (cmp a, set_stack sk (stk (elems a) R (if cmp a =? f then flag a else 0) (cap a) f) w).
Proof.
  unfold OPENSSL_sk_set_cmp_func. sstep get_stack_set. cbn [comp stk cells].
  destruct (Z.eqb_spec (cmp a) f) as [<- | Hne]; cbn [negb].
  - unfold mbind at 1, part_bind at 1, mret at 1, part_ret at 1. by sstep update_set.
  - sstep update_set. by sstep update_set.
Qed.

Lemma sk_step_spec op a st w :
  proper op = true -> vec_ok a -> holds a st -> step_agrees op a st w.
Proof.
  intros Hp Hok Hst. pose proof Hst as (R & Est & HR).
  assert (Hsame : with_elems (elems a) a = a) by (by destruct a).
  destruct op; cbn [proper] in Hp; try apply Z.leb_le in Hp.
  - subst st. eapply agrees; [done|by apply num_spec|exact Hst|]. cbn. by rewrite Hsame.
  - subst st. eapply agrees; [done|by apply value_spec|exact Hst|]. cbn. by rewrite Hsame.
  - subst st. eapply (agrees _ id _ _ _ _ _ _ (with_elems (<[Z.to_nat i := p]> (elems a)) a));
      [done|by apply set_spec| |done]. exists R. cbn. by rewrite length_insert.
  - eapply insert_agrees; [done..|]. by apply insert_spec.
  - eapply insert_agrees; [done..|]. by apply push_spec.
  - destruct (pop_spec sk Hsk a st w Hok Hst) as (st' & E & Hst'). by eapply agrees; [done|exact E|exact Hst'|].
  - destruct (shift_spec sk Hsk a st w Hok Hst) as (st' & E & Hst'). by eapply agrees; [done|exact E|exact Hst'|].
  - destruct (delete_spec sk Hsk i a st w Hp Hok Hst) as (st' & E & Hst'). by eapply agrees; [done|exact E|exact Hst'|].
  - destruct (delete_ptr_spec sk Hsk p a st w Hok Hst) as (st' & E & Hst'). by eapply agrees; [done|exact E|exact Hst'|].
  - by apply delete_if_agrees.
  - subst st. destruct (zero_spec sk Hsk (elems a) R (flag a) (cap a) (cmp a) w) as (R' & E & HR').
    eapply (agrees _ (fun _ => 0)); [done|exact E| |by cbn]. exists R'. split; [done|]. cbn. lia.
  - destruct (sk_find_any sk Hsk call_cmp p a st w Hst) as (r & E & Hr & Hfl); [auto|].
    exists r, st, (client_of a w). split_and!; [|by split_and!|done]. cbn [sk_step]. rewrite E. by destruct w.
  - destruct (sort_spec call_cmp sk a st w Hsk Hok Hst) as (l & st' & E & Hl & Hst'); [auto|].
    eapply (agrees _ (fun _ => 0)); [done|exact E|exact Hst'|]. by exists l.
  - subst st. eapply agrees; [done| |exact Hst|].
    + unfold OPENSSL_sk_is_sorted. rewrite (proj2 (Z.eqb_neq sk NULL) Hsk). by sstep get_stack_set.
    + cbn. by rewrite Hsame.
  - subst st. eapply agrees; [done|apply set_cmp_func_spec|by apply recompared_holds|done].
Qed.

(** ** A sequence *)

Lemma sk_run_spec ops : forall a st w,
  vec_ok a -> forallb proper ops = true -> holds a st ->
  exists rs st' x',
    sk_run sk ops (set_stack sk st w)
    = Some (rs, set_stack sk st' (mk_sk_world _ (stacks w) (outcomes x') (objects x')))
    /\ list_run ops (client_of a w) rs x' /\ holds (vec_of x') st' /\ vec_ok (vec_of x')
    /\ (forallb (fun op => negb (sets op)) ops = true -> flag_true call_cmp a -> flag_true call_cmp (vec_of x')).
Proof.
  induction ops as [|op ops IH]; intros a st w Hg Hp Hst.
  { exists [], st, (client_of a w). split_and!; [by destruct w|constructor|done|done|done]. }
  apply andb_true_iff in Hp as [Hp1 Hp2].
  destruct (sk_step_spec op a st w Hp1 Hg Hst) as (r & st1 & x1 & E1 & Ho1 & Hst1).
  pose proof (list_op_ok op _ _ _ Ho1 Hg) as Hg1.
  destruct x1 as [a1 o1 u1]. cbn [vec_of outcomes objects] in *.
  destruct (IH a1 st1 (mk_sk_world _ (stacks w) o1 u1) Hg1 Hp2 Hst1) as (rs & st2 & x2 & E2 & Ho2 & Hst2 & Hg2 & Hfl).
  exists (r :: rs), st2, x2. split_and!; [|by econstructor|done|done|].
  - cbn [sk_run]. rewrite (part_bind_some _ _ _ _ _ E1), (part_bind_some _ _ _ _ _ E2). done.
  - cbn [forallb]. intros [Hs1 Hs2]%andb_true_iff Hf. apply Hfl; [done|].
    by apply (list_op_flag op _ _ _ ltac:(by apply negb_true_iff) Ho1).
Qed.
End ops.

(** C15. What a client sees of a stack is a list: any sequence of operations on a stack that
    holds a list, with comparison functions that are orders and indices that are not
    negative (they are [size_t]s), runs to its end, whatever allocations fail, without reading or writing outside the array, reading an
    indeterminate cell or failing an assertion, and each gives what the operation on the
    list gives. An insertion that fails leaves the list as it was, deletions keep the
    order, and the other stacks are as they were. A search gives the first match on every
    stack whose mark of being sorted is true, and the mark stays true without [sk_set].
    [sk_set] does not clear the mark: when it has put an element out of order in a sorted
    stack, a search gives a match, not always the first, or misses. *)
Theorem stack_refines_list {U} call_cmp (call_del : OPENSSL_sk_call_delete_if_func U) sk a st w ops :
  sk <> NULL -> (forall f, f <> NULL -> CmpOrder (call_cmp f)) ->
  stacks w !! sk = Some st -> holds a st -> vec_ok a -> forallb proper ops = true ->
  exists rs st' x',
    sk_run call_cmp call_del sk ops w
    = Some (rs, mk_sk_world _ (<[sk := st']> (stacks w)) (outcomes x') (objects x'))
    /\ list_run call_cmp call_del ops (client_of a w) rs x' /\ holds (vec_of x') st'
    /\ (forallb (fun op => negb (sets op)) ops = true -> flag_true call_cmp a -> flag_true call_cmp (vec_of x')).
Proof.
  intros Hsk Ho Hw Hst Hok Hp.
  destruct (sk_run_spec call_cmp call_del sk Hsk Ho ops a st w Hok Hp Hst) as (rs & st' & x' & E & Hr & Hst' & _ & Hfl).
  rewrite (set_stack_same sk st w Hw) in E. by exists rs, st', x'.
Qed.

Definition even_elements : OPENSSL_sk_call_delete_if_func (list Z) := fun _ e _ u =>
  if Z.even e then (1, u ++ [e]) else (0, u).

Definition some_ops : list sk_op :=
  [Push 5; Push 8; Insert 2 0; Push 7; Insert 4 1; Sort_; Find 7; Is_sorted; Delete 0; Delete_if 1 0;
   Push 3; Pop; Delete_ptr 5; Sort_; Set_ 0 8; Find 8; Shift; Value 3; Num; Zero_; Set_cmp_func 2].

Definition some_vec : vec := mk_vec [9; 1] 0 4 1.
Definition some_stack : sk_world (list Z) :=
  mk_sk_world _ {[ 40 := stk [9; 1] [None; None] 0 4 1 ]} [true] [].

Example some_ops_run :
  option_map fst (sk_run call_Zcompare even_elements 40 some_ops some_stack)
  = Some [(3, None); (0, None); (4, None); (5, None); (6, None); (0, None); (1, Some 4); (1, None); (1, None);
          (0, None); (4, None); (3, None); (5, None);
          (0, None); (8, None); (1, Some 0); (8, None); (0, None); (1, None); (0, None); (1, None)].
Proof. vm_compute. reflexivity. Qed.

Lemma stack_refines_list_witness :
  exists rs st' x',
    sk_run call_Zcompare even_elements 40 some_ops some_stack
    = Some (rs, mk_sk_world _ (<[40 := st']> (stacks some_stack)) (outcomes x') (objects x'))
    /\ list_run call_Zcompare even_elements some_ops (client_of some_vec some_stack) rs x'
    /\ holds (vec_of x') st'
    /\ (forallb (fun op => negb (sets op)) some_ops = true -> flag_true call_Zcompare some_vec ->
        flag_true call_Zcompare (vec_of x')).
Proof.
  apply (stack_refines_list call_Zcompare even_elements 40 some_vec (stk [9; 1] [None; None] 0 4 1)).
  - done.
  - intros f _. apply _.
  - reflexivity.
  - exists [None; None]. by split.
  - unfold vec_ok, kMinSize, INT_MAX. cbn. lia.
  - reflexivity.
Defined.
