(* ===== verification/StackCopy.v ===== *)
(** * Stacks: making, copying and freeing them

    What is allocated and freed, when allocations or the copies of elements fail too. *)
From S2P Require Export StackOps.

(** The copies made of a list of elements, up to the first failure, and whether there
    was none. *)
Fixpoint copy_all {U} (copy : Z -> U -> Z * U) (l : list Z) (u : U) : list Z * bool * U :=
  match l with
  | [] => ([], true, u)
  | x :: l =>
      if x =? NULL then
        let '(copies, ok, u) := copy_all copy l u in (NULL :: copies, ok, u)
      else
        let '(c, u) := copy x u in
        if c =? NULL then ([], false, u)
        else let '(copies, ok, u) := copy_all copy l u in (c :: copies, ok, u)
  end.

(** Freeing those of a list of elements that are not [NULL]. *)
Definition free_all {U} (free : Z -> U -> U) (l : list Z) (u : U) : U :=
  foldl (fun u x => if x =? NULL then u else free x u) u l.

Section copy.
Context {U : Type} (malloc : gmap Z stack_st -> Z)
  (Hmalloc : forall h, malloc h <> NULL /\ h !! malloc h = None).
Implicit Types w : sk_world U.

(** ** Making stacks *)

Lemma zalloc_spec w :
  zalloc_stack malloc w
  = if alloc_fails w then Some (NULL, alloc_done w)
    else Some (malloc (stacks w), set_stack (malloc (stacks w)) (mk_stack 0 [] 0 0 NULL) (alloc_done w)).
Proof.
  unfold zalloc_stack. rewrite (part_bind_some _ _ _ _ _ (sk_alloc_ok_spec w)).
  by destruct (alloc_fails w).
Qed.

Lemma free_stack_set p st w :
  stacks w !! p = None -> free_stack p (set_stack p st w) = Some (tt, w).
Proof.
  intros Hp. unfold free_stack. sstep get_stack_set. unfold modify, set_stack. cbn.
  rewrite delete_insert_id by done. by destruct w.
Qed.

Lemma get_stack_other p q st w : p <> q -> get_stack q (set_stack p st w) = option_map (fun s => (s, set_stack p st w)) (stacks w !! q).
Proof. intros Hpq. unfold get_stack. cbn. rewrite lookup_insert_ne by done. by destruct (stacks w !! q). Qed.

(** Two allocations, the first one undone when the second fails. *)
Definition second_fails w : bool := alloc_fails (alloc_done w).
Definition both_done w : sk_world U := alloc_done (alloc_done w).

Lemma alloc_ok_set p st w :
  sk_alloc_ok (set_stack p st w) = Some (negb (alloc_fails w), set_stack p st (alloc_done w)).
Proof. apply (sk_alloc_ok_spec (set_stack p st w)). Qed.

Definition empty_stack (f : Z) : stack_st := stk [] (replicate 4 (Some NULL)) 0 kMinSize f.

Lemma new_spec f w :
  let p := malloc (stacks w) in
  OPENSSL_sk_new malloc f w
  = if alloc_fails w then Some (NULL, alloc_done w)
    else if second_fails w then Some (NULL, both_done w)
    else Some (p, set_stack p (empty_stack f) (both_done w)).
Proof.
  destruct (Hmalloc (stacks w)) as [Hn Hf]. unfold OPENSSL_sk_new, second_fails, both_done. cbv zeta.
  pose proof (zalloc_spec w) as Ez.
  destruct (alloc_fails w); rewrite (part_bind_some _ _ _ _ _ Ez); [done|].
  rewrite (proj2 (Z.eqb_neq _ _) Hn), (part_bind_some _ _ _ _ _ (alloc_ok_set _ _ _)).
  destruct (alloc_fails (alloc_done w)); cbn [negb].
  - erewrite part_bind_some by (by apply free_stack_set). done.
  - sstep update_set. sstep update_set. by sstep update_set.
Qed.

(** [sk_dup]: the same elements, flag, capacity and comparison function. *)
Lemma dup_spec sk a st w :
  sk <> NULL -> stacks w !! sk = Some st -> holds a st ->
  let p := malloc (stacks w) in
  OPENSSL_sk_dup malloc sk w
  = if alloc_fails w then Some (NULL, alloc_done w)
    else if second_fails w then Some (NULL, both_done w)
    else Some (p, set_stack p st (both_done w)).
Proof.
  intros Hsk Hw (R & Est & HR). destruct (Hmalloc (stacks w)) as [Hn Hf].
  unfold OPENSSL_sk_dup, second_fails, both_done. cbv zeta. rewrite (proj2 (Z.eqb_neq _ _) Hsk).
  pose proof (zalloc_spec w) as Ez.
  destruct (alloc_fails w); rewrite (part_bind_some _ _ _ _ _ Ez); [done|].
  assert (Hne : malloc (stacks w) <> sk) by (intros E; rewrite E in Hf; congruence).
  rewrite (proj2 (Z.eqb_neq _ _) Hn).
  erewrite part_bind_some by (rewrite get_stack_other by done; cbn [stacks alloc_done]; rewrite Hw; done).
  rewrite (part_bind_some _ _ _ _ _ (alloc_ok_set _ _ _)).
  destruct (alloc_fails (alloc_done w)); cbn [negb].
  - unfold OPENSSL_sk_free. rewrite (proj2 (Z.eqb_neq _ _) Hn).
    erewrite part_bind_some by (by apply free_stack_set). done.
  - assert (Hd : lenZ (data st) = num_alloc st).
    { rewrite Est. cbn [data num_alloc stk cells]. rewrite length_app, length_fmap. lia. }
    rewrite Hd, Z.ltb_irrefl. do 5 sstep update_set. unfold mret, part_ret. do 3 f_equal.
    rewrite take_ge by lia. by destruct st.
Qed.

(** ** Freeing elements *)

Lemma free_elements_spec (call_free : OPENSSL_sk_call_free_func U) free_func p n R s c f l2 :
  forall l1 l3 w,
    free_elements (length l2) p call_free free_func (lenZ l1)
      (set_stack p (cells n (l1 ++ l2 ++ l3) R s c f) w)
    = Some (tt, set_stack p (cells n (l1 ++ l2 ++ l3) R s c f) (set_user (free_all (call_free free_func) l2 (user w)) w)).
Proof.
  induction l2 as [|x l2 IH]; intros l1 l3 w; cbn [free_elements length].
  { cbn. by destruct w. }
  cbn [app]. erewrite part_bind_some by (apply load_cell_set; rewrite Nat2Z.id; by apply list_lookup_middle).
  specialize (IH (l1 ++ [x]) l3). rewrite length_app, <- app_assoc in IH. cbn [length app] in IH |- *.
  replace (Z.of_nat (length l1 + 1)) with (lenZ l1 + 1) in IH by lia.
  cbn [free_all foldl]. destruct (x =? NULL); cbn [negb].
  - unfold mbind, part_bind, mret, part_ret. apply IH.
  - unfold run_user. rewrite (part_bind_some _ _ _ _ _ (call_user_set _ _ _ _)). cbn [fst snd].
    rewrite IH. done.
Qed.

Lemma pop_free_spec (call_free : OPENSSL_sk_call_free_func U) free_func p a st w :
  p <> NULL -> holds a st ->
  OPENSSL_sk_pop_free_ex p call_free free_func (set_stack p st w)
  = Some (tt, mk_sk_world _ (delete p (stacks w)) (sk_oom w) (free_all (call_free free_func) (elems a) (user w))).
Proof.
  intros Hp (R & -> & _). unfold OPENSSL_sk_pop_free_ex, OPENSSL_sk_free. rewrite (proj2 (Z.eqb_neq _ _) Hp).
  sstep get_stack_set. cbn [num stk cells]. rewrite Nat2Z.id.
  pose proof (free_elements_spec call_free free_func p (lenZ (elems a)) R (flag a) (cap a) (cmp a) (elems a) [] [] w) as E.
  rewrite app_nil_r in E. rewrite (part_bind_some _ _ _ _ _ E). unfold free_stack. sstep get_stack_set.
  unfold modify, set_stack. cbn. by rewrite delete_insert_eq.
Qed.

(** ** Copying elements *)

Section deep.
Context (call_copy : OPENSSL_sk_call_copy_func U) (copy_func : Z)
  (call_free : OPENSSL_sk_call_free_func U) (free_func : Z) (p : Z) (Hp : p <> NULL)
  (R : list (option Z)) (s c f : Z).

(** What is left of copying [todo] when [made] are copies. *)
Definition copied (n : Z) (made todo : list Z) w : Z * sk_world U :=
  let '(copies, ok, u) := copy_all (call_copy copy_func) todo (user w) in
  if ok then (p, set_stack p (cells n (made ++ copies) R s c f) (set_user u w))
  else (NULL, set_user (free_all (call_free free_func) (made ++ copies) u) w).

Lemma copied_one n made y todo w :
  copied n (made ++ [y]) todo w
  = let '(copies, ok, u) := copy_all (call_copy copy_func) todo (user w) in
    if ok then (p, set_stack p (cells n (made ++ y :: copies) R s c f) (set_user u w))
    else (NULL, set_user (free_all (call_free free_func) (made ++ y :: copies) u) w).
Proof.
  unfold copied. by destruct (copy_all _ todo (user w)) as [[copies []] u]; rewrite <- app_assoc.
Qed.

Lemma undo_copies n made y todo w :
  stacks w !! p = None ->
  (_ ← free_elements (length made) p call_free free_func 0; _ ← OPENSSL_sk_free p; mret NULL)
    (set_stack p (cells n (made ++ y :: todo) R s c f) w)
  = Some (NULL, set_user (free_all (call_free free_func) made (user w)) w).
Proof.
  intros Hw.
  rewrite (part_bind_some _ _ _ _ _ (free_elements_spec call_free free_func p n R s c f made [] (y :: todo) w)).
  unfold OPENSSL_sk_free. rewrite (proj2 (Z.eqb_neq _ _) Hp).
  erewrite part_bind_some by (by apply free_stack_set). done.
Qed.

Lemma deep_copy_loop_spec n todo : forall made w,
  stacks w !! p = None ->
  deep_copy_loop (length todo) p call_copy copy_func call_free free_func (lenZ made)
    (set_stack p (cells n (made ++ todo) R s c f) w)
  = Some (copied n made todo w).
Proof.
  induction todo as [|x todo IH]; intros made w Hw; cbn [deep_copy_loop length].
  { unfold copied. by destruct w. }
  erewrite part_bind_some by (apply load_cell_set; rewrite Nat2Z.id; by apply list_lookup_middle).
  assert (IH' : forall y w', stacks w' !! p = None ->
    deep_copy_loop (length todo) p call_copy copy_func call_free free_func (lenZ made + 1)
      (set_stack p (cells n (made ++ y :: todo) R s c f) w') = Some (copied n (made ++ [y]) todo w')).
  { intros y w' Hw'. specialize (IH (made ++ [y]) w' Hw'). rewrite <- IH, length_app, <- app_assoc. cbn [length app].
    f_equal. lia. }
  unfold copied. cbn [copy_all]. destruct (Z.eqb_spec x NULL) as [-> | Hx].
  - rewrite (IH' NULL w Hw), copied_one. by destruct (copy_all _ todo (user w)) as [[copies []] u].
  - rewrite (part_bind_some _ _ _ _ _ (call_user_set _ _ _ _)).
    destruct (call_copy copy_func x (user w)) as [y u]. cbn [fst snd].
    erewrite part_bind_some by (apply store_cell_set; rewrite Nat2Z.id, length_app; cbn; lia).
    rewrite Nat2Z.id, insert_app_r_alt, Nat.sub_diag by lia. cbn [list_insert insert].
    destruct (Z.eqb_spec y NULL) as [-> | Hy].
    + rewrite (undo_copies n made NULL todo (set_user u w) Hw). by rewrite app_nil_r.
    + rewrite (IH' y (set_user u w) Hw), copied_one. cbn [user set_user].
      by destruct (copy_all _ todo u) as [[copies []] u'].
Qed.
End deep.

Lemma deep_copy_spec call_copy copy_func call_free free_func sk a st w :
  sk <> NULL -> stacks w !! sk = Some st -> holds a st ->
  let p := malloc (stacks w) in
  exists R, (lenZ (elems a) + lenZ R = cap a) /\
  OPENSSL_sk_deep_copy malloc sk call_copy copy_func call_free free_func w
  = Some (if alloc_fails w then (NULL, alloc_done w)
          else if second_fails w then (NULL, both_done w)
          else copied call_copy copy_func call_free free_func p R (flag a) (cap a) (cmp a)
                 (lenZ (elems a)) [] (elems a) (both_done w)).
Proof.
  intros Hsk Hw Hst. pose proof Hst as (R & Est & HR). exists R. split; [done|].
  destruct (Hmalloc (stacks w)) as [Hn Hf]. unfold OPENSSL_sk_deep_copy.
  pose proof (dup_spec sk a st w Hsk Hw Hst) as Ed. cbv zeta in Ed.
  destruct (alloc_fails w); [by rewrite (part_bind_some _ _ _ _ _ Ed)|].
  destruct (second_fails w); [by rewrite (part_bind_some _ _ _ _ _ Ed)|].
  rewrite (part_bind_some _ _ _ _ _ Ed), (proj2 (Z.eqb_neq _ _) Hn). sstep get_stack_set.
  rewrite (num_held a st Hst), Nat2Z.id, Est. apply (deep_copy_loop_spec _ _ _ _ _ Hn _ _ _ _ _ (elems a) []).
  done.
Qed.
End copy.

Lemma length_copy_all {U} copy l (u : U) copies u' :
  copy_all copy l u = (copies, true, u') -> length copies = length l.
Proof.
  revert u copies. induction l as [|x l IH]; intros u copies E; cbn in E; [by injection E as <- <-|].
  destruct (x =? NULL); [|destruct (copy x u) as [y u1]; destruct (y =? NULL); [done|]];
    destruct (copy_all copy l _) as [[k ok] u2] eqn:Ek; injection E as <- -> <-; cbn; f_equal; by eapply IH.
Qed.

(** C32. A deep copy is all or nothing. When an allocation fails, or the copy of an element,
    the result is [NULL], no stack is left behind and every copy already made has been
    freed, and nothing else; otherwise the result is a new stack that holds the copies in
    order, [NULL] elements staying [NULL], with the same capacity, order flag and
    comparison function. The copied stack is as it was. *)
Theorem OPENSSL_sk_deep_copy_exactly {U} malloc call_copy copy_func call_free free_func sk a st (w : sk_world U) :
  (forall h, malloc h <> NULL /\ h !! malloc h = None) ->
  sk <> NULL -> stacks w !! sk = Some st -> holds a st ->
  exists r w',
    OPENSSL_sk_deep_copy malloc sk call_copy copy_func call_free free_func w = Some (r, w')
    /\ let '(copies, ok, u) := copy_all (call_copy copy_func) (elems a) (user w) in
       if alloc_fails w || second_fails w then r = NULL /\ stacks w' = stacks w /\ user w' = user w
       else if ok then
         r = malloc (stacks w) /\ user w' = u
         /\ exists st', stacks w' = <[r := st']> (stacks w)
                        /\ holds (mk_vec copies (flag a) (cap a) (cmp a)) st'
       else r = NULL /\ stacks w' = stacks w /\ user w' = free_all (call_free free_func) copies u.
Proof.
  intros Hm Hsk Hw Hst.
  destruct (deep_copy_spec malloc Hm call_copy copy_func call_free free_func sk a st w Hsk Hw Hst) as (R & HR & E).
  rewrite E. unfold copied. cbn [user both_done alloc_done].
  destruct (copy_all _ (elems a) (user w)) as [[copies ok] u] eqn:Ec.
  destruct (alloc_fails w); [by eexists _, _|]. destruct (second_fails w); [by eexists _, _|]. cbn [orb].
  destruct ok; [|by eexists _, _]. eexists _, _. split; [done|]. split_and!; [done|done|].
  eexists. split; [done|]. exists R. cbn [app elems flag cap cmp]. pose proof (length_copy_all _ _ _ _ _ Ec) as El.
  unfold stk. rewrite El. by split.
Qed.

(** The objects are a counter and the addresses freed; an object at 7 cannot be copied. *)
Definition next_copy : OPENSSL_sk_call_copy_func (Z * list Z) := fun _ x u =>
  if x =? 7 then (NULL, u) else (u.1, (u.1 + 1, u.2)).
Definition log_free : OPENSSL_sk_call_free_func (Z * list Z) := fun _ x u => (u.1, u.2 ++ [x]).

Definition copied_world (l : list Z) : sk_world (Z * list Z) :=
  mk_sk_world _ {[ 40 := stk l [None] 0 5 1 ]} [] (100, []).

Example deep_copy_fails :
  option_map (fun r => (r.1, user r.2)) (OPENSSL_sk_deep_copy bump 40 next_copy 1 log_free 2 (copied_world [5; 0; 6; 7]))
  = Some (NULL, (102, [100; 101])).
Proof. vm_compute. reflexivity. Qed.

Lemma OPENSSL_sk_deep_copy_exactly_witness :
  exists r w',
    OPENSSL_sk_deep_copy bump 40 next_copy 1 log_free 2 (copied_world [5; 0; 6; 8]) = Some (r, w')
    /\ r = 41 /\ user w' = (103, [])
    /\ exists st', stacks w' = <[r := st']> (stacks (copied_world [5; 0; 6; 8]))
                   /\ holds (mk_vec [100; 0; 101; 102] 0 5 1) st'.
Proof.
  apply (OPENSSL_sk_deep_copy_exactly bump next_copy 1 log_free 2 40 (mk_vec [5; 0; 6; 8] 0 5 1)
           (stk [5; 0; 6; 8] [None] 0 5 1) (copied_world [5; 0; 6; 8])).
  - apply bump_fresh.
  - done.
  - reflexivity.
  - exists [None]. by split.
Defined.

(** ** From the start *)

Lemma empty_ok f : vec_ok (mk_vec [] 0 kMinSize f) /\ holds (mk_vec [] 0 kMinSize f) (empty_stack f).
Proof.
  split; [unfold vec_ok, kMinSize, INT_MAX; cbn; lia|]. by exists (replicate 4 (Some NULL)).
Qed.

(** C33. The sizes of a stack: whatever is done with a new stack, by indices that are
    not negative and comparison functions that are orders, it never has more than
    [INT_MAX] elements, the array has the [num_alloc] cells it is said to have, always
    with one to spare, and its size in bytes does not overflow. *)
Theorem stack_stays_bounded {U} malloc call_cmp (call_del : OPENSSL_sk_call_delete_if_func U) f p (w w1 : sk_world U) ops :
  (forall h, malloc h <> NULL /\ h !! malloc h = None) ->
  (forall f, f <> NULL -> CmpOrder (call_cmp f)) ->
  OPENSSL_sk_new malloc f w = Some (p, w1) -> p <> NULL ->
  forallb proper ops = true ->
  exists rs w2 st,
    sk_run call_cmp call_del p ops w1 = Some (rs, w2) /\ stacks w2 !! p = Some st
    /\ 0 <= num st <= INT_MAX /\ num st < num_alloc st /\ lenZ (data st) = num_alloc st
    /\ kMinSize <= num_alloc st <= 2 * INT_MAX /\ num_alloc st * sizeof_ptr < 2 ^ 64.
Proof.
  intros Hm Ho Hnew Hp Hall. rewrite (new_spec malloc Hm) in Hnew. destruct (alloc_fails w); [congruence|].
  destruct (second_fails w); [congruence|]. injection Hnew as -> <-. destruct (empty_ok f) as [Hok Hst].
  set (w0 := both_done w) in *.
  destruct (sk_run_spec call_cmp call_del p Hp Ho ops _ _ w0 Hok Hall Hst)
    as (rs & st & x & E & _ & Hx & (Hc & Hl & Hm' & _) & _).
  eexists rs, _, st. split; [exact E|]. split; [apply lookup_insert_eq|].
  pose proof (num_held _ _ Hx) as En. destruct Hx as (R & -> & HR). rewrite En.
  cbn [num_alloc data stk cells]. rewrite length_app, length_fmap. unfold INT_MAX, sizeof_ptr in *. lia.
Qed.

Lemma stack_stays_bounded_witness :
  exists rs w2 st,
    sk_run call_Zcompare even_elements 1 some_ops
      (mk_sk_world _ {[ 1 := empty_stack 1 ]} [true] []) = Some (rs, w2) /\ stacks w2 !! 1 = Some st
    /\ 0 <= num st <= INT_MAX /\ num st < num_alloc st /\ lenZ (data st) = num_alloc st
    /\ kMinSize <= num_alloc st <= 2 * INT_MAX /\ num_alloc st * sizeof_ptr < 2 ^ 64.
Proof.
  apply (stack_stays_bounded bump call_Zcompare even_elements 1 1 (mk_sk_world _ ∅ [false; false; true] [])).
  - apply bump_fresh.
  - intros f _. apply _.
  - reflexivity.
  - done.
  - reflexivity.
Defined.
