(* ===== verification/Md32.v ===== *)
(** * BoringSSL: hashing a stream of bytes (crypto/fipsmodule/digest/md32_common.h)

    The part shared by the hash functions on 32-bit words: a context collects input in a
    block and hands whole blocks to the function that hashes them. Buffers are lists of
    bytes; a copy, a load or a store outside a buffer, and an assertion that fails, give
    no result. The conversions of words are those of crypto/internal.h on a
    little-endian machine. *)
From S2P Require Export Prelude.

Notation lenZ l := (Z.of_nat (length l)).

(** ** Words (crypto/internal.h) *)

(** [__builtin_bswap32] *)
Definition CRYPTO_bswap4 (x : Z) : Z := le_combine (rev (le_split 4 x)).

(** [memcpy(dst + off, src, n)] *)
Definition memcpy (dst : list Z) (off : Z) (src : list Z) (n : Z) : option (list Z) :=
  if (0 <=? off) && (0 <=? n) && (off + n <=? lenZ dst) && (n <=? lenZ src) then
    Some (take (Z.to_nat off) dst ++ take (Z.to_nat n) src ++ drop (Z.to_nat (off + n)) dst)
  else None.

(** [memset(dst + off, 0, n)] *)
Definition memzero (dst : list Z) (off n : Z) : option (list Z) :=
  memcpy dst off (replicate (Z.to_nat n) 0) n.

Definition CRYPTO_load_u32_le (inp : list Z) : option Z :=
  if 4 <=? lenZ inp then Some (le_combine (take 4 inp)) else None.
Definition CRYPTO_load_u32_be (inp : list Z) : option Z :=
  v ← CRYPTO_load_u32_le inp; Some (CRYPTO_bswap4 v).

(** The buffer after a store at [off]. *)
Definition CRYPTO_store_u32_le (out : list Z) (off v : Z) : option (list Z) :=
  memcpy out off (le_split 4 v) 4.
Definition CRYPTO_store_u32_be (out : list Z) (off v : Z) : option (list Z) :=
  CRYPTO_store_u32_le out off (CRYPTO_bswap4 v).

(** Shifts by 1 to 31. *)
Definition CRYPTO_rotl_u32 (value shift : Z) : Z :=
  Z.lor (u32 (Z.shiftl value shift)) (Z.shiftr value (Z.land (- shift) 31)).
Definition CRYPTO_rotr_u32 (value shift : Z) : Z :=
  Z.lor (Z.shiftr value shift) (u32 (Z.shiftl value (Z.land (- shift) 31))).

(** ** The context *)

Record md32_state := mk_md32 {
  md_h : list Z; Nl : Z; Nh : Z; md_data : list Z; md_num : Z; md_len : Z
}.

(** The block function: the new [state] from [num_blocks] blocks at [data]. *)
Definition crypto_md32_block_func : Type := list Z -> list Z -> Z -> option (list Z).

Section md32.
Variable block_func : crypto_md32_block_func.

(** From [n = len / block_size] on. *)
Definition update_blocks (block_size : Z) (c : md32_state) (inp : list Z) (len : Z)
    : option md32_state :=
  let n := len / block_size in
  '(h, inp, len) ←
    (if 0 <? n then
       h ← block_func (md_h c) inp n;
       let n := n * block_size in
       Some (h, drop (Z.to_nat n) inp, len - n)
     else Some (md_h c, inp, len));
  if negb (len =? 0) then
    d ← memcpy (md_data c) 0 inp len;
    Some (mk_md32 h (Nl c) (Nh c) d (u32 len) (md_len c))
  else Some (mk_md32 h (Nl c) (Nh c) (md_data c) (md_num c) (md_len c)).

Definition crypto_md32_update (block_size : Z) (c : md32_state) (inp : list Z) (len : Z)
    : option md32_state :=
  if len =? 0 then Some c
  else
    let l := u32 (Nl c + u32 (Z.shiftl (u32 len) 3)) in
    let Nh_ := if l <? Nl c then u32 (Nh c + 1) else Nh c in
    let Nh_ := u32 (Nh_ + u32 (Z.shiftr len 29)) in
    let n := md_num c in
    if negb (n =? 0) then
      if (block_size <=? len) || (block_size <=? u64 (len + n)) then
        d ← memcpy (md_data c) n inp (block_size - n);
        h ← block_func (md_h c) d 1;
        let n := block_size - n in
        d ← memzero d 0 block_size;
        update_blocks block_size (mk_md32 h l Nh_ d 0 (md_len c)) (drop (Z.to_nat n) inp) (len - n)
      else
        d ← memcpy (md_data c) n inp len;
        Some (mk_md32 (md_h c) l Nh_ d (u32 (n + u32 len)) (md_len c))
    else update_blocks block_size (mk_md32 (md_h c) l Nh_ (md_data c) n (md_len c)) inp len.

Definition crypto_md32_final (block_size : Z) (c : md32_state) (is_big_endian : bool)
    : option md32_state :=
  let n := md_num c in
  _ ← guard (n < block_size);
  d ← memcpy (md_data c) n [0x80] 1;
  let n := n + 1 in
  '(h, d, n) ←
    (if block_size - 8 <? n then
       d ← memzero d n (block_size - n);
       h ← block_func (md_h c) d 1;
       Some (h, d, 0)
     else Some (md_h c, d, n));
  d ← memzero d n (block_size - 8 - n);
  d ← (if is_big_endian then
         d ← CRYPTO_store_u32_be d (block_size - 8) (Nh c);
         CRYPTO_store_u32_be d (block_size - 4) (Nl c)
       else
         d ← CRYPTO_store_u32_le d (block_size - 8) (Nl c);
         CRYPTO_store_u32_le d (block_size - 4) (Nh c));
  h ← block_func h d 1;
  d ← memzero d 0 block_size;
  Some (mk_md32 h (Nl c) (Nh c) d 0 (md_len c)).
End md32.

(** ** What the block functions promise

    A block function hashes one block of [block_size] bytes after the other, each with
    [compress]. *)
Class BlockFunc (block_func : crypto_md32_block_func) (block_size : nat)
    (compress : list Z -> list Z -> list Z) (state_ok : list Z -> Prop) : Prop := {
  block_size_ok : (8 < block_size)%nat /\ Z.of_nat block_size < 2 ^ 31;
  compress_ok : forall h b, state_ok h -> bytes b -> length b = block_size -> state_ok (compress h b);
  block_func_none : forall h inp, state_ok h -> block_func h inp 0 = Some h;
  block_func_more : forall h inp n, state_ok h -> bytes inp -> 0 < n -> n * Z.of_nat block_size <= lenZ inp ->
    block_func h inp n = block_func (compress h (take block_size inp)) (drop block_size inp) (n - 1)
}.
