(* ===== verification/Md32Spec.v ===== *)
(** * Hashing a stream: the context against the message so far

    A hash of this family is the compression of the blocks of the padded message, one
    after the other. Whatever the pieces the message comes in, the context has hashed the
    whole blocks of what came, and holds the rest. *)
From S2P Require Export Md32.

(** ** Buffers *)

Lemma memcpy_spec dst off src n :
  0 <= off -> 0 <= n -> off + n <= lenZ dst -> n <= lenZ src ->
  memcpy dst off src n
  = Some (take (Z.to_nat off) dst ++ take (Z.to_nat n) src ++ drop (Z.to_nat (off + n)) dst).
Proof. intros. unfold memcpy. rewrite !(proj2 (Z.leb_le _ _)) by done. done. Qed.

(** Writing after a prefix. *)
Lemma memcpy_after d1 d2 src (n : Z) :
  0 <= n -> n <= lenZ d2 -> n <= lenZ src ->
  memcpy (d1 ++ d2) (lenZ d1) src n = Some (d1 ++ take (Z.to_nat n) src ++ drop (Z.to_nat n) d2).
Proof.
  intros Hn Hd Hs. rewrite memcpy_spec by (rewrite ?length_app; lia). rewrite Nat2Z.id, take_app_length.
  replace (Z.to_nat (lenZ d1 + n)) with (length d1 + Z.to_nat n)%nat by lia.
  by rewrite <- drop_drop, drop_app_length.
Qed.

Definition zeros (n : nat) : list Z := replicate n 0.

Lemma memzero_after d1 d2 (n : Z) :
  0 <= n -> n <= lenZ d2 ->
  memzero (d1 ++ d2) (lenZ d1) n = Some (d1 ++ zeros (Z.to_nat n) ++ drop (Z.to_nat n) d2).
Proof.
  intros Hn Hd. unfold memzero. rewrite memcpy_after by (rewrite ?length_replicate; lia).
  rewrite take_ge by (rewrite length_replicate; lia). done.
Qed.

Lemma memzero_all d n : n = lenZ d -> memzero d 0 n = Some (zeros (length d)).
Proof.
  intros ->. pose proof (memzero_after [] d (lenZ d)) as E. cbn [app length] in E. change (Z.of_nat 0) with 0 in E.
  rewrite E, Nat2Z.id, drop_all, app_nil_r by lia. done.
Qed.

Lemma bytes_zeros n : bytes (zeros n).
Proof. apply Forall_replicate. unfold is_byte. lia. Qed.

Lemma take_bytes n l : bytes l -> bytes (take n l).
Proof. apply Forall_take. Qed.

Lemma drop_bytes n l : bytes l -> bytes (drop n l).
Proof. apply Forall_drop. Qed.

#[export] Hint Resolve bytes_zeros take_bytes drop_bytes : cint.

(** The bytes of a 32-bit word in big-endian order. *)
Definition be_split (n : nat) (z : Z) : list Z := rev (le_split n z).

Lemma bytes_be_split n z : bytes (be_split n z).
Proof. unfold be_split, bytes. apply Forall_rev, le_split_bytes. Qed.

Lemma length_be_split n z : length (be_split n z) = n.
Proof. unfold be_split. rewrite length_rev. apply length_le_split. Qed.

Lemma split_bswap v : le_split 4 (CRYPTO_bswap4 v) = be_split 4 v.
Proof.
  unfold CRYPTO_bswap4, be_split.
  replace 4%nat with (length (rev (le_split 4 v))) at 1 by (by rewrite length_rev, length_le_split).
  apply le_split_combine. unfold bytes. apply Forall_rev, le_split_bytes.
Qed.

Lemma le_split_app a b lo hi :
  0 <= lo < 2 ^ (8 * Z.of_nat a) -> le_split (a + b) (hi * 2 ^ (8 * Z.of_nat a) + lo) = le_split a lo ++ le_split b hi.
Proof.
  revert lo. induction a as [|a IH]; intros lo Hlo.
  { cbn [le_split app Nat.add]. f_equal. change (2 ^ (8 * Z.of_nat 0)) with 1 in *. lia. }
  assert (Hp : 2 ^ (8 * Z.of_nat (S a)) = 256 * 2 ^ (8 * Z.of_nat a)).
  { replace (8 * Z.of_nat (S a)) with (8 + 8 * Z.of_nat a) by lia. rewrite Z.pow_add_r by lia. done. }
  rewrite Hp in *. set (q := 2 ^ (8 * Z.of_nat a)) in *. clearbody q.
  cbn [le_split app Nat.add]. 
  replace (hi * (256 * q) + lo) with (lo + hi * q * 256) by lia.
  rewrite Z.mod_add, Z.div_add by lia. f_equal. rewrite Z.add_comm. apply IH. div_lia.
Qed.

(** ** The hash of a message *)

Section spec.
Context (bs : nat) (compress : list Z -> list Z -> list Z).

(** The compression of the first [n] blocks of [l]. *)
Fixpoint hash_blocks (n : nat) (h l : list Z) : list Z :=
  match n with
  | O => h
  | S n => hash_blocks n (compress h (take bs l)) (drop bs l)
  end.

(** The message, a one bit, the fewest zeros that make whole blocks, and the length of the
    message in bits, as 64 bits. *)
Definition padding (be : bool) (n : Z) : list Z :=
  0x80 :: zeros (Z.to_nat ((- (n + 9)) mod Z.of_nat bs))
  ++ (if be then be_split 8 (8 * n) else le_split 8 (8 * n)).
Definition padded (be : bool) (m : list Z) : list Z := m ++ padding be (lenZ m).

Definition hash_message (be : bool) (h0 m : list Z) : list Z :=
  hash_blocks (length (padded be m) / bs) h0 (padded be m).

Lemma hash_blocks_app n h l1 l2 : (n * bs <= length l1)%nat -> hash_blocks n h (l1 ++ l2) = hash_blocks n h l1.
Proof.
  revert h l1. induction n as [|n IH]; intros h l1 Hl; [done|]. cbn [hash_blocks].
  rewrite take_app_le, drop_app_le by lia. apply IH. rewrite length_drop. lia.
Qed.

Lemma hash_blocks_add n k h l : hash_blocks (n + k) h l = hash_blocks k (hash_blocks n h l) (drop (n * bs) l).
Proof.
  revert h l. induction n as [|n IH]; intros h l; [by rewrite drop_0|]. cbn [hash_blocks Nat.add].
  rewrite IH, drop_drop. do 2 f_equal.
Qed.

(** The blocks of the first part, then those of the rest. *)
Lemma hash_blocks_split q k h l1 l2 :
  length l1 = (q * bs)%nat -> hash_blocks (q + k) h (l1 ++ l2) = hash_blocks k (hash_blocks q h l1) l2.
Proof.
  intros Hl. rewrite hash_blocks_add, hash_blocks_app by lia. f_equal. rewrite <- Hl. apply drop_app_length.
Qed.
End spec.

(** ** The context *)

Section stream.
Context (block_func : crypto_md32_block_func) (bs : nat) (compress : list Z -> list Z -> list Z)
  (state_ok : list Z -> Prop) `{!BlockFunc block_func bs compress state_ok}.
Notation hashed := (hash_blocks bs compress).

Lemma bs_range : (8 < bs)%nat /\ Z.of_nat bs < 2 ^ 31.
Proof. apply block_size_ok. Qed.

Lemma hashed_ok n h l : state_ok h -> bytes l -> (n * bs <= length l)%nat -> state_ok (hashed n h l).
Proof.
  revert h l. induction n as [|n IH]; intros h l Hh Hb Hl; [done|]. cbn [hash_blocks].
  apply IH; [|eauto with cint|rewrite length_drop; lia].
  apply compress_ok; [done|eauto with cint|]. rewrite length_take. lia.
Qed.

Lemma block_func_hashes n h l :
  state_ok h -> bytes l -> (n * bs <= length l)%nat -> block_func h l (Z.of_nat n) = Some (hashed n h l).
Proof.
  revert h l. induction n as [|n IH]; intros h l Hh Hb Hl; [by apply block_func_none|].
  rewrite block_func_more by (done || nia). replace (Z.of_nat (S n) - 1) with (Z.of_nat n) by lia. cbn [hash_blocks].
  apply IH; [|eauto with cint|rewrite length_drop; lia].
  apply compress_ok; [done|eauto with cint|]. rewrite length_take. lia.
Qed.

(** [part] is what waits in the block. *)
Definition waits (c : md32_state) (part : list Z) : Prop :=
  (length part < bs)%nat /\ md_num c = lenZ part /\ bytes part
  /\ exists rest, md_data c = part ++ rest /\ (length part + length rest = bs)%nat.

(** The number of bits so far, modulo 2^64. *)
Definition counts (c : md32_state) (n : Z) : Prop :=
  0 <= Nl c < 2 ^ 32 /\ 0 <= Nh c < 2 ^ 32 /\ Nh c * 2 ^ 32 + Nl c = u64 (8 * n).

(** The message so far is [m]: whole blocks that are hashed, and a part that waits. *)
Definition absorbed (h0 : list Z) (c : md32_state) (m : list Z) : Prop :=
  bytes m /\ counts c (lenZ m)
  /\ exists q m1 part, m = m1 ++ part /\ length m1 = (q * bs)%nat /\ md_h c = hashed q h0 m1 /\ waits c part.

Lemma waits_data c part : waits c part -> length (md_data c) = bs.
Proof. intros (_ & _ & _ & rest & -> & Hl). rewrite length_app. lia. Qed.

(** From whole blocks on: [update_blocks]. *)
Lemma update_blocks_spec c inp :
  state_ok (md_h c) -> bytes inp -> lenZ inp < 2 ^ 64 -> length (md_data c) = bs -> md_num c = 0 ->
  exists c' q rest, update_blocks block_func (Z.of_nat bs) c inp (lenZ inp) = Some c'
    /\ inp = take (q * bs) inp ++ rest /\ (q * bs <= length inp)%nat
    /\ md_h c' = hashed q (md_h c) (take (q * bs) inp) /\ waits c' rest
    /\ Nl c' = Nl c /\ Nh c' = Nh c /\ md_len c' = md_len c.
Proof.
  intros Hh Hb Hlen Hd Hn. destruct bs_range as [Hbs1 Hbs2]. unfold update_blocks. cbv zeta.
  set (q := (length inp / bs)%nat).
  assert (Hq : lenZ inp / Z.of_nat bs = Z.of_nat q) by (unfold q; by rewrite Nat2Z.inj_div).
  pose proof (Nat.div_mod_eq (length inp) bs) as Hdm. pose proof (Nat.mod_upper_bound (length inp) bs ltac:(lia)) as Hmod.
  fold q in Hdm. rewrite Hq. clearbody q.
  assert (Eh : hashed q (md_h c) inp = hashed q (md_h c) (take (q * bs) inp)).
  { rewrite <- (take_drop (q * bs) inp) at 1. apply hash_blocks_app. rewrite length_take. lia. }
  assert (Hsplit : inp = take (q * bs) inp ++ drop (q * bs) inp) by (by rewrite take_drop).
  assert (Hblocks : (if 0 <? Z.of_nat q then
       h ← block_func (md_h c) inp (Z.of_nat q);
       Some (h, drop (Z.to_nat (Z.of_nat q * Z.of_nat bs)) inp, lenZ inp - Z.of_nat q * Z.of_nat bs)
     else Some (md_h c, inp, lenZ inp))
    = Some (hashed q (md_h c) (take (q * bs) inp), drop (q * bs) inp, lenZ (drop (q * bs) inp))).
  { destruct (Z.ltb_spec 0 (Z.of_nat q)).
    - rewrite block_func_hashes by (done || lia). cbn [mbind option_bind].
      rewrite <- Nat2Z.inj_mul, Nat2Z.id, length_drop, Eh. do 2 f_equal. lia.
    - assert (q = 0%nat) as -> by lia. by rewrite drop_0. }
  rewrite Hblocks. cbn [mbind option_bind]. set (rest := drop (q * bs) inp) in *.
  assert (Hr : (length rest < bs)%nat) by (unfold rest; rewrite length_drop; lia).
  assert (Hbr : bytes rest) by (unfold rest; eauto with cint).
  clearbody rest. destruct (Z.eqb_spec (lenZ rest) 0) as [E|E]; cbn [negb].
  - destruct rest; [|done]. eexists _, q, []. split_and!; [done|done|lia|done| |done|done|done].
    split_and!; [cbn; lia|done|constructor|]. by exists (md_data c).
  - pose proof (memcpy_after [] (md_data c) rest (lenZ rest)) as Em. cbn [app length] in Em.
    change (Z.of_nat 0) with 0 in Em. rewrite Em by lia. cbn [mbind option_bind].
    eexists _, q, rest. split_and!; [done|done|lia|done| |done|done|done].
    split_and!; [done|apply u32_small; lia|done|]. exists (drop (length rest) (md_data c)).
    cbn [md_data]. rewrite Nat2Z.id, firstn_all. split; [done|]. rewrite length_drop. lia.
Qed.

(** The bit count: the carry of the low word, and the high bits of the length. *)
Lemma counts_add c n len :
  counts c n -> 0 <= len < 2 ^ 64 ->
  let l := u32 (Nl c + u32 (Z.shiftl (u32 len) 3)) in
  let Nh_ := if l <? Nl c then u32 (Nh c + 1) else Nh c in
  let Nh_ := u32 (Nh_ + u32 (Z.shiftr len 29)) in
  0 <= l < 2 ^ 32 /\ 0 <= Nh_ < 2 ^ 32 /\ Nh_ * 2 ^ 32 + l = u64 (8 * (n + len)).
Proof.
  intros (Hl & Hh & Hc) Hlen. cbv zeta. split; [apply u32_range|]. split; [apply u32_range|].
  rewrite Z.shiftl_mul_pow2, Z.shiftr_div_pow2 by lia.
  assert (E : u64 (8 * (n + len)) = u64 ((Nh c * 2 ^ 32 + Nl c) + 8 * len)).
  { rewrite Hc. unfold u64. rewrite Zplus_mod_idemp_l. f_equal. lia. }
  rewrite E. clear E Hc n. revert Hl Hh Hlen. generalize (Nl c) as a, (Nh c) as b. intros a b Ha Hb Hlen.
  unfold u32, u64. change (2 ^ 3) with 8. destruct (_ <? _) eqn:Ecarry.
  - apply Z.ltb_lt in Ecarry. revert Ecarry. div_lia.
  - apply Z.ltb_ge in Ecarry. revert Ecarry. div_lia.
Qed.

(** Whole blocks in the message, a whole number more of them, and what is left. *)
Lemma absorbed_blocks h0 c c' m1 q t q' rest n :
  bytes (m1 ++ t ++ rest) -> counts c' n -> n = lenZ (m1 ++ t ++ rest) ->
  length m1 = (q * bs)%nat -> length t = (q' * bs)%nat -> md_h c = hashed q h0 m1 ->
  md_h c' = hashed q' (md_h c) t -> waits c' rest ->
  absorbed h0 c' (m1 ++ t ++ rest).
Proof.
  intros Hb Hc -> Hl1 Hlt Eh Eh' Hw. split; [done|]. split; [done|].
  exists (q + q')%nat, (m1 ++ t), rest. rewrite <- app_assoc. split_and!; [done|rewrite length_app; lia| |done].
  rewrite (hash_blocks_split bs compress q q') by done. by rewrite <- Eh.
Qed.

(** The part and the input make a block: it is hashed, and the block is cleared. *)
Lemma fill_block h part rest inp :
  state_ok h -> bytes part -> bytes inp -> (length part + length rest = bs)%nat -> (length rest <= length inp)%nat ->
  exists d, memcpy (part ++ rest) (lenZ part) inp (Z.of_nat bs - lenZ part) = Some d
    /\ d = part ++ take (length rest) inp /\ length d = bs /\ block_func h d 1 = Some (hashed 1 h d)
    /\ state_ok (hashed 1 h d) /\ memzero d 0 (Z.of_nat bs) = Some (zeros bs).
Proof.
  intros Hh Hbp Hbi Hl Hle. exists (part ++ take (length rest) inp).
  assert (Hd : length (part ++ take (length rest) inp) = bs) by (rewrite length_app, length_take; lia).
  assert (Hb : bytes (part ++ take (length rest) inp)) by (apply bytes_app; eauto with cint).
  split_and!; [|done|done| | |].
  - rewrite memcpy_after by lia. replace (Z.to_nat (Z.of_nat bs - lenZ part)) with (length rest) by lia.
    by rewrite drop_all, app_nil_r.
  - apply (block_func_hashes 1); [done|done|lia].
  - apply hashed_ok; [done|done|lia].
  - rewrite memzero_all by lia. by rewrite Hd.
Qed.

(** The test of the code: is there enough input to fill the block. *)
Lemma enough_to_fill (part rest inp : list Z) :
  lenZ inp < 2 ^ 64 -> (length part + length rest)%nat = bs -> lenZ inp + lenZ part < 2 ^ 64 \/ Z.of_nat bs <= lenZ inp ->
  (Z.of_nat bs <=? lenZ inp) || (Z.of_nat bs <=? u64 (lenZ inp + lenZ part)) = (length rest <=? length inp)%nat.
Proof.
  intros Hlen Hl Hs. destruct (Z.leb_spec (Z.of_nat bs) (lenZ inp)); cbn [orb].
  - symmetry. apply Nat.leb_le. lia.
  - rewrite u64_small by lia. apply Bool.eq_iff_eq_true. rewrite Z.leb_le, Nat.leb_le. lia.
Qed.

Lemma update_spec h0 c m inp :
  state_ok h0 -> absorbed h0 c m -> bytes inp -> lenZ inp < 2 ^ 64 ->
  exists c', crypto_md32_update block_func (Z.of_nat bs) c inp (lenZ inp) = Some c'
    /\ absorbed h0 c' (m ++ inp) /\ md_len c' = md_len c.
Proof.
  intros Hh0 Ha Hb Hlen. destruct bs_range as [Hbs1 Hbs2]. unfold crypto_md32_update.
  destruct (Z.eqb_spec (lenZ inp) 0) as [E|E].
  { destruct inp; [|done]. rewrite app_nil_r. by exists c. }
  destruct Ha as (Hbm & Hc & q & m1 & part & -> & Hl1 & Eh & Hp & Hn & Hbp & rest & Hd & Hlr).
  pose proof (counts_add c _ (lenZ inp) Hc ltac:(lia)) as Hc'. cbv zeta in Hc'.
  set (l := u32 (Nl c + _)) in *. set (nh := u32 ((if l <? Nl c then _ else _) + _)) in *. cbv zeta.
  apply bytes_app in Hbm as [Hbm _].
  assert (Hok : state_ok (md_h c)) by (rewrite Eh; apply hashed_ok; [done|done|lia]).
  replace (lenZ (m1 ++ part) + lenZ inp) with (lenZ (m1 ++ part ++ inp)) in Hc' by (rewrite !length_app; lia).
  rewrite <- app_assoc, Hn, Hd. clearbody l nh.
  destruct (Z.eqb_spec (lenZ part) 0) as [Ez|Ez]; cbn [negb].
  - destruct part; [|done]. cbn [app]. rewrite app_nil_l in Hc'.
    destruct (update_blocks_spec (mk_md32 (md_h c) l nh rest (lenZ (@nil Z)) (md_len c)) inp)
      as (c' & q' & rest' & E' & Hsp & Hle & Eh' & Hw & ENl & ENh & El); try done.
    exists c'. split_and!; [exact E'| |exact El]. rewrite Hsp.
    apply (absorbed_blocks h0 c c' m1 q _ q' rest' (lenZ (m1 ++ inp))); try done.
    + rewrite <- Hsp. by apply bytes_app.
    + unfold counts. by rewrite ENl, ENh.
    + by rewrite <- Hsp.
    + rewrite length_take. lia.
  - assert (Hcond : (Z.of_nat bs <=? lenZ inp) || (Z.of_nat bs <=? u64 (lenZ inp + lenZ part))
                    = (length rest <=? length inp)%nat).
    { apply enough_to_fill; lia. }
    rewrite Hcond. destruct (Nat.leb_spec (length rest) (length inp)) as [Hfull|Hpart].
    + destruct (fill_block (md_h c) part rest inp Hok Hbp Hb ltac:(lia) Hfull)
        as (d & Ed & Edef & Hld & Ebf & Hok' & Ez').
      rewrite Ed. cbn [mbind option_bind]. rewrite Ebf. cbn [mbind option_bind]. rewrite Ez'. cbn [mbind option_bind].
      replace (Z.to_nat (Z.of_nat bs - lenZ part)) with (length rest) by lia.
      replace (lenZ inp - (Z.of_nat bs - lenZ part)) with (lenZ (drop (length rest) inp)) by (rewrite length_drop; lia).
      destruct (update_blocks_spec (mk_md32 (hashed 1 (md_h c) d) l nh (zeros bs) 0 (md_len c)) (drop (length rest) inp))
        as (c' & q' & rest' & E' & Hsp & Hle & Eh' & Hw & ENl & ENh & El); try done.
      { eauto with cint. } { rewrite length_drop. lia. } { apply length_replicate. }
      exists c'. split_and!; [exact E'| |exact El].
      assert (Einp : part ++ inp = (d ++ take (q' * bs) (drop (length rest) inp)) ++ rest').
      { rewrite <- app_assoc, <- Hsp, Edef, <- app_assoc. by rewrite take_drop. }
      rewrite Einp.
      apply (absorbed_blocks h0 c c' m1 q _ (1 + q') rest' (lenZ (m1 ++ part ++ inp))); try done.
      * rewrite <- Einp. apply bytes_app. split; [done|]. by apply bytes_app.
      * unfold counts. by rewrite ENl, ENh.
      * by rewrite <- Einp.
      * rewrite length_app, length_take. lia.
      * rewrite (hash_blocks_split bs compress 1 q') by lia. exact Eh'.
    + rewrite memcpy_after by lia. cbn [mbind option_bind]. eexists. split_and!; [done| |done].
      split; [by rewrite !bytes_app|]. split; [exact Hc'|]. exists q, m1, (part ++ inp). split_and!; [done|done|done|].
      split_and!.
      * rewrite length_app. lia.
      * cbn [md_num]. rewrite (u32_small (lenZ inp)), u32_small by lia. rewrite length_app. lia.
      * by apply bytes_app.
      * exists (drop (length inp) rest). cbn [md_data]. rewrite Nat2Z.id, firstn_all, <- app_assoc. split; [done|].
        rewrite length_app, length_drop. lia.
Qed.

(** ** The end of the message *)

(** The length in bits, stored in the last eight bytes. *)
Definition length_bytes (be : bool) (n : Z) : list Z := if be then be_split 8 (8 * n) else le_split 8 (8 * n).

Lemma le_split_u64 z : le_split 8 (u64 z) = le_split 8 z.
Proof.
  rewrite <- (le_split_combine (le_split 8 z)) by apply le_split_bytes. rewrite length_le_split, le_combine_split.
  done.
Qed.

Lemma le_split_halves c n : counts c n -> le_split 8 (8 * n) = le_split 4 (Nl c) ++ le_split 4 (Nh c).
Proof. intros (Hl & Hh & E). rewrite <- le_split_u64, <- E. apply (le_split_app 4 4). done. Qed.

Lemma be_split_halves c n : counts c n -> be_split 8 (8 * n) = be_split 4 (Nh c) ++ be_split 4 (Nl c).
Proof. intros Hc. unfold be_split. by rewrite (le_split_halves c n Hc), rev_app_distr. Qed.

Lemma store_at d1 d2 x off :
  off = lenZ d1 -> (4 <= length d2)%nat -> memcpy (d1 ++ d2) off (le_split 4 x) 4 = Some ((d1 ++ le_split 4 x) ++ drop 4 d2).
Proof.
  intros -> Hl. rewrite memcpy_after by (rewrite ?length_le_split; lia).
  rewrite take_ge by (rewrite length_le_split; lia). by rewrite <- app_assoc.
Qed.

Lemma store_length (be : bool) c n d1 d2 :
  counts c n -> length d2 = 8%nat -> (length d1 + 8 = bs)%nat ->
  (if be then
     d ← CRYPTO_store_u32_be (d1 ++ d2) (Z.of_nat bs - 8) (Nh c);
     CRYPTO_store_u32_be d (Z.of_nat bs - 4) (Nl c)
   else
     d ← CRYPTO_store_u32_le (d1 ++ d2) (Z.of_nat bs - 8) (Nl c);
     CRYPTO_store_u32_le d (Z.of_nat bs - 4) (Nh c))
  = Some (d1 ++ length_bytes be n).
Proof.
  intros Hc Hd2 Hd1. unfold CRYPTO_store_u32_be, CRYPTO_store_u32_le, length_bytes.
  assert (Hd : forall x, length (d1 ++ le_split 4 x) = (bs - 4)%nat) by (intros; rewrite length_app, length_le_split; lia).
  assert (H2 : (4 <= length (drop 4 d2))%nat) by (rewrite length_drop; lia).
  assert (H3 : drop 4 (drop 4 d2) = []) by (rewrite drop_drop; apply drop_ge; lia).
  destruct be; rewrite store_at by lia; cbn [mbind option_bind]; rewrite store_at by (rewrite ?Hd; lia);
    rewrite H3, app_nil_r, <- app_assoc.
  - by rewrite !split_bswap, (be_split_halves c n Hc).
  - by rewrite (le_split_halves c n Hc).
Qed.

(** The blocks that end the message: the part, the one bit, zeros and the length. *)
Definition last_blocks (be : bool) (n : Z) (part : list Z) : list Z :=
  if (length part + 1 <=? bs - 8)%nat
  then (part ++ [0x80]) ++ zeros (bs - 9 - length part) ++ length_bytes be n
  else ((part ++ [0x80]) ++ zeros (bs - 1 - length part)) ++ zeros (bs - 8) ++ length_bytes be n.

Lemma length_length_bytes be n : length (length_bytes be n) = 8%nat.
Proof. destruct be; [apply length_be_split|apply length_le_split]. Qed.

Lemma bytes_length_bytes be n : bytes (length_bytes be n).
Proof. destruct be; [apply bytes_be_split|apply le_split_bytes]. Qed.

Lemma padded_blocks be m1 q part :
  length m1 = (q * bs)%nat -> (length part < bs)%nat ->
  padded bs be (m1 ++ part) = m1 ++ last_blocks be (lenZ (m1 ++ part)) part.
Proof.
  intros Hl Hp. destruct bs_range as [Hbs _]. unfold padded, padding, last_blocks. rewrite <- app_assoc. f_equal.
  fold (length_bytes be (lenZ (m1 ++ part))). rewrite length_app, Hl.
  assert (Hk : forall k j, 0 <= k < Z.of_nat bs -> k = (j - Z.of_nat q) * Z.of_nat bs - (lenZ part + 9) ->
    (- (Z.of_nat (q * bs + length part) + 9)) mod Z.of_nat bs = k).
  { intros k j Hk ->. symmetry. apply (Z.mod_unique _ _ (- j)); [by left|]. nia. }
  destruct (Nat.leb_spec (length part + 1) (bs - 8)).
  - rewrite (Hk (Z.of_nat (bs - 9 - length part)) (Z.of_nat q + 1)) by lia.
    rewrite Nat2Z.id, <- app_assoc. done.
  - rewrite (Hk (Z.of_nat (2 * bs - 9 - length part)) (Z.of_nat q + 2)) by lia.
    rewrite Nat2Z.id, <- !app_assoc. cbn [app]. do 2 f_equal. rewrite app_assoc. f_equal.
    unfold zeros. rewrite <- replicate_add. f_equal. lia.
Qed.

Lemma length_last_blocks be n part :
  (length part < bs)%nat ->
  length (last_blocks be n part) = ((if (length part + 1 <=? bs - 8)%nat then 1 else 2) * bs)%nat.
Proof.
  intros Hp. destruct bs_range as [Hbs _]. unfold last_blocks. destruct (Nat.leb_spec (length part + 1) (bs - 8));
    rewrite !length_app, length_length_bytes; unfold zeros; rewrite !length_replicate; cbn [length]; lia.
Qed.

(** The last block, from its last eight bytes on. *)
Lemma finish_block (be : bool) c n h d1 d2 :
  state_ok h -> bytes d1 -> counts c n -> length d2 = 8%nat -> (length d1 + 8 = bs)%nat ->
  (d ← (if be then
          d ← CRYPTO_store_u32_be (d1 ++ d2) (Z.of_nat bs - 8) (Nh c);
          CRYPTO_store_u32_be d (Z.of_nat bs - 4) (Nl c)
        else
          d ← CRYPTO_store_u32_le (d1 ++ d2) (Z.of_nat bs - 8) (Nl c);
          CRYPTO_store_u32_le d (Z.of_nat bs - 4) (Nh c));
   h ← block_func h d 1;
   d ← memzero d 0 (Z.of_nat bs);
   Some (mk_md32 h (Nl c) (Nh c) d 0 (md_len c)))
  = Some (mk_md32 (hashed 1 h (d1 ++ length_bytes be n)) (Nl c) (Nh c) (zeros bs) 0 (md_len c)).
Proof.
  intros Hh Hb Hc Hd2 Hd1. rewrite (store_length be c n d1 d2 Hc Hd2 Hd1). cbn [mbind option_bind].
  assert (Hl : length (d1 ++ length_bytes be n) = bs) by (rewrite length_app, length_length_bytes; lia).
  rewrite (block_func_hashes 1); [|done|apply bytes_app; split; [done|apply bytes_length_bytes]|lia].
  cbn [mbind option_bind]. rewrite memzero_all by lia. by rewrite Hl.
Qed.

Lemma final_spec h0 c m be :
  state_ok h0 -> absorbed h0 c m ->
  exists c', crypto_md32_final block_func (Z.of_nat bs) c be = Some c'
    /\ md_h c' = hash_message bs compress be h0 m
    /\ md_data c' = zeros bs /\ md_num c' = 0 /\ md_len c' = md_len c.
Proof.
  intros Hh0 (Hbm & Hc & q & m1 & part & -> & Hl1 & Eh & Hp & Hn & Hbp & rest & Hd & Hlr).
  destruct bs_range as [Hbs1 Hbs2]. apply bytes_app in Hbm as [Hbm _].
  assert (Hok : state_ok (md_h c)) by (rewrite Eh; apply hashed_ok; [done|done|lia]).
  assert (Emsg : hash_message bs compress be h0 (m1 ++ part)
    = hashed (if (length part + 1 <=? bs - 8)%nat then 1 else 2) (md_h c) (last_blocks be (lenZ (m1 ++ part)) part)).
  { unfold hash_message. rewrite (padded_blocks be m1 q part Hl1 Hp), length_app, length_last_blocks, Hl1 by done.
    rewrite <- Nat.mul_add_distr_r, Nat.div_mul, (hash_blocks_split bs compress q) by (done || lia). by rewrite <- Eh. }
  rewrite Emsg. unfold crypto_md32_final, last_blocks. rewrite Hn, Hd.
  rewrite option_guard_True by lia. cbn [mbind option_bind].
  rewrite memcpy_after by (cbn [length]; lia). cbn [mbind option_bind].
  change (take (Z.to_nat 1) [0x80]) with [0x80]. rewrite app_assoc.
  assert (HP : lenZ part + 1 = lenZ (part ++ [0x80])) by (rewrite length_app; cbn [length]; lia).
  assert (HbP : bytes (part ++ [0x80])) by (apply bytes_app; split; [done|]; constructor; [unfold is_byte; lia|constructor]).
  assert (HR : (length (part ++ [0x80%Z]) + length (drop (Z.to_nat 1) rest) = bs)%nat)
    by (rewrite length_app, length_drop; cbn [length]; lia).
  rewrite HP. assert (HP' : length (part ++ [0x80%Z]) = (length part + 1)%nat) by lia. clear HP.
  destruct (Nat.leb_spec (length part + 1) (bs - 8)) as [Hshort|Hlong].
  - rewrite (proj2 (Z.ltb_ge _ _)) by lia. cbn [mbind option_bind].
    rewrite memzero_after by lia. cbn [mbind option_bind]. rewrite app_assoc.
    rewrite (finish_block be c (lenZ (m1 ++ part)) (md_h c)); [|done| |done| |].
    + eexists. split; [done|]. split_and!; try done. cbn [md_h].
      replace (Z.to_nat (Z.of_nat bs - 8 - lenZ (part ++ [0x80]))) with (bs - 9 - length part)%nat by lia.
      by rewrite <- app_assoc.
    + apply bytes_app. eauto with cint.
    + rewrite length_drop. lia.
    + rewrite length_app. unfold zeros. rewrite length_replicate. lia.
  - rewrite (proj2 (Z.ltb_lt _ _)) by lia. rewrite memzero_after by lia. cbn [mbind option_bind].
    rewrite drop_ge, app_nil_r by lia. set (b := (part ++ [0x80]) ++ zeros _).
    assert (Hlb : length b = bs) by (unfold b, zeros; rewrite length_app, length_replicate; lia).
    assert (Hbb : bytes b) by (apply bytes_app; eauto with cint).
    rewrite (block_func_hashes 1) by (done || lia). cbn [mbind option_bind].
    pose proof (memzero_after [] b (Z.of_nat bs - 8 - 0)) as Ez. cbn [app length] in Ez. change (Z.of_nat 0) with 0 in Ez.
    rewrite Ez by lia. cbn [mbind option_bind].
    rewrite (finish_block be c (lenZ (m1 ++ part)) (hashed 1 (md_h c) b)).
    + eexists. split; [done|]. split_and!; try done. cbn [md_h].
      rewrite (hash_blocks_split bs compress 1 1).
      * unfold b. replace (Z.to_nat (Z.of_nat bs - lenZ (part ++ [0x80]))) with (bs - 1 - length part)%nat by lia.
        by replace (Z.to_nat (Z.of_nat bs - 8 - 0)) with (bs - 8)%nat by lia.
      * unfold zeros. rewrite !length_app, length_replicate. cbn [length]. lia.
    + apply hashed_ok; [done|done|lia].
    + eauto with cint.
    + done.
    + rewrite length_drop. lia.
    + unfold zeros. rewrite length_replicate. lia.
Qed.

Lemma hash_message_ok be h0 m : state_ok h0 -> bytes m -> state_ok (hash_message bs compress be h0 m).
Proof.
  intros Hh Hb. unfold hash_message. apply hashed_ok; [done| |].
  - apply bytes_app. split; [done|]. apply bytes_cons. split; [unfold is_byte; lia|].
    apply bytes_app. split; [apply bytes_zeros|]. apply (bytes_length_bytes be (lenZ m)).
  - destruct bs_range as [Hbs _]. rewrite Nat.mul_comm. apply Nat.Div0.mul_div_le.
Qed.
End stream.
