(* ===== verification/Sha256.v ===== *)
(** * BoringSSL: SHA-256 and SHA-224 (crypto/fipsmodule/sha/sha256.c.inc)

    The portable block function, with its registers renamed from round to round and its
    message schedule in a circular array of 16 words, and the functions of the hash. A
    context is an [md32_state]; the functions that can only return 1 give the context. *)
From S2P Require Export Md32.

Definition SHA256_CBLOCK : Z := 64.
Definition SHA256_DIGEST_LENGTH : Z := 32.
Definition SHA224_DIGEST_LENGTH : Z := 28.

Definition K256 : list Z :=
  mjoin
    [[0x428a2f98; 0x71374491; 0xb5c0fbcf; 0xe9b5dba5; 0x3956c25b];
     [0x59f111f1; 0x923f82a4; 0xab1c5ed5; 0xd807aa98; 0x12835b01];
     [0x243185be; 0x550c7dc3; 0x72be5d74; 0x80deb1fe; 0x9bdc06a7];
     [0xc19bf174; 0xe49b69c1; 0xefbe4786; 0x0fc19dc6; 0x240ca1cc];
     [0x2de92c6f; 0x4a7484aa; 0x5cb0a9dc; 0x76f988da; 0x983e5152];
     [0xa831c66d; 0xb00327c8; 0xbf597fc7; 0xc6e00bf3; 0xd5a79147];
     [0x06ca6351; 0x14292967; 0x27b70a85; 0x2e1b2138; 0x4d2c6dfc];
     [0x53380d13; 0x650a7354; 0x766a0abb; 0x81c2c92e; 0x92722c85];
     [0xa2bfe8a1; 0xa81a664b; 0xc24b8b70; 0xc76c51a3; 0xd192e819];
     [0xd6990624; 0xf40e3585; 0x106aa070; 0x19a4c116; 0x1e376c08];
     [0x2748774c; 0x34b0bcb5; 0x391c0cb3; 0x4ed8aa4a; 0x5b9cca4f];
     [0x682e6ff3; 0x748f82ee; 0x78a5636f; 0x84c87814; 0x8cc70208];
     [0x90befffa; 0xa4506ceb; 0xbef9a3f7; 0xc67178f2]].

Definition Sigma0 (x : Z) : Z :=
  Z.lxor (Z.lxor (CRYPTO_rotr_u32 x 2) (CRYPTO_rotr_u32 x 13)) (CRYPTO_rotr_u32 x 22).
Definition Sigma1 (x : Z) : Z :=
  Z.lxor (Z.lxor (CRYPTO_rotr_u32 x 6) (CRYPTO_rotr_u32 x 11)) (CRYPTO_rotr_u32 x 25).
Definition sigma0 (x : Z) : Z :=
  Z.lxor (Z.lxor (CRYPTO_rotr_u32 x 7) (CRYPTO_rotr_u32 x 18)) (Z.shiftr x 3).
Definition sigma1 (x : Z) : Z :=
  Z.lxor (Z.lxor (CRYPTO_rotr_u32 x 17) (CRYPTO_rotr_u32 x 19)) (Z.shiftr x 10).

Definition Ch (x y z : Z) : Z := Z.lxor (Z.land x y) (Z.land (u32 (Z.lnot x)) z).
Definition Maj (x y z : Z) : Z := Z.lxor (Z.lxor (Z.land x y) (Z.land x z)) (Z.land y z).

(** ** The rounds

    The macro changes [d] and [h]; [i] is less than 64. *)
Definition ROUND_00_15 (i : nat) (T1 a b c d e f g h : Z) : Z * Z :=
  let T1 := u32 (T1 + (h + Sigma1 e + Ch e f g + K256 !!! i)) in
  let h := u32 (Sigma0 a + Maj a b c) in
  let d := u32 (d + T1) in
  let h := u32 (h + T1) in
  (d, h).

(** It changes [X], of 16 words, as well. *)
Definition ROUND_16_63 (i : nat) (a b c d e f g h : Z) (X : list Z) : Z * Z * list Z :=
  let at_ (k : nat) := X !!! Nat.land k 0x0f in
  let s0 := sigma0 (at_ (i + 1)%nat) in
  let s1 := sigma1 (at_ (i + 14)%nat) in
  let T1 := u32 (at_ i + (s0 + s1 + at_ (i + 9)%nat)) in
  let X := <[Nat.land i 0x0f := T1]> X in
  let '(d, h) := ROUND_00_15 i T1 a b c d e f g h in
  (d, h, X).

Definition registers : Type := Z * Z * Z * Z * Z * Z * Z * Z.

(** Eight of the first 16 rounds; [X] holds the words of the block. *)
Definition rounds_00_15 (i : nat) (r : registers) (X : list Z) : registers :=
  let '(a, b, c, d, e, f, g, h) := r in
  let '(d, h) := ROUND_00_15 i (X !!! i) a b c d e f g h in
  let '(c, g) := ROUND_00_15 (i + 1) (X !!! (i + 1)%nat) h a b c d e f g in
  let '(b, f) := ROUND_00_15 (i + 2) (X !!! (i + 2)%nat) g h a b c d e f in
  let '(a, e) := ROUND_00_15 (i + 3) (X !!! (i + 3)%nat) f g h a b c d e in
  let '(h, d) := ROUND_00_15 (i + 4) (X !!! (i + 4)%nat) e f g h a b c d in
  let '(g, c) := ROUND_00_15 (i + 5) (X !!! (i + 5)%nat) d e f g h a b c in
  let '(f, b) := ROUND_00_15 (i + 6) (X !!! (i + 6)%nat) c d e f g h a b in
  let '(e, a) := ROUND_00_15 (i + 7) (X !!! (i + 7)%nat) b c d e f g h a in
  (a, b, c, d, e, f, g, h).

(** The body of [for (i = 16; i < 64; i += 8)]. *)
Definition rounds_16_63 (i : nat) (r : registers) (X : list Z) : registers * list Z :=
  let '(a, b, c, d, e, f, g, h) := r in
  let '(d, h, X) := ROUND_16_63 (i + 0) a b c d e f g h X in
  let '(c, g, X) := ROUND_16_63 (i + 1) h a b c d e f g X in
  let '(b, f, X) := ROUND_16_63 (i + 2) g h a b c d e f X in
  let '(a, e, X) := ROUND_16_63 (i + 3) f g h a b c d e X in
  let '(h, d, X) := ROUND_16_63 (i + 4) e f g h a b c d X in
  let '(g, c, X) := ROUND_16_63 (i + 5) d e f g h a b c X in
  let '(f, b, X) := ROUND_16_63 (i + 6) c d e f g h a b X in
  let '(e, a, X) := ROUND_16_63 (i + 7) b c d e f g h a X in
  ((a, b, c, d, e, f, g, h), X).

(** [m] iterations to go from [i]. *)
Fixpoint rounds_loop (m i : nat) (r : registers) (X : list Z) : registers :=
  match m with
  | O => r
  | S m => let '(r, X) := rounds_16_63 i r X in rounds_loop m (i + 8) r X
  end.

(** [X[i] = CRYPTO_load_u32_be(data); data += 4], [n] words to go. *)
Fixpoint load_words (n : nat) (data : list Z) : option (list Z) :=
  match n with
  | O => Some []
  | S n => w ← CRYPTO_load_u32_be data; X ← load_words n (drop 4 data); Some (w :: X)
  end.

(** [while (num--)] *)
Fixpoint sha256_blocks (num : nat) (state data : list Z) : option (list Z) :=
  match num with
  | O => Some state
  | S num =>
      match state with
      | [s0; s1; s2; s3; s4; s5; s6; s7] =>
          X ← load_words 16 data;
          let r := rounds_00_15 0 (s0, s1, s2, s3, s4, s5, s6, s7) X in
          let r := rounds_00_15 8 r X in
          let '(a, b, c, d, e, f, g, h) := rounds_loop 6 16 r X in
          sha256_blocks num
            [u32 (s0 + a); u32 (s1 + b); u32 (s2 + c); u32 (s3 + d);
             u32 (s4 + e); u32 (s5 + f); u32 (s6 + g); u32 (s7 + h)]
            (drop 64 data)
      | _ => None
      end
  end.

Definition sha256_block_data_order_nohw : crypto_md32_block_func := fun state data num =>
  sha256_blocks (Z.to_nat num) state data.

(** On a machine without the instructions the assembly uses. *)
Definition sha256_block_data_order : crypto_md32_block_func := sha256_block_data_order_nohw.

(** ** The functions of the hash *)

Definition SHA224_Init : md32_state :=
  mk_md32 [0xc1059ed8; 0x367cd507; 0x3070dd17; 0xf70e5939;
           0xffc00b31; 0x68581511; 0x64f98fa7; 0xbefa4fa4]
    0 0 (replicate 64 0) 0 SHA224_DIGEST_LENGTH.

Definition SHA256_Init : md32_state :=
  mk_md32 [0x6a09e667; 0xbb67ae85; 0x3c6ef372; 0xa54ff53a;
           0x510e527f; 0x9b05688c; 0x1f83d9ab; 0x5be0cd19]
    0 0 (replicate 64 0) 0 SHA256_DIGEST_LENGTH.

Definition SHA256_Transform (c : md32_state) (data : list Z) : option md32_state :=
  h ← sha256_block_data_order (md_h c) data 1;
  Some (mk_md32 h (Nl c) (Nh c) (md_data c) (md_num c) (md_len c)).

Definition SHA256_Update (c : md32_state) (data : list Z) (len : Z) : option md32_state :=
  crypto_md32_update sha256_block_data_order SHA256_CBLOCK c data len.

Definition SHA224_Update (c : md32_state) (data : list Z) (len : Z) : option md32_state :=
  SHA256_Update c data len.

(** [for (size_t i = 0; i < out_words; i++)]: the bytes written. *)
Fixpoint store_words (n : nat) (h : list Z) : option (list Z) :=
  match n, h with
  | O, _ => Some []
  | S n, w :: h =>
      o ← CRYPTO_store_u32_be (replicate 4 0) 0 w; out ← store_words n h; Some (o ++ out)
  | S _, [] => None
  end.

(** The result, the bytes written to [out], and the context. *)
Definition sha256_final_impl (len : Z) (c : md32_state) : option (Z * list Z * md32_state) :=
  c ← crypto_md32_final sha256_block_data_order SHA256_CBLOCK c true;
  if SHA256_DIGEST_LENGTH <? len then Some (0, [], c)
  else
    _ ← guard (len mod 4 = 0);
    let out_words := len / 4 in
    out ← store_words (Z.to_nat out_words) (md_h c);
    Some (1, out, c).

Definition SHA256_Final (c : md32_state) : option (Z * list Z * md32_state) :=
  sha256_final_impl (md_len c) c.

Definition SHA224_Final (c : md32_state) : option (Z * list Z * md32_state) :=
  _ ← guard (md_len c = SHA224_DIGEST_LENGTH); sha256_final_impl SHA224_DIGEST_LENGTH c.

Definition SHA224 (data : list Z) (len : Z) : option (list Z) :=
  ctx ← SHA224_Update SHA224_Init data len;
  '(_, out, _) ← SHA224_Final ctx;
  Some out.

Definition SHA256 (data : list Z) (len : Z) : option (list Z) :=
  ctx ← SHA256_Update SHA256_Init data len;
  '(_, out, _) ← SHA256_Final ctx;
  Some out.

Definition SHA256_TransformBlocks (state data : list Z) (num_blocks : Z) : option (list Z) :=
  sha256_block_data_order state data num_blocks.

(** ** Test vectors: the hash of "abc" in one piece, and of 56 bytes in three. *)

Example sha256_abc :
  SHA256 [97; 98; 99] 3
  = Some [0xba; 0x78; 0x16; 0xbf; 0x8f; 0x01; 0xcf; 0xea; 0x41; 0x41; 0x40; 0xde; 0x5d; 0xae; 0x22; 0x23;
          0xb0; 0x03; 0x61; 0xa3; 0x96; 0x17; 0x7a; 0x9c; 0xb4; 0x10; 0xff; 0x61; 0xf2; 0x00; 0x15; 0xad].
Proof. vm_compute. reflexivity. Qed.

Example sha224_abc :
  SHA224 [97; 98; 99] 3
  = Some [0x23; 0x09; 0x7d; 0x22; 0x34; 0x05; 0xd8; 0x22; 0x86; 0x42; 0xa4; 0x77; 0xbd; 0xa2;
          0x55; 0xb3; 0x2a; 0xad; 0xbc; 0xe4; 0xbd; 0xa0; 0xb3; 0xf7; 0xe3; 0x6c; 0x9d; 0xa7].
Proof. vm_compute. reflexivity. Qed.
