(* ===== verification/Sha256Spec.v ===== *)
(** * SHA-256 and SHA-224 as FIPS 180-4 defines them

    The hash of a message as sections 5.1.1, 5.2.1 and 6.2 of the standard give it, with
    the whole message schedule and the registers moving from round to round; the block
    function, and the hash of a message that comes in pieces, compute it. *)
From S2P Require Export Md32Spec Sha256.

(** ** The standard *)

(** The words of a block. *)
Fixpoint block_words (n : nat) (b : list Z) : list Z :=
  match n with
  | O => []
  | S n => le_combine (rev (take 4 b)) :: block_words n (drop 4 b)
  end.

(** The word [t] of the schedule, [t] being 16 or more, after those before it. *)
Definition next_word (W : list Z) : Z :=
  let t := length W in
  u32 (sigma1 (W !!! (t - 2)%nat) + W !!! (t - 7)%nat + sigma0 (W !!! (t - 15)%nat) + W !!! (t - 16)%nat).

Definition schedule (M : list Z) : list Z := Nat.iter 48 (fun W => W ++ [next_word W]) M.

(** A round. *)
Definition fips_round (W : list Z) (r : registers) (t : nat) : registers :=
  let '(a, b, c, d, e, f, g, h) := r in
  let T1 := u32 (h + Sigma1 e + Ch e f g + K256 !!! t + W !!! t) in
  let T2 := u32 (Sigma0 a + Maj a b c) in
  (u32 (T1 + T2), a, b, c, u32 (d + T1), e, f, g).

(** The hash value after a block. *)
Definition fips_compress (H b : list Z) : list Z :=
  match H with
  | [h0; h1; h2; h3; h4; h5; h6; h7] =>
      let W := schedule (block_words 16 b) in
      let '(a, b, c, d, e, f, g, h) :=
        fold_left (fips_round W) (seq 0 64) (h0, h1, h2, h3, h4, h5, h6, h7) in
      [u32 (a + h0); u32 (b + h1); u32 (c + h2); u32 (d + h3);
       u32 (e + h4); u32 (f + h5); u32 (g + h6); u32 (h + h7)]
  | _ => H
  end.

(** The hash value of a message, and its bytes, of which SHA-224 keeps 28. *)
Definition fips_hash (H0 m : list Z) : list Z := hash_message 64 fips_compress true H0 m.
Definition fips_digest (n : nat) (H0 m : list Z) : list Z := take n (mjoin (be_split 4 <$> fips_hash H0 m)).
Definition fips_sha256 (m : list Z) : list Z := fips_digest 32 (md_h SHA256_Init) m.
Definition fips_sha224 (m : list Z) : list Z := fips_digest 28 (md_h SHA224_Init) m.

(** The constants are the first 32 bits of the fractional parts of the cube roots of the
    first 64 primes, and of the square roots of the first 8: [x] follows the integer part
    [i] of the root of [p]. *)
Definition is_root_bits (k p x : Z) : bool :=
  existsb (fun i => let y := Z.of_nat i * 2 ^ 32 + x in
                    (y ^ k <=? p * 2 ^ (32 * k)) && (p * 2 ^ (32 * k) <? (y + 1) ^ k)) (seq 0 20).

Definition first_primes : list Z :=
  [2; 3; 5; 7; 11; 13; 17; 19; 23; 29; 31; 37; 41; 43; 47; 53; 59; 61; 67; 71; 73; 79; 83; 89; 97; 101;
   103; 107; 109; 113; 127; 131; 137; 139; 149; 151; 157; 163; 167; 173; 179; 181; 191; 193; 197; 199;
   211; 223; 227; 229; 233; 239; 241; 251; 257; 263; 269; 271; 277; 281; 283; 293; 307; 311].

Example constants_are_roots :
  forallb (fun '(p, x) => is_root_bits 3 p x) (zip first_primes K256)
  && forallb (fun '(p, x) => is_root_bits 2 p x) (zip first_primes (md_h SHA256_Init)) = true.
Proof. vm_compute. reflexivity. Qed.

(** ** The schedule *)

Lemma lookup_total_app_last (l : list Z) x k : k = length l -> (l ++ [x]) !!! k = x.
Proof. intros ->. rewrite lookup_total_app_r, Nat.sub_diag by lia. done. Qed.

Lemma schedule_iter M n :
  length M = 16%nat ->
  let W := Nat.iter n (fun W => W ++ [next_word W]) M in
  length W = (16 + n)%nat /\ (forall t, (t < 16)%nat -> W !!! t = M !!! t)
  /\ forall t, (16 <= t < 16 + n)%nat ->
      W !!! t = u32 (sigma1 (W !!! (t - 2)%nat) + W !!! (t - 7)%nat + sigma0 (W !!! (t - 15)%nat) + W !!! (t - 16)%nat).
Proof.
  intros HM. induction n as [|n IH]; cbv zeta; [split_and!; [done|done|lia]|].
  cbv zeta in IH. rewrite Nat.iter_succ. set (W := Nat.iter n _ M) in *. destruct IH as (Hl & H16 & Hw). split_and!.
  - rewrite length_app. cbn [length]. lia.
  - intros t Ht. rewrite lookup_total_app_l by lia. by apply H16.
  - intros t Ht. destruct (decide (t = 16 + n)%nat) as [-> | Hne].
    + rewrite lookup_total_app_last by lia. rewrite !lookup_total_app_l by lia. unfold next_word. by rewrite Hl.
    + rewrite !lookup_total_app_l by lia. apply Hw. lia.
Qed.

(** The words of the schedule from 16 on. *)
Definition is_schedule (W : list Z) : Prop :=
  forall t, (16 <= t < 64)%nat ->
    W !!! t = u32 (sigma1 (W !!! (t - 2)%nat) + W !!! (t - 7)%nat + sigma0 (W !!! (t - 15)%nat) + W !!! (t - 16)%nat).

Lemma schedule_spec M :
  length M = 16%nat ->
  (forall t, (t < 16)%nat -> schedule M !!! t = M !!! t) /\ is_schedule (schedule M).
Proof.
  intros HM. unfold is_schedule, schedule. destruct (schedule_iter M 48 HM) as (_ & H16 & Hs). by split.
Qed.

Lemma length_block_words n b : length (block_words n b) = n.
Proof. revert b. induction n as [|n IH]; intros b; cbn; [done|by rewrite IH]. Qed.

(** The circular array holds the last 16 words before [i]. *)
Definition window (i : nat) (X W : list Z) : Prop :=
  length X = 16%nat /\ forall j, (j < 16)%nat -> X !!! ((i + j) mod 16)%nat = W !!! (i - 16 + j)%nat.

Lemma land_15 k : Nat.land k 15 = (k mod 16)%nat.
Proof. exact (Nat.land_ones k 4). Qed.

Lemma window_at i j X W : window i X W -> (j < 16)%nat -> X !!! Nat.land (i + j) 0x0f = W !!! (i - 16 + j)%nat.
Proof. intros [_ Hw] Hj. change 0x0f%nat with 15%nat. rewrite land_15. by apply Hw. Qed.

Lemma window_next i X W :
  window i X W -> (16 <= i)%nat -> window (S i) (<[Nat.land i 15 := W !!! i]> X) W.
Proof.
  intros [Hl Hw] Hi. rewrite land_15. pose proof (Nat.mod_upper_bound i 16 ltac:(lia)) as Hm.
  split; [by rewrite length_insert|]. intros j Hj. destruct (decide (j = 15)%nat) as [-> | Hne].
  - replace ((S i + 15) mod 16)%nat with (i mod 16)%nat.
    + rewrite list_lookup_total_insert_eq by lia. f_equal. lia.
    + replace (S i + 15)%nat with (i + 1 * 16)%nat by lia. by rewrite Nat.Div0.mod_add.
  - rewrite list_lookup_total_insert_ne.
    + replace (S i + j)%nat with (i + S j)%nat by lia. rewrite Hw by lia. f_equal. lia.
    + pose proof (Nat.div_mod_eq i 16). pose proof (Nat.div_mod_eq (S i + j) 16). nia.
Qed.

(** ** The rounds *)

Lemma fips_round_eq W t T1 a b c d e f g h :
  T1 = W !!! t ->
  fips_round W (a, b, c, d, e, f, g, h) t
  = let '(d, h) := ROUND_00_15 t T1 a b c d e f g h in (h, a, b, c, d, e, f, g).
Proof.
  intros ->. unfold fips_round, ROUND_00_15. cbv zeta.
  replace (u32 (W !!! t + (h + Sigma1 e + Ch e f g + K256 !!! t))) with (u32 (h + Sigma1 e + Ch e f g + K256 !!! t + W !!! t))
    by (f_equal; lia).
  by rewrite (Z.add_comm (u32 (Sigma0 a + _))).
Qed.

Lemma seq_8 i : seq i 8 = [i; i + 1; i + 2; i + 3; i + 4; i + 5; i + 6; i + 7]%nat.
Proof. cbn [seq]. repeat first [reflexivity | apply f_equal2; [lia|]]. Qed.

Ltac fips_step tac :=
  match goal with
  | |- context [ROUND_00_15 ?t ?T ?a ?b ?c ?d ?e ?f ?g ?h] =>
      rewrite (fips_round_eq _ t T a b c d e f g h) by tac;
      destruct (ROUND_00_15 t T a b c d e f g h) as [? ?]
  end.

Lemma rounds_00_15_spec i r X W :
  (forall k, (k < 8)%nat -> X !!! (i + k)%nat = W !!! (i + k)%nat) ->
  rounds_00_15 i r X = fold_left (fips_round W) (seq i 8) r.
Proof.
  intros HX. assert (H0 : X !!! i = W !!! i) by (specialize (HX 0%nat); rewrite Nat.add_0_r in HX; apply HX; lia).
  destruct r as [[[[[[[a b] c] d] e] f] g] h]. rewrite seq_8. cbn [fold_left]. unfold rounds_00_15.
  do 8 fips_step ltac:(first [exact H0 | apply HX; lia]). done.
Qed.

(** A round and the word it adds. *)
Lemma ROUND_16_63_eq i a b c d e f g h X W :
  (16 <= i < 64)%nat -> is_schedule W -> window i X W ->
  ROUND_16_63 i a b c d e f g h X
  = let '(d, h) := ROUND_00_15 i (W !!! i) a b c d e f g h in (d, h, <[Nat.land i 15 := W !!! i]> X).
Proof.
  intros Hi Hs Hw. unfold ROUND_16_63. cbv zeta.
  pose proof (window_at i 0 X W Hw ltac:(lia)) as H0. rewrite !Nat.add_0_r in H0.
  rewrite H0, (window_at i 1 X W), (window_at i 14 X W), (window_at i 9 X W) by (done || lia).
  replace (i - 16 + 1)%nat with (i - 15)%nat by lia. replace (i - 16 + 14)%nat with (i - 2)%nat by lia.
  replace (i - 16 + 9)%nat with (i - 7)%nat by lia.
  replace (u32 (W !!! (i - 16)%nat + _)) with (W !!! i); [done|]. rewrite (Hs i) by lia. f_equal. lia.
Qed.

Ltac schedule_step W :=
  match goal with
  | Hw : window ?j ?X W |- context [ROUND_16_63 ?t ?a ?b ?c ?d ?e ?f ?g ?h ?X] =>
      replace t with j by lia;
      rewrite (ROUND_16_63_eq j a b c d e f g h X W) by (done || lia);
      apply window_next in Hw; [|lia];
      rewrite (fips_round_eq W j (W !!! j) a b c d e f g h) by done;
      destruct (ROUND_00_15 j (W !!! j) a b c d e f g h) as [? ?]
  end.

Lemma rounds_16_63_spec i r X W :
  (16 <= i <= 56)%nat -> is_schedule W -> window i X W ->
  exists X', rounds_16_63 i r X = (fold_left (fips_round W) (seq i 8) r, X') /\ window (i + 8) X' W.
Proof.
  intros Hi Hs Hw. destruct r as [[[[[[[a b] c] d] e] f] g] h]. cbn [seq fold_left]. unfold rounds_16_63.
  do 8 (schedule_step W). eexists. split; [done|]. by replace (i + 8)%nat with (S (S (S (S (S (S (S (S i)))))))) by lia.
Qed.

Lemma rounds_loop_spec m : forall i r X W,
  (16 <= i)%nat -> (i + 8 * m = 64)%nat -> is_schedule W -> window i X W ->
  rounds_loop m i r X = fold_left (fips_round W) (seq i (8 * m)) r.
Proof.
  induction m as [|m IH]; intros i r X W Hi Hm Hs Hw; [done|]. cbn [rounds_loop].
  destruct (rounds_16_63_spec i r X W ltac:(lia) Hs Hw) as (X' & -> & Hw').
  rewrite (IH (i + 8)%nat _ X' W) by (done || lia).
  replace (8 * S m)%nat with (8 + 8 * m)%nat by lia. by rewrite seq_app, fold_left_app.
Qed.

(** ** The block function *)

Lemma load_words_spec n : forall b, bytes b -> (4 * n <= length b)%nat -> load_words n b = Some (block_words n b).
Proof.
  induction n as [|n IH]; intros b Hb Hl; [done|]. cbn [load_words block_words].
  unfold CRYPTO_load_u32_be, CRYPTO_load_u32_le. rewrite (proj2 (Z.leb_le _ _)) by lia. cbn [mbind option_bind].
  rewrite IH; [|by apply drop_bytes|rewrite length_drop; lia]. cbn [mbind option_bind].
  unfold CRYPTO_bswap4. replace 4%nat with (length (take 4 b)) at 1 by (rewrite length_take; lia).
  by rewrite le_split_combine by (by apply take_bytes).
Qed.

Lemma block_words_take n : forall b k, (4 * n <= k)%nat -> block_words n (take k b) = block_words n b.
Proof.
  induction n as [|n IH]; intros b k Hk; [done|]. cbn [block_words]. rewrite take_take, Nat.min_l by lia. f_equal.
  rewrite <- (IH (drop 4 b) (k - 4)%nat) by lia. f_equal. apply skipn_firstn_comm.
Qed.

Lemma block_rounds b r :
  let X := block_words 16 b in
  rounds_loop 6 16 (rounds_00_15 8 (rounds_00_15 0 r X) X) X = fold_left (fips_round (schedule X)) (seq 0 64) r.
Proof.
  intros X. pose proof (schedule_spec X (length_block_words 16 b)) as (H16 & Hs).
  pose proof (length_block_words 16 b) as Hl. fold X in Hl. clearbody X.
  revert H16 Hs. generalize (schedule X) as W. intros W H16 Hs.
  rewrite (rounds_00_15_spec 0 r X W) by (intros k Hk; symmetry; apply H16; lia).
  rewrite (rounds_00_15_spec 8 _ X W) by (intros k Hk; symmetry; apply H16; lia).
  rewrite (rounds_loop_spec 6 16 _ X W); [|lia|lia|exact Hs|].
  - change 64%nat with (8 + (8 + 48))%nat. rewrite !seq_app, !fold_left_app. done.
  - split; [done|]. intros j Hj. rewrite H16 by lia.
    replace (16 + j)%nat with (j + 1 * 16)%nat by lia. rewrite Nat.Div0.mod_add, Nat.mod_small by lia. f_equal.
Qed.

Lemma sha256_blocks_S num s0 s1 s2 s3 s4 s5 s6 s7 data :
  sha256_blocks (S num) [s0; s1; s2; s3; s4; s5; s6; s7] data
  = (X ← load_words 16 data;
     let '(a, b, c, d, e, f, g, h) :=
       rounds_loop 6 16 (rounds_00_15 8 (rounds_00_15 0 (s0, s1, s2, s3, s4, s5, s6, s7) X) X) X in
     sha256_blocks num
       [u32 (s0 + a); u32 (s1 + b); u32 (s2 + c); u32 (s3 + d);
        u32 (s4 + e); u32 (s5 + f); u32 (s6 + g); u32 (s7 + h)]
       (drop 64 data)).
Proof. reflexivity. Qed.

(** The states of the hash. *)
Definition sha256_state_ok (h : list Z) : Prop := length h = 8%nat.

Lemma sha256_blocks_more n state data :
  sha256_state_ok state -> bytes data -> (64 <= length data)%nat ->
  sha256_blocks (S n) state data = sha256_blocks n (fips_compress state (take 64 data)) (drop 64 data).
Proof.
  intros Hs Hb Hl. destruct state as [|s0 [|s1 [|s2 [|s3 [|s4 [|s5 [|s6 [|s7 [|? ?]]]]]]]]]; try done.
  rewrite sha256_blocks_S, load_words_spec by (done || lia). cbn [mbind option_bind]. rewrite block_rounds.
  unfold fips_compress. rewrite block_words_take by lia. cbv zeta.
  destruct (fold_left _ _ _) as [[[[[[[a b] c] d] e] f] g] h]. f_equal.
  by rewrite (Z.add_comm s0), (Z.add_comm s1), (Z.add_comm s2), (Z.add_comm s3), (Z.add_comm s4), (Z.add_comm s5),
    (Z.add_comm s6), (Z.add_comm s7).
Qed.

#[export] Instance sha256_block_func : BlockFunc sha256_block_data_order 64 fips_compress sha256_state_ok.
Proof.
  split.
  - lia.
  - intros h b Hh _ _. destruct h as [|s0 [|s1 [|s2 [|s3 [|s4 [|s5 [|s6 [|s7 [|? ?]]]]]]]]]; try done;
      unfold sha256_state_ok, fips_compress; by destruct (fold_left _ _ _) as [[[[[[[? ?] ?] ?] ?] ?] ?] ?].
  - done.
  - intros h inp n Hh Hb Hn Hl. unfold sha256_block_data_order, sha256_block_data_order_nohw.
    replace (Z.to_nat n) with (S (Z.to_nat (n - 1))) by lia. apply sha256_blocks_more; [done|done|lia].
Qed.

(** ** A message in pieces *)

Lemma store_words_spec n h : (n <= length h)%nat -> store_words n h = Some (take (4 * n) (mjoin (be_split 4 <$> h))).
Proof.
  revert h. induction n as [|n IH]; intros h Hl; [done|]. destruct h as [|w h]; [cbn in Hl; lia|].
  cbn [store_words]. unfold CRYPTO_store_u32_be, CRYPTO_store_u32_le. rewrite split_bswap.
  rewrite memcpy_spec by (rewrite ?length_be_split; cbn; lia). cbn [mbind option_bind].
  rewrite IH by (cbn in Hl; lia). cbn [mbind option_bind]. f_equal.
  change (take (Z.to_nat 0) (replicate 4 0)) with (@nil Z). change (drop (Z.to_nat (0 + 4)) (replicate 4 0)) with (@nil Z).
  cbn [app]. rewrite app_nil_r, take_ge by (by rewrite length_be_split).
  rewrite fmap_cons. cbn [mjoin list_join]. rewrite take_app_ge by (rewrite length_be_split; lia).
  rewrite length_be_split. do 2 f_equal. lia.
Qed.

(** The updates, one after the other. *)
Definition updates (c : md32_state) (pieces : list (list Z)) : option md32_state :=
  foldl (fun c piece => c ← c; SHA256_Update c piece (lenZ piece)) (Some c) pieces.

Notation sha_absorbed := (absorbed 64 fips_compress).

Lemma updates_spec h0 c m pieces :
  sha256_state_ok h0 -> sha_absorbed h0 c m -> Forall (fun p => bytes p /\ lenZ p < 2 ^ 64) pieces ->
  exists c', updates c pieces = Some c' /\ sha_absorbed h0 c' (m ++ mjoin pieces) /\ md_len c' = md_len c.
Proof.
  intros Hh. revert c m. induction pieces as [|p pieces IH]; intros c m Ha Hp.
  { exists c. cbn. by rewrite app_nil_r. }
  inversion Hp as [|? ? [Hb Hl] Hp']; subst.
  destruct (update_spec sha256_block_data_order 64 fips_compress sha256_state_ok h0 c m p Hh Ha Hb Hl) as (c1 & E1 & Ha1 & El1).
  destruct (IH c1 (m ++ p) Ha1 Hp') as (c' & E & Ha' & El). exists c'.
  unfold updates in *. cbn [foldl mjoin list_join]. cbn [mbind option_bind].
  unfold SHA256_Update, SHA256_CBLOCK. change 64 with (Z.of_nat 64). rewrite E1, app_assoc. split_and!; [exact E|done|congruence].
Qed.

Lemma init_absorbed h0 len : sha_absorbed h0 (mk_md32 h0 0 0 (replicate 64 0) 0 len) [].
Proof.
  split; [constructor|]. split; [split_and!; done|]. exists 0%nat, [], []. split_and!; try done.
  split_and!; [cbn; lia|done|constructor|]. by exists (replicate 64 0).
Qed.

Lemma final_digest h0 c m :
  sha256_state_ok h0 -> sha_absorbed h0 c m -> md_len c = SHA256_DIGEST_LENGTH \/ md_len c = SHA224_DIGEST_LENGTH ->
  exists c', sha256_final_impl (md_len c) c = Some (1, fips_digest (Z.to_nat (md_len c)) h0 m, c').
Proof.
  intros Hh Ha Hlen.
  destruct (final_spec sha256_block_data_order 64 fips_compress sha256_state_ok h0 c m true Hh Ha)
    as (c' & E & Eh & _ & _ & El). exists c'.
  unfold sha256_final_impl, SHA256_CBLOCK. change 64 with (Z.of_nat 64). rewrite E. cbn [mbind option_bind].
  assert (Hok : length (md_h c') = 8%nat).
  { rewrite Eh. apply (hash_message_ok sha256_block_data_order 64 fips_compress sha256_state_ok); [done|apply Ha]. }
  unfold fips_digest, fips_hash. rewrite <- Eh. unfold SHA256_DIGEST_LENGTH, SHA224_DIGEST_LENGTH in *.
  rewrite (proj2 (Z.ltb_ge _ _)) by lia. rewrite option_guard_True by (destruct Hlen as [-> | ->]; done).
  cbn [mbind option_bind]. rewrite store_words_spec by (rewrite Hok; apply Nat.leb_le; by destruct Hlen as [-> | ->]).
  cbn [mbind option_bind]. destruct Hlen as [-> | ->]; done.
Qed.

Lemma bytes_mjoin ls : Forall bytes ls -> bytes (mjoin ls).
Proof. induction 1; cbn [mjoin list_join]; [constructor|by apply bytes_app]. Qed.

Definition pieces_ok (pieces : list (list Z)) : Prop := Forall (fun p => bytes p /\ lenZ p < 2 ^ 64) pieces.

Lemma digest_spec c pieces :
  (c = SHA256_Init \/ c = SHA224_Init) -> pieces_ok pieces ->
  exists c1 c2, updates c pieces = Some c1 /\ md_len c1 = md_len c
    /\ sha256_final_impl (md_len c1) c1 = Some (1, fips_digest (Z.to_nat (md_len c)) (md_h c) (mjoin pieces), c2).
Proof.
  intros Hc Hp. assert (Hh : sha256_state_ok (md_h c)) by (by destruct Hc as [-> | ->]).
  assert (Ha : sha_absorbed (md_h c) c []) by (destruct Hc as [-> | ->]; apply init_absorbed).
  destruct (updates_spec (md_h c) c [] pieces Hh Ha Hp) as (c1 & E1 & Ha1 & El).
  destruct (final_digest (md_h c) c1 (mjoin pieces) Hh Ha1) as (c2 & E2).
  { rewrite El. destruct Hc as [-> | ->]; [by left|by right]. }
  exists c1, c2. rewrite <- El. by split_and!.
Qed.

(** C14. SHA-256 is the hash of FIPS 180-4, however the message comes: [SHA256_Init], any
    number of [SHA256_Update], whatever the sizes of the pieces, and [SHA256_Final] write
    the digest of the pieces put together, and so does [SHA256] on the whole message; the
    length counted is that modulo 2^64 bits. No buffer is overrun and no assertion fails. *)
Theorem SHA256_streams pieces :
  pieces_ok pieces ->
  exists c c', updates SHA256_Init pieces = Some c
    /\ SHA256_Final c = Some (1, fips_sha256 (mjoin pieces), c')
    /\ (lenZ (mjoin pieces) < 2 ^ 64 ->
        SHA256 (mjoin pieces) (lenZ (mjoin pieces)) = Some (fips_sha256 (mjoin pieces))).
Proof.
  intros Hp. destruct (digest_spec SHA256_Init pieces (or_introl eq_refl) Hp) as (c & c' & E & El & Ef).
  exists c, c'. split_and!; [done|exact Ef|]. intros Hlen.
  destruct (digest_spec SHA256_Init [mjoin pieces] (or_introl eq_refl)) as (d & d' & Ed & _ & Efd).
  { constructor; [|constructor]. split; [|done]. apply bytes_mjoin. eapply Forall_impl; [exact Hp|]. by intros p [? _]. }
  unfold updates in Ed. cbn [foldl mbind option_bind mjoin list_join] in Ed, Efd. rewrite app_nil_r in Efd.
  unfold SHA256. rewrite Ed. cbn [mbind option_bind]. unfold SHA256_Final. by rewrite Efd.
Qed.

Lemma SHA256_streams_witness :
  exists c c', updates SHA256_Init [[97]; []; [98; 99]] = Some c
    /\ SHA256_Final c = Some (1, fips_sha256 [97; 98; 99], c')
    /\ (3 < 2 ^ 64 -> SHA256 [97; 98; 99] 3 = Some (fips_sha256 [97; 98; 99])).
Proof.
  apply (SHA256_streams [[97]; []; [98; 99]]). apply Forall_forall. intros p Hp.
  apply list_elem_of_In in Hp. destruct Hp as [<- | [<- | [<- | []]]]; (split; [|done]);
    repeat constructor; done.
Defined.

(** SHA-224 likewise: other initial values, and 28 bytes of the hash. *)
Theorem SHA224_streams pieces :
  pieces_ok pieces ->
  exists c c', updates SHA224_Init pieces = Some c
    /\ SHA224_Final c = Some (1, fips_sha224 (mjoin pieces), c').
Proof.
  intros Hp. destruct (digest_spec SHA224_Init pieces (or_intror eq_refl) Hp) as (c & c' & E & El & Ef).
  exists c, c'. split; [done|]. unfold SHA224_Final. rewrite El, option_guard_True by done. rewrite El in Ef. exact Ef.
Qed.
