(* ===== verification/Bn.v ===== *)
(** * BoringSSL: big numbers (crypto/fipsmodule/bn)

    A BIGNUM is an object of a heap with an array of words of its own, the least
    significant first. A pointer to words is the address of a BIGNUM and an index in its
    array, so that two pointers may be into one array: the loops read and write words one
    at a time, in the order of the code. Reading or writing outside an array, or an object
    that is not allocated, and a failed assertion have no result. The loops over words are
    those of generic.c.inc, which the build selects (OPENSSL_NO_ASM), for words of 64 bits
    with two-word integers. The marks that say which values are secret are left out. *)
From S2P Require Export Partial ConstTime.

Definition BN_BITS2 : Z := 64.
Definition BN_BYTES : Z := 8.
Definition BN_MASK2 : Z := 0xffffffffffffffff.
Definition BN_DEC_CONV : Z := 10000000000000000000.
Definition BN_DEC_NUM : Z := 19.
Definition BN_MAX_WORDS : Z := (2 ^ 31 - 1) / (4 * BN_BITS2).

Definition BN_FLG_MALLOCED : Z := 0x01.
Definition BN_FLG_STATIC_DATA : Z := 0x02.

Record bignum := mk_bn {
  bn_d : list Z; bn_width : Z; bn_dmax : Z; bn_neg : Z; bn_flags : Z
}.

(** The BIGNUMs allocated, and the outcomes of the coming allocations ([true] when one
    fails). *)
Record bn_world := mk_bn_world { bns : gmap Z bignum; bn_oom : list bool }.

Notation bnM := (part bn_world).

Definition set_bn (p : Z) (b : bignum) (w : bn_world) : bn_world :=
  mk_bn_world (<[p := b]> (bns w)) (bn_oom w).
Definition get_bn (p : Z) : bnM bignum := fun w =>
  match bns w !! p with Some b => Some (b, w) | None => None end.
Definition put_bn (p : Z) (b : bignum) : bnM unit :=
  _ ← get_bn p; modify (set_bn p b).

Definition with_d (l : list Z) (b : bignum) : bignum :=
  mk_bn l (bn_width b) (bn_dmax b) (bn_neg b) (bn_flags b).
Definition with_width (n : Z) (b : bignum) : bignum :=
  mk_bn (bn_d b) n (bn_dmax b) (bn_neg b) (bn_flags b).
Definition with_dmax (n : Z) (b : bignum) : bignum :=
  mk_bn (bn_d b) (bn_width b) n (bn_neg b) (bn_flags b).
Definition with_neg (n : Z) (b : bignum) : bignum :=
  mk_bn (bn_d b) (bn_width b) (bn_dmax b) n (bn_flags b).
Definition with_flags (n : Z) (b : bignum) : bignum :=
  mk_bn (bn_d b) (bn_width b) (bn_dmax b) (bn_neg b) n.

Definition update (p : Z) (f : bignum -> bignum) : bnM unit :=
  b ← get_bn p; put_bn p (f b).

Definition get_width (p : Z) : bnM Z := b ← get_bn p; mret (bn_width b).
Definition get_neg (p : Z) : bnM Z := b ← get_bn p; mret (bn_neg b).

(** ** Words *)

Definition words_ptr : Type := Z * Z.
Definition at_ (q : words_ptr) (i : Z) : words_ptr := (q.1, q.2 + i).

Definition load (q : words_ptr) : bnM Z :=
  b ← get_bn q.1;
  if 0 <=? q.2 then of_opt (bn_d b !! Z.to_nat q.2) else wrong.
Definition store (q : words_ptr) (x : Z) : bnM unit :=
  b ← get_bn q.1;
  if (0 <=? q.2) && (q.2 <? Z.of_nat (length (bn_d b))) then
    put_bn q.1 (with_d (<[Z.to_nat q.2 := x]> (bn_d b)) b)
  else wrong.

(** The words [q[0]] to [q[n-1]], and writing words there: [OPENSSL_memcpy] reads all of
    its source first. *)
Definition read_words (q : words_ptr) (n : Z) : bnM (list Z) :=
  b ← get_bn q.1;
  if (0 <=? q.2) && (0 <=? n) && (q.2 + n <=? Z.of_nat (length (bn_d b))) then
    mret (take (Z.to_nat n) (drop (Z.to_nat q.2) (bn_d b)))
  else wrong.
Definition write_words (q : words_ptr) (l : list Z) : bnM unit :=
  b ← get_bn q.1;
  if (0 <=? q.2) && (q.2 + Z.of_nat (length l) <=? Z.of_nat (length (bn_d b))) then
    put_bn q.1 (with_d (take (Z.to_nat q.2) (bn_d b) ++ l
                        ++ drop (Z.to_nat q.2 + length l) (bn_d b)) b)
  else wrong.
Definition copy_words (dst src : words_ptr) (n : Z) : bnM unit :=
  l ← read_words src n; write_words dst l.
Definition zero_words (dst : words_ptr) (n : Z) : bnM unit :=
  if n <? 0 then wrong else write_words dst (replicate (Z.to_nat n) 0).

(** A loop over indices, from [i], that carries a word along; and the same loop unrolled
    by four, as in generic.c.inc. *)
Section loops.
Context (f : Z -> Z -> bnM Z).

Fixpoint steps (m : nat) (i c : Z) : bnM Z :=
  match m with
  | O => mret c
  | S m => c ← f i c; steps m (i + 1) c
  end.

Fixpoint steps_by_4 (m : nat) (i c : Z) : bnM Z :=
  match m with
  | O => mret c
  | S m =>
    c ← f i c; c ← f (i + 1) c; c ← f (i + 2) c; c ← f (i + 3) c;
    steps_by_4 m (i + 4) c
  end.

Definition unrolled (num c : Z) : bnM Z :=
  c ← steps_by_4 (Z.to_nat (num / 4)) 0 c;
  steps (Z.to_nat (num mod 4)) (num / 4 * 4) c.
End loops.

(** [r[i] = op(a[i], b[i], &c)], and with one operand. *)
Definition step2 (op : Z -> Z -> Z -> option (Z * Z)) (r a b : words_ptr) (i c : Z) : bnM Z :=
  x ← load (at_ a i); y ← load (at_ b i);
  '(s, c) ← of_opt (op x y c);
  _ ← store (at_ r i) s;
  mret c.
Definition step1 (op : Z -> Z -> option (Z * Z)) (r a : words_ptr) (i c : Z) : bnM Z :=
  x ← load (at_ a i);
  '(s, c) ← of_opt (op x c);
  _ ← store (at_ r i) s;
  mret c.

(** *** generic.c.inc *)

(** The macros [mul_add] and [mul]: the low and the high word of a two-word integer. *)
Definition Lw (t : Z) : Z := u64 t.
Definition Hw (t : Z) : Z := u64 (Z.shiftr t BN_BITS2).
Definition mul_add (r a w c : Z) : option (Z * Z) :=
  let t := u128 (u128 (u128 (w * a) + r) + c) in Some (Lw t, Hw t).
Definition mul (a w c : Z) : option (Z * Z) :=
  let t := u128 (u128 (w * a) + c) in Some (Lw t, Hw t).

Definition bn_mul_add_words (rp ap : words_ptr) (num w : Z) : bnM Z :=
  if num =? 0 then mret 0
  else unrolled (step2 (fun r a c => mul_add r a w c) rp rp ap) num 0.
Definition bn_mul_words (rp ap : words_ptr) (num w : Z) : bnM Z :=
  if num =? 0 then mret 0
  else unrolled (step1 (fun a c => mul a w c) rp ap) num 0.
Definition bn_add_words (r a b : words_ptr) (n : Z) : bnM Z :=
  if n =? 0 then mret 0 else unrolled (step2 CRYPTO_addc_w r a b) n 0.
Definition bn_sub_words (r a b : words_ptr) (n : Z) : bnM Z :=
  if n =? 0 then mret 0 else unrolled (step2 CRYPTO_subc_w r a b) n 0.

(** ** bn.c.inc *)

Section bn.
(** Where [OPENSSL_malloc] puts a BIGNUM. *)
Context (malloc : gmap Z bignum -> Z).

Definition bn_alloc_ok : bnM bool := fun w =>
  match bn_oom w with
  | b :: r => Some (negb b, mk_bn_world (bns w) r)
  | [] => Some (true, w)
  end.

Definition new_object (b : bignum) : bnM Z := fun w =>
  let p := malloc (bns w) in Some (p, set_bn p b w).
Definition delete_object (p : Z) : bnM unit :=
  _ ← get_bn p; modify (fun w => mk_bn_world (delete p (bns w)) (bn_oom w)).

Definition BN_new : bnM Z :=
  ok ← bn_alloc_ok;
  if negb ok then mret NULL else new_object (mk_bn [] 0 0 0 BN_FLG_MALLOCED).

Definition BN_init (bn : Z) : bnM unit := update bn (fun _ => mk_bn [] 0 0 0 0).

Definition BN_free (bn : Z) : bnM unit :=
  if bn =? NULL then mret tt
  else
    b ← get_bn bn;
    if negb (Z.land (bn_flags b) BN_FLG_MALLOCED =? 0) then delete_object bn
    else put_bn bn (with_d [] b).
Definition BN_clear_free : Z -> bnM unit := BN_free.

Definition bn_wexpand (bn words : Z) : bnM bool :=
  b ← get_bn bn;
  if words <=? bn_dmax b then mret true
  else if BN_MAX_WORDS <? words then mret false
  else if negb (Z.land (bn_flags b) BN_FLG_STATIC_DATA =? 0) then mret false
  else
    ok ← bn_alloc_ok;
    if negb ok then mret false
    else
      l ← read_words (bn, 0) (bn_width b);
      if words <? bn_width b then wrong
      else
        _ ← put_bn bn (with_d (l ++ replicate (Z.to_nat (words - bn_width b)) 0) b);
        _ ← update bn (with_dmax words);
        mret true.

Definition bn_expand (bn bits : Z) : bnM bool :=
  if u64 (bits + BN_BITS2 - 1) <? bits then mret false
  else bn_wexpand bn (u64 (bits + BN_BITS2 - 1) / BN_BITS2).

Definition BN_copy (dest src : Z) : bnM bool :=
  if src =? dest then mret true
  else
    width ← get_width src;
    ok ← bn_wexpand dest width;
    if negb ok then mret false
    else
      _ ← copy_words (dest, 0) (src, 0) width;
      b ← get_bn src;
      _ ← update dest (with_width (bn_width b));
      _ ← update dest (with_neg (bn_neg b));
      mret true.

Definition BN_dup (src : Z) : bnM Z :=
  if src =? NULL then mret NULL
  else
    copy ← BN_new;
    if copy =? NULL then mret NULL
    else
      ok ← BN_copy copy src;
      if negb ok then _ ← BN_free copy; mret NULL else mret copy.

Definition BN_clear (bn : Z) : bnM unit :=
  b ← get_bn bn;
  _ ← (match bn_d b with [] => mret tt | _ => zero_words (bn, 0) (bn_dmax b) end);
  _ ← update bn (with_width 0);
  update bn (with_neg 0).

Definition BN_value_one : bignum := mk_bn [1] 1 1 0 BN_FLG_STATIC_DATA.

(** One of the blocks of [BN_num_bits_word]: the bits of [l], [n] of them in its lower
    half. *)
Definition num_bits_block (n : Z) (lb : Z * Z) : Z * Z :=
  let '(l, bits) := lb in
  let x := Z.shiftr l n in
  let mask := u64 (0 - x) in
  let mask := u64 (0 - Z.shiftr mask (BN_BITS2 - 1)) in
  (Z.lxor l (Z.land (Z.lxor x l) mask), bits + Z.land n mask).
Definition BN_num_bits_word (l : Z) : Z :=
  let bits := Z.b2z (negb (l =? 0)) in
  (num_bits_block 1 (num_bits_block 2 (num_bits_block 4
    (num_bits_block 8 (num_bits_block 16 (num_bits_block 32 (l, bits))))))).2.

(** [while (ret > 0 && bn->d[ret - 1] == 0)] *)
Fixpoint minimal_width_loop (bn : Z) (ret : nat) : bnM Z :=
  match ret with
  | O => mret 0
  | S ret' =>
    x ← load (bn, Z.of_nat ret');
    if x =? 0 then minimal_width_loop bn ret' else mret (Z.of_nat ret)
  end.
Definition bn_minimal_width (bn : Z) : bnM Z :=
  width ← get_width bn; minimal_width_loop bn (Z.to_nat width).

Definition bn_set_minimal_width (bn : Z) : bnM unit :=
  width ← bn_minimal_width bn;
  _ ← update bn (with_width width);
  if width =? 0 then update bn (with_neg 0) else mret tt.

Definition BN_num_bits (bn : Z) : bnM Z :=
  width ← bn_minimal_width bn;
  if width =? 0 then mret 0
  else
    x ← load (bn, width - 1);
    mret (u32 ((width - 1) * BN_BITS2 + BN_num_bits_word x)).
Definition BN_num_bytes (bn : Z) : bnM Z :=
  bits ← BN_num_bits bn; mret (u32 (bits + 7) / 8).

Definition BN_zero (bn : Z) : bnM unit :=
  _ ← update bn (with_neg 0); update bn (with_width 0).

Definition BN_set_word (bn value : Z) : bnM bool :=
  if value =? 0 then _ ← BN_zero bn; mret true
  else
    ok ← bn_wexpand bn 1;
    if negb ok then mret false
    else
      _ ← update bn (with_neg 0);
      _ ← store (bn, 0) value;
      _ ← update bn (with_width 1);
      mret true.
Definition BN_set_u64 : Z -> Z -> bnM bool := BN_set_word.
Definition BN_one (bn : Z) : bnM bool := BN_set_word bn 1.

(** From an array of the caller's. *)
Definition bn_set_words (bn : Z) (words : list Z) : bnM bool :=
  let num := Z.of_nat (length words) in
  ok ← bn_wexpand bn num;
  if negb ok then mret false
  else
    _ ← write_words (bn, 0) words;
    _ ← update bn (with_width num);
    _ ← update bn (with_neg 0);
    mret true.
Definition bn_set_static_words (bn : Z) (words : list Z) : bnM unit :=
  let num := Z.of_nat (length words) in
  _ ← update bn (with_d words);
  _ ← c_assert (num <=? BN_MAX_WORDS);
  _ ← update bn (with_width num);
  _ ← update bn (with_dmax num);
  _ ← update bn (with_neg 0);
  update bn (fun b => with_flags (Z.lor (bn_flags b) BN_FLG_STATIC_DATA) b).

(** [mask |= q[i]], from [i], [m] words to go. *)
Fixpoint or_words (m : nat) (q : words_ptr) (i mask : Z) : bnM Z :=
  match m with
  | O => mret mask
  | S m => x ← load (at_ q i); or_words m q (i + 1) (Z.lor mask x)
  end.

Definition bn_fits_in_words (bn num : Z) : bnM bool :=
  width ← get_width bn;
  mask ← or_words (Z.to_nat (width - num)) (bn, 0) num 0;
  mret (mask =? 0).

(** The words written to [out], [num] of them. *)
Definition bn_copy_words (num bn : Z) : bnM (option (list Z)) :=
  b ← get_bn bn;
  if negb (bn_neg b =? 0) then mret None
  else
    let width := bn_width b in
    fits ← (if num <? width then bn_fits_in_words bn num else mret true);
    if negb fits then mret None
    else
      let width := if num <? width then num else width in
      l ← read_words (bn, 0) width;
      mret (Some (l ++ replicate (Z.to_nat (num - width)) 0)).

Definition BN_is_zero (bn : Z) : bnM bool := bn_fits_in_words bn 0.
Definition BN_is_negative (bn : Z) : bnM bool := n ← get_neg bn; mret (negb (n =? 0)).
Definition BN_set_negative (bn sign : Z) : bnM unit :=
  if sign =? 0 then update bn (with_neg 0)
  else
    z ← BN_is_zero bn;
    if (z : bool) then update bn (with_neg 0) else update bn (with_neg 1).

Definition bn_resize_words (bn words : Z) : bnM bool :=
  width ← get_width bn;
  if width <=? words then
    ok ← bn_wexpand bn words;
    if negb ok then mret false
    else
      _ ← zero_words (bn, width) (words - width);
      _ ← update bn (with_width words);
      mret true
  else
    fits ← bn_fits_in_words bn words;
    if negb fits then mret false
    else _ ← update bn (with_width words); mret true.

Definition bn_select_words (r : words_ptr) (mask : Z) (a b : words_ptr) (num : Z) : bnM unit :=
  _ ← steps (step2 (fun x y c => Some (constant_time_select_w mask x y, c)) r a b) (Z.to_nat num) 0 0;
  mret tt.

End bn.
