(* ===== verification/BnArith.v ===== *)
(** * BoringSSL: big-number arithmetic (cmp.c.inc, add.c.inc, shift.c.inc, bytes.c.inc)

    And the functions on one word of mul.c.inc and div.c.inc. *)
From S2P Require Export Bn.

(** ** cmp.c.inc *)

(** [for (size_t i = 0; i < min; i++)], from [i], [m] iterations to go. *)
Fixpoint cmp_loop (m : nat) (a b : words_ptr) (i ret : Z) : bnM Z :=
  match m with
  | O => mret ret
  | S m =>
    x ← load (at_ a i); y ← load (at_ b i);
    let eq := constant_time_eq_w x y in
    let lt := constant_time_lt_w x y in
    cmp_loop m a b (i + 1)
      (constant_time_select_int eq ret (constant_time_select_int lt (-1) 1))
  end.

Definition bn_cmp_words_consttime (a : words_ptr) (a_len : Z) (b : words_ptr) (b_len : Z) : bnM Z :=
  let min := if a_len <? b_len then a_len else b_len in
  ret ← cmp_loop (Z.to_nat min) a b 0 0;
  if a_len <? b_len then
    mask ← or_words (Z.to_nat (b_len - a_len)) b a_len 0;
    mret (constant_time_select_int (constant_time_is_zero_w mask) ret (-1))
  else if b_len <? a_len then
    mask ← or_words (Z.to_nat (a_len - b_len)) a b_len 0;
    mret (constant_time_select_int (constant_time_is_zero_w mask) ret 1)
  else mret ret.

Definition BN_ucmp (a b : Z) : bnM Z :=
  wa ← get_width a; wb ← get_width b;
  bn_cmp_words_consttime (a, 0) wa (b, 0) wb.

Definition BN_cmp (a b : Z) : bnM Z :=
  if (a =? NULL) || (b =? NULL) then
    mret (if negb (a =? NULL) then -1 else if negb (b =? NULL) then 1 else 0)
  else
    na ← get_neg a; nb ← get_neg b;
    if negb (na =? nb) then mret (if negb (na =? 0) then -1 else 1)
    else
      ret ← BN_ucmp a b;
      mret (if negb (na =? 0) then - ret else ret).

Definition bn_less_than_words (a b : words_ptr) (len : Z) : bnM bool :=
  c ← bn_cmp_words_consttime a len b len; mret (c <? 0).

Definition BN_abs_is_word (bn w : Z) : bnM bool :=
  width ← get_width bn;
  if width =? 0 then mret (w =? 0)
  else
    x ← load (bn, 0);
    mask ← or_words (Z.to_nat (width - 1)) (bn, 0) 1 (Z.lxor x w);
    mret (mask =? 0).

Definition BN_is_one (bn : Z) : bnM bool :=
  n ← get_neg bn; one ← BN_abs_is_word bn 1; mret ((n =? 0) && one).
Definition BN_is_word (bn w : Z) : bnM bool :=
  n ← get_neg bn; e ← BN_abs_is_word bn w; mret (e && ((w =? 0) || (n =? 0))).
Definition BN_is_odd (bn : Z) : bnM bool :=
  width ← get_width bn;
  if width <=? 0 then mret false
  else x ← load (bn, 0); mret (Z.land x 1 =? 1).

(** [if (bn->d[i] != 0) return 0;], from [i]. *)
Fixpoint all_zero_loop (m : nat) (q : words_ptr) (i : Z) : bnM bool :=
  match m with
  | O => mret true
  | S m => x ← load (at_ q i); if negb (x =? 0) then mret false else all_zero_loop m q (i + 1)
  end.
Definition BN_is_pow2 (bn : Z) : bnM bool :=
  width ← bn_minimal_width bn; n ← get_neg bn;
  if (width =? 0) || negb (n =? 0) then mret false
  else
    z ← all_zero_loop (Z.to_nat (width - 1)) (bn, 0) 0;
    if negb z then mret false
    else x ← load (bn, width - 1); mret (0 =? Z.land x (u64 (x - 1))).

(** [mask |= (a->d[i] ^ b->d[i])] *)
Fixpoint xor_words (m : nat) (a b : words_ptr) (i mask : Z) : bnM Z :=
  match m with
  | O => mret mask
  | S m =>
    x ← load (at_ a i); y ← load (at_ b i);
    xor_words m a b (i + 1) (Z.lor mask (Z.lxor x y))
  end.
Definition BN_equal_consttime (a b : Z) : bnM bool :=
  ba ← get_bn a; bb ← get_bn b;
  let wa := bn_width ba in let wb := bn_width bb in
  mask ← or_words (Z.to_nat (wb - wa)) (b, 0) wa 0;
  mask ← or_words (Z.to_nat (wa - wb)) (a, 0) wb mask;
  mask ← xor_words (Z.to_nat (if wa <? wb then wa else wb)) (a, 0) (b, 0) 0 mask;
  mret (Z.lor mask (u64 (Z.lxor (bn_neg ba) (bn_neg bb))) =? 0).

(** ** add.c.inc *)

(** [bn_uadd_consttime] once [a] is the one of the larger width. *)
Definition uadd_ordered (r a b : Z) : bnM bool :=
  max ← get_width a; min ← get_width b;
  ok ← bn_wexpand r (max + 1);
  if negb ok then mret false
  else
    _ ← update r (with_width (max + 1));
    carry ← bn_add_words (r, 0) (a, 0) (b, 0) min;
    carry ← steps (step1 (fun x c => CRYPTO_addc_w x 0 c) (r, 0) (a, 0))
              (Z.to_nat (max - min)) min carry;
    _ ← store (r, max) carry;
    mret true.

Definition bn_uadd_consttime (r a b : Z) : bnM bool :=
  wa ← get_width a; wb ← get_width b;
  if wa <? wb then uadd_ordered r b a else uadd_ordered r a b.

Definition BN_uadd (r a b : Z) : bnM bool :=
  ok ← bn_uadd_consttime r a b;
  if negb ok then mret false else _ ← bn_set_minimal_width r; mret true.

Definition bn_usub_consttime (r a b : Z) : bnM bool :=
  wa ← get_width a; wb ← get_width b;
  fits ← (if wa <? wb then bn_fits_in_words b wa else mret true);
  if negb fits then mret false
  else
    let b_width := if wa <? wb then wa else wb in
    ok ← bn_wexpand r wa;
    if negb ok then mret false
    else
      borrow ← bn_sub_words (r, 0) (a, 0) (b, 0) b_width;
      borrow ← steps (step1 (fun x c => CRYPTO_subc_w x 0 c) (r, 0) (a, 0))
                 (Z.to_nat (wa - b_width)) b_width borrow;
      if negb (borrow =? 0) then mret false
      else
        wa ← get_width a;
        _ ← update r (with_width wa);
        _ ← update r (with_neg 0);
        mret true.

Definition BN_usub (r a b : Z) : bnM bool :=
  ok ← bn_usub_consttime r a b;
  if negb ok then mret false else _ ← bn_set_minimal_width r; mret true.

(** [a - b], of numbers that are taken as not negative. *)
Definition sub_signed (r a b : Z) : bnM bool :=
  c ← BN_ucmp a b;
  if c <? 0 then
    ok ← BN_usub r b a;
    if negb ok then mret false else _ ← update r (with_neg 1); mret true
  else
    ok ← BN_usub r a b;
    if negb ok then mret false else _ ← update r (with_neg 0); mret true.

Definition BN_add (r a b : Z) : bnM bool :=
  a_neg ← get_neg a; b_neg ← get_neg b;
  if negb (Z.lxor a_neg b_neg =? 0) then
    if negb (a_neg =? 0) then sub_signed r b a else sub_signed r a b
  else
    ret ← BN_uadd r a b;
    _ ← update r (with_neg a_neg);
    mret ret.

Definition BN_sub (r a b : Z) : bnM bool :=
  a_neg ← get_neg a; b_neg ← get_neg b;
  let '(a, b, add, neg) :=
    if negb (a_neg =? 0) then
      if negb (b_neg =? 0) then (b, a, false, 0) else (a, b, true, 1)
    else if negb (b_neg =? 0) then (a, b, true, 0) else (a, b, false, 0) in
  if add : bool then
    ok ← BN_uadd r a b;
    if negb ok then mret false else _ ← update r (with_neg neg); mret true
  else sub_signed r a b.

(** [for (i = 0; w != 0 && i < a->width; i++)]: the index and the word it ends with. *)
Fixpoint add_word_loop (m : nat) (a i w : Z) : bnM (Z * Z) :=
  match m with
  | O => mret (i, w)
  | S m =>
    if w =? 0 then mret (i, w)
    else
      x ← load (a, i);
      let l := u64 (x + w) in
      _ ← store (a, i) l;
      add_word_loop m a (i + 1) (if l <? w then 1 else 0)
  end.

(** [for (;;)] of [BN_sub_word]: the index it stops at. Each iteration takes one of the
    [m] words left. *)
Fixpoint sub_word_loop (m : nat) (a i w : Z) : bnM Z :=
  match m with
  | O => wrong
  | S m =>
    x ← load (a, i);
    _ ← store (a, i) (u64 (x - w));
    if w <=? x then mret i else sub_word_loop m a (i + 1) 1
  end.

Section bn.
Context (malloc : gmap Z bignum -> Z).

(** The two functions call each other when [a] is negative, having cleared the sign; the
    callee is a parameter. *)
Definition add_word_with (BN_sub_word : Z -> Z -> bnM bool) (a w : Z) : bnM bool :=
  if w =? 0 then mret true
  else
    z ← BN_is_zero a;
    if (z : bool) then BN_set_word a w
    else
      n ← get_neg a;
      if negb (n =? 0) then
        _ ← update a (with_neg 0);
        i ← BN_sub_word a w;
        z ← BN_is_zero a;
        _ ← (if negb z then update a (fun b => with_neg (Z.b2z (bn_neg b =? 0)) b) else mret tt);
        mret i
      else
        width ← get_width a;
        '(i, w) ← add_word_loop (Z.to_nat width) a 0 w;
        if negb (w =? 0) && (i =? width) then
          ok ← bn_wexpand a (width + 1);
          if negb ok then mret false
          else
            _ ← update a (with_width (width + 1));
            _ ← store (a, i) w;
            mret true
        else mret true.

Definition sub_word_with (BN_add_word : Z -> Z -> bnM bool) (a w : Z) : bnM bool :=
  if w =? 0 then mret true
  else
    z ← BN_is_zero a;
    if (z : bool) then
      i ← BN_set_word a w;
      _ ← (if (i : bool) then BN_set_negative a 1 else mret tt);
      mret i
    else
      n ← get_neg a;
      if negb (n =? 0) then
        _ ← update a (with_neg 0);
        i ← BN_add_word a w;
        _ ← update a (with_neg 1);
        mret i
      else
        m ← bn_minimal_width a;
        x ← load (a, 0);
        if (m =? 1) && (x <? w) then
          _ ← store (a, 0) (u64 (w - x));
          _ ← update a (with_neg 1);
          mret true
        else
          width ← get_width a;
          i ← sub_word_loop (Z.to_nat width) a 0 w;
          x ← load (a, i);
          _ ← (if (x =? 0) && (i =? width - 1) then update a (with_width (width - 1)) else mret tt);
          mret true.

Definition BN_add_word : Z -> Z -> bnM bool := add_word_with (sub_word_with (fun _ _ => wrong)).
Definition BN_sub_word : Z -> Z -> bnM bool := sub_word_with (add_word_with (fun _ _ => wrong)).

(** A BIGNUM that lives as long as a call. *)
Definition with_local {A} (b : bignum) (k : Z -> bnM A) : bnM A :=
  p ← new_object malloc b; r ← k p; _ ← delete_object p; mret r.

Definition BN_cmp_word (a b : Z) : bnM Z :=
  with_local (mk_bn [b] (Z.b2z (0 <? b)) 1 0 BN_FLG_STATIC_DATA) (BN_cmp a).

(** ** Functions on a word, of mul.c.inc and div.c.inc *)

Definition BN_mul_word (bn w : Z) : bnM bool :=
  width ← get_width bn;
  if width =? 0 then mret true
  else if w =? 0 then _ ← BN_zero bn; mret true
  else
    ll ← bn_mul_words (bn, 0) (bn, 0) width w;
    if negb (ll =? 0) then
      ok ← bn_wexpand bn (width + 1);
      if negb ok then mret false
      else
        _ ← store (bn, width) ll;
        _ ← update bn (with_width (width + 1));
        mret true
    else mret true.

(** The quotient and the remainder of a two-word integer. *)
Definition bn_div_rem_words (n0 n1 d0 : Z) : option (Z * Z) :=
  if d0 =? 0 then None
  else
    let n := Z.lor (u128 (Z.shiftl n0 BN_BITS2)) n1 in
    let quotient := u64 (n / d0) in
    Some (quotient, u64 (n1 - u64 (quotient * d0))).
End bn.

(** ** shift.c.inc *)

(** [for (i = a->width - 1; i >= 0; i--)], [m] iterations to go. *)
Fixpoint lshift_loop (m : nat) (t f : words_ptr) (nw lb : Z) : bnM unit :=
  match m with
  | O => mret tt
  | S m =>
    let i := Z.of_nat m in
    l ← load (at_ f i);
    _ ← (if lb =? 0 then store (at_ t (nw + i)) l
         else
           x ← load (at_ t (nw + i + 1));
           _ ← store (at_ t (nw + i + 1)) (Z.lor x (Z.shiftr l (BN_BITS2 - lb)));
           store (at_ t (nw + i)) (u64 (Z.shiftl l lb)));
    lshift_loop m t f nw lb
  end.

Definition BN_lshift (r a n : Z) : bnM bool :=
  if n <? 0 then mret false
  else
    a_neg ← get_neg a;
    _ ← update r (with_neg a_neg);
    let nw := n / BN_BITS2 in
    width ← get_width a;
    ok ← bn_wexpand r (width + nw + 1);
    if negb ok then mret false
    else
      let lb := n mod BN_BITS2 in
      _ ← store (r, width + nw) 0;
      _ ← lshift_loop (Z.to_nat width) (r, 0) (a, 0) nw lb;
      _ ← zero_words (r, 0) nw;
      _ ← update r (with_width (width + nw + 1));
      _ ← bn_set_minimal_width r;
      mret true.

Definition BN_lshift1 (r a : Z) : bnM bool :=
  b ← get_bn a;
  _ ← (if negb (r =? a) then update r (with_neg (bn_neg b)) else mret tt);
  ok ← bn_wexpand r (bn_width b + 1);
  if negb ok then mret false
  else
    _ ← (if negb (r =? a) then update r (with_width (bn_width b)) else mret tt);
    c ← steps (step1 (fun t c => Some (Z.lor (u64 (Z.shiftl t 1)) c, Z.shiftr t (BN_BITS2 - 1)))
                 (r, 0) (a, 0)) (Z.to_nat (bn_width b)) 0 0;
    if negb (c =? 0) then
      _ ← store (r, bn_width b) 1;
      _ ← update r (fun b => with_width (bn_width b + 1) b);
      mret true
    else mret true.

(** [(x >> n) | (y << (BN_BITS2 - n))] *)
Definition shift_pair (n x y c : Z) : option (Z * Z) :=
  Some (Z.lor (Z.shiftr x n) (u64 (Z.shiftl y (BN_BITS2 - n))), c).

Definition bn_rshift_words (r a : words_ptr) (shift num : Z) : bnM unit :=
  let shift_bits := shift mod BN_BITS2 in
  let shift_words := shift / BN_BITS2 in
  if num <=? shift_words then zero_words r num
  else
    _ ← (if shift_bits =? 0 then copy_words r (at_ a shift_words) (num - shift_words)
         else
           _ ← steps (step2 (shift_pair shift_bits) r (at_ a shift_words) (at_ a (shift_words + 1)))
                 (Z.to_nat (num - 1 - shift_words)) 0 0;
           x ← load (at_ a (num - 1));
           store (at_ r (num - 1 - shift_words)) (Z.shiftr x shift_bits));
    zero_words (at_ r (num - shift_words)) shift_words.

Definition BN_rshift (r a n : Z) : bnM bool :=
  if n <? 0 then mret false
  else
    width ← get_width a;
    ok ← bn_wexpand r width;
    if negb ok then mret false
    else
      _ ← bn_rshift_words (r, 0) (a, 0) n width;
      b ← get_bn a;
      _ ← update r (with_neg (bn_neg b));
      _ ← update r (with_width (bn_width b));
      _ ← bn_set_minimal_width r;
      mret true.

Definition bn_rshift1_words (r a : words_ptr) (num : Z) : bnM unit :=
  if num =? 0 then mret tt
  else
    _ ← steps (step2 (shift_pair 1) r a (at_ a 1)) (Z.to_nat (num - 1)) 0 0;
    x ← load (at_ a (num - 1));
    store (at_ r (num - 1)) (Z.shiftr x 1).

Definition BN_rshift1 (r a : Z) : bnM bool :=
  width ← get_width a;
  ok ← bn_wexpand r width;
  if negb ok then mret false
  else
    _ ← bn_rshift1_words (r, 0) (a, 0) width;
    b ← get_bn a;
    _ ← update r (with_width (bn_width b));
    _ ← update r (with_neg (bn_neg b));
    _ ← bn_set_minimal_width r;
    mret true.

Definition BN_set_bit (a n : Z) : bnM bool :=
  if n <? 0 then mret false
  else
    let i := n / BN_BITS2 in
    let j := n mod BN_BITS2 in
    width ← get_width a;
    ok ← (if width <=? i then
            ok ← bn_wexpand a (i + 1);
            if negb ok then mret false
            else
              _ ← zero_words (a, width) (i + 1 - width);
              _ ← update a (with_width (i + 1));
              mret true
          else mret true);
    if negb ok then mret false
    else
      x ← load (a, i);
      _ ← store (a, i) (Z.lor x (u64 (Z.shiftl 1 j)));
      mret true.

Definition BN_clear_bit (a n : Z) : bnM bool :=
  if n <? 0 then mret false
  else
    let i := n / BN_BITS2 in
    let j := n mod BN_BITS2 in
    width ← get_width a;
    if width <=? i then mret false
    else
      x ← load (a, i);
      _ ← store (a, i) (Z.land x (u64 (Z.lnot (u64 (Z.shiftl 1 j)))));
      _ ← bn_set_minimal_width a;
      mret true.

Definition bn_is_bit_set_words (a : words_ptr) (num bit : Z) : bnM Z :=
  let i := bit / BN_BITS2 in
  let j := bit mod BN_BITS2 in
  if num <=? i then mret 0
  else x ← load (at_ a i); mret (Z.land (Z.shiftr x j) 1).
Definition BN_is_bit_set (a n : Z) : bnM Z :=
  if n <? 0 then mret 0
  else width ← get_width a; bn_is_bit_set_words (a, 0) width n.

Definition BN_mask_bits (a n : Z) : bnM bool :=
  if n <? 0 then mret false
  else
    let w := n / BN_BITS2 in
    let b := n mod BN_BITS2 in
    width ← get_width a;
    if width <=? w then mret true
    else
      _ ← (if b =? 0 then update a (with_width w)
           else
             _ ← update a (with_width (w + 1));
             x ← load (a, w);
             store (a, w) (Z.land x (u64 (Z.lnot (u64 (Z.shiftl BN_MASK2 b))))));
      _ ← bn_set_minimal_width a;
      mret true.

(** One of the blocks of [bn_count_low_zero_bits_word]: [n] bits. *)
Definition low_zero_block (n : Z) (lb : Z * Z) : Z * Z :=
  let '(l, bits) := lb in
  let mask := constant_time_is_zero_w (u64 (Z.shiftl l (BN_BITS2 - n))) in
  (constant_time_select_w mask (Z.shiftr l n) l, bits + Z.land n mask).
Definition bn_count_low_zero_bits_word (l : Z) : Z :=
  (low_zero_block 1 (low_zero_block 2 (low_zero_block 4
    (low_zero_block 8 (low_zero_block 16 (low_zero_block 32 (l, 0))))))).2.

Fixpoint low_zero_loop (m : nat) (bn i ret saw_nonzero : Z) : bnM Z :=
  match m with
  | O => mret ret
  | S m =>
    x ← load (bn, i);
    let nonzero := u64 (Z.lnot (constant_time_is_zero_w x)) in
    let first_nonzero := Z.land (u64 (Z.lnot saw_nonzero)) nonzero in
    let bits := bn_count_low_zero_bits_word x in
    low_zero_loop m bn (i + 1)
      (s32 (Z.lor ret (Z.land first_nonzero (i * BN_BITS2 + bits))))
      (Z.lor saw_nonzero nonzero)
  end.
Definition BN_count_low_zero_bits (bn : Z) : bnM Z :=
  width ← get_width bn; low_zero_loop (Z.to_nat width) bn 0 0 0.

(** ** Division by a word *)

Fixpoint div_word_loop (m : nat) (a w ret : Z) : bnM Z :=
  match m with
  | O => mret ret
  | S m =>
    let i := Z.of_nat m in
    l ← load (a, i);
    '(d, _) ← of_opt (bn_div_rem_words ret l w);
    _ ← store (a, i) d;
    div_word_loop m a w (u64 (l - u64 (d * w)))
  end.

(** [(BN_ULONG)-1] on error. *)
Definition BN_div_word (a w : Z) : bnM Z :=
  if w =? 0 then mret BN_MASK2
  else
    width ← get_width a;
    if width =? 0 then mret 0
    else
      let j := BN_BITS2 - BN_num_bits_word w in
      let w := u64 (Z.shiftl w j) in
      ok ← BN_lshift a a j;
      if negb ok then mret BN_MASK2
      else
        width ← get_width a;
        ret ← div_word_loop (Z.to_nat width) a w 0;
        _ ← bn_set_minimal_width a;
        mret (Z.shiftr ret j).

Fixpoint mod_word_loop (m : nat) (a w ret : Z) : bnM Z :=
  match m with
  | O => mret ret
  | S m =>
    x ← load (a, Z.of_nat m);
    mod_word_loop m a w (Z.lor (u128 (Z.shiftl ret BN_BITS2)) x mod w)
  end.
Definition BN_mod_word (a w : Z) : bnM Z :=
  if w =? 0 then mret BN_MASK2
  else width ← get_width a; ret ← mod_word_loop (Z.to_nat width) a w 0; mret (u64 ret).
