(* ===== verification/BnBytes.v ===== *)
(** * BoringSSL: big numbers as bytes (crypto/fipsmodule/bn/bytes.c.inc)

    Bytes are lists; a buffer the caller provides is a list of its size, and the result is
    what it holds afterwards. The code takes words as bytes in memory, where the least
    significant byte of each is first. *)
From S2P Require Export BnArith Cbs.

(** ** Words as bytes *)

Definition words_bytes (l : list Z) : list Z := concat (map (le_split 8) l).

Fixpoint bytes_words (fuel : nat) (l : list Z) : list Z :=
  match fuel, l with
  | S fuel, _ :: _ => le_combine (take 8 l) :: bytes_words fuel (drop 8 l)
  | _, _ => []
  end.

(** [OPENSSL_memcpy] to the start of an array of words. *)
Definition write_bytes (bn : Z) (l : list Z) : bnM unit :=
  b ← get_bn bn;
  if Z.of_nat (length l) <=? BN_BYTES * Z.of_nat (length (bn_d b)) then
    put_bn bn (with_d (bytes_words (length (bn_d b))
                         (l ++ drop (length l) (words_bytes (bn_d b)))) b)
  else wrong.

Definition CRYPTO_load_word_be (l : list Z) : Z := CRYPTO_bswap8 (le_combine l).

(** ** From bytes *)

(** [while (in_len >= sizeof(BN_ULONG))]: the bytes that are left. *)
Fixpoint load_words (fuel : nat) (out : words_ptr) (out_len : Z) (inp : list Z)
  : bnM (words_ptr * Z * list Z) :=
  let in_len := Z.of_nat (length inp) in
  if in_len <? BN_BYTES then mret (out, out_len, inp)
  else
    match fuel with
    | O => wrong
    | S fuel =>
      let rest := Z.to_nat (in_len - BN_BYTES) in
      _ ← store out (CRYPTO_load_word_be (drop rest inp));
      load_words fuel (at_ out 1) (u64 (out_len - 1)) (take rest inp)
    end.

Definition bn_big_endian_to_words (out : words_ptr) (out_len : Z) (inp : list Z) : bnM unit :=
  (* BSSL_CHECK *)
  if negb (Z.of_nat (length inp) <=? u64 (out_len * BN_BYTES)) then wrong
  else
    '(out, out_len, inp) ← load_words (length inp) out out_len inp;
    '(out, out_len) ← (if negb (Z.of_nat (length inp) =? 0) then
        let word := fold_left (fun word b => Z.lor (u64 (Z.shiftl word 8)) b) inp 0 in
        _ ← store out word;
        mret (at_ out 1, u64 (out_len - 1))
      else mret (out, out_len));
    zero_words out out_len.

Section bn.
Context (malloc : gmap Z bignum -> Z).

(** The object, or [NULL]. *)
Definition BN_bin2bn (inp : list Z) (ret : Z) : bnM Z :=
  let len := Z.of_nat (length inp) in
  '(bn, ret) ← (if ret =? NULL then bn ← BN_new malloc; mret (bn, bn) else mret (NULL, ret));
  if ret =? NULL then mret NULL
  else if len =? 0 then _ ← update ret (with_width 0); mret ret
  else
    let num_words := (len - 1) / BN_BYTES + 1 in
    ok ← bn_wexpand ret num_words;
    if negb ok then _ ← BN_free bn; mret NULL
    else
      _ ← c_assert (num_words <=? INT_MAX);
      _ ← update ret (with_width num_words);
      _ ← update ret (with_neg 0);
      width ← get_width ret;
      _ ← bn_big_endian_to_words (ret, 0) width inp;
      mret ret.

Definition BN_lebin2bn (inp : list Z) (ret : Z) : bnM Z :=
  let len := Z.of_nat (length inp) in
  '(bn, ret) ← (if ret =? NULL then bn ← BN_new malloc; mret (bn, bn) else mret (NULL, ret));
  if ret =? NULL then mret NULL
  else if len =? 0 then
    _ ← update ret (with_width 0);
    _ ← update ret (with_neg 0);
    mret ret
  else
    let num_words := (len - 1) / BN_BYTES + 1 in
    ok ← bn_wexpand ret num_words;
    if negb ok then _ ← BN_free bn; mret NULL
    else
      _ ← update ret (with_width num_words);
      _ ← store (ret, num_words - 1) 0;
      _ ← write_bytes ret inp;
      mret ret.
Definition BN_le2bn : list Z -> Z -> bnM Z := BN_lebin2bn.
End bn.

(** ** To bytes *)

Definition fits_in_bytes (words : list Z) (num_bytes : Z) : bool :=
  fold_left Z.lor (drop (Z.to_nat num_bytes) (words_bytes words)) 0 =? 0.

Definition bn_assert_fits_in_bytes (bn num : Z) : bnM unit :=
  width ← get_width bn;
  l ← read_words (bn, 0) width;
  if num <? width * BN_BYTES then
    c_assert (forallb (fun b => b =? 0) (drop (Z.to_nat num) (words_bytes l)))
  else mret tt.

(** [for (size_t i = 0; i < num_bytes; i++)], from [i]. *)
Fixpoint reverse_loop (bytes : list Z) (i out_len : Z) (out : list Z) : list Z :=
  match bytes with
  | [] => out
  | b :: bytes => reverse_loop bytes (i + 1) out_len (<[Z.to_nat (out_len - i - 1) := b]> out)
  end.

Definition bn_words_to_big_endian (out : list Z) (inp : list Z) : option (list Z) :=
  let out_len := Z.of_nat (length out) in
  if negb (fits_in_bytes inp out_len) then None
  else
    let bytes := words_bytes inp in
    let num_bytes := Z.of_nat (length inp) * BN_BYTES in
    let num_bytes := if out_len <? num_bytes then out_len else num_bytes in
    let out := reverse_loop (take (Z.to_nat num_bytes) bytes) 0 out_len out in
    let pad := Z.to_nat (out_len - num_bytes) in
    Some (replicate pad 0 ++ drop pad out).

(** The number of bytes written, to the start of [out]. *)
Definition BN_bn2bin (inp : Z) (out : list Z) : bnM (Z * list Z) :=
  n ← BN_num_bytes inp;
  width ← get_width inp;
  l ← read_words (inp, 0) width;
  if Z.of_nat (length out) <? n then wrong
  else
    written ← of_opt (bn_words_to_big_endian (take (Z.to_nat n) out) l);
    mret (n, written ++ drop (Z.to_nat n) out).

Definition BN_bn2le_padded (out : list Z) (inp : Z) : bnM (option (list Z)) :=
  let len := Z.of_nat (length out) in
  width ← get_width inp;
  l ← read_words (inp, 0) width;
  if negb (fits_in_bytes l len) then mret None
  else
    let bytes := words_bytes l in
    let num_bytes := width * BN_BYTES in
    let num_bytes := if len <? num_bytes then len else num_bytes in
    mret (Some (take (Z.to_nat num_bytes) bytes ++ replicate (Z.to_nat (len - num_bytes)) 0)).

Definition BN_bn2bin_padded (out : list Z) (inp : Z) : bnM (option (list Z)) :=
  width ← get_width inp;
  l ← read_words (inp, 0) width;
  if negb (fits_in_bytes l (Z.of_nat (length out))) then mret None
  else out ← of_opt (bn_words_to_big_endian out l); mret (Some out).

Definition BN_get_word (bn : Z) : bnM Z :=
  width ← bn_minimal_width bn;
  if width =? 0 then mret 0
  else if width =? 1 then load (bn, 0)
  else mret BN_MASK2.
Definition BN_get_u64 (bn : Z) : bnM (option Z) :=
  width ← bn_minimal_width bn;
  if width =? 0 then mret (Some 0)
  else if width =? 1 then x ← load (bn, 0); mret (Some x)
  else mret None.
