(* ===== verification/BnWords.v ===== *)
(** * Big numbers: lists of words

    The number a list of words stands for, the loops over words as functions on lists,
    and the loops of the program, which read and write arrays that may be the same. *)
From S2P Require Export BnArith.

Notation lenZ l := (Z.of_nat (length l)).

Definition wbase : Z := 2 ^ 64.
#[global] Arguments wbase : simpl never.
#[global] Arguments Z.mul : simpl never.
#[global] Arguments Z.add : simpl never.
#[global] Arguments Z.pow : simpl never.
Definition words (l : list Z) : Prop := Forall word l.

Fixpoint val (l : list Z) : Z :=
  match l with [] => 0 | x :: l => x + wbase * val l end.

(** [wbase ^ n] *)
Definition bpow (n : nat) : Z := wbase ^ Z.of_nat n.

Lemma wbase_pos : 0 < wbase.
Proof. done. Qed.
Lemma bpow_pos n : 0 < bpow n.
Proof. apply Z.pow_pos_nonneg; [done|lia]. Qed.
Lemma bpow_0 : bpow 0 = 1.
Proof. done. Qed.
Lemma bpow_S n : bpow (S n) = wbase * bpow n.
Proof. unfold bpow. rewrite Nat2Z.inj_succ, Z.pow_succ_r by lia. done. Qed.
Lemma bpow_add n m : bpow (n + m) = bpow n * bpow m.
Proof. unfold bpow. rewrite Nat2Z.inj_add, Z.pow_add_r by lia. done. Qed.
Lemma bpow_mono n m : (n <= m)%nat -> bpow n <= bpow m.
Proof. intros H. apply Z.pow_le_mono_r; [done|lia]. Qed.
#[export] Hint Resolve bpow_pos wbase_pos : cint.

Lemma words_app l1 l2 : words (l1 ++ l2) <-> words l1 /\ words l2.
Proof. apply Forall_app. Qed.
Lemma words_singleton x : words [x] <-> word x.
Proof. unfold words. by rewrite Forall_singleton. Qed.
Lemma words_take n l : words l -> words (take n l).
Proof. apply Forall_take. Qed.
Lemma words_drop n l : words l -> words (drop n l).
Proof. apply Forall_drop. Qed.
Lemma words_zeros n : words (replicate n 0).
Proof. apply Forall_replicate. done. Qed.
Lemma words_lookup l k x : words l -> l !! k = Some x -> word x.
Proof. intros H. by apply Forall_lookup_1. Qed.
#[export] Hint Resolve words_take words_drop words_zeros : cint.

Lemma val_app l1 l2 : val (l1 ++ l2) = val l1 + bpow (length l1) * val l2.
Proof.
  induction l1 as [|x l IH]; [cbn [length app val]; rewrite bpow_0; lia|].
  cbn [val app length]. rewrite IH, bpow_S. ring.
Qed.

Lemma val_range l : words l -> 0 <= val l < bpow (length l).
Proof.
  induction 1 as [|x l Hx Hl IH]; [cbn [length val]; rewrite bpow_0; lia|]. cbn [val length].
  rewrite bpow_S. unfold word in Hx. fold wbase in Hx. nia.
Qed.

Lemma val_range_len l n : words l -> length l = n -> 0 <= val l < bpow n.
Proof. intros Hl <-. by apply val_range. Qed.

Lemma val_zeros n : val (replicate n 0) = 0.
Proof. induction n as [|n IH]; [done|]. cbn [replicate val]. rewrite IH. lia. Qed.

Lemma val_take_drop n l : val l = val (take n l) + bpow (length (take n l)) * val (drop n l).
Proof. by rewrite <-val_app, take_drop. Qed.

Lemma val_zero_iff l : words l -> val l = 0 <-> Forall (fun x => x = 0) l.
Proof.
  induction 1 as [|x l Hx Hl IH]; [done|]. cbn [val]. rewrite Forall_cons, <-IH.
  pose proof (val_range _ Hl). unfold word in Hx. pose proof wbase_pos. nia.
Qed.

Lemma val_inj l1 l2 :
  words l1 -> words l2 -> length l1 = length l2 -> val l1 = val l2 -> l1 = l2.
Proof.
  intros H1. revert l2. induction H1 as [|x l Hx Hl IH]; intros [|y l2] H2 Hn Hv; try done.
  apply Forall_cons in H2 as [Hy H2]. cbn [val] in Hv. injection Hn as Hn.
  pose proof (val_range _ Hl). pose proof (val_range _ H2). unfold word, wbase in *.
  assert (val l = val l2) by nia. f_equal; [nia|by apply IH].
Qed.

(** ** Loops on lists *)

Fixpoint zip_acc (op : Z -> Z -> Z -> option (Z * Z)) (c : Z) (xs ys : list Z)
  : option (list Z * Z) :=
  match xs, ys with
  | x :: xs, y :: ys =>
    '(s, c) ← op x y c; '(l, c) ← zip_acc op c xs ys; Some (s :: l, c)
  | _, _ => Some ([], c)
  end.

Fixpoint map_acc (op : Z -> Z -> option (Z * Z)) (c : Z) (xs : list Z) : option (list Z * Z) :=
  match xs with
  | x :: xs => '(s, c) ← op x c; '(l, c) ← map_acc op c xs; Some (s :: l, c)
  | [] => Some ([], c)
  end.

Lemma map_acc_zip op c xs : map_acc op c xs = zip_acc (fun x _ c => op x c) c xs xs.
Proof.
  revert c. induction xs as [|x xs IH]; intros c; [done|]. cbn [map_acc zip_acc].
  destruct (op x c) as [[s c1]|]; [|done]. cbn. by rewrite IH.
Qed.

(** A loop each of whose steps keeps [P] of the word carried along, and an equation
    between what it reads and writes of the weights [k], [k1], [k2], [kc]. *)
Lemma zip_acc_linear op (P : Z -> Prop) (k k1 k2 kc : Z) :
  (forall x y c, word x -> word y -> P c ->
     exists s c', op x y c = Some (s, c') /\ word s /\ P c'
                  /\ k * s + kc * (wbase * c') = k1 * x + k2 * y + kc * c) ->
  forall xs ys c, words xs -> words ys -> length xs = length ys -> P c ->
  exists l c', zip_acc op c xs ys = Some (l, c') /\ words l /\ length l = length xs /\ P c'
               /\ k * val l + kc * (bpow (length xs) * c') = k1 * val xs + k2 * val ys + kc * c.
Proof.
  intros Hop xs ys c Hxs. revert ys c. induction Hxs as [|x xs Hx Hxs IH]; intros [|y ys] c Hys Hn Hc;
    try done.
  - exists [], c. split_and!; try done. cbn [length val]. rewrite bpow_0. lia.
  - apply Forall_cons in Hys as [Hy Hys]. injection Hn as Hn.
    destruct (Hop x y c Hx Hy Hc) as (s & c1 & E & Hs & Hc1 & Hv).
    destruct (IH ys c1 Hys Hn Hc1) as (l & c2 & E2 & Hl & Hn2 & Hc2 & Hv2).
    exists (s :: l), c2. cbn [zip_acc]. rewrite E. cbn. rewrite E2. cbn.
    split_and!; [done|by constructor|by rewrite Hn2|done|].
    cbn [length val]. rewrite bpow_S. apply (f_equal (Z.mul wbase)) in Hv2. lia.
Qed.

Lemma lor_word_high x y n :
  0 < n < 64 -> word x -> word y ->
  Z.lor (Z.shiftr x n) (u64 (Z.shiftl y (64 - n))) = x / 2 ^ n + 2 ^ (64 - n) * (y mod 2 ^ n).
Proof.
  unfold word. intros Hn Hx Hy. rewrite Z.shiftr_div_pow2, Z.shiftl_mul_pow2 by lia.
  assert (E : 2 ^ 64 = 2 ^ n * 2 ^ (64 - n)) by (rewrite <-Z.pow_add_r by lia; f_equal; lia).
  assert (0 < 2 ^ n) by (apply Z.pow_pos_nonneg; lia).
  assert (0 < 2 ^ (64 - n)) by (apply Z.pow_pos_nonneg; lia).
  assert (Hu : u64 (y * 2 ^ (64 - n)) = 2 ^ (64 - n) * (y mod 2 ^ n)).
  { unfold u64. rewrite E, Z.mul_mod_distr_r by lia. lia. }
  rewrite Hu, (Z.mul_comm (2 ^ (64 - n))).
  apply (lor_add _ _ (64 - n)); [lia| |apply Z_mod_mult].
  split; [apply Z.div_pos; lia|]. apply Z.div_lt_upper_bound; lia.
Qed.

Lemma mul_add_step w x y c :
  word w -> word x -> word y -> word c ->
  exists s c', mul_add x y w c = Some (s, c') /\ word s /\ word c'
               /\ 1 * s + 1 * (wbase * c') = 1 * x + w * y + 1 * c.
Proof.
  unfold word, mul_add, u128, Lw, Hw, u64, wbase, BN_BITS2. intros Hw Hx Hy Hc.
  rewrite (Z.mod_small (w * y)), (Z.mod_small (w * y + x)), (Z.mod_small (_ + c)) by nia.
  rewrite Z.shiftr_div_pow2 by lia. do 2 eexists. split; [reflexivity|].
  rewrite (Z.mod_small (_ / _)) by (split; [apply Z.div_pos|apply Z.div_lt_upper_bound]; nia).
  split; [apply Z.mod_pos_bound; lia|].
  split; [split; [apply Z.div_pos|apply Z.div_lt_upper_bound]; nia|].
  pose proof (Z.div_mod (w * y + x + c) (2 ^ 64)). lia.
Qed.

Lemma mul_step w x y c :
  word w -> word x -> word y -> word c ->
  exists s c', mul x w c = Some (s, c') /\ word s /\ word c'
               /\ 1 * s + 1 * (wbase * c') = w * x + 0 * y + 1 * c.
Proof.
  intros Hw Hx Hy Hc. destruct (mul_add_step w 0 x c) as (s & c' & E & Hs & Hc' & Hv); try done.
  exists s, c'. split_and!; try done; [|lia]. rewrite <-E. unfold mul, mul_add, u128.
  by rewrite Z.add_0_r, Zmod_mod.
Qed.

(** The weights and the word carried along of the loops of the program. *)
Definition is_carry (c : Z) : Prop := 0 <= c <= 1.

Lemma add_acc xs ys c :
  words xs -> words ys -> length xs = length ys -> is_carry c ->
  exists l c', zip_acc CRYPTO_addc_w c xs ys = Some (l, c') /\ words l /\ length l = length xs
    /\ is_carry c' /\ 1 * val l + 1 * (bpow (length xs) * c') = 1 * val xs + 1 * val ys + 1 * c.
Proof.
  apply zip_acc_linear. intros x y c0 Hx Hy Hc.
  destruct (addc_spec x y c0 Hx Hy Hc) as (s & c' & E & Hs & Hc' & Hv). exists s, c'.
  unfold wbase. split_and!; try done. lia.
Qed.

Lemma sub_acc xs ys c :
  words xs -> words ys -> length xs = length ys -> is_carry c ->
  exists l c', zip_acc CRYPTO_subc_w c xs ys = Some (l, c') /\ words l /\ length l = length xs
    /\ is_carry c' /\ 1 * val l + -1 * (bpow (length xs) * c') = 1 * val xs + -1 * val ys + -1 * c.
Proof.
  apply zip_acc_linear. intros x y c0 Hx Hy Hc.
  destruct (subc_spec x y c0 Hx Hy Hc) as (s & c' & E & Hs & Hc' & Hv). exists s, c'.
  unfold wbase. split_and!; try done. lia.
Qed.

Lemma add_carry_acc xs c :
  words xs -> is_carry c ->
  exists l c', map_acc (fun x c => CRYPTO_addc_w x 0 c) c xs = Some (l, c') /\ words l
    /\ length l = length xs
    /\ is_carry c' /\ 1 * val l + 1 * (bpow (length xs) * c') = 1 * val xs + 0 * val xs + 1 * c.
Proof.
  intros Hxs Hc. rewrite map_acc_zip. apply zip_acc_linear; try done. intros x y c0 Hx Hy Hc0.
  destruct (addc_spec x 0 c0 Hx ltac:(done) Hc0) as (s & c' & E & Hs & Hc' & Hv). exists s, c'.
  unfold wbase. split_and!; try done. lia.
Qed.

Lemma sub_borrow_acc xs c :
  words xs -> is_carry c ->
  exists l c', map_acc (fun x c => CRYPTO_subc_w x 0 c) c xs = Some (l, c') /\ words l
    /\ length l = length xs
    /\ is_carry c' /\ 1 * val l + -1 * (bpow (length xs) * c') = 1 * val xs + 0 * val xs + -1 * c.
Proof.
  intros Hxs Hc. rewrite map_acc_zip. apply zip_acc_linear; try done. intros x y c0 Hx Hy Hc0.
  destruct (subc_spec x 0 c0 Hx ltac:(done) Hc0) as (s & c' & E & Hs & Hc' & Hv). exists s, c'.
  unfold wbase. split_and!; try done. lia.
Qed.

Lemma mul_acc w xs c :
  word w -> words xs -> word c ->
  exists l c', map_acc (fun x c => mul x w c) c xs = Some (l, c') /\ words l
    /\ length l = length xs
    /\ word c' /\ 1 * val l + 1 * (bpow (length xs) * c') = w * val xs + 0 * val xs + 1 * c.
Proof.
  intros Hw Hxs Hc. rewrite map_acc_zip. apply zip_acc_linear; try done. intros x y c0 Hx Hy Hc0.
  by apply mul_step.
Qed.

Lemma double_acc xs c :
  words xs -> is_carry c ->
  exists l c', map_acc (fun t c => Some (Z.lor (u64 (Z.shiftl t 1)) c, Z.shiftr t (BN_BITS2 - 1))) c xs
      = Some (l, c') /\ words l /\ length l = length xs
    /\ is_carry c' /\ 1 * val l + 1 * (bpow (length xs) * c') = 2 * val xs + 0 * val xs + 1 * c.
Proof.
  intros Hxs Hc. rewrite map_acc_zip. apply zip_acc_linear; try done. intros x y c0 Hx _ Hc0.
  unfold word, is_carry, BN_BITS2, wbase in *. do 2 eexists. split; [reflexivity|].
  rewrite Z.shiftl_mul_pow2, Z.shiftr_div_pow2 by lia. change (2 ^ 1) with 2. change (64 - 1) with 63.
  rewrite Z.lor_comm, (lor_add _ _ 1) by (unfold u64; first [lia | div_lia]).
  unfold u64. split; [div_lia|]. split; [div_lia|]. div_lia.
Qed.

(** ** Arrays of words *)

Definition words_at (h : gmap Z bignum) (q : words_ptr) (l : list Z) : Prop :=
  exists b, h !! q.1 = Some b /\ 0 <= q.2
            /\ forall k x, l !! k = Some x -> bn_d b !! (Z.to_nat q.2 + k)%nat = Some x.

Lemma words_at_take h p b n :
  h !! p = Some b -> words_at h (p, 0) (take n (bn_d b)).
Proof.
  intros Hp. exists b. split_and!; [done|done|]. intros k x Hk.
  apply lookup_take_Some in Hk as [Hk _]. done.
Qed.

Lemma words_at_head h q x l : words_at h q (x :: l) ->
  exists b, h !! q.1 = Some b /\ 0 <= q.2 /\ bn_d b !! Z.to_nat q.2 = Some x.
Proof.
  intros (b & Hb & Hq & Hl). exists b. split_and!; [done|done|].
  rewrite <-(Nat.add_0_r (Z.to_nat _)). by apply Hl.
Qed.

Lemma words_at_tail h q x l : words_at h q (x :: l) -> words_at h (at_ q 1) l.
Proof.
  intros (b & Hb & Hq & Hl). exists b. unfold at_. cbn. split_and!; [done|lia|]. intros k y Hk.
  replace (Z.to_nat (q.2 + 1) + k)%nat with (Z.to_nat q.2 + S k)%nat by lia. by apply Hl.
Qed.

Lemma words_at_app h q l1 l2 :
  words_at h q (l1 ++ l2) -> words_at h q l1 /\ words_at h (at_ q (lenZ l1)) l2.
Proof.
  intros (b & Hb & Hq & Hl). split; exists b; unfold at_; cbn [fst snd]; (split_and!; [done|lia|]);
    intros k x Hk.
  - apply Hl. by apply lookup_app_l_Some.
  - replace (Z.to_nat (q.2 + lenZ l1) + k)%nat with (Z.to_nat q.2 + (length l1 + k))%nat by lia.
    apply Hl. rewrite lookup_app_r by lia. by replace (length l1 + k - length l1)%nat with k by lia.
Qed.

Lemma words_at_set h q l r b :
  words_at h q l ->
  (q.1 = r -> forall b0, h !! r = Some b0 -> forall k, (Z.to_nat q.2 <= k < Z.to_nat q.2 + length l)%nat ->
     bn_d b !! k = bn_d b0 !! k) ->
  words_at (<[r := b]> h) q l.
Proof.
  intros (b0 & Hb & Hq & Hl) Hr. destruct (decide (q.1 = r)) as [E|E].
  - exists b. split_and!; [by rewrite E, lookup_insert_eq|done|]. intros k x Hk.
    rewrite E in Hb. rewrite (Hr E b0 Hb); [by apply Hl|].
    apply lookup_lt_Some in Hk. lia.
  - exists b0. by rewrite lookup_insert_ne.
Qed.

Lemma load_spec q x l w :
  words_at (bns w) q (x :: l) -> load q w = Some (x, w).
Proof.
  intros (b & Hb & Hq & Hx)%words_at_head. unfold load, get_bn, mbind, part_bind. rewrite Hb.
  destruct (Z.leb_spec 0 q.2); [|lia]. unfold of_opt. by rewrite Hx.
Qed.

Lemma store_spec q x b w :
  bns w !! q.1 = Some b -> 0 <= q.2 < lenZ (bn_d b) ->
  store q x w = Some (tt, set_bn q.1 (with_d (<[Z.to_nat q.2 := x]> (bn_d b)) b) w).
Proof.
  intros Hb Hq. unfold store, put_bn, get_bn, mbind, part_bind. rewrite Hb.
  destruct (Z.leb_spec 0 q.2), (Z.ltb_spec q.2 (lenZ (bn_d b))); try lia. cbn. by rewrite Hb.
Qed.

Lemma set_bn_id p b w : bns w !! p = Some b -> set_bn p b w = w.
Proof. intros H. unfold set_bn. rewrite insert_id by done. by destruct w. Qed.
Lemma set_bn_twice p b b' w : set_bn p b' (set_bn p b w) = set_bn p b' w.
Proof. unfold set_bn. cbn. by rewrite insert_insert_eq. Qed.

(** *** Loops of the program *)

Lemma steps_app f n m i c w c1 w1 :
  steps f n i c w = Some (c1, w1) -> steps f (n + m) i c w = steps f m (i + Z.of_nat n) c1 w1.
Proof.
  revert i c w. induction n as [|n IH]; intros i c w; cbn [steps Nat.add].
  - intros [= -> ->]. by rewrite Z.add_0_r.
  - intros (c2 & w2 & E & H)%part_bind_inv. rewrite (part_bind_some _ _ _ _ _ E).
    rewrite (IH _ _ _ H). f_equal. lia.
Qed.

Lemma steps_by_4_steps f m i c w :
  steps_by_4 f m i c w = steps f (4 * m) i c w.
Proof.
  revert i c w. induction m as [|m IH]; intros i c w; [done|].
  replace (4 * S m)%nat with (S (S (S (S (4 * m))))) by lia. cbn [steps_by_4 steps].
  unfold mbind, part_bind. replace (i + 1 + 1) with (i + 2) by lia.
  replace (i + 2 + 1) with (i + 3) by lia. replace (i + 3 + 1) with (i + 4) by lia.
  repeat (destruct (f _ _ _) as [[??]|]; [|done]). apply IH.
Qed.

Lemma unrolled_steps f num c w :
  0 <= num -> unrolled f num c w = steps f (Z.to_nat num) 0 c w.
Proof.
  intros Hn. unfold unrolled.
  assert (E : Z.to_nat num = (4 * Z.to_nat (num / 4) + Z.to_nat (num mod 4))%nat) by div_lia.
  rewrite E. unfold mbind at 1, part_bind at 1. rewrite steps_by_4_steps.
  destruct (steps f (4 * Z.to_nat (num / 4)) 0 c w) as [[c1 w1]|] eqn:E1.
  - rewrite (steps_app _ _ _ _ _ _ _ _ E1). f_equal. div_lia.
  - clear E. symmetry. revert E1. generalize (4 * Z.to_nat (num / 4))%nat as n. intros n.
    generalize 0 as i. revert c w. induction n as [|n IH]; intros c w i; cbn [steps Nat.add]; [done|].
    unfold mbind, part_bind. destruct (f i c w) as [[c1 w1]|]; [apply IH|done].
Qed.

(** The array [b] with the words [l] from index [i] on. *)
Definition with_words (i : Z) (l : list Z) (b : bignum) : bignum :=
  with_d (list_inserts (Z.to_nat i) l (bn_d b)) b.

Lemma with_words_nil i b : with_words i [] b = b.
Proof. by destruct b. Qed.

Lemma with_words_cons i x l b :
  0 <= i ->
  with_words (i + 1) l (with_d (<[Z.to_nat i := x]> (bn_d b)) b) = with_words i (x :: l) b.
Proof.
  intros Hi. unfold with_words, with_d. cbn. f_equal.
  replace (Z.to_nat (i + 1)) with (S (Z.to_nat i)) by lia. by rewrite list_insert_inserts_lt by lia.
Qed.

Lemma with_words_lookup_out i l b k :
  (k < Z.to_nat i \/ Z.to_nat i + length l <= k)%nat ->
  bn_d (with_words i l b) !! k = bn_d b !! k.
Proof.
  intros [H|H]; unfold with_words; cbn.
  - by apply list_lookup_inserts_lt.
  - by apply list_lookup_inserts_ge.
Qed.

Lemma with_words_length i l b : length (bn_d (with_words i l b)) = length (bn_d b).
Proof. unfold with_words. cbn. apply length_inserts. Qed.

(** [n] words of the array of [b], from index [i] on. *)
Definition room (b : bignum) (i : Z) (n : nat) : Prop := 0 <= i /\ i + Z.of_nat n <= lenZ (bn_d b).

(** A source of a loop that writes to [r]: another array, or not behind. *)
Definition not_behind (r a : words_ptr) : Prop := a.1 = r.1 -> r.2 <= a.2.

Lemma not_behind_at r a i : not_behind r a -> not_behind (at_ r i) (at_ a i).
Proof. unfold not_behind, at_. cbn. intros H E. specialize (H E). lia. Qed.

Lemma words_at_step h r b s a x l :
  h !! r.1 = Some b -> 0 <= r.2 -> not_behind r a -> words_at h a (x :: l) ->
  words_at (<[r.1 := with_d (<[Z.to_nat r.2 := s]> (bn_d b)) b]> h) (at_ a 1) l.
Proof.
  intros Hb Hr Ha Hl. apply words_at_set; [by eapply words_at_tail|].
  unfold at_. cbn. intros E b0 Hb0 k Hk. simplify_eq. cbn.
  rewrite list_lookup_insert_ne; [done|]. specialize (Ha E). lia.
Qed.

Lemma steps_shift f m i j c w :
  steps f m (i + j) c w = steps (fun i => f (i + j)) m i c w.
Proof.
  revert i c w. induction m as [|m IH]; intros i c w; [done|]. cbn [steps]. unfold mbind, part_bind.
  destruct (f (i + j) c w) as [[c1 w1]|]; [|done]. rewrite <-IH. f_equal. lia.
Qed.

Lemma steps_ext f g m i c w :
  (forall i c w, f i c w = g i c w) -> steps f m i c w = steps g m i c w.
Proof.
  intros H. revert i c w. induction m as [|m IH]; intros i c w; [done|]. cbn [steps].
  unfold mbind, part_bind. rewrite H. by destruct (g i c w) as [[c1 w1]|].
Qed.

Lemma at_at q i j : at_ (at_ q i) j = at_ q (i + j).
Proof. unfold at_. cbn. f_equal. lia. Qed.
Lemma at_0 q : at_ q 0 = q.
Proof. destruct q. unfold at_. cbn. f_equal. lia. Qed.

Lemma step2_at op r a b i j : step2 op r a b (i + j) = step2 op (at_ r j) (at_ a j) (at_ b j) i.
Proof. unfold step2. rewrite !at_at. by rewrite (Z.add_comm j). Qed.

Lemma step2_spec op r a b xs ys c out c' br w :
  zip_acc op c xs ys = Some (out, c') -> length xs = length ys ->
  words_at (bns w) a xs -> words_at (bns w) b ys ->
  bns w !! r.1 = Some br -> room br r.2 (length xs) ->
  not_behind r a -> not_behind r b ->
  steps (step2 op r a b) (length xs) 0 c w = Some (c', set_bn r.1 (with_words r.2 out br) w).
Proof.
  revert r a b ys c out br w.
  induction xs as [|x xs IH]; intros r a b [|y ys] c out br w E Hn Ha Hb Hr Hroom Hra Hrb; try done.
  - cbn in *. simplify_eq. rewrite with_words_nil. unfold set_bn. rewrite insert_id by done.
    by destruct w.
  - cbn [zip_acc] in E. destruct (op x y c) as [[s c1]|] eqn:Eop; [|done]. cbn in E.
    destruct (zip_acc op c1 xs ys) as [[l c2]|] eqn:Ez; [|done]. cbn in E. injection E as <- <-.
    injection Hn as Hn. unfold room in Hroom. cbn [length] in Hroom.
    cbn [length steps]. erewrite part_bind_some.
    2: { unfold step2. rewrite !at_0. pstep load_spec. pstep load_spec. rewrite Eop.
         unfold mbind, part_bind, of_opt. erewrite store_spec by (first [done | lia]). done. }
    rewrite <-(Z.add_0_l (0 + 1)), steps_shift.
    erewrite steps_ext by (intros; by rewrite step2_at).
    erewrite (IH (at_ r 1) (at_ a 1) (at_ b 1)); [|done|done|..].
    + unfold set_bn at 1. unfold at_. cbn [fst snd bns bn_oom set_bn].
      rewrite insert_insert_eq, with_words_cons by lia. done.
    + apply words_at_step with x; first [done | lia].
    + apply words_at_step with y; first [done | lia].
    + cbn. by rewrite lookup_insert_eq.
    + unfold room, at_. cbn. rewrite length_insert. lia.
    + by apply not_behind_at.
    + by apply not_behind_at.
Qed.

Lemma load_same q x w w' : load q w = Some (x, w') -> w' = w.
Proof.
  unfold load, get_bn, mbind, part_bind. destruct (bns w !! q.1) as [b|]; [|done].
  destruct (0 <=? q.2); [|done]. unfold of_opt. destruct (_ !! _); [by intros [= _ <-]|done].
Qed.

Lemma step1_step2 op r a i c w :
  step1 op r a i c w = step2 (fun x _ c => op x c) r a a i c w.
Proof.
  unfold step1, step2. unfold mbind at 1 4, part_bind at 1 4.
  destruct (load (at_ a i) w) as [[x w']|] eqn:E; [|done].
  pose proof (load_same _ _ _ _ E) as ->. by rewrite (part_bind_some _ _ _ _ _ E).
Qed.

Lemma step1_spec op r a xs c out c' br w :
  map_acc op c xs = Some (out, c') ->
  words_at (bns w) a xs ->
  bns w !! r.1 = Some br -> room br r.2 (length xs) ->
  not_behind r a ->
  steps (step1 op r a) (length xs) 0 c w = Some (c', set_bn r.1 (with_words r.2 out br) w).
Proof.
  intros E Ha Hr Hroom Hra. rewrite map_acc_zip in E.
  rewrite (steps_ext _ _ _ _ _ _ (step1_step2 op r a)). by eapply step2_spec.
Qed.

(** The same from index [i] on. *)
Lemma step1_spec_from op r a i xs c out c' br w :
  map_acc op c xs = Some (out, c') ->
  words_at (bns w) (at_ a i) xs ->
  bns w !! r.1 = Some br -> room br (r.2 + i) (length xs) ->
  not_behind r a ->
  steps (step1 op r a) (length xs) i c w = Some (c', set_bn r.1 (with_words (r.2 + i) out br) w).
Proof.
  intros E Ha Hr Hroom Hra. rewrite <-(Z.add_0_l i) at 1. rewrite steps_shift.
  rewrite (steps_ext _ (step1 op (at_ r i) (at_ a i))).
  - apply (step1_spec op (at_ r i)); try done. by apply not_behind_at.
  - intros j d v. unfold step1. rewrite !at_at. by rewrite (Z.add_comm j).
Qed.

Lemma with_words_app l b i :
  0 <= i -> i + lenZ l <= lenZ (bn_d b) ->
  with_d (take (Z.to_nat i) (bn_d b) ++ l ++ drop (Z.to_nat i + length l) (bn_d b)) b
  = with_words i l b.
Proof.
  intros Hi Hl. unfold with_words, with_d. f_equal. apply list_eq. intros k.
  destruct (decide (k < Z.to_nat i)%nat).
  - rewrite lookup_app_l, lookup_take_lt, list_lookup_inserts_lt by (rewrite ?length_take; lia). done.
  - rewrite lookup_app_r, length_take by (rewrite length_take; lia).
    replace (Z.to_nat i `min` length (bn_d b))%nat with (Z.to_nat i) by lia.
    destruct (decide (k < Z.to_nat i + length l)%nat).
    + rewrite lookup_app_l, list_lookup_inserts by lia. done.
    + rewrite lookup_app_r, lookup_drop, list_lookup_inserts_ge by lia. f_equal. lia.
Qed.

Lemma write_words_spec q l b w :
  bns w !! q.1 = Some b -> room b q.2 (length l) ->
  write_words q l w = Some (tt, set_bn q.1 (with_words q.2 l b) w).
Proof.
  intros Hb [Hq Hl]. unfold write_words, put_bn, get_bn, mbind, part_bind. rewrite Hb.
  destruct (Z.leb_spec 0 q.2), (Z.leb_spec (q.2 + lenZ l) (lenZ (bn_d b))); try lia. cbn.
  by rewrite Hb, with_words_app.
Qed.

Lemma zero_words_spec q n b w :
  bns w !! q.1 = Some b -> 0 <= n -> room b q.2 (Z.to_nat n) ->
  zero_words q n w = Some (tt, set_bn q.1 (with_words q.2 (replicate (Z.to_nat n) 0) b) w).
Proof.
  intros Hb Hn Hr. unfold zero_words. destruct (Z.ltb_spec n 0); [lia|].
  apply write_words_spec; [done|]. by rewrite length_replicate.
Qed.

Lemma read_words_spec q n b w :
  bns w !! q.1 = Some b -> 0 <= n -> room b q.2 (Z.to_nat n) ->
  read_words q n w = Some (take (Z.to_nat n) (drop (Z.to_nat q.2) (bn_d b)), w).
Proof.
  intros Hb Hn [Hq Hl]. unfold read_words, get_bn, mbind, part_bind. rewrite Hb.
  destruct (Z.leb_spec 0 q.2), (Z.leb_spec 0 n), (Z.leb_spec (q.2 + n) (lenZ (bn_d b))); try lia. done.
Qed.

Lemma copy_words_spec dst src n bs bd w :
  bns w !! src.1 = Some bs -> 0 <= n -> room bs src.2 (Z.to_nat n) ->
  bns w !! dst.1 = Some bd -> room bd dst.2 (Z.to_nat n) ->
  copy_words dst src n w
  = Some (tt, set_bn dst.1 (with_words dst.2 (take (Z.to_nat n) (drop (Z.to_nat src.2) (bn_d bs))) bd) w).
Proof.
  intros Hs Hn Hrs Hd Hrd. unfold copy_words. pstep read_words_spec.
  apply write_words_spec; [done|]. rewrite length_take, length_drop. unfold room in *.
  replace (_ `min` _)%nat with (Z.to_nat n) by lia. done.
Qed.

Definition or_list (mask : Z) (l : list Z) : Z := fold_left Z.lor l mask.

Lemma or_words_spec q xs i mask w :
  words_at (bns w) (at_ q i) xs ->
  or_words (length xs) q i mask w = Some (or_list mask xs, w).
Proof.
  revert i mask. induction xs as [|x xs IH]; intros i mask Hx; [done|]. cbn [length or_words].
  pstep load_spec. apply IH. rewrite <-at_at. by eapply words_at_tail.
Qed.

Lemma or_list_zero mask l : or_list mask l = 0 <-> mask = 0 /\ Forall (fun x => x = 0) l.
Proof.
  revert mask. induction l as [|x l IH]; intros mask; [by rewrite Forall_nil; cbn; intuition|].
  cbn. fold (or_list (Z.lor mask x) l). rewrite IH, Z.lor_eq_0_iff, Forall_cons. tauto.
Qed.

Lemma or_list_word mask l : word mask -> words l -> word (or_list mask l).
Proof.
  intros Hm Hl. revert mask Hm. induction Hl as [|x l Hx Hl IH]; intros mask Hm; [done|].
  cbn. apply IH. by apply word_lor.
Qed.

Lemma or_list_val l : words l -> (or_list 0 l =? 0) = (val l =? 0).
Proof.
  intros Hl. apply eq_bool_prop_intro. rewrite !Is_true_true, !Z.eqb_eq, or_list_zero, val_zero_iff by done.
  tauto.
Qed.

(** The number of words without those at the top that are zero. *)
Fixpoint significant (l : list Z) : nat :=
  match l with
  | [] => 0
  | x :: l => match significant l with O => if x =? 0 then 0 else 1 | S n => S (S n) end
  end.

Lemma significant_le l : (significant l <= length l)%nat.
Proof. induction l as [|x l IH]; cbn; [lia|]. destruct (significant l); [case_bool; lia|lia]. Qed.

Lemma significant_app l1 l2 :
  significant (l1 ++ l2) = match significant l2 with O => significant l1 | S n => (length l1 + S n)%nat end.
Proof.
  induction l1 as [|x l IH]; cbn; [by destruct (significant l2)|]. rewrite IH.
  destruct (significant l2); [done|]. by rewrite Nat.add_succ_r.
Qed.

Lemma minimal_width_loop_spec p (k : nat) b w :
  bns w !! p = Some b -> (k <= length (bn_d b))%nat ->
  minimal_width_loop p k w = Some (Z.of_nat (significant (take k (bn_d b))), w).
Proof.
  intros Hb. induction k as [|k IH]; intros Hk; [done|]. cbn [minimal_width_loop].
  destruct (lookup_lt_is_Some_2 (bn_d b) k) as [x Hx]; [lia|].
  assert (Ha : words_at (bns w) (p, Z.of_nat k) [x]).
  { exists b. split_and!; [done|cbn; lia|]. intros [|j] y; [|done]. cbn. intros [= <-].
    by rewrite Nat2Z.id, Nat.add_0_r. }
  pstep load_spec. rewrite (take_S_r _ _ _ Hx), significant_app. cbn [significant].
  destruct (x =? 0) eqn:E.
  - rewrite IH by lia. done.
  - rewrite length_take. cbn. unfold mret, part_ret. do 3 f_equal. lia.
Qed.

Lemma significant_val l : words l -> val (take (significant l) l) = val l.
Proof.
  induction 1 as [|x l Hx Hl IH]; [done|]. cbn [significant].
  destruct (significant l) as [|n] eqn:E.
  - change (val (x :: l)) with (x + wbase * val l). rewrite <-IH, take_0.
    destruct (Z.eqb_spec x 0) as [-> |]; done.
  - change (val (x :: l)) with (x + wbase * val l). rewrite <-IH. done.
Qed.

Lemma significant_zero l : words l -> significant l = 0%nat <-> val l = 0.
Proof.
  intros Hl. rewrite val_zero_iff by done. induction Hl as [|x l Hx Hl IH]; cbn; [done|].
  rewrite Forall_cons. destruct (significant l); [|intuition lia].
  case_bool; intuition (try lia; try done).
Qed.

Lemma copy_words_at dst src l bd w :
  words_at (bns w) src l -> l <> [] ->
  bns w !! dst.1 = Some bd -> room bd dst.2 (length l) ->
  copy_words dst src (lenZ l) w = Some (tt, set_bn dst.1 (with_words dst.2 l bd) w).
Proof.
  intros (b & Hb & Hq & Hl) Hne Hd Hr.
  assert (Hlen : (Z.to_nat src.2 + length l <= length (bn_d b))%nat).
  { destruct (lookup_lt_is_Some_2 l (length l - 1)) as [x Hx]; [destruct l; [done|cbn; lia]|].
    apply Hl, lookup_lt_Some in Hx. destruct l; [done|]. cbn [length] in *. lia. }
  rewrite (copy_words_spec dst src (lenZ l) b bd) by (try done; unfold room; rewrite ?Nat2Z.id; try apply Hr; lia).
  do 4 f_equal. apply list_eq. intros k. rewrite Nat2Z.id. destruct (l !! k) as [x|] eqn:E.
  - rewrite lookup_take_lt, lookup_drop by (by eapply lookup_lt_Some). by apply Hl.
  - apply lookup_ge_None in E. by rewrite lookup_take_ge.
Qed.
