(* ===== verification/BnSpec.v ===== *)
(** * Big numbers: the operations on the numbers they hold

    A well-formed BIGNUM has an array of the size it claims, at most [BN_MAX_WORDS] words,
    and a sign that is 0 or 1. Each operation either returns 1, and its result is the
    number it should be, or returns 0 because there was no room for it, and its result is
    some well-formed BIGNUM. *)
From S2P Require Export BnWords.

Definition bn_ok (b : bignum) : Prop :=
  0 <= bn_width b <= bn_dmax b /\ lenZ (bn_d b) = bn_dmax b /\ bn_dmax b <= BN_MAX_WORDS
  /\ words (bn_d b) /\ (bn_neg b = 0 \/ bn_neg b = 1).

(** A BIGNUM whose array may be replaced. *)
Definition owned (b : bignum) : Prop := Z.land (bn_flags b) BN_FLG_STATIC_DATA = 0.

Definition limbs (b : bignum) : list Z := take (Z.to_nat (bn_width b)) (bn_d b).
Definition bn_abs (b : bignum) : Z := val (limbs b).
Definition bn_val (b : bignum) : Z := if bn_neg b =? 0 then bn_abs b else - bn_abs b.

(** There is no negative zero. *)
Definition no_neg_zero (b : bignum) : Prop := bn_abs b = 0 -> bn_neg b = 0.

Lemma bn_ok_words b : bn_ok b -> words (bn_d b).
Proof. by intros (_ & _ & _ & ? & _). Qed.
Lemma bn_sign b : bn_ok b -> bn_neg b = 0 \/ bn_neg b = 1.
Proof. by intros (_ & _ & _ & _ & ?). Qed.
Lemma limbs_words b : bn_ok b -> words (limbs b).
Proof. intros H. apply words_take. by apply bn_ok_words. Qed.
Lemma limbs_length b : bn_ok b -> lenZ (limbs b) = bn_width b.
Proof. intros (H1 & H2 & H). unfold limbs. rewrite length_take. lia. Qed.
Lemma bn_abs_range b : bn_ok b -> 0 <= bn_abs b < bpow (Z.to_nat (bn_width b)).
Proof.
  intros H. pose proof (val_range _ (limbs_words _ H)) as Hv. pose proof (limbs_length _ H).
  by replace (Z.to_nat (bn_width b)) with (length (limbs b)) by lia.
Qed.
#[export] Hint Resolve bn_ok_words limbs_words : cint.

(** ** Outcomes *)

(** Why an allocation of [n] words is refused. *)
Definition no_room (w : bn_world) (n : Z) : Prop :=
  BN_MAX_WORDS < n \/ hd false (bn_oom w) = true.

(** A number that needs more words than a BIGNUM may have. *)
Definition too_big (v : Z) : Prop := exists n, BN_MAX_WORDS <= Z.of_nat n /\ bpow n <= v.

Lemma too_big_mono v v' : too_big v -> v <= v' -> too_big v'.
Proof. intros (n & Hn & Hv) Hle. exists n. split; [done|lia]. Qed.

Lemma bn_not_too_big b : bn_ok b -> ~ too_big (bn_abs b).
Proof.
  intros Hok (n & Hn & Hv). pose proof (bn_abs_range b Hok) as Hr. destruct Hok as (Hw & _ & Hm & _).
  assert (Hle : (Z.to_nat (bn_width b) <= n)%nat) by lia. pose proof (bpow_mono _ _ Hle). lia.
Qed.

(** The same where the words are for [v]: no memory, or [v] is too big for any array. *)
Definition no_room_for (w : bn_world) (n v : Z) : Prop :=
  no_room w n /\ (hd false (bn_oom w) = true \/ too_big v).

Lemma no_room_for_next w n v : 0 <= n -> no_room w (n + 1) -> bpow (Z.to_nat n) <= v -> no_room_for w (n + 1) v.
Proof. intros Hn [H|H] Hv; (split; [by (left + right)|]); [right; exists (Z.to_nat n); split; [lia|done]|by left]. Qed.

(** The allocations to come after at most one more. *)
Definition oom_after (w : bn_world) (o : list bool) : Prop := o = bn_oom w \/ o = tail (bn_oom w).

(** The outcome of an operation on [r], which held [br]: either it returns 1 and [P] is
    true of what [r] then holds, or it returns 0, for the reason [R]. No other BIGNUM
    changes. *)
Definition outcome (r : Z) (br : bignum) (w : bn_world) (R : Prop) (P : bignum -> Prop)
    (res : option (bool * bn_world)) : Prop :=
  exists ok b' o,
    res = Some (ok, mk_bn_world (<[r := b']> (bns w)) o)
    /\ bn_ok b' /\ bn_flags b' = bn_flags br /\ oom_after w o
    /\ if ok : bool then P b' else R.

Lemma get_bn_spec p b w : bns w !! p = Some b -> get_bn p w = Some (b, w).
Proof. intros H. unfold get_bn. by rewrite H. Qed.
Lemma get_width_spec p b w : bns w !! p = Some b -> get_width p w = Some (bn_width b, w).
Proof. intros H. unfold get_width. by pstep get_bn_spec. Qed.
Lemma get_neg_spec p b w : bns w !! p = Some b -> get_neg p w = Some (bn_neg b, w).
Proof. intros H. unfold get_neg. by pstep get_bn_spec. Qed.
Lemma put_bn_spec p b b0 w : bns w !! p = Some b0 -> put_bn p b w = Some (tt, set_bn p b w).
Proof. intros H. unfold put_bn. by pstep get_bn_spec. Qed.
Lemma bn_update_spec p f b w : bns w !! p = Some b -> update p f w = Some (tt, set_bn p (f b) w).
Proof. intros H. unfold update. pstep get_bn_spec. by eapply put_bn_spec. Qed.

Lemma bns_set p b w : bns (set_bn p b w) !! p = Some b.
Proof. cbn. apply lookup_insert_eq. Qed.

(** A world with [b] at [p], written so that the rules above apply to it. *)
Lemma set_bn_mk p b h o : set_bn p b (mk_bn_world h o) = mk_bn_world (<[p := b]> h) o.
Proof. done. Qed.

(** ** Room *)

(** [b'] has the number of [b], in an array that may be larger. *)
Definition expanded (b b' : bignum) : Prop :=
  bn_ok b' /\ bn_width b' = bn_width b /\ bn_neg b' = bn_neg b /\ bn_flags b' = bn_flags b
  /\ limbs b' = limbs b /\ bn_dmax b <= bn_dmax b'.

Lemma expanded_refl b : bn_ok b -> expanded b b.
Proof. intros H. by repeat split; try apply H. Qed.

Lemma set_bn_same w p b : bns w !! p = Some b -> mk_bn_world (<[p := b]> (bns w)) (bn_oom w) = w.
Proof. destruct w. cbn. intros H. by rewrite insert_id. Qed.

Lemma wexpand_spec p n b w :
  bns w !! p = Some b -> bn_ok b -> owned b ->
  exists ok b' o, bn_wexpand p n w = Some (ok, mk_bn_world (<[p := b']> (bns w)) o)
    /\ expanded b b' /\ oom_after w o
    /\ if ok : bool then n <= bn_dmax b' else no_room w n.
Proof.
  intros Hb Hok Ho. pose proof Hok as (Hw & Hd & Hm & Hws & Hs). unfold bn_wexpand.
  rewrite (part_bind_some _ _ _ _ _ (get_bn_spec _ _ _ Hb)).
  destruct (Z.leb_spec n (bn_dmax b)).
  { exists true, b, (bn_oom w). rewrite set_bn_same by done. unfold oom_after.
    split_and!; [done|by apply expanded_refl|by left|done]. }
  destruct (Z.ltb_spec BN_MAX_WORDS n).
  { exists false, b, (bn_oom w). rewrite set_bn_same by done. unfold oom_after, no_room.
    split_and!; [done|by apply expanded_refl|by left|by left]. }
  rewrite Ho, Z.eqb_refl. cbn [negb].
  assert (Ha : bn_alloc_ok w = Some (negb (hd false (bn_oom w)), mk_bn_world (bns w) (tail (bn_oom w)))).
  { unfold bn_alloc_ok. by destruct w as [h [|x o]]. }
  rewrite (part_bind_some _ _ _ _ _ Ha). destruct (hd false (bn_oom w)) eqn:Eo.
  { exists false, b, (tail (bn_oom w)). rewrite insert_id by done. unfold oom_after, no_room.
    split_and!; [done|by apply expanded_refl|by right|by right]. }
  cbn [negb].
  rewrite (part_bind_some _ _ _ _ _ (read_words_spec (p, 0) (bn_width b) b (mk_bn_world (bns w) _)
             Hb (proj1 Hw) ltac:(unfold room; cbn; lia))).
  destruct (Z.ltb_spec n (bn_width b)); [lia|].
  rewrite (part_bind_some _ _ _ _ _ (put_bn_spec p _ b (mk_bn_world (bns w) _) Hb)).
  erewrite part_bind_some by (apply bn_update_spec; apply bns_set).
  rewrite set_bn_twice, set_bn_mk. do 3 eexists. split; [reflexivity|].
  change (drop (Z.to_nat (p, 0).2) (bn_d b)) with (bn_d b). fold (limbs b).
  pose proof (limbs_length b Hok) as Hl.
  split; [|split; [by right|cbn; lia]]. unfold expanded, bn_ok. cbn.
  rewrite length_app, length_replicate. split_and!; try done; try lia.
  - apply words_app. split; [by apply limbs_words|apply words_zeros].
  - unfold limbs at 1. cbn. rewrite take_app_le by lia. rewrite <-(firstn_all (limbs b)) at 2. f_equal. lia.
Qed.

(** ** Reading *)

Lemma words_at_limbs p b w i :
  bns w !! p = Some b -> bn_ok b -> 0 <= i -> words_at (bns w) (p, i) (drop (Z.to_nat i) (limbs b)).
Proof.
  intros Hb Hok Hi. exists b. split_and!; [done|done|]. intros k x Hk. cbn.
  unfold limbs in Hk. rewrite lookup_drop in Hk. by apply lookup_take_Some in Hk as [Hk _].
Qed.

Lemma words_at_limbs_0 p b w :
  bns w !! p = Some b -> bn_ok b -> words_at (bns w) (p, 0) (limbs b).
Proof. intros Hb Hok. by apply (words_at_limbs p b w 0). Qed.

(** The words of an expanded BIGNUM are where they were. *)
Lemma fits_list (l : list Z) (n : nat) :
  words l -> (val (drop n l) =? 0) = (val l <? bpow n).
Proof.
  intros Hl. pose proof (val_take_drop n l) as Hv.
  pose proof (val_range (take n l) ltac:(auto with cint)) as Ht.
  pose proof (val_range (drop n l) ltac:(auto with cint)) as Hd.
  destruct (Nat.le_gt_cases (length l) n) as [Hn|Hn].
  - rewrite drop_ge in Hv |- * by done. rewrite take_ge in Ht by done.
    assert (bpow (length l) <= bpow n).
    { replace n with (length l + (n - length l))%nat by lia. rewrite bpow_add.
      pose proof (bpow_pos (n - length l)). pose proof (bpow_pos (length l)). nia. }
    destruct (Z.ltb_spec (val l) (bpow n)); [done|lia].
  - rewrite length_take, Nat.min_l in Hv, Ht by lia. pose proof (bpow_pos n).
    destruct (Z.eqb_spec (val (drop n l)) 0), (Z.ltb_spec (val l) (bpow n)); nia.
Qed.

Lemma bn_fits_in_words_spec p n b w :
  bns w !! p = Some b -> bn_ok b -> 0 <= n ->
  bn_fits_in_words p n w = Some (bn_abs b <? bpow (Z.to_nat n), w).
Proof.
  intros Hb Hok Hn. unfold bn_fits_in_words. pstep get_width_spec.
  pose proof (limbs_length b Hok) as Hl.
  replace (Z.to_nat (bn_width b - n)) with (length (drop (Z.to_nat n) (limbs b)))
    by (rewrite length_drop; lia).
  erewrite part_bind_some by (apply or_words_spec; by apply words_at_limbs).
  rewrite or_list_val, fits_list by auto with cint. done.
Qed.

Lemma BN_is_zero_spec p b w :
  bns w !! p = Some b -> bn_ok b -> BN_is_zero p w = Some (bn_abs b =? 0, w).
Proof.
  intros Hb Hok. unfold BN_is_zero. rewrite (bn_fits_in_words_spec _ _ b) by (done || lia).
  pose proof (bn_abs_range b Hok). change (bpow (Z.to_nat 0)) with 1. do 2 f_equal. case_bool; case_bool; lia.
Qed.

Lemma bn_minimal_width_spec p b w :
  bns w !! p = Some b -> bn_ok b ->
  bn_minimal_width p w = Some (Z.of_nat (significant (limbs b)), w).
Proof.
  intros Hb (Hw & Hd & _). unfold bn_minimal_width. pstep get_width_spec.
  by rewrite (minimal_width_loop_spec p _ b) by (done || lia).
Qed.

(** The number split at word [n]. *)
Lemma abs_take b n :
  (n <= length (limbs b))%nat -> bn_abs b = val (take n (limbs b)) + bpow n * val (drop n (limbs b)).
Proof.
  intros Hn. unfold bn_abs. rewrite (val_take_drop n (limbs b)) at 1. by rewrite length_take_le.
Qed.

Lemma abs_drop_zero b n :
  bn_ok b -> bn_abs b < bpow n -> val (drop n (limbs b)) = 0.
Proof.
  intros Hok Hb. pose proof (fits_list (limbs b) n ltac:(auto with cint)) as H. unfold bn_abs in Hb.
  rewrite (proj2 (Z.ltb_lt _ _) Hb) in H. by apply Z.eqb_eq.
Qed.

(** ** The minimal width *)

Definition minimal (b : bignum) : bignum :=
  let n := Z.of_nat (significant (limbs b)) in
  with_neg (if n =? 0 then 0 else bn_neg b) (with_width n b).

Lemma bn_set_minimal_width_spec p b w :
  bns w !! p = Some b -> bn_ok b ->
  bn_set_minimal_width p w = Some (tt, set_bn p (minimal b) w).
Proof.
  intros Hb Hok. unfold bn_set_minimal_width. pstep bn_minimal_width_spec.
  erewrite part_bind_some by (by apply bn_update_spec). unfold minimal.
  destruct (Z.eqb_spec (Z.of_nat (significant (limbs b))) 0) as [E|E].
  - erewrite bn_update_spec by apply bns_set. by rewrite set_bn_twice.
  - by destruct b.
Qed.

Lemma limbs_minimal b : limbs (minimal b) = take (significant (limbs b)) (limbs b).
Proof.
  pose proof (significant_le (limbs b)) as Hle. unfold minimal. unfold limbs at 1. cbn.
  rewrite Nat2Z.id. revert Hle. generalize (significant (limbs b)) as n. intros n.
  unfold limbs. rewrite length_take, take_take. intros Hle. f_equal. lia.
Qed.

Lemma minimal_abs b : bn_ok b -> bn_abs (minimal b) = bn_abs b.
Proof. intros Hok. unfold bn_abs. rewrite limbs_minimal, significant_val; auto with cint. Qed.

Lemma minimal_ok b : bn_ok b -> bn_ok (minimal b).
Proof.
  intros Hok. pose proof Hok as (Hw & Hd & Hm & Hws & Hs). unfold minimal, bn_ok. cbn.
  pose proof (significant_le (limbs b)). pose proof (limbs_length b Hok).
  split_and!; try done; try lia. case_bool; [by left|done].
Qed.

Lemma minimal_neg b : bn_ok b -> bn_neg (minimal b) = if bn_abs b =? 0 then 0 else bn_neg b.
Proof.
  intros Hok. unfold minimal, bn_abs. cbn.
  pose proof (significant_zero (limbs b) ltac:(auto with cint)). do 2 case_bool; intuition lia.
Qed.

Lemma minimal_no_neg_zero b : bn_ok b -> no_neg_zero (minimal b).
Proof.
  intros Hok. unfold no_neg_zero. rewrite minimal_abs, minimal_neg by done. by intros ->.
Qed.

Lemma minimal_val b : bn_ok b -> bn_val (minimal b) = bn_val b.
Proof.
  intros Hok. unfold bn_val. rewrite minimal_abs, minimal_neg by done.
  destruct (Z.eqb_spec (bn_abs b) 0) as [-> |]; [by destruct (bn_neg b =? 0)|done].
Qed.

(** A width after which the words are all zero does not matter; a minimal width is one
    that no smaller one can replace. *)
Definition is_minimal (b : bignum) : Prop := bn_width b = Z.of_nat (significant (limbs b)).

(** ** Writing an array *)

Lemma with_words_with_words i l1 l2 b :
  0 <= i -> with_words (i + lenZ l1) l2 (with_words i l1 b) = with_words i (l1 ++ l2) b.
Proof.
  intros Hi. revert i b Hi. induction l1 as [|x l1 IH]; intros i b Hi.
  - rewrite with_words_nil. cbn. by rewrite Z.add_0_r.
  - rewrite <-!app_comm_cons, <-!with_words_cons by done. rewrite <-IH by lia. f_equal. cbn. lia.
Qed.

Lemma with_words_append i j l1 l2 b :
  0 <= i -> j = i + lenZ l1 -> with_words j l2 (with_words i l1 b) = with_words i (l1 ++ l2) b.
Proof. intros Hi ->. by apply with_words_with_words. Qed.

Lemma store_with_words i x b : with_d (<[Z.to_nat i := x]> (bn_d b)) b = with_words i [x] b.
Proof. done. Qed.

Lemma with_words_ok i l b : bn_ok b -> words l -> bn_ok (with_words i l b).
Proof.
  intros (Hw & Hd & Hm & Hws & Hs) Hl. unfold bn_ok. rewrite with_words_length.
  cbn [with_words with_d bn_width bn_dmax bn_d bn_neg]. split_and!; try done; try lia.
  by apply Forall_inserts.
Qed.

Lemma limbs_with_words l b :
  bn_ok b -> lenZ l = bn_width b -> limbs (with_words 0 l b) = l.
Proof.
  intros (Hw & Hd & _) Hl. unfold limbs. rewrite <-with_words_app by lia. cbn.
  change (take (Z.to_nat 0) (bn_d b)) with (@nil Z). cbn [app]. rewrite take_app_length' by lia. done.
Qed.

Lemma with_width_ok n b : bn_ok b -> 0 <= n <= bn_dmax b -> bn_ok (with_width n b).
Proof. unfold bn_ok. cbn. tauto. Qed.
Lemma with_neg_ok n b : bn_ok b -> n = 0 \/ n = 1 -> bn_ok (with_neg n b).
Proof. unfold bn_ok. cbn. tauto. Qed.
#[export] Hint Resolve with_words_ok with_width_ok with_neg_ok minimal_ok : cint.

(** A source in the array of [r], or in another, after [r] was expanded and then changed
    at indices below [i] only. *)
Definition kept_from (i : Z) (b b' : bignum) : Prop :=
  forall k, (Z.to_nat i <= k)%nat -> bn_d b' !! k = bn_d b !! k.

Lemma kept_from_words i j l b : j + lenZ l <= i -> 0 <= j -> kept_from i b (with_words j l b).
Proof. intros Hl Hj k Hk. apply with_words_lookup_out. right. lia. Qed.

Lemma kept_from_trans i b1 b2 b3 : kept_from i b1 b2 -> kept_from i b2 b3 -> kept_from i b1 b3.
Proof. intros H1 H2 k Hk. by rewrite H2, H1. Qed.

Lemma words_at_inside h r br b1 b2 a ba i :
  h !! r = Some br -> expanded br b1 ->
  (a = r -> forall k, (Z.to_nat i <= k < Z.to_nat (bn_width br))%nat -> bn_d b2 !! k = bn_d b1 !! k) ->
  h !! a = Some ba -> bn_ok ba -> 0 <= i ->
  words_at (<[r := b2]> h) (a, i) (drop (Z.to_nat i) (limbs ba)).
Proof.
  intros Hr (Hok1 & Hw1 & _ & _ & Hl1 & _) Hk Ha Hok Hi. apply words_at_set.
  - exists ba. split_and!; [done|done|]. intros k x Hx. cbn. rewrite lookup_drop in Hx.
    by apply lookup_take_Some in Hx as [Hx _].
  - cbn. intros E b0 Hb0 k [Hk1 Hk2]. specialize (Hk E). subst a. rewrite Hr in Ha, Hb0. injection Ha as <-. injection Hb0 as <-.
    rewrite length_drop in Hk2. pose proof (limbs_length br Hok) as Hlen. rewrite Hk by lia.
    unfold limbs in *. rewrite Hw1 in Hl1.
    rewrite <-(lookup_take_lt (bn_d b1) (Z.to_nat (bn_width br))), Hl1, lookup_take_lt by lia. done.
Qed.

Lemma words_at_kept h r br b1 b2 a ba i :
  h !! r = Some br -> expanded br b1 -> kept_from i b1 b2 ->
  h !! a = Some ba -> bn_ok ba -> 0 <= i ->
  words_at (<[r := b2]> h) (a, i) (drop (Z.to_nat i) (limbs ba)).
Proof. intros Hr Hexp Hk. apply (words_at_inside h r br b1 b2); try done. intros _ k [Hk1 _]. by apply Hk. Qed.

Lemma owned_with_words i l b : owned b -> owned (with_words i l b).
Proof. done. Qed.

(** The width of a source after the destination was changed but for its width. *)
Lemma lookup_width r a br ba b' w :
  bns w !! r = Some br -> bns w !! a = Some ba -> bn_width b' = bn_width br ->
  exists bx, <[r := b']> (bns w) !! a = Some bx /\ bn_width bx = bn_width ba.
Proof.
  intros Hr Ha Hw. destruct (decide (a = r)) as [->|Hne].
  - exists b'. rewrite lookup_insert_eq. by simplify_eq.
  - exists ba. by rewrite lookup_insert_ne.
Qed.

(** ** Outcomes composed *)

Section outcomes.
Context (r : Z) (br : bignum) (w : bn_world).

Lemma outcome_failed (R : Prop) P b' o :
  bn_ok b' -> bn_flags b' = bn_flags br -> oom_after w o -> R ->
  outcome r br w R P (Some (false, mk_bn_world (<[r := b']> (bns w)) o)).
Proof. intros. by exists false, b', o. Qed.

Lemma outcome_done R (P : bignum -> Prop) b' o :
  bn_ok b' -> bn_flags b' = bn_flags br -> oom_after w o -> P b' ->
  outcome r br w R P (Some (true, mk_bn_world (<[r := b']> (bns w)) o)).
Proof. intros. by exists true, b', o. Qed.

(** A refusal that changes nothing. *)
Lemma outcome_unchanged (R : Prop) P :
  bns w !! r = Some br -> bn_ok br -> R -> outcome r br w R P (Some (false, w)).
Proof.
  intros Hr Hok HR. exists false, br, (bn_oom w). rewrite set_bn_same by done.
  split_and!; try done. by left.
Qed.

(** The end of most operations. *)
Lemma outcome_minimal (R : Prop) b' o :
  bn_ok b' -> bn_flags b' = bn_flags br -> oom_after w o ->
  outcome r br w R (fun b2 => bn_val b2 = bn_val b' /\ no_neg_zero b2)
    ((_ ← bn_set_minimal_width r; mret true) (mk_bn_world (<[r := b']> (bns w)) o)).
Proof.
  intros Hok Hf Ho.
  erewrite part_bind_some by (apply bn_set_minimal_width_spec; [apply lookup_insert_eq|done]).
  rewrite set_bn_mk, insert_insert_eq. apply outcome_done; [by apply minimal_ok|done|done|].
  split; [by apply minimal_val|by apply minimal_no_neg_zero].
Qed.

Lemma outcome_weaken (R R' : Prop) (P Q : bignum -> Prop) res :
  outcome r br w R P res -> (R -> R') -> (forall b', bn_ok b' -> P b' -> Q b') ->
  outcome r br w R' Q res.
Proof.
  intros (ok & b' & o & -> & Hok & Hf & Ho & HP) HR HQ. exists ok, b', o.
  split_and!; try done. destruct ok; auto.
Qed.

(** An operation that is followed by a change of [r]. *)
Lemma outcome_then (R : Prop) (P Q : bignum -> Prop) (m : bnM bool) (k : bnM unit) (f : bignum -> bignum) :
  outcome r br w R P (m w) ->
  (forall b' v, bns v !! r = Some b' -> bn_ok b' -> k v = Some (tt, set_bn r (f b') v)) ->
  (forall b', bn_ok b' -> P b' -> bn_ok (f b') /\ bn_flags (f b') = bn_flags b' /\ Q (f b')) ->
  outcome r br w R Q ((ok ← m; if negb ok then mret false else _ ← k; mret true) w).
Proof.
  intros (ok & b' & o & E & Hok & Hf & Ho & HP) Hk Hf'. rewrite (part_bind_some _ _ _ _ _ E).
  destruct ok; cbn [negb]; [|by apply outcome_failed].
  erewrite part_bind_some by (apply Hk; [apply lookup_insert_eq|done]).
  rewrite set_bn_mk, insert_insert_eq. destruct (Hf' b' Hok HP) as (? & ? & ?).
  apply outcome_done; [done|congruence|done|done].
Qed.

Lemma outcome_then_minimal (R : Prop) (P Q : bignum -> Prop) m :
  outcome r br w R P (m w) -> (forall b', bn_ok b' -> P b' -> Q (minimal b')) ->
  outcome r br w R Q ((ok ← m; if negb ok then mret false else _ ← bn_set_minimal_width r; mret true) w).
Proof.
  intros Hm HQ. apply (outcome_then R P Q m _ minimal Hm).
  - intros. by apply bn_set_minimal_width_spec.
  - intros b' Hok HP. split_and!; [by apply minimal_ok|done|by apply HQ].
Qed.

Lemma outcome_then_neg (R : Prop) (P Q : bignum -> Prop) n m :
  outcome r br w R P (m w) -> n = 0 \/ n = 1 -> (forall b', bn_ok b' -> P b' -> Q (with_neg n b')) ->
  outcome r br w R Q ((ok ← m; if negb ok then mret false else _ ← update r (with_neg n); mret true) w).
Proof.
  intros Hm Hn HQ. apply (outcome_then R P Q m _ (with_neg n) Hm).
  - intros. by apply bn_update_spec.
  - intros b' Hok HP. split_and!; [by apply with_neg_ok|done|by apply HQ].
Qed.
End outcomes.

(** A source after the destination was changed but for its words. *)
Lemma lookup_kept r a br ba b' w :
  bns w !! r = Some br -> bns w !! a = Some ba -> bn_ok ba -> bn_ok b' ->
  bn_width b' = bn_width br -> limbs b' = limbs br ->
  exists bx, <[r := b']> (bns w) !! a = Some bx /\ bn_ok bx /\ bn_width bx = bn_width ba /\ limbs bx = limbs ba.
Proof.
  intros Hr Ha Hoka Hok Hw Hl. destruct (decide (a = r)) as [->|Hne].
  - exists b'. rewrite lookup_insert_eq. by simplify_eq.
  - exists ba. by rewrite lookup_insert_ne.
Qed.

(** ** Overlapping writes *)

Lemma with_words_ext i l j l' b b' :
  bn_width b = bn_width b' -> bn_dmax b = bn_dmax b' -> bn_neg b = bn_neg b' -> bn_flags b = bn_flags b' ->
  (forall k, list_inserts (Z.to_nat i) l (bn_d b) !! k = list_inserts (Z.to_nat j) l' (bn_d b') !! k) ->
  with_words i l b = with_words j l' b'.
Proof.
  intros E1 E2 E3 E4 H. unfold with_words, with_d. rewrite E1, E2, E3, E4. f_equal. by apply list_eq.
Qed.

Lemma inserts_lookup i (l d : list Z) k :
  (i + length l <= length d)%nat ->
  list_inserts i l d !! k
  = if decide (i <= k < i + length l)%nat then l !! (k - i)%nat else d !! k.
Proof.
  intros Hl. destruct (decide (i <= k < i + length l)%nat).
  - apply list_lookup_inserts; lia.
  - destruct (decide (k < i)%nat); [by apply list_lookup_inserts_lt|apply list_lookup_inserts_ge; lia].
Qed.

Ltac words_ext :=
  apply with_words_ext; try reflexivity; intros k; cbn [with_words with_d bn_d];
  rewrite !inserts_lookup by (rewrite ?length_inserts, ?length_app; cbn [length]; lia);
  repeat (case_decide; try (cbn [length] in *; lia)); try reflexivity.

(** A write that another covers. *)
Lemma with_words_shadow i l j x b :
  0 <= i -> i <= j < i + lenZ l -> i + lenZ l <= lenZ (bn_d b) ->
  with_words i l (with_words j [x] b) = with_words i l b.
Proof. intros Hi Hj Hl. words_ext. Qed.

Lemma with_words_prepend i j l1 l2 b :
  0 <= i -> j = i + lenZ l1 -> j + lenZ l2 <= lenZ (bn_d b) ->
  with_words i l1 (with_words j l2 b) = with_words i (l1 ++ l2) b.
Proof.
  intros Hi -> Hl. apply with_words_ext; try done. intros k. cbn [with_words with_d bn_d].
  rewrite !inserts_lookup by (rewrite ?length_inserts, ?length_app; lia). rewrite length_app.
  repeat case_decide; try lia; try done.
  - rewrite lookup_app_l by lia. done.
  - rewrite lookup_app_r by lia. f_equal. lia.
Qed.
