(* ===== verification/BnAdd.v ===== *)
(** * Big numbers: comparison, addition and subtraction

    Comparison is in constant time, from the least significant word to the most. The result
    of an addition or a subtraction may be either operand, or both. *)
From S2P Require Export BnSpec.

(** The answer of a comparison. *)
Definition cmp_int (x y : Z) : Z := match x ?= y with Lt => -1 | Eq => 0 | Gt => 1 end.

Lemma cmp_int_cases x y :
  (x < y /\ cmp_int x y = -1) \/ (x = y /\ cmp_int x y = 0) \/ (y < x /\ cmp_int x y = 1).
Proof. unfold cmp_int. destruct (Z.compare_spec x y); auto. Qed.

Lemma cmp_int_lt x y : (cmp_int x y <? 0) = (x <? y).
Proof. destruct (cmp_int_cases x y) as [[H ->]|[[H ->]|[H ->]]]; case_bool; try done; lia. Qed.

(** Two numbers and the next, more significant, words of them. *)
Lemma cmp_int_high v1 v2 x y P :
  0 <= v1 < P -> 0 <= v2 < P ->
  cmp_int (v1 + P * x) (v2 + P * y) = if x =? y then cmp_int v1 v2 else if x <? y then -1 else 1.
Proof.
  intros H1 H2. destruct (cmp_int_cases (v1 + P * x) (v2 + P * y)) as [[H ->]|[[H ->]|[H ->]]];
    destruct (cmp_int_cases v1 v2) as [[H' ->]|[[H' ->]|[H' ->]]]; repeat case_bool; try done; nia.
Qed.

Lemma high_word_range v x P : 0 <= v < P -> word x -> 0 <= v + P * x < wbase * P.
Proof.
  unfold word. fold wbase. intros Hv Hx. pose proof (Z.mul_le_mono_nonneg_l x (wbase - 1) P).
  split; [apply Z.add_nonneg_nonneg; [lia|apply Z.mul_nonneg_nonneg; lia]|]. lia.
Qed.

Lemma cmp_int_range x y : - 2 ^ 31 <= cmp_int x y < 2 ^ 31.
Proof. destruct (cmp_int_cases x y) as [[_ ->]|[[_ ->]|[_ ->]]]; lia. Qed.

(** The words beyond those that both have. *)
Lemma or_mask l : words l -> constant_time_is_zero_w (or_list 0 l) = mask_w (val l =? 0).
Proof. intros Hl. rewrite is_zero_mask, or_list_val by auto using or_list_word with cint. done. Qed.

Section compare.
Context (a b : words_ptr) (w : bn_world).

Lemma cmp_loop_spec i xs ys v1 v2 n :
  words xs -> words ys -> length xs = length ys ->
  words_at (bns w) (at_ a i) xs -> words_at (bns w) (at_ b i) ys ->
  0 <= v1 < bpow n -> 0 <= v2 < bpow n ->
  cmp_loop (length xs) a b i (cmp_int v1 v2) w
  = Some (cmp_int (v1 + bpow n * val xs) (v2 + bpow n * val ys), w).
Proof.
  intros Hxs. revert i ys v1 v2 n.
  induction Hxs as [|x xs Hx Hxs IH]; intros i [|y ys] v1 v2 n Hys Hn Ha Hb H1 H2; try done.
  - cbn [cmp_loop length val]. by rewrite !Z.mul_0_r, !Z.add_0_r.
  - apply Forall_cons in Hys as [Hy Hys]. injection Hn as Hn. cbn [cmp_loop length].
    pstep load_spec. pstep load_spec. rewrite eq_mask, lt_mask by done.
    rewrite (select_int_mask (x <? y)), (select_int_mask (x =? y)) by
      (first [apply cmp_int_range | lia | case_bool; lia]).
    rewrite <-(cmp_int_high v1 v2 x y (bpow n)) by done.
    apply words_at_tail in Ha, Hb. rewrite at_at in Ha, Hb.
    rewrite (IH (i + 1) ys _ _ (S n)); try done; rewrite bpow_S; try by apply high_word_range.
    cbn [val]. do 3 f_equal; ring.
Qed.

Lemma common_words n xs ys :
  words xs -> words ys -> words_at (bns w) a xs -> words_at (bns w) b ys ->
  (n <= length xs)%nat /\ (n <= length ys)%nat ->
  cmp_loop (length (take n xs)) a b 0 0 w = Some (cmp_int (val (take n xs)) (val (take n ys)), w)
  /\ length (take n xs) = n /\ length (take n ys) = n.
Proof.
  intros Hxs Hys Ha Hb Hn. rewrite !length_take_le by lia. split; [|done].
  rewrite <-(take_drop n xs) in Ha. rewrite <-(take_drop n ys) in Hb.
  apply words_at_app in Ha as [Ha _]. apply words_at_app in Hb as [Hb _].
  assert (H := cmp_loop_spec 0 (take n xs) (take n ys) 0 0 0 ltac:(auto with cint) ltac:(auto with cint)).
  rewrite !at_0, !length_take_le, bpow_0, !Z.mul_1_l, !Z.add_0_l in H by lia. by apply H.
Qed.

Lemma bn_cmp_words_spec xs ys :
  words xs -> words ys -> words_at (bns w) a xs -> words_at (bns w) b ys ->
  bn_cmp_words_consttime a (lenZ xs) b (lenZ ys) w = Some (cmp_int (val xs) (val ys), w).
Proof.
  intros Hxs Hys Ha Hb. unfold bn_cmp_words_consttime.
  remember (Nat.min (length xs) (length ys)) as n eqn:Hn.
  destruct (common_words n xs ys) as (Hc & Hlx & Hly); [by auto with cint..|lia|].
  assert (Hmin : Z.to_nat (if lenZ xs <? lenZ ys then lenZ xs else lenZ ys) = length (take n xs))
    by (case_bool; lia).
  rewrite Hmin, (part_bind_some _ _ _ _ _ Hc). clear Hc Hmin.
  destruct (Z.ltb_spec (lenZ xs) (lenZ ys)) as [Hlt|Hge].
  - assert (Hd : val (drop n xs) = 0) by (by rewrite drop_ge by lia).
    replace (Z.to_nat (lenZ ys - lenZ xs)) with (length (drop n ys)) by (rewrite length_drop; lia).
    replace (lenZ xs) with (lenZ (take n ys)) by lia.
    erewrite part_bind_some by (apply or_words_spec; by apply (words_at_app _ _ (take n ys)); rewrite take_drop).
    rewrite or_mask, select_int_mask by (first [by auto with cint | apply cmp_int_range | lia]).
    rewrite (val_take_drop n xs), (val_take_drop n ys), Hly, Hlx, Hd.
    rewrite cmp_int_high by (apply val_range_len; auto with cint).
    pose proof (val_range (drop n ys) ltac:(auto with cint)). unfold mret, part_ret. do 2 f_equal.
    repeat case_bool; (done || lia).
  - assert (Hd : val (drop n ys) = 0) by (by rewrite drop_ge by lia).
    rewrite (val_take_drop n xs), (val_take_drop n ys), Hly, Hlx, Hd.
    rewrite cmp_int_high by (apply val_range_len; auto with cint).
    destruct (Z.ltb_spec (lenZ ys) (lenZ xs)); [|by rewrite (drop_ge xs) by lia].
    replace (Z.to_nat (lenZ xs - lenZ ys)) with (length (drop n xs)) by (rewrite length_drop; lia).
    replace (lenZ ys) with (lenZ (take n xs)) by lia.
    erewrite part_bind_some by (apply or_words_spec; by apply (words_at_app _ _ (take n xs)); rewrite take_drop).
    rewrite or_mask, select_int_mask by (first [by auto with cint | apply cmp_int_range | lia]).
    pose proof (val_range (drop n xs) ltac:(auto with cint)). unfold mret, part_ret. do 2 f_equal.
    repeat case_bool; (done || lia).
Qed.
End compare.

Section bignums.
Context (a b : Z) (ba bb : bignum) (w : bn_world).
Context (Ha : bns w !! a = Some ba) (Hb : bns w !! b = Some bb).
Context (Hoka : bn_ok ba) (Hokb : bn_ok bb).

Lemma BN_ucmp_spec : BN_ucmp a b w = Some (cmp_int (bn_abs ba) (bn_abs bb), w).
Proof.
  unfold BN_ucmp. pstep get_width_spec. pstep get_width_spec.
  rewrite <-(limbs_length _ Hoka), <-(limbs_length _ Hokb).
  apply bn_cmp_words_spec; auto with cint; by apply words_at_limbs_0.
Qed.

Lemma BN_cmp_spec :
  a <> NULL -> b <> NULL -> no_neg_zero ba -> no_neg_zero bb ->
  BN_cmp a b w = Some (cmp_int (bn_val ba) (bn_val bb), w).
Proof.
  intros Hna Hnb Hza Hzb. unfold BN_cmp.
  rewrite (proj2 (Z.eqb_neq a NULL) Hna), (proj2 (Z.eqb_neq b NULL) Hnb). cbn [orb].
  pstep get_neg_spec. pstep get_neg_spec.
  pose proof (bn_abs_range _ Hoka). pose proof (bn_abs_range _ Hokb).
  unfold bn_val, no_neg_zero in *.
  destruct (bn_sign _ Hoka) as [Ea|Ea], (bn_sign _ Hokb) as [Eb|Eb]; rewrite Ea in Hza |- *; rewrite Eb in Hzb |- *;
    cbn [Z.eqb Pos.eqb negb]; try rewrite (part_bind_some _ _ _ _ _ BN_ucmp_spec);
    unfold mret, part_ret, cmp_int; do 2 f_equal;
    repeat match goal with |- context [?x ?= ?y] => destruct (Z.compare_spec x y) end; lia.
Qed.
End bignums.

(** ** Words *)

Lemma or_zero_steps (f : Z -> Z -> bnM Z) n w :
  0 <= n -> (if n =? 0 then mret 0 else unrolled f n 0) w = steps f (Z.to_nat n) 0 0 w.
Proof.
  intros Hn. destruct (Z.eqb_spec n 0) as [->|]; [done|]. by apply unrolled_steps.
Qed.

Section two_sources.
Context (r a b : words_ptr) (xs ys : list Z) (br : bignum) (w : bn_world).
Context (Hxs : words xs) (Hys : words ys) (Hn : length xs = length ys).
Context (Ha : words_at (bns w) a xs) (Hb : words_at (bns w) b ys).
Context (Hr : bns w !! r.1 = Some br) (Hroom : room br r.2 (length xs)).
Context (Hra : not_behind r a) (Hrb : not_behind r b).

Lemma bn_add_words_spec :
  exists l c, bn_add_words r a b (lenZ xs) w = Some (c, set_bn r.1 (with_words r.2 l br) w)
    /\ words l /\ length l = length xs /\ is_carry c
    /\ val l + bpow (length xs) * c = val xs + val ys.
Proof.
  destruct (add_acc xs ys 0 Hxs Hys Hn ltac:(unfold is_carry; lia)) as (l & c & E & Hl & Hll & Hc & Hv).
  exists l, c. unfold bn_add_words. rewrite or_zero_steps, Nat2Z.id by lia.
  rewrite (step2_spec _ r a b xs ys 0 l c br w) by done. split_and!; try done. lia.
Qed.

Lemma bn_sub_words_spec :
  exists l c, bn_sub_words r a b (lenZ xs) w = Some (c, set_bn r.1 (with_words r.2 l br) w)
    /\ words l /\ length l = length xs /\ is_carry c
    /\ val l - bpow (length xs) * c = val xs - val ys.
Proof.
  destruct (sub_acc xs ys 0 Hxs Hys Hn ltac:(unfold is_carry; lia)) as (l & c & E & Hl & Hll & Hc & Hv).
  exists l, c. unfold bn_sub_words. rewrite or_zero_steps, Nat2Z.id by lia.
  rewrite (step2_spec _ r a b xs ys 0 l c br w) by done. split_and!; try done. lia.
Qed.
End two_sources.

(** ** Unsigned *)

(** The two loops of an addition or a subtraction: over the words both sources have, and
    over the rest of [a]. [b1] is the destination once expanded, [b2] with another width. *)
Section loops.
Context (r a b : Z) (br ba bb b1 b2 : bignum) (w : bn_world) (o : list bool) (n : nat).
Context (Hr : bns w !! r = Some br) (Ha : bns w !! a = Some ba) (Hb : bns w !! b = Some bb).
Context (Hoka : bn_ok ba) (Hokb : bn_ok bb).
Context (Hexp : expanded br b1) (Hd : bn_d b2 = bn_d b1) (Hroom : bn_width ba <= lenZ (bn_d b2)).
Context (Hna : (n <= length (limbs ba))%nat) (Hnb : (n <= length (limbs bb))%nat).

Notation at_r b' := (mk_bn_world (<[r := b']> (bns w)) o).

Lemma source_a i l :
  lenZ l <= i -> 0 <= i ->
  words_at (bns (at_r (with_words 0 l b2))) (a, i) (drop (Z.to_nat i) (limbs ba)).
Proof.
  clear Hna Hnb Hroom. intros Hi Hp. apply (words_at_kept _ r br b1 _ a ba); try done.
  intros k Hk. rewrite with_words_lookup_out by lia. by rewrite Hd.
Qed.

Lemma source_b i : 0 <= i -> words_at (bns (at_r b2)) (b, i) (drop (Z.to_nat i) (limbs bb)).
Proof.
  clear Hna Hnb Hroom. intros Hp. apply (words_at_kept _ r br b1 _ b bb); try done. intros k Hk. by rewrite Hd.
Qed.

Lemma sources :
  words_at (bns (at_r b2)) (a, 0) (take n (limbs ba))
  /\ words_at (bns (at_r b2)) (b, 0) (take n (limbs bb))
  /\ length (take n (limbs ba)) = n /\ length (take n (limbs bb)) = n
  /\ room b2 0 (length (take n (limbs ba))).
Proof.
  pose proof (limbs_length _ Hoka). unfold room. rewrite !length_take.
  split_and!; try lia.
  - apply (words_at_app _ _ _ (drop n (limbs ba))). rewrite take_drop, <-(with_words_nil 0 b2).
    apply (source_a 0); cbn; lia.
  - apply (words_at_app _ _ _ (drop n (limbs bb))). rewrite take_drop. by apply (source_b 0).
Qed.

Lemma add_head :
  exists l c, bn_add_words (r, 0) (a, 0) (b, 0) (Z.of_nat n) (at_r b2) = Some (c, at_r (with_words 0 l b2))
    /\ words l /\ length l = n /\ is_carry c
    /\ val l + bpow n * c = val (take n (limbs ba)) + val (take n (limbs bb)).
Proof.
  destruct sources as (Hx & Hy & Hlx & Hly & Hrm).
  destruct (bn_add_words_spec (r, 0) (a, 0) (b, 0) (take n (limbs ba)) (take n (limbs bb)) b2 (at_r b2))
    as (l & c & E & Hl & Hll & Hc & Hv); try done; auto with cint; [by rewrite Hlx|apply lookup_insert_eq|].
  rewrite Hlx in *. rewrite set_bn_mk in E. cbn [fst snd] in E. rewrite insert_insert_eq in E.
  by exists l, c.
Qed.

Lemma sub_head :
  exists l c, bn_sub_words (r, 0) (a, 0) (b, 0) (Z.of_nat n) (at_r b2) = Some (c, at_r (with_words 0 l b2))
    /\ words l /\ length l = n /\ is_carry c
    /\ val l - bpow n * c = val (take n (limbs ba)) - val (take n (limbs bb)).
Proof.
  destruct sources as (Hx & Hy & Hlx & Hly & Hrm).
  destruct (bn_sub_words_spec (r, 0) (a, 0) (b, 0) (take n (limbs ba)) (take n (limbs bb)) b2 (at_r b2))
    as (l & c & E & Hl & Hll & Hc & Hv); try done; auto with cint; [by rewrite Hlx|apply lookup_insert_eq|].
  rewrite Hlx in *. rewrite set_bn_mk in E. cbn [fst snd] in E. rewrite insert_insert_eq in E.
  by exists l, c.
Qed.

Lemma carry_tail op c l l' c' :
  length l = n -> map_acc op c (drop n (limbs ba)) = Some (l', c') -> length l' = length (drop n (limbs ba)) ->
  steps (step1 op (r, 0) (a, 0)) (Z.to_nat (bn_width ba - Z.of_nat n)) (Z.of_nat n) c
    (at_r (with_words 0 l b2))
  = Some (c', at_r (with_words 0 (l ++ l') b2)).
Proof.
  clear Hnb. intros Hl E Hl'. pose proof (limbs_length _ Hoka) as Hla.
  replace (Z.to_nat (bn_width ba - Z.of_nat n)) with (length (drop n (limbs ba)))
    by (rewrite length_drop; lia).
  erewrite step1_spec_from; [|exact E|..].
  - rewrite set_bn_mk, insert_insert_eq. cbn [snd].
    by rewrite <-with_words_with_words, Hl by done.
  - rewrite <-(Nat2Z.id n) at 2. apply source_a; lia.
  - apply lookup_insert_eq.
  - unfold room. rewrite with_words_length, length_drop. cbn. lia.
  - unfold not_behind. cbn. lia.
Qed.
End loops.

Section ops.
Context (r a b : Z) (br ba bb : bignum) (w : bn_world).
Context (Hr : bns w !! r = Some br) (Ha : bns w !! a = Some ba) (Hb : bns w !! b = Some bb).
Context (Hokr : bn_ok br) (Hoka : bn_ok ba) (Hokb : bn_ok bb) (Hown : owned br).

Lemma uadd_ordered_spec :
  bn_width bb <= bn_width ba ->
  outcome r br w (no_room w (bn_width ba + 1))
    (fun b' => bn_abs b' = bn_abs ba + bn_abs bb /\ bn_neg b' = bn_neg br) (uadd_ordered r a b w).
Proof.
  intros Hle. unfold uadd_ordered. pstep get_width_spec. pstep get_width_spec.
  destruct (wexpand_spec r (bn_width ba + 1) br w Hr Hokr Hown) as (ok & b1 & o & E & Hexp & Ho & Hroom).
  rewrite (part_bind_some _ _ _ _ _ E). pose proof Hexp as (Hok1 & Hw1 & Hs1 & Hf1 & Hl1 & Hd1).
  destruct ok; cbn [negb]; [|by apply outcome_failed].
  pose proof (limbs_length _ Hoka) as Hla. pose proof (limbs_length _ Hokb) as Hlb.
  erewrite part_bind_some by (apply bn_update_spec; apply lookup_insert_eq).
  rewrite set_bn_mk, insert_insert_eq. set (b2 := with_width (bn_width ba + 1) b1).
  assert (Hok2 : bn_ok b2) by (apply with_width_ok; [done|pose proof (proj1 Hoka); lia]).
  assert (Hd2 : bn_width ba + 1 <= lenZ (bn_d b2)) by (change (bn_d b2) with (bn_d b1); destruct Hok1 as (_ & Hx & _); lia).
  replace (bn_width bb) with (Z.of_nat (length (limbs bb))) by done.
  destruct (add_head r a b br ba bb b1 b2 w o (length (limbs bb))) as (l & c & El & Hl & Hll & Hc & Hv);
    try done; try lia.
  rewrite (part_bind_some _ _ _ _ _ El), (take_ge (limbs bb)) in * by lia.
  destruct (add_carry_acc (drop (length (limbs bb)) (limbs ba)) c ltac:(auto with cint) Hc)
    as (l' & c' & El' & Hl' & Hll' & Hc' & Hv').
  erewrite part_bind_some by (eapply carry_tail; try done; lia).
  erewrite part_bind_some; [|apply store_spec; [apply lookup_insert_eq|]].
  2: { rewrite with_words_length. cbn [snd]. pose proof (proj1 Hoka). lia. }
  rewrite set_bn_mk, insert_insert_eq, store_with_words. cbn [fst snd].
  rewrite length_drop in Hll', Hv'.
  assert (Hi : bn_width ba = 0 + lenZ (l ++ l')) by (rewrite length_app; lia).
  rewrite (with_words_append 0 (bn_width ba)) by done.
  assert (Hw' : words ((l ++ l') ++ [c'])).
  { apply words_app. split; [by apply words_app|]. constructor; [|done]. unfold word, is_carry in *. lia. }
  apply outcome_done; [by auto with cint|done|done|].
  split; [|done]. unfold bn_abs at 1. rewrite limbs_with_words; [|done|].
  2: { cbn. rewrite !length_app. cbn. lia. }
  rewrite !val_app, length_app. cbn [val]. unfold bn_abs. rewrite (val_take_drop (length (limbs bb)) (limbs ba)).
  rewrite length_take_le by lia. rewrite Hll, bpow_add, Hll'.
  apply (f_equal (Z.mul (bpow (length (limbs bb))))) in Hv'. lia.
Qed.
(** What is taken away has no more words than what it is taken from. *)
Lemma subtrahend_fits :
  (if bn_width ba <? bn_width bb then bn_fits_in_words b (bn_width ba) else mret true) w
  = Some (bn_abs bb <? bpow (length (limbs ba)), w)
  /\ (bn_abs bb < bpow (length (limbs ba)) -> bn_abs bb < bpow (Nat.min (length (limbs ba)) (length (limbs bb)))).
Proof.
  pose proof (limbs_length _ Hoka) as Hla. pose proof (limbs_length _ Hokb) as Hlb.
  pose proof (val_range (limbs bb) ltac:(auto with cint)) as Hv. fold (bn_abs bb) in Hv. split.
  - destruct (Z.ltb_spec (bn_width ba) (bn_width bb)).
    + rewrite (bn_fits_in_words_spec b _ bb) by (done || lia). rewrite <-Hla. by rewrite Nat2Z.id.
    + pose proof (bpow_mono (length (limbs bb)) (length (limbs ba)) ltac:(lia)).
      by destruct (Z.ltb_spec (bn_abs bb) (bpow (length (limbs ba)))); [|lia].
  - destruct (Nat.min_spec (length (limbs ba)) (length (limbs bb))) as [[_ ->]|[_ ->]]; lia.
Qed.

Lemma bn_usub_consttime_spec :
  outcome r br w (no_room w (bn_width ba) \/ bn_abs ba < bn_abs bb)
    (fun b' => bn_abs b' = bn_abs ba - bn_abs bb /\ bn_neg b' = 0) (bn_usub_consttime r a b w).
Proof.
  unfold bn_usub_consttime. pstep get_width_spec. pstep get_width_spec.
  pose proof (limbs_length _ Hoka) as Hla. pose proof (limbs_length _ Hokb) as Hlb.
  destruct subtrahend_fits as [Hfit Hmin].
  rewrite (part_bind_some _ _ _ _ _ Hfit).
  destruct (Z.ltb_spec (bn_abs bb) (bpow (length (limbs ba)))) as [Hb1|Hb1]; cbn [negb].
  2: { apply outcome_unchanged; [done|done|]. right. pose proof (val_range (limbs ba) ltac:(auto with cint)).
       unfold bn_abs in *. lia. }
  pose proof (Hmin Hb1) as Hbk. clear Hfit Hmin.
  remember (Nat.min (length (limbs ba)) (length (limbs bb))) as k eqn:Hk.
  replace (if bn_width ba <? bn_width bb then bn_width ba else bn_width bb) with (Z.of_nat k)
    by (case_bool; lia).
  destruct (wexpand_spec r (bn_width ba) br w Hr Hokr Hown) as (ok & b1 & o & E & Hexp & Ho & Hroom).
  rewrite (part_bind_some _ _ _ _ _ E). pose proof Hexp as (Hok1 & Hw1 & Hs1 & Hf1 & Hl1 & Hd1).
  destruct ok; cbn [negb]; [|by apply outcome_failed; auto].
  assert (Hd2 : bn_width ba <= lenZ (bn_d b1)) by (destruct Hok1 as (_ & Hx & _); lia).
  destruct (sub_head r a b br ba bb b1 b1 w o k) as (l & c & El & Hl & Hll & Hc & Hv); try done; try lia.
  rewrite (part_bind_some _ _ _ _ _ El).
  destruct (sub_borrow_acc (drop k (limbs ba)) c ltac:(auto with cint) Hc)
    as (l' & c' & El' & Hl' & Hll' & Hc' & Hv').
  erewrite part_bind_some by (eapply carry_tail; try done; lia).
  rewrite length_drop in Hll', Hv'.
  assert (Hval : val (l ++ l') - bpow (length (limbs ba)) * c' = bn_abs ba - bn_abs bb).
  { rewrite val_app, Hll. replace (length (limbs ba)) with (k + (length (limbs ba) - k))%nat by lia.
    rewrite bpow_add, (abs_take ba k), (abs_take bb k) by lia.
    rewrite (abs_drop_zero bb k) by done. apply (f_equal (Z.mul (bpow k))) in Hv'. lia. }
  pose proof (bn_abs_range _ Hoka) as Hra. pose proof (bn_abs_range _ Hokb) as Hrb.
  assert (Hws : words (l ++ l')) by (by apply words_app).
  assert (Hlen : length (l ++ l') = length (limbs ba)) by (rewrite length_app; lia).
  pose proof (val_range _ Hws) as Hrl. rewrite Hlen in Hrl. unfold is_carry in Hc'.
  destruct (Z.eqb_spec c' 0) as [-> | Hc1]; cbn [negb].
  2: { apply outcome_failed; [by auto with cint|done|done|]. right. nia. }
  destruct (lookup_width r a br ba (with_words 0 (l ++ l') b1) w) as (bx & Hbx & Hwx); [done..|].
  erewrite part_bind_some by (by apply get_width_spec). rewrite Hwx.
  erewrite part_bind_some by (apply bn_update_spec; apply lookup_insert_eq).
  erewrite part_bind_some by (apply bn_update_spec; apply bns_set).
  rewrite set_bn_twice, set_bn_mk, insert_insert_eq.
  assert (Hb' : bn_ok (with_width (bn_width ba) (with_words 0 (l ++ l') b1))).
  { apply with_width_ok; [by auto with cint|]. pose proof (proj1 Hoka). cbn. lia. }
  apply outcome_done; [apply with_neg_ok; [done|by left]|done|done|].
  split; [|done]. unfold bn_abs at 1.
  change (limbs (with_neg 0 _)) with (limbs (with_words 0 (l ++ l') (with_width (bn_width ba) b1))).
  rewrite limbs_with_words; [lia| |cbn; lia]. apply with_width_ok; [done|]. pose proof (proj1 Hoka). lia.
Qed.
End ops.

Lemma bn_room_mono w n m : n <= m -> no_room w n -> no_room w m.
Proof. unfold no_room. intros ? [?|?]; [left; lia|by right]. Qed.

Section signed.
Context (r a b : Z) (br ba bb : bignum) (w : bn_world).
Context (Hr : bns w !! r = Some br) (Ha : bns w !! a = Some ba) (Hb : bns w !! b = Some bb).
Context (Hokr : bn_ok br) (Hoka : bn_ok ba) (Hokb : bn_ok bb) (Hown : owned br).

Lemma bn_uadd_consttime_spec :
  outcome r br w (no_room w (Z.max (bn_width ba) (bn_width bb) + 1))
    (fun b' => bn_abs b' = bn_abs ba + bn_abs bb /\ bn_neg b' = bn_neg br) (bn_uadd_consttime r a b w).
Proof.
  unfold bn_uadd_consttime. pstep get_width_spec. pstep get_width_spec.
  destruct (Z.ltb_spec (bn_width ba) (bn_width bb)).
  - eapply outcome_weaken; [eapply (uadd_ordered_spec r b a); eauto; lia| |].
    + by rewrite Z.max_r by lia.
    + cbn. intros b' _ [-> ->]. split; [lia|done].
  - eapply outcome_weaken; [eapply (uadd_ordered_spec r a b); eauto; lia| |].
    + by rewrite Z.max_l by lia.
    + done.
Qed.

(** The sign of the sum is the one [r] had before. *)
Lemma BN_uadd_spec :
  outcome r br w (no_room w (Z.max (bn_width ba) (bn_width bb) + 1))
    (fun b' => bn_abs b' = bn_abs ba + bn_abs bb /\ (bn_abs b' <> 0 -> bn_neg b' = bn_neg br) /\ no_neg_zero b')
    (BN_uadd r a b w).
Proof.
  unfold BN_uadd. eapply outcome_then_minimal; [apply bn_uadd_consttime_spec|].
  intros b' Hok [Hv Hn]. rewrite minimal_abs, minimal_neg, Hn by done. split_and!; [done| |].
  - intros Hne. by rewrite (proj2 (Z.eqb_neq _ _) Hne).
  - by apply minimal_no_neg_zero.
Qed.

Lemma BN_usub_spec :
  outcome r br w (no_room w (bn_width ba) \/ bn_abs ba < bn_abs bb)
    (fun b' => bn_abs b' = bn_abs ba - bn_abs bb /\ bn_neg b' = 0) (BN_usub r a b w).
Proof.
  unfold BN_usub. eapply outcome_then_minimal; [by apply bn_usub_consttime_spec|].
  intros b' Hok [Hv Hn]. rewrite minimal_abs, minimal_neg, Hn by done. by case_match.
Qed.

Lemma with_neg_abs n b' : bn_abs (with_neg n b') = bn_abs b'.
Proof. done. Qed.
End signed.

Section signed.
Context (r a b : Z) (br ba bb : bignum) (w : bn_world).
Context (Hr : bns w !! r = Some br) (Ha : bns w !! a = Some ba) (Hb : bns w !! b = Some bb).
Context (Hokr : bn_ok br) (Hoka : bn_ok ba) (Hokb : bn_ok bb) (Hown : owned br).

(** What the sum or the difference of signed numbers asks for. *)
Definition sum_room : Prop := no_room w (Z.max (bn_width ba) (bn_width bb) + 1).

Lemma sub_signed_spec :
  outcome r br w sum_room
    (fun b' => bn_val b' = bn_abs ba - bn_abs bb /\ no_neg_zero b') (sub_signed r a b w).
Proof.
  unfold sub_signed, sum_room. rewrite (part_bind_some _ _ _ _ _ (BN_ucmp_spec a b ba bb w Ha Hb Hoka Hokb)).
  rewrite cmp_int_lt. destruct (Z.ltb_spec (bn_abs ba) (bn_abs bb)).
  - eapply (outcome_weaken _ _ _ _ _ _ _ _ (outcome_then_neg _ _ _ _ _ _ 1 _
      (BN_usub_spec r b a br bb ba w Hr Hb Ha Hokr Hokb Hoka Hown) ltac:(by right) _)).
    + intros [Hroom|]; [|lia]. eapply bn_room_mono; [|done]. lia.
    + intros b' _ HP. exact HP.
  - eapply (outcome_weaken _ _ _ _ _ _ _ _ (outcome_then_neg _ _ _ _ _ _ 0 _
      (BN_usub_spec r a b br ba bb w Hr Ha Hb Hokr Hoka Hokb Hown) ltac:(by left) _)).
    + intros [Hroom|]; [|lia]. eapply bn_room_mono; [|done]. lia.
    + intros b' _ HP. exact HP.
  Unshelve.
  all: cbn; intros b' Hok [Hv Hn]; unfold bn_val, no_neg_zero; rewrite with_neg_abs; cbn; lia.
Qed.

Lemma uadd_signed_spec n :
  n = 0 \/ n = 1 -> (bn_abs ba + bn_abs bb = 0 -> n = 0) ->
  outcome r br w sum_room
    (fun b' => bn_val b' = (if n =? 0 then bn_abs ba + bn_abs bb else - (bn_abs ba + bn_abs bb))
               /\ no_neg_zero b')
    ((ok ← BN_uadd r a b; if negb ok then mret false else _ ← update r (with_neg n); mret true) w).
Proof.
  intros Hn Hz. eapply outcome_then_neg; [by apply (BN_uadd_spec r a b br ba bb)|done|].
  intros b' Hok (Hv & _ & _). unfold bn_val, no_neg_zero. rewrite with_neg_abs, Hv. cbn. by case_match.
Qed.
End signed.

Section signed.
Context (r a b : Z) (br ba bb : bignum) (w : bn_world).
Context (Hr : bns w !! r = Some br) (Ha : bns w !! a = Some ba) (Hb : bns w !! b = Some bb).
Context (Hokr : bn_ok br) (Hoka : bn_ok ba) (Hokb : bn_ok bb) (Hown : owned br).
Context (Hza : no_neg_zero ba) (Hzb : no_neg_zero bb).

Lemma sum_room_comm : sum_room bb ba w -> sum_room ba bb w.
Proof. unfold sum_room. by rewrite Z.max_comm. Qed.

(** A sum of two numbers of the same sign [n]: the sign is set even when there is no
    room. *)
Lemma add_same_sign n :
  n = 0 \/ n = 1 -> (bn_abs ba + bn_abs bb = 0 -> n = 0) ->
  outcome r br w (sum_room ba bb w)
    (fun b' => bn_val b' = (if n =? 0 then bn_abs ba + bn_abs bb else - (bn_abs ba + bn_abs bb))
               /\ no_neg_zero b')
    ((ret ← BN_uadd r a b; _ ← update r (with_neg n); mret ret) w).
Proof.
  intros Hn Hz. destruct (BN_uadd_spec r a b br ba bb w) as (ok & b' & o & E & Hok & Hf & Ho & HP); try done.
  rewrite (part_bind_some _ _ _ _ _ E).
  erewrite part_bind_some by (apply bn_update_spec; apply lookup_insert_eq).
  rewrite set_bn_mk, insert_insert_eq.
  exists ok, (with_neg n b'), o. split_and!; [done|by apply with_neg_ok|done|done|].
  destruct ok; [|done]. destruct HP as (Hv & _ & _). unfold bn_val, no_neg_zero.
  rewrite with_neg_abs, Hv. cbn. by case_match.
Qed.

Lemma BN_add_spec :
  outcome r br w (sum_room ba bb w)
    (fun b' => bn_val b' = bn_val ba + bn_val bb /\ no_neg_zero b') (BN_add r a b w).
Proof.
  unfold BN_add. pstep get_neg_spec. pstep get_neg_spec.
  pose proof (bn_abs_range _ Hoka). pose proof (bn_abs_range _ Hokb). unfold no_neg_zero in Hza, Hzb.
  destruct (bn_sign _ Hoka) as [Ea|Ea], (bn_sign _ Hokb) as [Eb|Eb]; rewrite Ea in Hza; rewrite Eb in Hzb;
    rewrite Ea, Eb; cbn [Z.lxor Pos.lxor Z.eqb Pos.eqb negb].
  - eapply outcome_weaken; [by apply add_same_sign; auto|done|].
    cbn. intros b' _ [-> Hz]. split; [|done]. unfold bn_val. by rewrite Ea, Eb.
  - eapply outcome_weaken; [by apply (sub_signed_spec r a b br ba bb)|done|].
    cbn. intros b' _ [-> Hz]. split; [|done]. unfold bn_val. rewrite Ea, Eb. cbn. lia.
  - eapply outcome_weaken; [by apply (sub_signed_spec r b a br bb ba)|apply sum_room_comm|].
    cbn. intros b' _ [-> Hz]. split; [|done]. unfold bn_val. rewrite Ea, Eb. cbn. lia.
  - eapply outcome_weaken; [apply (add_same_sign 1); [by right|lia]|done|].
    cbn. intros b' _ [-> Hz]. split; [|done]. unfold bn_val. rewrite Ea, Eb. cbn. lia.
Qed.

Lemma BN_sub_spec :
  outcome r br w (sum_room ba bb w)
    (fun b' => bn_val b' = bn_val ba - bn_val bb /\ no_neg_zero b') (BN_sub r a b w).
Proof.
  unfold BN_sub. pstep get_neg_spec. pstep get_neg_spec.
  pose proof (bn_abs_range _ Hoka). pose proof (bn_abs_range _ Hokb). unfold no_neg_zero in Hza, Hzb.
  destruct (bn_sign _ Hoka) as [Ea|Ea], (bn_sign _ Hokb) as [Eb|Eb]; rewrite Ea in Hza; rewrite Eb in Hzb;
    rewrite Ea, Eb; cbn [Z.eqb Pos.eqb negb].
  - eapply outcome_weaken; [by apply (sub_signed_spec r a b br ba bb)|done|].
    cbn. intros b' _ [-> Hz]. split; [|done]. unfold bn_val. by rewrite Ea, Eb.
  - eapply outcome_weaken; [by apply (uadd_signed_spec r a b br ba bb); auto|done|].
    cbn. intros b' _ [-> Hz]. split; [|done]. unfold bn_val. rewrite Ea, Eb. cbn. lia.
  - eapply outcome_weaken; [apply (uadd_signed_spec r a b br ba bb w Hr Ha Hb Hokr Hoka Hokb Hown 1); [by right|lia]|done|].
    cbn. intros b' _ [-> Hz]. split; [|done]. unfold bn_val. rewrite Ea, Eb. cbn. lia.
  - eapply outcome_weaken; [by apply (sub_signed_spec r b a br bb ba)|apply sum_room_comm|].
    cbn. intros b' _ [-> Hz]. split; [|done]. unfold bn_val. rewrite Ea, Eb. cbn. lia.
Qed.
End signed.
