(* ===== verification/BnShift.v ===== *)
(** * Big numbers: shifts and bits

    Shifting is multiplication and division by a power of two, whether or not the result
    takes the place of the source. *)
From S2P Require Export BnAdd.

(** ** To the left *)

(** The words of a number shifted by [lb] bits, from its words, the most significant
    first; [y] is what the word above them holds. *)
Fixpoint shl_rev (lb : Z) (ys : list Z) (y : Z) : list Z :=
  match ys with
  | [] => [y]
  | x :: ys => shl_rev lb ys (u64 (Z.shiftl x lb)) ++ [Z.lor y (Z.shiftr x (BN_BITS2 - lb))]
  end.

Lemma length_shl_rev lb ys y : length (shl_rev lb ys y) = S (length ys).
Proof. revert y. induction ys as [|x ys IH]; intros y; [done|]. cbn. rewrite length_app, IH. cbn. lia. Qed.

Lemma shl_low x lb :
  0 <= lb < 64 -> word x ->
  exists hi, Z.shiftr x (BN_BITS2 - lb) = hi /\ 0 <= hi < 2 ^ lb
    /\ word (u64 (Z.shiftl x lb)) /\ u64 (Z.shiftl x lb) mod 2 ^ lb = 0
    /\ u64 (Z.shiftl x lb) + wbase * hi = x * 2 ^ lb.
Proof.
  unfold BN_BITS2, word, u64, wbase. intros Hlb Hx. eexists. split; [reflexivity|].
  rewrite Z.shiftr_div_pow2, Z.shiftl_mul_pow2 by lia.
  assert (E : 2 ^ 64 = 2 ^ (64 - lb) * 2 ^ lb) by (rewrite <-Z.pow_add_r by lia; f_equal; lia).
  assert (0 < 2 ^ lb) by (apply Z.pow_pos_nonneg; lia).
  assert (0 < 2 ^ (64 - lb)) by (apply Z.pow_pos_nonneg; lia).
  split; [split; [apply Z.div_pos; lia|apply Z.div_lt_upper_bound; lia]|].
  split; [apply Z.mod_pos_bound; lia|].
  rewrite E, Z.mul_mod_distr_r by lia. split; [apply Z_mod_mult|].
  pose proof (Z.div_mod x (2 ^ (64 - lb))). nia.
Qed.

Lemma shl_rev_val lb xs y :
  0 <= lb < 64 -> words xs -> word y -> y mod 2 ^ lb = 0 ->
  words (shl_rev lb (rev xs) y) /\ val (shl_rev lb (rev xs) y) = val xs * 2 ^ lb + bpow (length xs) * y.
Proof.
  intros Hlb. revert y. induction xs as [|x xs IH] using rev_ind; intros y Hxs Hy Hym.
  - cbn. rewrite bpow_0. split; [by constructor|]. lia.
  - apply words_app in Hxs as [Hxs Hx%words_singleton].
    destruct (shl_low x lb Hlb Hx) as (hi & Ehi & Hhi & Hlo & Hlom & Hv).
    rewrite rev_app_distr. cbn [rev app shl_rev]. rewrite Ehi.
    destruct (IH _ Hxs Hlo Hlom) as [Hw Hval].
    rewrite Z.lor_comm, (lor_add _ _ lb) by (done || lia).
    assert (Hy' : word (hi + y)).
    { unfold word in *. split; [lia|]. assert (0 < 2 ^ lb) by (apply Z.pow_pos_nonneg; lia).
      assert (E : 2 ^ 64 = 2 ^ lb * 2 ^ (64 - lb)) by (rewrite <-Z.pow_add_r by lia; f_equal; lia).
      assert (y / 2 ^ lb < 2 ^ (64 - lb)) by (apply Z.div_lt_upper_bound; lia).
      pose proof (Z.div_mod y (2 ^ lb)). nia. }
    split; [by apply words_app; split; [|constructor]|].
    rewrite val_app, Hval, length_shl_rev, length_rev, val_app, length_app. cbn [val length].
    rewrite Nat.add_1_r, bpow_S. apply (f_equal (Z.mul (bpow (length xs)))) in Hv. lia.
Qed.

Section lshift.
Context (r a nw lb : Z) (Hnw : 0 <= nw) (Hlb : 0 <= lb < 64).

Lemma words_at_snoc h q xs x :
  words_at h q (xs ++ [x]) -> words_at h q xs /\ words_at h (at_ q (lenZ xs)) [x].
Proof. apply words_at_app. Qed.

(** One iteration: the word at [m] goes to [nw + m], and its top bits above. *)
Lemma lshift_body m x y b w :
  bns w !! r = Some b -> nw + m + 1 < lenZ (bn_d b) -> 0 <= m -> bn_d b !! Z.to_nat (nw + m + 1) = Some y ->
  word x ->
  (if lb =? 0 then store (at_ (r, 0) (nw + m)) x
   else
     x0 ← load (at_ (r, 0) (nw + m + 1));
     _ ← store (at_ (r, 0) (nw + m + 1)) (Z.lor x0 (Z.shiftr x (BN_BITS2 - lb)));
     store (at_ (r, 0) (nw + m)) (u64 (Z.shiftl x lb))) w
  = Some (tt, set_bn r (with_words (nw + m) [u64 (Z.shiftl x lb); Z.lor y (Z.shiftr x (BN_BITS2 - lb))] b) w).
Proof.
  intros Hr Hroom Hm Hy Hx. unfold at_. cbn [fst snd]. rewrite !Z.add_0_l.
  assert (Hcons : forall u v, with_words (nw + m) [u; v] b
    = with_d (<[Z.to_nat (nw + m) := u]> (<[Z.to_nat (nw + m + 1) := v]> (bn_d b))) b).
  { intros u v. unfold with_words. cbn. f_equal. f_equal. f_equal. lia. }
  rewrite Hcons. destruct (Z.eqb_spec lb 0) as [->|Hne].
  - rewrite (store_spec _ _ b) by (done || cbn; lia). do 4 f_equal.
    unfold word in Hx. change (BN_BITS2 - 0) with 64.
    rewrite Z.shiftl_0_r, u64_small, Z.shiftr_div_pow2, Z.div_small, Z.lor_0_r by lia.
    by rewrite (list_insert_id _ _ y) by done.
  - erewrite part_bind_some.
    2: { apply (load_spec _ y []). exists b. split_and!; [done|cbn; lia|]. intros [|k] z Hz; [|done].
         injection Hz as <-. rewrite Nat.add_0_r. exact Hy. }
    erewrite part_bind_some by (apply store_spec; [done|cbn; lia]). cbn [fst snd].
    erewrite store_spec; [|apply bns_set|cbn; rewrite length_insert; lia].
    by rewrite set_bn_twice.
Qed.

Lemma lshift_loop_spec xs y b w :
  bns w !! r = Some b -> words xs -> words_at (bns w) (a, 0) xs ->
  nw + lenZ xs < lenZ (bn_d b) -> bn_d b !! Z.to_nat (nw + lenZ xs) = Some y ->
  lshift_loop (length xs) (r, 0) (a, 0) nw lb w
  = Some (tt, set_bn r (with_words nw (shl_rev lb (rev xs) y) b) w).
Proof.
  revert y b w. induction xs as [|x xs IH] using rev_ind; intros y b w Hr Hxs Ha Hroom Hy.
  - cbn in *. unfold mret, part_ret, set_bn. rewrite Z.add_0_r in Hy.
    replace (with_words nw [y] b) with b; [rewrite insert_id by done; by destruct w|].
    rewrite <-store_with_words, list_insert_id by done. by destruct b.
  - apply words_app in Hxs as [Hxs Hx%words_singleton].
    destruct (words_at_app _ _ _ _ Ha) as [Ha1 Ha2]. rewrite length_app in *. cbn [length] in *.
    rewrite Nat.add_1_r in *. cbn [lshift_loop]. pstep load_spec.
    replace (nw + Z.of_nat (S (length xs))) with (nw + lenZ xs + 1) in * by lia.
    rewrite (part_bind_some _ _ _ _ _ (lshift_body (lenZ xs) x y b w Hr Hroom ltac:(lia) Hy Hx)).
    rewrite rev_app_distr. cbn [rev app shl_rev]. set (lo := u64 (Z.shiftl x lb)). set (hi := Z.lor y _).
    assert (Hlen : length (shl_rev lb (rev xs) lo) = S (length xs)) by by rewrite length_shl_rev, length_rev.
    rewrite (IH lo (with_words (nw + lenZ xs) [lo; hi] b)); [|apply bns_set|done|..].
    + rewrite set_bn_twice. do 3 f_equal.
      rewrite <-(with_words_prepend (nw + lenZ xs) (nw + lenZ xs + 1) [lo] [hi]) by (cbn; lia).
      rewrite with_words_shadow by (rewrite ?with_words_length; lia).
      apply with_words_prepend; cbn; lia.
    + apply words_at_set; [done|]. cbn [fst snd]. intros -> b0 Hb0 k Hk. simplify_eq.
      apply with_words_lookup_out. lia.
    + rewrite with_words_length. lia.
    + unfold with_words. cbn. rewrite list_lookup_insert_eq; [done|]. rewrite length_insert. lia.
Qed.
End lshift.

(** The value of a record from its sign and its words. *)
Definition signed (n v : Z) : Z := if n =? 0 then v else - v.
Lemma bn_val_signed b : bn_val b = signed (bn_neg b) (bn_abs b).
Proof. done. Qed.
Lemma signed_mul n v k : signed n (v * k) = signed n v * k.
Proof. unfold signed. case_match; lia. Qed.

Lemma bpow_bits n k : 0 <= n -> bpow (Z.to_nat n) * 2 ^ k = 2 ^ (64 * n) * 2 ^ k.
Proof.
  intros Hn. unfold bpow, wbase. rewrite <-Z.pow_mul_r by lia. by rewrite Z2Nat.id.
Qed.

Section ops.
Context (r a : Z) (br ba : bignum) (w : bn_world).
Context (Hr : bns w !! r = Some br) (Ha : bns w !! a = Some ba).
Context (Hokr : bn_ok br) (Hoka : bn_ok ba) (Hown : owned br).

(** The array is in place: the width is set, and made minimal. *)
Lemma outcome_set_width R n l b1 o :
  bn_ok b1 -> bn_flags b1 = bn_flags br -> oom_after w o -> words l -> lenZ l = n -> n <= bn_dmax b1 ->
  outcome r br w R (fun b' => bn_val b' = signed (bn_neg b1) (val l) /\ no_neg_zero b')
    ((_ ← update r (with_width n); _ ← bn_set_minimal_width r; mret true)
       (mk_bn_world (<[r := with_words 0 l b1]> (bns w)) o)).
Proof.
  intros Hok1 Hf Ho Hl Hn Hd. erewrite part_bind_some by (apply bn_update_spec; apply lookup_insert_eq).
  rewrite set_bn_mk, insert_insert_eq.
  assert (Hok2 : bn_ok (with_width n b1)) by (apply with_width_ok; [done|lia]).
  change (with_width n (with_words 0 l b1)) with (with_words 0 l (with_width n b1)).
  assert (Hok3 : bn_ok (with_words 0 l (with_width n b1))) by auto with cint.
  erewrite part_bind_some by (apply bn_set_minimal_width_spec; [apply lookup_insert_eq|done]).
  rewrite set_bn_mk, insert_insert_eq. apply outcome_done; [by apply minimal_ok|done|done|].
  split; [|by apply minimal_no_neg_zero]. rewrite minimal_val, !bn_val_signed by done.
  unfold bn_abs. by rewrite limbs_with_words.
Qed.

Lemma BN_lshift_spec n :
  0 <= n ->
  outcome r br w (no_room w (bn_width ba + n / 64 + 1))
    (fun b' => bn_val b' = bn_val ba * 2 ^ n /\ no_neg_zero b') (BN_lshift r a n w).
Proof.
  intros Hn. unfold BN_lshift. destruct (Z.ltb_spec n 0); [lia|]. pstep get_neg_spec.
  erewrite part_bind_some by (by apply bn_update_spec). change (n / BN_BITS2) with (n / 64).
  change (n mod BN_BITS2) with (n mod 64). set (nw := n / 64). set (lb := n mod 64).
  assert (Hnw : 0 <= nw) by (apply Z.div_pos; lia).
  assert (Hlb : 0 <= lb < 64) by (apply Z.mod_pos_bound; lia).
  set (b0 := with_neg (bn_neg ba) br).
  assert (Hok0 : bn_ok b0) by (apply with_neg_ok; [done|by apply bn_sign]).
  destruct (lookup_kept r a br ba b0 w) as (bx & Hbx & Hokx & Hwx & Hlx); try done.
  erewrite part_bind_some by (by apply get_width_spec). rewrite Hwx.
  destruct (wexpand_spec r (bn_width ba + nw + 1) b0 (set_bn r b0 w)) as (ok & b1 & o & E & Hexp & Ho & Hroom);
    [apply bns_set|done|done|].
  rewrite (part_bind_some _ _ _ _ _ E). pose proof Hexp as (Hok1 & Hw1 & Hs1 & Hf1 & Hl1 & Hd1).
  cbn [bns set_bn]. rewrite insert_insert_eq.
  destruct ok; cbn [negb]; [|by apply outcome_failed].
  pose proof (limbs_length _ Hoka) as Hla. pose proof (proj1 Hoka) as Hwa.
  assert (Hd2 : lenZ (bn_d b1) = bn_dmax b1) by (by destruct Hok1 as (_ & ? & _)).
  erewrite part_bind_some by (apply store_spec; [apply lookup_insert_eq|cbn; lia]).
  rewrite set_bn_mk, insert_insert_eq, store_with_words. cbn [fst snd].
  rewrite <-Hlx, <-Hwx, <-(limbs_length _ Hokx), Nat2Z.id in *.
  set (b2 := with_words (lenZ (limbs bx) + nw) [0] b1).
  assert (Hd3 : lenZ (bn_d b2) = bn_dmax b1) by (unfold b2; by rewrite with_words_length).
  erewrite part_bind_some.
  2: { apply (lshift_loop_spec r a nw lb Hnw Hlb (limbs bx) 0 b2); [apply lookup_insert_eq|auto with cint|..].
       - cbn [bns]. rewrite <-(insert_insert_eq (bns w) r b2 b0).
         apply (words_at_inside _ r b0 b1 _ a bx 0); try done; [apply lookup_insert_eq|].
         intros -> k Hk. apply with_words_lookup_out. rewrite lookup_insert_eq in Hbx.
         injection Hbx as <-. left. rewrite <-(limbs_length _ Hok0) in Hk. lia.
       - lia.
       - unfold b2, with_words. cbn. rewrite Z.add_comm. apply list_lookup_insert_eq. lia. }
  erewrite part_bind_some by (apply zero_words_spec; [apply bns_set|done|]; unfold room; cbn [snd];
    rewrite with_words_length; lia).
  rewrite set_bn_twice, set_bn_mk, insert_insert_eq. cbn [fst snd].
  set (l := shl_rev lb (rev (limbs bx)) 0).
  assert (Hll : length l = S (length (limbs bx))) by (by unfold l; rewrite length_shl_rev, length_rev).
  destruct (shl_rev_val lb (limbs bx) 0 Hlb) as [Hlw Hlv]; [auto with cint|done|by rewrite Z.mod_0_l by lia|].
  fold l in Hlw, Hlv. unfold b2. rewrite (with_words_shadow nw) by lia.
  rewrite with_words_prepend by (rewrite ?length_replicate; lia).
  set (l0 := replicate (Z.to_nat nw) 0 ++ l).
  assert (Hl0 : lenZ l0 = lenZ (limbs bx) + nw + 1)
    by (unfold l0; rewrite length_app, length_replicate; lia).
  assert (Hw0 : words l0) by (apply words_app; auto with cint).
  eapply outcome_weaken; [apply (outcome_set_width _ _ l0 b1 o); try done; lia|done|].
  intros b' _ [Hv Hz]. split; [|done]. rewrite Hv, bn_val_signed, Hs1. cbn [b0 with_neg bn_neg].
  rewrite <-signed_mul. f_equal. unfold bn_abs. rewrite <-Hlx. unfold l0.
  rewrite val_app, val_zeros, length_replicate, Hlv, Z.mul_0_r, !Z.add_0_r, Z.add_0_l, Z.mul_assoc,
    (Z.mul_comm (bpow _)), <-Z.mul_assoc. f_equal.
  rewrite bpow_bits, <-Z.pow_add_r by lia. f_equal. unfold nw, lb. div_lia.
Qed.
End ops.

(** ** To the right *)

(** A word with the low bits of the next one above it. *)
Definition shr_word (n x y : Z) : Z := Z.lor (Z.shiftr x n) (u64 (Z.shiftl y (BN_BITS2 - n))).
Definition shr (n : Z) (xs : list Z) : list Z := zip_with (shr_word n) xs (tail xs ++ [0]).

Lemma length_shr n xs : length (shr n xs) = length xs.
Proof. unfold shr. rewrite length_zip_with, length_app. destruct xs; cbn [length tail app]; lia. Qed.

Lemma shr_word_spec n x y :
  0 < n < 64 -> word x -> word y ->
  shr_word n x y = x / 2 ^ n + 2 ^ (64 - n) * (y mod 2 ^ n) /\ word (shr_word n x y).
Proof.
  intros Hn Hx Hy. unfold shr_word, BN_BITS2. split; [by apply lor_word_high|].
  apply word_lor; auto with cint. unfold word in *. rewrite Z.shiftr_div_pow2 by lia.
  assert (0 < 2 ^ n) by (apply Z.pow_pos_nonneg; lia).
  split; [apply Z.div_pos; lia|]. apply Z.div_lt_upper_bound; nia.
Qed.

(** The words of a number that is divided. *)
Lemma div_words n x v :
  0 < n < 64 -> 0 <= v ->
  (x + wbase * v) / 2 ^ n = x / 2 ^ n + 2 ^ (64 - n) * (v mod 2 ^ n) + wbase * (v / 2 ^ n).
Proof.
  intros Hn Hv. assert (0 < 2 ^ n) by (apply Z.pow_pos_nonneg; lia).
  assert (E : wbase = 2 ^ (64 - n) * 2 ^ n)
    by (unfold wbase; rewrite <-Z.pow_add_r by lia; f_equal; lia).
  rewrite E. replace (x + 2 ^ (64 - n) * 2 ^ n * v) with (x + (2 ^ (64 - n) * v) * 2 ^ n) by ring.
  rewrite Z.div_add by lia. pose proof (Z.div_mod v (2 ^ n)). nia.
Qed.

Lemma val_mod n x l : 0 < n < 64 -> val (x :: l) mod 2 ^ n = x mod 2 ^ n.
Proof.
  intros Hn. cbn [val].
  assert (E : wbase = 2 ^ (64 - n) * 2 ^ n)
    by (unfold wbase; rewrite <-Z.pow_add_r by lia; f_equal; lia).
  replace (x + wbase * val l) with (x + (2 ^ (64 - n) * val l) * 2 ^ n) by (rewrite E; ring).
  apply Z_mod_plus_full.
Qed.

Lemma shr_val n xs :
  0 < n < 64 -> words xs -> words (shr n xs) /\ val (shr n xs) = val xs / 2 ^ n.
Proof.
  intros Hn. induction 1 as [|x xs Hx Hxs IH]; [split; [constructor|]; by rewrite Z.div_0_l by (apply Z.pow_nonzero; lia)|].
  destruct IH as [IHw IHv]. pose proof (val_range _ Hxs).
  assert (Hnext : exists y l, tail (x :: xs) ++ [0] = y :: l /\ shr n xs = zip_with (shr_word n) xs l
                  /\ word y /\ val xs mod 2 ^ n = y mod 2 ^ n).
  { destruct xs as [|y xs]; cbn [tail app].
    - by exists 0, [].
    - exists y, (xs ++ [0]). apply Forall_cons in Hxs as [Hy _]. split_and!; try done. by apply val_mod. }
  destruct Hnext as (y & l & E & El & Hy & Hm). unfold shr. rewrite E. cbn [zip_with]. rewrite <-El.
  destruct (shr_word_spec n x y Hn Hx Hy) as [Ex Hxw]. split; [by constructor|].
  change (val (shr_word n x y :: shr n xs)) with (shr_word n x y + wbase * val (shr n xs)).
  change (val (x :: xs)) with (x + wbase * val xs).
  rewrite div_words, Ex, IHv, Hm by lia. done.
Qed.

Lemma shift_pairs n c xs ys :
  length xs = length ys -> zip_acc (shift_pair n) c xs ys = Some (zip_with (shr_word n) xs ys, c).
Proof.
  revert ys. induction xs as [|x xs IH]; intros [|y ys] Hl; try done. injection Hl as Hl.
  cbn. by rewrite IH.
Qed.

(** The words shifted, last one apart: it has no word above it. *)
Lemma shr_snoc n xs x : shr n (xs ++ [x]) = zip_with (shr_word n) xs (drop 1 (xs ++ [x])) ++ [Z.shiftr x n].
Proof.
  unfold shr. replace (drop 1 (xs ++ [x])) with (tail (xs ++ [x])) by (by destruct xs).
  rewrite zip_with_app by (destruct xs; cbn; rewrite ?length_app; cbn; lia).
  cbn. unfold shr_word at 2. rewrite Z.shiftl_0_l. by rewrite Z.lor_0_r.
Qed.

Section rshift.
Context (r a : Z) (xs : list Z) (br : bignum) (w : bn_world).
Context (Hxs : words xs) (Ha : words_at (bns w) (a, 0) xs).
Context (Hr : bns w !! r = Some br) (Hroom : lenZ xs <= lenZ (bn_d br)).

(** The loop over pairs of words and the last word, from word [k] of the source. *)
Lemma shift_words_spec n (k : nat) x :
  0 < n < 64 -> (k < length xs)%nat -> xs !! (length xs - 1)%nat = Some x ->
  (_ ← steps (step2 (shift_pair n) (r, 0) (at_ (a, 0) (Z.of_nat k)) (at_ (a, 0) (Z.of_nat k + 1)))
         (length xs - 1 - k) 0 0;
   x ← load (at_ (a, 0) (lenZ xs - 1));
   store (at_ (r, 0) (lenZ xs - 1 - Z.of_nat k)) (Z.shiftr x n)) w
  = Some (tt, set_bn r (with_words 0 (shr n (drop k xs)) br) w).
Proof.
  intros Hn Hk Hx.
  assert (Exs : xs = take (length xs - 1) xs ++ [x]).
  { rewrite <-(take_drop_middle xs (length xs - 1) x Hx) at 1. f_equal.
    by rewrite drop_ge by lia. }
  remember (take (length xs - 1) xs) as ys eqn:Eys.
  assert (Hys : length ys = (length xs - 1)%nat) by (subst ys; rewrite length_take; lia).
  assert (Hd : drop k xs = drop k ys ++ [x]) by (rewrite Exs, drop_app_le by lia; done).
  assert (H1 : words_at (bns w) (at_ (a, 0) (Z.of_nat k)) (drop k ys ++ [x])).
  { rewrite <-Hd. rewrite <-(take_drop k xs) in Ha. apply words_at_app in Ha as [_ Ha'].
    by rewrite length_take_le in Ha' by lia. }
  assert (Hl1 : length (drop k ys) = (length xs - 1 - k)%nat) by (rewrite length_drop; lia).
  assert (Hl2 : length (drop 1 (drop k ys ++ [x])) = length (drop k ys)).
  { destruct (drop k ys); [done|]. cbn [app]. rewrite skipn_cons, drop_0, length_app. cbn [length]. lia. }
  set (zs := zip_with (shr_word n) (drop k ys) (drop 1 (drop k ys ++ [x]))).
  assert (Hzs : length zs = (length xs - 1 - k)%nat).
  { unfold zs. rewrite length_zip_with, Hl2. lia. }
  rewrite <-Hl1. erewrite part_bind_some.
  2: { apply (step2_spec _ _ _ _ (drop k ys) (drop 1 (drop k ys ++ [x])) 0 zs 0 br w).
       - by apply shift_pairs.
       - done.
       - by apply words_at_app in H1 as [H1 _].
       - rewrite <-at_at. destruct (drop k ys ++ [x]) as [|z l] eqn:El; [by destruct (drop k ys)|].
         by apply words_at_tail in H1.
       - done.
       - unfold room. cbn. lia.
       - unfold not_behind. cbn. lia.
       - unfold not_behind. cbn. lia. }
  cbn [fst snd]. erewrite part_bind_some.
  2: { apply (load_spec _ x []). replace (lenZ xs - 1) with (Z.of_nat k + lenZ (drop k ys)) by lia.
       rewrite <-at_at. apply words_at_set.
       - by apply words_at_app in H1 as [_ H1].
       - unfold at_. cbn [fst snd length]. intros E b0 Hb0 j Hj. simplify_eq.
         apply with_words_lookup_out. lia. }
  erewrite store_spec; [|apply bns_set|cbn [at_ snd fst]; rewrite with_words_length; lia].
  rewrite set_bn_twice, store_with_words. unfold at_. cbn [fst snd].
  rewrite with_words_append by lia. by rewrite Hd, shr_snoc.
Qed.

(** The words that are not shifted out. *)
Lemma shift_body shift k :
  0 <= shift -> shift / 64 = Z.of_nat k -> (k < length xs)%nat ->
  exists l, (if shift mod 64 =? 0 then copy_words (r, 0) (at_ (a, 0) (Z.of_nat k)) (lenZ xs - Z.of_nat k)
     else
       _ ← steps (step2 (shift_pair (shift mod 64)) (r, 0) (at_ (a, 0) (Z.of_nat k)) (at_ (a, 0) (Z.of_nat k + 1)))
             (Z.to_nat (lenZ xs - 1 - Z.of_nat k)) 0 0;
       x ← load (at_ (a, 0) (lenZ xs - 1));
       store (at_ (r, 0) (lenZ xs - 1 - Z.of_nat k)) (Z.shiftr x (shift mod 64))) w
    = Some (tt, set_bn r (with_words 0 l br) w)
    /\ words l /\ length l = (length xs - k)%nat /\ val l = val (drop k xs) / 2 ^ (shift mod 64).
Proof.
  intros Hs Hk Hlt. pose proof (Z.mod_pos_bound shift 64 ltac:(lia)) as Hm.
  destruct (Z.eqb_spec (shift mod 64) 0) as [E0|E0].
  - exists (drop k xs). rewrite E0, Z.div_1_r, length_drop. split_and!; auto with cint.
    replace (lenZ xs - Z.of_nat k) with (lenZ (drop k xs)) by (rewrite length_drop; lia).
    apply (copy_words_at (r, 0)); [|intros E; apply (f_equal length) in E; rewrite length_drop in E; cbn in E; lia|done|].
    + rewrite <-(take_drop k xs) in Ha. apply words_at_app in Ha as [_ Ha'].
      by rewrite length_take_le in Ha' by lia.
    + unfold room. rewrite length_drop. cbn. lia.
  - destruct (lookup_lt_is_Some_2 xs (length xs - 1)) as [x Hx]; [lia|].
    exists (shr (shift mod 64) (drop k xs)).
    replace (Z.to_nat (lenZ xs - 1 - Z.of_nat k)) with (length xs - 1 - k)%nat by lia.
    rewrite (shift_words_spec (shift mod 64) k x) by (done || lia).
    destruct (shr_val (shift mod 64) (drop k xs) ltac:(lia) ltac:(auto with cint)).
    by rewrite length_shr, length_drop.
Qed.

(** [bn_rshift_words] *)
Lemma bn_rshift_words_spec shift :
  0 <= shift ->
  exists l, bn_rshift_words (r, 0) (a, 0) shift (lenZ xs) w = Some (tt, set_bn r (with_words 0 l br) w)
    /\ words l /\ length l = length xs /\ val l = val xs / 2 ^ shift.
Proof.
  intros Hs. unfold bn_rshift_words. change BN_BITS2 with 64.
  remember (Z.to_nat (shift / 64)) as k eqn:Ek.
  assert (Hk : shift / 64 = Z.of_nat k) by (pose proof (Z.div_pos shift 64); lia).
  rewrite Hk. pose proof (val_range _ Hxs) as Hrange.
  assert (Esh : 2 ^ shift = bpow k * 2 ^ (shift mod 64)).
  { unfold bpow, wbase. rewrite <-Z.pow_mul_r, <-Z.pow_add_r by (try apply Z.mod_pos_bound; lia).
    f_equal. pose proof (Z.div_mod shift 64). lia. }
  destruct (Z.leb_spec (lenZ xs) (Z.of_nat k)) as [Hle|Hlt].
  - exists (replicate (length xs) 0). rewrite (zero_words_spec _ _ br) by (done || (unfold room; cbn; lia) || lia).
    rewrite Nat2Z.id. split_and!; [done|apply words_zeros|apply length_replicate|].
    rewrite val_zeros, Z.div_small; [done|]. split; [lia|]. rewrite Esh.
    pose proof (bpow_mono (length xs) k ltac:(lia)).
    assert (0 < 2 ^ (shift mod 64)) by (apply Z.pow_pos_nonneg; [lia|apply Z.mod_pos_bound; lia]). nia.
  - destruct (shift_body shift k Hs Hk ltac:(lia)) as (l & E & Hl & Hll & Hv).
    rewrite (part_bind_some _ _ _ _ _ E). exists (l ++ replicate k 0).
    rewrite (zero_words_spec _ _ (with_words 0 l br)); [|apply bns_set|lia|].
    2: { unfold room, at_. cbn [fst snd]. rewrite with_words_length. lia. }
    rewrite set_bn_twice. unfold at_. cbn [fst snd]. rewrite with_words_append by lia.
    rewrite Nat2Z.id, length_app, length_replicate. split_and!; [done|by apply words_app; auto with cint|lia|].
    rewrite val_app, val_zeros, Hv, Esh, Z.mul_0_r, Z.add_0_r, <-Z.div_div by
      (try apply bpow_pos; try apply Z.pow_pos_nonneg; try apply Z.mod_pos_bound; try lia;
       pose proof (bpow_pos k); lia).
    f_equal. rewrite (val_take_drop k xs), length_take_le, Z.mul_comm, Z.div_add by
      (try lia; pose proof (bpow_pos k); lia).
    rewrite Z.div_small by (apply val_range_len; [auto with cint|rewrite length_take; lia]). lia.
Qed.

(** [bn_rshift1_words] *)
Lemma bn_rshift1_words_spec :
  exists l, bn_rshift1_words (r, 0) (a, 0) (lenZ xs) w = Some (tt, set_bn r (with_words 0 l br) w)
    /\ words l /\ length l = length xs /\ val l = val xs / 2 ^ 1.
Proof.
  destruct (decide (xs = [])) as [->|Hne].
  { exists []. rewrite with_words_nil. unfold bn_rshift1_words, set_bn. rewrite insert_id by done.
    split_and!; try done. by destruct w. }
  assert (Hlen : (0 < length xs)%nat) by (destruct xs; [done|cbn; lia]).
  unfold bn_rshift1_words. destruct (Z.eqb_spec (lenZ xs) 0); [lia|].
  destruct (lookup_lt_is_Some_2 xs (length xs - 1)) as [x Hx]; [lia|].
  exists (shr 1 xs). destruct (shr_val 1 xs ltac:(lia) Hxs).
  pose proof (shift_words_spec 1 0 x ltac:(lia) Hlen Hx) as E.
  rewrite drop_0, Z.sub_0_r, Nat.sub_0_r in E.
  replace (Z.to_nat (lenZ xs - 1)) with (length xs - 1)%nat by lia.
  split_and!; [exact E|done|apply length_shr|done].
Qed.
End rshift.

Lemma signed_quot n v k : 0 <= v -> 0 < k -> signed n (v / k) = Z.quot (signed n v) k.
Proof.
  intros Hv Hk. unfold signed. case_match.
  - by rewrite Z.quot_div_nonneg.
  - by rewrite Z.quot_opp_l, Z.quot_div_nonneg by lia.
Qed.

Section right.
Context (r a : Z) (br ba : bignum) (w : bn_world).
Context (Hr : bns w !! r = Some br) (Ha : bns w !! a = Some ba).
Context (Hokr : bn_ok br) (Hoka : bn_ok ba) (Hown : owned br).

(** What [r] holds once the words of the quotient are written: [b1] is [br] expanded. *)
Lemma shifted_record b1 l n :
  expanded br b1 -> bn_width ba <= bn_dmax b1 -> words l -> length l = length (limbs ba) ->
  0 <= n -> val l = bn_abs ba / 2 ^ n ->
  let b' := with_width (bn_width ba) (with_neg (bn_neg ba) (with_words 0 l b1)) in
  bn_ok b' /\ bn_flags b' = bn_flags br /\ bn_val b' = Z.quot (bn_val ba) (2 ^ n).
Proof.
  intros (Hok1 & _ & _ & Hf & _) Hroom Hl Hll Hn Hv b'. pose proof (limbs_length _ Hoka) as Hla.
  assert (Hok2 : bn_ok (with_width (bn_width ba) (with_neg (bn_neg ba) b1))).
  { apply with_width_ok; [apply with_neg_ok; [done|by apply bn_sign]|]. pose proof (proj1 Hoka). cbn. lia. }
  change b' with (with_words 0 l (with_width (bn_width ba) (with_neg (bn_neg ba) b1))).
  split_and!; [by auto with cint|done|]. rewrite !bn_val_signed. unfold bn_abs at 1.
  rewrite limbs_with_words by (done || cbn; lia). rewrite Hv. cbn [bn_neg with_words with_d with_width with_neg].
  pose proof (bn_abs_range _ Hoka). apply signed_quot; [lia|]. apply Z.pow_pos_nonneg; lia.
Qed.

(** The words of the source once the destination is expanded. *)
Lemma sources_kept b1 : expanded br b1 -> words_at (<[r := b1]> (bns w)) (a, 0) (limbs ba).
Proof. intros Hexp. by apply (words_at_kept _ r br b1 b1 a ba 0). Qed.

(** The record of the source, whatever was written to the destination. *)
Lemma source_record b1 l :
  expanded br b1 ->
  exists bx, <[r := with_words 0 l b1]> (bns w) !! a = Some bx
    /\ bn_neg bx = bn_neg ba /\ bn_width bx = bn_width ba.
Proof.
  intros (_ & Hw & Hn & _). destruct (decide (a = r)) as [->|Hne].
  - exists (with_words 0 l b1). rewrite lookup_insert_eq. simplify_eq. done.
  - exists ba. by rewrite lookup_insert_ne.
Qed.

Lemma BN_rshift_spec n :
  0 <= n ->
  outcome r br w (no_room w (bn_width ba))
    (fun b' => bn_val b' = Z.quot (bn_val ba) (2 ^ n) /\ no_neg_zero b') (BN_rshift r a n w).
Proof.
  intros Hn. unfold BN_rshift. destruct (Z.ltb_spec n 0); [lia|]. pstep get_width_spec.
  destruct (wexpand_spec r (bn_width ba) br w Hr Hokr Hown) as (ok & b1 & o & E & Hexp & Ho & Hroom).
  rewrite (part_bind_some _ _ _ _ _ E). pose proof Hexp as (Hok1 & Hw1 & Hs1 & Hf1 & Hl1 & Hd1).
  destruct ok; cbn [negb]; [|by apply outcome_failed].
  assert (Hla := limbs_length _ Hoka).
  assert (Hl0 : lenZ (limbs ba) <= lenZ (bn_d b1)) by (destruct Hok1 as (_ & -> & _); lia).
  destruct (bn_rshift_words_spec r a (limbs ba) b1 (mk_bn_world (<[r := b1]> (bns w)) o)
    ltac:(auto with cint) (sources_kept b1 Hexp) (lookup_insert_eq _ _ _) Hl0 n Hn) as (l & El & Hl & Hll & Hv).
  rewrite Hla in El. rewrite (part_bind_some _ _ _ _ _ El), set_bn_mk, insert_insert_eq.
  destruct (source_record b1 l Hexp) as (bx & Hbx & Hnx & Hwx).
  erewrite part_bind_some by (by apply get_bn_spec). rewrite Hnx, Hwx.
  erewrite part_bind_some by (apply bn_update_spec; apply lookup_insert_eq).
  erewrite part_bind_some by (apply bn_update_spec; apply bns_set).
  rewrite set_bn_twice, set_bn_mk, insert_insert_eq. cbn [fst].
  destruct (shifted_record b1 l n) as (Hok2 & Hf2 & Hv2); try done.
  rewrite <-Hv2. by apply outcome_minimal.
Qed.

Lemma BN_rshift1_spec :
  outcome r br w (no_room w (bn_width ba))
    (fun b' => bn_val b' = Z.quot (bn_val ba) 2 /\ no_neg_zero b') (BN_rshift1 r a w).
Proof.
  unfold BN_rshift1. pstep get_width_spec.
  destruct (wexpand_spec r (bn_width ba) br w Hr Hokr Hown) as (ok & b1 & o & E & Hexp & Ho & Hroom).
  rewrite (part_bind_some _ _ _ _ _ E). pose proof Hexp as (Hok1 & Hw1 & Hs1 & Hf1 & Hl1 & Hd1).
  destruct ok; cbn [negb]; [|by apply outcome_failed].
  assert (Hla := limbs_length _ Hoka).
  assert (Hl0 : lenZ (limbs ba) <= lenZ (bn_d b1)) by (destruct Hok1 as (_ & -> & _); lia).
  destruct (bn_rshift1_words_spec r a (limbs ba) b1 (mk_bn_world (<[r := b1]> (bns w)) o)
    ltac:(auto with cint) (sources_kept b1 Hexp) (lookup_insert_eq _ _ _) Hl0) as (l & El & Hl & Hll & Hv).
  rewrite Hla in El. rewrite (part_bind_some _ _ _ _ _ El), set_bn_mk, insert_insert_eq.
  destruct (source_record b1 l Hexp) as (bx & Hbx & Hnx & Hwx).
  erewrite part_bind_some by (by apply get_bn_spec). rewrite Hnx, Hwx.
  erewrite part_bind_some by (apply bn_update_spec; apply lookup_insert_eq).
  erewrite part_bind_some by (apply bn_update_spec; apply bns_set).
  rewrite set_bn_twice, set_bn_mk, insert_insert_eq. cbn [fst].
  destruct (shifted_record b1 l 1) as (Hok2 & Hf2 & Hv2); try done.
  change 2 with (2 ^ 1). rewrite <-Hv2. by apply outcome_minimal.
Qed.

End right.

(** ** By one bit to the left *)

Section lshift1.
Context (r a : Z) (br ba : bignum) (w : bn_world).
Context (Hr : bns w !! r = Some br) (Ha : bns w !! a = Some ba).
Context (Hokr : bn_ok br) (Hoka : bn_ok ba) (Hown : owned br) (Hza : no_neg_zero ba).

(** The destination before it is expanded, and once it is. *)
Definition lshift1_dest : bignum := if negb (r =? a) then with_neg (bn_neg ba) br else br.

Lemma lshift1_dest_spec :
  (if negb (r =? a) then update r (with_neg (bn_neg ba)) else mret tt) w = Some (tt, set_bn r lshift1_dest w)
  /\ bn_ok lshift1_dest /\ bn_flags lshift1_dest = bn_flags br /\ bn_neg lshift1_dest = bn_neg ba.
Proof.
  unfold lshift1_dest. destruct (Z.eqb_spec r a) as [E|E]; cbn [negb].
  - subst a. simplify_eq. split_and!; try done. unfold mret, part_ret, set_bn. rewrite insert_id by done. by destruct w.
  - split_and!; try done; [by apply bn_update_spec|apply with_neg_ok; [done|by apply bn_sign]].
Qed.

Lemma lshift1_dest_same : r = a -> bn_width lshift1_dest = bn_width ba.
Proof.
  intros E. unfold lshift1_dest. rewrite E, Z.eqb_refl. cbn [negb]. rewrite E in Hr. congruence.
Qed.

Lemma BN_lshift1_spec :
  outcome r br w (no_room w (bn_width ba + 1))
    (fun b' => bn_val b' = bn_val ba * 2 /\ no_neg_zero b') (BN_lshift1 r a w).
Proof.
  unfold BN_lshift1. pstep get_bn_spec. destruct lshift1_dest_spec as (E0 & Hok0 & Hf0 & Hn0).
  rewrite (part_bind_some _ _ _ _ _ E0). set (b0 := lshift1_dest) in *.
  destruct (wexpand_spec r (bn_width ba + 1) b0 (set_bn r b0 w)) as (ok & b1 & o & E & Hexp & Ho & Hroom);
    [apply bns_set|done|by unfold owned; rewrite Hf0|].
  rewrite (part_bind_some _ _ _ _ _ E). pose proof Hexp as (Hok1 & Hw1 & Hs1 & Hf1 & Hl1 & Hd1).
  cbn [bns set_bn]. rewrite insert_insert_eq.
  destruct ok; cbn [negb]; [|apply outcome_failed; [done|by rewrite Hf1|done|done]].
  pose proof (limbs_length _ Hoka) as Hla. pose proof (proj1 Hoka) as Hwa.
  set (b2 := with_width (bn_width ba) b1).
  assert (E2 : (if negb (r =? a) then update r (with_width (bn_width ba)) else mret tt)
                 (mk_bn_world (<[r := b1]> (bns w)) o) = Some (tt, mk_bn_world (<[r := b2]> (bns w)) o)).
  { destruct (Z.eqb_spec r a) as [Ea|Ea]; cbn [negb].
    - unfold b2. replace (bn_width ba) with (bn_width b1); [by destruct b1|].
      rewrite Hw1. by apply lshift1_dest_same.
    - erewrite bn_update_spec by apply lookup_insert_eq. by rewrite set_bn_mk, insert_insert_eq. }
  rewrite (part_bind_some _ _ _ _ _ E2).
  assert (Hd2 : lenZ (bn_d b2) = bn_dmax b1) by (change (bn_d b2) with (bn_d b1); by destruct Hok1 as (_ & -> & _)).
  assert (Hok2 : bn_ok b2) by (apply with_width_ok; [done|lia]).
  destruct (double_acc (limbs ba) 0 ltac:(auto with cint) ltac:(unfold is_carry; lia))
    as (l & c & El & Hl & Hll & Hc & Hv).
  assert (Hsrc : words_at (<[r := b2]> (bns w)) (a, 0) (limbs ba)).
  { rewrite <-(insert_insert_eq (bns w) r b2 b0).
    destruct (lookup_kept r a br ba b0 w) as (bx & Hbx & Hokx & _ & <-); try done;
      [by unfold b0, lshift1_dest; case_match..|].
    apply (words_at_inside _ r b0 b1 b2 a bx 0); try done. apply lookup_insert_eq. }
  rewrite <-Hla, Nat2Z.id.
  erewrite part_bind_some.
  2: { apply (step1_spec _ (r, 0) (a, 0) (limbs ba) 0 l c b2); try done; [apply lookup_insert_eq| ].
       unfold room. cbn [snd]. lia. }
  rewrite set_bn_mk, insert_insert_eq. cbn [fst snd].
  assert (Hv0 : val l + bpow (length (limbs ba)) * c = bn_abs ba * 2) by (unfold bn_abs; lia).
  assert (Hlw : lenZ l = bn_width b2) by (cbn; lia).
  assert (Hz2 : forall b', bn_neg b' = bn_neg ba -> bn_abs b' = bn_abs ba * 2 ->
                bn_val b' = bn_val ba * 2 /\ no_neg_zero b').
  { intros b' En Ev. rewrite !bn_val_signed, En, Ev. split; [apply signed_mul|].
    unfold no_neg_zero in *. rewrite En, Ev. intros. apply Hza. lia. }
  unfold is_carry in Hc. destruct (Z.eqb_spec c 0) as [->|Hne]; cbn [negb].
  - apply outcome_done; [by auto with cint|by cbn; rewrite Hf1|done|].
    apply Hz2; [by cbn; rewrite Hs1|]. unfold bn_abs at 1. rewrite limbs_with_words by done. lia.
  - erewrite part_bind_some by (apply store_spec; [apply lookup_insert_eq|]; rewrite with_words_length; cbn [snd]; lia).
    erewrite part_bind_some by (apply bn_update_spec; apply bns_set).
    rewrite set_bn_twice, set_bn_mk, insert_insert_eq, store_with_words. cbn [snd].
    rewrite with_words_append by lia.
    assert (Hok3 : bn_ok (with_width (bn_width ba + 1) b1)) by (apply with_width_ok; [done|lia]).
    set (b3 := with_width _ _).
    assert (E3 : b3 = with_words 0 (l ++ [1]) (with_width (bn_width ba + 1) b1)) by done.
    assert (Hw3 : words (l ++ [1])) by (apply words_app; split; [done|]; apply words_singleton; unfold word; lia).
    apply outcome_done; [rewrite E3; by auto with cint|by rewrite E3; cbn; rewrite Hf1|done|].
    rewrite E3. apply Hz2; [by cbn; rewrite Hs1|]. unfold bn_abs at 1.
    rewrite limbs_with_words by (try done; cbn; rewrite length_app; cbn; lia).
    rewrite val_app, Hll. cbn [val]. replace c with 1 in Hv0 by lia. lia.
Qed.
End lshift1.
