(* ===== verification/BnWordOps.v ===== *)
(** * Big numbers: one word, and operations with one word *)
From S2P Require Export BnShift.

(** ** The bits of a word *)

Lemma num_bits_block_spec n l bits :
  0 < n <= 32 -> 0 <= l < 2 ^ (2 * n) ->
  let '(l', bits') := num_bits_block n (l, bits) in
  0 <= l' < 2 ^ n /\ bits' + Z.log2 l' = bits + Z.log2 l.
Proof.
  intros Hn Hl. cbn [num_bits_block]. unfold BN_BITS2.
  assert (E : 2 ^ (2 * n) = 2 ^ n * 2 ^ n) by (rewrite <-Z.pow_add_r by lia; f_equal; lia).
  assert (H2 : 0 < 2 ^ n) by (apply Z.pow_pos_nonneg; lia).
  assert (Hx : 0 <= Z.shiftr l n < 2 ^ n).
  { rewrite Z.shiftr_div_pow2 by lia. split; [apply Z.div_pos; lia|apply Z.div_lt_upper_bound; lia]. }
  assert (H32 : 2 ^ n <= 2 ^ 32) by (apply Z.pow_le_mono_r; lia).
  assert (Hmask : u64 (0 - Z.shiftr (u64 (0 - Z.shiftr l n)) (64 - 1)) = mask_w (negb (Z.shiftr l n =? 0))).
  { destruct (Z.eqb_spec (Z.shiftr l n) 0) as [->|Hne]; [done|]. cbn [negb].
    replace (u64 (0 - Z.shiftr l n)) with (2 ^ 64 - Z.shiftr l n)
      by (unfold u64; apply Z.mod_unique with (-1); lia).
    rewrite (Z.shiftr_div_pow2 _ (64 - 1)) by lia.
    replace ((2 ^ 64 - Z.shiftr l n) / 2 ^ (64 - 1)) with 1; [done|].
    apply Z.div_unique with (2 ^ 63 - Z.shiftr l n); lia. }
  rewrite Hmask. destruct (Z.eqb_spec (Z.shiftr l n) 0) as [E0|Hne]; cbn [negb mask_w].
  - rewrite !Z.land_0_r, Z.lxor_0_r, Z.add_0_r. split; [|lia].
    rewrite Z.shiftr_div_pow2 in E0 by lia. apply Z.div_small_iff in E0; lia.
  - change (2 ^ 64 - 1) with (Z.ones 64). rewrite !Z.land_ones, (Z.mod_small n) by lia.
    rewrite (Z.mod_small (Z.lxor _ _)).
    2: { apply word_lxor; unfold word; split; try lia. nia. }
    rewrite (Z.lxor_comm (Z.shiftr l n)), <-Z.lxor_assoc, Z.lxor_nilpotent, Z.lxor_0_l. split; [done|].
    assert (Hle : 2 ^ n <= l).
    { rewrite Z.shiftr_div_pow2 in Hne by lia. destruct (Z.lt_ge_cases l (2 ^ n)); [|lia].
      by rewrite Z.div_small in Hne by lia. }
    rewrite Z.log2_shiftr by lia. apply Z.log2_le_mono in Hle. rewrite Z.log2_pow2 in Hle by lia. lia.
Qed.

(** The number of bits of a number. *)
Definition bit_length (v : Z) : Z := if v =? 0 then 0 else Z.log2 v + 1.

Lemma BN_num_bits_word_spec l : word l -> BN_num_bits_word l = bit_length l.
Proof.
  unfold word. intros Hl. unfold BN_num_bits_word.
  set (bits := Z.b2z (negb (l =? 0))).
  pose proof (num_bits_block_spec 32 l bits ltac:(lia) Hl) as H32.
  destruct (num_bits_block 32 (l, bits)) as [l1 b1]. destruct H32 as [H1 E1].
  pose proof (num_bits_block_spec 16 l1 b1 ltac:(lia) H1) as H16.
  destruct (num_bits_block 16 (l1, b1)) as [l2 b2]. destruct H16 as [H2 E2].
  pose proof (num_bits_block_spec 8 l2 b2 ltac:(lia) H2) as H8.
  destruct (num_bits_block 8 (l2, b2)) as [l3 b3]. destruct H8 as [H3 E3].
  pose proof (num_bits_block_spec 4 l3 b3 ltac:(lia) H3) as H4.
  destruct (num_bits_block 4 (l3, b3)) as [l4 b4]. destruct H4 as [H4 E4].
  pose proof (num_bits_block_spec 2 l4 b4 ltac:(lia) H4) as H5.
  destruct (num_bits_block 2 (l4, b4)) as [l5 b5]. destruct H5 as [H5 E5].
  pose proof (num_bits_block_spec 1 l5 b5 ltac:(lia) H5) as H6.
  destruct (num_bits_block 1 (l5, b5)) as [l6 b6]. destruct H6 as [H6 E6]. cbn [snd].
  assert (Hl6 : l6 = 0 \/ l6 = 1) by lia.
  assert (Z.log2 l6 = 0) by (by destruct Hl6 as [-> | ->]).
  unfold bit_length, bits in *. destruct (Z.eqb_spec l 0) as [->|]; cbn in *; lia.
Qed.

Lemma bit_length_bounds v n : 0 < v -> bit_length v = n -> 2 ^ (n - 1) <= v < 2 ^ n.
Proof.
  unfold bit_length. intros Hv <-. destruct (Z.eqb_spec v 0); [lia|].
  replace (Z.log2 v + 1 - 1) with (Z.log2 v) by lia. rewrite Z.add_1_r. by apply Z.log2_spec.
Qed.

Lemma bit_length_nonneg v : 0 <= bit_length v.
Proof. unfold bit_length. pose proof (Z.log2_nonneg v). case_bool; lia. Qed.

Lemma bit_length_le v n : 0 <= n -> 0 <= v < 2 ^ n -> bit_length v <= n.
Proof.
  unfold bit_length. intros Hn Hv. case_bool; [lia|]. apply Z.le_succ_l.
  apply Z.log2_lt_pow2; lia.
Qed.

Lemma bit_length_word x : word x -> bit_length x <= 64.
Proof. by apply bit_length_le. Qed.

Lemma bit_length_limbs x v n :
  0 < x -> 0 <= v < bpow n -> bit_length (v + bpow n * x) = 64 * Z.of_nat n + bit_length x.
Proof.
  intros Hx Hv. unfold bit_length. pose proof (bpow_pos n).
  destruct (Z.eqb_spec x 0), (Z.eqb_spec (v + bpow n * x) 0); try nia.
  rewrite Z.add_assoc. f_equal. pose proof (Z.log2_spec x Hx) as [H1 H2].
  assert (E : bpow n = 2 ^ (64 * Z.of_nat n)) by (unfold bpow, wbase; by rewrite <-Z.pow_mul_r by lia).
  pose proof (Z.log2_nonneg x). apply Z.log2_unique; [lia|]. unfold Z.succ in *.
  rewrite <-Z.add_assoc, !Z.pow_add_r, <-E by lia. rewrite Z.pow_add_r in H2 by lia. nia.
Qed.

(** The top word of a number. *)
Lemma top_word l n :
  words l -> significant l = S n ->
  exists x, l !! n = Some x /\ x <> 0 /\ val l = val (take n l) + bpow n * x.
Proof.
  intros Hl. revert n. induction Hl as [|y l Hy Hl IH]; intros n E; [done|]. cbn [significant] in E.
  destruct (significant l) as [|m] eqn:Em.
  - apply significant_zero in Em; [|done]. destruct (Z.eqb_spec y 0); [done|]. injection E as <-.
    exists y. split_and!; [done|done|]. cbn [val take]. rewrite Em, bpow_0. lia.
  - injection E as <-. destruct (IH m eq_refl) as (x & Hx & Hx0 & Hv). exists x.
    split_and!; [done|done|]. cbn [val take]. rewrite Hv, bpow_S. lia.
Qed.

(** ** Numbers of one word *)

Section one.
Context (a : Z) (ba : bignum) (w : bn_world).
Context (Ha : bns w !! a = Some ba) (Hok : bn_ok ba).

Lemma BN_abs_is_word_spec x : word x -> BN_abs_is_word a x w = Some (bn_abs ba =? x, w).
Proof.
  intros Hx. unfold BN_abs_is_word. pstep get_width_spec. pose proof (limbs_length _ Hok) as Hl.
  pose proof (limbs_words _ Hok) as Hws. unfold bn_abs.
  pose proof (words_at_limbs_0 a ba w Ha Hok) as Hat. revert Hl Hws Hat.
  generalize (limbs ba) as l. intros l Hl Hws Hat. rewrite <-Hl.
  destruct l as [|y l]; [cbn; unfold mret, part_ret; do 2 f_equal; apply Z.eqb_sym|].
  apply Forall_cons in Hws as [Hy Hws].
  destruct (Z.eqb_spec (lenZ (y :: l)) 0) as [E|_]; [cbn in E; lia|].
  pstep load_spec. replace (Z.to_nat (lenZ (y :: l) - 1)) with (length l) by (cbn [length]; lia).
  erewrite part_bind_some by (apply or_words_spec; by eapply words_at_tail).
  unfold mret, part_ret. do 2 f_equal. apply eq_bool_prop_intro.
  rewrite !Is_true_true, !Z.eqb_eq, or_list_zero, <-val_zero_iff, Z.lxor_eq_0_iff by done.
  cbn [val]. pose proof (val_range _ Hws). unfold word in *. fold wbase in *. pose proof wbase_pos.
  split; [intros [-> ->]; lia|]. intros E. assert (val l = 0) by nia. lia.
Qed.

Lemma BN_is_word_spec x :
  word x -> no_neg_zero ba -> BN_is_word a x w = Some (bn_val ba =? x, w).
Proof.
  intros Hx Hz. unfold BN_is_word. pstep get_neg_spec.
  rewrite (part_bind_some _ _ _ _ _ (BN_abs_is_word_spec x Hx)). unfold mret, part_ret. do 2 f_equal.
  rewrite bn_val_signed. unfold no_neg_zero, signed, word in *. pose proof (bn_abs_range _ Hok).
  repeat case_bool; cbn; try done; lia.
Qed.

Lemma BN_is_one_spec : no_neg_zero ba -> BN_is_one a w = Some (bn_val ba =? 1, w).
Proof.
  intros Hz. unfold BN_is_one. pstep get_neg_spec.
  rewrite (part_bind_some _ _ _ _ _ (BN_abs_is_word_spec 1 ltac:(unfold word; lia))).
  unfold mret, part_ret. do 2 f_equal.
  rewrite bn_val_signed. unfold no_neg_zero, signed, word in *. pose proof (bn_abs_range _ Hok).
  repeat case_bool; cbn; try done; lia.
Qed.

Lemma BN_is_odd_spec : BN_is_odd a w = Some (Z.odd (bn_val ba), w).
Proof.
  unfold BN_is_odd. pstep get_width_spec. pose proof (limbs_length _ Hok) as Hl.
  pose proof (words_at_limbs_0 a ba w Ha Hok) as Hat. rewrite bn_val_signed.
  assert (Hs : Z.odd (signed (bn_neg ba) (bn_abs ba)) = Z.odd (bn_abs ba))
    by (unfold signed; case_match; [done|apply Z.odd_opp]).
  rewrite Hs. unfold bn_abs. revert Hl Hat. generalize (limbs ba) as l. intros l Hl Hat. rewrite <-Hl.
  destruct l as [|y l]; [done|]. destruct (Z.leb_spec (lenZ (y :: l)) 0) as [E|_]; [cbn in E; lia|].
  pstep load_spec. unfold mret, part_ret. do 2 f_equal. cbn [val].
  rewrite Z.odd_add, Z.odd_mul. change (Z.odd wbase) with false. cbn [andb]. rewrite xorb_false_r.
  rewrite land_1, Zmod_odd. by destruct (Z.odd y).
Qed.

Lemma BN_num_bits_spec : BN_num_bits a w = Some (bit_length (bn_abs ba), w).
Proof.
  unfold BN_num_bits. rewrite (part_bind_some _ _ _ _ _ (bn_minimal_width_spec a ba w Ha Hok)).
  pose proof (limbs_words _ Hok) as Hws. pose proof (significant_zero _ Hws) as Hz.
  destruct (significant (limbs ba)) as [|n] eqn:E.
  { cbn [Z.eqb Z.of_nat]. unfold bn_abs. by rewrite (proj1 Hz eq_refl). }
  destruct (Z.eqb_spec (Z.of_nat (S n)) 0) as [|_]; [lia|].
  destruct (top_word _ _ Hws E) as (x & Hx & Hx0 & Hv).
  pose proof (words_at_limbs a ba w (Z.of_nat n) Ha Hok ltac:(lia)) as Hat.
  rewrite Nat2Z.id, (drop_S _ _ _ Hx) in Hat. replace (Z.of_nat (S n) - 1) with (Z.of_nat n) by lia.
  pstep load_spec. unfold mret, part_ret. pose proof (words_lookup _ _ _ Hws Hx) as Hxw.
  rewrite BN_num_bits_word_spec by done. unfold bn_abs. rewrite Hv, bit_length_limbs; [|unfold word in *; lia|].
  2: { apply lookup_lt_Some in Hx. apply (val_range_len (take n _)); [by auto with cint|].
       rewrite length_take. lia. }
  unfold u32. rewrite Z.mod_small; [f_equal; f_equal; unfold BN_BITS2; lia|].
  apply lookup_lt_Some in Hx. pose proof (limbs_length _ Hok) as Hl. destruct Hok as (? & _ & Hm & _).
  assert (bit_length x <= 64) by (by apply bit_length_word). pose proof (bit_length_nonneg x).
  unfold BN_BITS2. change BN_MAX_WORDS with 8388607 in Hm. lia.
Qed.

Lemma BN_num_bytes_spec : BN_num_bytes a w = Some ((bit_length (bn_abs ba) + 7) / 8, w).
Proof.
  unfold BN_num_bytes. rewrite (part_bind_some _ _ _ _ _ BN_num_bits_spec). unfold mret, part_ret.
  do 3 f_equal. unfold u32. apply Z.mod_small. pose proof (bit_length_nonneg (bn_abs ba)).
  pose proof (bn_abs_range _ Hok) as Hr. pose proof (bit_length_le (bn_abs ba) (64 * bn_width ba)) as Hb.
  destruct Hok as (? & _ & Hm & _). change BN_MAX_WORDS with 8388607 in Hm.
  enough (bit_length (bn_abs ba) <= 64 * bn_width ba) by lia. apply Hb; [lia|].
  unfold bpow, wbase in Hr. by rewrite <-Z.pow_mul_r, Z2Nat.id in Hr by lia.
Qed.
End one.

(** ** Outcomes, once more *)

Lemma outcome_from_set r br b1 w R P res :
  bn_flags b1 = bn_flags br ->
  outcome r b1 (set_bn r b1 w) R P res -> outcome r br w R P res.
Proof.
  intros Hf (ok & b' & o & -> & Hok & Hf' & Ho & HP). exists ok, b', o.
  cbn. rewrite insert_insert_eq. split_and!; try done. congruence.
Qed.

(** An operation followed by a change of [r] that depends on whether it succeeded. *)
Lemma outcome_always r br w (R : Prop) (P Q : bignum -> Prop) (m : bnM bool) (k : bool -> bnM bool)
    (f : bool -> bignum -> bignum) :
  outcome r br w R P (m w) ->
  (forall ok b' v, bns v !! r = Some b' -> bn_ok b' -> k ok v = Some (ok, set_bn r (f ok b') v)) ->
  (forall ok b', bn_ok b' -> bn_ok (f ok b') /\ bn_flags (f ok b') = bn_flags b') ->
  (forall b', bn_ok b' -> P b' -> Q (f true b')) ->
  outcome r br w R Q ((ok ← m; k ok) w).
Proof.
  intros (ok & b' & o & E & Hok & Hf & Ho & HP) Hk Hf' HQ. rewrite (part_bind_some _ _ _ _ _ E).
  rewrite (Hk ok b') by (done || apply lookup_insert_eq). rewrite set_bn_mk, insert_insert_eq.
  destruct (Hf' ok b' Hok) as [Hok2 Hf2]. exists ok, (f ok b'), o.
  split_and!; [done|done|congruence|done|]. destruct ok; auto.
Qed.

(** Success, in the world as it is. *)
Lemma outcome_here r br b' w R (P : bignum -> Prop) :
  bn_ok b' -> bn_flags b' = bn_flags br -> P b' ->
  outcome r br w R P (Some (true, set_bn r b' w)).
Proof. intros. apply outcome_done; try done. by left. Qed.

Lemma outcome_same r br w R (P : bignum -> Prop) :
  bns w !! r = Some br -> bn_ok br -> P br -> outcome r br w R P (Some (true, w)).
Proof. intros Hr Hok HP. exists true, br, (bn_oom w). rewrite set_bn_same by done. split_and!; try done. by left. Qed.

(** ** Setting *)

Section set.
Context (r : Z) (br : bignum) (w : bn_world).
Context (Hr : bns w !! r = Some br) (Hok : bn_ok br).

Lemma with_width_0 b : bn_abs (with_width 0 b) = 0.
Proof. done. Qed.

Lemma BN_zero_spec :
  BN_zero r w = Some (tt, set_bn r (with_width 0 (with_neg 0 br)) w).
Proof.
  unfold BN_zero. erewrite part_bind_some by (by apply bn_update_spec).
  erewrite bn_update_spec by apply bns_set. by rewrite set_bn_twice.
Qed.

Lemma zero_record :
  let b' := with_width 0 (with_neg 0 br) in
  bn_ok b' /\ bn_flags b' = bn_flags br /\ bn_val b' = 0 /\ no_neg_zero b'.
Proof.
  split_and!; try done. apply with_width_ok; [apply with_neg_ok; auto|]. cbn. pose proof (proj1 Hok). lia.
Qed.

Lemma BN_set_word_spec v :
  owned br -> word v ->
  outcome r br w (no_room w 1) (fun b' => bn_val b' = v /\ no_neg_zero b') (BN_set_word r v w).
Proof.
  intros Hown Hv. unfold BN_set_word. destruct (Z.eqb_spec v 0) as [->|Hne].
  { rewrite (part_bind_some _ _ _ _ _ BN_zero_spec). destruct zero_record as (? & ? & ? & ?).
    by apply outcome_here. }
  destruct (wexpand_spec r 1 br w Hr Hok Hown) as (ok & b1 & o & E & Hexp & Ho & Hroom).
  rewrite (part_bind_some _ _ _ _ _ E). pose proof Hexp as (Hok1 & Hw1 & Hs1 & Hf1 & Hl1 & Hd1).
  destruct ok; cbn [negb]; [|by apply outcome_failed].
  erewrite part_bind_some by (apply bn_update_spec; apply lookup_insert_eq).
  rewrite set_bn_mk, insert_insert_eq.
  erewrite part_bind_some.
  2: { apply store_spec; [apply lookup_insert_eq|]. cbn. destruct Hok1 as (_ & Hx & _). lia. }
  rewrite set_bn_mk, insert_insert_eq, store_with_words. cbn [fst snd].
  erewrite part_bind_some by (apply bn_update_spec; apply lookup_insert_eq).
  rewrite set_bn_mk, insert_insert_eq.
  assert (Hok2 : bn_ok (with_width 1 (with_neg 0 b1))).
  { apply with_width_ok; [apply with_neg_ok; auto|]. cbn. lia. }
  change (with_width 1 (with_words 0 [v] (with_neg 0 b1)))
    with (with_words 0 [v] (with_width 1 (with_neg 0 b1))).
  apply outcome_done; [apply with_words_ok; [done|by apply words_singleton]|done|done|].
  unfold bn_val, no_neg_zero. cbn [bn_neg with_words with_d with_width with_neg Z.eqb].
  split; [|done]. unfold bn_abs. rewrite limbs_with_words by done. cbn [val]. lia.
Qed.

Lemma BN_set_negative_spec s :
  BN_set_negative r s w
  = Some (tt, set_bn r (with_neg (if (s =? 0) || (bn_abs br =? 0) then 0 else 1) br) w).
Proof.
  unfold BN_set_negative. destruct (s =? 0); [by apply bn_update_spec|]. cbn [orb].
  erewrite part_bind_some by (by apply BN_is_zero_spec). destruct (bn_abs br =? 0); by apply bn_update_spec.
Qed.
End set.

(** ** Copying *)

Section copy.
Context (r a : Z) (br ba : bignum) (w : bn_world).
Context (Hr : bns w !! r = Some br) (Ha : bns w !! a = Some ba).
Context (Hokr : bn_ok br) (Hoka : bn_ok ba) (Hown : owned br).

Lemma BN_copy_spec :
  outcome r br w (no_room w (bn_width ba))
    (fun b' => bn_neg b' = bn_neg ba /\ limbs b' = limbs ba) (BN_copy r a w).
Proof.
  unfold BN_copy. destruct (Z.eqb_spec a r) as [->|Hne].
  { simplify_eq. by apply outcome_same. }
  pstep get_width_spec.
  destruct (wexpand_spec r (bn_width ba) br w Hr Hokr Hown) as (ok & b1 & o & E & Hexp & Ho & Hroom).
  rewrite (part_bind_some _ _ _ _ _ E). pose proof Hexp as (Hok1 & Hw1 & Hs1 & Hf1 & Hl1 & Hd1).
  destruct ok; cbn [negb]; [|by apply outcome_failed].
  pose proof (proj1 Hoka) as Hwa. pose proof (proj1 (proj2 Hoka)) as Hda. pose proof (proj1 (proj2 Hok1)) as Hdr.
  erewrite part_bind_some.
  2: { apply (copy_words_spec (r, 0) (a, 0) (bn_width ba) ba b1); cbn [fst snd bns];
         [by rewrite lookup_insert_ne by congruence|lia|unfold room; lia|apply lookup_insert_eq|unfold room; lia]. }
  rewrite set_bn_mk. cbn [fst snd]. rewrite insert_insert_eq.
  change (take (Z.to_nat (bn_width ba)) (drop (Z.to_nat 0) (bn_d ba))) with (limbs ba).
  erewrite part_bind_some by (apply get_bn_spec; cbn; rewrite lookup_insert_ne; [exact Ha|congruence]).
  erewrite part_bind_some by (apply bn_update_spec; apply lookup_insert_eq).
  rewrite set_bn_mk, insert_insert_eq.
  erewrite part_bind_some by (apply bn_update_spec; apply lookup_insert_eq).
  rewrite set_bn_mk, insert_insert_eq.
  assert (Hok2 : bn_ok (with_neg (bn_neg ba) (with_width (bn_width ba) b1))).
  { apply with_neg_ok; [apply with_width_ok; [done|lia]|by apply bn_sign]. }
  change (with_neg (bn_neg ba) (with_width (bn_width ba) (with_words 0 (limbs ba) b1)))
    with (with_words 0 (limbs ba) (with_neg (bn_neg ba) (with_width (bn_width ba) b1))).
  apply outcome_done; [apply with_words_ok; [done|by apply limbs_words]|done|done|]. split; [done|].
  rewrite limbs_with_words; [done|done|]. exact (limbs_length _ Hoka).
Qed.
End copy.

(** ** Multiplying by a word *)

Lemma with_words_same i l b h p :
  h !! p = Some b -> words_at h (p, i) l -> 0 <= i -> with_words i l b = b.
Proof.
  intros Hb (b0 & Hb0 & _ & Hl) Hi. cbn in Hb0, Hl. rewrite Hb in Hb0. injection Hb0 as <-. clear Hb. destruct b as [d wd dm ng fl].
  unfold with_words, with_d. cbn in *. f_equal. apply list_eq. intros k.
  destruct (decide (Z.to_nat i <= k < Z.to_nat i + length l)%nat) as [Hk|Hk].
  - destruct (lookup_lt_is_Some_2 l (k - Z.to_nat i)) as [x Hx]; [lia|].
    pose proof (Hl _ _ Hx) as Hd. replace (Z.to_nat i + (k - Z.to_nat i))%nat with k in Hd by lia.
    rewrite list_lookup_inserts; [congruence|lia|]. by apply lookup_lt_Some in Hd.
  - destruct (decide (k < Z.to_nat i)%nat); [by apply list_lookup_inserts_lt|].
    apply list_lookup_inserts_ge. lia.
Qed.

Section mul.
Context (a : Z) (ba : bignum) (w : bn_world).
Context (Ha : bns w !! a = Some ba) (Hok : bn_ok ba) (Hown : owned ba).

Lemma words_at_own : words_at (bns w) (a, 0) (limbs ba) /\ room ba 0 (length (limbs ba)).
Proof.
  split; [by apply words_at_limbs_0|]. pose proof (limbs_length _ Hok). destruct Hok as (? & ? & _).
  unfold room. lia.
Qed.

(** An array one word longer, once there is room for it: the two functions that append a
    word write it before or after they change the width. *)
Lemma append_word (k : bnM bool) l c :
  words l -> lenZ l = bn_width ba -> word c ->
  (forall b1 v, bns v !! a = Some b1 -> bn_width ba < lenZ (bn_d b1) ->
     k v = Some (true, set_bn a (with_width (bn_width ba + 1) (with_words (bn_width ba) [c] b1)) v)) ->
  outcome a ba w (no_room w (bn_width ba + 1))
    (fun b' => bn_abs b' = val l + bpow (length l) * c /\ bn_neg b' = bn_neg ba)
    ((ok ← bn_wexpand a (bn_width ba + 1);
      if negb ok then mret false else k) (set_bn a (with_words 0 l ba) w)).
Proof.
  intros Hl Hll Hc Hk. apply (outcome_from_set a ba (with_words 0 l ba)); [done|].
  assert (Hok1 : bn_ok (with_words 0 l ba)) by auto with cint.
  destruct (wexpand_spec a (bn_width ba + 1) (with_words 0 l ba) (set_bn a (with_words 0 l ba) w))
    as (ok & b1 & o & E & Hexp & Ho & Hroom); [apply bns_set|done|done|].
  rewrite (part_bind_some _ _ _ _ _ E). pose proof Hexp as (Hok2 & Hw1 & Hs1 & Hf1 & Hl1 & Hd1).
  pose proof (proj1 Hok) as Hwa. pose proof (proj1 (proj2 Hok2)) as Hda.
  destruct ok; cbn [negb]; [|by apply outcome_failed].
  rewrite (Hk b1) by (lia || apply lookup_insert_eq). rewrite set_bn_mk, insert_insert_eq.
  assert (Hlim : limbs b1 = l) by (rewrite Hl1; by apply limbs_with_words).
  change (bn_width (with_words 0 l ba)) with (bn_width ba) in Hw1.
  apply outcome_done; [|done|done|].
  { apply with_width_ok; [apply with_words_ok; [done|by apply words_singleton]|]. cbn. lia. }
  split; [|done]. unfold bn_abs at 1.
  assert (Hap : limbs (with_width (bn_width ba + 1) (with_words (bn_width ba) [c] b1)) = l ++ [c]); [|by rewrite Hap, val_app; cbn [val]; f_equal; lia].
  rewrite <-Hlim. unfold limbs. cbn [with_width with_words with_d bn_d bn_width]. rewrite Hw1.
  apply list_eq. intros i. replace (Z.to_nat (bn_width ba + 1)) with (S (Z.to_nat (bn_width ba))) by lia.
  destruct (decide (i < Z.to_nat (bn_width ba))%nat).
  - rewrite lookup_take_lt, list_lookup_inserts_lt, lookup_app_l, lookup_take_lt
      by (rewrite ?length_take; lia). done.
  - rewrite lookup_app_r by (rewrite length_take; lia).
    replace (i - length (take (Z.to_nat (bn_width ba)) (bn_d b1)))%nat with (i - Z.to_nat (bn_width ba))%nat by (rewrite length_take; lia).
    destruct (decide (i = Z.to_nat (bn_width ba))) as [->|].
    + rewrite lookup_take_lt, list_lookup_inserts by (cbn [length]; lia). done.
    + rewrite lookup_take_ge by lia. symmetry. apply lookup_ge_None. cbn [length]. lia.
Qed.

Lemma BN_mul_word_sharp x :
  word x -> no_neg_zero ba ->
  outcome a ba w (no_room_for w (bn_width ba + 1) (bn_abs ba * x))
    (fun b' => bn_val b' = bn_val ba * x /\ no_neg_zero b') (BN_mul_word a x w).
Proof.
  intros Hx Hz. unfold BN_mul_word. pstep get_width_spec. pose proof (limbs_length _ Hok) as Hll.
  destruct words_at_own as [Hat Hroom]. destruct (Z.eqb_spec (bn_width ba) 0) as [E|E].
  { apply outcome_same; [done|done|]. unfold bn_val, bn_abs in *.
    replace (limbs ba) with (@nil Z) by (destruct (limbs ba); [done|cbn in Hll; lia]).
    cbn [val]. split; [case_match; lia|done]. }
  destruct (Z.eqb_spec x 0) as [->|Hx0].
  { rewrite (part_bind_some _ _ _ _ _ (BN_zero_spec a ba w Ha)). destruct (zero_record ba Hok) as (? & ? & ? & ?).
    apply outcome_here; [done|done|]. split; [lia|done]. }
  destruct (mul_acc x (limbs ba) 0 Hx ltac:(auto with cint) ltac:(done)) as (l & c & El & Hl & Hln & Hc & Hv).
  assert (Em : bn_mul_words (a, 0) (a, 0) (bn_width ba) x w = Some (c, set_bn a (with_words 0 l ba) w)).
  { unfold bn_mul_words. rewrite or_zero_steps by lia. rewrite <-Hll, Nat2Z.id.
    by apply (step1_spec _ (a, 0) (a, 0)). }
  rewrite (part_bind_some _ _ _ _ _ Em). pose proof (bn_abs_range _ Hok) as Hr.
  assert (HQ : forall b', bn_abs b' = val l + bpow (length l) * c /\ bn_neg b' = bn_neg ba ->
    bn_val b' = bn_val ba * x /\ no_neg_zero b').
  { intros b' [Hv' Hn]. unfold no_neg_zero, word, bn_abs in *. rewrite !bn_val_signed, Hn, <-signed_mul.
    unfold bn_abs. rewrite Hln in Hv'. split; [f_equal; lia|]. intros H0. apply Hz. nia. }
  destruct (Z.eqb_spec c 0) as [->|Hc0]; cbn [negb].
  - apply outcome_here; [by auto with cint|done|]. apply HQ. split; [|done].
    unfold bn_abs. rewrite limbs_with_words by (done || lia). lia.
  - eapply outcome_weaken; [apply (append_word _ l c); [done|lia|done|]|intros HR|intros b' _; apply HQ].
    2: { apply no_room_for_next; [lia|done|]. unfold bn_abs. replace (Z.to_nat (bn_width ba)) with (length (limbs ba)) by lia.
         pose proof (val_range _ Hl). pose proof (bpow_pos (length (limbs ba))). unfold word in Hc. nia. }
    intros b1 v Hb1 Hlen. erewrite part_bind_some by (apply store_spec; [done|cbn [snd]; lia]).
    erewrite part_bind_some by (apply bn_update_spec; apply bns_set). by rewrite set_bn_twice.
Qed.

Lemma BN_mul_word_spec x :
  word x -> no_neg_zero ba ->
  outcome a ba w (no_room w (bn_width ba + 1))
    (fun b' => bn_val b' = bn_val ba * x /\ no_neg_zero b') (BN_mul_word a x w).
Proof. intros Hx Hz. eapply outcome_weaken; [by apply BN_mul_word_sharp|by intros [HR _]|done]. Qed.
End mul.

(** ** Adding and subtracting a word *)

Lemma add_word_step x w :
  word x -> word w ->
  word (u64 (x + w)) /\ x + w = u64 (x + w) + wbase * (if u64 (x + w) <? w then 1 else 0).
Proof. unfold word, u64, wbase. intros Hx Hw. split; [div_lia|]. case_bool; div_lia. Qed.

Lemma sub_word_step x w :
  word x -> word w ->
  word (u64 (x - w)) /\ u64 (x - w) = x - w + wbase * (if w <=? x then 0 else 1).
Proof. unfold word, u64, wbase. intros Hx Hw. split; [div_lia|]. case_bool; div_lia. Qed.

Section loops.
Context (a : Z).

(** One iteration of a loop that changes the array it reads. *)
Lemma loop_step i x s xs b w :
  bns w !! a = Some b -> 0 <= i -> words_at (bns w) (a, i) (x :: xs) -> room b i (length (x :: xs)) ->
  let b1 := with_words i [s] b in
  let w1 := set_bn a b1 w in
  store (a, i) s w = Some (tt, w1) /\ bns w1 !! a = Some b1 /\ words_at (bns w1) (a, i + 1) xs
  /\ room b1 (i + 1) (length xs)
  /\ forall l, set_bn a (with_words (i + 1) l b1) w1 = set_bn a (with_words i (s :: l) b) w.
Proof.
  intros Hb Hi Hat [_ Hroom] b1 w1. cbn [length] in Hroom. split_and!.
  - rewrite (store_spec (a, i) s b w) by (done || cbn; lia). done.
  - apply bns_set.
  - apply (words_at_step (bns w) (a, i) b s (a, i) x xs); first [done | unfold not_behind; lia].
  - unfold room. unfold b1. rewrite with_words_length. lia.
  - intros l. unfold w1. rewrite set_bn_twice. f_equal. unfold b1. by apply (with_words_append i (i + 1) [s]).
Qed.

Lemma add_word_loop_spec xs i v b w :
  bns w !! a = Some b -> words_at (bns w) (a, i) xs -> room b i (length xs) -> words xs -> word v ->
  exists l j v', add_word_loop (length xs) a i v w = Some ((j, v'), set_bn a (with_words i l b) w)
    /\ words l /\ length l = length xs /\ word v' /\ (v' <> 0 -> j = i + lenZ xs)
    /\ val l + bpow (length xs) * v' = val xs + v.
Proof.
  intros Hb Hat Hroom Hxs. revert i v b w Hb Hat Hroom.
  induction Hxs as [|x xs Hx Hxs IH]; intros i v b w Hb Hat Hroom Hv; cbn [add_word_loop length].
  { exists [], i, v. rewrite with_words_nil. unfold set_bn. rewrite insert_id by done.
    split_and!; try done; [by destruct w|constructor|lia|]. cbn [val]. rewrite bpow_0. lia. }
  destruct (Z.eqb_spec v 0) as [->|Hv0].
  { exists (x :: xs), i, 0. rewrite (with_words_same i (x :: xs) b (bns w) a Hb Hat) by apply Hroom.
    unfold set_bn. rewrite insert_id by done.
    split_and!; try done; [by destruct w|by constructor|lia]. }
  rewrite (part_bind_some _ _ _ _ _ (load_spec _ _ _ _ Hat)).
  destruct (add_word_step x v Hx Hv) as [Hs Ev]. remember (u64 (x + v)) as s eqn:Es.
  destruct (loop_step i x s xs b w Hb (proj1 Hroom) Hat Hroom) as (E & Hb1 & Hat1 & Hroom1 & Hl1).
  rewrite (part_bind_some _ _ _ _ _ E).
  destruct (IH _ (if s <? v then 1 else 0) _ _ Hb1 Hat1 Hroom1) as (l & j & v' & E2 & Hl & Hll & Hv' & Hj & Hval);
    [by case_match|].
  exists (s :: l), j, v'. rewrite E2, Hl1.
  split_and!; [done|by constructor|cbn [length]; lia|done| |].
  - intros Hne. rewrite (Hj Hne). cbn [length]. lia.
  - cbn [val]. rewrite bpow_S. apply (f_equal (Z.mul wbase)) in Hval. lia.
Qed.

Lemma sub_word_loop_spec xs i v b w :
  bns w !! a = Some b -> words_at (bns w) (a, i) xs -> room b i (length xs) -> words xs -> word v ->
  v <= val xs -> xs <> [] ->
  exists l j, sub_word_loop (length xs) a i v w = Some (j, set_bn a (with_words i l b) w)
    /\ words l /\ length l = length xs /\ i <= j < i + lenZ xs /\ val l = val xs - v.
Proof.
  intros Hb Hat Hroom Hxs. revert i v b w Hb Hat Hroom.
  induction Hxs as [|x xs Hx Hxs IH]; intros i v b w Hb Hat Hroom Hv Hle Hne; [done|].
  cbn [sub_word_loop length]. rewrite (part_bind_some _ _ _ _ _ (load_spec _ _ _ _ Hat)).
  destruct (sub_word_step x v Hx Hv) as [Hs Ev]. remember (u64 (x - v)) as s eqn:Es.
  destruct (loop_step i x s xs b w Hb (proj1 Hroom) Hat Hroom) as (E & Hb1 & Hat1 & Hroom1 & Hl1).
  rewrite (part_bind_some _ _ _ _ _ E). cbn [val] in Hle |- *. destruct (Z.leb_spec v x) as [Hvx|Hvx].
  - exists (s :: xs), i. rewrite <-(Hl1 xs), (with_words_same (i + 1) xs _ _ a Hb1 Hat1) by apply Hroom1.
    unfold set_bn at 2. rewrite insert_id by done.
    split_and!; [by destruct w|by constructor|done|lia|lia|]. cbn [val]. lia.
  - pose proof (val_range _ Hxs). unfold word in Hx.
    assert (1 <= val xs) by (unfold word, wbase in *; nia).
    destruct (IH _ 1 _ _ Hb1 Hat1 Hroom1) as (l & j & E2 & Hl & Hll & Hj & Hval); [done|done| |].
    { intros ->. cbn [val] in *. lia. }
    exists (s :: l), j. rewrite E2, Hl1.
    split_and!; [done|by constructor|cbn [length]; lia|lia|cbn [length] in *; lia|]. cbn [val]. lia.
Qed.
End loops.

Section add.
Context (a : Z) (ba : bignum) (w : bn_world).
Context (Ha : bns w !! a = Some ba) (Hok : bn_ok ba) (Hown : owned ba).

Lemma zero_room : no_room w 1 -> no_room w (bn_width ba + 1).
Proof. apply bn_room_mono. pose proof (proj1 Hok). lia. Qed.

Lemma add_word_sharp callee x :
  bn_neg ba = 0 -> word x ->
  outcome a ba w (no_room_for w (bn_width ba + 1) (bn_abs ba + x))
    (fun b' => bn_val b' = bn_abs ba + x /\ no_neg_zero b') (add_word_with callee a x w).
Proof.
  intros Hn Hx. pose proof (proj1 Hok) as Hwd. unfold add_word_with. destruct (Z.eqb_spec x 0) as [->|Hx0].
  { apply outcome_same; [done|done|]. unfold bn_val, no_neg_zero. rewrite Hn. split; [by rewrite ?Z.add_0_r, ?Z.sub_0_r|done]. }
  erewrite part_bind_some by (by apply BN_is_zero_spec).
  destruct (Z.eqb_spec (bn_abs ba) 0) as [->|Hz].
  { eapply outcome_weaken; [by apply BN_set_word_spec|intros HR|done].
    split; [by apply zero_room|]. destruct HR as [HR|HR]; [by vm_compute in HR|by left]. }
  pstep get_neg_spec. rewrite Hn. cbn [Z.eqb negb]. pstep get_width_spec.
  destruct (words_at_own a ba w Ha Hok) as [Hat Hroom]. pose proof (limbs_length _ Hok) as Hll.
  destruct (add_word_loop_spec a (limbs ba) 0 x ba w) as (l & j & v & E & Hl & Hln & Hv & Hj & Hval);
    [done|done|done|by apply limbs_words|done|].
  rewrite <-Hll, Nat2Z.id, (part_bind_some _ _ _ _ _ E), Hll.
  assert (HQ : forall b', bn_abs b' = val l + bpow (length l) * v /\ bn_neg b' = bn_neg ba ->
    bn_val b' = bn_abs ba + x /\ no_neg_zero b').
  { intros b' [Hv' Hn']. rewrite Hln in Hv'. unfold no_neg_zero, bn_val. rewrite Hn', Hn. cbn.
    unfold bn_abs in *. split; [lia|done]. }
  destruct (Z.eqb_spec v 0) as [->|Hv0]; cbn [negb andb].
  - apply outcome_here; [by auto with cint|done|]. apply HQ. split; [|done].
    unfold bn_abs. rewrite limbs_with_words by (done || lia). lia.
  - rewrite (Hj Hv0), Z.add_0_l, Hll, Z.eqb_refl.
    eapply outcome_weaken; [apply (append_word a ba w Hok Hown _ l v); [done|lia|done|]|intros HR|intros b' _; apply HQ].
    2: { apply no_room_for_next; [lia|done|]. unfold bn_abs. replace (Z.to_nat (bn_width ba)) with (length (limbs ba)) by lia.
         pose proof (val_range _ Hl). pose proof (bpow_pos (length (limbs ba))). unfold word in Hv. nia. }
    intros b1 u Hb1 Hlen. erewrite part_bind_some by (by apply bn_update_spec).
    erewrite part_bind_some by (apply store_spec; [apply bns_set|cbn [snd]; cbn; lia]). by rewrite set_bn_twice.
Qed.

Lemma add_word_nonneg callee x :
  bn_neg ba = 0 -> word x ->
  outcome a ba w (no_room w (bn_width ba + 1))
    (fun b' => bn_val b' = bn_abs ba + x /\ no_neg_zero b') (add_word_with callee a x w).
Proof. intros Hn Hx. eapply outcome_weaken; [by apply add_word_sharp|by intros [HR _]|done]. Qed.

(** The array of a number without its top word, if that is zero. *)
Lemma drop_top l j :
  words l -> lenZ l = bn_width ba -> bn_neg ba = 0 -> 0 <= j < bn_width ba ->
  outcome a ba w False (fun b' => bn_abs b' = val l /\ bn_neg b' = 0)
    ((y ← load (a, j);
      _ ← (if (y =? 0) && (j =? bn_width ba - 1) then update a (with_width (bn_width ba - 1)) else mret tt);
      mret true) (set_bn a (with_words 0 l ba) w)).
Proof.
  intros Hl Hll Hn Hj. assert (Hok1 : bn_ok (with_words 0 l ba)) by auto with cint.
  pose proof (words_at_limbs a _ (set_bn a (with_words 0 l ba) w) j ltac:(apply bns_set) Hok1 ltac:(lia)) as Hat.
  rewrite limbs_with_words in Hat by done.
  destruct (lookup_lt_is_Some_2 l (Z.to_nat j)) as [y Hy]; [lia|]. rewrite (drop_S _ _ _ Hy) in Hat.
  rewrite (part_bind_some _ _ _ _ _ (load_spec _ _ _ _ Hat)).
  destruct (Z.eqb_spec y 0) as [->|]; [destruct (Z.eqb_spec j (bn_width ba - 1)) as [->|]|]; cbn [andb].
  - erewrite part_bind_some by (apply bn_update_spec; apply bns_set). rewrite set_bn_twice.
    pose proof (proj1 Hok).
    apply outcome_here; [apply with_width_ok; [done|cbn; lia]|done|]. split; [|done].
    assert (Et : take (Z.to_nat (bn_width ba)) l = l) by (apply take_ge; lia).
    assert (E : limbs (with_width (bn_width ba - 1) (with_words 0 l ba)) = take (Z.to_nat (bn_width ba - 1)) l).
    { rewrite <-(limbs_with_words l ba Hok Hll) at 2. unfold limbs.
      cbn [with_width with_words with_d bn_d bn_width]. rewrite take_take. f_equal. lia. }
    unfold bn_abs. rewrite E.
    replace (Z.to_nat (bn_width ba)) with (S (Z.to_nat (bn_width ba - 1))) in Et by lia.
    rewrite (take_S_r _ _ _ Hy) in Et. rewrite <-Et at 2. rewrite val_app. cbn [val]. lia.
  - apply outcome_here; [done|done|]. unfold bn_abs. by rewrite limbs_with_words.
  - apply outcome_here; [done|done|]. unfold bn_abs. by rewrite limbs_with_words.
Qed.

Lemma one_word x l :
  words (x :: l) -> significant (x :: l) = 1%nat -> val (x :: l) = x.
Proof.
  intros [Hx Hl]%Forall_cons. cbn [significant]. destruct (significant l) eqn:E; [|done].
  intros _. apply significant_zero in E; [|done]. cbn [val]. lia.
Qed.

Lemma many_words l : words l -> (1 < significant l)%nat -> wbase <= val l.
Proof.
  intros Hl Hs. destruct (significant l) as [|[|n]] eqn:E; try lia.
  destruct (top_word _ _ Hl E) as (x & Hx & Hx0 & Hv). pose proof (words_lookup _ _ _ Hl Hx) as Hxw.
  pose proof (val_range (take (S n) l) ltac:(auto with cint)). rewrite bpow_S in Hv.
  pose proof (bpow_pos n). pose proof wbase_pos. unfold word in Hxw.
  assert (1 <= bpow n * x) by nia. nia.
Qed.

(** Zero less a word, which is not zero. *)
Lemma set_word_negated x :
  word x -> x <> 0 ->
  outcome a ba w (no_room w 1) (fun b' => bn_val b' = 0 - x /\ no_neg_zero b')
    ((i ← BN_set_word a x; _ ← (if (i : bool) then BN_set_negative a 1 else mret tt); mret i) w).
Proof.
  intros Hx Hx0.
  apply (outcome_always a ba w _ (fun b' => bn_val b' = x /\ no_neg_zero b') _ _ _
           (fun ok b' => if ok then with_neg (if bn_abs b' =? 0 then 0 else 1) b' else b')).
  - by apply BN_set_word_spec.
  - intros ok b' v Hb' Hok'. destruct ok; [|].
    + by erewrite part_bind_some by (by apply BN_set_negative_spec).
    + unfold mbind, part_bind, mret, part_ret, set_bn. rewrite insert_id by done. by destruct v.
  - intros [] b' Hb'; [|done]. split; [|done]. apply with_neg_ok; [done|]. case_match; auto.
  - intros b' Hb' [Hv Hnz]. pose proof (bn_abs_range _ Hb'). unfold word, no_neg_zero, bn_val in *. rewrite with_neg_abs. cbn [with_neg bn_neg].
    destruct (Z.eqb_spec (bn_abs b') 0) as [E0|]; cbn; [|case_bool; lia].
    specialize (Hnz E0). rewrite Hnz in Hv. cbn in Hv. lia.
Qed.

Lemma sub_word_nonneg callee x :
  bn_neg ba = 0 -> word x ->
  outcome a ba w (no_room w (bn_width ba + 1))
    (fun b' => bn_val b' = bn_abs ba - x /\ no_neg_zero b') (sub_word_with callee a x w).
Proof.
  intros Hn Hx. unfold sub_word_with. destruct (Z.eqb_spec x 0) as [->|Hx0].
  { apply outcome_same; [done|done|]. unfold bn_val, no_neg_zero. rewrite Hn. split; [by rewrite ?Z.add_0_r, ?Z.sub_0_r|done]. }
  erewrite part_bind_some by (by apply BN_is_zero_spec).
  destruct (Z.eqb_spec (bn_abs ba) 0) as [->|Hz].
  { eapply outcome_weaken; [by apply set_word_negated|by apply zero_room|by intros b' _ HP; apply HP]. }
  pstep get_neg_spec. rewrite Hn. cbn [Z.eqb negb].
  rewrite (part_bind_some _ _ _ _ _ (bn_minimal_width_spec a ba w Ha Hok)).
  destruct (words_at_own a ba w Ha Hok) as [Hat Hroom]. pose proof (limbs_length _ Hok) as Hll.
  pose proof (limbs_words _ Hok) as Hws. unfold bn_abs in *.
  destruct (limbs ba) as [|y l] eqn:El; [done|]. rewrite (part_bind_some _ _ _ _ _ (load_spec _ _ _ _ Hat)).
  destruct ((Z.of_nat (significant (y :: l)) =? 1) && (y <? x)) eqn:Ec.
  - apply andb_true_iff in Ec as [E1%Z.eqb_eq E2%Z.ltb_lt].
    rewrite (one_word y l) in * by (done || lia).
    destruct (loop_step a 0 y (u64 (x - y)) l ba w Ha ltac:(done) Hat Hroom) as (E & Hb1 & _).
    rewrite (part_bind_some _ _ _ _ _ E). erewrite part_bind_some by (by apply bn_update_spec).
    rewrite set_bn_twice. apply Forall_cons in Hws as [Hy Hl]. unfold word in *.
    assert (Eu : u64 (x - y) = x - y) by (unfold u64; rewrite Z.mod_small; lia). rewrite Eu.
    assert (Hlim : limbs (with_words 0 [x - y] ba) = (x - y) :: l).
    { unfold limbs in *. cbn [with_words with_d bn_d bn_width].
      replace (Z.to_nat (bn_width ba)) with (S (length l)) in * by (cbn [length] in Hll; lia).
      destruct (bn_d ba) as [|d0 d]; [done|]. cbn in El. injection El as _ El.
      change (x - y :: take (length l) d = x - y :: l). by rewrite El. }
    apply outcome_here; [|done|].
    { apply with_neg_ok; [apply with_words_ok; [done|apply words_singleton; unfold word; lia]|by right]. }
    assert (Ev : bn_abs (with_neg 1 (with_words 0 [x - y] ba)) = x - y).
    { rewrite with_neg_abs. unfold bn_abs. rewrite Hlim. apply one_word.
      - constructor; [unfold word; lia|done].
      - cbn [significant] in *. destruct (significant l); [|lia]. by destruct (Z.eqb_spec (x - y) 0); [lia|]. }
    unfold bn_val, no_neg_zero. rewrite Ev. cbn. split; lia.
  - assert (Hle : x <= val (y :: l)).
    { apply andb_false_iff in Ec. pose proof (significant_zero _ Hws) as Hsz. unfold word in Hx.
      destruct (decide (significant (y :: l) = 1%nat)) as [E1|E1].
      - rewrite (one_word y l) by done. destruct Ec as [Ec%Z.eqb_neq|Ec%Z.ltb_ge]; lia.
      - pose proof (many_words (y :: l) Hws). unfold wbase in *. lia. }
    pstep get_width_spec.
    destruct (sub_word_loop_spec a (y :: l) 0 x ba w) as (l' & j & E & Hl' & Hln & Hj & Hval); try done.
    rewrite <-Hll, Nat2Z.id, (part_bind_some _ _ _ _ _ E), Hll.
    eapply outcome_weaken; [apply (drop_top l' j); [done|lia|done|lia]|done|].
    intros b' Hok' [Hv Hn']. unfold no_neg_zero, bn_val. rewrite Hn', Hv. split; [exact Hval|done].
Qed.

End add.

Section signed.
Context (a : Z) (ba : bignum) (w : bn_world).
Context (Ha : bns w !! a = Some ba) (Hok : bn_ok ba) (Hown : owned ba) (Hnz : no_neg_zero ba).

Lemma not_negative : bn_neg ba = 0 -> bn_abs ba = bn_val ba.
Proof. unfold bn_val. by intros ->. Qed.
Lemma negative : bn_neg ba <> 0 -> bn_neg ba = 1 /\ bn_abs ba = - bn_val ba /\ bn_abs ba <> 0.
Proof.
  intros Hn. destruct (bn_sign _ Hok) as [|E]; [done|]. split; [done|]. unfold no_neg_zero, bn_val in *.
  rewrite E in *. cbn in *. split; [lia|]. by intros ?%Hnz.
Qed.

Lemma BN_add_word_spec x :
  word x ->
  outcome a ba w (no_room w (bn_width ba + 1))
    (fun b' => bn_val b' = bn_val ba + x /\ no_neg_zero b') (BN_add_word a x w).
Proof.
  intros Hx. destruct (Z.eqb_spec (bn_neg ba) 0) as [Hn|(Hn1 & Habs & Hne)%Z.eqb_neq%Z.eqb_neq%negative].
  { rewrite <-(not_negative Hn). by apply add_word_nonneg. }
  unfold BN_add_word. unfold add_word_with. destruct (Z.eqb_spec x 0) as [->|Hx0].
  { apply outcome_same; [done|done|]. split; [lia|done]. }
  erewrite part_bind_some by (by apply BN_is_zero_spec). rewrite (proj2 (Z.eqb_neq _ _) Hne).
  pstep get_neg_spec. rewrite Hn1. cbn [Z.eqb negb].
  erewrite part_bind_some by (by apply bn_update_spec).
  apply (outcome_from_set a ba (with_neg 0 ba)); [done|].
  apply (outcome_always a _ _ _ (fun b' => bn_val b' = bn_abs ba - x /\ no_neg_zero b') _ _ _
           (fun _ b' => if bn_abs b' =? 0 then b' else with_neg (Z.b2z (bn_neg b' =? 0)) b')).
  - apply (sub_word_nonneg a (with_neg 0 ba) (set_bn a (with_neg 0 ba) w)); [apply bns_set|by apply with_neg_ok; auto|done|done|done].
  - intros ok b' v Hb' Hok'. erewrite part_bind_some by (by apply BN_is_zero_spec).
    destruct (bn_abs b' =? 0); cbn [negb].
    + unfold mbind, part_bind, mret, part_ret, set_bn. rewrite insert_id by done. by destruct v.
    + by erewrite part_bind_some by (by apply bn_update_spec).
  - intros _ b' Hok'. case_match; [done|]. split; [|done]. apply with_neg_ok; [done|].
    destruct (bn_sign _ Hok') as [-> | ->]; auto.
  - intros b' Hok' [Hv Hz]. pose proof (bn_sign _ Hok') as Hs. unfold no_neg_zero, bn_val in *.
    destruct (Z.eqb_spec (bn_abs b') 0) as [E0|E0]; rewrite ?with_neg_abs; cbn [with_neg bn_neg].
    + rewrite E0 in *. split; [case_bool; lia|done].
    + destruct Hs as [E|E]; rewrite E in *; cbn in *; lia.
Qed.

Lemma BN_sub_word_spec x :
  word x ->
  outcome a ba w (no_room w (bn_width ba + 1))
    (fun b' => bn_val b' = bn_val ba - x /\ no_neg_zero b') (BN_sub_word a x w).
Proof.
  intros Hx. destruct (Z.eqb_spec (bn_neg ba) 0) as [Hn|(Hn1 & Habs & Hne)%Z.eqb_neq%Z.eqb_neq%negative].
  { rewrite <-(not_negative Hn). by apply sub_word_nonneg. }
  unfold BN_sub_word. unfold sub_word_with. destruct (Z.eqb_spec x 0) as [->|Hx0].
  { apply outcome_same; [done|done|]. split; [lia|done]. }
  erewrite part_bind_some by (by apply BN_is_zero_spec). rewrite (proj2 (Z.eqb_neq _ _) Hne).
  pstep get_neg_spec. rewrite Hn1. cbn [Z.eqb negb].
  erewrite part_bind_some by (by apply bn_update_spec).
  apply (outcome_from_set a ba (with_neg 0 ba)); [done|]. pose proof (bn_abs_range _ Hok). unfold word in Hx.
  apply (outcome_always a _ _ _ (fun b' => bn_val b' = bn_abs ba + x /\ no_neg_zero b') _ _ _
           (fun _ => with_neg 1)).
  - apply (add_word_nonneg a (with_neg 0 ba) (set_bn a (with_neg 0 ba) w)); [apply bns_set|by apply with_neg_ok; auto|done|done|done].
  - intros ok b' v Hb' Hok'. by erewrite part_bind_some by (by apply bn_update_spec).
  - intros _ b' Hok'. split; [|done]. by apply with_neg_ok; auto.
  - intros b' Hok' [Hv Hz]. pose proof (bn_abs_range _ Hok').
    assert (bn_abs b' = bn_abs ba + x) by (unfold bn_val in Hv; case_match; lia).
    unfold no_neg_zero, bn_val at 1. rewrite with_neg_abs. cbn. lia.
Qed.
End signed.
