(* ===== verification/BnDivWord.v ===== *)
(** * Big numbers: division by a word *)
From S2P Require Export BnWordOps.

Lemma two_words r l d :
  0 <= r < d -> word d -> word l ->
  Z.lor (u128 (Z.shiftl r BN_BITS2)) l = r * wbase + l /\ 0 <= (r * wbase + l) / d < wbase
  /\ r * wbase + l = d * ((r * wbase + l) / d) + (r * wbase + l) mod d
  /\ 0 <= (r * wbase + l) mod d < d.
Proof.
  unfold word, BN_BITS2, wbase. intros Hr Hd Hl. split_and!.
  - rewrite Z.shiftl_mul_pow2 by lia. unfold u128. rewrite Z.mod_small by nia.
    rewrite Z.lor_comm, (lor_add l (r * 2 ^ 64) 64); [lia|lia|lia|]. apply Z_mod_mult.
  - apply Z.div_pos; nia.
  - apply Z.div_lt_upper_bound; nia.
  - apply Z.div_mod. lia.
  - apply Z.mod_pos_bound. lia.
  - apply Z.mod_pos_bound. lia.
Qed.

Lemma bn_div_rem_words_spec r l d :
  0 <= r < d -> word d -> word l ->
  bn_div_rem_words r l d = Some ((r * wbase + l) / d, (r * wbase + l) mod d)
  /\ u64 (l - u64 ((r * wbase + l) / d * d)) = (r * wbase + l) mod d.
Proof.
  intros Hr Hd Hl. destruct (two_words r l d Hr Hd Hl) as (E & Hq & He & Hm).
  unfold bn_div_rem_words. destruct (Z.eqb_spec d 0); [lia|]. rewrite E.
  remember ((r * wbase + l) / d) as q eqn:Eq. remember ((r * wbase + l) mod d) as m eqn:Em.
  clear Eq Em E. assert (Hrem : u64 (l - u64 (q * d)) = m).
  { unfold u64. rewrite Zminus_mod_idemp_r. change (2 ^ 64) with wbase.
    replace (l - q * d) with (m + (- r) * wbase) by lia.
    rewrite Z_mod_plus_full, Z.mod_small; [done|]. unfold word in *. fold wbase in *. lia. }
  by rewrite (u64_small q), Hrem by (unfold wbase in Hq; lia).
Qed.

(** The words of a quotient and the remainder, from the top word down. *)
Section loops.
Context (a d : Z) (Hd : word d) (Hd0 : 0 < d).

Lemma div_word_loop_spec xs ret b w :
  bns w !! a = Some b -> words_at (bns w) (a, 0) xs -> room b 0 (length xs) -> words xs -> 0 <= ret < d ->
  exists l, div_word_loop (length xs) a d ret w
      = Some ((bpow (length xs) * ret + val xs) mod d, set_bn a (with_words 0 l b) w)
    /\ words l /\ length l = length xs /\ val l = (bpow (length xs) * ret + val xs) / d.
Proof.
  revert ret b w. induction xs as [|x xs IH] using rev_ind; intros ret b w Hb Hat Hroom Hxs Hr.
  { exists []. rewrite with_words_nil, set_bn_id by done. cbn [div_word_loop length val].
    rewrite bpow_0, Z.mul_1_l, Z.add_0_r, Z.mod_small, Z.div_small by done. by split_and!; try constructor. }
  apply words_app in Hxs as [Hxs Hx%words_singleton]. destruct (words_at_snoc _ _ _ _ Hat) as [Hat1 Hatx].
  rewrite length_app, Nat.add_comm in *. cbn [length Nat.add div_word_loop] in *.
  rewrite (part_bind_some _ _ _ _ _ (load_spec _ _ _ _ Hatx)).
  destruct (bn_div_rem_words_spec ret x d Hr Hd Hx) as [E Hrem]. rewrite E.
  destruct (two_words ret x d Hr Hd Hx) as (_ & Hq & He & Hm).
  remember ((ret * wbase + x) / d) as q eqn:Eq. remember ((ret * wbase + x) mod d) as m eqn:Em.
  unfold mbind at 1, part_bind at 1, of_opt. destruct Hroom as [_ Hroom].
  erewrite part_bind_some by (apply (store_spec (a, lenZ xs) q b w); [done|cbn; lia]).
  rewrite store_with_words, Hrem. cbn [fst snd].
  destruct (IH m (with_words (lenZ xs) [q] b) (set_bn a (with_words (lenZ xs) [q] b) w)) as (l & El & Hl & Hln & Hv).
  { apply bns_set. }
  { apply words_at_set; [done|]. cbn [fst snd]. intros _ b0 Hb0 k Hk. simplify_eq.
    apply with_words_lookup_out. left. lia. }
  { unfold room. rewrite with_words_length. lia. }
  { done. }
  { done. }
  exists (l ++ [q]). rewrite El, set_bn_twice, (with_words_prepend 0 (lenZ xs)) by (try lia; cbn; lia).
  assert (Hall : bpow (S (length xs)) * ret + val (xs ++ [x]) = (bpow (length xs) * m + val xs) + bpow (length xs) * q * d).
  { rewrite val_app, bpow_S. cbn [val]. apply (f_equal (Z.mul (bpow (length xs)))) in He. lia. }
  rewrite Hall, Z_mod_plus_full, Z_div_plus_full by lia.
  split_and!; [done| |rewrite length_app; cbn; lia|].
  - apply words_app. split; [done|]. apply words_singleton. exact Hq.
  - rewrite val_app, Hv, Hln. cbn [val]. lia.
Qed.

Lemma mod_word_loop_spec xs ret w :
  words_at (bns w) (a, 0) xs -> words xs -> 0 <= ret < d ->
  mod_word_loop (length xs) a d ret w = Some ((bpow (length xs) * ret + val xs) mod d, w).
Proof.
  revert ret. induction xs as [|x xs IH] using rev_ind; intros ret Hat Hxs Hr.
  { cbn [mod_word_loop length val]. by rewrite bpow_0, Z.mul_1_l, Z.add_0_r, Z.mod_small by done. }
  apply words_app in Hxs as [Hxs Hx%words_singleton]. destruct (words_at_snoc _ _ _ _ Hat) as [Hat1 Hatx].
  rewrite length_app, Nat.add_comm. cbn [length Nat.add mod_word_loop].
  rewrite (part_bind_some _ _ _ _ _ (load_spec _ _ _ _ Hatx)).
  destruct (two_words ret x d Hr Hd Hx) as (-> & Hq & He & Hm). rewrite IH by done. f_equal. f_equal.
  rewrite val_app, bpow_S. cbn [val].
  rewrite <-Z.add_mod_idemp_l, Z.mul_mod_idemp_r, Z.add_mod_idemp_l by lia. f_equal. lia.
Qed.
End loops.

Lemma normal_divisor d :
  word d -> d <> 0 ->
  let j := BN_BITS2 - BN_num_bits_word d in
  0 <= j < 64 /\ word (d * 2 ^ j) /\ u64 (Z.shiftl d j) = d * 2 ^ j.
Proof.
  intros Hd Hd0 j. unfold j. clear j. rewrite BN_num_bits_word_spec by done. pose proof (bit_length_word _ Hd).
  unfold word, BN_BITS2 in *.
  destruct (bit_length_bounds d (bit_length d) ltac:(lia) eq_refl) as [_ H2].
  assert (1 <= bit_length d).
  { pose proof (bit_length_nonneg d). destruct (Z.eq_dec (bit_length d) 0) as [E|]; [|lia]. rewrite E in H2.
    change (2 ^ 0) with 1 in H2. lia. }
  assert (E : 2 ^ 64 = 2 ^ bit_length d * 2 ^ (64 - bit_length d)) by (rewrite <-Z.pow_add_r by lia; f_equal; lia).
  assert (0 < 2 ^ (64 - bit_length d)) by (apply Z.pow_pos_nonneg; lia).
  assert (d * 2 ^ (64 - bit_length d) < 2 ^ 64) by nia.
  split; [lia|]. split; [nia|]. rewrite Z.shiftl_mul_pow2 by lia. apply u64_small. unfold word. nia.
Qed.

Lemma abs_val b : bn_ok b -> bn_abs b = Z.abs (bn_val b).
Proof. intros Hok. pose proof (bn_abs_range _ Hok). unfold bn_val. case_match; lia. Qed.

Lemma significant_prefix l : significant (take (significant l) l) = significant l.
Proof.
  induction l as [|x l IH]; [done|]. cbn [significant]. destruct (significant l) as [|n].
  - destruct (x =? 0) eqn:E; [done|]. cbn. by rewrite E.
  - cbn [take significant]. cbn [take] in IH. by rewrite IH.
Qed.

Lemma minimal_is_minimal b : is_minimal (minimal b).
Proof. unfold is_minimal. by rewrite limbs_minimal, significant_prefix. Qed.

(** A minimal width is at most any other of a number as large. *)
Lemma is_minimal_width b b0 :
  bn_ok b -> bn_ok b0 -> is_minimal b -> bn_abs b <= bn_abs b0 -> bn_width b <= bn_width b0.
Proof.
  intros Hok Hok0 Hm Ha. pose proof (bn_abs_range b0 Hok0) as Hr. pose proof (proj1 Hok0).
  unfold is_minimal in Hm. destruct (significant (limbs b)) as [|n] eqn:E; [lia|].
  destruct (top_word _ _ (limbs_words b Hok) E) as (x & Hx & Hx0 & Hv).
  pose proof (words_lookup _ _ _ (limbs_words b Hok) Hx) as Hxw. unfold word in Hxw.
  pose proof (val_range (take n (limbs b)) ltac:(auto with cint)) as Hp. pose proof (bpow_pos n). fold (bn_abs b) in Hv.
  destruct (Z.le_gt_cases (bn_width b) (bn_width b0)) as [|Hlt]; [done|].
  pose proof (bpow_mono (Z.to_nat (bn_width b0)) n ltac:(lia)). nia.
Qed.

Section ops.
Context (a : Z) (ba : bignum) (w : bn_world).
Context (Ha : bns w !! a = Some ba) (Hok : bn_ok ba).

Lemma BN_mod_word_spec d :
  word d -> d <> 0 -> BN_mod_word a d w = Some (bn_abs ba mod d, w).
Proof.
  intros Hd Hd0. unfold BN_mod_word. destruct (Z.eqb_spec d 0); [done|]. pstep get_width_spec.
  pose proof (limbs_length _ Hok) as Hll. unfold word in Hd.
  rewrite <-Hll, Nat2Z.id.
  erewrite part_bind_some.
  2: { apply mod_word_loop_spec; [exact Hd|lia|by apply words_at_limbs_0|by apply limbs_words|lia]. }
  rewrite Z.mul_0_r, Z.add_0_l. unfold mret, part_ret. rewrite u64_small; [done|].
  pose proof (Z.mod_pos_bound (val (limbs ba)) d). unfold word. lia.
Qed.

(** The quotient takes the place of the number. All bits of the result are set on
    failure, which no remainder is. *)
Lemma BN_div_word_spec d :
  owned ba -> word d -> d <> 0 ->
  exists ret b' o, BN_div_word a d w = Some (ret, mk_bn_world (<[a := b']> (bns w)) o)
    /\ bn_ok b' /\ bn_flags b' = bn_flags ba /\ oom_after w o
    /\ ((ret = bn_abs ba mod d /\ bn_val b' = Z.quot (bn_val ba) d /\ (no_neg_zero ba -> no_neg_zero b') /\ is_minimal b')
        \/ (ret = BN_MASK2 /\ no_room w (bn_width ba + 1))).
Proof.
  intros Hown Hd Hd0. unfold BN_div_word. destruct (Z.eqb_spec d 0); [done|]. pstep get_width_spec.
  pose proof (limbs_length _ Hok) as Hll. destruct (Z.eqb_spec (bn_width ba) 0) as [E0|_].
  { exists 0, ba, (bn_oom w). rewrite set_bn_same by done. unfold bn_val, bn_abs.
    replace (limbs ba) with (@nil Z) by (destruct (limbs ba); [done|cbn in Hll; lia]). cbn [val].
    split_and!; try done; [by left|]. left. split_and!; [by rewrite Z.mod_0_l|by case_match; rewrite Z.quot_0_l|done|].
    unfold is_minimal. by destruct (limbs ba); [|cbn in Hll; lia]. }
  destruct (normal_divisor d Hd Hd0) as (Hj & Hd' & Eu). rewrite Eu.
  remember (BN_BITS2 - BN_num_bits_word d) as j eqn:Ej. clear Ej.
  pose proof (BN_lshift_spec a a ba ba w Ha Ha Hok Hok Hown j (proj1 Hj)) as (ok & b1 & o & E & Hok1 & Hf1 & Ho & HP).
  rewrite (part_bind_some _ _ _ _ _ E). rewrite Z.div_small, Z.add_0_r in HP by lia.
  destruct ok; cbn [negb].
  2: { exists BN_MASK2, b1, o. split_and!; try done. by right. }
  destruct HP as [Hv1 Hz1]. assert (Hb1 : bns (mk_bn_world (<[a:=b1]> (bns w)) o) !! a = Some b1) by apply lookup_insert_eq.
  pstep get_width_spec. rewrite <-(limbs_length _ Hok1), Nat2Z.id.
  destruct (words_at_own a b1 _ Hb1 Hok1) as [Hat Hroom]. pose proof (limbs_words _ Hok1) as Hws1.
  destruct (div_word_loop_spec a (d * 2 ^ j) Hd' ltac:(unfold word in *; nia) (limbs b1) 0 b1 _ Hb1 Hat Hroom Hws1)
    as (l & El & Hl & Hln & Hv); [unfold word in *; nia|].
  rewrite Z.mul_0_r, Z.add_0_l in El, Hv. rewrite (part_bind_some _ _ _ _ _ El), set_bn_mk, insert_insert_eq.
  assert (Hok2 : bn_ok (with_words 0 l b1)) by auto with cint.
  erewrite part_bind_some by (apply bn_set_minimal_width_spec; [apply lookup_insert_eq|done]).
  rewrite set_bn_mk, insert_insert_eq. do 3 eexists. split; [reflexivity|].
  split_and!; [by apply minimal_ok|done|done|]. left.
  pose proof (limbs_length _ Hok1) as Hlb. pose proof (bn_abs_range _ Hok1).
  assert (Habs : bn_abs (with_words 0 l b1) = bn_abs b1 / (d * 2 ^ j)).
  { unfold bn_abs. by rewrite limbs_with_words by (done || lia). }
  assert (0 < 2 ^ j) by (apply Z.pow_pos_nonneg; lia).
  assert (0 < d * 2 ^ j) by (unfold word in Hd; nia).
  split_and!.
  - fold (bn_abs b1). rewrite (abs_val b1), Hv1, Z.abs_mul, (Z.abs_eq (2 ^ j)), <-abs_val by (done || lia).
    rewrite Z.mul_mod_distr_r, Z.shiftr_div_pow2, Z.div_mul by lia. done.
  - rewrite minimal_val, bn_val_signed, Habs, signed_quot by (done || lia).
    change (bn_neg (with_words 0 l b1)) with (bn_neg b1). rewrite <-bn_val_signed, Hv1, Z.quot_mul_cancel_r by (done || lia). done.
  - intros _. by apply minimal_no_neg_zero.
  - by apply minimal_is_minimal.
Qed.
End ops.
