(* ===== verification/BnBits.v ===== *)
(** * Big numbers: bits *)
From S2P Require Export BnDivWord.

Lemma val_insert l k x y :
  l !! k = Some x -> val (<[k := y]> l) = val l + bpow k * (y - x).
Proof.
  revert k. induction l as [|z l IH]; intros [|k] Hk; cbn in Hk; try done.
  - injection Hk as ->. change (<[0%nat := y]> (x :: l)) with (y :: l). cbn [val]. rewrite bpow_0. lia.
  - change (<[S k := y]> (z :: l)) with (z :: <[k := y]> l). cbn [val]. rewrite (IH _ Hk), bpow_S. lia.
Qed.

(** The bit at [n] is in word [n / 64]. *)
Lemma bpow_pow2 k : bpow k = 2 ^ (64 * Z.of_nat k).
Proof. unfold bpow, wbase. by rewrite <-Z.pow_mul_r by lia. Qed.

Lemma testbit_low v x n :
  0 <= n < 64 -> Z.testbit (x + wbase * v) n = Z.testbit x n.
Proof.
  intros Hn. unfold wbase. rewrite <-(Z.mod_pow2_bits_low (x + 2 ^ 64 * v) 64 n) by lia.
  rewrite Z.mul_comm, Z_mod_plus_full. apply Z.mod_pow2_bits_low. lia.
Qed.

Lemma testbit_val l k x j :
  words l -> l !! k = Some x -> 0 <= j < 64 ->
  Z.testbit (val l) (64 * Z.of_nat k + j) = Z.testbit x j.
Proof.
  intros Hl Hx Hj. pose proof (lookup_lt_Some _ _ _ Hx).
  pose proof (val_range_len (take k l) k ltac:(auto with cint) ltac:(rewrite length_take; lia)) as Hr.
  rewrite (val_take_drop k l), length_take_le, (drop_S _ _ _ Hx) by lia. cbn [val].
  rewrite (Z.add_comm (64 * _)), <-Z.div_pow2_bits, <-bpow_pow2 by lia.
  rewrite Z.add_comm, Z.mul_comm, Z.div_add_l, Z.div_small, Z.add_0_r by lia. by apply testbit_low.
Qed.

Lemma testbit_beyond l n :
  words l -> 64 * lenZ l <= n -> Z.testbit (val l) n = false.
Proof.
  intros Hl Hn. pose proof (val_range _ Hl) as Hv. rewrite bpow_pow2 in Hv.
  rewrite <-(Z.mod_small (val l) (2 ^ (64 * lenZ l))) by done. by apply Z.mod_pow2_bits_high; lia.
Qed.

(** Setting and clearing a bit, as sums. *)
Lemma setbit_add v n : 0 <= n -> Z.setbit v n = v + (if Z.testbit v n then 0 else 2 ^ n).
Proof.
  intros Hn. unfold Z.setbit. rewrite Z.shiftl_1_l. destruct (Z.testbit v n) eqn:E.
  - rewrite Z.add_0_r. apply Z.bits_inj'. intros i Hi. rewrite Z.lor_spec, Z.pow2_bits_eqb by lia.
    destruct (Z.eqb_spec n i) as [<-|]; [by rewrite E|by rewrite orb_false_r].
  - rewrite <-Z.lxor_lor.
    + symmetry. apply Z.add_nocarry_lxor.
      apply Z.bits_inj'. intros i Hi. rewrite Z.land_spec, Z.pow2_bits_eqb, Z.bits_0 by lia.
      destruct (Z.eqb_spec n i) as [<-|]; [by rewrite E|by rewrite andb_false_r].
    + apply Z.bits_inj'. intros i Hi. rewrite Z.land_spec, Z.pow2_bits_eqb, Z.bits_0 by lia.
      destruct (Z.eqb_spec n i) as [<-|]; [by rewrite E|by rewrite andb_false_r].
Qed.

Lemma clearbit_sub v n : 0 <= n -> Z.clearbit v n = v - (if Z.testbit v n then 2 ^ n else 0).
Proof.
  intros Hn. destruct (Z.testbit v n) eqn:E.
  - assert (Es : Z.setbit (Z.clearbit v n) n = v).
    { apply Z.bits_inj'. intros i Hi. rewrite Z.setbit_eqb, Z.clearbit_eqb by lia.
      destruct (Z.eqb_spec n i) as [<-|]; cbn; [done|by rewrite andb_true_r]. }
    rewrite setbit_add, Z.clearbit_eq in Es by lia. lia.
  - rewrite Z.sub_0_r. apply Z.bits_inj'. intros i Hi. rewrite Z.clearbit_eqb by lia.
    destruct (Z.eqb_spec n i) as [<-|]; cbn; [by rewrite E|by rewrite andb_true_r].
Qed.

Lemma bit_mask j : 0 <= j < 64 -> u64 (Z.shiftl 1 j) = 2 ^ j.
Proof.
  intros Hj. rewrite Z.shiftl_1_l. apply u64_small. split; [by apply Z.pow_nonneg|].
  apply Z.pow_lt_mono_r; lia.
Qed.

Lemma setbit_word x j : word x -> 0 <= j < 64 -> word (Z.setbit x j).
Proof.
  intros Hx Hj. unfold Z.setbit. apply word_lor; [done|]. rewrite Z.shiftl_1_l. unfold word.
  split; [by apply Z.pow_nonneg|]. apply Z.pow_lt_mono_r; lia.
Qed.

(** [x & ~(1 << j)] *)
Lemma clear_mask x j :
  word x -> 0 <= j < 64 ->
  Z.land x (u64 (Z.lnot (u64 (Z.shiftl 1 j)))) = Z.clearbit x j /\ word (Z.clearbit x j).
Proof.
  intros Hx Hj. assert (E : Z.land x (u64 (Z.lnot (u64 (Z.shiftl 1 j)))) = Z.clearbit x j).
  { rewrite bit_mask by done. apply Z.bits_inj'. intros i Hi.
    rewrite Z.land_spec, Z.clearbit_eqb by lia. unfold u64.
    destruct (Z.lt_ge_cases i 64).
    - rewrite Z.mod_pow2_bits_low, Z.lnot_spec, Z.pow2_bits_eqb by lia. done.
    - unfold word in Hx. rewrite <-(Z.mod_small x (2 ^ 64)), Z.mod_pow2_bits_high by lia. done. }
  split; [done|]. rewrite <-E. unfold word in *. rewrite clearbit_sub in * by lia.
  pose proof (Z.pow_nonneg 2 j ltac:(lia)). rewrite E. split; [|case_match; lia].
  rewrite <-E. apply Z.land_nonneg. left. lia.
Qed.

(** A wider number, the new words zero. *)
Definition widened (n : Z) (b : bignum) : bignum :=
  with_width n (with_words (bn_width b) (replicate (Z.to_nat (n - bn_width b)) 0) b).

Lemma widened_spec n b :
  bn_ok b -> bn_width b <= n <= bn_dmax b ->
  bn_ok (widened n b) /\ bn_abs (widened n b) = bn_abs b /\ bn_neg (widened n b) = bn_neg b.
Proof.
  intros Hok Hn. pose proof Hok as (Hw & Hd & _). unfold widened. split_and!; [|..|done].
  - apply with_width_ok; [apply with_words_ok; [done|apply words_zeros]|cbn; lia].
  - unfold bn_abs. pose proof (limbs_length _ Hok).
    assert (E : limbs (widened n b) = limbs b ++ replicate (Z.to_nat (n - bn_width b)) 0).
    { unfold widened, limbs. cbn [with_width with_words with_d bn_d bn_width]. apply list_eq. intros i.
      destruct (decide (i < Z.to_nat (bn_width b))%nat).
      - by rewrite lookup_take_lt, list_lookup_inserts_lt, lookup_app_l, lookup_take_lt
          by (rewrite ?length_take; lia).
      - rewrite lookup_app_r, length_take by (rewrite length_take; lia).
        replace (Z.to_nat (bn_width b) `min` length (bn_d b))%nat with (Z.to_nat (bn_width b)) by lia.
        destruct (decide (i < Z.to_nat n)%nat).
        + by rewrite lookup_take_lt, list_lookup_inserts by (rewrite ?length_replicate; lia).
        + rewrite lookup_take_ge by lia. symmetry. apply lookup_ge_None. rewrite length_replicate. lia. }
    unfold widened in E. rewrite E, val_app, val_zeros. lia.
Qed.

(** The low bits of a number. *)
Lemma masked_val l k x j :
  words l -> l !! k = Some x -> 0 <= j < 64 ->
  val l mod 2 ^ (64 * Z.of_nat k + j) = val (take k l) + bpow k * (x mod 2 ^ j).
Proof.
  intros Hl Hx Hj. pose proof (lookup_lt_Some _ _ _ Hx).
  pose proof (val_range_len (take k l) k ltac:(auto with cint) ltac:(rewrite length_take; lia)) as Hr.
  rewrite (val_take_drop k l) at 1. rewrite length_take_le, (drop_S _ _ _ Hx) by lia. cbn [val].
  rewrite Z.pow_add_r, <-bpow_pow2 by lia. pose proof (bpow_pos k).
  assert (0 < 2 ^ j) by (apply Z.pow_pos_nonneg; lia).
  assert (Ew : wbase = 2 ^ j * 2 ^ (64 - j)) by (unfold wbase; rewrite <-Z.pow_add_r by lia; f_equal; lia).
  pose proof (Z.mod_pos_bound x (2 ^ j) ltac:(lia)). pose proof (Z.div_mod x (2 ^ j) ltac:(lia)) as Hdm.
  remember (x mod 2 ^ j) as m eqn:Em. remember (x / 2 ^ j) as q eqn:Eq. clear Em Eq. rewrite Ew.
  symmetry. apply Z.mod_unique_pos with (q + 2 ^ (64 - j) * val (drop (S k) l)); [nia|].
  rewrite Hdm. ring.
Qed.

(** [x & ~(BN_MASK2 << j)] *)
Lemma low_mask x j :
  word x -> 0 <= j < 64 ->
  Z.land x (u64 (Z.lnot (u64 (Z.shiftl BN_MASK2 j)))) = x mod 2 ^ j.
Proof.
  intros Hx Hj. rewrite <-Z.land_ones by lia. apply Z.bits_inj'. intros i Hi.
  rewrite !Z.land_spec. destruct (Z.lt_ge_cases i 64).
  - f_equal. change BN_MASK2 with (Z.ones 64). unfold u64.
    rewrite Z.mod_pow2_bits_low, Z.lnot_spec, Z.mod_pow2_bits_low, Z.shiftl_spec by lia.
    rewrite (Z.testbit_ones_nonneg j) by lia. destruct (Z.ltb_spec i j).
    + by rewrite Z.testbit_neg_r by lia.
    + rewrite Z.testbit_ones_nonneg by lia. by destruct (Z.ltb_spec (i - j) 64); [|lia].
  - unfold word in Hx. by rewrite <-(Z.mod_small x (2 ^ 64)), Z.mod_pow2_bits_high by lia.
Qed.

(** The number with another word at [i]. *)
Lemma limbs_set_word i y ba :
  0 <= i < bn_width ba -> limbs (with_words i [y] ba) = <[Z.to_nat i := y]> (limbs ba).
Proof.
  intros Hi. unfold limbs. cbn [with_words with_d bn_d bn_width]. symmetry.
  cbn [list_inserts]. by rewrite take_insert_lt by lia.
Qed.

Lemma abs_set_word i x y ba :
  0 <= i < bn_width ba -> limbs ba !! Z.to_nat i = Some x ->
  bn_abs (with_words i [y] ba) = bn_abs ba + 2 ^ (64 * i) * (y - x).
Proof.
  intros Hi Hx. unfold bn_abs. rewrite limbs_set_word by done.
  rewrite (val_insert _ _ x) by done. rewrite bpow_pow2. by rewrite Z2Nat.id by lia.
Qed.

Section word.
Context (a : Z) (ba : bignum) (w : bn_world).
Context (Ha : bns w !! a = Some ba) (Hok : bn_ok ba).

Lemma limb_at n :
  0 <= n < bn_width ba * 64 ->
  exists x, limbs ba !! Z.to_nat (n / 64) = Some x /\ word x
    /\ load (a, n / 64) w = Some (x, w).
Proof.
  intros Hn. pose proof (limbs_length _ Hok) as Hll.
  destruct (lookup_lt_is_Some_2 (limbs ba) (Z.to_nat (n / 64))) as [x Hx]; [div_lia|].
  exists x. split; [done|]. split; [by eapply words_lookup; [apply limbs_words|]|].
  pose proof (words_at_limbs a ba w (n / 64) Ha Hok ltac:(div_lia)) as Hat.
  rewrite (drop_S _ _ _ Hx) in Hat. by eapply load_spec.
Qed.

Lemma split_index n : 0 <= n -> n = 64 * Z.of_nat (Z.to_nat (n / 64)) + n mod 64 /\ 0 <= n mod 64 < 64.
Proof. intros Hn. rewrite Z2Nat.id by div_lia. div_lia. Qed.

Lemma BN_is_bit_set_spec n :
  0 <= n -> BN_is_bit_set a n w = Some (Z.b2z (Z.testbit (bn_abs ba) n), w).
Proof.
  intros Hn. unfold BN_is_bit_set, bn_is_bit_set_words. destruct (Z.ltb_spec n 0); [lia|].
  pstep get_width_spec. unfold BN_BITS2. pose proof (limbs_length _ Hok).
  destruct (Z.leb_spec (bn_width ba) (n / 64)) as [Hi|Hi].
  - unfold bn_abs. rewrite testbit_beyond by (auto with cint; div_lia). done.
  - destruct (limb_at n ltac:(div_lia)) as (x & Hx & Hxw & El).
    rewrite (part_bind_some _ _ _ _ _ El). destruct (split_index n Hn) as [En Hj].
    unfold bn_abs. rewrite En at 2. rewrite (testbit_val _ _ x) by (auto with cint).
    unfold mret, part_ret. by rewrite Z.testbit_spec', <-Z.shiftr_div_pow2, land_1 by lia.
Qed.

Lemma word_record i y :
  word y -> bn_ok (with_words i [y] ba).
Proof. intros Hy. apply with_words_ok; [done|by apply words_singleton]. Qed.

Lemma BN_clear_bit_spec n :
  0 <= n ->
  outcome a ba w (bn_width ba * 64 <= n)
    (fun b' => bn_abs b' = Z.clearbit (bn_abs ba) n
               /\ bn_neg b' = (if bn_abs b' =? 0 then 0 else bn_neg ba)) (BN_clear_bit a n w).
Proof.
  intros Hn. unfold BN_clear_bit. destruct (Z.ltb_spec n 0); [lia|]. unfold BN_BITS2.
  pstep get_width_spec. destruct (Z.leb_spec (bn_width ba) (n / 64)) as [Hi|Hi].
  { apply outcome_unchanged; [done|done|div_lia]. }
  destruct (limb_at n ltac:(div_lia)) as (x & Hx & Hxw & El). rewrite (part_bind_some _ _ _ _ _ El).
  destruct (split_index n Hn) as [En Hj]. destruct (clear_mask x (n mod 64) Hxw Hj) as [Ec Hcw]. rewrite Ec.
  pose proof Hok as (Hw & Hd & _).
  erewrite part_bind_some by (apply (store_spec (a, n / 64) _ ba w); [done|cbn; div_lia]).
  rewrite store_with_words. cbn [fst snd].
  pose proof (word_record (n / 64) _ Hcw) as Hok2.
  erewrite part_bind_some by (apply bn_set_minimal_width_spec; [apply bns_set|done]).
  rewrite set_bn_twice. apply outcome_here; [by apply minimal_ok|done|].
  rewrite minimal_abs, minimal_neg by done. split; [|done].
  rewrite (abs_set_word _ x) by (done || div_lia). rewrite !clearbit_sub by lia.
  assert (Et : Z.testbit (bn_abs ba) n = Z.testbit x (n mod 64)).
  { unfold bn_abs. rewrite En at 1. by apply testbit_val; [apply limbs_words| |]. }
  rewrite Et. case_match; [|lia]. rewrite En at 3.
  rewrite Z2Nat.id by div_lia. rewrite Z.pow_add_r by div_lia. lia.
Qed.

(** The masked number: the words above go, and the bits above in the top word. *)
Lemma BN_mask_bits_spec n :
  0 <= n ->
  outcome a ba w False
    (fun b' => bn_abs b' = bn_abs ba mod 2 ^ n /\ (n < bn_width ba * 64 -> no_neg_zero b')
               /\ (bn_neg b' = bn_neg ba \/ bn_abs b' = 0)) (BN_mask_bits a n w).
Proof.
  intros Hn. unfold BN_mask_bits. destruct (Z.ltb_spec n 0); [lia|]. unfold BN_BITS2.
  pstep get_width_spec. destruct (split_index n Hn) as [En Hj]. pose proof (bn_abs_range _ Hok) as Hr.
  rewrite bpow_pow2, Z2Nat.id in Hr by (pose proof (proj1 Hok); lia).
  destruct (Z.leb_spec (bn_width ba) (n / 64)) as [Hi|Hi].
  { apply outcome_same; [done|done|]. split_and!; [|div_lia|by left].
    rewrite Z.mod_small; [done|]. split; [lia|]. eapply Z.lt_le_trans; [apply Hr|].
    apply Z.pow_le_mono_r; div_lia. }
  pose proof Hok as (Hw & Hd & _).
  enough (exists b', (if n mod 64 =? 0 then update a (with_width (n / 64))
     else _ ← update a (with_width (n / 64 + 1)); x ← load (a, n / 64);
       store (a, n / 64) (Z.land x (u64 (Z.lnot (u64 (Z.shiftl BN_MASK2 (n mod 64))))))) w
     = Some (tt, set_bn a b' w) /\ bn_ok b' /\ bn_flags b' = bn_flags ba /\ bn_neg b' = bn_neg ba
       /\ bn_abs b' = bn_abs ba mod 2 ^ n) as (b' & E & Hok2 & Hf & Hs & Hv).
  { rewrite (part_bind_some _ _ _ _ _ E).
    erewrite part_bind_some by (apply bn_set_minimal_width_spec; [apply bns_set|done]).
    rewrite set_bn_twice. apply outcome_here; [by apply minimal_ok|done|].
    rewrite minimal_abs, minimal_neg, Hv, Hs by done.
    split_and!; [done|intros _; by apply minimal_no_neg_zero|case_bool; auto]. }
  destruct (limb_at n ltac:(div_lia)) as (x & Hx & Hxw & El).
  assert (Em : bn_abs ba mod 2 ^ n = val (take (Z.to_nat (n / 64)) (limbs ba)) + bpow (Z.to_nat (n / 64)) * (x mod 2 ^ (n mod 64))).
  { rewrite En at 1. by apply masked_val; [apply limbs_words| |]. }
  rewrite Em.
  destruct (Z.eqb_spec (n mod 64) 0) as [E0|E0].
  - exists (with_width (n / 64) ba). split_and!; [by apply bn_update_spec|apply with_width_ok; [done|div_lia]|done|done|].
    rewrite E0. change (2 ^ 0) with 1. rewrite Z.mod_1_r, Z.mul_0_r, Z.add_0_r.
    unfold bn_abs, limbs. cbn [with_width bn_d bn_width]. rewrite take_take. do 2 f_equal. div_lia.
  - assert (Hok1 : bn_ok (with_width (n / 64 + 1) ba)) by (apply with_width_ok; [done|div_lia]).
    exists (with_words (n / 64) [x mod 2 ^ (n mod 64)] (with_width (n / 64 + 1) ba)).
    erewrite part_bind_some by (by apply bn_update_spec).
    pose proof (words_at_limbs a _ (set_bn a (with_width (n / 64 + 1) ba) w) (n / 64) (bns_set _ _ _) Hok1 ltac:(div_lia)) as Hat.
    assert (Hx1 : limbs (with_width (n / 64 + 1) ba) !! Z.to_nat (n / 64) = Some x).
    { unfold limbs in *. cbn [with_width bn_d bn_width]. apply lookup_take_Some in Hx as [Hx _].
      rewrite lookup_take_lt by div_lia. done. }
    rewrite (drop_S _ _ _ Hx1) in Hat. rewrite (part_bind_some _ _ _ _ _ (load_spec _ _ _ _ Hat)).
    rewrite low_mask by done.
    rewrite (store_spec (a, n / 64) _ (with_width (n / 64 + 1) ba)) by (first [apply bns_set | cbn; div_lia]).
    rewrite store_with_words, set_bn_twice. cbn [fst snd].
    pose proof (Z.mod_pos_bound x (2 ^ (n mod 64)) ltac:(apply Z.pow_pos_nonneg; lia)) as Hm.
    assert (Hmw : word (x mod 2 ^ (n mod 64))).
    { unfold word. split; [lia|]. pose proof (Z.mod_le x (2 ^ (n mod 64))). unfold word in Hxw. lia. }
    split_and!; [done|apply with_words_ok; [done|by apply words_singleton]|done|done|].
    rewrite (abs_set_word _ x) by (done || (cbn; div_lia)).
    assert (Et : bn_abs (with_width (n / 64 + 1) ba)
      = val (take (Z.to_nat (n / 64)) (limbs ba)) + bpow (Z.to_nat (n / 64)) * x).
    { unfold bn_abs. replace (limbs (with_width (n / 64 + 1) ba)) with (take (S (Z.to_nat (n / 64))) (limbs ba)).
      - rewrite (take_S_r _ _ _ Hx), val_app, length_take_le by (apply lookup_lt_Some in Hx; lia). cbn [val]. lia.
      - unfold limbs. cbn [with_width bn_d bn_width]. rewrite take_take. f_equal. div_lia. }
    rewrite Et, bpow_pow2, Z2Nat.id by div_lia. ring.
Qed.
End word.

Lemma set_bit_here a b w n :
  bns w !! a = Some b -> bn_ok b -> 0 <= n < bn_width b * 64 ->
  exists b', (x ← load (a, n / 64); _ ← store (a, n / 64) (Z.lor x (u64 (Z.shiftl 1 (n mod 64)))); mret true) w
      = Some (true, set_bn a b' w)
    /\ bn_ok b' /\ bn_flags b' = bn_flags b /\ bn_neg b' = bn_neg b /\ bn_abs b' = Z.setbit (bn_abs b) n.
Proof.
  intros Ha Hok Hn. destruct (limb_at a b w Ha Hok n Hn) as (x & Hx & Hxw & El).
  rewrite (part_bind_some _ _ _ _ _ El). destruct (split_index n ltac:(lia)) as [En Hj].
  rewrite bit_mask, <-Z.shiftl_1_l by done. fold (Z.setbit x (n mod 64)). pose proof Hok as (Hw & Hd & _).
  erewrite part_bind_some by (apply (store_spec (a, n / 64) _ b w); [done|cbn; div_lia]).
  rewrite store_with_words. cbn [fst snd].
  exists (with_words (n / 64) [Z.setbit x (n mod 64)] b).
  split_and!; [done|apply word_record; [done|by apply setbit_word]|done|done|].
  rewrite (abs_set_word _ x) by (done || div_lia). rewrite !setbit_add by lia.
  assert (Et : Z.testbit (bn_abs b) n = Z.testbit x (n mod 64)).
  { unfold bn_abs. rewrite En at 1. by apply testbit_val; [apply limbs_words| |]. }
  rewrite Et. case_match; [lia|].
  assert (Ep : 2 ^ n = 2 ^ (64 * (n / 64)) * 2 ^ (n mod 64)) by (rewrite <-Z.pow_add_r by div_lia; f_equal; div_lia).
  rewrite Ep. lia.
Qed.

Lemma BN_set_bit_spec a ba w n :
  bns w !! a = Some ba -> bn_ok ba -> owned ba -> 0 <= n ->
  outcome a ba w (no_room w (n / 64 + 1))
    (fun b' => bn_abs b' = Z.setbit (bn_abs ba) n /\ bn_neg b' = bn_neg ba) (BN_set_bit a n w).
Proof.
  intros Ha Hok Hown Hn. unfold BN_set_bit. destruct (Z.ltb_spec n 0); [lia|]. unfold BN_BITS2.
  pstep get_width_spec. destruct (Z.leb_spec (bn_width ba) (n / 64)) as [Hi|Hi].
  2: { erewrite part_bind_some by reflexivity. cbn [negb].
       destruct (set_bit_here a ba w n Ha Hok ltac:(div_lia)) as (b' & E & Hok' & Hf & Hs & Hv).
       rewrite E. by apply outcome_here. }
  pose proof (wexpand_spec a (n / 64 + 1) ba w Ha Hok Hown) as (ok & b1 & o & E & Hexp & Ho & Hroom).
  pose proof Hexp as (Hok1 & Hw1 & Hs1 & Hf1 & Hl1 & Hd1). destruct ok.
  2: { erewrite part_bind_some by (rewrite (part_bind_some _ _ _ _ _ E); reflexivity). by apply outcome_failed. }
  pose proof (proj1 Hok1) as Hwb. pose proof (proj1 (proj2 Hok1)) as Hdb.
  erewrite part_bind_some.
  2: { rewrite (part_bind_some _ _ _ _ _ E). cbn [negb].
       erewrite part_bind_some by (apply (zero_words_spec (a, bn_width ba) _ b1);
         [apply lookup_insert_eq|lia|unfold room; cbn; lia]).
       erewrite part_bind_some by (apply bn_update_spec; apply bns_set). reflexivity. }
  cbn [negb fst snd]. rewrite !set_bn_mk, !insert_insert_eq, <-Hw1. fold (widened (n / 64 + 1) b1).
  destruct (widened_spec (n / 64 + 1) b1 Hok1 ltac:(lia)) as (Hok2 & Hv2 & Hs2).
  destruct (set_bit_here a _ (mk_bn_world (<[a := widened (n / 64 + 1) b1]> (bns w)) o) n
              ltac:(apply lookup_insert_eq) Hok2 ltac:(cbn; div_lia)) as (b' & E' & Hok' & Hf & Hs & Hv).
  rewrite E', set_bn_mk, insert_insert_eq. apply outcome_done; [done|by rewrite Hf|done|].
  rewrite Hv, Hv2, Hs, Hs2, Hs1. unfold bn_abs. by rewrite Hl1.
Qed.
