(* ===== verification/BnQuery.v ===== *)
(** * Big numbers: comparison with a word, equality, powers of two *)
From S2P Require Export BnBits.

(** ** Equality *)

Section equal.
Context (a b : Z) (ba bb : bignum) (w : bn_world).
Context (Ha : bns w !! a = Some ba) (Hb : bns w !! b = Some bb).
Context (Hoka : bn_ok ba) (Hokb : bn_ok bb).

Lemma xor_words_spec p q i xs ys mask :
  words_at (bns w) (at_ p i) xs -> words_at (bns w) (at_ q i) ys -> length xs = length ys ->
  exists m, xor_words (length xs) p q i mask w = Some (m, w) /\ (m = 0 <-> mask = 0 /\ xs = ys).
Proof.
  revert i ys mask. induction xs as [|x xs IH]; intros i [|y ys] mask Hx Hy Hl; try done.
  { exists mask. split; [done|]. tauto. }
  cbn [length xor_words]. rewrite (part_bind_some _ _ _ _ _ (load_spec _ _ _ _ Hx)).
  rewrite (part_bind_some _ _ _ _ _ (load_spec _ _ _ _ Hy)).
  apply words_at_tail in Hx, Hy. rewrite at_at in Hx, Hy. injection Hl as Hl.
  destruct (IH (i + 1) ys (Z.lor mask (Z.lxor x y)) Hx Hy Hl) as (m & -> & Hm). exists m. split; [done|].
  rewrite Hm, Z.lor_eq_0_iff, Z.lxor_eq_0_iff. split; [intros [[-> ->] ->]; done|]. by intros [-> [= -> ->]].
Qed.

Lemma split_eq n xs ys :
  words xs -> words ys -> (n <= length xs)%nat -> (n <= length ys)%nat ->
  val (drop n xs) = 0 -> val (drop n ys) = 0 -> val xs = val ys <-> take n xs = take n ys.
Proof.
  intros Hxs Hys Hn Hm Hx Hy.
  rewrite (val_take_drop n xs), (val_take_drop n ys), Hx, Hy, !Z.mul_0_r, !Z.add_0_r.
  split; [|by intros ->]. apply val_inj; auto with cint. by rewrite !length_take_le.
Qed.

Lemma beyond_zero xs ys : words xs -> words ys -> val xs = val ys -> val (drop (length xs) ys) = 0.
Proof.
  intros Hx Hy E. pose proof (fits_list ys (length xs) Hy) as H. rewrite <-E in H.
  rewrite (proj2 (Z.ltb_lt _ _) (proj2 (val_range _ Hx))) in H. by apply Z.eqb_eq.
Qed.

Lemma equal_lists xs ys :
  words xs -> words ys ->
  val (drop (length xs) ys) = 0 /\ val (drop (length ys) xs) = 0
  /\ take (Nat.min (length xs) (length ys)) xs = take (Nat.min (length xs) (length ys)) ys <-> val xs = val ys.
Proof.
  intros Hx Hy. destruct (Nat.min_spec (length xs) (length ys)) as [[Hl ->]|[Hl ->]].
  - rewrite (drop_ge xs (length ys)) by lia. split.
    + intros (H1 & _ & H2). apply (split_eq (length xs)); try done; try lia. by rewrite drop_ge.
    + intros E. pose proof (beyond_zero _ _ Hx Hy E). split_and!; [done|done|].
      apply (split_eq (length xs)); try done; try lia. by rewrite drop_ge.
  - rewrite (drop_ge ys (length xs)) by lia. split.
    + intros (_ & H1 & H2). apply (split_eq (length ys)); try done; try lia. by rewrite drop_ge.
    + intros E. pose proof (beyond_zero _ _ Hy Hx (eq_sym E)). split_and!; [done|done|].
      apply (split_eq (length ys)); try done; try lia. by rewrite drop_ge.
Qed.

(** The words beyond those of the other number, all of them zero or not. *)
Lemma beyond_spec p l n mask :
  words_at (bns w) (p, 0) l -> words l ->
  exists m, or_words (Z.to_nat (lenZ l - Z.of_nat n)) (p, 0) (Z.of_nat n) mask w = Some (m, w)
    /\ (m = 0 <-> mask = 0 /\ val (drop n l) = 0).
Proof.
  intros Hp Hl. exists (or_list mask (drop n l)).
  replace (Z.to_nat (lenZ l - Z.of_nat n)) with (length (drop n l)) by (rewrite length_drop; lia).
  rewrite or_list_zero, val_zero_iff by auto with cint. split; [|done].
  destruct (Nat.le_gt_cases n (length l)) as [Hn|Hn].
  - apply or_words_spec. rewrite <-(length_take_le l n) at 1 by done.
    apply (words_at_app _ _ (take n l)). by rewrite take_drop.
  - by rewrite drop_ge by lia.
Qed.

Lemma BN_equal_consttime_spec :
  BN_equal_consttime a b w = Some (bool_decide (bn_abs ba = bn_abs bb /\ bn_neg ba = bn_neg bb), w).
Proof.
  unfold BN_equal_consttime. pstep get_bn_spec. pstep get_bn_spec.
  pose proof (words_at_limbs_0 a ba w Ha Hoka) as Hata. pose proof (words_at_limbs_0 b bb w Hb Hokb) as Hatb.
  pose proof (limbs_words _ Hoka) as Hwa. pose proof (limbs_words _ Hokb) as Hwb.
  rewrite <-(limbs_length _ Hoka), <-(limbs_length _ Hokb). unfold bn_abs.
  pose proof (bn_sign _ Hoka) as Hsa. pose proof (bn_sign _ Hokb) as Hsb.
  remember (limbs ba) as xs eqn:Exs. remember (limbs bb) as ys eqn:Eys. clear Exs Eys.
  destruct (beyond_spec b ys (length xs) 0 Hatb Hwb) as (m1 & E1 & H1). rewrite (part_bind_some _ _ _ _ _ E1).
  destruct (beyond_spec a xs (length ys) m1 Hata Hwa) as (m2 & E2 & H2). rewrite (part_bind_some _ _ _ _ _ E2).
  remember (Nat.min (length xs) (length ys)) as n eqn:Hn.
  assert (Et : Z.to_nat (if lenZ xs <? lenZ ys then lenZ xs else lenZ ys) = length (take n xs))
    by (rewrite length_take; case_bool; lia). rewrite Et.
  destruct (xor_words_spec (a, 0) (b, 0) 0 (take n xs) (take n ys) m2) as (m3 & E3 & H3).
  { rewrite at_0. by apply (words_at_app _ _ _ (drop n xs)); rewrite take_drop. }
  { rewrite at_0. by apply (words_at_app _ _ _ (drop n ys)); rewrite take_drop. }
  { rewrite !length_take. lia. }
  rewrite (part_bind_some _ _ _ _ _ E3). unfold mret, part_ret. do 2 f_equal.
  apply eq_bool_prop_intro. rewrite bool_decide_spec, Is_true_true, Z.eqb_eq, Z.lor_eq_0_iff, H3, H2, H1.
  assert (Hsign : u64 (Z.lxor (bn_neg ba) (bn_neg bb)) = 0 <-> bn_neg ba = bn_neg bb)
    by (by destruct Hsa as [-> | ->], Hsb as [-> | ->]). rewrite Hsign.
  assert (Hval : val (drop (length xs) ys) = 0 /\ val (drop (length ys) xs) = 0 /\ take n xs = take n ys
                 <-> val xs = val ys); [|tauto]. subst n. by apply equal_lists.
Qed.
End equal.

(** ** Powers of two *)

Lemma log2_limbs x v n :
  0 < x -> 0 <= v < bpow n -> Z.log2 (v + bpow n * x) = 64 * Z.of_nat n + Z.log2 x.
Proof.
  intros Hx Hv. pose proof (bit_length_limbs x v n Hx Hv) as H. unfold bit_length in H.
  pose proof (bpow_pos n). destruct (Z.eqb_spec x 0), (Z.eqb_spec (v + bpow n * x) 0); nia.
Qed.

Lemma is_pow2_word x :
  word x -> x <> 0 -> (0 =? Z.land x (u64 (x - 1))) = (x =? 2 ^ Z.log2 x).
Proof.
  unfold word. intros Hx Hx0. rewrite u64_small by lia. pose proof (Z.log2_spec x ltac:(lia)) as [H1 H2].
  pose proof (Z.log2_nonneg x) as Hk. unfold Z.succ in H2. rewrite Z.pow_add_r in H2 by lia.
  change (2 ^ 1) with 2 in H2. remember (Z.log2 x) as k eqn:Ek.
  destruct (Z.eqb_spec x (2 ^ k)) as [->|Hne].
  - rewrite Z.sub_1_r, <-Z.ones_equiv, Z.land_ones, Z_mod_same_full by lia. done.
  - apply Z.eqb_neq. intros E. assert (Hb : Z.testbit (Z.land x (x - 1)) k = true); [|by rewrite <-E, Z.bits_0 in Hb].
    rewrite Z.land_spec. apply andb_true_iff. split; [rewrite Ek; apply Z.bit_log2; lia|].
    replace k with (Z.log2 (x - 1)) at 1; [apply Z.bit_log2; lia|]. apply Z.log2_unique; [done|].
    unfold Z.succ. rewrite Z.pow_add_r by lia. change (2 ^ 1) with 2. lia.
Qed.

Section queries.
Context (a : Z) (ba : bignum) (w : bn_world).
Context (Ha : bns w !! a = Some ba) (Hok : bn_ok ba).

Lemma all_zero_loop_spec q i xs :
  words_at (bns w) (at_ q i) xs -> words xs ->
  all_zero_loop (length xs) q i w = Some (val xs =? 0, w).
Proof.
  intros Hat Hxs. revert i Hat. induction Hxs as [|x xs Hx Hxs IH]; intros i Hat; [done|].
  cbn [length all_zero_loop]. rewrite (part_bind_some _ _ _ _ _ (load_spec _ _ _ _ Hat)).
  pose proof (val_range _ Hxs). pose proof wbase_pos. unfold word in Hx. cbn [val].
  destruct (Z.eqb_spec x 0) as [->|Hne]; cbn [negb].
  - apply words_at_tail in Hat. rewrite at_at in Hat. rewrite (IH _ Hat). do 2 f_equal.
    destruct (Z.eqb_spec (val xs) 0), (Z.eqb_spec (0 + wbase * val xs) 0); nia.
  - unfold mret, part_ret. do 2 f_equal. symmetry. apply Z.eqb_neq. nia.
Qed.

Lemma BN_is_pow2_spec :
  no_neg_zero ba -> BN_is_pow2 a w = Some ((0 <? bn_val ba) && (bn_val ba =? 2 ^ Z.log2 (bn_val ba)), w).
Proof.
  intros Hz. unfold BN_is_pow2. rewrite (part_bind_some _ _ _ _ _ (bn_minimal_width_spec a ba w Ha Hok)).
  pstep get_neg_spec. pose proof (limbs_words _ Hok) as Hws. pose proof (significant_zero _ Hws) as Hsz.
  destruct (significant (limbs ba)) as [|n] eqn:E.
  { cbn [Z.of_nat Z.eqb orb]. assert (E0 : bn_val ba = 0); [|by rewrite E0].
    unfold bn_val, bn_abs. rewrite (proj1 Hsz eq_refl). by case_match. }
  pose proof (bn_abs_range _ Hok) as Hr. destruct (Z.eqb_spec (bn_neg ba) 0) as [Hn|Hn].
  2: { rewrite orb_true_r. unfold mret, part_ret. do 2 f_equal. symmetry. apply andb_false_iff. left.
       apply Z.ltb_ge. unfold bn_val. rewrite (proj2 (Z.eqb_neq _ _) Hn). lia. }
  destruct (Z.eqb_spec (Z.of_nat (S n)) 0) as [|_]; [lia|]. cbn [orb negb].
  destruct (top_word _ _ Hws E) as (x & Hx & Hx0 & Hv). pose proof (words_lookup _ _ _ Hws Hx) as Hxw.
  pose proof (lookup_lt_Some _ _ _ Hx) as Hlt.
  replace (Z.of_nat (S n) - 1) with (Z.of_nat n) by lia. rewrite Nat2Z.id.
  pose proof (words_at_limbs_0 a ba w Ha Hok) as Hat. rewrite <-(take_drop n (limbs ba)) in Hat.
  apply words_at_app in Hat as [Hat1 Hat2]. rewrite length_take_le, (drop_S _ _ _ Hx) in Hat2 by lia.
  replace n with (length (take n (limbs ba))) at 1 by (rewrite length_take; lia).
  erewrite part_bind_some by (apply all_zero_loop_spec; [by rewrite at_0|auto with cint]).
  assert (Ev : bn_val ba = val (take n (limbs ba)) + bpow n * x).
  { unfold bn_val. rewrite Hn. unfold bn_abs. by rewrite Hv. }
  pose proof (val_range_len (take n (limbs ba)) n ltac:(auto with cint) ltac:(rewrite length_take; lia)) as Hrt.
  pose proof (bpow_pos n) as Hp. rewrite Ev, log2_limbs by (unfold word in Hxw; lia).
  pose proof (Z.log2_nonneg x). rewrite Z.pow_add_r, <-bpow_pow2 by lia.
  assert (Hpos : 0 < val (take n (limbs ba)) + bpow n * x) by (unfold word in Hxw; nia).
  rewrite (proj2 (Z.ltb_lt _ _) Hpos). cbn [andb].
  destruct (Z.eqb_spec (val (take n (limbs ba))) 0) as [E0|E0]; cbn [negb].
  - unfold at_ in Hat2. cbn [fst snd] in Hat2. rewrite Z.add_0_l in Hat2. rewrite (part_bind_some _ _ _ _ _ (load_spec _ _ _ _ Hat2)).
    unfold mret, part_ret. rewrite is_pow2_word, E0 by done. do 2 f_equal.
    destruct (Z.eqb_spec x (2 ^ Z.log2 x)), (Z.eqb_spec (0 + bpow n * x) (bpow n * 2 ^ Z.log2 x)); nia.
  - unfold mret, part_ret. do 2 f_equal. symmetry. apply Z.eqb_neq. intros E1.
    assert (x = 2 ^ Z.log2 x \/ x < 2 ^ Z.log2 x \/ 2 ^ Z.log2 x < x) by lia. nia.
Qed.
End queries.

(** ** Comparison with a word *)

Section cmp_word.
Context (malloc : gmap Z bignum -> Z).
Context (a : Z) (ba : bignum) (w : bn_world).
Context (Ha : bns w !! a = Some ba) (Hok : bn_ok ba) (Hz : no_neg_zero ba) (Hna : a <> NULL).
Context (Hfresh : bns w !! malloc (bns w) = None) (Hnull : malloc (bns w) <> NULL).

Lemma BN_cmp_word_spec x : word x -> BN_cmp_word malloc a x w = Some (cmp_int (bn_val ba) x, w).
Proof.
  intros Hx. unfold BN_cmp_word, with_local. unfold new_object at 1.
  remember (malloc (bns w)) as p eqn:Ep. set (b := mk_bn [x] (Z.b2z (0 <? x)) 1 0 BN_FLG_STATIC_DATA).
  assert (Hokb : bn_ok b).
  { unfold bn_ok, b. destruct (0 <? x); (split_and!; [done|done|done|done|by apply words_singleton|by left]). }
  assert (Hv : bn_val b = x).
  { unfold bn_val, bn_abs, limbs, b. cbn [bn_neg bn_width bn_d Z.eqb]. unfold word in Hx.
    destruct (Z.ltb_spec 0 x); cbn [Z.b2z]; [|change (0 = x); lia]. change (take (Z.to_nat 1) [x]) with [x]. cbn [val]. lia. }
  erewrite part_bind_some by (rewrite <-Ep; reflexivity).
  erewrite part_bind_some.
  2: { apply (BN_cmp_spec a p ba b); try done; [cbn; rewrite lookup_insert_ne; [done|congruence]|apply bns_set]. }
  rewrite Hv. unfold delete_object. erewrite part_bind_some.
  2: { erewrite part_bind_some by (apply get_bn_spec; apply bns_set). reflexivity. }
  unfold mret, part_ret, set_bn. cbn [bns bn_oom]. rewrite delete_insert_id by done. by destruct w.
Qed.
End cmp_word.

(** ** The zero bits at the bottom *)

Lemma low_zero_block_spec n l bits :
  0 < n <= 32 -> word l -> l mod 2 ^ (2 * n) <> 0 ->
  let '(l', bits') := low_zero_block n (l, bits) in
  word l' /\ l' mod 2 ^ n <> 0 /\ bits <= bits' <= bits + n /\ l' * 2 ^ (bits' - bits) = l.
Proof.
  intros Hn Hl Hm. cbn [low_zero_block]. unfold BN_BITS2.
  assert (0 < 2 ^ n) by (apply Z.pow_pos_nonneg; lia).
  assert (0 < 2 ^ (64 - n)) by (apply Z.pow_pos_nonneg; lia).
  assert (Hs : u64 (Z.shiftl l (64 - n)) = 2 ^ (64 - n) * (l mod 2 ^ n)).
  { rewrite Z.shiftl_mul_pow2 by lia. unfold u64.
    assert (E : 2 ^ 64 = 2 ^ n * 2 ^ (64 - n)) by (rewrite <-Z.pow_add_r by lia; f_equal; lia). rewrite E.
    rewrite Z.mul_mod_distr_r by lia. lia. }
  pose proof (Z.mod_pos_bound l (2 ^ n) ltac:(lia)) as Hb.
  assert (Ez : (u64 (Z.shiftl l (64 - n)) =? 0) = (l mod 2 ^ n =? 0)).
  { rewrite Hs. destruct (Z.eqb_spec (l mod 2 ^ n) 0) as [->|]; [by rewrite Z.mul_0_r|]. apply Z.eqb_neq. nia. }
  assert (Hsr : word (Z.shiftr l n)).
  { unfold word in *. rewrite Z.shiftr_div_pow2 by lia. split; [apply Z.div_pos; lia|].
    eapply Z.le_lt_trans; [apply Z.div_le_upper_bound with (q := l); [lia|nia]|lia]. }
  rewrite is_zero_mask, Ez, select_mask by (done || apply u64_range).
  assert (Ep : 2 ^ (2 * n) = 2 ^ n * 2 ^ n) by (rewrite <-Z.pow_add_r by lia; f_equal; lia).
  pose proof (Z.div_mod l (2 ^ n) ltac:(lia)) as Hdm. destruct (Z.eqb_spec (l mod 2 ^ n) 0) as [E0|E0]; cbn [mask_w].
  - change (2 ^ 64 - 1) with (Z.ones 64). rewrite Z.land_ones, (Z.mod_small n), Z.shiftr_div_pow2 in * by lia.
    replace (bits + n - bits) with n by lia. split_and!; [apply Hsr| |lia|lia|lia].
    intros E1. apply Hm. rewrite Ep, Z.rem_mul_r by lia. rewrite E0, E1. lia.
  - rewrite Z.land_0_r, Z.add_0_r, Z.sub_diag. split_and!; [apply Hl|done|lia|lia|lia].
Qed.

Lemma bn_count_low_zero_bits_word_spec l :
  word l -> l <> 0 ->
  0 <= bn_count_low_zero_bits_word l < 64
  /\ exists m, Z.odd m = true /\ l = m * 2 ^ bn_count_low_zero_bits_word l.
Proof.
  unfold bn_count_low_zero_bits_word. intros Hl H0.
  pose proof (low_zero_block_spec 32 l 0 ltac:(lia) Hl) as H32. rewrite Z.mod_small in H32 by done.
  destruct (low_zero_block 32 (l, 0)) as [l1 b1]. destruct (H32 H0) as (H1 & M1 & B1 & E1).
  pose proof (low_zero_block_spec 16 l1 b1 ltac:(lia) H1 M1) as H16.
  destruct (low_zero_block 16 (l1, b1)) as [l2 b2]. destruct H16 as (H2 & M2 & B2 & E2).
  pose proof (low_zero_block_spec 8 l2 b2 ltac:(lia) H2 M2) as H8.
  destruct (low_zero_block 8 (l2, b2)) as [l3 b3]. destruct H8 as (H3 & M3 & B3 & E3).
  pose proof (low_zero_block_spec 4 l3 b3 ltac:(lia) H3 M3) as H4'.
  destruct (low_zero_block 4 (l3, b3)) as [l4 b4]. destruct H4' as (H4 & M4 & B4 & E4).
  pose proof (low_zero_block_spec 2 l4 b4 ltac:(lia) H4 M4) as H5'.
  destruct (low_zero_block 2 (l4, b4)) as [l5 b5]. destruct H5' as (H5 & M5 & B5 & E5).
  pose proof (low_zero_block_spec 1 l5 b5 ltac:(lia) H5 M5) as H6'.
  destruct (low_zero_block 1 (l5, b5)) as [l6 b6]. destruct H6' as (H6 & M6 & B6 & E6). cbn [snd].
  split; [lia|]. exists l6. split.
  - change (2 ^ 1) with 2 in M6. rewrite Zmod_odd in M6. by destruct (Z.odd l6).
  - rewrite <-E1, <-E2, <-E3, <-E4, <-E5, <-E6, <-!Z.mul_assoc, <-!Z.pow_add_r by lia. do 2 f_equal. lia.
Qed.

(** [v] is an odd number times [2 ^ c]. *)
Definition trailing_zeros (v c : Z) : Prop := 0 <= c /\ exists m, Z.odd m = true /\ v = m * 2 ^ c.

Lemma trailing_zeros_first x v c :
  c < 64 -> trailing_zeros x c -> trailing_zeros (x + wbase * v) c.
Proof.
  intros Hc (Hc0 & m & Hm & ->). split; [done|]. exists (m + 2 * (2 ^ (63 - c) * v)). split.
  - rewrite Z.odd_add_mul_2. done.
  - assert (E : wbase = 2 * 2 ^ (63 - c) * 2 ^ c).
    { change 2 with (2 ^ 1) at 1. rewrite <-!Z.pow_add_r by lia. unfold wbase. f_equal. lia. }
    rewrite E. ring.
Qed.

Lemma trailing_zeros_next v c : trailing_zeros v c -> trailing_zeros (0 + wbase * v) (64 + c).
Proof.
  intros (Hc0 & m & Hm & ->). split; [lia|]. exists m. split; [done|]. rewrite Z.pow_add_r by lia.
  change (2 ^ 64) with wbase. ring.
Qed.

Lemma nonzero_mask x : word x -> u64 (Z.lnot (constant_time_is_zero_w x)) = mask_w (negb (x =? 0)).
Proof. intros Hx. rewrite is_zero_mask by done. by destruct (x =? 0). Qed.

(** One iteration, for the two values of [saw_nonzero]. *)
Lemma low_zero_body x i ret (saw : bool) :
  word x -> 0 <= i <= BN_MAX_WORDS -> 0 <= ret < 2 ^ 31 -> (saw = false -> ret = 0) ->
  s32 (Z.lor ret (Z.land (Z.land (u64 (Z.lnot (mask_w saw))) (mask_w (negb (x =? 0))))
         (i * BN_BITS2 + bn_count_low_zero_bits_word x)))
  = if saw then ret else if x =? 0 then 0 else i * 64 + bn_count_low_zero_bits_word x.
Proof.
  intros Hx Hi Hret Hs. change BN_MAX_WORDS with 8388607 in Hi. unfold BN_BITS2.
  assert (Hs32 : forall z, 0 <= z < 2 ^ 31 -> s32 z = z).
  { intros z Hz. unfold s32, to_signed. rewrite Z.mod_small by lia. by rewrite (proj2 (Z.ltb_lt _ _)) by lia. }
  destruct saw; [by rewrite Z.lor_0_r, Hs32|]. rewrite (Hs eq_refl), Z.lor_0_l.
  destruct (Z.eqb_spec x 0) as [->|Hx0]; [done|].
  destruct (bn_count_low_zero_bits_word_spec x Hx Hx0) as [Hc _].
  replace (Z.land (u64 (Z.lnot (mask_w false))) (mask_w (negb false))) with (Z.ones 64) by done.
  rewrite Z.land_comm, Z.land_ones, Z.mod_small by lia. apply Hs32. lia.
Qed.

Section count.
Context (a : Z) (w : bn_world).

Lemma low_zero_loop_seen xs i ret :
  words_at (bns w) (a, i) xs -> words xs -> 0 <= i -> i + lenZ xs <= BN_MAX_WORDS -> 0 <= ret < 2 ^ 31 ->
  low_zero_loop (length xs) a i ret (mask_w true) w = Some (ret, w).
Proof.
  intros Hat Hxs. revert i Hat. induction Hxs as [|x xs Hx Hxs IH]; intros i Hat Hi Hm Hret; [done|].
  cbn [length low_zero_loop] in *. rewrite (part_bind_some _ _ _ _ _ (load_spec _ _ _ _ Hat)).
  rewrite nonzero_mask, (low_zero_body x i ret true) by (done || lia).
  replace (Z.lor (mask_w true) (mask_w (negb (x =? 0)))) with (mask_w true) by (by destruct (x =? 0)).
  apply IH; try lia. exact (words_at_tail _ (a, i) _ _ Hat).
Qed.

Lemma low_zero_loop_spec xs i :
  words_at (bns w) (a, i) xs -> words xs -> 0 <= i -> i + lenZ xs <= BN_MAX_WORDS ->
  exists r, low_zero_loop (length xs) a i 0 (mask_w false) w = Some (r, w)
    /\ (val xs = 0 -> r = 0) /\ (val xs <> 0 -> i * 64 <= r /\ trailing_zeros (val xs) (r - i * 64)).
Proof.
  intros Hat Hxs. revert i Hat. induction Hxs as [|x xs Hx Hxs IH]; intros i Hat Hi Hm; [by exists 0|].
  cbn [length low_zero_loop] in *. rewrite (part_bind_some _ _ _ _ _ (load_spec _ _ _ _ Hat)).
  rewrite nonzero_mask, (low_zero_body x i 0 false) by (done || lia).
  apply (words_at_tail _ (a, i)) in Hat. cbn [val]. pose proof (val_range _ Hxs) as Hv. pose proof wbase_pos.
  destruct (Z.eqb_spec x 0) as [->|Hx0]; cbn [negb].
  - replace (Z.lor (mask_w false) (mask_w false)) with (mask_w false) by done.
    destruct (IH (i + 1) Hat ltac:(lia) ltac:(lia)) as (r & E & H0 & H1). exists r. split; [done|]. split.
    + intros Ev. apply H0. nia.
    + intros Ev. destruct H1 as [Hr Ht]; [nia|]. split; [lia|].
      replace (r - i * 64) with (64 + (r - (i + 1) * 64)) by lia. by apply trailing_zeros_next.
  - replace (Z.lor (mask_w false) (mask_w true)) with (mask_w true) by done.
    destruct (bn_count_low_zero_bits_word_spec x Hx Hx0) as [Hc Hodd].
    change BN_MAX_WORDS with 8388607 in *.
    eexists. split; [apply low_zero_loop_seen; [done|done|lia|change BN_MAX_WORDS with 8388607; lia|lia]|].
    split; [unfold word in Hx; intros; nia|]. intros _. split; [lia|].
    replace (i * 64 + bn_count_low_zero_bits_word x - i * 64) with (bn_count_low_zero_bits_word x) by lia.
    apply trailing_zeros_first; [lia|]. split; [lia|done].
Qed.

Lemma BN_count_low_zero_bits_spec ba :
  bns w !! a = Some ba -> bn_ok ba ->
  exists r, BN_count_low_zero_bits a w = Some (r, w)
    /\ (bn_abs ba = 0 -> r = 0) /\ (bn_abs ba <> 0 -> trailing_zeros (bn_abs ba) r).
Proof.
  intros Ha Hok. unfold BN_count_low_zero_bits. pstep get_width_spec.
  pose proof (limbs_length _ Hok) as Hll. pose proof (proj1 Hok). pose proof (proj1 (proj2 (proj2 Hok))).
  destruct (low_zero_loop_spec (limbs ba) 0) as (r & E & Hz & Hnz).
  { by apply words_at_limbs_0. } { by apply limbs_words. } { done. } { lia. }
  rewrite <-Hll, Nat2Z.id. exists r. split_and!; [exact E|exact Hz|].
  intros Hne. destruct (Hnz Hne) as [_ Ht]. by rewrite Z.sub_0_r in Ht.
Qed.
End count.
