(* ===== verification/BnBytesSpec.v ===== *)
(** * Big numbers: conversion from and to bytes *)
From S2P Require Export CbsSpec BnBytes BnQuery.

(** ** Words as bytes *)

Lemma length_words_bytes l : length (words_bytes l) = (8 * length l)%nat.
Proof.
  induction l as [|x l IH]; [done|]. unfold words_bytes in *. cbn [map concat length].
  rewrite length_app, IH, length_le_split. lia.
Qed.

Lemma words_bytes_bytes l : bytes (words_bytes l).
Proof.
  induction l as [|x l IH]; [constructor|]. unfold words_bytes. cbn [map concat].
  apply bytes_app. split; [apply le_split_bytes|done].
Qed.

Lemma words_bytes_cons x l : words_bytes (x :: l) = le_split 8 x ++ words_bytes l.
Proof. done. Qed.

Lemma words_bytes_value l : words l -> le_combine (words_bytes l) = val l.
Proof.
  induction 1 as [|x l Hx Hl IH]; [done|]. rewrite words_bytes_cons, le_combine_app, IH.
  rewrite le_combine_split, length_le_split. cbn [val]. unfold wbase, word in *.
  change (8 * Z.of_nat 8) with 64. by rewrite Z.mod_small.
Qed.

Lemma le_combine_zero_iff l : bytes l -> le_combine l = 0 <-> Forall (fun b => b = 0) l.
Proof.
  induction 1 as [|b l Hb Hl IH]; [done|]. cbn [le_combine]. rewrite Forall_cons, <-IH.
  pose proof (le_combine_range l Hl). unfold is_byte in Hb. lia.
Qed.

(** The bytes of a number beyond the first [n] are zero when it has at most [n]. *)
Lemma bytes_fit l n :
  bytes l -> (le_combine (drop n l) =? 0) = (le_combine l <? 2 ^ (8 * Z.of_nat n)).
Proof.
  intros Hl. rewrite <-(take_drop n l) at 2. rewrite le_combine_app.
  pose proof (le_combine_range (take n l) ltac:(by apply Forall_take)) as Ht.
  pose proof (le_combine_range (drop n l) ltac:(by apply Forall_drop)) as Hd.
  destruct (Nat.le_gt_cases (length l) n) as [Hn|Hn].
  - rewrite drop_ge in * by lia. rewrite take_ge in * by lia. cbn [le_combine].
    assert (2 ^ (8 * lenZ l) <= 2 ^ (8 * Z.of_nat n)) by (apply Z.pow_le_mono_r; lia).
    destruct (Z.ltb_spec (le_combine l + 2 ^ (8 * lenZ l) * 0) (2 ^ (8 * Z.of_nat n))); [done|lia].
  - rewrite length_take_le in * by lia. assert (0 < 2 ^ (8 * Z.of_nat n)) by (apply Z.pow_pos_nonneg; lia).
    destruct (Z.eqb_spec (le_combine (drop n l)) 0), (Z.ltb_spec (le_combine (take n l) + 2 ^ (8 * Z.of_nat n) * le_combine (drop n l)) (2 ^ (8 * Z.of_nat n))); nia.
Qed.

Lemma fits_in_bytes_spec l n :
  words l -> 0 <= n -> fits_in_bytes l n = (val l <? 2 ^ (8 * n)).
Proof.
  intros Hl Hn. unfold fits_in_bytes. fold (or_list 0 (drop (Z.to_nat n) (words_bytes l))).
  pose proof (words_bytes_bytes l) as Hb. rewrite <-(words_bytes_value l Hl).
  replace (8 * n) with (8 * Z.of_nat (Z.to_nat n)) by lia. rewrite <-bytes_fit by done.
  apply eq_bool_prop_intro. rewrite !Is_true_true, !Z.eqb_eq, or_list_zero, le_combine_zero_iff
    by (by apply Forall_drop). tauto.
Qed.

(** ** To bytes *)

(** The bytes of a number, zeros after them. *)
Lemma le_split_pad l m :
  bytes l -> (length l <= m)%nat -> le_split m (le_combine l) = l ++ replicate (m - length l) 0.
Proof.
  intros Hl Hm. assert (Hz : le_combine (replicate (m - length l) 0) = 0).
  { apply le_combine_zero_iff; by apply Forall_replicate. }
  replace (le_combine l) with (le_combine (l ++ replicate (m - length l) 0)) by (rewrite le_combine_app, Hz; lia).
  replace m with (length (l ++ replicate (m - length l) 0)) at 1 by (rewrite length_app, length_replicate; lia).
  apply le_split_combine. apply bytes_app. split; [done|by apply Forall_replicate].
Qed.

Lemma rev_is_reverse {A} (l : list A) : rev l = reverse l.
Proof. apply rev_alt. Qed.

Lemma reverse_loop_spec l i out :
  (i + length l <= length out)%nat ->
  length (reverse_loop l (Z.of_nat i) (lenZ out) out) = length out
  /\ forall k, reverse_loop l (Z.of_nat i) (lenZ out) out !! k
       = if decide (length out - i - length l <= k < length out - i)%nat
         then l !! (length out - i - 1 - k)%nat else out !! k.
Proof.
  revert i out. induction l as [|b l IH]; intros i out Hl; cbn [reverse_loop length] in *.
  { split; [done|]. intros k. by rewrite decide_False by lia. }
  replace (Z.to_nat (lenZ out - Z.of_nat i - 1)) with (length out - i - 1)%nat by lia.
  replace (Z.of_nat i + 1) with (Z.of_nat (S i)) by lia.
  destruct (IH (S i) (<[(length out - i - 1)%nat := b]> out)) as [E1 E2]; [rewrite length_insert; lia|].
  rewrite length_insert in E1, E2. split; [done|]. intros k. rewrite E2. clear E1 E2 IH.
  destruct (decide (k = (length out - i - 1)%nat)) as [->|Hne].
  - rewrite decide_False, decide_True by lia. rewrite list_lookup_insert_eq by lia.
    by replace (length out - i - 1 - (length out - i - 1))%nat with 0%nat by lia.
  - rewrite list_lookup_insert_ne by lia. repeat case_decide; try lia; [|done].
    replace (length out - i - 1 - k)%nat with (S (length out - S i - 1 - k)) by lia. done.
Qed.

Lemma reversed l out :
  (length l <= length out)%nat ->
  drop (length out - length l) (reverse_loop l 0 (lenZ out) out) = rev l.
Proof.
  intros Hl. destruct (reverse_loop_spec l 0 out ltac:(lia)) as [E1 E2]. apply list_eq. intros k.
  rewrite lookup_drop, E2. destruct (decide (k < length l)%nat) as [Hk|Hk].
  - rewrite decide_True by lia. symmetry.
    destruct (lookup_lt_is_Some_2 l (length l - S k)) as [x Hx]; [lia|].
    rewrite rev_is_reverse, reverse_lookup by done. f_equal. lia.
  - rewrite decide_False by lia. symmetry. rewrite lookup_ge_None_2 by (rewrite length_rev; lia).
    symmetry. apply lookup_ge_None_2. lia.
Qed.

Lemma bn_words_to_big_endian_spec out l :
  words l ->
  bn_words_to_big_endian out l
  = if val l <? 2 ^ (8 * lenZ out) then Some (be_bytes (length out) (val l)) else None.
Proof.
  intros Hl. unfold bn_words_to_big_endian. rewrite fits_in_bytes_spec by (done || lia).
  destruct (Z.ltb_spec (val l) (2 ^ (8 * lenZ out))) as [Hv|Hv]; cbn [negb]; [|done]. f_equal.
  pose proof (words_bytes_bytes l) as Hb. unfold BN_BYTES.
  remember (Z.to_nat (if lenZ out <? lenZ l * 8 then lenZ out else lenZ l * 8)) as n eqn:Hn.
  replace (if lenZ out <? lenZ l * 8 then lenZ out else lenZ l * 8) with (Z.of_nat n)
    by (subst n; case_bool; lia).
  assert (Hno : (n <= length out)%nat /\ (n <= length (words_bytes l))%nat /\ (n = length out \/ n = length (words_bytes l))).
  { rewrite length_words_bytes. subst n. case_bool; lia. }
  destruct Hno as (Hno & Hnl & Hcase).
  assert (Hlen : length (take n (words_bytes l)) = n) by (rewrite length_take; lia).
  replace (Z.to_nat (lenZ out - Z.of_nat n)) with (length out - length (take n (words_bytes l)))%nat at 2 by lia.
  rewrite reversed by lia.
  assert (Hval : le_combine (take n (words_bytes l)) = val l).
  { pose proof (bytes_fit (words_bytes l) n Hb) as Hf. rewrite words_bytes_value in Hf by done.
    assert (Hlt : val l < 2 ^ (8 * Z.of_nat n)).
    { destruct Hcase as [-> | ->]; [done|]. rewrite <-(words_bytes_value l Hl). by apply le_combine_range. }
    rewrite (proj2 (Z.ltb_lt _ _) Hlt) in Hf. apply Z.eqb_eq in Hf.
    rewrite <-(words_bytes_value l Hl). rewrite <-(take_drop n (words_bytes l)) at 2.
    rewrite le_combine_app, Hf. lia. }
  unfold be_bytes. rewrite <-Hval, le_split_pad by (try (by apply Forall_take); lia).
  rewrite rev_app_distr, Hlen. f_equal.
  replace (Z.to_nat (lenZ out - Z.of_nat n)) with (length out - n)%nat by lia.
  symmetry. by rewrite rev_is_reverse, reverse_replicate.
Qed.

(** ** From big-endian bytes *)

Lemma be_value_app l1 l2 : be_value (l1 ++ l2) = be_value l2 + 2 ^ (8 * lenZ l2) * be_value l1.
Proof. unfold be_value. by rewrite rev_app_distr, le_combine_app, length_rev. Qed.

Lemma load_word_be l : bytes l -> length l = 8%nat -> CRYPTO_load_word_be l = be_value l /\ word (be_value l).
Proof.
  intros Hb Hl. split.
  - unfold CRYPTO_load_word_be, CRYPTO_bswap8, byte_swap, be_value. rewrite <-Hl. by rewrite le_split_combine.
  - pose proof (be_value_range l Hb) as H. by rewrite Hl in H.
Qed.

(** The bits of the first bytes. *)
Lemma partial_word l acc :
  bytes l -> 0 <= acc -> (acc + 1) * 2 ^ (8 * lenZ l) <= 2 ^ 64 ->
  fold_left (fun word b => Z.lor (u64 (Z.shiftl word 8)) b) l acc = acc * 2 ^ (8 * lenZ l) + be_value l.
Proof.
  intros Hl. revert acc. induction Hl as [|b l Hb Hl IH]; intros acc Ha Hr.
  { cbn [fold_left length]. unfold be_value. cbn. lia. }
  cbn [fold_left]. change (b :: l) with ([b] ++ l) in *. rewrite be_value_app. rewrite length_app in *. cbn [length] in *.
  replace (8 * Z.of_nat (1 + length l)) with (8 + 8 * lenZ l) in * by lia.
  rewrite Z.pow_add_r in * by lia. change (2 ^ 8) with 256 in *.
  assert (0 < 2 ^ (8 * lenZ l)) by (apply Z.pow_pos_nonneg; lia). unfold is_byte in Hb.
  assert ((acc + 1) * 256 <= (acc + 1) * (256 * 2 ^ (8 * lenZ l))) by nia.
  assert (E : Z.lor (u64 (Z.shiftl acc 8)) b = acc * 256 + b).
  { rewrite Z.shiftl_mul_pow2 by lia. change (2 ^ 8) with 256. rewrite u64_small by lia.
    rewrite Z.lor_comm, (lor_add b (acc * 256) 8); [lia|lia|done|]. apply Z_mod_mult. }
  assert ((acc * 256 + b + 1) * 2 ^ (8 * lenZ l) <= (acc + 1) * 256 * 2 ^ (8 * lenZ l))
    by (apply Z.mul_le_mono_nonneg_r; lia).
  rewrite E, IH by lia. change (be_value [b]) with (b + 256 * 0). lia.
Qed.

(** [n] words at a pointer. *)
Definition at_words (q : words_ptr) (b : bignum) (n : Z) : Prop := 0 <= q.2 /\ 0 <= n /\ q.2 + n <= lenZ (bn_d b).

Lemma load_be_words_spec fuel out n inp b w :
  (length inp <= fuel)%nat -> bytes inp -> bns w !! out.1 = Some b -> at_words out b n -> n < 2 ^ 32 ->
  lenZ inp <= 8 * n ->
  exists ws rest, load_words fuel out n inp w
      = Some ((at_ out (lenZ ws), n - lenZ ws, rest), set_bn out.1 (with_words out.2 ws b) w)
    /\ (length rest < 8)%nat /\ words ws /\ bytes rest /\ length inp = (length rest + 8 * length ws)%nat
    /\ be_value inp = val ws + bpow (length ws) * be_value rest.
Proof.
  revert out n inp b w. induction fuel as [|fuel IH]; intros out n inp b w Hf Hb Hr Hat Hn Hl; cbn [load_words];
    unfold BN_BYTES; destruct (Z.ltb_spec (lenZ inp) 8) as [H8|H8]; try lia.
  1, 2: exists [], inp; rewrite with_words_nil, set_bn_id, at_0, Z.sub_0_r by done;
    (split_and!; [done|lia|constructor|done|cbn; lia|cbn [val length]; rewrite bpow_0; lia]).
  remember (Z.to_nat (lenZ inp - 8)) as k eqn:Hk. destruct Hat as (H0 & H1 & H2).
  assert (Hd : length (drop k inp) = 8%nat) by (rewrite length_drop; lia).
  destruct (load_word_be (drop k inp) ltac:(by apply Forall_drop) Hd) as [Ew Hw]. rewrite Ew.
  erewrite part_bind_some by (apply (store_spec out _ b); [done|lia]). rewrite store_with_words.
  rewrite u64_small by (unfold word; lia).
  destruct (IH (at_ out 1) (n - 1) (take k inp) (with_words out.2 [be_value (drop k inp)] b)
              (set_bn out.1 (with_words out.2 [be_value (drop k inp)] b) w))
    as (ws & rest & E & Hrest & Hws & Hbr & Hlen & Hv).
  { rewrite length_take. lia. }
  { by apply Forall_take. }
  { apply bns_set. }
  { unfold at_words, at_. cbn [fst snd]. rewrite with_words_length. lia. }
  { lia. }
  { rewrite length_take. lia. }
  exists (be_value (drop k inp) :: ws), rest. rewrite E. change (at_ out 1).1 with out.1. change (at_ out 1).2 with (out.2 + 1).
  rewrite set_bn_twice, at_at, (with_words_append out.2 (out.2 + 1)) by (done || cbn; lia).
  rewrite length_take in Hlen.
  split_and!; [|done|by constructor|done|cbn [length]; lia|].
  - cbn [length app]. rewrite Nat2Z.inj_succ, <-Z.add_1_l. do 4 f_equal. lia.
  - rewrite <-(take_drop k inp) at 1. rewrite be_value_app, Hd, Hv. cbn [val length]. rewrite bpow_S.
    change (2 ^ (8 * Z.of_nat 8)) with wbase. lia.
Qed.

Lemma bn_big_endian_to_words_spec r n inp b w :
  bytes inp -> bns w !! r = Some b -> at_words (r, 0) b n -> n < 2 ^ 32 -> lenZ inp <= 8 * n ->
  exists l, bn_big_endian_to_words (r, 0) n inp w = Some (tt, set_bn r (with_words 0 l b) w)
    /\ words l /\ lenZ l = n /\ val l = be_value inp.
Proof.
  intros Hb Hr Hat Hn Hl. unfold bn_big_endian_to_words, BN_BYTES.
  assert (Hn0 : 0 <= n) by apply Hat. rewrite u64_small by (unfold word; lia).
  destruct (Z.leb_spec (lenZ inp) (n * 8)); [cbn [negb]|lia].
  destruct (load_be_words_spec (length inp) (r, 0) n inp b w) as (ws & rest & E & Hrest & Hws & Hbr & Hlen & Hv);
    try done.
  rewrite (part_bind_some _ _ _ _ _ E). change (at_ (r, 0) (lenZ ws)) with (r, 0 + lenZ ws). rewrite Z.add_0_l.
  cbn [fst snd]. destruct Hat as (_ & _ & Hroom). cbn [snd] in Hroom.
  assert (Hv0 : forall m, val (replicate m 0) = 0) by (intros; apply val_zeros).
  destruct (Z.eqb_spec (lenZ rest) 0) as [E0|E0]; cbn [negb].
  - erewrite part_bind_some by reflexivity. destruct rest; [|cbn in E0; lia].
    exists (ws ++ replicate (Z.to_nat (n - lenZ ws)) 0). rewrite length_app, length_replicate.
    cbn [length] in Hlen. unfold be_value in Hv at 2. cbn in Hv. rewrite Z.mul_0_r, Z.add_0_r in Hv.
    split_and!; [|apply words_app; split; [done|apply words_zeros]|lia|by rewrite val_app, Hv0, Hv; lia].
    erewrite zero_words_spec by (first [apply bns_set | lia | unfold room; rewrite with_words_length; cbn; lia]).
    rewrite set_bn_twice. cbn [fst snd]. by rewrite (with_words_append 0 (lenZ ws)) by lia.
  - assert (Hlt : lenZ ws < n) by lia.
    rewrite partial_word; [|done|done|].
    2: { rewrite Z.mul_1_l. apply Z.pow_le_mono_r; lia. }
    rewrite Z.mul_0_l, Z.add_0_l. pose proof (be_value_range rest Hbr) as Hrange.
    assert (Hw : word (be_value rest)).
    { unfold word. pose proof (Z.pow_le_mono_r 2 (8 * lenZ rest) 64). lia. }
    erewrite part_bind_some.
    2: { erewrite part_bind_some by (apply (store_spec (r, lenZ ws)); [apply bns_set|rewrite with_words_length; cbn; lia]).
         rewrite store_with_words, set_bn_twice. cbn [fst snd]. rewrite (with_words_append 0 (lenZ ws)) by lia.
         rewrite u64_small by lia. reflexivity. }
    change (at_ (r, lenZ ws) 1) with (r, lenZ ws + 1).
    exists ((ws ++ [be_value rest]) ++ replicate (Z.to_nat (n - lenZ ws - 1)) 0).
    rewrite !length_app, length_replicate. cbn [length].
    split_and!; [| |lia|].
    + erewrite zero_words_spec by (first [apply bns_set | lia | unfold room; rewrite with_words_length; cbn; lia]).
      rewrite set_bn_twice. cbn [fst snd]. rewrite (with_words_append 0 (lenZ ws + 1)); [done|lia|].
      rewrite length_app. cbn [length]. lia.
    + apply words_app. split; [|apply words_zeros]. apply words_app. split; [done|by apply words_singleton].
    + rewrite val_app, Hv0, val_app, Hv. cbn [val]. lia.
Qed.

(** An operation that returns its object, or [NULL]. *)
Definition outcome_ptr (r : Z) (br : bignum) (w : bn_world) (R : Prop) (P : bignum -> Prop)
    (res : option (Z * bn_world)) : Prop :=
  exists ok b' o,
    res = Some (if ok : bool then r else NULL, mk_bn_world (<[r := b']> (bns w)) o)
    /\ bn_ok b' /\ bn_flags b' = bn_flags br /\ oom_after w o
    /\ if ok : bool then P b' else R.

Section into.
Context (malloc : gmap Z bignum -> Z).
Context (r : Z) (br : bignum) (w : bn_world).
Context (Hr : bns w !! r = Some br) (Hok : bn_ok br) (Hown : owned br) (Hnull : r <> NULL).

(** The words [inp] needs. *)
Definition bytes_room (inp : list Z) : Prop := no_room w ((lenZ inp - 1) / 8 + 1).

Lemma words_for (inp : list Z) : inp <> [] ->
  0 < (lenZ inp - 1) / 8 + 1
  /\ 8 * ((lenZ inp - 1) / 8 + 1 - 1) < lenZ inp <= 8 * ((lenZ inp - 1) / 8 + 1).
Proof. destruct inp; [done|]. cbn [length]. intros _. div_lia. Qed.

(** Of no bytes, the sign is left as it was. *)
Lemma BN_bin2bn_spec inp :
  bytes inp ->
  outcome_ptr r br w (bytes_room inp)
    (fun b' => bn_abs b' = be_value inp /\ bn_neg b' = (if inp is [] then bn_neg br else 0))
    (BN_bin2bn malloc inp r w).
Proof.
  intros Hb. unfold BN_bin2bn. rewrite (proj2 (Z.eqb_neq r NULL) Hnull).
  erewrite part_bind_some by reflexivity. cbn beta iota. rewrite (proj2 (Z.eqb_neq r NULL) Hnull).
  destruct (Z.eqb_spec (lenZ inp) 0) as [E0|E0].
  { destruct inp; [|cbn in E0; lia]. erewrite part_bind_some by (by apply bn_update_spec).
    exists true, (with_width 0 br), (bn_oom w). pose proof (proj1 Hok).
    split_and!; [done|apply with_width_ok; [done|lia]|done|by left|done|done]. }
  destruct (words_for inp) as [Hn Hfit]; [by intros ->|]. unfold BN_BYTES.
  remember ((lenZ inp - 1) / 8 + 1) as n eqn:En. unfold bytes_room. rewrite <-En.
  destruct (wexpand_spec r n br w Hr Hok Hown) as (ok & b1 & o & E & Hexp & Ho & Hroom).
  rewrite (part_bind_some _ _ _ _ _ E). pose proof Hexp as (Hok1 & Hw1 & Hs1 & Hf1 & Hl1 & Hd1).
  destruct ok; cbn [negb].
  2: { erewrite part_bind_some by reflexivity. by exists false, b1, o. }
  pose proof (proj1 (proj2 (proj2 Hok1))) as Hmax. change BN_MAX_WORDS with 8388607 in Hmax.
  unfold INT_MAX. rewrite (proj2 (Z.leb_le _ _)) by lia. erewrite part_bind_some by reflexivity.
  erewrite part_bind_some by (apply bn_update_spec; apply lookup_insert_eq). rewrite set_bn_mk, insert_insert_eq.
  erewrite part_bind_some by (apply bn_update_spec; apply lookup_insert_eq). rewrite set_bn_mk, insert_insert_eq.
  erewrite part_bind_some by (apply get_width_spec; apply lookup_insert_eq).
  set (b2 := with_neg 0 (with_width n b1)). change (bn_width b2) with n.
  assert (Hok2 : bn_ok b2) by (apply with_neg_ok; [apply with_width_ok; [done|lia]|by left]).
  destruct (bn_big_endian_to_words_spec r n inp b2 (mk_bn_world (<[r := b2]> (bns w)) o))
    as (l & El & Hl & Hll & Hv); [done|apply lookup_insert_eq| |lia|lia|].
  { unfold at_words. cbn [snd]. pose proof (proj1 (proj2 Hok1)). change (bn_d b2) with (bn_d b1). lia. }
  rewrite (part_bind_some _ _ _ _ _ El), set_bn_mk, insert_insert_eq.
  exists true, (with_words 0 l b2), o. split_and!; [done|by auto with cint|done|done| |by destruct inp].
  unfold bn_abs. by rewrite limbs_with_words.
Qed.
End into.

(** ** From little-endian bytes *)

Lemma bytes_words_value l fuel :
  bytes l -> length l = (8 * fuel)%nat ->
  words (bytes_words fuel l) /\ length (bytes_words fuel l) = fuel /\ val (bytes_words fuel l) = le_combine l.
Proof.
  revert l. induction fuel as [|fuel IH]; intros l Hb Hl.
  { destruct l; [|cbn in Hl; lia]. split_and!; [constructor|done|done]. }
  destruct l as [|b l]; [cbn in Hl; lia|]. cbn [bytes_words].
  remember (b :: l) as l' eqn:El. clear El b l.
  destruct (IH (drop 8 l')) as (Hw & Hn & Hv); [by apply Forall_drop|rewrite length_drop; lia|].
  pose proof (le_combine_range (take 8 l') ltac:(by apply Forall_take)) as Hr.
  rewrite length_take_le in Hr by lia. split_and!; [constructor; [exact Hr|done]|cbn [length]; lia|].
  cbn [val]. rewrite Hv. rewrite <-(take_drop 8 l') at 3. rewrite le_combine_app, length_take_le by lia. done.
Qed.

(** Some words, and the bytes of the others. *)
Lemma bytes_words_prefix n l fuel :
  (n <= fuel)%nat -> length l = (8 * fuel)%nat ->
  take n (bytes_words fuel l) = bytes_words n (take (8 * n) l).
Proof.
  revert n l. induction fuel as [|fuel IH]; intros n l Hn Hl; [by destruct n, l|].
  destruct n as [|n]; [done|]. destruct l as [|b l]; [cbn in Hl; lia|].
  remember (b :: l) as l' eqn:El. assert (E : take (8 * S n) l' = b :: take (8 * n + 7) l).
  { subst l'. replace (8 * S n)%nat with (S (8 * n + 7)) by lia. done. }
  rewrite E. subst l'. cbn [bytes_words]. rewrite <-E.
  cbn [take]. f_equal; [|rewrite IH by (rewrite ?length_drop; lia)].
  - rewrite take_take. replace (8 `min` (8 * S n))%nat with 8%nat by lia. done.
  - f_equal. rewrite skipn_firstn_comm. f_equal. lia.
Qed.

Lemma words_bytes_app l1 l2 : words_bytes (l1 ++ l2) = words_bytes l1 ++ words_bytes l2.
Proof. unfold words_bytes. by rewrite map_app, concat_app. Qed.

Lemma take_words_bytes n l : take (8 * n) (words_bytes l) = words_bytes (take n l).
Proof.
  destruct (Nat.le_gt_cases (length l) n) as [Hn|Hn].
  - rewrite !take_ge by (rewrite ?length_words_bytes; lia). done.
  - rewrite <-(take_drop n l) at 1. rewrite words_bytes_app, take_app_length'; [done|].
    rewrite length_words_bytes, length_take. lia.
Qed.

(** The bytes of a number of [n] words whose top word is zero. *)
Lemma write_bytes_spec r n inp b w :
  bns w !! r = Some b -> bn_ok b -> bytes inp -> bn_width b = n -> 0 < n -> 8 * (n - 1) < lenZ inp <= 8 * n ->
  bn_d b !! Z.to_nat (n - 1) = Some 0 ->
  exists b', write_bytes r inp w = Some (tt, set_bn r b' w)
    /\ bn_ok b' /\ bn_flags b' = bn_flags b /\ bn_neg b' = bn_neg b /\ bn_abs b' = le_combine inp.
Proof.
  intros Hr Hok Hb Hw Hn Hl Htop. pose proof Hok as (Hwd & Hd & Hmax & Hws & Hs).
  unfold write_bytes, BN_BYTES. rewrite (part_bind_some _ _ _ _ _ (get_bn_spec _ _ _ Hr)).
  destruct (Z.leb_spec (lenZ inp) (8 * lenZ (bn_d b))); [|lia].
  erewrite put_bn_spec by done. eexists. split; [done|].
  remember (inp ++ drop (length inp) (words_bytes (bn_d b))) as l eqn:El.
  assert (Hbl : bytes l).
  { subst l. apply bytes_app. split; [done|]. apply Forall_drop, words_bytes_bytes. }
  assert (Hll : length l = (8 * length (bn_d b))%nat).
  { subst l. rewrite length_app, length_drop, length_words_bytes. lia. }
  destruct (bytes_words_value l _ Hbl Hll) as (Hw1 & Hw2 & Hw3).
  split_and!; [|done|done|].
  { unfold bn_ok. cbn [with_d bn_d bn_width bn_dmax bn_neg]. rewrite Hw2. tauto. }
  unfold bn_abs, limbs. cbn [with_d bn_d bn_width]. rewrite bytes_words_prefix by lia.
  assert (Ht : take (8 * Z.to_nat (bn_width b)) l
    = inp ++ drop (length inp) (words_bytes (take (Z.to_nat n) (bn_d b)))).
  { subst l. rewrite take_app_ge, <-take_words_bytes, <-Hw, skipn_firstn_comm by lia. done. }
  destruct (bytes_words_value (take (8 * Z.to_nat (bn_width b)) l) (Z.to_nat (bn_width b))) as (_ & _ & Hv).
  { by apply Forall_take. } { rewrite length_take. lia. }
  rewrite Hv, Ht, le_combine_app.
  replace (Z.to_nat n) with (S (Z.to_nat (n - 1))) by lia. rewrite (take_S_r _ _ _ Htop).
  rewrite words_bytes_app, drop_app_ge by (rewrite length_words_bytes, length_take; lia).
  assert (Hz : forall k, le_combine (drop k (words_bytes [0])) = 0).
  { intros k. apply le_combine_zero_iff; [apply Forall_drop, words_bytes_bytes|]. apply Forall_drop.
    by repeat constructor. }
  rewrite Hz. lia.
Qed.

Section into_le.
Context (malloc : gmap Z bignum -> Z).
Context (r : Z) (br : bignum) (w : bn_world).
Context (Hr : bns w !! r = Some br) (Hok : bn_ok br) (Hown : owned br) (Hnull : r <> NULL).

(** The sign is left as it was, unless there are no bytes. *)
Lemma BN_lebin2bn_spec inp :
  bytes inp ->
  outcome_ptr r br w (bytes_room w inp)
    (fun b' => bn_abs b' = le_combine inp /\ bn_neg b' = (if inp is [] then 0 else bn_neg br))
    (BN_lebin2bn malloc inp r w).
Proof.
  intros Hb. unfold BN_lebin2bn. rewrite (proj2 (Z.eqb_neq r NULL) Hnull).
  erewrite part_bind_some by reflexivity. cbn beta iota. rewrite (proj2 (Z.eqb_neq r NULL) Hnull).
  destruct (Z.eqb_spec (lenZ inp) 0) as [E0|E0].
  { destruct inp; [|cbn in E0; lia]. erewrite part_bind_some by (by apply bn_update_spec).
    erewrite part_bind_some by (apply bn_update_spec; apply bns_set). rewrite set_bn_twice.
    exists true, (with_neg 0 (with_width 0 br)), (bn_oom w). pose proof (proj1 Hok).
    split_and!; [done|apply with_neg_ok; [apply with_width_ok; [done|lia]|by left]|done|by left|done|done]. }
  destruct (words_for inp) as [Hn Hfit]; [by intros ->|]. unfold BN_BYTES.
  remember ((lenZ inp - 1) / 8 + 1) as n eqn:En. unfold bytes_room. rewrite <-En.
  destruct (wexpand_spec r n br w Hr Hok Hown) as (ok & b1 & o & E & Hexp & Ho & Hroom).
  rewrite (part_bind_some _ _ _ _ _ E). pose proof Hexp as (Hok1 & Hw1 & Hs1 & Hf1 & Hl1 & Hd1).
  destruct ok; cbn [negb].
  2: { erewrite part_bind_some by reflexivity. by exists false, b1, o. }
  pose proof Hok1 as (_ & Hd & Hmax & _).
  erewrite part_bind_some by (apply bn_update_spec; apply lookup_insert_eq). rewrite set_bn_mk, insert_insert_eq.
  erewrite part_bind_some.
  2: { apply (store_spec (r, n - 1) 0 (with_width n b1)); [apply lookup_insert_eq|cbn; lia]. }
  rewrite store_with_words, set_bn_mk, insert_insert_eq. cbn [fst snd].
  set (b2 := with_words (n - 1) [0] (with_width n b1)).
  assert (Hok2 : bn_ok b2).
  { apply with_words_ok; [apply with_width_ok; [done|lia]|by apply words_singleton]. }
  destruct (write_bytes_spec r n inp b2 (mk_bn_world (<[r := b2]> (bns w)) o))
    as (b3 & E3 & Hok3 & Hf3 & Hs3 & Hv3); [apply lookup_insert_eq|done|done|done|lia|lia|..].
  { unfold b2. cbn [with_words with_d bn_d with_width list_inserts].
    rewrite list_lookup_insert_eq by lia. done. }
  rewrite (part_bind_some _ _ _ _ _ E3), set_bn_mk, insert_insert_eq.
  exists true, b3, o. split_and!; [done|done|by rewrite Hf3|done|done|]. rewrite Hs3. by destruct inp.
Qed.
End into_le.

(** ** To bytes *)

Section out.
Context (a : Z) (ba : bignum) (w : bn_world).
Context (Ha : bns w !! a = Some ba) (Hok : bn_ok ba).

Lemma read_limbs : read_words (a, 0) (bn_width ba) w = Some (limbs ba, w).
Proof.
  pose proof Hok as (Hw & Hd & _).
  by rewrite (read_words_spec (a, 0) (bn_width ba) ba) by (done || lia || (unfold room; cbn; lia)).
Qed.

Lemma num_bytes_fit : bn_abs ba < 2 ^ (8 * ((bit_length (bn_abs ba) + 7) / 8)).
Proof.
  pose proof (bn_abs_range _ Hok). pose proof (bit_length_nonneg (bn_abs ba)).
  destruct (Z.eq_dec (bn_abs ba) 0) as [->|Hne]; [by apply Z.pow_pos_nonneg|].
  destruct (bit_length_bounds (bn_abs ba) _ ltac:(lia) eq_refl) as [_ H2].
  eapply Z.lt_le_trans; [exact H2|]. apply Z.pow_le_mono_r; div_lia.
Qed.

Lemma BN_bn2bin_spec out :
  let n := (bit_length (bn_abs ba) + 7) / 8 in
  n <= lenZ out ->
  BN_bn2bin a out w = Some ((n, be_bytes (Z.to_nat n) (bn_abs ba) ++ drop (Z.to_nat n) out), w).
Proof.
  intros n Hn. unfold BN_bn2bin. rewrite (part_bind_some _ _ _ _ _ (BN_num_bytes_spec a ba w Ha Hok)).
  fold n. pstep get_width_spec. rewrite (part_bind_some _ _ _ _ _ read_limbs).
  destruct (Z.ltb_spec (lenZ out) n); [lia|]. pose proof num_bytes_fit as Hf. fold n in Hf.
  assert (0 <= n) by (unfold n; pose proof (bit_length_nonneg (bn_abs ba)); div_lia).
  assert (Hlen : length (take (Z.to_nat n) out) = Z.to_nat n) by (rewrite length_take; lia).
  rewrite bn_words_to_big_endian_spec, Hlen, Z2Nat.id by (done || by apply limbs_words).
  unfold bn_abs in *. by rewrite (proj2 (Z.ltb_lt _ _) Hf).
Qed.

Lemma BN_bn2bin_padded_spec out :
  BN_bn2bin_padded out a w
  = Some (if bn_abs ba <? 2 ^ (8 * lenZ out) then Some (be_bytes (length out) (bn_abs ba)) else None, w).
Proof.
  unfold BN_bn2bin_padded. pstep get_width_spec. rewrite (part_bind_some _ _ _ _ _ read_limbs).
  rewrite fits_in_bytes_spec by (lia || by apply limbs_words). unfold bn_abs.
  destruct (Z.ltb_spec (val (limbs ba)) (2 ^ (8 * lenZ out))) as [Hf|Hf]; [cbn [negb]|done].
  rewrite bn_words_to_big_endian_spec by (by apply limbs_words).
  by rewrite (proj2 (Z.ltb_lt _ _) Hf).
Qed.

Lemma BN_bn2le_padded_spec out :
  BN_bn2le_padded out a w
  = Some (if bn_abs ba <? 2 ^ (8 * lenZ out) then Some (le_split (length out) (bn_abs ba)) else None, w).
Proof.
  unfold BN_bn2le_padded. pstep get_width_spec. rewrite (part_bind_some _ _ _ _ _ read_limbs).
  pose proof (limbs_words _ Hok) as Hws. pose proof (limbs_length _ Hok) as Hll.
  rewrite fits_in_bytes_spec by (lia || done). unfold bn_abs, BN_BYTES.
  destruct (Z.ltb_spec (val (limbs ba)) (2 ^ (8 * lenZ out))) as [Hf|Hf]; [cbn [negb]|done].
  unfold mret, part_ret. do 3 f_equal. pose proof (words_bytes_bytes (limbs ba)) as Hb.
  rewrite <-(words_bytes_value (limbs ba) Hws) in *. pose proof (length_words_bytes (limbs ba)) as Hlb.
  remember (words_bytes (limbs ba)) as l eqn:El. clear El.
  assert (Hn : exists n, (if lenZ out <? bn_width ba * 8 then lenZ out else bn_width ba * 8) = Z.of_nat n
    /\ (n <= length out)%nat /\ (n <= length l)%nat /\ le_combine (take n l) = le_combine l).
  { destruct (Z.ltb_spec (lenZ out) (bn_width ba * 8)).
    - exists (length out). split_and!; [done|done|lia|].
      pose proof (bytes_fit l (length out) Hb) as Hfit. rewrite (proj2 (Z.ltb_lt _ _) Hf) in Hfit.
      apply Z.eqb_eq in Hfit. rewrite <-(take_drop (length out) l) at 2. rewrite le_combine_app, Hfit. lia.
    - exists (length l). split_and!; [lia|lia|done|by rewrite take_ge]. }
  destruct Hn as (n & -> & Hn & Hnl & Hv). rewrite <-Hv, Nat2Z.id.
  replace (Z.to_nat (lenZ out - Z.of_nat n)) with (length out - n)%nat by lia.
  rewrite le_split_pad by (try (by apply Forall_take); rewrite length_take; lia).
  by rewrite length_take_le by lia.
Qed.
End out.

Section get.
Context (a : Z) (ba : bignum) (w : bn_world).
Context (Ha : bns w !! a = Some ba) (Hok : bn_ok ba).

(** The number when it has at most one word. *)
Lemma one_word_value :
  exists x, (if Z.of_nat (significant (limbs ba)) =? 0 then mret (Some 0)
     else if Z.of_nat (significant (limbs ba)) =? 1 then x ← load (a, 0); mret (Some x) else mret None) w
    = Some (x, w) /\ x = if bn_abs ba <? wbase then Some (bn_abs ba) else None.
Proof.
  pose proof (limbs_words _ Hok) as Hws. pose proof (words_at_limbs_0 a ba w Ha Hok) as Hat.
  pose proof (significant_zero _ Hws) as Hz. unfold bn_abs.
  destruct (Z.eqb_spec (Z.of_nat (significant (limbs ba))) 0) as [E0|E0].
  { eexists. split; [done|]. by rewrite (proj1 Hz) by lia. }
  destruct (Z.eqb_spec (Z.of_nat (significant (limbs ba))) 1) as [E1|E1].
  - destruct (limbs ba) as [|x l]; [done|]. rewrite (part_bind_some _ _ _ _ _ (load_spec _ _ _ _ Hat)).
    eexists. split; [done|]. rewrite one_word by (done || lia). apply Forall_cons in Hws as [Hx _].
    destruct (Z.ltb_spec x wbase); [done|]. unfold word in Hx. fold wbase in Hx. lia.
  - eexists. split; [done|]. pose proof (many_words _ Hws ltac:(lia)).
    by destruct (Z.ltb_spec (val (limbs ba)) wbase); [lia|].
Qed.

Lemma BN_get_u64_spec :
  BN_get_u64 a w = Some (if bn_abs ba <? wbase then Some (bn_abs ba) else None, w).
Proof.
  unfold BN_get_u64. rewrite (part_bind_some _ _ _ _ _ (bn_minimal_width_spec a ba w Ha Hok)).
  destruct one_word_value as (x & -> & ->). done.
Qed.
End get.
