(* ===== verification/BnOps.v ===== *)
(** * Big numbers: programs

    A sequence of operations on BIGNUMs, the result of which may be one of the operands,
    against the integers they hold. *)
From S2P Require Export BnBytesSpec.

Inductive bn_op :=
  | Op_copy (r a : Z)
  | Op_set_word (r x : Z)
  | Op_set_negative (r sign : Z)
  | Op_add (r a b : Z)
  | Op_sub (r a b : Z)
  | Op_add_word (a x : Z)
  | Op_sub_word (a x : Z)
  | Op_mul_word (a x : Z)
  | Op_div_word (a x : Z)
  | Op_lshift (r a n : Z)
  | Op_lshift1 (r a : Z)
  | Op_rshift (r a n : Z)
  | Op_rshift1 (r a : Z).

Definition run_op (op : bn_op) : bnM bool :=
  match op with
  | Op_copy r a => BN_copy r a
  | Op_set_word r x => BN_set_word r x
  | Op_set_negative r sign => _ ← BN_set_negative r sign; mret true
  | Op_add r a b => BN_add r a b
  | Op_sub r a b => BN_sub r a b
  | Op_add_word a x => BN_add_word a x
  | Op_sub_word a x => BN_sub_word a x
  | Op_mul_word a x => BN_mul_word a x
  | Op_div_word a x => ret ← BN_div_word a x; mret (negb (ret =? BN_MASK2))
  | Op_lshift r a n => BN_lshift r a n
  | Op_lshift1 r a => BN_lshift1 r a
  | Op_rshift r a n => BN_rshift r a n
  | Op_rshift1 r a => BN_rshift1 r a
  end.

(** Until one fails. *)
Fixpoint run_ops (ops : list bn_op) : bnM bool :=
  match ops with
  | [] => mret true
  | op :: ops => ok ← run_op op; if negb ok then mret false else run_ops ops
  end.

(** ** The same on integers *)

Definition op_dest (op : bn_op) : Z :=
  match op with
  | Op_copy r _ | Op_set_word r _ | Op_set_negative r _ | Op_add r _ _ | Op_sub r _ _
  | Op_add_word r _ | Op_sub_word r _ | Op_mul_word r _ | Op_div_word r _
  | Op_lshift r _ _ | Op_lshift1 r _ | Op_rshift r _ _ | Op_rshift1 r _ => r
  end.

Definition op_sources (op : bn_op) : list Z :=
  match op with
  | Op_copy _ a | Op_lshift _ a _ | Op_lshift1 _ a | Op_rshift _ a _ | Op_rshift1 _ a => [a]
  | Op_add _ a b | Op_sub _ a b => [a; b]
  | _ => []
  end.

Definition op_value (op : bn_op) (v : Z -> Z) : Z :=
  match op with
  | Op_copy _ a => v a
  | Op_set_word _ x => x
  | Op_set_negative r sign => if sign =? 0 then Z.abs (v r) else - Z.abs (v r)
  | Op_add _ a b => v a + v b
  | Op_sub _ a b => v a - v b
  | Op_add_word a x => v a + x
  | Op_sub_word a x => v a - x
  | Op_mul_word a x => v a * x
  | Op_div_word a x => Z.quot (v a) x
  | Op_lshift _ a n => v a * 2 ^ n
  | Op_lshift1 _ a => v a * 2
  | Op_rshift _ a n => Z.quot (v a) (2 ^ n)
  | Op_rshift1 _ a => Z.quot (v a) 2
  end.

Definition eval_op (s : gmap Z Z) (op : bn_op) : gmap Z Z :=
  <[op_dest op := op_value op (fun p => s !!! p)]> s.

(** The arguments are in range. *)
Definition op_args (op : bn_op) : Prop :=
  match op with
  | Op_set_word _ x | Op_add_word _ x | Op_sub_word _ x | Op_mul_word _ x => word x
  | Op_div_word _ x => word x /\ x <> 0
  | Op_lshift _ _ n | Op_rshift _ _ n => 0 <= n < 2 ^ 31
  | _ => True
  end.

(** The words the result may need. *)
Definition op_words (op : bn_op) (width : Z -> Z) : Z :=
  match op with
  | Op_copy _ a | Op_rshift _ a _ | Op_rshift1 _ a => width a
  | Op_set_word _ _ => 1
  | Op_set_negative _ _ => 0
  | Op_add _ a b | Op_sub _ a b => Z.max (width a) (width b) + 1
  | Op_add_word a _ | Op_sub_word a _ | Op_mul_word a _ | Op_div_word a _ | Op_lshift1 _ a => width a + 1
  | Op_lshift _ a n => width a + n / 64 + 1
  end.

Definition width_of (w : bn_world) (p : Z) : Z := from_option bn_width 0 (bns w !! p).
Definition values (w : bn_world) : gmap Z Z := bn_val <$> bns w.

Definition number (b : bignum) : Prop := bn_ok b /\ owned b /\ no_neg_zero b.
Definition numbers (w : bn_world) : Prop := map_Forall (fun _ => number) (bns w).
Definition op_ok (op : bn_op) (w : bn_world) : Prop :=
  op_args op /\ Forall (fun p => is_Some (bns w !! p)) (op_dest op :: op_sources op).

Lemma values_at w p b : bns w !! p = Some b -> values w !!! p = bn_val b.
Proof. intros H. unfold values. by rewrite lookup_total_alt, lookup_fmap, H. Qed.
Lemma width_at w p b : bns w !! p = Some b -> width_of w p = bn_width b.
Proof. intros H. unfold width_of. by rewrite H. Qed.

(** A BIGNUM of a world of numbers. *)
Ltac number_of p b H :=
  match goal with
  | Hn : numbers ?w, Hp : is_Some (bns ?w !! p) |- _ =>
    destruct Hp as [b H]; pose proof (Hn p b H) as (?Hok & ?Hown & ?Hz);
    rewrite ?(values_at _ _ _ H), ?(width_at _ _ _ H)
  end.

Lemma run_op_spec op w br :
  numbers w -> op_ok op w -> bns w !! op_dest op = Some br ->
  outcome (op_dest op) br w (no_room w (op_words op (width_of w)))
    (fun b' => bn_val b' = op_value op (fun p => values w !!! p) /\ no_neg_zero b') (run_op op w).
Proof.
  intros Hn [Hargs Hp] Hr. apply Forall_cons in Hp as [_ Hs]. pose proof (Hn _ _ Hr) as (Hok & Hown & Hz).
  destruct op as [r a|r x|r s|r a b|r a b|a x|a x|a x|a x|r a n|r a|r a n|r a]; cbn [op_dest op_sources op_value op_words run_op op_args] in *;
    repeat match goal with
    | H : Forall _ (_ :: _) |- _ => apply Forall_cons in H as [? ?]
    | H : is_Some (bns _ !! ?p) |- _ => let b := fresh "b" in let E := fresh "E" in number_of p b E
    end; rewrite ?(values_at _ _ _ Hr), ?(width_at _ _ _ Hr).
  - (* copy *)
    eapply outcome_weaken; [by apply (BN_copy_spec r a br b)|done|].
    intros b' _ [Hs' Hl']. unfold no_neg_zero, bn_val, bn_abs in *. by rewrite Hs', Hl'.
  - by apply BN_set_word_spec.
  - rewrite (part_bind_some _ _ _ _ _ (BN_set_negative_spec r br w Hr Hok s)).
    apply outcome_here; [apply with_neg_ok; [done|case_match; auto]|done|].
    pose proof (abs_val br Hok) as Ha. unfold no_neg_zero, bn_val at 1. rewrite with_neg_abs. cbn [with_neg bn_neg].
    destruct (Z.eqb_spec s 0), (Z.eqb_spec (bn_abs br) 0); cbn; lia.
  - by eapply BN_add_spec.
  - by eapply BN_sub_spec.
  - by apply BN_add_word_spec.
  - by apply BN_sub_word_spec.
  - by apply BN_mul_word_spec.
  - destruct Hargs as [Hx Hx0].
    destruct (BN_div_word_spec a br w Hr Hok x Hown Hx Hx0) as (ret & b' & o & E & Hok' & Hf & Ho & Hcase).
    rewrite (part_bind_some _ _ _ _ _ E). destruct Hcase as [(-> & Hv & Hz' & _)|[-> Hroom]].
    + destruct (Z.eqb_spec (bn_abs br mod x) BN_MASK2) as [Em|_]; cbn [negb].
      * pose proof (Z.mod_pos_bound (bn_abs br) x). unfold word in Hx. change BN_MASK2 with (2 ^ 64 - 1) in Em. lia.
      * apply outcome_done; [done|done|done|]. split; [done|by apply Hz'].
    + by apply outcome_failed.
  - by eapply BN_lshift_spec; try done; lia.
  - by eapply BN_lshift1_spec.
  - by eapply BN_rshift_spec; try done; lia.
  - by eapply BN_rshift1_spec.
Qed.

Lemma op_dest_some op w : op_ok op w -> exists br, bns w !! op_dest op = Some br.
Proof. by intros [_ [[br Hbr] _]%Forall_cons]; exists br. Qed.

(** C17. Every operation keeps every BIGNUM well formed, on success and on failure: the
    array has the size the object claims, at most [BN_MAX_WORDS] words of 64 bits, and the
    sign is 0 or 1. It changes no object but its destination, whose flags it keeps; and
    when it succeeds no BIGNUM is a negative zero. *)
Theorem bn_op_well_formed op w :
  numbers w -> op_ok op w ->
  exists ok w', run_op op w = Some (ok, w')
    /\ map_Forall (fun _ b => bn_ok b /\ owned b) (bns w')
    /\ dom (bns w') = dom (bns w)
    /\ (forall p, p <> op_dest op -> bns w' !! p = bns w !! p)
    /\ (ok = true -> numbers w').
Proof.
  intros Hn Hop. destruct (op_dest_some op w Hop) as [br Hr].
  destruct (run_op_spec op w br Hn Hop Hr) as (ok & b' & o & E & Hok & Hf & _ & HP).
  pose proof (Hn _ _ Hr) as (_ & Hown & _). exists ok, (mk_bn_world (<[op_dest op := b']> (bns w)) o).
  assert (Hown' : owned b') by (unfold owned in *; congruence).
  split_and!; [done| |cbn; by rewrite dom_insert_lookup_L|intros p Hp; cbn; by rewrite lookup_insert_ne|].
  - apply map_Forall_insert_2; [done|]. intros p b Hb. by destruct (Hn p b Hb) as (? & ? & _).
  - intros ->. destruct HP as [_ Hz]. by apply map_Forall_insert_2.
Qed.

Lemma op_ok_dom op w w' : dom (bns w') = dom (bns w) -> op_ok op w -> op_ok op w'.
Proof.
  intros Hd [Ha Hp]. split; [done|]. eapply Forall_impl; [exact Hp|]. intros p.
  by rewrite <-!elem_of_dom, Hd.
Qed.

(** One successful operation, on the integers. *)
Lemma run_op_values op w w' :
  numbers w -> op_ok op w -> run_op op w = Some (true, w') ->
  numbers w' /\ values w' = eval_op (values w) op /\ dom (bns w') = dom (bns w).
Proof.
  intros Hn Hop E. destruct (op_dest_some op w Hop) as [br Hr].
  destruct (run_op_spec op w br Hn Hop Hr) as (ok & b' & o & E' & Hok & Hf & _ & HP).
  rewrite E in E'. injection E' as <- ->. pose proof (Hn _ _ Hr) as (_ & Hown & _). destruct HP as [Hv Hz].
  split_and!.
  - apply map_Forall_insert_2; [|done]. unfold number, owned in *. by rewrite Hf.
  - unfold values, eval_op in *. cbn. by rewrite fmap_insert, Hv.
  - cbn. by rewrite dom_insert_lookup_L.
Qed.

(** C16. Programs of big-number operations compute on the integers. Operands and results
    may be the same objects in any way; the run stops only before an operation that asks
    for more words than a BIGNUM may have, or whose allocation fails; and otherwise every
    object holds the integer the program gives it. *)
Theorem bn_programs_refine_integers ops w :
  numbers w -> Forall (fun op => op_ok op w) ops ->
  exists ok w', run_ops ops w = Some (ok, w')
    /\ if ok : bool then numbers w' /\ values w' = fold_left eval_op ops (values w)
       else exists done op rest w1, ops = done ++ op :: rest /\ run_ops done w = Some (true, w1)
              /\ values w1 = fold_left eval_op done (values w)
              /\ no_room w1 (op_words op (width_of w1)).
Proof.
  revert w. induction ops as [|op ops IH]; intros w Hn Hops; [by exists true, w|].
  apply Forall_cons in Hops as [Hop Hops]. destruct (op_dest_some op w Hop) as [br Hr].
  destruct (run_op_spec op w br Hn Hop Hr) as (ok & b' & o & E & _ & _ & _ & HP).
  cbn [run_ops]. rewrite (part_bind_some _ _ _ _ _ E). destruct ok; cbn [negb].
  2: { do 2 eexists. split; [done|]. by exists [], op, ops, w. }
  destruct (run_op_values op w _ Hn Hop E) as (Hn1 & Hv1 & Hd1).
  destruct (IH _ Hn1) as (ok & w' & E' & HQ).
  { eapply Forall_impl; [exact Hops|]. intros op'. by apply op_ok_dom. }
  exists ok, w'. split; [exact E'|]. destruct ok.
  - cbn [fold_left]. by rewrite <-Hv1.
  - destruct HQ as (done & op' & rest & w1 & -> & E1 & Hv & Hroom).
    exists (op :: done), op', rest, w1. split_and!; [done| |by cbn [fold_left]; rewrite <-Hv1|done].
    cbn [run_ops]. by rewrite (part_bind_some _ _ _ _ _ E).
Qed.

(** Three numbers: 2^64 - 1, -5 and 0. *)
Definition three_numbers : bn_world :=
  mk_bn_world (<[1 := mk_bn [2 ^ 64 - 1] 1 1 0 1]> (<[2 := mk_bn [5; 0] 1 2 1 1]> {[3 := mk_bn [] 0 0 0 1]})) [].

Lemma three_numbers_ok : numbers three_numbers.
Proof.
  unfold numbers, three_numbers. apply map_Forall_insert_2; [|apply map_Forall_insert_2; [|apply map_Forall_singleton]];
    unfold number, bn_ok, owned, no_neg_zero; cbn [bn_width bn_dmax bn_d bn_neg bn_flags length];
    (split_and!; try done; try lia; try (by repeat constructor; unfold word; lia); auto).
Qed.

Definition example_ops : list bn_op :=
  [Op_add 3 1 1; Op_lshift 3 3 70; Op_sub 2 2 3; Op_mul_word 2 10; Op_div_word 2 7; Op_rshift 1 2 64; Op_add_word 1 9].

Lemma bn_op_well_formed_witness :
  exists ok w', run_op (Op_add 3 1 2) three_numbers = Some (ok, w')
    /\ map_Forall (fun _ b => bn_ok b /\ owned b) (bns w')
    /\ dom (bns w') = dom (bns three_numbers)
    /\ (forall p, p <> 3 -> bns w' !! p = bns three_numbers !! p)
    /\ (ok = true -> numbers w').
Proof.
  apply (bn_op_well_formed (Op_add 3 1 2) three_numbers three_numbers_ok).
  split; [done|]. repeat constructor; by eexists.
Defined.

Lemma bn_programs_refine_integers_witness :
  exists ok w', run_ops example_ops three_numbers = Some (ok, w')
    /\ if ok : bool then numbers w' /\ values w' = fold_left eval_op example_ops (values three_numbers)
       else exists done op rest w1, example_ops = done ++ op :: rest /\ run_ops done three_numbers = Some (true, w1)
              /\ values w1 = fold_left eval_op done (values three_numbers)
              /\ no_room w1 (op_words op (width_of w1)).
Proof.
  apply (bn_programs_refine_integers example_ops three_numbers three_numbers_ok).
  unfold example_ops. repeat (apply Forall_cons; split; [split; [cbn; unfold word; try done; lia|repeat constructor; by eexists]|]).
  apply Forall_nil. done.
Defined.

Example example_ops_run :
  (fun r => (fst r, map_to_list (values (snd r)))) <$> run_ops example_ops three_numbers
  = Some (true, map_to_list (fold_left eval_op example_ops (values three_numbers))).
Proof. vm_compute. reflexivity. Qed.
