(* ===== verification/BnConvert.v ===== *)
(** * BoringSSL: big numbers as text and as ASN.1 (crypto/bn_extra)

    Strings are lists of characters without the terminator, which [char_at] gives at the
    end; a string that is returned has it. A function that works on a BIGNUM and on a
    [CBS] or a [CBB] has the state of both. *)
From S2P Require Export BnBytes Cbb.

(** ** Two states *)

Definition on_bn {St A} (m : bnM A) : part (bn_world * St) A := fun '(w, s) =>
  match m w with Some (a, w') => Some (a, (w', s)) | None => None end.
Definition on_act {St A} (m : act St A) : part (bn_world * St) (option A) := fun '(w, s) =>
  let '(o, s') := m s in Some (o, (w, s')).

(** ** bn_asn1.c *)

Section bn.
Context (malloc : gmap Z bignum -> Z).

Definition BN_parse_asn1_unsigned (ret : Z) : part (bn_world * CBS) bool :=
  child ← on_act (CBS_get_asn1 CBS_ASN1_INTEGER);
  match child with
  | None => mret false
  | Some child =>
    match CBS_is_valid_asn1_integer child with
    | None => mret false
    | Some true => mret false
    | Some false => p ← on_bn (BN_bin2bn malloc child ret); mret (negb (p =? NULL))
    end
  end.

(** *** convert.c *)

Definition BN_bn2cbb_padded (out : nat) (len inp : Z) : part (bn_world * cbb_world) bool :=
  p ← on_act (CBB_add_space out len);
  match p with
  | None => mret false
  | Some ptr =>
    '(_, c) ← get_st;
    r ← on_bn (BN_bn2bin_padded (take (Z.to_nat len) (drop (Z.to_nat ptr) (buf (base c)))) inp);
    match r with
    | None => mret false
    | Some l => _ ← on_act (buf_write ptr l); mret true
    end
  end.

Definition BN_marshal_asn1 (cbb : nat) (bn : Z) : part (bn_world * cbb_world) bool :=
  neg ← on_bn (BN_is_negative bn);
  if (neg : bool) then mret false
  else
    child ← on_act (CBB_add_asn1 cbb CBS_ASN1_INTEGER);
    match child with
    | None => mret false
    | Some child =>
      bits ← on_bn (BN_num_bits bn);
      pad ← (if bits mod 8 =? 0 then on_act (CBB_add_u8 child 0x00) else mret (Some tt));
      match pad with
      | None => mret false
      | Some _ =>
        n ← on_bn (BN_num_bytes bn);
        ok ← BN_bn2cbb_padded child n bn;
        if negb ok then mret false
        else f ← on_act (CBB_flush cbb); mret (match f with Some _ => true | None => false end)
      end
    end.

(** *** Hexadecimal *)

Definition hextable : list Z :=
  [48; 49; 50; 51; 52; 53; 54; 55; 56; 57; 97; 98; 99; 100; 101; 102].

Definition char_at (s : list Z) (i : Z) : Z := nth (Z.to_nat i) s 0.

(** [for (int j = BN_BITS2 - 8; j >= 0; j -= 8)] on a word: the characters so far and
    [z]. *)
Definition hex_byte (x : Z) (pz : list Z * bool) (j : Z) : list Z * bool :=
  let '(p, z) := pz in
  let v := Z.land (s32 (Z.shiftr x j)) 0xff in
  if z || negb (v =? 0) then
    (p ++ [char_at hextable (Z.shiftr v 4); char_at hextable (Z.land v 0x0f)], true)
  else (p, z).
Definition hex_word (x : Z) (pz : list Z * bool) : list Z * bool :=
  fold_left (hex_byte x) [56; 48; 40; 32; 24; 16; 8; 0] pz.

(** [for (int i = width - 1; i >= 0; i--)] *)
Fixpoint hex_loop (m : nat) (bn : Z) (pz : list Z * bool) : bnM (list Z * bool) :=
  match m with
  | O => mret pz
  | S m => x ← load (bn, Z.of_nat m); hex_loop m bn (hex_word x pz)
  end.

Definition BN_bn2hex (bn : Z) : bnM (option (list Z)) :=
  width ← bn_minimal_width bn;
  let size := 1 + 1 + width * BN_BYTES * 2 + 1 in
  ok ← bn_alloc_ok;
  if negb ok then mret None
  else
    neg ← get_neg bn;
    let p := if negb (neg =? 0) then [45] else [] in
    zero ← BN_is_zero bn;
    let p := if zero : bool then p ++ [48] else p in
    '(p, _) ← hex_loop (Z.to_nat width) bn (p, false);
    let buf := p ++ [0] in
    (* every character was inside the buffer *)
    _ ← c_assert (Z.of_nat (length buf) <=? size);
    mret (Some buf).

Definition OPENSSL_isxdigit (c : Z) : bool :=
  OPENSSL_isdigit c || ((97 <=? c) && (c <=? 102)) || ((65 <=? c) && (c <=? 70)).
Definition OPENSSL_fromxdigit (c : Z) : option Z :=
  if OPENSSL_isdigit c then Some (c - 48)
  else if (97 <=? c) && (c <=? 102) then Some (c - 97 + 10)
  else if (65 <=? c) && (c <=? 70) then Some (c - 65 + 10)
  else None.

(** [for (j = todo; j > 0; j--)] over the characters of a word. *)
Fixpoint hex_value (word : Z) (l : list Z) : bnM Z :=
  match l with
  | [] => mret word
  | c :: l => hex ← of_opt (OPENSSL_fromxdigit c); hex_value (Z.lor (u64 (Z.shiftl word 4)) hex) l
  end.

(** [while (in_len > 0)]: the words stored. Each turn takes a character or more. *)
Fixpoint decode_hex_loop (fuel : nat) (bn : Z) (inp : list Z) (in_len i : Z) : bnM Z :=
  if in_len <=? 0 then mret i
  else
    match fuel with
    | O => wrong
    | S fuel =>
      let todo := BN_BYTES * 2 in
      let todo := if in_len <? todo then in_len else todo in
      word ← hex_value 0 (take (Z.to_nat todo) (drop (Z.to_nat (in_len - todo)) inp));
      _ ← store (bn, i) word;
      decode_hex_loop fuel bn inp (in_len - todo) (i + 1)
    end.

Definition decode_hex (bn : Z) (inp : list Z) (in_len : Z) : bnM bool :=
  if INT_MAX / 4 <? in_len then mret false
  else
    ok ← bn_expand bn (in_len * 4);
    if negb ok then mret false
    else
      i ← decode_hex_loop (Z.to_nat in_len) bn inp in_len 0;
      b ← get_bn bn;
      _ ← c_assert (i <=? bn_dmax b);
      _ ← update bn (with_width i);
      mret true.

(** *** Decimal *)

(** [for (i = 0; i < in_len; i++)] *)
Fixpoint decode_dec_loop (bn : Z) (l : list Z) (word j : Z) : bnM bool :=
  match l with
  | [] => mret true
  | c :: l =>
    let word := u64 (u64 (word * 10) + (c - 48)) in
    if j + 1 =? BN_DEC_NUM then
      ok ← BN_mul_word bn BN_DEC_CONV;
      if negb ok then mret false
      else
        ok ← BN_add_word bn word;
        if negb ok then mret false else decode_dec_loop bn l 0 0
    else decode_dec_loop bn l word (j + 1)
  end.

Definition decode_dec (bn : Z) (inp : list Z) (in_len : Z) : bnM bool :=
  let j := BN_DEC_NUM - in_len mod BN_DEC_NUM in
  let j := if j =? BN_DEC_NUM then 0 else j in
  decode_dec_loop bn (take (Z.to_nat in_len) inp) 0 j.

(** [for (i = 0; want_char((unsigned char)in[i]) && i + neg < INT_MAX; i++)] *)
Fixpoint count_chars (want_char : Z -> bool) (inp : list Z) (i neg : Z) : Z :=
  match inp with
  | [] => i
  | c :: inp => if want_char c && (i + neg <? INT_MAX) then count_chars want_char inp (i + 1) neg else i
  end.

(** The result and [*outp]; no [outp] is [None]. *)
Definition bn_x2bn (outp : option Z) (inp : option (list Z)) (decode : Z -> list Z -> Z -> bnM bool)
    (want_char : Z -> bool) : bnM (Z * option Z) :=
  match inp with
  | None => mret (0, outp)
  | Some inp =>
    if char_at inp 0 =? 0 then mret (0, outp)
    else
      let '(neg, inp) := if char_at inp 0 =? 45 then (1, tail inp) else (0, inp) in
      let i := count_chars want_char inp 0 neg in
      let num := i + neg in
      match outp with
      | None => mret (num, None)
      | Some out =>
        ret ← (if out =? NULL then BN_new malloc else _ ← BN_zero out; mret out);
        if ret =? NULL then mret (0, outp)
        else
          ok ← decode ret inp i;
          if negb ok then
            _ ← (if out =? NULL then BN_free ret else mret tt);
            mret (0, outp)
          else
            _ ← bn_set_minimal_width ret;
            zero ← BN_is_zero ret;
            _ ← (if negb zero then update ret (with_neg neg) else mret tt);
            mret (num, Some ret)
      end
  end.

Definition BN_hex2bn (outp : option Z) (inp : option (list Z)) : bnM (Z * option Z) :=
  bn_x2bn outp inp decode_hex OPENSSL_isxdigit.
Definition BN_dec2bn (outp : option Z) (inp : option (list Z)) : bnM (Z * option Z) :=
  bn_x2bn outp inp decode_dec OPENSSL_isdigit.

(** [for (int i = 0; i < BN_DEC_NUM && (add_leading_zeros || word != 0); i++)], [m]
    iterations to go: whether all were added, and [word]. *)
Fixpoint dec_digits (m : nat) (add_leading_zeros : bool) (word : Z) : act cbb_world Z :=
  match m with
  | O => mret word
  | S m =>
    if add_leading_zeros || negb (word =? 0) then
      _ ← CBB_add_u8 0 (48 + word mod 10);
      dec_digits m add_leading_zeros (word / 10)
    else mret word
  end.

(** [while (!BN_is_zero(copy))]: the number gets smaller with each turn. *)
Fixpoint bn2dec_loop (fuel : nat) (copy : Z) : part (bn_world * cbb_world) bool :=
  zero ← on_bn (BN_is_zero copy);
  if (zero : bool) then mret true
  else
    match fuel with
    | O => wrong
    | S fuel =>
      word ← on_bn (BN_div_word copy BN_DEC_CONV);
      if word =? BN_MASK2 then mret false
      else
        zero ← on_bn (BN_is_zero copy);
        r ← on_act (dec_digits (Z.to_nat BN_DEC_NUM) (negb zero) word);
        match r with
        | None => mret false
        | Some word => _ ← c_assert (word =? 0); bn2dec_loop fuel copy
        end
    end.

(** The text, or [None] for [goto err]; and [copy]. *)
Definition bn2dec_body (a : Z) : part (bn_world * cbb_world) (option (list Z) * Z) :=
  r ← on_act (CBB_add_u8 0 0);
  match r with
  | None => mret (None, NULL)
  | Some _ =>
    zero ← on_bn (BN_is_zero a);
    '(ok, copy) ← (if (zero : bool) then
        r ← on_act (CBB_add_u8 0 48);
        mret (match r with Some _ => true | None => false end, NULL)
      else
        copy ← on_bn (BN_dup malloc a);
        if copy =? NULL then mret (false, NULL)
        else
          bits ← on_bn (BN_num_bits copy);
          ok ← bn2dec_loop (S (Z.to_nat bits)) copy;
          mret (ok, copy));
    if negb ok then mret (None, copy)
    else
      neg ← on_bn (BN_is_negative a);
      r ← (if (neg : bool) then on_act (CBB_add_u8 0 45) else mret (Some tt));
      match r with
      | None => mret (None, copy)
      | Some _ => data ← on_act (CBB_finish 0 true true); mret (@rev Z <$> data, copy)
      end
  end.

(** The buffers of builders that are allocated and not freed are counted, next to the
    BIGNUMs: [CBB_init] allocates one, which [OPENSSL_realloc] replaces, [CBB_finish] hands
    over and [CBB_cleanup] frees. Freeing one more than there are is undefined. *)
Definition CBB_zero (oom : list bool) (junk : Z) : cbb_world :=
  mk_world (mk_base [] 0 false false) [] oom junk.

Definition new_builder (initial_capacity : Z) (oom : list bool) (junk : Z)
    : part (bn_world * Z) (bool * cbb_world) := fun '(w, buffers) =>
  match CBB_init initial_capacity oom junk with
  | Some cbb => Some ((true, cbb), (w, buffers + 1))
  | None => Some ((false, CBB_zero (tail oom) junk), (w, buffers))
  end.

Definition CBB_cleanup (cbb : cbb_world) : part (bn_world * Z) unit := fun '(w, buffers) =>
  if can_resize (base cbb) then
    if 0 <? buffers then Some (tt, (w, buffers - 1)) else None
  else Some (tt, (w, buffers)).

(** Calls on BIGNUMs and on one builder. *)
Definition on_builder {A} (cbb : cbb_world) (m : part (bn_world * cbb_world) A)
    : part (bn_world * Z) (A * cbb_world) := fun '(w, buffers) =>
  match m (w, cbb) with
  | Some (x, (w', cbb')) => Some ((x, cbb'), (w', buffers))
  | None => None
  end.

Definition BN_bn2dec (a : Z) (oom : list bool) (junk : Z) : part (bn_world * Z) (option (list Z)) :=
  '(ok, cbb) ← new_builder 16 oom junk;
  '((text, copy), cbb) ← (if ok : bool then on_builder cbb (bn2dec_body a) else mret ((None, NULL), cbb));
  _ ← on_bn (BN_free copy);
  match text with
  | Some data => mret (Some data)
  | None => _ ← CBB_cleanup cbb; mret None
  end.

Definition BN_asc2bn (outp : option Z) (inp : list Z) : bnM (bool * option Z) :=
  let orig_in := inp in
  let inp := if char_at inp 0 =? 45 then tail inp else inp in
  '(num, out) ← (if (char_at inp 0 =? 48) && ((char_at inp 1 =? 88) || (char_at inp 1 =? 120)) then
                   BN_hex2bn outp (Some (drop 2 inp))
                 else BN_dec2bn outp (Some inp));
  if num =? 0 then mret (false, out)
  else if char_at orig_in 0 =? 45 then
    p ← of_opt out;
    zero ← BN_is_zero p;
    _ ← (if negb zero then update p (with_neg 1) else mret tt);
    mret (true, out)
  else mret (true, out).

(** *** The MPI format *)

(** [OPENSSL_memcpy] and stores to a buffer of the caller's. *)
Definition put_bytes (i : Z) (l : list Z) (out : list Z) : bnM (list Z) :=
  if (0 <=? i) && (i + Z.of_nat (length l) <=? Z.of_nat (length out)) then
    mret (list_inserts (Z.to_nat i) l out)
  else wrong.

Definition BN_bn2mpi (inp : Z) (out : option (list Z)) : bnM (Z * option (list Z)) :=
  bits ← BN_num_bits inp;
  let bytes := u64 (bits + 7) / 8 in
  let extend := if negb (bytes =? 0) && (Z.land bits 0x07 =? 0) then 1 else 0 in
  let len := u64 (bytes + extend) in
  if (len <? bytes) || (u64 (4 + len) <? len) || negb (Z.land len 0xffffffff =? len) then
    match out with
    | None => mret (4, None)
    | Some out => out ← put_bytes 0 [0; 0; 0; 0] out; mret (4, Some out)
    end
  else
    match out with
    | None => mret (u64 (4 + len), None)
    | Some out =>
      out ← put_bytes 0 [u8 (Z.shiftr len 24); u8 (Z.shiftr len 16); u8 (Z.shiftr len 8); u8 len] out;
      out ← (if extend =? 0 then mret out else put_bytes 4 [0] out);
      '(_, tail) ← BN_bn2bin inp (drop (Z.to_nat (4 + extend)) out);
      out ← put_bytes (4 + extend) tail out;
      neg ← get_neg inp;
      out ← (if negb (neg =? 0) && (0 <? len) then put_bytes 4 [Z.lor (char_at out 4) 0x80] out
             else mret out);
      mret (u64 (len + 4), Some out)
    end.

Definition BN_mpi2bn (inp : list Z) (out : Z) : bnM Z :=
  let len := Z.of_nat (length inp) in
  if len <? 4 then mret NULL
  else
    let in_len := Z.lor (Z.lor (Z.lor (Z.shiftl (char_at inp 0) 24) (Z.shiftl (char_at inp 1) 16))
                           (Z.shiftl (char_at inp 2) 8)) (char_at inp 3) in
    if negb (in_len =? len - 4) then mret NULL
    else
      '(out, out_is_alloced) ← (if out =? NULL then p ← BN_new malloc; mret (p, true) else mret (out, false));
      if out =? NULL then mret NULL
      else if in_len =? 0 then _ ← BN_zero out; mret out
      else
        let inp := drop 4 inp in
        p ← BN_bin2bn malloc inp out;
        if p =? NULL then
          _ ← (if out_is_alloced : bool then BN_free out else mret tt);
          mret NULL
        else
          let neg := negb (Z.land (char_at inp 0) 0x80 =? 0) in
          _ ← update out (with_neg (Z.b2z neg));
          _ ← (if neg then bits ← BN_num_bits out; _ ← BN_clear_bit out (s32 (u32 (bits - 1))); mret tt
               else mret tt);
          mret out.

Definition BN_bn2binpad (inp : Z) (out : list Z) : bnM (Z * list Z) :=
  r ← BN_bn2bin_padded out inp;
  mret (match r with Some out => (Z.of_nat (length out), out) | None => (-1, out) end).
Definition BN_bn2lebinpad (inp : Z) (out : list Z) : bnM (Z * list Z) :=
  r ← BN_bn2le_padded out inp;
  mret (match r with Some out => (Z.of_nat (length out), out) | None => (-1, out) end).
End bn.
