(* ===== verification/BnAsn1.v ===== *)
(** * Big numbers in ASN.1 and in the MPI format: what is written is read back

    [BN_marshal_asn1] is a writer in the sense of CbbSpec: it writes the contents of the
    INTEGER as one string of bytes between the opening and the flush of a child. *)
From S2P Require Export BnConvert CbbRoundtrip BnOps.

(** The bytes of a number, as many as it has. *)
Definition bn_bytes (v : Z) : list Z := be_bytes (Z.to_nat ((bit_length v + 7) / 8)) v.
(** The contents of its INTEGER: a zero byte first if the top bit is used, and for zero. *)
Definition bn_contents (v : Z) : list Z := (if bit_length v mod 8 =? 0 then [0] else []) ++ bn_bytes v.

Lemma bn_bytes_bytes v : bytes (bn_bytes v).
Proof. apply be_bytes_bytes. Qed.

Lemma length_bn_bytes v : lenZ (bn_bytes v) = (bit_length v + 7) / 8.
Proof.
  unfold bn_bytes. rewrite length_be_bytes. pose proof (bit_length_nonneg v). div_lia.
Qed.

Lemma bn_bytes_value v : 0 <= v -> be_value (bn_bytes v) = v.
Proof.
  intros Hv. pose proof (bit_length_nonneg v). apply be_value_be_bytes.
  destruct (Z.eq_dec v 0) as [->|Hne]; [split; [lia|by apply Z.pow_pos_nonneg; lia]|].
  destruct (bit_length_bounds v _ ltac:(lia) eq_refl) as [_ H2].
  split; [done|]. eapply Z.lt_le_trans; [exact H2|]. apply Z.pow_le_mono_r; div_lia.
Qed.

Lemma bn_contents_bytes v : bytes (bn_contents v).
Proof.
  apply bytes_app. split; [|apply bn_bytes_bytes].
  case_match; repeat constructor; unfold is_byte; lia.
Qed.

Lemma bn_contents_value v : 0 <= v -> be_value (bn_contents v) = v.
Proof.
  intros Hv. unfold bn_contents. rewrite be_value_app, bn_bytes_value by done.
  case_match; change (be_value [0]) with 0; change (be_value []) with 0; lia.
Qed.

Lemma length_bn_contents v : lenZ (bn_contents v) = bit_length v / 8 + 1.
Proof.
  unfold bn_contents. rewrite length_app, Nat2Z.inj_add, length_bn_bytes.
  pose proof (bit_length_nonneg v). case_bool; cbn [length]; div_lia.
Qed.

(** The first byte of a number is not zero, and has its top bit if that is used. *)
Lemma bn_bytes_first v b l :
  0 < v -> bn_bytes v = b :: l ->
  0 < b /\ (128 <= b <-> bit_length v mod 8 = 0).
Proof.
  intros Hv E. pose proof (bn_bytes_value v ltac:(lia)) as Ev. pose proof (length_bn_bytes v) as El.
  pose proof (bn_bytes_bytes v) as Hb. rewrite E in *. apply bytes_cons in Hb as [Hb Hl].
  rewrite be_value_cons in Ev. pose proof (be_value_range l Hl) as Hr. unfold is_byte in Hb.
  pose proof (bit_length_nonneg v) as Hn. cbn [length] in El.
  destruct (bit_length_bounds v _ ltac:(lia) eq_refl) as [H1 H2].
  remember (bit_length v) as k. assert (Ek : exists j, k = 8 * lenZ l + j /\ 1 <= j <= 8)
    by (exists (k - 8 * lenZ l); split; [lia|div_lia]).
  destruct Ek as (j & -> & Hj). clear Heqk El.
  replace (8 * lenZ l + j - 1) with (8 * lenZ l + (j - 1)) in H1 by lia.
  rewrite Z.pow_add_r in H1, H2 by lia. remember (2 ^ (8 * lenZ l)) as P.
  assert (Hb1 : 2 ^ (j - 1) <= b < 2 ^ j) by nia.
  rewrite (Z.mul_comm 8), Z.add_comm, Z.mod_add by done.
  assert (Hj8 : j = 1 \/ j = 2 \/ j = 3 \/ j = 4 \/ j = 5 \/ j = 6 \/ j = 7 \/ j = 8) by lia.
  destruct Hj8 as [-> | [-> | [-> | [-> | [-> | [-> | [-> | ->]]]]]]];
    match type of Hb1 with ?x <= _ < ?y =>
      let x' := eval vm_compute in x in let y' := eval vm_compute in y in
      change (x' <= b < y') in Hb1 end; div_lia.
Qed.

Lemma bn_contents_minimal v : 0 <= v -> Asn1Int.minimal (bn_contents v) /\ hd 0 (bn_contents v) < 128.
Proof.
  intros Hv. destruct (Z.eq_dec v 0) as [->|Hne]; [done|]. unfold bn_contents.
  pose proof (length_bn_bytes v) as El. pose proof (bn_bytes_first v) as Hf.
  pose proof (bn_bytes_bytes v) as Hb. pose proof (bit_length_nonneg v).
  destruct (bn_bytes v) as [|b l].
  { assert (bit_length v <> 0); [|cbn [length] in El; div_lia].
    intros E. destruct (bit_length_bounds v _ ltac:(lia) eq_refl) as [_ H2]. rewrite E in H2. cbn in H2. lia. }
  destruct (Hf b l ltac:(lia) eq_refl) as [H0 H1]. apply bytes_cons in Hb as [Hb Hl]. unfold is_byte in Hb.
  destruct (Z.eqb_spec (bit_length v mod 8) 0); cbn [app hd Asn1Int.minimal].
  - split; [lia|lia].
  - split; [destruct l; [done|lia]|lia].
Qed.

(** ** Writing *)

Lemma buffer_add_region n c p c' :
  cbb_buffer_add n c = (Some p, c') ->
  take (Z.to_nat n) (drop (Z.to_nat p) (buf (base c'))) = replicate (Z.to_nat n) (junk c).
Proof.
  assert (Hr : forall c1 p1, cbb_buffer_reserve n c = (Some p1, c1) ->
    p1 = len (base c) /\ buf (base c1) = buf (base c) /\ junk c1 = junk c).
  { intros c1 p1. unfold cbb_buffer_reserve, base_error, try, OPENSSL_realloc, fail, mbind, act_bind, read_obj, write_obj,
      mret, act_ret. cbv zeta. repeat case_match; intros; simplify_eq; try done; by split_and!. }
  unfold cbb_buffer_add, mbind, act_bind at 1. destruct (cbb_buffer_reserve n c) as [[p1|] c1]; [|done].
  destruct (Hr c1 p1 eq_refl) as (-> & Hb & Hj). intros E. injection E as <- <-.
  cbn [set_buf set_base base buf]. rewrite Hb, Hj. unfold len. rewrite Nat2Z.id, drop_app_length.
  rewrite take_ge; [done|]. by rewrite length_replicate.
Qed.

(** What an action on the builder gives a function that also has BIGNUMs, and leaves
    them alone. *)
Definition act_done {A} (w : bn_world) (r : option A * cbb_world) : option (bool * (bn_world * cbb_world)) :=
  Some (match r.1 with Some _ => true | None => false end, (w, r.2)).

Lemma act_done_bind {A B} w (m : act cbb_world A) (k : option A -> part (bn_world * cbb_world) bool)
    (k' : A -> act cbb_world B) c :
  (forall c1, k None (w, c1) = Some (false, (w, c1))) ->
  (forall x c1, k (Some x) (w, c1) = act_done w (k' x c1)) ->
  (on_act m ≫= k) (w, c) = act_done w ((m ≫= k') c).
Proof.
  intros Hn Hs. unfold mbind, part_bind, act_bind, on_act. destruct (m c) as [[x|] c1]; [apply Hs|apply Hn].
Qed.

Lemma part_bind_cong {St A B} (m m' : part St A) (k : A -> part St B) s :
  m s = m' s -> (m ≫= k) s = (m' ≫= k) s.
Proof. intros H. unfold mbind, part_bind. by rewrite H. Qed.

Lemma on_bn_read {St A} (m : bnM A) x w (s : St) : m w = Some (x, w) -> on_bn m (w, s) = Some (x, (w, s)).
Proof. intros H. unfold on_bn. by rewrite H. Qed.

Section marshal.
Context (a : Z) (ba : bignum) (w : bn_world) (Ha : bns w !! a = Some ba) (Hok : bn_ok ba).

Lemma bn2cbb_padded_eq child n c :
  0 <= n -> bn_abs ba < 2 ^ (8 * n) ->
  BN_bn2cbb_padded child n a (w, c)
  = act_done w (CBB_add_bytes child (be_bytes (Z.to_nat n) (bn_abs ba)) c).
Proof.
  intros Hn Hv. unfold BN_bn2cbb_padded, CBB_add_bytes. rewrite length_be_bytes, Z2Nat.id by done.
  unfold CBB_add_space, on_act, mbind, part_bind, act_bind.
  destruct (CBB_flush child c) as [[[]|] c0]; [|done].
  destruct (cbb_buffer_add n c0) as [[p|] c1] eqn:E; [|done].
  unfold get_st, on_bn. cbn beta iota. rewrite (buffer_add_region _ _ _ _ E).
  rewrite (BN_bn2bin_padded_spec a ba w Ha Hok), length_replicate, Z2Nat.id by done.
  by rewrite (proj2 (Z.ltb_lt _ _) Hv).
Qed.

Definition marshal_body (v : Z) (child : nat) : act cbb_world unit :=
  _ ← (if bit_length v mod 8 =? 0 then CBB_add_u8 child 0 else mret tt);
  CBB_add_bytes child (bn_bytes v).

Lemma marshal_eq d c :
  bn_neg ba = 0 ->
  BN_marshal_asn1 d a (w, c)
  = act_done w ((child ← CBB_add_asn1 d CBS_ASN1_INTEGER; _ ← marshal_body (bn_abs ba) child; CBB_flush d) c).
Proof.
  intros Hneg. unfold BN_marshal_asn1.
  rewrite (part_bind_some _ _ (w, c) false (w, c)).
  2: { unfold on_bn, BN_is_negative. erewrite part_bind_some by (by apply get_neg_spec). by rewrite Hneg. }
  cbn beta iota. apply act_done_bind; [done|]. intros child c1.
  rewrite (part_bind_some _ _ (w, c1) _ _ (on_bn_read _ _ _ _ (BN_num_bits_spec a ba w Ha Hok))).
  unfold marshal_body. rewrite act_bind_assoc.
  rewrite (part_bind_cong (if bit_length (bn_abs ba) mod 8 =? 0 then on_act (CBB_add_u8 child 0) else mret (Some tt))
    (on_act (if bit_length (bn_abs ba) mod 8 =? 0 then CBB_add_u8 child 0 else mret tt))) by (by case_match).
  apply act_done_bind; [done|]. intros [] c2.
  rewrite (part_bind_some _ _ (w, c2) _ _ (on_bn_read _ _ _ _ (BN_num_bytes_spec a ba w Ha Hok))).
  pose proof (bit_length_nonneg (bn_abs ba)).
  rewrite (part_bind_some _ _ _ _ _ (bn2cbb_padded_eq child ((bit_length (bn_abs ba) + 7) / 8) c2 ltac:(div_lia) (num_bytes_fit ba Hok))).
  fold (bn_bytes (bn_abs ba)). unfold mbind, act_bind at 1.
  destruct (CBB_add_bytes child (bn_bytes (bn_abs ba)) c2) as [[[]|] c3]; cbn [fst snd negb]; [|done].
  unfold part_bind, on_act. by destruct (CBB_flush d c3) as [[]].
Qed.
End marshal.

Lemma marshal_body_writes d v :
  bit_length v < 2 ^ 64 -> Writes d (bn_contents v) (marshal_body v d).
Proof.
  intros Hl. pose proof (bit_length_nonneg v). apply Writes_bind; intros.
  - case_match; [apply CBB_add_u8_writes; unfold is_byte; lia|apply Writes_ret].
  - apply CBB_add_bytes_writes. unfold CBS_len. rewrite length_bn_bytes. div_lia.
Qed.

Lemma bn_bits_bound b : bn_ok b -> bit_length (bn_abs b) <= 64 * BN_MAX_WORDS.
Proof.
  intros Hok. pose proof (bn_abs_range b Hok) as Hr. destruct Hok as (Hw & _ & Hmax & _).
  transitivity (64 * bn_width b); [|lia]. apply bit_length_le; [lia|].
  replace (2 ^ (64 * bn_width b)) with (bpow (Z.to_nat (bn_width b))); [done|].
  unfold bpow, wbase. rewrite <-Z.pow_mul_r by lia. f_equal. lia.
Qed.

(** ** Reading *)

Section parse.
Context (malloc : gmap Z bignum -> Z) (r : Z) (br : bignum) (w : bn_world).
Context (Hr : bns w !! r = Some br) (Hok : bn_ok br) (Hown : owned br) (Hnull : r <> NULL).

(** What the reader gives for the contents of an INTEGER and what follows it: those of a
    negative number or not of the least length are refused. *)
Lemma parse_contents contents rest :
  bytes contents -> CBS_len contents < 2 ^ 32 ->
  let res := BN_parse_asn1_unsigned malloc r (w, der CBS_ASN1_INTEGER contents ++ rest) in
  (Asn1Int.minimal contents /\ hd 0 contents < 128
    /\ exists ok b' o, res = Some (ok, (mk_bn_world (<[r := b']> (bns w)) o, rest))
      /\ bn_ok b' /\ bn_flags b' = bn_flags br
      /\ if ok : bool then bn_val b' = be_value contents /\ bn_neg b' = 0 else bytes_room w contents)
  \/ (~ (Asn1Int.minimal contents /\ hd 0 contents < 128) /\ res = Some (false, (w, rest))).
Proof.
  intros Hb Hl res. subst res. unfold BN_parse_asn1_unsigned.
  rewrite (part_bind_some _ _ _ (Some contents) (w, rest))
    by (unfold on_act; by rewrite CBS_get_asn1_app by (apply integer_tag_ok || done)).
  cbn beta iota. destruct (valid_integer_spec contents Hb) as [[Hm ->]|[Hm ->]].
  2: { right. by split; [intros [? _]|]. }
  destruct (Z.leb_spec 128 (hd 0 contents)) as [H1|H1]; [right; split; [lia|done]|].
  left. split_and!; [done|done|]. destruct (BN_bin2bn_spec malloc r br w Hr Hok Hown Hnull contents Hb)
    as (ok & b' & o & E & Hok' & Hf & _ & HP).
  exists ok, b', o. rewrite (part_bind_some _ _ _ (if ok then r else NULL) (mk_bn_world (<[r := b']> (bns w)) o, rest))
    by (unfold on_bn; by rewrite E).
  split_and!; [|done|done|].
  - destruct ok; [|done]. by rewrite (proj2 (Z.eqb_neq r NULL) Hnull).
  - destruct ok; [|done]. destruct HP as [Hv Hn]. destruct contents; [done|]. unfold bn_val. by rewrite Hn.
Qed.

Lemma parse_number x rest :
  0 <= x -> CBS_len (bn_contents x) < 2 ^ 32 ->
  exists read b' o, BN_parse_asn1_unsigned malloc r (w, der CBS_ASN1_INTEGER (bn_contents x) ++ rest)
      = Some (read, (mk_bn_world (<[r := b']> (bns w)) o, rest))
    /\ if read : bool then bn_ok b' /\ bn_val b' = x else no_room w (bit_length x / 64 + 1).
Proof.
  intros Hx Hl. destruct (parse_contents (bn_contents x) rest (bn_contents_bytes x) Hl)
    as [(_ & _ & ok & b' & o & E & Hok' & _ & HP)|[[] _]]; [|by apply bn_contents_minimal].
  exists ok, b', o. split; [exact E|]. destruct ok.
  - destruct HP as [Hv _]. by rewrite Hv, bn_contents_value.
  - unfold bytes_room in HP. rewrite length_bn_contents, Z.add_simpl_r, Z.div_div in HP by lia. done.
Qed.
End parse.

(** C19. A number that is written as an ASN.1 INTEGER is read back. [BN_marshal_asn1]
    refuses a negative number before it writes anything; for any other it appends the DER
    element whose contents are the shortest two's complement form of the number, or fails
    for lack of room with the error recorded. Whatever follows, [BN_parse_asn1_unsigned]
    takes exactly that element and leaves the number in its destination, a BIGNUM with any
    value before, unless there is no room for the words; no other BIGNUM changes. *)
Theorem BN_asn1_roundtrip malloc d a ba w c :
  bns w !! a = Some ba -> bn_ok ba -> ready d c ->
  if bn_neg ba =? 0 then
    let e := der CBS_ASN1_INTEGER (bn_contents (bn_abs ba)) in
    exists ok c', BN_marshal_asn1 d a (w, c) = Some (ok, (w, c'))
      /\ (if ok : bool then extends c c' e else error (base c') = true /\ CbbSpec.no_room c (CBS_len e))
      /\ forall r br v rest, bns v !! r = Some br -> bn_ok br -> owned br -> r <> NULL ->
         exists read b' o, BN_parse_asn1_unsigned malloc r (v, e ++ rest)
             = Some (read, (mk_bn_world (<[r := b']> (bns v)) o, rest))
           /\ if read : bool then bn_ok b' /\ bn_val b' = bn_val ba
              else no_room v (bit_length (bn_abs ba) / 64 + 1)
  else BN_marshal_asn1 d a (w, c) = Some (false, (w, c)).
Proof.
  intros Ha Hok Hc. pose proof (bn_abs_range ba Hok) as Habs. pose proof (bn_bits_bound ba Hok) as Hbits.
  change (64 * BN_MAX_WORDS) with (64 * 8388607) in Hbits. pose proof (bit_length_nonneg (bn_abs ba)).
  assert (Hlen : CBS_len (bn_contents (bn_abs ba)) <= 0xfffffffe)
    by (unfold CBS_len; rewrite length_bn_contents; div_lia).
  destruct (Z.eqb_spec (bn_neg ba) 0) as [Hneg|Hneg].
  2: { unfold BN_marshal_asn1. rewrite (part_bind_some _ _ (w, c) true (w, c)); [done|].
       unfold on_bn, BN_is_negative. erewrite part_bind_some by (by apply get_neg_spec).
       by destruct (Z.eqb_spec (bn_neg ba) 0). }
  cbv zeta. rewrite (marshal_eq a ba w Ha Hok d c Hneg).
  pose proof (element_writes d CBS_ASN1_INTEGER _ (marshal_body (bn_abs ba)) ltac:(done) Hlen
    ltac:(apply marshal_body_writes; lia) c Hc) as Hw.
  destruct ((child ← CBB_add_asn1 d CBS_ASN1_INTEGER; _ ← marshal_body (bn_abs ba) child; CBB_flush d) c)
    as [[u|] c']; eexists _, c'; (split_and!; [done|exact Hw|]); intros r br v rest Hr Hbr Hown Hnull;
    destruct (parse_number malloc r br v Hr Hbr Hown Hnull (bn_abs ba) rest) as (ok & b' & o & E & HP);
    try lia; exists ok, b', o; unfold bn_val at 2; by rewrite Hneg.
Qed.

(** Eight bytes with the top bit used: the element has nine. *)
Lemma BN_asn1_roundtrip_witness :
  let e := der CBS_ASN1_INTEGER (bn_contents (2 ^ 64 - 1)) in
  exists ok c', BN_marshal_asn1 0 1 (three_numbers, growable) = Some (ok, (three_numbers, c'))
    /\ (if ok : bool then extends growable c' e
        else error (base c') = true /\ CbbSpec.no_room growable (CBS_len e))
    /\ forall r br v rest, bns v !! r = Some br -> bn_ok br -> owned br -> r <> NULL ->
       exists read b' o, BN_parse_asn1_unsigned bump r (v, e ++ rest)
           = Some (read, (mk_bn_world (<[r := b']> (bns v)) o, rest))
         /\ if read : bool then bn_ok b' /\ bn_val b' = 2 ^ 64 - 1
            else no_room v (bit_length (2 ^ 64 - 1) / 64 + 1).
Proof.
  apply (BN_asn1_roundtrip bump 0 1 (mk_bn [2 ^ 64 - 1] 1 1 0 1) three_numbers growable); [done| |apply growable_ready].
  by apply (three_numbers_ok 1).
Defined.

(** ** The MPI format

    Four bytes of length, and the contents of the INTEGER of the absolute value with the
    sign in their top bit; a zero has none. *)

Definition mpi_contents (neg v : Z) : list Z :=
  if v =? 0 then []
  else match bn_contents v with
       | b :: l => (if neg =? 0 then b else Z.lor b 0x80) :: l
       | [] => []
       end.
Definition mpi_of (neg v : Z) : list Z := be_bytes 4 (lenZ (mpi_contents neg v)) ++ mpi_contents neg v.

Lemma bn_contents_cons v :
  0 <= v -> exists b l, bn_contents v = b :: l /\ 0 <= b < 128 /\ bytes l
    /\ lenZ l = bit_length v / 8 /\ v = b * 2 ^ (8 * lenZ l) + be_value l.
Proof.
  intros Hv. pose proof (bn_contents_value v Hv) as Ev. pose proof (length_bn_contents v) as El.
  pose proof (bn_contents_bytes v) as Hb. destruct (bn_contents_minimal v Hv) as [_ Hh].
  pose proof (bit_length_nonneg v). destruct (bn_contents v) as [|b l]; [cbn in El; div_lia|].
  apply bytes_cons in Hb as [Hb Hl]. unfold is_byte in Hb. cbn [hd] in Hh. rewrite be_value_cons in Ev.
  cbn [length] in El. exists b, l. split_and!; try done; lia.
Qed.

Lemma put_bytes_app p l old s w :
  length old = length l -> put_bytes (lenZ p) l (p ++ old ++ s) w = Some (p ++ l ++ s, w).
Proof.
  intros Hl. unfold put_bytes. rewrite !length_app.
  rewrite (proj2 (Z.leb_le _ _)), (proj2 (Z.leb_le _ _)) by lia. cbn [andb]. rewrite Nat2Z.id. unfold mret, part_ret.
  do 2 f_equal. apply list_eq. intros k. destruct (decide (k < length p)%nat).
  { by rewrite list_lookup_inserts_lt, !lookup_app_l by lia. }
  destruct (decide (k < length p + length l)%nat).
  - rewrite list_lookup_inserts by (rewrite ?length_app; lia). rewrite lookup_app_r, lookup_app_l by lia. done.
  - rewrite list_lookup_inserts_ge, !lookup_app_r by lia. f_equal. lia.
Qed.

Lemma be_4 x : [u8 (Z.shiftr x 24); u8 (Z.shiftr x 16); u8 (Z.shiftr x 8); u8 x] = be_bytes 4 x.
Proof.
  unfold be_bytes. cbn [le_split rev app]. unfold u8. rewrite !Z.shiftr_div_pow2, !Z.div_div by lia. done.
Qed.

(** The contents before the sign. *)
Definition mpi_extend (v : Z) : nat := if (v =? 0) || negb (bit_length v mod 8 =? 0) then 0 else 1.
Definition mpi_abs (v : Z) : list Z := replicate (mpi_extend v) 0 ++ bn_bytes v.

Lemma mpi_abs_contents v : mpi_abs v = if v =? 0 then [] else bn_contents v.
Proof.
  unfold mpi_abs, mpi_extend, bn_contents. destruct (Z.eqb_spec v 0) as [->|]; [done|].
  by destruct (bit_length v mod 8 =? 0).
Qed.

Lemma length_mpi_contents neg v : length (mpi_contents neg v) = length (mpi_abs v).
Proof. rewrite mpi_abs_contents. unfold mpi_contents. case_bool; [done|]. by destruct (bn_contents v). Qed.

Lemma mpi_write_sign neg v s p w :
  length p = 4%nat ->
  (if negb (neg =? 0) && (0 <? lenZ (mpi_abs v))
   then put_bytes 4 [Z.lor (char_at (p ++ mpi_abs v ++ s) 4) 0x80] (p ++ mpi_abs v ++ s)
   else mret (p ++ mpi_abs v ++ s)) w
  = Some (p ++ mpi_contents neg v ++ s, w).
Proof.
  intros Hp. rewrite mpi_abs_contents. unfold mpi_contents. destruct (v =? 0); [by rewrite andb_false_r|].
  destruct (bn_contents v) as [|b l]; [by rewrite andb_false_r|]. destruct (neg =? 0); [done|].
  cbn [negb andb length]. rewrite (proj2 (Z.ltb_lt _ _)) by lia.
  assert (Ec : char_at (p ++ (b :: l) ++ s) 4 = b) by (destruct p as [|? [|? [|? [|? [|? ?]]]]]; try done; cbn in Hp; lia).
  rewrite Ec. replace 4 with (lenZ p) by lia. by apply (put_bytes_app p [_] [b] (l ++ s)).
Qed.

(** The sizes the program computes. *)
Lemma mpi_sizes v :
  (if negb ((bit_length v + 7) / 8 =? 0) && (Z.land (bit_length v) 7 =? 0) then 1 else 0) = Z.of_nat (mpi_extend v)
  /\ (mpi_extend v <= 1)%nat /\ (bit_length v + 7) / 8 + Z.of_nat (mpi_extend v) = lenZ (mpi_abs v).
Proof.
  unfold mpi_abs. rewrite length_app, length_replicate, Nat2Z.inj_add, length_bn_bytes. unfold mpi_extend.
  change 7 with (Z.ones 3) at 2. rewrite Z.land_ones by lia. change (2 ^ 3) with 8.
  assert (Hz : ((bit_length v + 7) / 8 =? 0) = (v =? 0)).
  { destruct (Z.eqb_spec v 0) as [->|H0]; [done|]. apply Z.eqb_neq.
    assert (0 < bit_length v); [|div_lia]. unfold bit_length. pose proof (Z.log2_nonneg v). case_bool; lia. }
  rewrite Hz. destruct (v =? 0), (bit_length v mod 8 =? 0); cbn [negb andb orb]; split_and!; (done || lia).
Qed.

(** Writing, to a buffer that is large enough. *)
Lemma BN_bn2mpi_spec a ba w o s :
  bns w !! a = Some ba -> bn_ok ba -> length o = length (mpi_of (bn_neg ba) (bn_abs ba)) ->
  BN_bn2mpi a (Some (o ++ s)) w
  = Some ((lenZ (mpi_of (bn_neg ba) (bn_abs ba)), Some (mpi_of (bn_neg ba) (bn_abs ba) ++ s)), w).
Proof.
  intros Ha Hok Ho. unfold BN_bn2mpi. rewrite (part_bind_some _ _ _ _ _ (BN_num_bits_spec a ba w Ha Hok)).
  pose proof (bn_abs_range ba Hok) as Habs. pose proof (bn_bits_bound ba Hok) as Hbits.
  change (64 * BN_MAX_WORDS) with (64 * 8388607) in Hbits. pose proof (bit_length_nonneg (bn_abs ba)) as Hn.
  unfold mpi_of in *. rewrite length_app, length_be_bytes, length_mpi_contents in *. unfold mpi_abs in Ho.
  rewrite length_app, length_replicate in Ho. pose proof (length_bn_bytes (bn_abs ba)) as Hbb.
  pose proof (mpi_write_sign (bn_neg ba) (bn_abs ba) s (be_bytes 4 (lenZ (mpi_abs (bn_abs ba)))) w eq_refl) as Hsign.
  set (v := bn_abs ba) in *. rewrite (u64_small (bit_length v + 7)) by lia.
  destruct (mpi_sizes v) as (He & He1 & Hlen). rewrite He.
  assert (Hm : lenZ (mpi_abs v) < 2 ^ 31) by (rewrite <-Hlen; div_lia).
  assert (H0 : 0 <= (bit_length v + 7) / 8) by div_lia.
  rewrite Hlen, (u64_small (lenZ _)), (u64_small (4 + lenZ _)) by lia. change 0xffffffff with (Z.ones 32).
  rewrite Z.land_ones, Z.mod_small by lia. rewrite Z.eqb_refl, (proj2 (Z.ltb_ge _ _)), (proj2 (Z.ltb_ge _ _)) by lia.
  cbn [orb negb]. rewrite be_4.
  remember (mpi_abs v) as m eqn:Em. remember (be_bytes 4 (lenZ m)) as p eqn:Ep.
  assert (Hp : length p = 4%nat) by (subst p; apply length_be_bytes).
  rewrite <-(take_drop 4 o), <-(take_drop (mpi_extend v) (drop 4 o)), <-!app_assoc.
  assert (L1 : length (take 4 o) = 4%nat) by (rewrite length_take; lia).
  assert (L2 : length (take (mpi_extend v) (drop 4 o)) = mpi_extend v) by (rewrite length_take, length_drop; lia).
  assert (L3 : length (drop (mpi_extend v) (drop 4 o)) = length (bn_bytes v)) by (rewrite !length_drop; lia).
  remember (take 4 o) as o1. remember (take (mpi_extend v) (drop 4 o)) as o2. remember (drop (mpi_extend v) (drop 4 o)) as o3.
  erewrite part_bind_some by (apply (put_bytes_app [] p o1 (o2 ++ o3 ++ s)); lia). cbn [app].
  assert (E2 : (if Z.of_nat (mpi_extend v) =? 0 then mret (p ++ o2 ++ o3 ++ s) else put_bytes 4 [0] (p ++ o2 ++ o3 ++ s)) w
    = Some (p ++ replicate (mpi_extend v) 0 ++ o3 ++ s, w)).
  { destruct (mpi_extend v) as [|[|]]; [by destruct o2| |lia]. replace 4 with (lenZ p) by lia. by apply (put_bytes_app p [0]). }
  rewrite (part_bind_some _ _ _ _ _ E2). rewrite app_assoc.
  replace (Z.to_nat (4 + Z.of_nat (mpi_extend v))) with (length (p ++ replicate (mpi_extend v) 0))
    by (rewrite length_app, length_replicate; lia).
  rewrite drop_app_length. pose proof (BN_bn2bin_spec a ba w Ha Hok (o3 ++ s)) as Eb. fold v in Eb. cbv zeta in Eb.
  fold (bn_bytes v) in Eb. rewrite drop_app_length' in Eb by (unfold bn_bytes in L3; rewrite length_be_bytes in L3; done).
  erewrite part_bind_some by (apply Eb; rewrite length_app; lia). cbn beta iota.
  replace (4 + Z.of_nat (mpi_extend v)) with (lenZ (p ++ replicate (mpi_extend v) 0)) by (rewrite length_app, length_replicate; lia).
  erewrite part_bind_some.
  2: { rewrite <-(app_nil_r (o3 ++ s)) at 1. apply put_bytes_app. rewrite !length_app. lia. }
  rewrite (part_bind_some _ _ _ _ _ (get_neg_spec a ba w Ha)). rewrite app_nil_r, <-app_assoc, (app_assoc _ (bn_bytes v)).
  fold (mpi_abs v). rewrite <-Em. rewrite (part_bind_some _ _ _ _ _ Hsign). unfold mret, part_ret.
  rewrite u64_small by lia. do 3 f_equal. lia.
Qed.

(** Reading what was written, into a BIGNUM with any value. *)
Lemma be_4_value x0 x1 x2 x3 :
  bytes [x0; x1; x2; x3] ->
  Z.lor (Z.lor (Z.lor (Z.shiftl x0 24) (Z.shiftl x1 16)) (Z.shiftl x2 8)) x3 = be_value [x0; x1; x2; x3].
Proof.
  intros [H0 [H1 [H2 [H3 _]%bytes_cons]%bytes_cons]%bytes_cons]%bytes_cons. unfold is_byte in *.
  rewrite !Z.shiftl_mul_pow2 by lia. change (2 ^ 24) with (256 * 65536). change (2 ^ 16) with (256 * 256). change (2 ^ 8) with 256.
  rewrite (Z.lor_comm (x0 * _)), (lor_add (x1 * _) _ 24); [|lia|lia|rewrite Z.mul_assoc; change (256 * 65536) with (2 ^ 24); div_lia].
  rewrite (Z.lor_comm _ (x2 * _)), (lor_add (x2 * _) _ 16); [|lia|lia|change (2 ^ 16) with 65536; div_lia].
  rewrite (Z.lor_comm _ x3), (lor_add x3 _ 8); [|lia|lia|change (2 ^ 8) with 256; div_lia].
  unfold be_value. cbn. lia.
Qed.

(** The contents with their sign, as a number. *)
Lemma mpi_contents_cons neg v :
  0 < v -> neg = 0 \/ neg = 1 ->
  exists b l, mpi_contents neg v = b :: l /\ is_byte b /\ bytes l /\ (b <? 128) = (neg =? 0)
    /\ lenZ l = bit_length v / 8 /\ be_value (b :: l) = v + neg * 2 ^ (8 * lenZ l + 7)
    /\ v < 2 ^ (8 * lenZ l + 7).
Proof.
  intros Hv Hneg. destruct (bn_contents_cons v ltac:(lia)) as (b & l & E & Hb & Hl & Hll & Ev).
  pose proof (be_value_range l Hl) as Hr. unfold mpi_contents. rewrite E. destruct (Z.eqb_spec v 0) as [|_]; [lia|].
  assert (Hp : 2 ^ (8 * lenZ l + 7) = 128 * 2 ^ (8 * lenZ l)) by (rewrite Z.pow_add_r by lia; change (2 ^ 7) with 128; lia).
  assert (Hlor : Z.lor b 0x80 = b + 128) by (apply (lor_add b 128 7); [lia|lia|done]).
  destruct Hneg as [-> | ->]; cbn [Z.eqb].
  - exists b, l. rewrite be_value_cons, Hp. remember (2 ^ (8 * lenZ l)) as P.
    split_and!; try done; try (unfold is_byte; lia); try lia; nia.
  - exists (Z.lor b 0x80), l. rewrite Hlor, be_value_cons, Hp. remember (2 ^ (8 * lenZ l)) as P. change (1 =? 0) with false.
    split_and!; try done; try (unfold is_byte; lia); try lia; nia.
Qed.

Lemma bit_length_top v k : 0 <= k -> 0 <= v < 2 ^ k -> bit_length (v + 2 ^ k) = k + 1.
Proof.
  intros Hk Hv. unfold bit_length. rewrite (proj2 (Z.eqb_neq _ _)) by lia. f_equal. apply Z.log2_unique; [done|].
  rewrite Z.pow_succ_r by done. lia.
Qed.

Lemma clear_top v k : 0 <= k -> 0 <= v < 2 ^ k -> Z.clearbit (v + 2 ^ k) k = v.
Proof.
  intros Hk Hv. rewrite clearbit_sub by done. rewrite (proj2 (Z.testbit_true _ _ Hk)); [lia|].
  assert (0 < 2 ^ k) by lia. rewrite <-(Z.mul_1_l (2 ^ k)) at 1. rewrite Z.div_add, Z.div_small by lia. done.
Qed.

(** The sign bit is taken out of the number. *)
Lemma clear_sign_spec r b v k w :
  bns w !! r = Some b -> bn_ok b -> bn_neg b = 1 -> 0 <= k < 2 ^ 31 - 1 -> 0 < v < 2 ^ k -> bn_abs b = v + 2 ^ k ->
  exists b' o, (bits ← BN_num_bits r; _ ← BN_clear_bit r (s32 (u32 (bits - 1))); mret tt) w
      = Some (tt, mk_bn_world (<[r := b']> (bns w)) o)
    /\ bn_ok b' /\ bn_flags b' = bn_flags b /\ bn_neg b' = 1 /\ bn_abs b' = v.
Proof.
  intros Hr Hok Hn Hk Hv Ha. rewrite (part_bind_some _ _ _ _ _ (BN_num_bits_spec r b w Hr Hok)).
  rewrite Ha, bit_length_top by lia.
  assert (Es : s32 (u32 (k + 1 - 1)) = k).
  { rewrite Z.add_simpl_r. unfold s32, to_signed, u32. cbv zeta. rewrite !(Z.mod_small k) by lia.
    by rewrite (proj2 (Z.ltb_lt k (2 ^ (32 - 1)))) by (change (2 ^ (32 - 1)) with (2 ^ 31); lia). }
  rewrite Es. destruct (BN_clear_bit_spec r b w Hr Hok k ltac:(lia)) as (ok & b' & o & E & Hok' & Hf & _ & HP).
  rewrite (part_bind_some _ _ _ _ _ E). exists b', o. destruct ok.
  - destruct HP as [Ha' Hn']. rewrite Ha, clear_top in Ha' by lia. rewrite Ha', (proj2 (Z.eqb_neq v 0)) in Hn' by lia.
    split_and!; try done. congruence.
  - exfalso. pose proof (bn_abs_range b Hok) as Hr2. pose proof (proj1 Hok). rewrite Ha in Hr2.
    unfold bpow, wbase in Hr2. rewrite <-Z.pow_mul_r, Z2Nat.id in Hr2 by lia.
    pose proof (Z.pow_le_mono_r 2 (64 * bn_width b) k ltac:(lia) ltac:(lia)). lia.
Qed.

Lemma BN_mpi2bn_spec malloc neg v r br w :
  0 <= v -> bit_length v < 2 ^ 30 -> neg = 0 \/ neg = 1 ->
  bns w !! r = Some br -> bn_ok br -> owned br -> r <> NULL ->
  exists ok b' o, BN_mpi2bn malloc (mpi_of neg v) r w
      = Some (if ok : bool then r else NULL, mk_bn_world (<[r := b']> (bns w)) o)
    /\ bn_ok b' /\ bn_flags b' = bn_flags br
    /\ if ok then bn_val b' = (if neg =? 0 then v else - v) /\ no_neg_zero b' else no_room w (bit_length v / 64 + 1).
Proof.
  intros Hv Hbl Hneg Hr Hok Hown Hnull. unfold BN_mpi2bn, mpi_of. rewrite length_app, length_be_bytes.
  rewrite (proj2 (Z.ltb_ge _ _)) by lia. remember (mpi_contents neg v) as c eqn:Ec.
  pose proof (bit_length_nonneg v) as Hbn. assert (Hc : 0 <= lenZ c < 2 ^ 32).
  { subst c. rewrite length_mpi_contents. destruct (mpi_sizes v) as (_ & ? & <-). div_lia. }
  pose proof (be_value_be_bytes 4 (lenZ c) Hc) as Elen. pose proof (be_bytes_bytes 4 (lenZ c)) as Hlb.
  pose proof (length_be_bytes 4 (lenZ c)) as Hl4.
  destruct (be_bytes 4 (lenZ c)) as [|x0 [|x1 [|x2 [|x3 [|? ?]]]]] eqn:Eb; try (cbn in Hl4; lia).
  cbn [app]. change (char_at (x0 :: _) 0) with x0. change (char_at (x0 :: _) 1) with x1.
  change (char_at (x0 :: _) 2) with x2. change (char_at (x0 :: _) 3) with x3.
  rewrite be_4_value, Elen by done. replace (Z.of_nat (4 + length c) - 4) with (lenZ c) by lia.
  rewrite Z.eqb_refl, (proj2 (Z.eqb_neq r NULL) Hnull). cbn [negb]. erewrite part_bind_some by reflexivity. cbn beta iota.
  rewrite (proj2 (Z.eqb_neq r NULL) Hnull). cbn [drop]. rewrite drop_0.
  destruct (Z.eqb_spec v 0) as [->|H0].
  { change (mpi_contents neg 0) with (@nil Z) in Ec. subst c. cbn [length]. change (Z.of_nat 0 =? 0) with true. cbn iota.
    rewrite (part_bind_some _ _ _ _ _ (BN_zero_spec r br w Hr)).
    destruct (zero_record br Hok) as (Hz1 & Hz2 & Hz3 & Hz4). exists true, (with_width 0 (with_neg 0 br)), (bn_oom w).
    split_and!; [done|done|done|by destruct (neg =? 0)|done]. }
  destruct (mpi_contents_cons neg v ltac:(lia) Hneg) as (b & l & E & Hb & Hl & Htop & Hll & Hval & Hlt).
  rewrite E in Ec. subst c. rewrite (proj2 (Z.eqb_neq _ _)) by (cbn [length]; lia).
  destruct (BN_bin2bn_spec malloc r br w Hr Hok Hown Hnull (b :: l) ltac:(by apply bytes_cons))
    as (ok & b1 & o & E1 & Hok1 & Hf1 & _ & HP).
  rewrite (part_bind_some _ _ _ _ _ E1). destruct ok.
  2: { change (NULL =? NULL) with true. cbn iota. erewrite part_bind_some by reflexivity. exists false, b1, o.
       split_and!; [done|done|done|]. unfold bytes_room in HP. cbn [length] in HP.
       rewrite Nat2Z.inj_succ, Hll in HP. replace (Z.succ (bit_length v / 8) - 1) with (bit_length v / 8) in HP by lia.
       by rewrite Z.div_div in HP by lia. }
  rewrite (proj2 (Z.eqb_neq r NULL) Hnull). destruct HP as [Ha1 Hn1]. change (char_at (b :: l) 0) with b.
  rewrite high_bit_clear, Htop by done.
  erewrite part_bind_some by (apply bn_update_spec; apply lookup_insert_eq). rewrite set_bn_mk, insert_insert_eq.
  assert (Hok2 : bn_ok (with_neg neg b1)) by (apply with_neg_ok; [done|by destruct Hneg; subst; auto]).
  destruct Hneg as [-> | ->].
  - exists true, (with_neg 0 b1), o. split_and!; [done|done|done| |done]. change (bn_abs b1 = v). lia.
  - change (Z.b2z (negb (1 =? 0))) with 1. change (negb (1 =? 0)) with true. cbn iota.
    destruct (clear_sign_spec r (with_neg 1 b1) v (8 * lenZ l + 7) (mk_bn_world (<[r:=with_neg 1 b1]> (bns w)) o))
      as (b3 & o3 & E3 & Hok3 & Hf3 & Hn3 & Ha3);
      [apply lookup_insert_eq|done|done|div_lia|lia|change (bn_abs b1 = v + 2 ^ (8 * lenZ l + 7)); lia|].
    rewrite (part_bind_some _ _ _ _ _ E3). cbn [bns]. rewrite insert_insert_eq.
    exists true, b3, o3. split_and!; [done|done|by rewrite Hf3| |intros Hz; lia].
    unfold bn_val. by rewrite Hn3, Ha3.
Qed.

(** Through both: in any buffer that is large enough, and with anything behind it. *)
Lemma BN_mpi_roundtrip malloc a ba w o s r br v :
  bns w !! a = Some ba -> bn_ok ba -> length o = length (mpi_of (bn_neg ba) (bn_abs ba)) ->
  bns v !! r = Some br -> bn_ok br -> owned br -> r <> NULL ->
  exists n out, BN_bn2mpi a (Some (o ++ s)) w = Some ((n, Some out), w) /\ drop (length o) out = s
    /\ exists ok b' o', BN_mpi2bn malloc (take (Z.to_nat n) out) r v
         = Some (if ok : bool then r else NULL, mk_bn_world (<[r := b']> (bns v)) o')
       /\ bn_ok b'
       /\ if ok then bn_val b' = bn_val ba /\ no_neg_zero b' else no_room v (bit_length (bn_abs ba) / 64 + 1).
Proof.
  intros Ha Hok Ho Hr Hbr Hown Hnull. pose proof (bn_bits_bound ba Hok) as Hb. change (64 * BN_MAX_WORDS) with (64 * 8388607) in Hb.
  pose proof (bn_abs_range ba Hok). do 2 eexists. split; [by apply BN_bn2mpi_spec|]. rewrite Nat2Z.id, take_app_length.
  split; [by rewrite Ho, drop_app_length|].
  destruct (BN_mpi2bn_spec malloc (bn_neg ba) (bn_abs ba) r br v) as (ok & b' & o' & E & Hok' & _ & HP);
    try done; [lia|lia|by apply bn_sign|]. exists ok, b', o'. split_and!; [exact E|done|]. exact HP.
Qed.
