(* ===== verification/BnHex.v ===== *)
(** * Big numbers as text, and in hexadecimal

    The number a list of digits stands for, the longest run of digits of a text, and
    [bn_x2bn] with any decoder of digits; then [BN_bn2hex], [BN_hex2bn], and a number
    through both. *)
From S2P Require Export BnAsn1.

Definition digit (c : Z) : Z := default 0 (OPENSSL_fromxdigit c).
Definition number_of (base : Z) (l : list Z) : Z := fold_left (fun v c => v * base + digit c) l 0.

(** The longest prefix of characters with a property. *)
Fixpoint run_of (f : Z -> bool) (l : list Z) : list Z :=
  match l with
  | [] => []
  | c :: l => if f c then c :: run_of f l else []
  end.

Definition hex_char (d : Z) : Z := char_at hextable d.

Lemma fold_digits base l v :
  fold_left (fun v c => v * base + digit c) l v = v * base ^ lenZ l + number_of base l.
Proof.
  unfold number_of. revert v. induction l as [|c l IH]; intros v; [cbn; lia|]. cbn [fold_left length].
  rewrite (IH (v * base + digit c)), (IH (0 * base + digit c)), Nat2Z.inj_succ, Z.pow_succ_r by lia. ring.
Qed.

Lemma number_of_app base l1 l2 : number_of base (l1 ++ l2) = number_of base l1 * base ^ lenZ l2 + number_of base l2.
Proof. unfold number_of at 1. rewrite fold_left_app. apply fold_digits. Qed.

Lemma number_of_cons base c l : number_of base (c :: l) = digit c * base ^ lenZ l + number_of base l.
Proof.
  change (c :: l) with ([c] ++ l). rewrite number_of_app. unfold number_of at 1. cbn [fold_left].
  by rewrite Z.mul_0_l, Z.add_0_l.
Qed.

Lemma xdigit_digit c : OPENSSL_isxdigit c = true -> OPENSSL_fromxdigit c = Some (digit c) /\ 0 <= digit c < 16.
Proof.
  unfold digit, OPENSSL_isxdigit, OPENSSL_fromxdigit, OPENSSL_isdigit. intros H.
  destruct (Z.leb_spec 48 c), (Z.leb_spec c 57), (Z.leb_spec 97 c), (Z.leb_spec c 102), (Z.leb_spec 65 c), (Z.leb_spec c 70);
    try done; cbn [andb from_option]; unfold id; (split; [done|lia]).
Qed.

Lemma digit_decimal c : OPENSSL_isdigit c = true -> digit c = c - 48 /\ 0 <= digit c < 10.
Proof.
  unfold digit, OPENSSL_fromxdigit. intros H. rewrite H. unfold OPENSSL_isdigit in H. cbn [from_option]. unfold id. lia.
Qed.

Lemma number_of_range base l :
  1 < base -> Forall (fun c => 0 <= digit c < base) l -> 0 <= number_of base l < base ^ lenZ l.
Proof.
  intros Hb. induction 1 as [|c l Hc Hl IH]; [done|]. rewrite number_of_cons. cbn [length].
  rewrite Nat2Z.inj_succ, Z.pow_succ_r by lia. remember (base ^ lenZ l) as P. remember (number_of base l). nia.
Qed.

Lemma hex_char_digit d : 0 <= d < 16 -> OPENSSL_isxdigit (hex_char d) = true /\ digit (hex_char d) = d.
Proof.
  intros Hd. assert (Hall : Forall (fun d => OPENSSL_isxdigit (hex_char d) = true /\ digit (hex_char d) = d) (seqZ 0 16))
    by (apply (bool_decide_unpack _); vm_compute; done).
  rewrite Forall_forall in Hall. apply Hall. apply elem_of_seqZ. lia.
Qed.

Lemma run_of_Forall f l : Forall (fun c => f c = true) (run_of f l).
Proof. induction l as [|c l IH]; cbn; [constructor|]. destruct (f c) eqn:E; by constructor. Qed.

Lemma run_of_prefix f l : exists rest, l = run_of f l ++ rest.
Proof.
  induction l as [|c l [rest IH]]; cbn; [by exists []|]. destruct (f c); [exists rest; by rewrite IH at 1|by exists (c :: l)].
Qed.

Lemma run_of_app f l rest :
  Forall (fun c => f c = true) l -> (forall c rest', rest = c :: rest' -> f c = false) -> run_of f (l ++ rest) = l.
Proof.
  intros Hl Hr. induction Hl as [|c l Hc Hl IH]; cbn; [|by rewrite Hc, IH].
  destruct rest as [|c rest]; [done|]. cbn. by rewrite (Hr c rest).
Qed.

Lemma count_chars_spec f l i neg :
  i + lenZ l + neg <= INT_MAX -> count_chars f l i neg = i + lenZ (run_of f l).
Proof.
  revert i. induction l as [|c l IH]; intros i Hl; cbn [count_chars run_of length] in *; [lia|].
  destruct (f c); cbn [andb length]; [|lia].
  destruct (Z.ltb_spec (i + neg) INT_MAX); [|lia]. rewrite IH by lia. lia.
Qed.

Lemma bn_alloc_ok_spec w :
  exists o, bn_alloc_ok w = Some (negb (hd false (bn_oom w)), mk_bn_world (bns w) o) /\ oom_after w o.
Proof.
  unfold bn_alloc_ok, oom_after. destruct w as [h [|b o]]; [exists []|exists o]; split; auto.
Qed.

(** ** A number from text *)

(** The sign of a text and its digits. *)
Definition text_neg (s : list Z) : bool := char_at s 0 =? 45.
Definition text_rest (s : list Z) : list Z := if text_neg s then tail s else s.
Definition text_digits (f : Z -> bool) (s : list Z) : list Z := run_of f (text_rest s).
Definition text_value (f : Z -> bool) (base : Z) (s : list Z) : Z :=
  if text_neg s then - number_of base (text_digits f s) else number_of base (text_digits f s).
(** The characters that were used. *)
Definition text_used (f : Z -> bool) (s : list Z) : Z := Z.b2z (text_neg s) + lenZ (text_digits f s).

Section read.
Context (malloc : gmap Z bignum -> Z) (r : Z) (br : bignum) (w : bn_world).
Context (Hr : bns w !! r = Some br) (Hok : bn_ok br) (Hnull : r <> NULL).

(** A decoder: it stores the number [n] in [r], or it fails, for the reason [R]. *)
Definition decodes (R : Prop) (n : Z) (res : option (bool * bn_world)) : Prop :=
  exists ok b' o, res = Some (ok, mk_bn_world (<[r := b']> (bns w)) o)
    /\ bn_ok b' /\ bn_flags b' = bn_flags br /\ if ok : bool then bn_abs b' = n else R.

(** A reader: it uses [num] characters and gives [v], or uses none. *)
Definition reads (R : Prop) (num v : Z) (res : option ((Z * option Z) * bn_world)) : Prop :=
  exists ok b' o, res = Some ((if ok : bool then num else 0, Some r), mk_bn_world (<[r := b']> (bns w)) o)
    /\ bn_ok b' /\ bn_flags b' = bn_flags br /\ if ok then bn_val b' = v /\ no_neg_zero b' else R.

Definition zeroed : bignum := with_width 0 (with_neg 0 br).

Lemma zeroed_ok : bn_ok zeroed /\ (owned br -> owned zeroed).
Proof. split; [by apply zero_record|done]. Qed.

Lemma bn_x2bn_spec decode f base s R :
  char_at s 0 <> 0 -> lenZ s <= INT_MAX -> 0 <= number_of base (text_digits f s) ->
  decodes R (number_of base (text_digits f s))
    (decode r (text_rest s) (lenZ (text_digits f s)) (set_bn r zeroed w)) ->
  reads R (text_used f s) (text_value f base s) (bn_x2bn malloc (Some r) (Some s) decode f w).
Proof.
  intros Hs Hlen Hn (ok & b' & o & E & Hok' & Hf & HP). unfold bn_x2bn. rewrite (proj2 (Z.eqb_neq _ _) Hs).
  assert (Hpair : (if char_at s 0 =? 45 then (1, tail s) else (0, s)) = (Z.b2z (text_neg s), text_rest s))
    by (unfold text_rest; fold (text_neg s); by destruct (text_neg s)). rewrite Hpair. clear Hpair.
  assert (Hnum : count_chars f (text_rest s) 0 (Z.b2z (text_neg s)) = lenZ (text_digits f s)).
  { unfold text_digits. rewrite count_chars_spec; [lia|].
    unfold text_rest, text_neg. destruct (char_at s 0 =? 45); cbn [Z.b2z]; [|lia]. destruct s; [by cbn in Hs|]. cbn [tail length] in *; lia. }
  rewrite Hnum, (proj2 (Z.eqb_neq r NULL) Hnull). clear Hnum.
  rewrite (part_bind_some _ _ w r (set_bn r zeroed w)) by (by rewrite (part_bind_some _ _ _ _ _ (BN_zero_spec r br w Hr))).
  rewrite (proj2 (Z.eqb_neq r NULL) Hnull), (part_bind_some _ _ _ _ _ E).
  destruct ok; cbn [negb]; [|by exists false, b', o].
  erewrite part_bind_some by (apply bn_set_minimal_width_spec; [apply lookup_insert_eq|done]).
  rewrite set_bn_mk, insert_insert_eq.
  erewrite part_bind_some by (apply BN_is_zero_spec; [apply lookup_insert_eq|by apply minimal_ok]).
  rewrite minimal_abs, HP by done. unfold text_value, text_used. rewrite Z.add_comm.
  pose proof (minimal_neg b' Hok') as Hmn. rewrite HP in Hmn.
  destruct (Z.eqb_spec (number_of base (text_digits f s)) 0) as [E0|E0]; cbn [negb].
  - erewrite part_bind_some by reflexivity. exists true, (minimal b'), o.
    split_and!; [done|by apply minimal_ok|done| |by apply minimal_no_neg_zero].
    rewrite minimal_val by done. unfold bn_val. rewrite HP, E0. by do 2 case_match.
  - erewrite part_bind_some by (apply bn_update_spec; apply lookup_insert_eq). rewrite set_bn_mk, insert_insert_eq.
    exists true, (with_neg (Z.b2z (text_neg s)) (minimal b')), o.
    split_and!; [done|apply with_neg_ok; [by apply minimal_ok|destruct (text_neg s); auto]|done| |].
    + unfold bn_val, bn_abs. cbn [with_neg bn_neg]. fold (bn_abs (minimal b')).
      change (limbs (with_neg (Z.b2z (text_neg s)) (minimal b'))) with (limbs (minimal b')).
      fold (bn_abs (minimal b')). rewrite minimal_abs, HP by done. by destruct (text_neg s).
    + intros H0. change (bn_abs (minimal b') = 0) in H0. rewrite minimal_abs in H0 by done. congruence.
Qed.
End read.

(** What a reader of digits of some base sees of a text with a sign, digits and the
    terminator. *)
Lemma text_of_parts f base neg body :
  f 0 = false -> Forall (fun c => f c = true) body -> (exists c l, body = c :: l /\ c <> 0 /\ c <> 45) ->
  let s := (if neg =? 0 then [] else [45]) ++ body ++ [0] in
  char_at s 0 <> 0 /\ text_digits f s = body /\ text_used f s = lenZ s - 1
  /\ text_value f base s = if neg =? 0 then number_of base body else - number_of base body.
Proof.
  intros Hf Hbody (c & l & Eb & Hc & Hs) s.
  assert (Hrun : run_of f (body ++ [0]) = body).
  { apply run_of_app; [done|]. by intros ? ? [= <- _]. }
  unfold text_used, text_value, text_digits, text_rest, text_neg. subst s. destruct (neg =? 0); cbn [app].
  - assert (E0 : char_at (body ++ [0]) 0 = c) by (by rewrite Eb). rewrite E0, (proj2 (Z.eqb_neq c 45) Hs), Hrun.
    rewrite length_app. cbn [length Z.b2z]. split_and!; (done || lia).
  - change (char_at _ 0) with 45. change (45 =? 45) with true. cbn [tail length Z.b2z]. rewrite Hrun, length_app. cbn [length].
    split_and!; try done. lia.
Qed.

(** ** In hexadecimal

    [BN_bn2hex] writes the sign and the bytes of the number, two digits each, and a zero
    as one digit; [BN_hex2bn] reads a sign and the longest run of digits; and so a number
    that is written is read back. *)

(** ** Writing *)

Definition hex_pair (b : Z) : list Z := [hex_char (b / 16); hex_char (b mod 16)].
Definition hex_of (l : list Z) : list Z := concat (map hex_pair l).
Fixpoint drop_zeros (l : list Z) : list Z :=
  match l with
  | x :: l' => if x =? 0 then drop_zeros l' else l
  | [] => []
  end.

Definition emit (pz : list Z * bool) (v : Z) : list Z * bool :=
  let '(p, z) := pz in if z || negb (v =? 0) then (p ++ hex_pair v, true) else (p, z).

Lemma emit_all l p : fold_left emit l (p, true) = (p ++ hex_of l, true).
Proof.
  revert p. induction l as [|b l IH]; intros p; [by rewrite app_nil_r|]. cbn [fold_left emit orb].
  rewrite IH. unfold hex_of. cbn [map concat]. by rewrite app_assoc.
Qed.

Lemma emit_stripped l p : (fold_left emit l (p, false)).1 = p ++ hex_of (drop_zeros l).
Proof.
  revert p. induction l as [|b l IH]; intros p; [by rewrite app_nil_r|]. cbn [fold_left emit orb drop_zeros].
  destruct (Z.eqb_spec b 0); cbn [negb]; [apply IH|]. rewrite emit_all. cbn [fst]. unfold hex_of. cbn [map concat].
  by rewrite app_assoc.
Qed.

Lemma shift_byte x j : 0 <= x -> 0 <= j -> Z.land (s32 (Z.shiftr x j)) 0xff = x / 2 ^ j mod 256.
Proof.
  intros Hx Hj. change 0xff with (Z.ones 8). rewrite Z.land_ones by lia. rewrite Z.shiftr_div_pow2 by lia.
  change (2 ^ 8) with 256. remember (x / 2 ^ j) as y. clear.
  unfold s32, to_signed. cbv zeta. case_bool; div_lia.
Qed.

Lemma hex_byte_emit x pz j : 0 <= x -> 0 <= j -> hex_byte x pz j = emit pz (x / 2 ^ j mod 256).
Proof.
  intros Hx Hj. unfold hex_byte, emit. destruct pz as [p z]. cbv zeta. rewrite shift_byte by done.
  remember (x / 2 ^ j mod 256) as v. unfold hex_pair, hex_char.
  rewrite Z.shiftr_div_pow2 by lia. change (2 ^ 4) with 16. change 0x0f with (Z.ones 4).
  rewrite Z.land_ones by lia. done.
Qed.

Lemma hex_word_emit x pz : word x -> hex_word x pz = fold_left emit (rev (le_split 8 x)) pz.
Proof.
  intros [Hx _]. unfold hex_word. cbn [fold_left]. rewrite !hex_byte_emit by lia.
  assert (E : rev (le_split 8 x) = map (fun j => x / 2 ^ j mod 256) [56; 48; 40; 32; 24; 16; 8; 0]); [|by rewrite E].
  cbn [le_split rev app map]. rewrite !Z.div_div by lia. by rewrite Z.pow_0_r, Z.div_1_r.
Qed.

Lemma hex_loop_spec a ba w m pz :
  bns w !! a = Some ba -> bn_ok ba -> (m <= length (limbs ba))%nat ->
  hex_loop m a pz w = Some (fold_left emit (rev (words_bytes (take m (limbs ba)))) pz, w).
Proof.
  intros Ha Hok. revert pz. induction m as [|m IH]; intros pz Hm; [done|]. cbn [hex_loop].
  destruct (lookup_lt_is_Some_2 (limbs ba) m) as [x Hx]; [lia|].
  assert (Hat : words_at (bns w) (a, Z.of_nat m) [x]).
  { exists ba. split_and!; [done|cbn; lia|]. intros [|j] y; [|done]. cbn. intros [= <-].
    rewrite Nat2Z.id, Nat.add_0_r. unfold limbs in Hx. by apply lookup_take_Some in Hx as [Hx _]. }
  rewrite (part_bind_some _ _ _ _ _ (load_spec _ _ _ _ Hat)), IH by lia. do 2 f_equal.
  assert (Hw : word x) by exact (Forall_lookup_1 _ _ _ _ (limbs_words _ Hok) Hx).
  rewrite (take_S_r _ _ _ Hx), words_bytes_app, rev_app_distr, fold_left_app, hex_word_emit by done.
  by rewrite words_bytes_cons, app_nil_r.
Qed.

Lemma bn_bytes_unique b l : bytes (b :: l) -> b <> 0 -> bn_bytes (be_value (b :: l)) = b :: l.
Proof.
  intros Hb H0. assert (E : Z.to_nat ((bit_length (be_value (b :: l)) + 7) / 8) = length (b :: l)).
  { pose proof Hb as [Hb0 Hl]%bytes_cons. pose proof (be_value_range l Hl) as Hr. unfold is_byte in Hb0.
    rewrite be_value_cons. pose proof (pow8_pos (length l)). cbn [length].
    remember (b * 2 ^ (8 * lenZ l) + be_value l) as v eqn:Ev.
    assert (2 ^ (8 * lenZ l) <= v < 2 ^ (8 * lenZ l + 8)) by (rewrite Z.pow_add_r by lia; change (2 ^ 8) with 256; nia).
    destruct (bit_length_bounds v _ ltac:(lia) eq_refl) as [Hb1 Hb2]. pose proof (bit_length_nonneg v).
    assert (8 * lenZ l < bit_length v) by (apply (Z.pow_lt_mono_r_iff 2); lia).
    assert (bit_length v <= 8 * lenZ l + 8) by (apply bit_length_le; lia). div_lia. }
  unfold bn_bytes. rewrite E. by apply be_bytes_value.
Qed.

Lemma drop_zeros_bytes l : bytes l -> drop_zeros l = bn_bytes (be_value l).
Proof.
  induction 1 as [|b l Hb Hl IH]; [done|]. cbn [drop_zeros]. destruct (Z.eqb_spec b 0) as [->|H0].
  - rewrite IH. f_equal. rewrite be_value_cons. lia.
  - symmetry. apply bn_bytes_unique; [by apply bytes_cons|done].
Qed.

Lemma length_hex_of l : length (hex_of l) = (2 * length l)%nat.
Proof. induction l as [|b l IH]; [done|]. unfold hex_of in *. cbn [map concat]. rewrite length_app, IH. cbn. lia. Qed.

(** The text of a number. A zero with a sign is written with it. *)
Definition hex_text (neg : Z) (v : Z) : list Z :=
  (if neg =? 0 then [] else [45]) ++ (if v =? 0 then [48] else hex_of (bn_bytes v)).

(** The loop strips the leading zero bytes. *)
Lemma hex_digits_spec l p :
  words l -> (fold_left emit (rev (words_bytes l)) (p, false)).1 = p ++ hex_of (bn_bytes (val l)).
Proof.
  intros Hl. pose proof (words_bytes_bytes l) as Hb. rewrite emit_stripped, drop_zeros_bytes.
  - unfold be_value. by rewrite rev_involutive, words_bytes_value.
  - rewrite rev_is_reverse. by apply Forall_reverse.
Qed.

Lemma length_bn_bytes_words l : words l -> (length (bn_bytes (val l)) <= 8 * length l)%nat.
Proof.
  intros Hl. pose proof (length_bn_bytes (val l)) as E. pose proof (val_range l Hl) as Hr.
  assert (bit_length (val l) <= 64 * lenZ l); [|div_lia]. apply bit_length_le; [lia|].
  unfold bpow, wbase in Hr. by rewrite <-Z.pow_mul_r in Hr by lia.
Qed.

Lemma BN_bn2hex_spec a ba w :
  bns w !! a = Some ba -> bn_ok ba ->
  exists o, BN_bn2hex a w
    = Some (if hd false (bn_oom w) then None else Some (hex_text (bn_neg ba) (bn_abs ba) ++ [0]),
            mk_bn_world (bns w) o) /\ oom_after w o.
Proof.
  intros Ha Hok. unfold BN_bn2hex. rewrite (part_bind_some _ _ _ _ _ (bn_minimal_width_spec a ba w Ha Hok)).
  destruct (bn_alloc_ok_spec w) as (o & E & Ho). exists o. split; [|done].
  rewrite (part_bind_some _ _ _ _ _ E). destruct (hd false (bn_oom w)); [done|]. cbn [negb]. clear E.
  pose proof (limbs_words _ Hok) as Hws. pose proof (significant_le (limbs ba)) as Hsig.
  pose proof (significant_val _ Hws) as Hval. pose proof (significant_zero _ Hws) as Hz.
  rewrite (part_bind_some _ _ _ _ _ (get_neg_spec a ba (mk_bn_world (bns w) o) Ha)).
  rewrite (part_bind_some _ _ _ _ _ (BN_is_zero_spec a ba (mk_bn_world (bns w) o) Ha Hok)). rewrite Nat2Z.id.
  remember (significant (limbs ba)) as n eqn:En. fold (bn_abs ba) in Hval, Hz.
  remember (if bn_abs ba =? 0 then (if negb (bn_neg ba =? 0) then [45] else []) ++ [48]
            else if negb (bn_neg ba =? 0) then [45] else []) as p eqn:Ep.
  pose proof (hex_digits_spec (take n (limbs ba)) p ltac:(by apply words_take)) as Hd.
  pose proof (length_bn_bytes_words (take n (limbs ba)) ltac:(by apply words_take)) as Hlen.
  rewrite length_take_le in Hlen by done. rewrite Hval in Hd, Hlen.
  rewrite (part_bind_some _ _ _ _ _ (hex_loop_spec a ba (mk_bn_world (bns w) o) n _ Ha Hok Hsig)).
  destruct (fold_left emit (rev (words_bytes (take n (limbs ba)))) (p, false)) as [q z]. cbn [fst] in Hd. subst q.
  assert (Hp : (length p <= 2)%nat) by (subst p; repeat case_bool; cbn; lia).
  rewrite (proj2 (Z.leb_le _ _)).
  2: { rewrite !length_app, length_hex_of. unfold BN_BYTES. cbn [length]. lia. }
  erewrite part_bind_some by reflexivity. unfold mret, part_ret. do 4 f_equal. unfold hex_text.
  subst p. destruct (bn_neg ba =? 0), (Z.eqb_spec (bn_abs ba) 0) as [->|]; done.
Qed.

(** ** Reading *)

Definition hex_digits (l : list Z) : Prop := Forall (fun c => OPENSSL_isxdigit c = true) l.

Lemma hex_number_range l : hex_digits l -> 0 <= number_of 16 l < 16 ^ lenZ l.
Proof.
  intros Hl. apply number_of_range; [lia|]. eapply Forall_impl; [exact Hl|]. intros c. apply xdigit_digit.
Qed.

Lemma hex_of_digits l : bytes l -> hex_digits (hex_of l) /\ number_of 16 (hex_of l) = be_value l.
Proof.
  induction 1 as [|b l Hb Hl [IH1 IH2]]; [by split; [constructor|]|]. unfold is_byte in Hb.
  unfold hex_of in *. cbn [map concat].
  destruct (hex_char_digit (b / 16)) as [H1 E1]; [div_lia|]. destruct (hex_char_digit (b mod 16)) as [H2 E2]; [div_lia|].
  split; [by repeat constructor|].
  rewrite number_of_app, IH2, be_value_cons. fold (hex_of l). rewrite length_hex_of.
  unfold hex_pair. rewrite !number_of_cons, E1, E2. cbn [length]. change (number_of 16 []) with 0.
  rewrite Nat2Z.inj_mul. replace (8 * lenZ l) with (4 * (Z.of_nat 2 * lenZ l)) by lia.
  rewrite (Z.pow_mul_r 2 4) by lia. change (2 ^ 4) with 16. f_equal. f_equal.
  change (Z.of_nat 1) with 1. change (Z.of_nat 0) with 0. rewrite Z.pow_1_r, Z.pow_0_r. div_lia.
Qed.

Lemma hex_value_spec l word w :
  hex_digits l -> 0 <= word -> (word + 1) * 16 ^ lenZ l <= 2 ^ 64 ->
  hex_value word l w = Some (word * 16 ^ lenZ l + number_of 16 l, w).
Proof.
  intros Hl. revert word. induction Hl as [|c l Hc Hl IH]; intros x Hx Hb; cbn [hex_value length] in *.
  { change (number_of 16 []) with 0. rewrite Z.pow_0_r, Z.mul_1_r, Z.add_0_r. done. }
  destruct (xdigit_digit c Hc) as [Ed Hd]. rewrite Ed. erewrite part_bind_some by reflexivity.
  rewrite Nat2Z.inj_succ, Z.pow_succ_r in * by lia. pose proof (Z.pow_pos_nonneg 16 (lenZ l)).
  assert (E : Z.lor (u64 (Z.shiftl x 4)) (digit c) = x * 16 + digit c).
  { rewrite Z.shiftl_mul_pow2, u64_small by (lia || (change (2 ^ 4) with 16; nia)).
    rewrite Z.lor_comm, (lor_add _ _ 4); [lia|lia|lia|apply Z_mod_mult]. }
  rewrite E, IH; [|lia|nia]. rewrite number_of_cons. do 2 f_equal. ring.
Qed.

(** The digits of the next word. *)
Lemma last_digits (d : list Z) :
  0 < lenZ d -> exists d1 d2, d = d1 ++ d2 /\ (if lenZ d <? 16 then lenZ d else 16) = lenZ d2
    /\ 0 < lenZ d2 <= 16 /\ (d1 = [] \/ lenZ d2 = 16).
Proof.
  intros H0. exists (take (length d - 16) d), (drop (length d - 16) d). rewrite take_drop, length_drop.
  destruct (Z.ltb_spec (lenZ d) 16); split_and!; try done; try lia. left.
  replace (length d - 16)%nat with 0%nat by lia. by rewrite take_0.
Qed.

Lemma with_words_step i x ws b : 0 <= i -> with_words (i + 1) ws (with_words i [x] b) = with_words i (x :: ws) b.
Proof. intros Hi. by apply (with_words_append i (i + 1) [x]). Qed.

Lemma decode_hex_loop_spec fuel d rest i b r w :
  hex_digits d -> (length d <= fuel)%nat -> bns w !! r = Some b -> 0 <= i -> lenZ d <= 16 * (lenZ (bn_d b) - i) ->
  exists ws, decode_hex_loop fuel r (d ++ rest) (lenZ d) i w = Some (i + lenZ ws, set_bn r (with_words i ws b) w)
    /\ words ws /\ lenZ ws = (lenZ d + 15) / 16 /\ val ws = number_of 16 d.
Proof.
  revert d rest i b w. induction fuel as [|fuel IH]; intros d rest i b w Hd Hf Hb Hi Hroom; cbn [decode_hex_loop];
    destruct (Z.leb_spec (lenZ d) 0) as [H0|H0]; try lia.
  1, 2: (exists []; rewrite with_words_nil, (set_bn_id r b w Hb);
    destruct d; [|cbn in H0; lia]; split_and!; [by rewrite Z.add_0_r|constructor|done|done]).
  cbv zeta. change (BN_BYTES * 2) with 16. destruct (last_digits d H0) as (d1 & d2 & -> & -> & Ht & Hcase).
  rewrite length_app, Nat2Z.inj_add in *. apply Forall_app in Hd as [Hd1 Hd2]. rewrite Z.add_simpl_r.
  rewrite !Nat2Z.id, <-app_assoc, drop_app_length, take_app_length.
  assert (Hp2 : 16 ^ lenZ d2 <= 2 ^ 64) by (change (2 ^ 64) with (16 ^ 16); apply Z.pow_le_mono_r; lia).
  rewrite (part_bind_some _ _ _ _ _ (hex_value_spec d2 0 w Hd2 ltac:(lia) ltac:(lia))).
  rewrite Z.mul_0_l, Z.add_0_l. pose proof (hex_number_range d2 Hd2) as Hr2. remember (number_of 16 d2) as x eqn:Ex.
  erewrite part_bind_some by (apply store_spec; [done|cbn; lia]). cbn [fst snd].
  change (with_d (<[Z.to_nat i:=x]> (bn_d b)) b) with (with_words i [x] b).
  assert (Hn16 : lenZ d1 <= 16 * (lenZ (bn_d (with_words i [x] b)) - (i + 1))).
  { rewrite with_words_length. destruct Hcase as [-> |]; cbn [length]; lia. }
  destruct (IH d1 (d2 ++ rest) (i + 1) (with_words i [x] b) (set_bn r (with_words i [x] b) w))
    as (ws & E & Hws & Hlw & Hv); [done|lia|apply bns_set|lia|done|].
  exists (x :: ws). rewrite with_words_step, set_bn_twice in E by done. split_and!.
  - rewrite E. do 2 f_equal. cbn [length]. lia.
  - constructor; [unfold word; lia|done].
  - cbn [length]. rewrite Nat2Z.inj_succ, Hlw. destruct Hcase as [-> |]; cbn [length]; div_lia.
  - cbn [val]. rewrite Hv, number_of_app, <-Ex. destruct Hcase as [-> | ->]; [|change (16 ^ 16) with wbase; lia].
    change (number_of 16 []) with 0. lia.
Qed.

Lemma expand_spec p n b w :
  bns w !! p = Some b -> bn_ok b -> owned b -> 0 <= n < 2 ^ 32 ->
  exists ok b' o, bn_expand p n w = Some (ok, mk_bn_world (<[p := b']> (bns w)) o)
    /\ expanded b b' /\ oom_after w o
    /\ if ok : bool then (n + 63) / 64 <= bn_dmax b' else no_room w ((n + 63) / 64).
Proof.
  intros Hb Hok Hown Hn. unfold bn_expand, BN_BITS2. replace (n + 64 - 1) with (n + 63) by lia.
  rewrite u64_small by lia. destruct (Z.ltb_spec (n + 63) n); [lia|]. by apply wexpand_spec.
Qed.

(** Why a hexadecimal number of [n] digits is refused. *)
Definition hex_too_long (w : bn_world) (n : Z) : Prop := INT_MAX / 4 < n \/ no_room w ((n + 15) / 16).

Lemma decode_hex_spec d rest r br w :
  bns w !! r = Some br -> bn_ok br -> owned br -> hex_digits d ->
  decodes r br w (hex_too_long w (lenZ d)) (number_of 16 d)
    (decode_hex r (d ++ rest) (lenZ d) (set_bn r (zeroed br) w)).
Proof.
  intros Hr Hok Hown Hd. unfold decode_hex, decodes. destruct (zeroed_ok br Hok) as [Hokz Hownz].
  destruct (Z.ltb_spec (INT_MAX / 4) (lenZ d)) as [Hl|Hl].
  { exists false, (zeroed br), (bn_oom w). split_and!; [done|done|done|by left]. }
  change (INT_MAX / 4) with 536870911 in Hl.
  destruct (expand_spec r (lenZ d * 4) (zeroed br) (set_bn r (zeroed br) w)) as (ok & b1 & o & E & Hexp & _ & Hroom);
    [apply bns_set|done|by apply Hownz|lia|].
  rewrite (part_bind_some _ _ _ _ _ E). unfold set_bn. cbn [bns]. rewrite insert_insert_eq.
  replace ((lenZ d * 4 + 63) / 64) with ((lenZ d + 15) / 16) in Hroom by div_lia.
  pose proof Hexp as (Hok1 & Hw1 & Hs1 & Hf1 & Hl1 & Hd1). destruct ok; cbn [negb].
  2: { exists false, b1, o. split_and!; [done|done|done|by right]. }
  pose proof Hok1 as (_ & Hlen & _).
  destruct (decode_hex_loop_spec (length d) d rest 0 b1 r (mk_bn_world (<[r:=b1]> (bns w)) o))
    as (ws & E1 & Hws & Hlw & Hv); [done|lia|apply lookup_insert_eq|lia|div_lia|].
  rewrite Nat2Z.id, (part_bind_some _ _ _ _ _ E1), set_bn_mk, insert_insert_eq. rewrite Z.add_0_l, Hlw.
  erewrite part_bind_some by (apply get_bn_spec; apply lookup_insert_eq).
  change (bn_dmax (with_words 0 ws b1)) with (bn_dmax b1). rewrite (proj2 (Z.leb_le _ _) Hroom).
  erewrite part_bind_some by reflexivity.
  erewrite part_bind_some by (apply bn_update_spec; apply lookup_insert_eq). rewrite set_bn_mk, insert_insert_eq.
  assert (Hwok : bn_ok (with_width ((lenZ d + 15) / 16) b1)) by (apply with_width_ok; [done|div_lia]).
  exists true, (with_words 0 ws (with_width ((lenZ d + 15) / 16) b1)), o.
  split_and!; [done|by apply with_words_ok|done|]. unfold bn_abs. by rewrite limbs_with_words.
Qed.

(** [BN_hex2bn] on any text that is not empty: the sign, and the digits up to the first
    character that is none. *)
Lemma BN_hex2bn_spec malloc r br w s :
  bns w !! r = Some br -> bn_ok br -> owned br -> r <> NULL -> char_at s 0 <> 0 -> lenZ s <= INT_MAX ->
  reads r br w (hex_too_long w (lenZ (text_digits OPENSSL_isxdigit s)))
    (text_used OPENSSL_isxdigit s) (text_value OPENSSL_isxdigit 16 s) (BN_hex2bn malloc (Some r) (Some s) w).
Proof.
  intros Hr Hok Hown Hnull Hs Hlen. pose proof (run_of_Forall OPENSSL_isxdigit (text_rest s)) as Hd.
  apply bn_x2bn_spec; try done; [by apply hex_number_range|].
  destruct (run_of_prefix OPENSSL_isxdigit (text_rest s)) as [rest E]. rewrite E at 1. by apply decode_hex_spec.
Qed.

(** ** Both *)

(** The digits of a text that was written. *)
Definition hex_body (v : Z) : list Z := if v =? 0 then [48] else hex_of (bn_bytes v).

Lemma hex_body_spec v :
  0 <= v -> hex_digits (hex_body v) /\ number_of 16 (hex_body v) = v /\ lenZ (hex_body v) <= (bit_length v + 7) / 8 * 2 + 1
  /\ (lenZ (hex_body v) + 15) / 16 = Z.max 1 ((bit_length v + 63) / 64)
  /\ exists c l, hex_body v = c :: l /\ c <> 0 /\ c <> 45.
Proof.
  intros Hv. pose proof (bit_length_nonneg v) as Hn. unfold hex_body. destruct (Z.eqb_spec v 0) as [->|H0].
  { split_and!; [by repeat constructor|done|done|done|by exists 48, []]. }
  destruct (hex_of_digits (bn_bytes v) (bn_bytes_bytes v)) as [H1 H2]. rewrite bn_bytes_value in H2 by done.
  pose proof (length_bn_bytes v) as Hl. rewrite length_hex_of. split_and!; [done|done|lia| |].
  - assert (0 < bit_length v); [|div_lia]. unfold bit_length. pose proof (Z.log2_nonneg v). case_bool; lia.
  - destruct (hex_of (bn_bytes v)) as [|c l]; [change (number_of 16 []) with 0 in H2; lia|].
    apply Forall_cons in H1 as [Hc _]. exists c, l. split; [done|].
    split; intros ->; by vm_compute in Hc.
Qed.

(** C21. Hexadecimal. Given memory, [BN_bn2hex] writes a sign if the number has one and the
    bytes of the number in two digits each, or one digit for zero, with a terminator;
    [BN_hex2bn] takes exactly that text and leaves the number in its destination, a BIGNUM
    with any value before, unless there is no room for the words. *)
Theorem BN_hex_roundtrip malloc a ba w :
  bns w !! a = Some ba -> bn_ok ba ->
  exists text o, BN_bn2hex a w = Some (text, mk_bn_world (bns w) o)
    /\ if hd false (bn_oom w) then text = None
       else text = Some (hex_text (bn_neg ba) (bn_abs ba) ++ [0])
         /\ forall r br v, bns v !! r = Some br -> bn_ok br -> owned br -> r <> NULL ->
            reads r br v (no_room v (Z.max 1 ((bit_length (bn_abs ba) + 63) / 64)))
              (lenZ (hex_text (bn_neg ba) (bn_abs ba))) (bn_val ba) (BN_hex2bn malloc (Some r) text v).
Proof.
  intros Ha Hok. destruct (BN_bn2hex_spec a ba w Ha Hok) as (o & E & _). eexists _, o. split; [exact E|].
  destruct (hd false (bn_oom w)); [done|]. split; [done|]. intros r br v Hr Hbr Hown Hnull.
  pose proof (bn_abs_range ba Hok) as Habs. pose proof (bn_bits_bound ba Hok) as Hbits.
  change (64 * BN_MAX_WORDS) with (64 * 8388607) in Hbits. pose proof (bit_length_nonneg (bn_abs ba)).
  destruct (hex_body_spec (bn_abs ba) ltac:(lia)) as (Hd & Hv & Hlen & Hwords & Hfirst).
  unfold hex_text. fold (hex_body (bn_abs ba)). rewrite <-app_assoc.
  destruct (text_of_parts OPENSSL_isxdigit 16 (bn_neg ba) (hex_body (bn_abs ba)) eq_refl Hd Hfirst) as (H0 & Ed & Eu & Ev).
  pose proof (BN_hex2bn_spec malloc r br v _ Hr Hbr Hown Hnull H0) as Hread. rewrite Ed, Eu, Ev, Hv in Hread.
  replace (lenZ ((if bn_neg ba =? 0 then [] else [45]) ++ hex_body (bn_abs ba) ++ [0]) - 1)
    with (lenZ ((if bn_neg ba =? 0 then [] else [45]) ++ hex_body (bn_abs ba))) in Hread by (rewrite !length_app; cbn [length]; lia).
  change (bn_val ba) with (if bn_neg ba =? 0 then bn_abs ba else - bn_abs ba).
  destruct Hread as (ok & b' & o' & Er & Hok' & Hf & HP).
  { rewrite !length_app. unfold INT_MAX. case_match; cbn [length]; div_lia. }
  exists ok, b', o'. split_and!; [exact Er|done|done|]. destruct ok; [exact HP|].
  destruct HP as [HP|HP]; [exfalso; change (INT_MAX / 4) with 536870911 in HP; div_lia|by rewrite <-Hwords].
Qed.

(** -5 in an array of two words, into 2^64 - 1. *)
Lemma BN_hex_roundtrip_witness :
  exists text o, BN_bn2hex 2 three_numbers = Some (text, mk_bn_world (bns three_numbers) o)
    /\ text = Some ([45; 48; 53] ++ [0])
    /\ forall r br v, bns v !! r = Some br -> bn_ok br -> owned br -> r <> NULL ->
       reads r br v (no_room v 1) 3 (-5) (BN_hex2bn bump (Some r) text v).
Proof.
  apply (BN_hex_roundtrip bump 2 (mk_bn [5; 0] 1 2 1 1) three_numbers); [done|]. by apply (three_numbers_ok 2).
Defined.
