(* ===== verification/BnDec.v ===== *)
(** * Big numbers in decimal

    [BN_dec2bn], which takes the digits nineteen at a time, [BN_bn2dec], and a number
    through both. *)
From S2P Require Export CbbSafe BnHex.

(** ** Reading

    After each digit, the number in the BIGNUM and the word that is being filled make up
    the digits read so far. *)

Definition dec_digit_list (l : list Z) : Prop := Forall (fun c => OPENSSL_isdigit c = true) l.

Lemma dec_number_range l : dec_digit_list l -> 0 <= number_of 10 l < 10 ^ lenZ l.
Proof.
  intros Hl. apply number_of_range; [lia|]. eapply Forall_impl; [exact Hl|]. intros c Hc. by apply digit_decimal.
Qed.

Lemma nonneg_sign b : bn_ok b -> no_neg_zero b -> 0 <= bn_val b -> bn_neg b = 0 /\ bn_abs b = bn_val b.
Proof.
  intros Hok Hz Hv. pose proof (bn_abs_range b Hok). destruct (bn_sign b Hok) as [E|E].
  - split; [done|]. unfold bn_val. by rewrite E.
  - unfold bn_val in Hv. rewrite E in Hv. change (1 =? 0) with false in Hv. cbn iota in Hv.
    assert (bn_abs b = 0) as H0 by lia. rewrite (Hz H0) in E. done.
Qed.

Lemma fails_after w o : oom_after w o -> true ∈ o -> true ∈ bn_oom w.
Proof.
  intros [->| ->] H; [done|]. destruct (bn_oom w); [done|]. by apply list_elem_of_further.
Qed.

(** Why digits of the number [v] are refused. *)
Definition dec_refused (w : bn_world) (v : Z) : Prop := too_big v \/ true ∈ bn_oom w.

Lemma hd_in (o : list bool) : hd false o = true -> true ∈ o.
Proof. destruct o as [|b o]; [done|]. cbn. intros ->. apply list_elem_of_here. Qed.

Lemma dec_refused_of w n v v' : no_room_for w n v -> v <= v' -> dec_refused w v'.
Proof. intros [_ [H|H]] Hv; [right; by apply hd_in|left; by eapply too_big_mono]. Qed.

Lemma both_then (m1 m2 k : bnM bool) w ok w' :
  (ok ← m1; if negb ok then mret false else m2) w = Some (ok, w') ->
  (ok ← m1; if negb ok then mret false else ok ← m2; if negb ok then mret false else k) w
  = (if ok then k else mret false) w'.
Proof.
  intros E. unfold mbind, part_bind in *. destruct (m1 w) as [[[] w1]|]; cbn [negb] in *; [|by injection E as <- <-|done].
  rewrite E. by destruct ok.
Qed.

(** The word is full: the number is multiplied and the word added. *)
Lemma full_word r b w x :
  bns w !! r = Some b -> bn_ok b -> owned b -> bn_neg b = 0 -> word x ->
  exists ok b' o,
    (ok ← BN_mul_word r BN_DEC_CONV; if negb ok then mret false else BN_add_word r x) w
    = Some (ok, mk_bn_world (<[r := b']> (bns w)) o)
    /\ bn_ok b' /\ bn_flags b' = bn_flags b /\ (true ∈ o -> true ∈ bn_oom w)
    /\ if ok : bool then bn_neg b' = 0 /\ bn_abs b' = bn_abs b * 10 ^ 19 + x
       else dec_refused w (bn_abs b * 10 ^ 19 + x).
Proof.
  intros Hr Hok Hown Hneg Hx. assert (Hz : no_neg_zero b) by (by intros _).
  pose proof (bn_abs_range b Hok) as Habs. change (10 ^ 19) with BN_DEC_CONV.
  destruct (BN_mul_word_sharp r b w Hr Hok Hown BN_DEC_CONV ltac:(done) Hz) as (ok & b1 & o & E & Hok1 & Hf1 & Ho & HP).
  rewrite (part_bind_some _ _ _ _ _ E). destruct ok; cbn [negb].
  2: { exists false, b1, o. split_and!; [done|done|done|by apply fails_after|]. eapply dec_refused_of; [exact HP|].
       unfold word in Hx. lia. }
  destruct HP as [Hv1 Hz1]. assert (Hvb : bn_val b = bn_abs b) by (unfold bn_val; by rewrite Hneg).
  rewrite Hvb in Hv1.
  destruct (nonneg_sign b1 Hok1 Hz1) as [Hn1 Ha1]; [rewrite Hv1; apply Z.mul_nonneg_nonneg; [lia|done]|].
  assert (Hown1 : owned b1) by (unfold owned in *; congruence).
  destruct (add_word_sharp r b1 (mk_bn_world (<[r:=b1]> (bns w)) o) ltac:(apply lookup_insert_eq) Hok1 Hown1
    (sub_word_with (fun _ _ => wrong)) x Hn1 Hx) as (ok & b2 & o2 & E2 & Hok2 & Hf2 & Ho2 & HP).
  cbn [bns bn_oom] in *. rewrite insert_insert_eq in E2. exists ok, b2, o2.
  assert (Hback : true ∈ o -> true ∈ bn_oom w) by (by apply fails_after).
  split_and!; [exact E2|done|congruence| |].
  - intros H. apply Hback. by apply (fails_after (mk_bn_world (<[r:=b1]> (bns w)) o) o2 Ho2).
  - rewrite Ha1, Hv1 in HP. destruct ok.
    + destruct HP as [Hv2 Hz2]. destruct (nonneg_sign b2 Hok2 Hz2) as [Hn2 Ha2]; [|by rewrite Ha2].
      rewrite Hv2. unfold word in Hx. apply Z.add_nonneg_nonneg; [apply Z.mul_nonneg_nonneg; [lia|done]|lia].
    + destruct (dec_refused_of _ _ _ _ HP (Z.le_refl _)) as [H|H]; [by left|right; by apply Hback].
Qed.

Lemma decode_dec_loop_spec r l : forall b w x j,
  bns w !! r = Some b -> bn_ok b -> owned b -> bn_neg b = 0 -> dec_digit_list l ->
  0 <= j < 19 -> 0 <= x < 10 ^ j -> (j + lenZ l) mod 19 = 0 ->
  exists ok b' o, decode_dec_loop r l x j w = Some (ok, mk_bn_world (<[r := b']> (bns w)) o)
    /\ bn_ok b' /\ bn_flags b' = bn_flags b
    /\ if ok : bool then bn_abs b' = (bn_abs b * 10 ^ j + x) * 10 ^ lenZ l + number_of 10 l
       else dec_refused w ((bn_abs b * 10 ^ j + x) * 10 ^ lenZ l + number_of 10 l).
Proof.
  induction l as [|c l IH]; intros b w x j Hr Hok Hown Hneg Hl Hj Hx Hm; cbn [decode_dec_loop].
  { cbn [length] in *. assert (j = 0) as -> by div_lia. exists true, b, (bn_oom w). rewrite set_bn_same by done.
    split_and!; try done. change (number_of 10 []) with 0. change (10 ^ 0) with 1 in *. change (10 ^ Z.of_nat 0) with 1. lia. }
  apply Forall_cons in Hl as [Hc Hl]. destruct (digit_decimal c Hc) as [Ed Hd].
  assert (Hp : 10 ^ (j + 1) = 10 * 10 ^ j) by (by rewrite Z.add_1_r, Z.pow_succ_r by lia).
  assert (Hp19 : 10 ^ (j + 1) <= 10 ^ 19) by (apply Z.pow_le_mono_r; lia). change (10 ^ 19) with 10000000000000000000 in Hp19.
  assert (Ex : u64 (u64 (x * 10) + (c - 48)) = x * 10 + digit c) by (rewrite (u64_small (x * 10)), u64_small by lia; lia).
  rewrite Ex. unfold BN_DEC_NUM. cbn [length] in *. rewrite Nat2Z.inj_succ in *.
  assert (Hx' : 0 <= x * 10 + digit c < 10 ^ (j + 1)) by lia.
  assert (Efinal : (bn_abs b * 10 ^ j + x) * 10 ^ Z.succ (lenZ l) + number_of 10 (c :: l)
                   = (bn_abs b * 10 ^ (j + 1) + (x * 10 + digit c)) * 10 ^ lenZ l + number_of 10 l)
    by (rewrite number_of_cons, Hp, Z.pow_succ_r by lia; ring).
  rewrite Efinal. clear Efinal. remember (x * 10 + digit c) as x' eqn:Ex'.
  destruct (Z.eqb_spec (j + 1) 19) as [E19|E19].
  - rewrite E19. destruct (full_word r b w x' Hr Hok Hown Hneg) as (ok & b1 & o & E & Hok1 & Hf1 & Ho & HP); [unfold word; lia|].
    rewrite (both_then _ _ _ _ _ _ E). destruct ok.
    2: { exists false, b1, o. split_and!; [done|done|done|]. destruct HP as [HP|HP]; [left|by right].
         apply (too_big_mono _ _ HP). pose proof (dec_number_range l Hl). pose proof (bn_abs_range b Hok).
         assert (1 <= 10 ^ lenZ l) by (apply (Z.pow_le_mono_r 10 0); lia).
         assert (0 <= bn_abs b * 10 ^ 19) by (apply Z.mul_nonneg_nonneg; [lia|done]). nia. }
    destruct HP as (Hn1 & Ha1). rewrite <-Ha1.
    destruct (IH b1 (mk_bn_world (<[r:=b1]> (bns w)) o) 0 0) as (ok & b' & o' & E' & Hok' & Hf' & HP');
      [apply lookup_insert_eq|done|unfold owned in *; congruence|done|done|lia|done|div_lia|].
    cbn [bns] in E'. rewrite insert_insert_eq in E'. exists ok, b', o'. split_and!; [exact E'|done|congruence|].
    change (10 ^ 0) with 1 in HP'. rewrite Z.mul_1_r, Z.add_0_r in HP'.
    destruct ok; [exact HP'|]. destruct HP' as [HP'|HP']; [by left|right; by apply Ho].
  - apply (IH b w x' (j + 1) Hr Hok Hown Hneg Hl ltac:(lia) Hx'). by replace (j + 1 + lenZ l) with (j + Z.succ (lenZ l)) by lia.
Qed.

Lemma decode_dec_spec d rest r br w :
  bns w !! r = Some br -> bn_ok br -> owned br -> dec_digit_list d ->
  decodes r br w (dec_refused w (number_of 10 d)) (number_of 10 d)
    (decode_dec r (d ++ rest) (lenZ d) (set_bn r (zeroed br) w)).
Proof.
  intros Hr Hok Hown Hd. destruct (zeroed_ok br Hok) as [Hokz Hownz]. unfold decode_dec, BN_DEC_NUM.
  rewrite Nat2Z.id, take_app_length.
  assert (Hj : exists j, (if 19 - lenZ d mod 19 =? 19 then 0 else 19 - lenZ d mod 19) = j /\ 0 <= j < 19
                         /\ (j + lenZ d) mod 19 = 0)
    by (eexists; split; [reflexivity|]; case_bool; div_lia).
  destruct Hj as (j & -> & Hj & Hm).
  destruct (decode_dec_loop_spec r d (zeroed br) (set_bn r (zeroed br) w) 0 j) as (ok & b' & o & E & Hok' & Hf & HP);
    [apply bns_set|done|by apply Hownz|done|done|done|split; [lia|by apply Z.pow_pos_nonneg; lia]|done|].
  unfold set_bn in E. cbn [bns] in E. rewrite insert_insert_eq in E. exists ok, b', o.
  change (bn_abs (zeroed br)) with 0 in HP. rewrite !Z.mul_0_l, Z.add_0_l in HP. by split_and!.
Qed.

(** [BN_dec2bn] on any text that is not empty: it fails for a number too big for any array, or
    when an allocation fails. *)
Lemma BN_dec2bn_spec malloc r br w s :
  bns w !! r = Some br -> bn_ok br -> owned br -> r <> NULL -> char_at s 0 <> 0 -> lenZ s <= INT_MAX ->
  reads r br w (dec_refused w (number_of 10 (text_digits OPENSSL_isdigit s)))
    (text_used OPENSSL_isdigit s) (text_value OPENSSL_isdigit 10 s) (BN_dec2bn malloc (Some r) (Some s) w).
Proof.
  intros Hr Hok Hown Hnull Hs Hlen. pose proof (run_of_Forall OPENSSL_isdigit (text_rest s)) as Hd.
  apply bn_x2bn_spec; try done; [by apply dec_number_range|].
  destruct (run_of_prefix OPENSSL_isdigit (text_rest s)) as [rest E]. rewrite E at 1. by apply decode_dec_spec.
Qed.

(** ** Writing

    [BN_bn2dec] divides a copy of the number by the largest power of ten in a word until
    it is zero, and writes the digits of each remainder from the lowest, the sign last; the
    text is that, reversed. *)

(** ** The digits that are written, from the lowest *)

Fixpoint le_digits (m : nat) (pad : bool) (x : Z) : list Z :=
  match m with
  | O => []
  | S m => if pad || negb (x =? 0) then (48 + x mod 10) :: le_digits m pad (x / 10) else []
  end.

Fixpoint le_dec (fuel : nat) (v : Z) : list Z :=
  match fuel with
  | O => []
  | S fuel => if v =? 0 then [] else le_digits 19 (negb (v / 10 ^ 19 =? 0)) (v mod 10 ^ 19) ++ le_dec fuel (v / 10 ^ 19)
  end.

(** The digits of [v] in the order they are read. *)
Definition dec_of (v : Z) : list Z := rev (le_dec (S (Z.to_nat (bit_length v))) v).

Lemma dec_char d : 0 <= d < 10 -> OPENSSL_isdigit (48 + d) = true /\ digit (48 + d) = d.
Proof.
  intros Hd. assert (H : OPENSSL_isdigit (48 + d) = true) by (unfold OPENSSL_isdigit; lia).
  split; [done|]. destruct (digit_decimal _ H). lia.
Qed.

Lemma le_digits_spec m pad x :
  0 <= x < 10 ^ Z.of_nat m ->
  dec_digit_list (le_digits m pad x) /\ number_of 10 (rev (le_digits m pad x)) = x
  /\ (length (le_digits m pad x) <= m)%nat /\ (pad = true -> length (le_digits m pad x) = m)
  /\ (pad = false -> x <> 0 -> exists l c, le_digits m pad x = l ++ [c] /\ c <> 48).
Proof.
  revert x. induction m as [|m IH]; intros x Hx; cbn [le_digits].
  { change (10 ^ Z.of_nat 0) with 1 in Hx. split_and!; try done; [constructor|change (0 = x); lia|intros; lia]. }
  rewrite Nat2Z.inj_succ, Z.pow_succ_r in Hx by lia.
  destruct (pad || negb (x =? 0)) eqn:E.
  - destruct (IH (x / 10)) as (H1 & H2 & H3 & H4 & H5); [div_lia|].
    destruct (dec_char (x mod 10)) as [Hc Hd]; [div_lia|]. cbn [rev length]. split_and!.
    + by constructor.
    + rewrite number_of_app, H2. unfold number_of. cbn [fold_left length]. rewrite Hd. change (10 ^ Z.of_nat 1) with 10. div_lia.
    + lia.
    + intros Hp. by rewrite H4.
    + intros Hp Hx0. destruct (Z.eq_dec (x / 10) 0) as [E0|E0].
      * exists [], (48 + x mod 10). rewrite E0, Hp. split; [by destruct m|div_lia].
      * destruct (H5 Hp E0) as (l & c & -> & Hc'). by exists ((48 + x mod 10) :: l), c.
  - apply orb_false_iff in E as [-> E]. assert (x = 0) by lia. subst x. by split_and!; [constructor|done|cbn; lia|..].
Qed.

Lemma le_dec_spec fuel v :
  0 <= v < 2 ^ Z.of_nat fuel ->
  dec_digit_list (le_dec fuel v) /\ number_of 10 (rev (le_dec fuel v)) = v
  /\ (length (le_dec fuel v) <= 19 * fuel)%nat
  /\ (v <> 0 -> exists l c, le_dec fuel v = l ++ [c] /\ c <> 48).
Proof.
  revert v. induction fuel as [|fuel IH]; intros v Hv; cbn [le_dec].
  { change (2 ^ Z.of_nat 0) with 1 in Hv. split_and!; try done; [constructor|change (0 = v); lia|lia]. }
  rewrite Nat2Z.inj_succ, Z.pow_succ_r in Hv by lia. pose proof (Z.mod_pos_bound v (10 ^ 19) ltac:(done)) as Hr.
  destruct (Z.eqb_spec v 0) as [->|H0]; [by split_and!; [constructor|done|cbn; lia|]|].
  assert (Hq : 0 <= v / 10 ^ 19 < 2 ^ Z.of_nat fuel).
  { split; [by apply Z.div_pos; lia|]. apply Z.div_lt_upper_bound; [done|]. change (10 ^ 19) with (2 * 5000000000000000000). lia. }
  destruct (IH _ Hq) as (H1 & H2 & H3 & H4).
  destruct (le_digits_spec 19 (negb (v / 10 ^ 19 =? 0)) (v mod 10 ^ 19) Hr) as (D1 & D2 & D3 & D4 & D5).
  rewrite rev_app_distr, number_of_app, length_app, length_rev, H2, D2.
  split_and!; [by apply Forall_app| |lia|].
  - pose proof (Z.div_mod v (10 ^ 19) ltac:(done)). destruct (Z.eqb_spec (v / 10 ^ 19) 0) as [E|E]; [lia|].
    rewrite D4 by done. lia.
  - intros _. destruct (Z.eqb_spec (v / 10 ^ 19) 0) as [E|E].
    + rewrite E in *. assert (Hm : v mod 10 ^ 19 <> 0) by (pose proof (Z.div_mod v (10 ^ 19) ltac:(done)); lia).
      destruct (D5 eq_refl Hm) as (l & c & El & Hc). exists l, c.
      replace (le_dec fuel 0) with (@nil Z) by (by destruct fuel). by rewrite app_nil_r.
    + destruct (H4 E) as (l & c & El & Hc). rewrite El, app_assoc. by eexists _, c.
Qed.

Lemma bit_length_lt v : 0 <= v -> v < 2 ^ bit_length v.
Proof.
  intros Hv. destruct (Z.eq_dec v 0) as [->|H]; [done|]. by apply (bit_length_bounds v (bit_length v)); [lia|].
Qed.

(** The decimal digits of a number: no zeros in front. *)
Lemma dec_of_spec v :
  0 <= v -> dec_digit_list (dec_of v) /\ number_of 10 (dec_of v) = v
  /\ (v <> 0 -> exists c l, dec_of v = c :: l /\ c <> 48).
Proof.
  intros Hv. pose proof (bit_length_nonneg v). pose proof (bit_length_lt v Hv). unfold dec_of.
  destruct (le_dec_spec (S (Z.to_nat (bit_length v))) v) as (H1 & H2 & H3 & H4).
  { rewrite Nat2Z.inj_succ, Z2Nat.id, Z.pow_succ_r by lia. lia. }
  split_and!; [unfold dec_digit_list; rewrite rev_is_reverse; by apply Forall_reverse|done|].
  intros Hne. destruct (H4 Hne) as (l & c & -> & Hc). rewrite rev_app_distr. by exists c, (rev l).
Qed.

Lemma dec_digits_writes m pad x : 0 <= x -> Writes 0 (le_digits m pad x) (dec_digits m pad x).
Proof.
  revert x. induction m as [|m IH]; intros x Hx; cbn [le_digits dec_digits]; [apply Writes_ret|].
  destruct (pad || negb (x =? 0)); [|apply Writes_ret].
  apply (Writes_bind 0 [48 + x mod 10]); [apply CBB_add_u8_writes; unfold is_byte; div_lia|].
  intros _. apply IH. div_lia.
Qed.

Lemma dec_digits_result m pad x c y c' :
  0 <= x < 10 ^ Z.of_nat m -> dec_digits m pad x c = (Some y, c') -> y = 0.
Proof.
  revert x c. induction m as [|m IH]; intros x c Hx; cbn [dec_digits].
  { change (10 ^ Z.of_nat 0) with 1 in Hx. intros [= <- _]. lia. }
  rewrite Nat2Z.inj_succ, Z.pow_succ_r in Hx by lia. destruct (pad || negb (x =? 0)) eqn:E.
  - unfold mbind, act_bind. destruct (CBB_add_u8 0 (48 + x mod 10) c) as [[[]|] c1]; [|done]. apply IH. div_lia.
  - intros [= <- _]. apply orb_false_iff in E as [_ E]. lia.
Qed.

(** Why a number of [n] words is not divided. *)
Definition dec_too_long (w : bn_world) (n : Z) : Prop := BN_MAX_WORDS < n \/ true ∈ bn_oom w.

Lemma dec_too_long_of w n m : no_room w n -> n <= m -> dec_too_long w m.
Proof. intros [H|H] Hm; [left; lia|right; by apply hd_in]. Qed.

(** The builder of a text: it grows. *)
Definition text_builder (c : cbb_world) (n : Z) : Prop :=
  ready 0 c /\ can_resize (base c) = true /\ len (base c) + n < 2 ^ 60.

Lemma text_builder_extends c c' l n :
  text_builder c (lenZ l + n) -> extends c c' l -> text_builder c' n /\ (true ∈ oom c' -> true ∈ oom c).
Proof.
  intros (Hc & Hr & Hn) He. pose proof (ready_extends _ _ _ _ Hc He) as Hc'. pose proof (len_extends _ _ _ He) as Hl.
  destruct He as ((Hr' & _ & _ & _ & _ & _ & Ho) & _ & _).
  split; [|set_solver]. split_and!; [done|congruence|]. rewrite Hl. unfold CBS_len. lia.
Qed.

Lemma on_act_writes {A} (m : act cbb_world A) l n w c :
  Writes 0 l m -> text_builder c (lenZ l + n) -> 0 <= n ->
  exists r c', on_act m (w, c) = Some (r, (w, c'))
    /\ match r with Some x => m c = (Some x, c') /\ extends c c' l | None => true ∈ oom c end.
Proof.
  intros Hm (Hc & Hr & Hn) Hn0. specialize (Hm c Hc). unfold on_act. destruct (m c) as [[x|] c'].
  - by exists (Some x), c'.
  - exists None, c'. split; [done|]. destruct Hm as [_ [H|[_ [H|H]]]]; [unfold CBS_len in H; lia|congruence|done].
Qed.

Section loop.
Context (p : Z).

Lemma bn2dec_loop_spec fuel : forall b w c,
  bns w !! p = Some b -> bn_ok b -> owned b -> bn_abs b < 2 ^ Z.of_nat fuel -> text_builder c (19 * Z.of_nat fuel + 1) ->
  exists ok b' o c', bn2dec_loop fuel p (w, c) = Some (ok, (mk_bn_world (<[p := b']> (bns w)) o, c'))
    /\ bn_flags b' = bn_flags b
    /\ if ok : bool then extends c c' (le_dec fuel (bn_abs b)) /\ (true ∈ o -> true ∈ bn_oom w)
       else dec_too_long w (bn_width b + 1) \/ true ∈ oom c.
Proof.
  induction fuel as [|fuel IH]; intros b w c Hp Hok Hown Hv Hc; cbn [bn2dec_loop le_dec];
    rewrite (part_bind_some _ _ _ _ _ (on_bn_read _ _ _ _ (BN_is_zero_spec p b w Hp Hok))); pose proof (bn_abs_range b Hok) as Habs.
  all: destruct (Z.eqb_spec (bn_abs b) 0) as [E0|E0].
  1, 3: (exists true, b, (bn_oom w), c; rewrite set_bn_same by done; split_and!; [done|done|by eapply extends_refl, Hc|done]).
  { change (2 ^ Z.of_nat 0) with 1 in Hv. lia. }
  rewrite Nat2Z.inj_succ, Z.pow_succ_r in Hv by lia. rewrite Nat2Z.inj_succ in Hc.
  destruct (BN_div_word_spec p b w Hp Hok BN_DEC_CONV Hown ltac:(done) ltac:(done)) as (ret & b1 & o & E & Hok1 & Hf1 & Ho & Hcase).
  rewrite (part_bind_some _ _ (w, c) ret (mk_bn_world (<[p:=b1]> (bns w)) o, c)) by (unfold on_bn; by rewrite E).
  destruct Hcase as [(-> & Hq & _ & Hmin)|[-> Hroom]].
  2: { exists false, b1, o, c. split_and!; [done|done|]. left. by eapply dec_too_long_of. }
  change BN_DEC_CONV with (10 ^ 19) in *. pose proof (Z.mod_pos_bound (bn_abs b) (10 ^ 19) ltac:(done)) as Hr.
  rewrite (proj2 (Z.eqb_neq _ BN_MASK2)) by (change BN_MASK2 with (2 ^ 64 - 1); change (10 ^ 19) with 10000000000000000000 in *; lia).
  assert (Ha1 : bn_abs b1 = bn_abs b / 10 ^ 19).
  { rewrite (abs_val b1), Hq, bn_val_signed, <-signed_quot by (done || lia).
    pose proof (Z.div_pos (bn_abs b) (10 ^ 19) ltac:(lia) ltac:(done)). unfold signed. case_match; lia. }
  assert (Hb1 : bns (mk_bn_world (<[p:=b1]> (bns w)) o) !! p = Some b1) by apply lookup_insert_eq.
  rewrite (part_bind_some _ _ _ _ _ (on_bn_read _ _ _ _ (BN_is_zero_spec p b1 _ Hb1 Hok1))), Ha1.
  destruct (le_digits_spec 19 (negb (bn_abs b / 10 ^ 19 =? 0)) (bn_abs b mod 10 ^ 19) Hr) as (_ & _ & D3 & _).
  remember (le_digits 19 (negb (bn_abs b / 10 ^ 19 =? 0)) (bn_abs b mod 10 ^ 19)) as l eqn:El.
  assert (Hcl : text_builder c (lenZ l + (19 * Z.of_nat fuel + 1))).
  { destruct Hc as (? & ? & ?). split_and!; [done|done|lia]. }
  destruct (on_act_writes (dec_digits (Z.to_nat BN_DEC_NUM) (negb (bn_abs b / 10 ^ 19 =? 0)) (bn_abs b mod 10 ^ 19)) l
    (19 * Z.of_nat fuel + 1) (mk_bn_world (<[p:=b1]> (bns w)) o) c) as (r & c1 & Eact & Hact);
    [subst l; apply dec_digits_writes; lia|done|lia|].
  rewrite (part_bind_some _ _ _ _ _ Eact). destruct r as [y|].
  2: { exists false, b1, o, c1. split_and!; [done|done|by right]. }
  destruct Hact as [Ey He]. apply dec_digits_result in Ey as ->; [|exact Hr]. erewrite part_bind_some by reflexivity.
  destruct (text_builder_extends _ _ _ _ Hcl He) as [Hc1 Ho1].
  destruct (IH b1 (mk_bn_world (<[p:=b1]> (bns w)) o) c1) as (ok & b' & o' & c' & E' & Hf' & HP);
    [done|done|unfold owned in *; congruence| |done|].
  { rewrite Ha1. apply Z.div_lt_upper_bound; [done|]. change (10 ^ 19) with (2 * 5000000000000000000). lia. }
  cbn [bns bn_oom] in *. rewrite insert_insert_eq in E'. exists ok, b', o', c'. split_and!; [exact E'|congruence|].
  destruct ok.
  - destruct HP as [HP1 HP2]. rewrite Ha1 in HP1. split; [by eapply extends_trans|].
    intros Ht. by apply (fails_after w o Ho), HP2.
  - destruct HP as [[HP|HP]|HP]; [left; left|left; right|right; by apply Ho1].
    + assert (bn_width b1 <= bn_width b); [|lia]. apply is_minimal_width; [done|done|done|].
      rewrite Ha1. apply Z.div_le_upper_bound; [done|]. change (10 ^ 19) with 10000000000000000000. lia.
    + by apply (fails_after w o Ho).
Qed.
End loop.

Lemma part_bind_bind {St A B C} (m : part St A) (f : A -> part St B) (k : B -> part St C) s x s' :
  (m ≫= f) s = Some (x, s') -> (m ≫= fun a => f a ≫= k) s = k x s'.
Proof. unfold mbind, part_bind. destruct (m s) as [[a s1]|]; [|done]. by intros ->. Qed.

(** Freeing the object at a new address. *)
Lemma free_malloced {A} q b' h o (x : A) :
  bn_flags b' = BN_FLG_MALLOCED -> h !! q = None -> q <> NULL ->
  (_ ← BN_free q; mret x) (mk_bn_world (<[q := b']> h) o) = Some (x, mk_bn_world h o).
Proof.
  intros Hf Hq Hnull. unfold BN_free. rewrite (proj2 (Z.eqb_neq q NULL) Hnull).
  erewrite part_bind_some.
  2: { erewrite part_bind_some by (apply get_bn_spec; apply lookup_insert_eq). rewrite Hf.
       change (negb (Z.land BN_FLG_MALLOCED BN_FLG_MALLOCED =? 0)) with true. cbn iota. unfold delete_object.
       erewrite part_bind_some by (apply get_bn_spec; apply lookup_insert_eq). reflexivity. }
  cbn [bns bn_oom]. by rewrite delete_insert_id.
Qed.

(** The builder keeps its buffer, which may grow, whatever fails on the way. *)
Definition keeps_buffer {A} (m : part (bn_world * cbb_world) A) : Prop :=
  forall s x s', Inv true 0 s.2 -> m s = Some (x, s') -> Inv true 0 s'.2.

Lemma keeps_ret {A} (x : A) : keeps_buffer (mret x).
Proof. by intros s y s' Hs [= <- <-]. Qed.
Lemma keeps_wrong {A} : keeps_buffer (wrong (A := A)).
Proof. by intros s x s' _. Qed.
Lemma keeps_bind {A B} (m : part _ A) (k : A -> part _ B) :
  keeps_buffer m -> (forall x, keeps_buffer (k x)) -> keeps_buffer (m ≫= k).
Proof.
  intros Hm Hk s x s' Hs E. unfold mbind, part_bind in E. destruct (m s) as [[y s1]|] eqn:Em; [|done].
  eapply Hk, E. by eapply Hm.
Qed.
Lemma keeps_on_bn {A} (m : bnM A) : keeps_buffer (on_bn m).
Proof. intros [w c] x s' Hs E. unfold on_bn in E. destruct (m w) as [[y w']|]; by simplify_eq. Qed.
Lemma keeps_on_act {A} (m : act cbb_world A) : Keeps true 0 m -> keeps_buffer (on_act m).
Proof. intros Hm [w c] x s' Hs E. unfold on_act in E. specialize (Hm c Hs). destruct (m c) as [o c']. by simplify_eq. Qed.

Ltac keeping loop := repeat first
  [ progress intros | loop | apply keeps_ret | apply keeps_wrong | apply keeps_on_bn | apply keeps_bind
  | apply keeps_on_act, Keeps_add_u8 | case_match ].

Lemma Keeps_finish : Keeps true 0 (CBB_finish 0 true true).
Proof.
  intros c Hc. pose proof (CBB_flush_wp true 0 0 c Hc) as Hf. unfold CBB_finish. cbn [Nat.eqb negb].
  unfold mbind, act_bind. unfold wp in Hf. destruct (CBB_flush 0 c) as [[u|] c']; [|exact Hf].
  unfold read_obj. rewrite andb_false_r. cbn [write_obj]. unfold write_obj, mret, act_ret. cbn [snd].
  destruct Hf as ((Hr & Hcap & Hlen & _) & Hch). pose proof (len_nonneg (base c')).
  destruct (children c') eqn:Ech; [|done]. unfold Inv, set_buf, set_base. cbn [base children can_resize cap]. rewrite Ech.
  unfold len. cbn. split_and!; (done || lia).
Qed.

Lemma Keeps_dec_digits m : forall pad x, Keeps true 0 (dec_digits m pad x).
Proof.
  induction m as [|m IH]; intros pad x; cbn [dec_digits]; [apply Keeps_ret|].
  destruct (_ || _); [|apply Keeps_ret]. apply Keeps_bind; [apply Keeps_add_u8|intros _; apply IH].
Qed.

Lemma keeps_bn2dec_loop fuel p : keeps_buffer (bn2dec_loop fuel p).
Proof.
  induction fuel as [|fuel IH]; cbn [bn2dec_loop]; unfold c_assert;
    keeping ltac:(first [apply IH|apply keeps_on_act, Keeps_dec_digits]).
Qed.

Lemma keeps_bn2dec_body malloc a : keeps_buffer (bn2dec_body malloc a).
Proof. unfold bn2dec_body. keeping ltac:(first [apply keeps_bn2dec_loop|apply keeps_on_act, Keeps_finish]). Qed.

Section print.
Context (malloc : gmap Z bignum -> Z) (a : Z) (ba : bignum) (w : bn_world).
Context (Ha : bns w !! a = Some ba) (Hok : bn_ok ba).
Context (Hfresh : bns w !! malloc (bns w) = None) (Hnull : malloc (bns w) <> NULL) (Hna : a <> NULL).

(** A copy at a new address, or nothing. *)
Lemma BN_dup_spec :
  exists q h o, BN_dup malloc a w = Some (q, mk_bn_world h o) /\ (true ∈ o -> true ∈ bn_oom w)
    /\ if q =? NULL then h = bns w /\ true ∈ bn_oom w
       else q = malloc (bns w) /\ exists b', h = <[q := b']> (bns w) /\ bn_ok b' /\ bn_flags b' = BN_FLG_MALLOCED
              /\ bn_abs b' = bn_abs ba /\ bn_width b' = bn_width ba.
Proof.
  unfold BN_dup, BN_new. rewrite (proj2 (Z.eqb_neq a NULL) Hna). destruct (bn_alloc_ok_spec w) as (o & E & Ho).
  assert (Hin : forall o1, true ∈ o1 -> oom_after (mk_bn_world (bns w) o) o1 -> true ∈ bn_oom w).
  { intros o1 H1 Ho1. apply (fails_after w o Ho). by apply (fails_after _ _ Ho1). }
  destruct (hd false (bn_oom w)) eqn:Eh.
  { exists NULL, (bns w), o. rewrite (part_bind_some _ _ w NULL (mk_bn_world (bns w) o))
      by (by rewrite (part_bind_some _ _ _ _ _ E)).
    split_and!; [done|by apply fails_after|]. split; [done|]. destruct (bn_oom w); [done|]. cbn in Eh. subst. apply list_elem_of_here. }
  set (b0 := mk_bn [] 0 0 0 BN_FLG_MALLOCED). set (q := malloc (bns w)) in *.
  rewrite (part_bind_some _ _ w q (mk_bn_world (<[q := b0]> (bns w)) o)) by (by rewrite (part_bind_some _ _ _ _ _ E)).
  rewrite (proj2 (Z.eqb_neq q NULL) Hnull). assert (Hqa : a <> q) by congruence.
  assert (Hok0 : bn_ok b0) by (unfold bn_ok; cbn; split_and!; (done || constructor; done || by left)).
  destruct (BN_copy_spec q a b0 ba (mk_bn_world (<[q := b0]> (bns w)) o)) as (ok & b' & o' & E' & Hok' & Hf & Ho' & HP);
    [apply lookup_insert_eq|cbn; by rewrite lookup_insert_ne by congruence|done|done|done|].
  cbn [bns] in E'. rewrite insert_insert_eq in E'. rewrite (part_bind_some _ _ _ _ _ E').
  destruct ok; cbn [negb].
  - exists q, (<[q := b']> (bns w)), o'. rewrite (proj2 (Z.eqb_neq q NULL) Hnull). split_and!; [done|intros; by eapply Hin|done|].
    destruct HP as [_ Hl]. exists b'. split_and!; [done|done|done|unfold bn_abs; by rewrite Hl|].
    rewrite <-(limbs_length b' Hok'), <-(limbs_length ba Hok). by rewrite Hl.
  - exists NULL, (bns w), o'. rewrite (free_malloced q b' (bns w) o' _ Hf Hfresh Hnull). split_and!; [done|intros; by eapply Hin|].
    split; [done|]. destruct HP as [HP|HP]; [destruct Hok as (? & _ & ? & _); lia|].
    cbn in HP. apply (Hin o); [|by left]. destruct o; [done|]. cbn in HP. subst. apply list_elem_of_here.
Qed.
(** The digits of a number, one for zero. *)
Definition dec_body (v : Z) : list Z := if v =? 0 then [48] else dec_of v.
(** The text of a number. *)
Definition dec_text (neg : Z) (v : Z) : list Z := (if neg =? 0 then [] else [45]) ++ dec_body v.

(** Why a text is not written. *)
Definition dec_fails (oom : list bool) : Prop :=
  true ∈ oom \/ bn_abs ba <> 0 /\ BN_MAX_WORDS <= bn_width ba \/ true ∈ bn_oom w.

(** What is to be freed at the end. *)
Definition holds_copy (copy : Z) (w' : bn_world) : Prop :=
  copy = NULL /\ bns w' = bns w
  \/ copy = malloc (bns w) /\ exists b', bns w' = <[copy := b']> (bns w) /\ bn_flags b' = BN_FLG_MALLOCED.

Lemma digits_stage c :
  text_builder c (2 ^ 50) ->
  exists ok copy w' c',
    (zero ← on_bn (BN_is_zero a);
     if (zero : bool) then
       r ← on_act (CBB_add_u8 0 48);
       mret (match r with Some _ => true | None => false end, NULL)
     else
       copy ← on_bn (BN_dup malloc a);
       if copy =? NULL then mret (false, NULL)
       else
         bits ← on_bn (BN_num_bits copy);
         ok ← bn2dec_loop (S (Z.to_nat bits)) copy;
         mret (ok, copy)) (w, c) = Some ((ok, copy), (w', c'))
    /\ holds_copy copy w'
    /\ if ok : bool then extends c c' (rev (dec_body (bn_abs ba))) else dec_fails (oom c).
Proof.
  intros Hc. unfold dec_body. rewrite (part_bind_some _ _ _ _ _ (on_bn_read _ _ _ _ (BN_is_zero_spec a ba w Ha Hok))).
  destruct (Z.eqb_spec (bn_abs ba) 0) as [E0|E0].
  { destruct (on_act_writes (CBB_add_u8 0 48) [48] 0 w c) as (r & c' & E & Hr);
      [apply CBB_add_u8_writes; unfold is_byte; lia|destruct Hc as (? & ? & ?); split_and!; [done|done|cbn; lia]|lia|].
    rewrite (part_bind_some _ _ _ _ _ E). do 4 eexists. split; [done|]. split; [by left|].
    destruct r as [x|]; [apply Hr|by left]. }
  destruct BN_dup_spec as (q & h & o & E & Ho & Hq).
  rewrite (part_bind_some _ _ (w, c) q (mk_bn_world h o, c)) by (unfold on_bn; by rewrite E).
  destruct (Z.eqb_spec q NULL) as [->|Hqn].
  { destruct Hq as [-> Hq]. do 4 eexists. split; [done|]. split; [by left|]. by right; right. }
  destruct Hq as (-> & b' & -> & Hok' & Hf' & Habs & Hwd). set (q := malloc (bns w)) in *.
  assert (Hb' : bns (mk_bn_world (<[q:=b']> (bns w)) o) !! q = Some b') by apply lookup_insert_eq.
  rewrite (part_bind_some _ _ _ _ _ (on_bn_read _ _ _ _ (BN_num_bits_spec q b' _ Hb' Hok'))), Habs.
  pose proof (bit_length_nonneg (bn_abs ba)) as Hn. pose proof (bn_bits_bound ba Hok) as Hbits.
  change (64 * BN_MAX_WORDS) with (64 * 8388607) in Hbits. pose proof (bn_abs_range ba Hok) as Hr.
  pose proof (bit_length_lt (bn_abs ba) ltac:(lia)) as Hlt.
  destruct (bn2dec_loop_spec q (S (Z.to_nat (bit_length (bn_abs ba)))) b' (mk_bn_world (<[q:=b']> (bns w)) o) c)
    as (ok & b2 & o2 & c2 & E2 & Hf2 & HP); [done|done|by unfold owned; rewrite Hf'| |
      destruct Hc as (? & ? & ?); split_and!; [done|done|lia]|].
  { rewrite Habs, Nat2Z.inj_succ, Z2Nat.id, Z.pow_succ_r by lia. lia. }
  rewrite (part_bind_some _ _ _ _ _ E2). cbn [bns bn_oom] in *. rewrite insert_insert_eq in *. do 4 eexists.
  split; [done|]. split; [right; split; [done|exists b2; split; [done|congruence]]|].
  rewrite Habs in HP. destruct ok; [unfold dec_of; rewrite rev_involutive; apply HP|]. rewrite Hwd in HP.
  destruct HP as [[HP|HP]|HP]; [right; left; split; [done|lia]|right; right; by apply Ho|by left].
Qed.

Lemma length_dec_body : lenZ (dec_body (bn_abs ba)) <= 2 ^ 40.
Proof.
  unfold dec_body. case_bool; [cbn; lia|]. pose proof (bn_bits_bound ba Hok) as Hbits.
  change (64 * BN_MAX_WORDS) with (64 * 8388607) in Hbits. pose proof (bit_length_nonneg (bn_abs ba)).
  pose proof (bn_abs_range ba Hok). pose proof (bit_length_lt (bn_abs ba) ltac:(lia)).
  destruct (le_dec_spec (S (Z.to_nat (bit_length (bn_abs ba)))) (bn_abs ba)) as (_ & _ & Hl & _).
  { rewrite Nat2Z.inj_succ, Z2Nat.id, Z.pow_succ_r by lia. lia. }
  unfold dec_of. rewrite length_rev. lia.
Qed.

Lemma bn2dec_body_spec c :
  ready 0 c -> can_resize (base c) = true -> buf (base c) = [] ->
  exists text copy w' c',
    bn2dec_body malloc a (w, c) = Some ((text, copy), (w', c')) /\ holds_copy copy w'
    /\ match text with Some t => t = dec_text (bn_neg ba) (bn_abs ba) ++ [0] | None => dec_fails (oom c) end.
Proof.
  intros Hc Hres Hbuf. pose proof length_dec_body as Hlen. unfold bn2dec_body.
  assert (Hc0 : text_builder c (lenZ [0] + (2 ^ 50 + 2)))
    by (split_and!; [done|done|unfold len; rewrite Hbuf; cbn; lia]).
  destruct (on_act_writes (CBB_add_u8 0 0) [0] (2 ^ 50 + 2) w c) as (r & c1 & E1 & H1);
    [by apply CBB_add_u8_writes|done|lia|]. rewrite (part_bind_some _ _ _ _ _ E1).
  destruct r as [[]|]; [|exists None, NULL, w, c1; split_and!; [done|by left|by left]].
  destruct H1 as [_ He1]. destruct (text_builder_extends _ _ _ _ Hc0 He1) as [Hc1 Ho1].
  destruct (digits_stage c1) as (ok & copy & w' & c2 & E2 & Hcopy & H2);
    [destruct Hc1 as (? & ? & ?); split_and!; [done|done|lia]|].
  rewrite (part_bind_bind _ _ _ _ _ _ E2). cbn beta iota.
  assert (Hfail : dec_fails (oom c1) -> dec_fails (oom c)) by (intros [?|?]; [left; by apply Ho1|by right]).
  destruct ok; cbn [negb]; [|exists None, copy, w', c2; split_and!; [done|done|by apply Hfail]].
  assert (Hc1' : text_builder c1 (lenZ (rev (dec_body (bn_abs ba))) + 2))
    by (destruct Hc1 as (? & ? & ?); split_and!; [done|done|rewrite length_rev; lia]).
  destruct (text_builder_extends _ _ _ _ Hc1' H2) as [Hc2 Ho2].
  assert (Hw' : bns w' !! a = Some ba).
  { destruct Hcopy as [[_ ->]|(-> & b' & -> & _)]; [done|]. rewrite lookup_insert_ne; [done|congruence]. }
  assert (Eneg : on_bn (BN_is_negative a) (w', c2) = Some (negb (bn_neg ba =? 0), (w', c2))).
  { apply on_bn_read. unfold BN_is_negative. by erewrite part_bind_some by (by apply get_neg_spec). }
  rewrite (part_bind_some _ _ _ _ _ Eneg). set (sign := if bn_neg ba =? 0 then [] else [45]).
  assert (Hs : exists r c3, (if negb (bn_neg ba =? 0) then on_act (CBB_add_u8 0 45) else mret (Some tt)) (w', c2) = Some (r, (w', c3))
    /\ match r with Some _ => extends c2 c3 sign | None => true ∈ oom c2 end).
  { unfold sign. destruct (bn_neg ba =? 0); cbn [negb].
    - exists (Some tt), c2. split; [done|]. by eapply extends_refl, Hc2.
    - destruct (on_act_writes (CBB_add_u8 0 45) [45] 1 w' c2) as (r & c3 & E3 & H3); [by apply CBB_add_u8_writes|done|lia|].
      exists r, c3. split; [done|]. destruct r; [apply H3|done]. }
  destruct Hs as (r & c3 & E3 & H3). rewrite (part_bind_some _ _ _ _ _ E3).
  destruct r as [u|]; [|exists None, copy, w', c3; split_and!; [done|done|left; by apply Ho1, Ho2]].
  pose proof (extends_trans _ _ _ _ _ (extends_trans _ _ _ _ _ He1 H2) H3) as He.
  destruct (CBB_finish_ready c3 (ready_extends _ _ _ _ Hc He)) as [c4 Ef].
  rewrite (part_bind_some _ _ (w', c3) (Some (buf (base c3))) (w', c4)) by (unfold on_act; by rewrite Ef).
  exists (Some (rev (buf (base c3)))), copy, w', c4. split_and!; [done|done|].
  destruct He as (_ & -> & _). rewrite Hbuf. cbn [app rev]. rewrite !rev_app_distr, rev_involutive.
  unfold dec_text. fold sign. unfold sign. by destruct (bn_neg ba =? 0).
Qed.

(** A new builder of a text. *)
Lemma new_builder_spec oom junk n :
  exists ok c, new_builder 16 oom junk (w, n) = Some ((ok, c), (w, if ok : bool then n + 1 else n))
    /\ if ok then ready 0 c /\ Inv true 0 c /\ buf (base c) = [] /\ (true ∈ Cbb.oom c -> true ∈ oom)
       else can_resize (base c) = false /\ true ∈ oom.
Proof.
  unfold new_builder, CBB_init. change (0 <? 16) with true. cbn [andb]. destruct (match oom with b :: _ => b | [] => false end) eqn:E.
  - exists false. eexists. split; [reflexivity|]. split; [done|]. destruct oom; [done|]. subst. apply list_elem_of_here.
  - exists true. eexists. split; [reflexivity|]. split; [done|]. split; [done|]. split; [done|].
    cbn. destruct oom; [done|]. apply list_elem_of_further.
Qed.

Lemma free_copy copy w' (n : Z) :
  holds_copy copy w' -> on_bn (BN_free copy) (w', n) = Some (tt, (mk_bn_world (bns w) (bn_oom w'), n)).
Proof.
  intros Hc. unfold on_bn, holds_copy in *. destruct w' as [h o]. cbn [bns bn_oom] in *. destruct Hc as [[-> ->]|(-> & b' & -> & Hf)]; [done|].
  pose proof (free_malloced (malloc (bns w)) b' (bns w) o tt Hf Hfresh Hnull) as E. unfold mbind, part_bind in E.
  destruct (BN_free _ _) as [[[] w1]|]; [|done]. unfold mret, part_ret in E. by simplify_eq.
Qed.

(** [BN_bn2dec] writes the number, or an allocation failed, or the number has as many
    words as a BIGNUM may have; and it leaves no object behind, nor a buffer but that of
    the text. *)
Lemma BN_bn2dec_spec oom junk n :
  0 <= n ->
  exists text o, BN_bn2dec malloc a oom junk (w, n)
      = Some (text, (mk_bn_world (bns w) o, match text with Some _ => n + 1 | None => n end))
    /\ match text with Some t => t = dec_text (bn_neg ba) (bn_abs ba) ++ [0] | None => dec_fails oom end.
Proof.
  intros Hn. unfold BN_bn2dec. destruct (new_builder_spec oom junk n) as (ok & c & E & Hc). rewrite (part_bind_some _ _ _ _ _ E).
  destruct ok.
  2: { destruct Hc as [Hr Ho]. erewrite part_bind_some by reflexivity. cbn beta iota.
       rewrite (part_bind_some _ _ _ _ _ (free_copy NULL w n ltac:(by left))).
       exists None, (bn_oom w). split; [|by left]. unfold CBB_cleanup, mbind, part_bind. by rewrite Hr. }
  destruct Hc as (Hc & Hi & Hbuf & Hoom). destruct (bn2dec_body_spec c Hc (proj1 Hi) Hbuf) as (text & copy & w' & c' & Eb & Hcopy & Ht).
  rewrite (part_bind_some _ _ (w, n + 1) ((text, copy), c') (w', n + 1)) by (unfold on_builder; by rewrite Eb). cbn beta iota.
  rewrite (part_bind_some _ _ _ _ _ (free_copy copy w' (n + 1) Hcopy)).
  pose proof (keeps_bn2dec_body malloc a _ _ _ (Hi : Inv true 0 (w, c).2) Eb) as (Hr & _). cbn [snd] in Hr.
  exists text, (bn_oom w'). destruct text as [t|]; [by split|]. split.
  - unfold CBB_cleanup, mbind, part_bind. rewrite Hr, (proj2 (Z.ltb_lt 0 (n + 1))) by lia. unfold mret, part_ret. do 3 f_equal. lia.
  - destruct Ht as [Ht|Ht]; [left; by apply Hoom|by right].
Qed.
End print.

(** ** Both *)

Lemma dec_body_spec v :
  0 <= v -> dec_digit_list (dec_body v) /\ number_of 10 (dec_body v) = v
  /\ (exists c l, dec_body v = c :: l /\ c <> 0 /\ c <> 45) /\ (v <> 0 -> char_at (dec_body v) 0 <> 48).
Proof.
  intros Hv. unfold dec_body. destruct (Z.eqb_spec v 0) as [->|H0].
  { split_and!; [by repeat constructor|done|by exists 48, []|done]. }
  destruct (dec_of_spec v Hv) as (H1 & H2 & H3). destruct (H3 H0) as (c & l & E & Hc). rewrite E in *.
  split_and!; [done|done| |done]. apply Forall_cons in H1 as [H1 _]. exists c, l. unfold OPENSSL_isdigit in H1.
  split; [done|lia].
Qed.

Lemma dec_body_length v : 0 <= v -> lenZ (dec_body v) <= Z.max 1 (bit_length v).
Proof.
  intros Hv. unfold dec_body. destruct (Z.eqb_spec v 0) as [->|H0]; [cbn; lia|].
  destruct (dec_of_spec v Hv) as (H1 & H2 & H3). destruct (H3 H0) as (c & l & E & Hc). rewrite E in *.
  apply Forall_cons in H1 as [Hd Hl]. pose proof (dec_number_range l Hl). rewrite number_of_cons in H2.
  destruct (digit_decimal c Hd) as [Ed Hr]. pose proof (bit_length_lt v Hv). cbn [length].
  assert (2 ^ lenZ l <= 10 ^ lenZ l) by (apply Z.pow_le_mono_l; lia).
  assert (lenZ l < bit_length v); [|lia]. pose proof (bit_length_nonneg v).
  apply (Z.pow_lt_mono_r_iff 2); [lia|lia|]. assert (1 <= digit c) by lia. nia.
Qed.

(** C20. Decimal. [BN_bn2dec] gives a text of any number but one that is not zero and has
    as many words as a BIGNUM may have, unless an allocation fails. It frees all that it
    allocated, the copy of the number and, on an error, the buffer of the text, and so
    the only buffer left is that of the text it returns. The text is a sign if the number
    has one and the decimal digits of the number, without a zero in front but for zero
    itself, with a terminator. [BN_dec2bn] takes exactly that text and leaves the number in
    its destination, a BIGNUM with any value before, unless an allocation fails. *)
Theorem BN_dec_roundtrip malloc a ba w n oom junk :
  bns w !! a = Some ba -> bn_ok ba -> a <> NULL -> 0 <= n ->
  bns w !! malloc (bns w) = None -> malloc (bns w) <> NULL ->
  exists text o, BN_bn2dec malloc a oom junk (w, n)
      = Some (text, (mk_bn_world (bns w) o, match text with Some _ => n + 1 | None => n end))
    /\ match text with
       | None => true ∈ oom \/ true ∈ bn_oom w \/ bn_abs ba <> 0 /\ BN_MAX_WORDS <= bn_width ba
       | Some t =>
         exists sign digits, t = sign ++ digits ++ [0]
           /\ sign = (if bn_neg ba =? 0 then [] else [45]) /\ Forall (fun c => 48 <= c <= 57) digits
           /\ number_of 10 digits = bn_abs ba /\ digits <> []
           /\ (bn_abs ba <> 0 -> char_at digits 0 <> 48) /\ (bn_abs ba = 0 -> digits = [48])
           /\ forall r br v, bns v !! r = Some br -> bn_ok br -> owned br -> r <> NULL ->
              reads r br v (true ∈ bn_oom v) (lenZ (sign ++ digits)) (bn_val ba) (BN_dec2bn malloc (Some r) text v)
       end.
Proof.
  intros Ha Hok Hna Hn Hfresh Hnull.
  destruct (BN_bn2dec_spec malloc a ba w Ha Hok Hfresh Hnull Hna oom junk n Hn) as (text & o & E & Ht).
  exists text, o. split; [exact E|]. destruct text as [t|]; [|unfold dec_fails in Ht; tauto].
  pose proof (bn_abs_range ba Hok) as Habs. pose proof (length_dec_body ba Hok) as Hlen.
  destruct (dec_body_spec (bn_abs ba) ltac:(lia)) as (Hd & Hv & Hfirst & Hlead). subst t.
  exists (if bn_neg ba =? 0 then [] else [45]), (dec_body (bn_abs ba)). unfold dec_text. rewrite <-app_assoc.
  split_and!; [done|done| |done|destruct Hfirst as (c & l & -> & _); done|done|by intros -> |].
  { eapply Forall_impl; [exact Hd|]. intros c. unfold OPENSSL_isdigit. lia. }
  intros r br v Hr Hbr Hown Hrn.
  destruct (text_of_parts OPENSSL_isdigit 10 (bn_neg ba) (dec_body (bn_abs ba)) eq_refl Hd Hfirst) as (H0 & Ed & Eu & Ev).
  pose proof (BN_dec2bn_spec malloc r br v _ Hr Hbr Hown Hrn H0) as Hread. rewrite Ed, Eu, Ev, Hv in Hread.
  destruct Hread as (ok & b' & o' & Er & Hok' & Hf & HP).
  { pose proof (dec_body_length (bn_abs ba) ltac:(lia)). pose proof (bn_bits_bound ba Hok) as Hbits.
    change (64 * BN_MAX_WORDS) with (64 * 8388607) in Hbits. rewrite !length_app. unfold INT_MAX. case_match; cbn [length]; lia. }
  exists ok, b', o'. split_and!; [|done|done|].
  - rewrite Er. do 3 f_equal. rewrite !length_app. cbn [length]. destruct ok; [lia|done].
  - destruct ok; [exact HP|]. destruct HP as [HP|HP]; [by destruct (bn_not_too_big ba Hok)|done].
Qed.

(** -5 in an array of two words, with memory for the copy and the text; three buffers are
    allocated before. *)
Lemma BN_dec_roundtrip_witness :
  exists text o, BN_bn2dec bump 2 [] 0 (three_numbers, 3)
      = Some (text, (mk_bn_world (bns three_numbers) o, match text with Some _ => 4 | None => 3 end))
    /\ match text with
       | None => true ∈ [] \/ true ∈ bn_oom three_numbers \/ 5 <> 0 /\ BN_MAX_WORDS <= 2
       | Some t =>
         exists sign digits, t = sign ++ digits ++ [0]
           /\ sign = [45] /\ Forall (fun c => 48 <= c <= 57) digits
           /\ number_of 10 digits = 5 /\ digits <> []
           /\ (5 <> 0 -> char_at digits 0 <> 48) /\ (5 = 0 -> digits = [48])
           /\ forall r br v, bns v !! r = Some br -> bn_ok br -> owned br -> r <> NULL ->
              reads r br v (true ∈ bn_oom v) (lenZ (sign ++ digits)) (-5) (BN_dec2bn bump (Some r) text v)
       end.
Proof.
  apply (BN_dec_roundtrip bump 2 (mk_bn [5; 0] 1 2 1 1) three_numbers 3 [] 0); [done| |done|done|done|done].
  by apply (three_numbers_ok 2).
Defined.

(** The text, when there is memory; and nothing left when the text has no room to grow. *)
Example bn2dec_runs :
  fst <$> BN_bn2dec bump 2 [] 0 (three_numbers, 3) = Some (Some [45; 53; 0])
  /\ (fun r => (r.1, r.2.2)) <$> BN_bn2dec bump 2 [true] 0 (three_numbers, 3) = Some (None, 3).
Proof. split; vm_compute; reflexivity. Qed.
